(* ===== verification/_CoqProject ===== *)
-Q . S2P
Prelude.v
ByteCodec.v
StdMap.v
StdString.v
StringUtil.v
CastUtil.v
Dates.v
CronTimer.v
Tasks.v
PoolThread.v
ThreadPool.v
WorkerPool.v
Element.v
SimpleXmlParser.v
QueryBuilder.v
Amef.v
TextCoding.v
Bigint.v
Json.v
Http2Frames.v
Http2Wire.v
Http2Types.v
HpackNumber.v
Huffman.v
Hpack.v
Http2Stream.v
Http2Handler.v
WebSocket.v
MemoryCache.v
RegexUtil.v
Routing.v
Sockets.v
CacheMap.v
DistoCache.v
DistoClient.v
Http1Parser.v
Multipart.v
HttpRequest.v
HttpResponse.v
WebRequest.v
Forms.v
RequestBuilder.v
Rest.v
Security.v
Cors.v
Service.v
Http11.v
Http11Server.v
