(* ===== verification/Prelude.v ===== *)
(** * ffead-cpp, verified

    ffead-cpp is a web application server: it accepts connections, speaks HTTP/1.1,
    HTTP/2 and WebSocket on them, hands requests to the controllers of an application and
    sends back what they answer.  This development models the way of a request from the bytes
    of a connection to the bytes of the answer, the thread pools it runs on, and the services
    beside it: the caches, the serializers, the jobs and the helpers these rest on.  Paths
    are under [src/src/modules/], those of [framework/] under [src/src/].

    ** The parts, and where they are

    Foundations:
    - [Prelude], this file: outcomes, byte strings, machine integers, tactics.
    - [ByteCodec]: the integer and byte string conversions of [common/CommonUtils.cpp].
    - [StdMap], [StdString]: what the sources use of [std::map], [std::string] and C.
    - [StringUtil], [CastUtil], [TextCoding], [RegexUtil]: [common/StringUtil.cpp],
      [CastUtil.h], the codings of [CryptoHandler.cpp] and [hescape.cpp], [RegexUtil.cpp].
    - [Bigint], [Dates]: [common/Bigint.cpp], [common/Date.cpp].

    Connections and protocols:
    - [Http2Frames], [Http2Wire], [Http2Types]: the frame classes of
      [http/http20/Http2*Frame], and framing on the wire in [Http2Handler.cpp].
    - [HpackNumber], [Huffman], [Hpack]: header compression, [Http2HPACKContext.cpp].
    - [Http2Stream], [Http2Handler]: the stream state machine and the HTTP/2 connection with
      its flow control, [Http2StreamHandler.cpp], [Http2Handler.cpp].
    - [WebSocket]: [http/http11/Http11WebSocket*].
    - [Sockets]: [BaseSocket] and [SocketInterface] of [server-util/SocketInterface.cpp],
      and the output queue of [Http11Socket] in [server-util/RequestHandler2.cpp].
    - [Http1Parser], [Http11], [Http11Server]: the head parser
      [common/picohttpparser_fcp.cpp], reading requests off a connection
      ([http/http11/Http11Handler.cpp], [http/HttpServiceHandler.cpp]), and the connection of
      the multi-request server, which composes [Sockets], [Http11], the service and
      [HttpResponse].

    Requests and what becomes of them:
    - [HttpRequest], [WebRequest], [Multipart], [Forms], [RequestBuilder], [HttpResponse],
      [Cors]: the objects of [http/], parameters, forms and uploads, requests made of HTTP/2
      headers, answers from files, cross-origin requests.
    - [Routing], [Rest], [Security], [Service]: [framework/ConfigurationData.cpp],
      [ControllerHandler.cpp], [SecurityHandler.cpp], [FilterHandler.cpp],
      [FileAuthController.cpp], [ServiceTask.cpp].

    Beside them:
    - [MemoryCache]: the cache of [cache/memory/MemoryCacheImpl.cpp].
    - [CacheMap], [DistoCache], [DistoClient]: the distributed cache of [distocache/], its
      store, its server and its client with [client-util/Client.cpp].
    - [Json], [Amef], [Element], [SimpleXmlParser]: JSON ([common/JSONUtil.cpp]), the binary
      encoding of [serialization/binary/], XML documents and their parser.
    - [QueryBuilder]: queries built from clauses, the mapping of classes to tables and the SQL
      text with its parameters, of [sdorm/] and [sdorm/sql/SQLDataSourceImpl.cpp].
    - [CronTimer]: cron expressions and jobs, [jobs/].
    - [Tasks], [PoolThread], [ThreadPool], [WorkerPool]: the thread pools of [threads/]: tasks
      and the pool they wait in, the worker that serves connections, the choice of a worker,
      and the workers of priority and scheduled pools.

    A state of the code is a record with the members of its class; an operation is a
    definition with the name of the function it models; a C++ exception, undefined
    behaviour and a loop that does not end are the outcomes [Throw], [Undefined] and
    [Out_of_fuel].  Where threads meet, a step relation takes what no other thread can see
    half of as one step.

    ** What the theorems show

    - Reading does not depend on how the bytes arrive: [receive_reassembles] for HTTP/2
      frames, [http1_requests_reassemble] for HTTP/1 requests, [websocket_frame_waits].
    - Writing and reading are inverse: [hpack_roundtrip], [huffman_roundtrip],
      [frame_payload_roundtrip], [request_head_roundtrip], [websocket_message_roundtrip],
      [small_file_reaches_client], [json_roundtrip], [amef_roundtrip], [xml_roundtrip],
      [bigint_text_roundtrip], [session_roundtrip], [date_days_roundtrip], and others.
    - The connections do what they promise: [connection_answers_everything] and
      [connection_answers_in_order] (every pipelined request is answered, in order, under
      partial writes), [response_reaches_peer], [outbuf_is_fifo], [large_file_chunked].
    - The workers do: [tasks_run_once], [all_tasks_run], [tasks_run_in_order],
      [priority_tasks_run_once]; a connection keeps its worker and the load is even
      ([connections_keep_worker]), also when many threads submit ([counter_bounds]).
    - The state stays well formed: [reachable_streams_ok], [received_frames_typed]; and
      contracts are met: [cache_refines_lru], [cachemap_refines] and [remote_calls] relate
      the caches to lists and maps, [rest_lookup] the search for a function to its
      specification.
    - Optimised code equals its reference: [hesc_is_reference], [encodeHuffman_bits],
      [header_block_fragmentation], [comparisons_chronological].
    - Requests find what they should: [url_patterns], [public_files],
      [multipart_fields_stored], [form_fields_stored], [children_found]; the places of a
      query get their values ([parameters_match_places], [mapped_both_ways]); jobs run when
      they are due ([job_runs_when_due], [expression_reads]).
    - Security: [cors_grants_only_listed], [sanitized_is_safe], and what the code leaves
      open: [secured_paths_stay_open].
    - Loops end: [drain_terminates], [request_parser_terminates], [json_parser_terminates];
      or do not: [xml_parser_diverges].
    - Where the code goes wrong, theorems say how: errors and divergences of HPACK,
      WebSocket, the caches, sockets, CORS, regular expressions and dates;
      [http2_requests_fail], [every_minute_stops], [scheduled_tasks_never_run],
      [idle_pool_never_joins], [stop_is_unsafe], [conditions_in_a_row].

    ** Interfaces

    What a part uses of another, or of code outside, is a class: [HttpRequestOps] and
    [HttpResponseOps] (the request and response objects as HTTP/2 uses them),
    [Environment] (clock, MIME types, file times, compressors), [LongDouble]
    ([long double] and its formatting), [Regex], [ConcurrentQueue] (the queue of a worker);
    the compiled controllers are arguments.  Laws are separate classes
    ([LongDoubleExact], [RegexLaws], [OneProducer]); every theorem that uses them has a
    concrete instance beside it.  The theorems about the client of the distributed cache
    are about any exchange of messages that gives the server's reply.  The kernel is a list
    of answers to [send] and [recv]; the clock is an argument, a reading for each time the
    code asks.

    ** Fuel

    Loops whose recursion is not structural carry fuel, and a lemma says that what the
    operation passes is enough: [drain] one step per byte and one more; [decode] and the
    Huffman decoder the length of the input; [parse_headers_fcp], [search] and
    [replaceAll] one round per byte and one more; [read_task] and [handle] one request
    per byte and one more; [clean] one round per entry; [remaining_loop] one round per
    chunk and two more; JSON, XML, their helpers and AMEF packets the length of the text and
    one more; [groups] of [Bigint] one round per digit; the HTML escaper's [grow] doubles;
    [print_number] 64 digits.  [writeTo], [readFrom], [recv_all] and the loop of a job
    recurse on the answers of the kernel and the readings of the clock.

    ** Not modelled

    TLS, io_uring and the event loops (system calls); reflection and the code it generates,
    templates and the interpreter, whose work is in the generated classes; database drivers
    and the statements that store objects, clients of remote services and search engines,
    which are sequences of calls into their libraries; CSV and property files and the reading of the configuration (files);
    decimals and everything in floating point beside [long double] counters, so the elapsed
    times of timers too; plug-in strings; the SSE variants of the parsers; [strftime] and
    [strptime]; and vendored libraries.  Threads share state in [PoolThread], [WorkerPool],
    [ThreadPool] and [Rest]; elsewhere an operation runs with its lock held, and locks
    that stay taken are followed as part of the state. *)

From Stdlib Require Export ZArith Lia.
From stdpp Require Export base tactics numbers option list gmap strings.
From Stdlib Require Import Ascii.

#[global] Open Scope Z_scope.

(** ** Outcomes

    A C++ function returns, leaves by an exception, or has undefined behaviour;
    a loop that is translated with a step budget can also exhaust the budget. *)

Inductive exn :=
| Out_of_range        (* std::out_of_range, from at() and substr() *)
| Runtime_error       (* std::runtime_error and the other std exceptions *)
| Http_status (code : Z) (* a thrown HTTPResponseStatus *)
| Literal_text.       (* a thrown string literal *)

(** What [catch(const std::exception&)] catches. *)
Definition is_std (e : exn) : bool := match e with Out_of_range | Runtime_error => true | Http_status _ | Literal_text => false end.

Inductive outcome (A : Type) :=
| Ret (a : A)
| Throw (e : exn)
| Undefined
| Out_of_fuel.
Arguments Ret {A} a.
Arguments Throw {A} e.
Arguments Undefined {A}.
Arguments Out_of_fuel {A}.

#[export] Instance exn_eq_dec : EqDecision exn.
Proof. solve_decision. Defined.
#[export] Instance outcome_eq_dec {A} `{!EqDecision A} : EqDecision (outcome A).
Proof. solve_decision. Defined.

#[export] Instance outcome_ret : MRet outcome := @Ret.
#[export] Instance outcome_bind : MBind outcome := λ A B f o,
  match o with
  | Ret a => f a
  | Throw e => Throw e
  | Undefined => Undefined
  | Out_of_fuel => Out_of_fuel
  end.

Section outcome.
Context {A B C : Type}.
Implicit Types (o : outcome A) (f : A → outcome B) (g : B → outcome C).

Lemma bind_Ret_l (a : A) f : (Ret a ≫= f) = f a.
Proof. reflexivity. Qed.
Lemma bind_assoc o f g : ((o ≫= f) ≫= g) = (o ≫= λ a, f a ≫= g).
Proof. by destruct o. Qed.
Lemma bind_Ret_inv o f (b : B) :
  (o ≫= f) = Ret b ↔ ∃ a, o = Ret a ∧ f a = Ret b.
Proof. split; [destruct o; naive_solver | by intros (a & -> & ?)]. Qed.
End outcome.

(** The budget is the only reason for [Out_of_fuel]. *)
Definition terminates {A} (o : outcome A) : Prop := o ≠ Out_of_fuel.

Lemma terminates_Ret {A} (a : A) : terminates (Ret a).
Proof. done. Qed.
Lemma terminates_bind {A B} (o : outcome A) (f : A → outcome B) :
  terminates o → (∀ a, o = Ret a → terminates (f a)) → terminates (o ≫= f).
Proof. unfold terminates. destruct o; naive_solver. Qed.

(** Nor is there undefined behaviour. *)
Definition defined {A} (o : outcome A) : Prop := o ≠ Undefined.
Lemma defined_bind {A B} (o : outcome A) (f : A → outcome B) :
  defined o → (∀ a, o = Ret a → defined (f a)) → defined (o ≫= f).
Proof. unfold defined. destruct o; naive_solver. Qed.
(** What is left are a result and an exception. *)
Lemma answers {A} (o : outcome A) : terminates o → defined o → (∃ a, o = Ret a) ∨ ∃ e, o = Throw e.
Proof. unfold terminates, defined. destruct o; naive_solver. Qed.

(** ** Machine integers *)

(** The value of an unsigned [w]-bit conversion. *)
Definition wrapu (w x : Z) : Z := x mod 2 ^ w.
(** The value of a conversion to a signed [w]-bit type. *)
Definition wraps (w x : Z) : Z := (x + 2 ^ (w - 1)) mod 2 ^ w - 2 ^ (w - 1).
(** Signed arithmetic: a result that does not fit is undefined behaviour. *)
Definition fits_int (x : Z) : bool := (-2 ^ 31 <=? x) && (x <? 2 ^ 31).
Definition checked_int (x : Z) : outcome Z :=
  if fits_int x then Ret x else Undefined.

(** A result, if there is one, satisfies [P]. *)
Definition ensures {A} (P : A → Prop) (o : outcome A) : Prop := ∀ a, o = Ret a → P a.

Lemma ensures_Ret {A} (P : A → Prop) a : P a → ensures P (Ret a).
Proof. by intros ? b [= <-]. Qed.
Lemma ensures_bind {A B} (Q : A → Prop) (P : B → Prop) (o : outcome A) (f : A → outcome B) :
  ensures Q o → (∀ a, Q a → ensures P (f a)) → ensures P (o ≫= f).
Proof. intros Ho Hf b H. destruct o as [a| | |]; try done. by apply (Hf a); [apply Ho|]. Qed.
Lemma ensures_Undefined {A} (P : A → Prop) : ensures P Undefined.
Proof. done. Qed.
Lemma ensures_Throw {A} (P : A → Prop) e : ensures P (Throw e).
Proof. done. Qed.

Lemma checked_int_Ret x : -2 ^ 31 ≤ x < 2 ^ 31 → checked_int x = Ret x.
Proof. intros. unfold checked_int, fits_int. by replace (_ && _) with true by lia. Qed.
Lemma checked_int_Undefined x : x < -2 ^ 31 ∨ 2 ^ 31 ≤ x → checked_int x = Undefined.
Proof. intros. unfold checked_int, fits_int. by replace (_ && _) with false by lia. Qed.
Lemma wrapu_bound w x : 0 ≤ w → 0 ≤ wrapu w x < 2 ^ w.
Proof. intros. apply Z.mod_pos_bound. lia. Qed.
Lemma wrapu_small w x : 0 ≤ x < 2 ^ w → wrapu w x = x.
Proof. apply Z.mod_small. Qed.
Lemma wrapu_wrapu w x : 0 ≤ w → wrapu w (wrapu w x) = wrapu w x.
Proof. intros. apply Z.mod_mod. lia. Qed.
Lemma wraps_small w x : 0 < w → - 2 ^ (w - 1) ≤ x < 2 ^ (w - 1) → wraps w x = x.
Proof.
  intros Hw Hx. unfold wraps.
  replace (2 ^ w) with (2 * 2 ^ (w - 1))
    by (rewrite <- Z.pow_succ_r by lia; f_equal; lia).
  rewrite Z.mod_small by lia. lia.
Qed.

(** ** Byte strings

    A [std::string] is the list of its bytes, each as an unsigned value; a
    signed [char] is read with [schar]. *)

Abbreviation bytes := (list Z).

Definition byte_ok (b : Z) : Prop := 0 ≤ b < 256.
Definition bytes_ok (s : bytes) : Prop := Forall byte_ok s.
#[export] Instance byte_ok_dec b : Decision (byte_ok b).
Proof. unfold byte_ok. apply _. Defined.
#[export] Instance bytes_ok_dec s : Decision (bytes_ok s).
Proof. unfold bytes_ok. apply _. Defined.

Definition schar (b : Z) : Z := if b <? 128 then b else b - 256.

Definition byte_of_ascii (a : ascii) : Z := Z.of_nat (nat_of_ascii a).
Definition str (s : string) : bytes :=
  map byte_of_ascii (String.list_ascii_of_string s).
Arguments str s%_string.

Lemma str_ok s : bytes_ok (str s).
Proof.
  unfold bytes_ok, str. apply Forall_fmap, Forall_forall. intros a _.
  unfold byte_ok, byte_of_ascii, compose. pose proof (nat_ascii_bounded a). lia.
Qed.

(** [length()], a [size_t]. *)
Definition slen (s : bytes) : Z := Z.of_nat (length s).
Definition npos : Z := 2 ^ 64 - 1.

(** Conversion of an [int] expression to [size_t]. *)
Definition size_t (x : Z) : Z := wrapu 64 x.

Definition at_ (s : bytes) (i : Z) : outcome Z :=
  if (0 <=? i) && (i <? slen s) then Ret (nth (Z.to_nat i) s 0) else Throw Out_of_range.

(** [s[i]] of a readable position: [s[s.size()]] is the terminating zero. *)
Definition index_ (s : bytes) (i : Z) : outcome Z :=
  if (0 <=? i) && (i <=? slen s) then Ret (nth (Z.to_nat i) s 0) else Undefined.

(** [substr(pos, n)]: throws past the end and takes what there is. *)
Definition substr (s : bytes) (pos n : Z) : outcome bytes :=
  if slen s <? pos then Throw Out_of_range
  else Ret (take (Z.to_nat (Z.min n (slen s))) (drop (Z.to_nat pos) s)).
(** [substr] with [int] arguments. *)
Definition substr_int (s : bytes) (pos n : Z) : outcome bytes := substr s (size_t pos) (size_t n).

(** [s[i] = f(s[i])] at a valid position. *)
Definition upd (i : nat) (f : Z → Z) (s : bytes) : bytes := alter f i s.

Lemma cons_app (b : Z) (s : bytes) : b :: s = [b] ++ s.
Proof. done. Qed.
Lemma slen_nonneg s : 0 ≤ slen s.
Proof. unfold slen. lia. Qed.
Lemma slen_nil : slen [] = 0.
Proof. reflexivity. Qed.
Lemma slen_cons b s : slen (b :: s) = slen s + 1.
Proof. unfold slen. simpl. lia. Qed.
Lemma slen_pos s : s ≠ [] → 0 < slen s.
Proof. destruct s; [done|]. rewrite slen_cons. pose proof (slen_nonneg s). lia. Qed.
Lemma slen_app s1 s2 : slen (s1 ++ s2) = slen s1 + slen s2.
Proof. unfold slen. rewrite length_app. lia. Qed.

Lemma at_app_r (s1 s2 : bytes) i :
  slen s1 = i → at_ (s1 ++ s2) i = at_ s2 0.
Proof.
  intros <-. unfold at_. rewrite slen_app.
  pose proof (slen_nonneg s1). pose proof (slen_nonneg s2).
  destruct s2 as [|b s2].
  - rewrite slen_nil. do 2 (case_match; try done); lia.
  - rewrite slen_cons. pose proof (slen_nonneg s2).
    replace (0 <=? slen s1) with true by lia.
    replace (slen s1 <? slen s1 + (slen s2 + 1)) with true by lia.
    replace (0 <? slen s2 + 1) with true by lia. simpl.
    unfold slen. rewrite Nat2Z.id, app_nth2 by lia. by rewrite Nat.sub_diag.
Qed.
Lemma at_0 b s : at_ (b :: s) 0 = Ret b.
Proof.
  unfold at_. rewrite slen_cons. pose proof (slen_nonneg s).
  replace (0 <? slen s + 1) with true by lia. done.
Qed.
Lemma at_1 a b s : at_ (a :: b :: s) 1 = Ret b.
Proof. change (a :: b :: s) with ([a] ++ b :: s). by rewrite at_app_r, at_0. Qed.

Lemma substr_all s n : slen s ≤ n → substr s 0 n = Ret s.
Proof.
  intros. unfold substr. pose proof (slen_nonneg s).
  replace (slen s <? 0) with false by lia. f_equal.
  rewrite drop_0, Z.min_r by lia. unfold slen. rewrite Nat2Z.id. apply firstn_all.
Qed.
Lemma substr_app_r (s1 s2 : bytes) pos n :
  slen s1 = pos → slen s2 ≤ n → substr (s1 ++ s2) pos n = Ret s2.
Proof.
  intros <- ?. unfold substr. rewrite slen_app.
  pose proof (slen_nonneg s1). pose proof (slen_nonneg s2).
  replace (slen s1 + slen s2 <? slen s1) with false by lia. f_equal.
  unfold slen at 3. rewrite Nat2Z.id, drop_app_length.
  apply firstn_all2. unfold slen in *. lia.
Qed.
Lemma substr_app_mid (s1 s2 s3 : bytes) pos n :
  slen s1 = pos → slen s2 = n → substr (s1 ++ s2 ++ s3) pos n = Ret s2.
Proof.
  intros <- <-. unfold substr. rewrite !slen_app.
  pose proof (slen_nonneg s1). pose proof (slen_nonneg s2). pose proof (slen_nonneg s3).
  replace (slen s1 + (slen s2 + slen s3) <? slen s1) with false by lia. f_equal.
  rewrite Z.min_l by lia.
  unfold slen. rewrite !Nat2Z.id, drop_app_length. apply take_app_length.
Qed.
Lemma substr_app_l (s1 s2 : bytes) n : slen s1 = n → substr (s1 ++ s2) 0 n = Ret s1.
Proof. by apply (substr_app_mid []). Qed.
Lemma substr_past s pos n : slen s < pos → substr s pos n = Throw Out_of_range.
Proof. intros. unfold substr. by replace (slen s <? pos) with true by lia. Qed.

Lemma substr_cases s pos n : substr s pos n = Throw Out_of_range ∨ ∃ d, substr s pos n = Ret d.
Proof. unfold substr. case_match; [by left|right; by eexists]. Qed.

Lemma bytes_ok_app s1 s2 : bytes_ok (s1 ++ s2) ↔ bytes_ok s1 ∧ bytes_ok s2.
Proof. apply Forall_app. Qed.
Lemma bytes_ok_cons b s : bytes_ok (b :: s) ↔ byte_ok b ∧ bytes_ok s.
Proof. apply Forall_cons. Qed.
Lemma bytes_ok_nil : bytes_ok [].
Proof. apply Forall_nil. done. Qed.

Lemma bytes_ok_nth s i : bytes_ok s → byte_ok (nth i s 0).
Proof.
  intros Hs. destruct (s !! i) as [b|] eqn:E.
  - rewrite (nth_lookup_Some _ _ _ _ E). by eapply (Forall_lookup_1 _ _ _ _ Hs).
  - rewrite nth_lookup, E. done.
Qed.
Lemma bytes_ok_lookup s i b : bytes_ok s → s !! i = Some b → byte_ok b.
Proof. intros Hs. by apply (Forall_lookup_1 _ _ _ _ Hs). Qed.

Lemma ensures_at s i : bytes_ok s → ensures byte_ok (at_ s i).
Proof. intros Hs b. unfold at_. case_match; [|done]. intros [= <-]. by apply bytes_ok_nth. Qed.
Lemma ensures_index s i : bytes_ok s → ensures byte_ok (index_ s i).
Proof. intros Hs b. unfold index_. case_match; [|done]. intros [= <-]. by apply bytes_ok_nth. Qed.
Lemma ensures_substr s i n : bytes_ok s → ensures bytes_ok (substr s i n).
Proof. intros Hs d. unfold substr. case_match; [done|]. intros [= <-]. by apply Forall_take, Forall_drop. Qed.

(** Facts about single bytes are decided by enumeration. *)
Lemma forall_range (P : Z → bool) lo n : forallb P (seqZ lo n) = true → ∀ i, lo ≤ i < lo + n → P i = true.
Proof. intros H i Hi. rewrite forallb_forall in H. apply H, list_elem_of_In, elem_of_seqZ. lia. Qed.
Lemma forall_bytes (P : Z → bool) :
  forallb P (seqZ 0 256) = true → ∀ b, byte_ok b → P b = true.
Proof.
  intros H b Hb. rewrite forallb_forall in H. apply H.
  apply list_elem_of_In, elem_of_seqZ. unfold byte_ok in Hb. lia.
Qed.

Lemma terminates_at s i : terminates (at_ s i).
Proof. unfold at_. by case_match. Qed.
Lemma terminates_index s i : terminates (index_ s i).
Proof. unfold index_. by case_match. Qed.
Lemma terminates_substr s i n : terminates (substr s i n).
Proof. unfold substr. by case_match. Qed.

(** ** Automation *)

Create HintDb ffead.
Create Rewrite HintDb slen.
#[export] Hint Resolve slen_nonneg str_ok bytes_ok_nil : ffead.
#[export] Hint Rewrite slen_nil slen_cons slen_app : slen.

(** Linear arithmetic about lengths of byte strings. *)
Ltac solve_slen :=
  autorewrite with slen in *;
  repeat match goal with
  | |- context [slen ?s] =>
      lazymatch goal with
      | _ : 0 ≤ slen s |- _ => fail
      | _ => pose proof (slen_nonneg s)
      end
  end; lia.

(** Code without loops does not run out of budget. *)
#[export] Hint Resolve terminates_Ret terminates_at terminates_index terminates_substr : ffead.
Ltac solve_terminates :=
  repeat first
    [ done
    | solve [auto with ffead]
    | apply terminates_bind; [|intros]
    | case_match ].

(** Walks along a hypothesis that says a sequence of calls returned. *)
Ltac inv_ret :=
  repeat match goal with
  | H : mbind _ _ = Ret _ |- _ =>
      apply bind_Ret_inv in H; destruct H as (? & ? & ?)
  | H : Ret _ = Ret _ |- _ => injection H as H; subst
  | H : Throw _ = Ret _ |- _ => discriminate H
  | H : Undefined = Ret _ |- _ => discriminate H
  | H : Out_of_fuel = Ret _ |- _ => discriminate H
  | H : (if ?b then _ else _) = Ret _ |- _ => destruct b eqn:?
  end.
