(* ===== verification/ByteCodec.v ===== *)
(** * ByteCodec

    The integer/byte-string conversions of [CommonUtils.cpp] that every binary
    protocol of the server is built on, and the XOR masking of websocket
    payloads.  The reference encoder is [be_bytes], the big-endian
    representation at a fixed width. *)

From S2P Require Import Prelude.

(** ** The code *)

(** [CommonUtils::charArrayToULongLong(const std::string&)]: an unsigned 64-bit
    accumulator shifted left once per byte. *)
Definition charArrayToULongLong (l : bytes) : Z :=
  foldl (λ t b, wrapu 64 (wrapu 64 (Z.shiftl t 8) + Z.land b 255)) 0 l.

(** The overload with a length: reads [l.at(i)] for [i < ind], so it throws when
    the string is shorter. *)
Definition charArrayToULongLong_n (l : bytes) (ind : nat) : outcome Z :=
  foldl (λ acc i,
    t ← acc; b ← at_ l (Z.of_nat i);
    mret (wrapu 64 (wrapu 64 (Z.shiftl t 8) + Z.land b 255)))
    (Ret 0) (seq 0 ind).

(** The byte loop shared by [ulonglongTocharArray] and [ntb]. *)
Definition ntb (lon : Z) (ind : nat) : bytes :=
  map (λ i, Z.land (Z.shiftr lon (Z.abs ((Z.of_nat ind - 1 - Z.of_nat i) * 8))) 255)
    (seq 0 ind).

(** The number of bytes [ulonglongTocharArray] needs for a value. *)
Definition ulonglong_width (lon : Z) : nat :=
  if lon <? 256 then 1
  else if lon <? 65536 then 2
  else if lon <? 16777216 then 3
  else if lon <? 4294967296 then 4
  else if lon <? 1099511627776 then 5
  else if lon <? 281474976710656 then 6
  else if lon <? 72057594037927936 then 7
  else 8.

(** [CommonUtils::ulonglongTocharArray]: at least [provind] bytes, more when the
    value does not fit ([provind = -1] asks for the minimal width). *)
Definition ulonglongTocharArray (lon provind : Z) : bytes :=
  let ind := ulonglong_width lon in
  let ind := if negb (provind =? -1) && (Z.of_nat ind <? provind)
             then Z.to_nat provind else ind in
  ntb lon ind.

(** [CommonUtils::toBinary]: the bits of every byte, most significant first. *)
Definition byte_bits (b : Z) : list bool :=
  map (Z.testbit b) [7; 6; 5; 4; 3; 2; 1; 0].
Definition toBinary (encv : bytes) : list bool := flat_map byte_bits encv.

(** [CommonUtils::xorEncryptDecrypt]. *)
Definition xorEncryptDecrypt (toEncrypt : bytes) (maskingKey : Z) : bytes :=
  let maskKeystr := ulonglongTocharArray maskingKey 4 in
  imap (λ i b, Z.lxor b (nth (i mod 4) maskKeystr 0)) toEncrypt.

(** ** Reference encoding *)

Fixpoint be_bytes (n : nat) (x : Z) : bytes :=
  match n with
  | O => []
  | S n' => (x / 256 ^ Z.of_nat n') mod 256 :: be_bytes n' x
  end.

Lemma be_bytes_length n x : length (be_bytes n x) = n.
Proof. induction n; simpl; auto. Qed.
Lemma be_bytes_slen n x : slen (be_bytes n x) = Z.of_nat n.
Proof. unfold slen. by rewrite be_bytes_length. Qed.
Lemma be_bytes_ok n x : bytes_ok (be_bytes n x).
Proof.
  induction n; simpl; constructor; auto.
  unfold byte_ok. apply Z.mod_pos_bound. lia.
Qed.
#[export] Hint Resolve be_bytes_ok : ffead.
#[export] Hint Rewrite be_bytes_slen : slen.

Lemma pow256 n : 256 ^ n = 2 ^ (8 * n).
Proof.
  destruct (decide (0 ≤ n)).
  - rewrite Z.pow_mul_r by lia. done.
  - rewrite !Z.pow_neg_r by lia. done.
Qed.

Lemma ntb_be_bytes lon n : ntb lon n = be_bytes n lon.
Proof.
  unfold ntb. revert lon.
  assert (∀ k lon, map (λ i, Z.land (Z.shiftr lon
      (Z.abs ((Z.of_nat (k + n) - 1 - Z.of_nat i) * 8))) 255) (seq k n)
      = be_bytes n lon) as H; [|intros; apply (H 0%nat)].
  induction n as [|n IH]; intros k lon; [done|]. cbn [seq map be_bytes]. f_equal.
  - change 255 with (Z.ones 8). rewrite Z.land_ones, Z.shiftr_div_pow2 by lia.
    rewrite pow256. do 3 f_equal. lia.
  - rewrite <- (IH (S k)). apply map_ext. intros i. do 3 f_equal. lia.
Qed.

(** Peeling the least significant byte instead of the most significant one. *)
Lemma be_bytes_snoc n x :
  be_bytes (S n) x = be_bytes n (x / 256) ++ [x mod 256].
Proof.
  revert x. induction n as [|n IH]; intros x.
  - simpl. by rewrite Z.div_1_r.
  - change (be_bytes (S (S n)) x) with
      ((x / 256 ^ Z.of_nat (S n)) mod 256 :: be_bytes (S n) x).
    rewrite IH. simpl. f_equal. rewrite Z.div_div by lia.
    f_equal. f_equal. rewrite Nat2Z.inj_succ, Z.pow_succ_r by lia. lia.
Qed.

Lemma charArrayToULongLong_snoc l b :
  charArrayToULongLong (l ++ [b])
  = wrapu 64 (wrapu 64 (Z.shiftl (charArrayToULongLong l) 8) + Z.land b 255).
Proof. unfold charArrayToULongLong. by rewrite foldl_app. Qed.

Lemma charArrayToULongLong_bound l : 0 ≤ charArrayToULongLong l < 2 ^ 64.
Proof.
  destruct l as [|b l] using rev_ind; [done|].
  rewrite charArrayToULongLong_snoc. by apply wrapu_bound.
Qed.

(** The big-endian value of a string of bytes. *)
Definition be_value (l : bytes) : Z := foldl (λ t b, t * 256 + b) 0 l.

Lemma be_value_snoc l b : be_value (l ++ [b]) = be_value l * 256 + b.
Proof. unfold be_value. by rewrite foldl_app. Qed.

Lemma be_value_bound l : bytes_ok l → 0 ≤ be_value l < 256 ^ slen l.
Proof.
  induction l as [|b l IH] using rev_ind; [done|].
  intros [Hl Hb]%bytes_ok_app. apply bytes_ok_cons in Hb as [Hb _].
  specialize (IH Hl). unfold byte_ok in Hb.
  rewrite be_value_snoc, slen_app, slen_cons, slen_nil.
  rewrite Z.pow_add_r by (unfold slen; lia). change (256 ^ (0 + 1)) with 256. nia.
Qed.

Lemma land_255_byte b : byte_ok b → Z.land b 255 = b.
Proof.
  intros H. change 255 with (Z.ones 8). rewrite Z.land_ones by lia.
  apply Z.mod_small. exact H.
Qed.

(** The accumulator never overflows on at most eight bytes. *)
Lemma charArrayToULongLong_value l :
  bytes_ok l → slen l ≤ 8 → charArrayToULongLong l = be_value l.
Proof.
  induction l as [|b l IH] using rev_ind; [done|].
  intros [Hl Hb]%bytes_ok_app Hlen. apply bytes_ok_cons in Hb as [Hb _].
  rewrite slen_app, slen_cons, slen_nil in Hlen.
  rewrite charArrayToULongLong_snoc, be_value_snoc, land_255_byte, IH by (auto; lia).
  pose proof (be_value_bound l Hl). unfold byte_ok in Hb.
  assert (256 ^ slen l ≤ 256 ^ 7) by (apply Z.pow_le_mono_r; lia).
  rewrite Z.shiftl_mul_pow2 by lia. change (2 ^ 8) with 256.
  rewrite (wrapu_small 64 (_ * _)) by lia. rewrite wrapu_small by lia. done.
Qed.

(** Only the low eight bits of each element are read. *)
Lemma charArrayToULongLong_low l :
  charArrayToULongLong l = charArrayToULongLong (map (λ b, Z.land b 255) l).
Proof.
  induction l as [|b l IH] using rev_ind; [done|].
  rewrite map_app. cbn [map]. rewrite !charArrayToULongLong_snoc, IH.
  by rewrite <- Z.land_assoc, Z.land_diag.
Qed.
Lemma charArrayToULongLong_lt l :
  slen l ≤ 8 → 0 ≤ charArrayToULongLong l < 256 ^ slen l.
Proof.
  intros Hl. rewrite charArrayToULongLong_low.
  assert (slen (map (λ b, Z.land b 255) l) = slen l) as E by (unfold slen; by rewrite length_map).
  rewrite <- E, charArrayToULongLong_value by (rewrite ?E; try done;
    apply Forall_fmap, Forall_true; intros b; unfold byte_ok, compose;
    change 255 with (Z.ones 8); rewrite Z.land_ones by lia; apply Z.mod_pos_bound; lia).
  apply be_value_bound, Forall_fmap, Forall_true. intros b. unfold byte_ok, compose.
  change 255 with (Z.ones 8). rewrite Z.land_ones by lia. apply Z.mod_pos_bound. lia.
Qed.

Lemma be_value_be_bytes n x : be_value (be_bytes n x) = x mod 256 ^ Z.of_nat n.
Proof.
  revert x. induction n as [|n IH]; intros x.
  - simpl. by rewrite Z.mod_1_r.
  - rewrite be_bytes_snoc, be_value_snoc, IH.
    rewrite Nat2Z.inj_succ, Z.pow_succ_r by lia.
    rewrite Z.rem_mul_r by lia. lia.
Qed.

Lemma be_bytes_be_value l : bytes_ok l → be_bytes (length l) (be_value l) = l.
Proof.
  induction l as [|b l IH] using rev_ind; [done|].
  intros [Hl Hb]%bytes_ok_app. apply bytes_ok_cons in Hb as [Hb _]. unfold byte_ok in Hb.
  rewrite length_app, Nat.add_1_r, be_bytes_snoc, be_value_snoc.
  replace ((be_value l * 256 + b) / 256) with (be_value l) by (apply Z.div_unique with b; lia).
  replace ((be_value l * 256 + b) mod 256) with b
    by (apply Z.mod_unique with (be_value l); lia).
  by rewrite IH.
Qed.

Lemma charArrayToULongLong_be_bytes n x :
  (n ≤ 8)%nat → charArrayToULongLong (be_bytes n x) = x mod 256 ^ Z.of_nat n.
Proof.
  intros. rewrite charArrayToULongLong_value, be_value_be_bytes; auto with ffead.
  rewrite be_bytes_slen. lia.
Qed.

(** A value that fits in [n] bytes is written on exactly [n] bytes. *)
Lemma ulonglong_width_le x n :
  0 ≤ x < 256 ^ Z.of_nat n → (1 ≤ n)%nat → (ulonglong_width x ≤ n)%nat.
Proof.
  intros Hx Hn.
  assert (∀ k, (k < n)%nat ∨ x < 256 ^ Z.of_nat k) as Hk.
  { intros k. destruct (decide (k < n)%nat); [by left|right].
    assert (256 ^ Z.of_nat n ≤ 256 ^ Z.of_nat k) by (apply Z.pow_le_mono_r; lia). lia. }
  pose proof (Hk 1%nat). pose proof (Hk 2%nat). pose proof (Hk 3%nat).
  pose proof (Hk 4%nat). pose proof (Hk 5%nat). pose proof (Hk 6%nat).
  pose proof (Hk 7%nat). clear Hk. unfold ulonglong_width.
  repeat case_match; lia.
Qed.

Lemma ulonglongTocharArray_be_bytes n x :
  (1 ≤ n)%nat → 0 ≤ x < 256 ^ Z.of_nat n →
  ulonglongTocharArray x (Z.of_nat n) = be_bytes n x.
Proof.
  intros Hn Hx. pose proof (ulonglong_width_le x n Hx Hn) as Hw.
  unfold ulonglongTocharArray. rewrite ntb_be_bytes. f_equal.
  replace (Z.of_nat n =? -1) with false by lia. simpl.
  destruct (Z.ltb_spec (Z.of_nat (ulonglong_width x)) (Z.of_nat n)); lia.
Qed.

Lemma ulonglongTocharArray_ok x p : bytes_ok (ulonglongTocharArray x p).
Proof. unfold ulonglongTocharArray. rewrite ntb_be_bytes. auto with ffead. Qed.
#[export] Hint Resolve ulonglongTocharArray_ok : ffead.

(** ** Properties *)

(** Every unsigned 64-bit value written by [ulonglongTocharArray], at any
    requested width up to eight bytes or at the minimal width, is read back
    unchanged by [charArrayToULongLong]. *)
Theorem ulonglong_roundtrip x p :
  0 ≤ x < 2 ^ 64 → -1 ≤ p ≤ 8 →
  charArrayToULongLong (ulonglongTocharArray x p) = x.
Proof.
  intros Hx Hp. unfold ulonglongTocharArray. rewrite ntb_be_bytes.
  set (w := if _ && _ then _ else _).
  assert ((w ≤ 8)%nat ∧ x < 256 ^ Z.of_nat w) as [Hw Hlt].
  { assert (∀ k l, (k ≤ l)%nat → x < 256 ^ Z.of_nat k → x < 256 ^ Z.of_nat l) as Hmono.
    { intros k l Hkl ?. assert (256 ^ Z.of_nat k ≤ 256 ^ Z.of_nat l); [|lia].
      apply Z.pow_le_mono_r; lia. }
    assert ((ulonglong_width x ≤ 8)%nat ∧ x < 256 ^ Z.of_nat (ulonglong_width x)) as [??].
    { unfold ulonglong_width. repeat case_match; split; try lia.
      all: match goal with |- _ < ?r => let r' := eval vm_compute in r in change r with r' end; lia. }
    subst w. destruct (_ && _) eqn:E; [|done].
    apply andb_true_iff in E as [_ E]. split; [lia|]. apply (Hmono (ulonglong_width x)); lia. }
  rewrite charArrayToULongLong_be_bytes by done. apply Z.mod_small. lia.
Qed.

Example ulonglong_roundtrip_witness :
  charArrayToULongLong (ulonglongTocharArray 70000 2) = 70000.
Proof. apply (ulonglong_roundtrip 70000 2); split; [lia | done | lia | lia]. Defined.

Lemma xorEncryptDecrypt_length s k : length (xorEncryptDecrypt s k) = length s.
Proof. apply length_imap. Qed.
Lemma xorEncryptDecrypt_slen s k : slen (xorEncryptDecrypt s k) = slen s.
Proof. unfold slen. by rewrite xorEncryptDecrypt_length. Qed.
#[export] Hint Rewrite xorEncryptDecrypt_slen : slen.

(** Masking twice with the same key is the identity. *)
Lemma xorEncryptDecrypt_involutive s k :
  xorEncryptDecrypt (xorEncryptDecrypt s k) k = s.
Proof.
  apply list_eq. intros i. unfold xorEncryptDecrypt. rewrite !list_lookup_imap.
  destruct (s !! i); simpl; [|done].
  by rewrite Z.lxor_assoc, Z.lxor_nilpotent, Z.lxor_0_r.
Qed.

Lemma lxor_byte a b : byte_ok a → byte_ok b → byte_ok (Z.lxor a b).
Proof.
  unfold byte_ok. intros Ha Hb. split.
  - apply Z.lxor_nonneg. lia.
  - destruct (decide (Z.lxor a b = 0)) as [->|]; [lia|].
    assert (0 < Z.lxor a b) by (assert (0 ≤ Z.lxor a b) by (apply Z.lxor_nonneg; lia); lia).
    apply Z.log2_lt_pow2 with (b := 8); [lia|].
    eapply Z.le_lt_trans; [apply Z.log2_lxor; lia|].
    assert (∀ x, 0 ≤ x < 256 → Z.log2 x < 8) as Hlog.
    { intros x Hx. destruct (decide (x = 0)) as [->|]; [done|].
      apply Z.log2_lt_pow2; lia. }
    pose proof (Hlog a Ha). pose proof (Hlog b Hb). lia.
Qed.

Lemma xorEncryptDecrypt_ok s k : bytes_ok s → bytes_ok (xorEncryptDecrypt s k).
Proof.
  intros Hs. unfold xorEncryptDecrypt, bytes_ok. apply Forall_lookup. intros i x.
  rewrite list_lookup_imap. destruct (s !! i) as [b|] eqn:E; simpl; [|done].
  intros [= <-]. apply lxor_byte; [by eapply bytes_ok_lookup|].
  apply bytes_ok_nth, ulonglongTocharArray_ok.
Qed.
