(* ===== verification/StdMap.v ===== *)
(** * StdMap

    [std::map]: a finite map whose iteration order is the order of its keys.
    The sources iterate over such maps when they serialize settings and
    headers, so a map is the list of its bindings in key order, and equality of
    maps is equality of lists.  The order of the keys is a class with instances
    for integers and for [std::string] (lexicographic on unsigned bytes). *)

From S2P Require Import Prelude.

(** A strict total order with a boolean test. *)
Class KeyOrder (K : Type) := {
  klt : K → K → bool;
  klt_irrefl k : klt k k = false;
  klt_trans k1 k2 k3 : klt k1 k2 = true → klt k2 k3 = true → klt k1 k3 = true;
  klt_total k1 k2 : klt k1 k2 = false → klt k2 k1 = false → k1 = k2
}.

#[export] Instance Z_KeyOrder : KeyOrder Z.
Proof.
  refine {| klt := Z.ltb |}; intros; lia.
Defined.

Fixpoint bytes_lt (s t : bytes) : bool :=
  match s, t with
  | [], [] => false
  | [], _ :: _ => true
  | _ :: _, [] => false
  | a :: s', b :: t' => if a <? b then true else if b <? a then false else bytes_lt s' t'
  end.

#[export] Instance bytes_KeyOrder : KeyOrder bytes.
Proof.
  refine {| klt := bytes_lt |}.
  - induction k as [|a s IH]; simpl; [done|].
    by rewrite Z.ltb_irrefl.
  - induction k1 as [|a s IH]; intros [|b t] [|c u]; simpl; try done.
    repeat case_match; try done; try lia. eauto.
  - induction k1 as [|a s IH]; intros [|b t]; simpl; try done.
    repeat case_match; try done. intros. f_equal; [lia | by apply IH].
Defined.

Section std_map.
Context {K V : Type} `{!EqDecision K, !KeyOrder K}.
Implicit Types (m : list (K * V)) (k : K) (v : V).

(** [m.find(k)]. *)
Fixpoint mfind k m : option V :=
  match m with
  | [] => None
  | (k', v) :: m' => if decide (k = k') then Some v else mfind k m'
  end.
(** [m.find(k) != m.end()]. *)
Definition mmem k m : bool := bool_decide (is_Some (mfind k m)).

(** [m[k] = v]. *)
Fixpoint mset k v m : list (K * V) :=
  match m with
  | [] => [(k, v)]
  | (k', v') :: m' =>
      if decide (k = k') then (k, v) :: m'
      else if klt k k' then (k, v) :: m
      else (k', v') :: mset k v m'
  end.
(** [m.insert({k, v})]: an existing binding stays. *)
Definition minsert k v m : list (K * V) := if mmem k m then m else mset k v m.
(** [m.insert(other.begin(), other.end())]. *)
Definition minsert_all (other m : list (K * V)) : list (K * V) :=
  foldl (λ m '(k, v), minsert k v m) m other.
(** [m.erase(k)]. *)
Fixpoint merase k m : list (K * V) :=
  match m with
  | [] => []
  | (k', v) :: m' => if decide (k = k') then m' else (k', v) :: merase k m'
  end.

(** The representation invariant: strictly increasing keys. *)
Definition below k m : Prop := Forall (λ kv, klt k kv.1 = true) m.
Fixpoint sorted m : Prop :=
  match m with
  | [] => True
  | (k, _) :: m' => below k m' ∧ sorted m'
  end.

Lemma klt_asym k1 k2 : klt k1 k2 = true → klt k2 k1 = false.
Proof.
  intros H. destruct (klt k2 k1) eqn:E; [|done].
  rewrite <- (klt_irrefl k1). symmetry. by eapply klt_trans.
Qed.
Lemma klt_ne k1 k2 : klt k1 k2 = true → k1 ≠ k2.
Proof. intros H ->. by rewrite klt_irrefl in H. Qed.

Lemma below_trans k k' m : klt k k' = true → below k' m → below k m.
Proof. intros Hk Hm. eapply Forall_impl; [exact Hm|]. intros. by eapply klt_trans. Qed.

Lemma below_mfind_None k m : below k m → mfind k m = None.
Proof.
  induction 1 as [|[k' v'] m Hk _ IH]; simpl; [done|].
  rewrite decide_False; [done|]. by apply klt_ne.
Qed.

(** In a list of pairs with distinct keys, which a map is. *)
Lemma mfind_NoDup k v m : NoDup (map fst m) → (k, v) ∈ m → mfind k m = Some v.
Proof.
  induction m as [|[k' v'] m IH]; intros Hnd Hin; [by apply elem_of_nil in Hin|]. cbn [map fst] in Hnd. apply NoDup_cons in Hnd as [Hn Hnd].
  cbn [mfind]. apply elem_of_cons in Hin as [[= <- <-]|Hin]; [by rewrite decide_True|]. rewrite decide_False; [by apply IH|].
  intros ->. apply Hn. apply list_elem_of_In, in_map_iff. exists (k', v). split; [done|by apply list_elem_of_In].
Qed.
Lemma mfind_notin k m : k ∉ map fst m → mfind k m = None.
Proof.
  induction m as [|[k' v'] m IH]; [done|]. cbn [map fst mfind]. rewrite not_elem_of_cons. intros [Hk Hm].
  rewrite decide_False by done. by apply IH.
Qed.

Lemma mfind_mset_eq k v m : mfind k (mset k v m) = Some v.
Proof.
  induction m as [|[k' v'] m IH]; simpl.
  - by rewrite decide_True.
  - case_decide; simpl; [by rewrite decide_True|].
    destruct (klt k k'); simpl; [by rewrite decide_True|]. by rewrite decide_False.
Qed.
Lemma mfind_mset_ne k k' v m : k ≠ k' → mfind k (mset k' v m) = mfind k m.
Proof.
  intros Hne. induction m as [|[k2 v2] m IH]; simpl.
  - by rewrite decide_False.
  - case_decide; simpl; subst; [by rewrite !decide_False|].
    destruct (klt k' k2); simpl; [by rewrite decide_False|]. by rewrite IH.
Qed.
Lemma mfind_mset k k' v m :
  mfind k (mset k' v m) = if decide (k = k') then Some v else mfind k m.
Proof. case_decide; subst; [apply mfind_mset_eq | by apply mfind_mset_ne]. Qed.

Lemma below_mset k k' v m : klt k k' = true → below k m → below k (mset k' v m).
Proof.
  intros Hk. induction 1 as [|[k2 v2] m Hk2 Hm IH]; simpl.
  - by repeat constructor.
  - repeat case_match; repeat constructor; simpl in *; auto.
Qed.
Lemma sorted_mset k v m : sorted m → sorted (mset k v m).
Proof.
  induction m as [|[k' v'] m IH]; simpl; [repeat constructor|]. intros [Hb Hs].
  case_decide; subst; [done|]. destruct (klt k k') eqn:E.
  - split; [|done]. constructor; [done|]. by eapply below_trans.
  - split; [|by apply IH]. apply below_mset; [|done].
    destruct (klt k' k) eqn:E'; [done|]. by destruct (klt_total _ _ E E').
Qed.
Lemma sorted_minsert k v m : sorted m → sorted (minsert k v m).
Proof. unfold minsert. case_match; auto using sorted_mset. Qed.
Lemma sorted_merase k m : sorted m → sorted (merase k m).
Proof.
  induction m as [|[k' v'] m IH]; simpl; [done|]. intros [Hb Hs].
  case_decide; [done|]. split; [|auto]. clear IH Hs.
  induction Hb as [|[k2 v2] m]; simpl; [constructor|]. case_decide; [done|].
  by constructor.
Qed.
Lemma mfind_merase k k' m :
  sorted m → mfind k (merase k' m) = if decide (k = k') then None else mfind k m.
Proof.
  induction m as [|[k2 v2] m IH]; simpl; [by case_decide|]. intros [Hb Hs].
  destruct (decide (k' = k2)) as [->|Hne].
  - case_decide; subst; [by apply below_mfind_None|]. done.
  - simpl. rewrite IH by done. repeat case_decide; congruence.
Qed.

(** Inserting a map into another: bindings that are there stay. *)
Lemma mfind_minsert k k' v m :
  mfind k (minsert k' v m) = match mfind k m with
                             | Some w => Some w
                             | None => if decide (k = k') then Some v else None
                             end.
Proof.
  unfold minsert, mmem. case_bool_decide as Hm.
  - destruct (mfind k m) eqn:E; [done|]. case_decide; [|done]. subst. rewrite E in Hm. by destruct Hm.
  - rewrite mfind_mset. case_decide; subst; [|by case_match].
    destruct (mfind k' m); [by destruct Hm|done].
Qed.
Lemma mfind_minsert_all k other m :
  sorted other →
  mfind k (minsert_all other m) = match mfind k m with Some w => Some w | None => mfind k other end.
Proof.
  unfold minsert_all. revert m. induction other as [|[k' v] other IH]; intros m; cbn [sorted foldl].
  - intros _. by case_match.
  - intros [Hb Hs]. rewrite IH, mfind_minsert by done. destruct (mfind k m) eqn:E; [done|].
    cbn [mfind]. by case_decide.
Qed.

(** A key above all others goes to the end: rebuilding a map in iteration
    order gives the map back. *)
(** What holds of all bindings. *)
Lemma Forall_mset (P : K * V → Prop) k v m : P (k, v) → Forall P m → Forall P (mset k v m).
Proof.
  intros Hk. induction 1 as [|[k' v'] m Hx Hm IH]; cbn [mset]; [by repeat constructor|].
  repeat case_match; by repeat constructor.
Qed.
Lemma Forall_minsert (P : K * V → Prop) k v m : P (k, v) → Forall P m → Forall P (minsert k v m).
Proof. intros Hk Hm. unfold minsert. case_match; [done|by apply Forall_mset]. Qed.
Lemma Forall_merase (P : K * V → Prop) k m : Forall P m → Forall P (merase k m).
Proof. induction 1 as [|[k' v'] m Hx Hm IH]; cbn [merase]; [done|]. case_match; [done|by constructor]. Qed.

Lemma mset_snoc k v m :
  Forall (λ kv, klt kv.1 k = true) m → mset k v m = m ++ [(k, v)].
Proof.
  induction 1 as [|[k' v'] m Hk Hm IH]; simpl; [done|]. simpl in Hk.
  rewrite decide_False by (intros ->; by rewrite klt_irrefl in Hk).
  by rewrite (klt_asym _ _ Hk), IH.
Qed.
Lemma sorted_app_inv m1 m2 :
  sorted (m1 ++ m2) → sorted m1 ∧ sorted m2 ∧
  Forall (λ kv, below kv.1 m2) m1.
Proof.
  induction m1 as [|[k v] m1 IH]; simpl; [by intros|]. intros [Hb Hs].
  destruct (IH Hs) as (? & ? & ?). apply Forall_app in Hb as [??].
  by repeat split; try constructor.
Qed.
Lemma foldl_mset_sorted m :
  sorted m → foldl (λ acc '(k, v), mset k v acc) [] m = m.
Proof.
  intros Hs. assert (∀ m2 m1, sorted (m1 ++ m2) →
    foldl (λ acc '(k, v), mset k v acc) m1 m2 = m1 ++ m2) as H; [|by apply (H m [])].
  clear. induction m2 as [|[k v] m2 IH]; intros m1 Hs; simpl.
  - by rewrite app_nil_r.
  - rewrite mset_snoc.
    + rewrite IH by (by rewrite <- app_assoc). by rewrite <- app_assoc.
    + apply sorted_app_inv in Hs as (_ & _ & Hall). eapply Forall_impl; [exact Hall|].
      intros kv Hkv. by apply Forall_cons in Hkv as [? _].
Qed.

(** Sorted maps with the same bindings are equal. *)
Lemma sorted_ext m1 m2 :
  sorted m1 → sorted m2 → (∀ k, mfind k m1 = mfind k m2) → m1 = m2.
Proof.
  revert m2. induction m1 as [|[k1 v1] m1 IH]; intros [|[k2 v2] m2]; simpl;
    intros Hs1 Hs2 Heq; try done.
  - specialize (Heq k2). by rewrite decide_True in Heq.
  - specialize (Heq k1). by rewrite decide_True in Heq.
  - destruct Hs1 as [Hb1 Hs1], Hs2 as [Hb2 Hs2].
    assert (k1 = k2) as <-.
    { pose proof (Heq k1) as H1. pose proof (Heq k2) as H2.
      rewrite decide_True in H1 by done. rewrite (decide_True (P := k2 = k2)) in H2 by done.
      case_decide as Hd1; [done|]. case_decide as Hd2; [done|].
      destruct (klt k1 k2) eqn:E.
      - rewrite below_mfind_None in H1; [done|]. by eapply below_trans.
      - destruct (klt k2 k1) eqn:E2; [|by apply klt_total].
        rewrite below_mfind_None in H2; [done|]. by eapply below_trans. }
    pose proof (Heq k1) as H1. rewrite !decide_True in H1 by done. injection H1 as ->.
    f_equal. apply IH; [done..|]. intros k. specialize (Heq k).
    case_decide; subst; [|done]. by rewrite !below_mfind_None.
Qed.
End std_map.

#[export] Hint Resolve sorted_mset sorted_minsert sorted_merase : ffead.
