(* ===== verification/StdString.v ===== *)
(** * StdString

    The searching members of [std::string] and the C conversions the sources use,
    with the lemmas their callers share.  A position is an offset, and [None] is
    [npos]. *)

From S2P Require Import Prelude.

(** ** Searching *)

Fixpoint prefixb (p s : bytes) : bool :=
  match p, s with
  | [], _ => true
  | a :: p, b :: s => (a =? b) && prefixb p s
  | _ :: _, [] => false
  end.

(** [find(p)]. *)
Fixpoint sfind (p s : bytes) : option nat :=
  if prefixb p s then Some 0%nat
  else match s with [] => None | _ :: s' => S <$> sfind p s' end.

(** [find(p, pos)]. *)
Definition sfind_from (p s : bytes) (pos : nat) : option nat :=
  if (pos <=? length s)%nat then (λ i, (pos + i)%nat) <$> sfind p (drop pos s) else None.

Definition memb (c : Z) (set : bytes) : bool := existsb (Z.eqb c) set.

(** [find_first_of(set)], [find_first_not_of(set)] and, from the end,
    [find_last_of(set)], [find_last_not_of(set)]. *)
Fixpoint find_first (f : Z → bool) (s : bytes) : option nat :=
  match s with [] => None | c :: s' => if f c then Some 0%nat else S <$> find_first f s' end.
Definition find_first_of (set s : bytes) : option nat := find_first (λ c, memb c set) s.
Definition find_first_not_of (set s : bytes) : option nat := find_first (λ c, negb (memb c set)) s.
Fixpoint find_last (f : Z → bool) (s : bytes) : option nat :=
  match s with
  | [] => None
  | c :: s' => match find_last f s' with Some i => Some (S i) | None => if f c then Some 0%nat else None end
  end.
Definition find_last_of (set s : bytes) : option nat := find_last (λ c, memb c set) s.
Definition find_last_not_of (set s : bytes) : option nat := find_last (λ c, negb (memb c set)) s.

(** [str.replace(pos, n, w)] at a valid position. *)
Definition sreplace (s : bytes) (pos n : nat) (w : bytes) : bytes := take pos s ++ w ++ drop (pos + n) s.

(** ** The C library *)

(** [tolower], [toupper] and the comparison without case, in the C locale. *)
Definition lower (c : Z) : Z := if (65 <=? c) && (c <=? 90) then c + 32 else c.
Definition upper (c : Z) : Z := if (97 <=? c) && (c <=? 122) then c - 32 else c.

(** The bytes [c_str()] shows to a C function. *)
Fixpoint c_string (s : bytes) : bytes :=
  match s with [] => [] | c :: s' => if c =? 0 then [] else c :: c_string s' end.

(** [strncasecmp(s, t, n) == 0] on two readable strings that end with a zero. *)
Fixpoint strncaseeq (n : nat) (s t : bytes) : bool :=
  match n with
  | O => true
  | S n' =>
      let a := hd 0 s in
      let b := hd 0 t in
      (lower a =? lower b) && ((a =? 0) || strncaseeq n' (tl s) (tl t))
  end.
(** [strcasecmp(s, t) == 0]. *)
Definition strcaseeq (s t : bytes) : bool := bool_decide (map lower (c_string s) = map lower (c_string t)).

Definition isspace (c : Z) : bool := (c =? 32) || ((9 <=? c) && (c <=? 13)).
Fixpoint skip_while (f : Z → bool) (s : bytes) : bytes :=
  match s with c :: s' => if f c then skip_while f s' else s | [] => [] end.

(** The value of a digit in any base. *)
Definition digit_value (c : Z) : Z :=
  if (48 <=? c) && (c <=? 57) then c - 48
  else if (97 <=? c) && (c <=? 122) then c - 87
  else if (65 <=? c) && (c <=? 90) then c - 55
  else 255.
Fixpoint read_digits (base : Z) (s : bytes) (n : Z) : Z :=
  match s with
  | c :: s' => if digit_value c <? base then read_digits base s' (n * base + digit_value c) else n
  | [] => n
  end.

(** [strtol(s, NULL, base)] for base 10 or 16, clamped to [long]. *)
Definition strtol (base : Z) (s : bytes) : Z :=
  let s := skip_while isspace (c_string s) in
  let '(neg, s) :=
    match s with
    | c :: s' => if c =? 45 then (true, s') else if c =? 43 then (false, s') else (false, s)
    | [] => (false, s)
    end in
  let s :=
    match s with
    | a :: b :: c :: _ =>
        if (base =? 16) && (a =? 48) && (lower b =? 120) && (digit_value c <? 16) then drop 2 s else s
    | _ => s
    end in
  let n := read_digits base s 0 in
  Z.max (- 2 ^ 63) (Z.min (2 ^ 63 - 1) (if (neg : bool) then - n else n)).

(** [CastUtil::toInt]: the conversion of anything that comes out as zero fails,
    but for the string of one zero. *)
Definition toInt (v : bytes) : outcome Z :=
  if bool_decide (v = [48]) then Ret 0
  else
    let i := wraps 32 (strtol 10 v) in
    if i =? 0 then Throw Runtime_error else Ret i.

(** The digits of a number in base [b]. *)
Definition digit_char (d : Z) : Z := if d <? 10 then 48 + d else 87 + d.
Fixpoint print_digits (fuel : nat) (b n : Z) (acc : bytes) : bytes :=
  match fuel with
  | O => acc
  | S fuel' => if n <? b then digit_char n :: acc else print_digits fuel' b (n / b) (digit_char (n mod b) :: acc)
  end.
(** 64 binary digits are enough for every 64-bit number. *)
Definition print_number (b n : Z) : bytes := print_digits 64 b n [].
(** [CastUtil::fromNumber]: [printf]'s [%llu]. *)
Definition fromNumber (val : Z) : bytes := print_number 10 (wrapu 64 val).

(** ** Lemmas: searching *)

Lemma prefixb_app p s : prefixb p (p ++ s) = true.
Proof. induction p as [|c p IH]; cbn; [done|]. by rewrite Z.eqb_refl. Qed.

Lemma prefixb_spec p s : prefixb p s = true ↔ ∃ k, s = p ++ k.
Proof.
  split.
  - revert s. induction p as [|a p IH]; intros s H; [by exists s|].
    destruct s as [|b s]; [done|]. cbn in H. apply andb_prop in H as [Ha H].
    destruct (IH s H) as [k ->]. apply Z.eqb_eq in Ha as ->. by exists k.
  - intros [k ->]. apply prefixb_app.
Qed.

(** [p] does not start inside [a] when [a] is followed by [t]. *)
Fixpoint absent (p a t : bytes) : bool :=
  match a with [] => true | _ :: a' => negb (prefixb p (a ++ t)) && absent p a' t end.

Lemma sfind_absent p a t : absent p a t = true → sfind p (a ++ t) = (λ i, (length a + i)%nat) <$> sfind p t.
Proof.
  induction a as [|c a IH]; intros H.
  - cbn. by destruct (sfind p t).
  - cbn [absent] in H. apply andb_prop in H as [H1 H2]. cbn [app sfind length].
    change (c :: a ++ t) with ((c :: a) ++ t). rewrite (negb_true_iff _) in H1. rewrite H1, IH by done.
    by destruct (sfind p t).
Qed.

Lemma sfind_here p t : sfind p (p ++ t) = Some 0%nat.
Proof. pose proof (prefixb_app p t). destruct (p ++ t) eqn:E; cbn [sfind]; by rewrite H. Qed.

Lemma sfind_first p a t : absent p a (p ++ t) = true → sfind p (a ++ p ++ t) = Some (length a).
Proof. intros H. rewrite sfind_absent by done. rewrite sfind_here. cbn. by rewrite Nat.add_0_r. Qed.

Lemma sfind_Some p s i : sfind p s = Some i → s = take i s ++ p ++ drop (i + length p) s ∧ absent p (take i s) (drop i s) = true.
Proof.
  revert i. induction s as [|c s IH]; intros i; cbn [sfind].
  - destruct (prefixb p []) eqn:E; [|done]. intros [= <-]. apply prefixb_spec in E as [k Hk].
    symmetry in Hk. by apply app_eq_nil in Hk as [-> ->].
  - destruct (prefixb p (c :: s)) eqn:E.
    + intros [= <-]. apply prefixb_spec in E as [k ->]. cbn. split; [|done]. by rewrite drop_app_length.
    + destruct (sfind p s) as [j|]; [|done]. intros [= <-]. destruct (IH j eq_refl) as [H1 H2].
      cbn [take drop app]. split; [cbn; by f_equal|]. cbn [absent app]. rewrite take_drop. by rewrite E, H2.
Qed.

Lemma sfind_None p s : sfind p s = None → absent p s [] = true ∧ p ≠ [].
Proof.
  induction s as [|c s IH]; cbn [sfind].
  - destruct (prefixb p []) eqn:E; [done|]. intros _. split; [done|]. by intros ->.
  - destruct (prefixb p (c :: s)) eqn:E; [done|]. destruct (sfind p s); [done|].
    intros _. destruct (IH eq_refl) as [H1 H2]. split; [|done]. cbn [absent]. by rewrite app_nil_r, E, H1.
Qed.

Lemma absent_app p a b t : absent p (a ++ b) t = absent p a (b ++ t) && absent p b t.
Proof.
  induction a as [|c a IH]; [done|]. cbn [app absent]. rewrite IH, <- app_assoc. by rewrite andb_assoc.
Qed.

(** No byte of [a] is the first byte of [p]. *)
Lemma absent_first c p a t : Forall (λ x, x ≠ c) a → absent (c :: p) a t = true.
Proof.
  induction 1 as [|x a Hx Ha IH]; [done|]. cbn [absent app prefixb]. rewrite IH.
  by replace (c =? x) with false by lia.
Qed.

Lemma sfind_absent_None p a : p ≠ [] → absent p a [] = true → sfind p a = None.
Proof.
  intros Hp H. rewrite <- (app_nil_r a). rewrite sfind_absent by done. by destruct p.
Qed.

Lemma find_first_None f s : find_first f s = None ↔ Forall (λ c, f c = false) s.
Proof.
  induction s as [|c s IH]; cbn; [done|]. rewrite Forall_cons. destruct (f c); [naive_solver|].
  destruct (find_first f s); naive_solver.
Qed.

Lemma find_first_app f a c t :
  Forall (λ c, f c = false) a → f c = true → find_first f (a ++ c :: t) = Some (length a).
Proof. induction 1 as [|x a Hx Ha IH]; intros Hc; cbn; [by rewrite Hc|]. by rewrite Hx, IH. Qed.

Lemma find_first_Some f s i :
  find_first f s = Some i → ∃ a c t, s = a ++ c :: t ∧ length a = i ∧ f c = true ∧ Forall (λ c, f c = false) a.
Proof.
  revert i. induction s as [|c s IH]; intros i; cbn; [done|]. destruct (f c) eqn:E.
  - intros [= <-]. by exists [], c, s.
  - destruct (find_first f s) as [j|]; [|done]. intros [= <-]. destruct (IH j eq_refl) as (a & d & t & -> & <- & ? & ?).
    exists (c :: a), d, t. split_and!; [done|done|done|by constructor].
Qed.

Lemma find_last_None f s : find_last f s = None ↔ Forall (λ c, f c = false) s.
Proof.
  induction s as [|c s IH]; cbn; [done|]. rewrite Forall_cons. destruct (find_last f s); [naive_solver|].
  destruct (f c); naive_solver.
Qed.

Lemma find_last_app f a c t :
  Forall (λ c, f c = false) t → f c = true → find_last f (a ++ c :: t) = Some (length a).
Proof.
  intros Ht Hc. induction a as [|x a IH]; cbn.
  - apply find_last_None in Ht. by rewrite Ht, Hc.
  - by rewrite IH.
Qed.

Lemma memb_spec c set : memb c set = true ↔ c ∈ set.
Proof.
  unfold memb. rewrite existsb_exists. setoid_rewrite list_elem_of_In. split.
  - intros (x & H & E). by replace c with x by lia.
  - intros H. exists c. split; [done|lia].
Qed.

Lemma sfind_bound p s i : sfind p s = Some i → (i + length p ≤ length s)%nat.
Proof.
  revert i. induction s as [|c s IH]; intros i; cbn [sfind].
  - destruct (prefixb p []) eqn:E; [|done]. intros [= <-]. by destruct p.
  - destruct (prefixb p (c :: s)) eqn:E.
    + intros [= <-]. apply prefixb_spec in E as [k E]. apply (f_equal length) in E. rewrite length_app in E. lia.
    + destruct (sfind p s) as [j|]; [|done]. intros [= <-]. specialize (IH j eq_refl). cbn. lia.
Qed.

Lemma find_last_Some f s i :
  find_last f s = Some i → ∃ m d r, s = m ++ d :: r ∧ length m = i ∧ f d = true ∧ Forall (λ c, f c = false) r.
Proof.
  revert i. induction s as [|y s IH]; intros i; cbn; [done|].
  destruct (find_last f s) as [k|] eqn:E.
  - intros [= <-]. destruct (IH k eq_refl) as (m & d & r & -> & <- & ? & ?). by exists (y :: m), d, r.
  - destruct (f y) eqn:Ey; [|done]. intros [= <-]. exists [], y, s. split_and!; [done|done|done|].
    by apply find_last_None.
Qed.

Lemma prefixb_app_l p s t : prefixb p s = true → prefixb p (s ++ t) = true.
Proof. rewrite !prefixb_spec. intros [k ->]. exists (k ++ t). by rewrite app_assoc. Qed.

Lemma prefixb_app_short p s t : (length p ≤ length s)%nat → prefixb p (s ++ t) = prefixb p s.
Proof.
  revert s. induction p as [|a p IH]; intros s; [done|]. destruct s as [|b s]; cbn; [lia|].
  intros H. by rewrite IH by lia.
Qed.

(** What is found stays where it is when the text goes on. *)
Lemma sfind_app_l p s t i : sfind p s = Some i → sfind p (s ++ t) = Some i.
Proof.
  revert i. induction s as [|c s IH]; intros i; cbn [sfind app].
  - destruct (prefixb p []) eqn:E; [|done]. intros [= <-]. destruct p; [|done]. by destruct t.
  - destruct (prefixb p (c :: s)) eqn:E.
    + intros [= <-]. by rewrite (prefixb_app_l p (c :: s) t E : prefixb p (c :: s ++ t) = true).
    + destruct (sfind p s) as [j|] eqn:Ej; [|done]. intros [= <-]. apply sfind_bound in Ej as Hb.
      change (c :: s ++ t) with ((c :: s) ++ t). rewrite prefixb_app_short by (cbn; lia).
      by rewrite E, (IH j eq_refl).
Qed.
