(* ===== verification/StringUtil.v ===== *)
(** * StringUtil

    [common/StringUtil.cpp] and the splitting templates of [StringUtil.h]. *)

From S2P Require Import Prelude StdString.

(** ** Case *)

Definition toUpper (s : bytes) : bytes := map upper s.
Definition toLower (s : bytes) : bytes := map lower s.
Definition capitalized (s : bytes) : bytes := match s with [] => [] | c :: s' => upper c :: s' end.

(** ** Replacing *)

Definition replaceFirst (s ths w : bytes) : bytes :=
  match sfind ths s with Some i => sreplace s i (length ths) w | None => s end.

(** [find_last_of] looks for the last of the characters of [ths]. *)
Definition replaceLast (s ths w : bytes) : bytes :=
  match find_last_of ths s with Some i => sreplace s i (length ths) w | None => s end.

Fixpoint replaceAll_loop (fuel : nat) (ths w s : bytes) (start_pos : nat) : outcome bytes :=
  match fuel with
  | O => Out_of_fuel
  | S fuel' =>
      match sfind_from ths s start_pos with
      | None => Ret s
      | Some i => replaceAll_loop fuel' ths w (sreplace s i (length ths) w) (i + length w)
      end
  end.
(** Every round leaves fewer bytes behind [start_pos]. *)
Definition replaceAll (s ths w : bytes) : outcome bytes :=
  if bool_decide (ths = []) then Ret s else replaceAll_loop (S (length s)) ths w s 0.

Fixpoint eraseAll_loop (fuel : nat) (ths s : bytes) : outcome bytes :=
  match fuel with
  | O => Out_of_fuel
  | S fuel' =>
      match sfind ths s with
      | None => Ret s
      | Some i => eraseAll_loop fuel' ths (sreplace s i (length ths) [])
      end
  end.
Definition eraseAll (s ths : bytes) : outcome bytes :=
  if bool_decide (ths = []) then Ret s else eraseAll_loop (S (length s)) ths s.

(** [counter] is an [int]; occurrences may overlap. *)
Fixpoint countOccurrences_loop (fuel : nat) (input delimiter : bytes) (counter : Z) (index : nat) : outcome Z :=
  match fuel with
  | O => Out_of_fuel
  | S fuel' =>
      match sfind_from delimiter input index with
      | None => Ret counter
      | Some i => counter ← checked_int (counter + 1); countOccurrences_loop fuel' input delimiter counter (S i)
      end
  end.
Definition countOccurrences (input delimiter : bytes) : outcome Z :=
  countOccurrences_loop (S (S (length input))) input delimiter 0 0.

(** ** Splitting *)

(** The splitting template, also [splitAndReturn]: the tokens between characters
    of [delimiters]; [cur] is the token being read. *)
Fixpoint split_loop (delimiters : bytes) (trimEmpty : bool) (cur s : bytes) : list bytes :=
  let token := if bool_decide (cur = []) && trimEmpty then [] else [cur] in
  match s with
  | [] => token
  | c :: s' =>
      if memb c delimiters then token ++ split_loop delimiters trimEmpty [] s'
      else split_loop delimiters trimEmpty (cur ++ [c]) s'
  end.
Definition splitAndReturn (s delimiters : bytes) (trimEmpty : bool) : list bytes :=
  split_loop delimiters trimEmpty [] s.

(** [split] by a list of delimiters, one after the other. *)
Definition split_all (input : bytes) (delimiters : list bytes) : list bytes :=
  foldl (λ output d, flat_map (λ s, splitAndReturn s d false) output) [input] delimiters.

Fixpoint join (d : bytes) (l : list bytes) : bytes :=
  match l with [] => [] | [s] => s | s :: l' => s ++ d ++ join d l' end.

(** [camelCased] puts the whole of [delim] between the capitalized tokens. *)
Definition camelCased (s delim : bytes) : bytes :=
  join delim (map capitalized (splitAndReturn s delim false)).

(** ** Trimming and affixes *)

Definition whitespaces : bytes := [32; 9; 12; 11; 10; 13].

Definition trim (s : bytes) : bytes :=
  match find_first_not_of whitespaces s, find_last_not_of whitespaces s with
  | Some start, Some end_ => take (end_ - start + 1) (drop start s)
  | None, Some end_ => take (end_ + 1) s
  | Some start, None => drop start s
  | None, None => []
  end.

Definition startsWith (s prefix : bytes) : bool :=
  (length prefix <=? length s)%nat && bool_decide (take (length prefix) s = prefix).
Definition endsWith (s suffix : bytes) : bool :=
  (length suffix <=? length s)%nat && bool_decide (drop (length s - length suffix) s = suffix).

(** ** Numbers *)

(** [toHEX] and [toOCTAL] of a [w]-bit argument, converted to unsigned. *)
Definition toHEX (w number : Z) : bytes := print_number 16 (wrapu w number).
Definition toOCTAL (w number : Z) : bytes := print_number 8 (wrapu w number).

Definition fromHEX (hexVal : bytes) : Z :=
  strtol 16 (match sfind (str "0x") hexVal with None => str "0x" ++ hexVal | Some _ => hexVal end).

(** ** Splitting and joining *)

Lemma memb_single c d : memb c [d] = (c =? d).
Proof. unfold memb. cbn. by rewrite orb_false_r. Qed.

Lemma split_loop_nonempty ds cur s : split_loop ds false cur s ≠ [].
Proof.
  revert cur. induction s as [|c s IH]; intros cur; cbn [split_loop]; rewrite andb_false_r; [done|].
  destruct (memb c ds); [done|apply IH].
Qed.

Lemma join_cons d a l : l ≠ [] → join d (a :: l) = a ++ d ++ join d l.
Proof. by destruct l. Qed.

Lemma split_loop_join d cur s : join [d] (split_loop [d] false cur s) = cur ++ s.
Proof.
  revert cur. induction s as [|c s IH]; intros cur; cbn [split_loop]; rewrite andb_false_r.
  - cbn. by rewrite app_nil_r.
  - rewrite memb_single. destruct (c =? d) eqn:E.
    + cbn [app]. rewrite join_cons, IH by apply split_loop_nonempty.
      apply Z.eqb_eq in E as ->. done.
    + rewrite IH, <- app_assoc. done.
Qed.

Lemma split_loop_tokens ds tr cur s :
  Forall (λ c, memb c ds = false) cur →
  Forall (λ t, Forall (λ c, memb c ds = false) t ∧ (tr = true → t ≠ [])) (split_loop ds tr cur s).
Proof.
  revert cur. induction s as [|c s IH]; intros cur Hc; cbn [split_loop].
  - case_bool_decide; destruct tr; cbn; repeat constructor; naive_solver.
  - destruct (memb c ds) eqn:E.
    + apply Forall_app. split; [|apply IH; by constructor].
      case_bool_decide; destruct tr; cbn; repeat constructor; naive_solver.
    + apply IH. apply Forall_app. split; [done|by constructor].
Qed.

Lemma split_loop_token ds cur s :
  Forall (λ c, memb c ds = false) s → split_loop ds false cur s = [cur ++ s].
Proof.
  intros H. revert cur. induction H as [|c s Hc Hs IH]; intros cur; cbn [split_loop]; rewrite andb_false_r.
  - by rewrite app_nil_r.
  - by rewrite Hc, IH, <- app_assoc.
Qed.

Lemma split_loop_app ds cur a d t :
  Forall (λ c, memb c ds = false) a → memb d ds = true →
  split_loop ds false cur (a ++ d :: t) = (cur ++ a) :: split_loop ds false [] t.
Proof.
  intros H Hd. revert cur. induction H as [|c a Hc Ha IH]; intros cur; cbn [app split_loop]; rewrite andb_false_r.
  - by rewrite Hd, app_nil_r.
  - by rewrite Hc, IH, <- app_assoc.
Qed.

Lemma memb_not_in d t : d ∉ t → Forall (λ c, memb c [d] = false) t.
Proof.
  intros H. apply Forall_forall. intros c Hc. rewrite memb_single. apply Z.eqb_neq. by intros ->.
Qed.

Lemma split_of_join d l : l ≠ [] → Forall (λ t, d ∉ t) l → splitAndReturn (join [d] l) [d] false = l.
Proof.
  intros Hl H. induction H as [|t l Ht H IH]; [done|]. unfold splitAndReturn in *.
  apply memb_not_in in Ht. destruct l as [|u l].
  - cbn [join]. by rewrite split_loop_token.
  - rewrite join_cons by done. cbn [app].
    rewrite split_loop_app, IH by (auto; rewrite memb_single; lia). done.
Qed.
Lemma split_two (d : Z) a b : d ∉ a → d ∉ b → splitAndReturn (a ++ d :: b) [d] false = [a; b].
Proof. intros Ha Hb. apply (split_of_join d [a; b]); [done|]. by repeat constructor. Qed.

(** Splitting and joining.  The tokens of a string at one delimiter contain no
    delimiter and joined give the string back; conversely a list of tokens without
    the delimiter is what splitting its joined string gives. *)
Theorem split_join d :
  (∀ s, join [d] (splitAndReturn s [d] false) = s ∧ Forall (λ t, d ∉ t) (splitAndReturn s [d] false)) ∧
  (∀ l, l ≠ [] → Forall (λ t, d ∉ t) l → splitAndReturn (join [d] l) [d] false = l).
Proof.
  split; [|apply split_of_join]. intros s. split; [apply split_loop_join|].
  eapply Forall_impl; [apply (split_loop_tokens [d] false [] s); by constructor|].
  intros t [H _] Hd. rewrite Forall_forall in H. specialize (H d Hd). rewrite memb_single in H. lia.
Qed.

(** ** Replacing *)

(** Left to right, without looking into what was put in. *)
Inductive replaced (ths w : bytes) : bytes → bytes → Prop :=
| replaced_none s : sfind ths s = None → replaced ths w s s
| replaced_one a b t : absent ths a (ths ++ b) = true → replaced ths w b t →
    replaced ths w (a ++ ths ++ b) (a ++ w ++ t).

Lemma sreplace_app x y b w : sreplace (x ++ y ++ b) (length x) (length y) w = x ++ w ++ b.
Proof.
  unfold sreplace. rewrite take_app_length. do 2 f_equal.
  by rewrite <- drop_drop, !drop_app_length.
Qed.

Lemma replaceAll_loop_spec fuel ths w s pos :
  ths ≠ [] → (pos ≤ length s)%nat → (length s - pos < fuel)%nat →
  ∃ t, replaceAll_loop fuel ths w s pos = Ret (take pos s ++ t) ∧ replaced ths w (drop pos s) t.
Proof.
  intros Hne. revert s pos. induction fuel as [|fuel IH]; intros s pos Hp Hf; [lia|].
  cbn [replaceAll_loop]. unfold sfind_from. rewrite (proj2 (Nat.leb_le _ _) Hp).
  destruct (sfind ths (drop pos s)) as [i|] eqn:E; cbn [fmap option_fmap option_map].
  - apply sfind_Some in E as E2. destruct E2 as [Hs Ha].
    set (a := take i (drop pos s)) in *. set (b := drop (i + length ths) (drop pos s)) in *.
    assert (s = take pos s ++ a ++ ths ++ b) as Hs2 by (rewrite <- Hs; by rewrite take_drop).
    assert (length (take pos s) = pos) as Hl1 by (rewrite length_take; lia).
    assert (length a = i) as Hl2 by (apply sfind_bound in E; unfold a; rewrite length_take; lia).
    assert (0 < length ths)%nat as Hpos by (destruct ths; [done|cbn; lia]).
    rewrite Hs in Ha. rewrite drop_app_length' in Ha by done. rewrite Hs.
    remember (take pos s) as p0 eqn:Ep. clearbody a b. clear Ep Hs.
    assert (sreplace s (pos + i) (length ths) w = p0 ++ a ++ w ++ b) as ->
      by (rewrite Hs2, <- Hl1, <- Hl2, <- length_app, !app_assoc, <- !(app_assoc (p0 ++ a)); apply sreplace_app).
    destruct (IH (p0 ++ a ++ w ++ b) (pos + i + length w)%nat) as (t & -> & Ht);
      [rewrite !length_app; lia|rewrite Hs2 in Hf; rewrite !length_app in *; lia|].
    rewrite !app_assoc in Ht |- *.
    rewrite (take_app_length' ((p0 ++ a) ++ w)) by (rewrite !length_app; lia).
    rewrite (drop_app_length' ((p0 ++ a) ++ w)) in Ht by (rewrite !length_app; lia).
    exists (a ++ w ++ t). split; [by rewrite <- !app_assoc|]. by constructor.
  - exists (drop pos s). rewrite take_drop. split; [done|by constructor].
Qed.

Lemma replaceAll_ok s ths w : ths ≠ [] → ∃ t, replaceAll s ths w = Ret t ∧ replaced ths w s t.
Proof.
  intros H. unfold replaceAll. case_bool_decide; [done|].
  destruct (replaceAll_loop_spec (S (length s)) ths w s 0 H) as (t & Ht & Hr); [lia|lia|].
  exists t. by rewrite drop_0 in Hr.
Qed.

(** Replacing everywhere terminates, also when the replacement contains the
    text replaced, and replaces the occurrences from left to right without looking
    into what it has put in; an empty text replaces nothing. *)
Theorem replaceAll_replaces s ths w :
  (ths = [] → replaceAll s ths w = Ret s) ∧
  (ths ≠ [] → ∃ t, replaceAll s ths w = Ret t ∧ replaced ths w s t).
Proof. split; [by intros ->|apply replaceAll_ok]. Qed.

Lemma replaced_det ths w s t u : ths ≠ [] → replaced ths w s t → replaced ths w s u → t = u.
Proof.
  intros Hne H. revert u. induction H as [s Hs|a b t Ha H IH]; intros u Hu.
  - destruct Hu as [|a b u Ha]; [done|]. by rewrite sfind_first in Hs.
  - assert (sfind ths (a ++ ths ++ b) = Some (length a)) as E by (by apply sfind_first).
    remember (a ++ ths ++ b) as s eqn:Es. destruct Hu as [s Hs|a' b' u Ha' Hu]; [by rewrite E in Hs|].
    rewrite sfind_first in E by done. injection E as E.
    apply app_inj_1 in Es as [-> Es]; [|done]. apply app_inv_head in Es as ->. by rewrite (IH u).
Qed.

Lemma replaceAll_det s ths w t : ths ≠ [] → replaced ths w s t → replaceAll s ths w = Ret t.
Proof.
  intros Hne Ht. destruct (replaceAll_ok s ths w Hne) as (u & -> & Hu).
  f_equal. by eapply replaced_det.
Qed.

(** Replacing one character. *)
Lemma replaced_char c w s : replaced [c] w s (flat_map (λ x, if x =? c then w else [x]) s).
Proof.
  assert (∀ a, c ∉ a → replaced [c] w (a ++ s) (a ++ flat_map (λ x, if x =? c then w else [x]) s)) as H; [|by apply (H []), not_elem_of_nil].
  induction s as [|x s IH]; intros a Ha.
  - constructor. apply sfind_absent_None; [done|]. rewrite app_nil_r. apply absent_first, Forall_forall. by intros y Hy ->.
  - cbn [flat_map]. destruct (Z.eqb_spec x c) as [->|Hx].
    + apply (replaced_one [c] w a s); [apply absent_first, Forall_forall; by intros y Hy ->|]. apply (IH []), not_elem_of_nil.
    + specialize (IH (a ++ [x])). rewrite <- !app_assoc in IH. apply IH. rewrite elem_of_app, elem_of_cons, elem_of_nil. naive_solver.
Qed.

(** ** Counting one character *)

Fixpoint occ (c : Z) (s : bytes) : Z := match s with [] => 0 | x :: s => (if x =? c then 1 else 0) + occ c s end.
Lemma occ_app c a b : occ c (a ++ b) = occ c a + occ c b.
Proof. induction a as [|x a IH]; cbn [occ app]; lia. Qed.
Lemma occ_bound c s : 0 ≤ occ c s ≤ slen s.
Proof. unfold slen. induction s as [|x s IH]; cbn [occ length]; [lia|]. destruct (x =? c); lia. Qed.
Lemma occ_absent c s : c ∉ s → occ c s = 0.
Proof.
  induction s as [|x s IH]; [done|]. rewrite not_elem_of_cons. intros [H1 H2]. cbn [occ]. rewrite IH by done.
  by destruct (Z.eqb_spec x c) as [->|].
Qed.

Lemma sfind_char_Some c s i : sfind [c] s = Some i → s = take i s ++ c :: drop (S i) s ∧ c ∉ take i s.
Proof.
  intros H. destruct (sfind_Some _ _ _ H) as [E Ha]. cbn [length app] in E. rewrite Nat.add_1_r in E. split; [done|].
  intros [x [y Exy]]%list_elem_of_split. rewrite Exy, absent_app in Ha. apply andb_prop in Ha as [_ Ha]. cbn in Ha. by rewrite Z.eqb_refl in Ha.
Qed.
Lemma sfind_char_None c s : sfind [c] s = None ↔ c ∉ s.
Proof.
  split.
  - intros H [x [y ->]]%list_elem_of_split. apply sfind_None in H as [H _]. rewrite absent_app in H. apply andb_prop in H as [_ H].
    cbn in H. by rewrite Z.eqb_refl in H.
  - intros H. apply sfind_absent_None; [done|]. apply absent_first, Forall_forall. by intros x Hx ->.
Qed.
Lemma sfind_char_app c a t : c ∉ a → sfind [c] (a ++ c :: t) = Some (length a).
Proof. intros H. apply (sfind_first [c] a t), absent_first, Forall_forall. by intros x Hx ->. Qed.

Lemma countOccurrences_loop_char c fuel s n i :
  (length s - i < fuel)%nat → (i ≤ length s)%nat → 0 ≤ n → n + occ c (drop i s) < 2 ^ 31 →
  countOccurrences_loop fuel s [c] n i = Ret (n + occ c (drop i s)).
Proof.
  revert n i. induction fuel as [|fuel IH]; intros n i Hf Hi Hn Hb; [lia|]. cbn [countOccurrences_loop]. unfold sfind_from.
  rewrite (proj2 (Nat.leb_le _ _) Hi). destruct (sfind [c] (drop i s)) as [j|] eqn:E; cbn [fmap option_fmap option_map].
  - pose proof (sfind_bound _ _ _ E) as Hj. rewrite length_drop in Hj. cbn [length] in Hj.
    destruct (sfind_char_Some _ _ _ E) as [Es Hn']. rewrite Es, occ_app in Hb |- *. cbn [occ] in Hb |- *.
    rewrite Z.eqb_refl, (occ_absent c (take j (drop i s))) in Hb |- * by done. rewrite drop_drop in Hb |- *.
    pose proof (occ_bound c (drop (i + S j) s)). rewrite checked_int_Ret by lia. rewrite bind_Ret_l.
    replace (i + S j)%nat with (S (i + j)) in * by lia. rewrite IH by lia. f_equal. lia.
  - apply sfind_char_None in E. rewrite occ_absent by done. f_equal. lia.
Qed.
Lemma countOccurrences_char c s : slen s < 2 ^ 31 → countOccurrences s [c] = Ret (occ c s).
Proof.
  intros H. unfold countOccurrences. pose proof (occ_bound c s). rewrite countOccurrences_loop_char; rewrite ?drop_0; try lia. done.
Qed.

(** ** Erasing and trimming *)

Lemma eraseAll_loop_spec fuel ths s :
  ths ≠ [] → (length s < fuel)%nat → ∃ t, eraseAll_loop fuel ths s = Ret t ∧ sfind ths t = None.
Proof.
  intros Hne. revert s. induction fuel as [|fuel IH]; intros s Hf; [lia|]. cbn [eraseAll_loop].
  destruct (sfind ths s) as [i|] eqn:E; [|by exists s].
  apply IH. apply sfind_bound in E. unfold sreplace. rewrite !length_app, length_take, length_drop.
  destruct ths; [done|]. cbn in *. lia.
Qed.

(** Erasing everywhere terminates and leaves no occurrence, not even one that
    the erasing of another has put together. *)
Theorem eraseAll_erases s ths : ths ≠ [] → ∃ t, eraseAll s ths = Ret t ∧ sfind ths t = None.
Proof.
  intros H. unfold eraseAll. case_bool_decide; [done|]. apply eraseAll_loop_spec; [done|lia].
Qed.

Example eraseAll_erases_witness :
  str "ab" ≠ [] ∧ ∃ t, eraseAll (str "xaabby") (str "ab") = Ret t ∧ sfind (str "ab") t = None.
Proof. split; [done|]. by apply (eraseAll_erases (str "xaabby") (str "ab")). Defined.

Definition ws (c : Z) : Prop := c ∈ whitespaces.

Lemma Forall_not_ws s : Forall (λ c, negb (memb c whitespaces) = false) s ↔ Forall ws s.
Proof.
  apply Forall_iff. intros c. unfold ws. rewrite negb_false_iff. apply memb_spec.
Qed.

(** Trimming cuts white space off both ends and nothing else. *)
Theorem trim_trims s :
  ∃ l r, s = l ++ trim s ++ r ∧ Forall ws l ∧ Forall ws r ∧
    (∀ c, head (trim s) = Some c ∨ last (trim s) = Some c → ¬ ws c).
Proof.
  unfold trim, find_first_not_of, find_last_not_of. set (f := λ c, negb (memb c whitespaces)).
  assert (∀ c, f c = true → ¬ ws c) as Hf.
  { intros c Hc H. unfold f in Hc. apply memb_spec in H. by rewrite H in Hc. }
  destruct (find_first f s) as [i|] eqn:E1.
  - apply find_first_Some in E1 as (a & c & t & -> & <- & Hc & Ha).
    assert (∃ m d r, c :: t = m ++ [d] ++ r ∧ f d = true ∧ Forall (λ c, f c = false) r) as (m & d & r & Em & Hd & Hr).
    { destruct (find_last f (c :: t)) as [k|] eqn:E.
      - apply find_last_Some in E as (m & d & r & E & _ & ? & ?). by exists m, d, r.
      - apply find_last_None, Forall_inv in E. by rewrite Hc in E. }
    rewrite Em. cbn [app]. rewrite (app_assoc a m). rewrite (find_last_app f (a ++ m) d r) by done.
    rewrite length_app, <- app_assoc, drop_app_length.
    replace (length a + length m - length a + 1)%nat with (length (m ++ [d])) by (rewrite length_app; cbn; lia).
    replace (m ++ d :: r) with ((m ++ [d]) ++ r) by (by rewrite <- app_assoc).
    rewrite take_app_length.
    exists a, r. split_and!; [by rewrite <- !app_assoc|by apply Forall_not_ws|by apply Forall_not_ws|].
    intros x [Hx|Hx]; [|rewrite last_snoc in Hx; injection Hx as <-; auto].
    destruct m as [|y m]; cbn in Hx; injection Hx as <-; [auto|]. injection Em as <- _. auto.
  - apply find_first_None in E1. rewrite (proj2 (find_last_None f s) E1).
    exists s, []. split_and!; [by rewrite app_nil_r|by apply Forall_not_ws|by constructor|].
    by intros c [?|?].
Qed.

(** A string without white space at its ends stays as it is. *)
Lemma trim_id c s d : s = c :: tail s → last s = Some d → ¬ ws c → ¬ ws d → trim s = s.
Proof.
  intros Hs Hd Hc Hnd. unfold trim, find_first_not_of, find_last_not_of. set (f := λ c, negb (memb c whitespaces)).
  assert (∀ x, ¬ ws x → f x = true) as Hf.
  { intros x Hx. unfold f. apply negb_true_iff, not_true_is_false. by rewrite memb_spec. }
  destruct (last_Some s d) as [H _]. destruct (H Hd) as [m ->].
  rewrite (find_last_app f m d []) by (constructor || auto).
  replace (find_first f (m ++ [d])) with (Some 0%nat) by (rewrite Hs; cbn [find_first]; by rewrite Hf).
  rewrite drop_0, firstn_all2; [done|]. rewrite length_app. cbn [length]. lia.
Qed.

(** ** Numbers as digits *)

Lemma digit_char_value d : 0 ≤ d < 16 → digit_value (digit_char d) = d.
Proof.
  intros H. unfold digit_char, digit_value. destruct (d <? 10) eqn:E; repeat case_match; lia.
Qed.

Lemma read_digits_app b s t n :
  Forall (λ c, (digit_value c <? b) = true) s → read_digits b (s ++ t) n = read_digits b t (foldl (λ n c, n * b + digit_value c) n s).
Proof. intros H. revert n. induction H as [|c s Hc Hs IH]; intros n; cbn; [done|]. by rewrite Hc, IH. Qed.

(** The digits of a number: they are what a reader takes for it. *)
Definition digits_of (b n : Z) (ds : bytes) : Prop :=
  ds ≠ [] ∧ Forall (λ c, (digit_value c <? b) = true ∧ (48 ≤ c ≤ 57 ∨ 97 ≤ c ≤ 102)) ds ∧
  foldl (λ n c, n * b + digit_value c) 0 ds = n.

Lemma print_digits_value fuel b n acc :
  2 ≤ b ≤ 16 → 0 ≤ n < b ^ Z.of_nat fuel → (0 < fuel)%nat →
  ∃ ds, print_digits fuel b n acc = ds ++ acc ∧ digits_of b n ds.
Proof.
  intros Hb. unfold digits_of. revert n acc. induction fuel as [|fuel IH]; intros n acc Hn Hf; [lia|]. cbn [print_digits].
  assert (∀ d, 0 ≤ d < b → (digit_value (digit_char d) <? b) = true ∧ (48 ≤ digit_char d ≤ 57 ∨ 97 ≤ digit_char d ≤ 102)) as Hd.
  { intros d H. rewrite digit_char_value by lia. split; [lia|]. unfold digit_char. case_match; lia. }
  destruct (n <? b) eqn:E.
  - exists [digit_char n]. split_and!; [done|done|constructor; [apply Hd; lia|done]|].
    cbn. rewrite digit_char_value by lia. lia.
  - rewrite Nat2Z.inj_succ, Z.pow_succ_r in Hn by lia.
    pose proof (Z.mod_pos_bound n b ltac:(lia)).
    assert (0 < fuel)%nat by (destruct fuel; [change (b ^ Z.of_nat 0) with 1 in Hn; lia|lia]).
    destruct (IH (n / b) (digit_char (n mod b) :: acc)) as (ds & -> & Hne & Hds & Hv); [|done|].
    { split; [apply Z.div_pos; lia|apply Z.div_lt_upper_bound; lia]. }
    exists (ds ++ [digit_char (n mod b)]). split_and!.
    + by rewrite <- app_assoc.
    + by destruct ds.
    + apply Forall_app. split; [done|]. constructor; [apply Hd; lia|done].
    + rewrite foldl_app, Hv. cbn. rewrite digit_char_value by lia. pose proof (Z.div_mod n b ltac:(lia)). lia.
Qed.

Lemma print_number_digits b n : 2 ≤ b ≤ 16 → 0 ≤ n < 2 ^ 64 → digits_of b n (print_number b n).
Proof.
  intros Hb Hn. unfold print_number. destruct (print_digits_value 64 b n []) as (ds & -> & H); [done| |lia|by rewrite app_nil_r].
  split; [lia|]. apply Z.lt_le_trans with (2 ^ 64); [lia|]. apply Z.pow_le_mono_l. lia.
Qed.

Lemma digits_of_read b n ds : digits_of b n ds → read_digits b ds 0 = n.
Proof.
  intros (_ & H & <-). rewrite <- (app_nil_r ds) at 1. rewrite read_digits_app; [done|].
  eapply Forall_impl; [exact H|]. by intros c [? _].
Qed.

Lemma c_string_plain s : Forall (λ c, c ≠ 0) s → c_string s = s.
Proof. induction 1 as [|c s Hc Hs IH]; cbn; [done|]. replace (c =? 0) with false by lia. by rewrite IH. Qed.

(** A text whose second byte does not occur is not found. *)
Lemma sfind_second a b s : Forall (λ c, c ≠ b) s → sfind [a; b] s = None.
Proof.
  intros H. apply sfind_absent_None; [done|]. induction H as [|c s Hc Hs IH]; [done|].
  cbn [absent]. rewrite IH, andb_true_r, app_nil_r. cbn [prefixb].
  destruct Hs as [|d s Hd _]; [by destruct (a =? c)|].
  replace (b =? d) with false by lia. by destruct (a =? c).
Qed.

(** Hexadecimal numbers.  What [toHEX] prints of a 64-bit number is read back
    by [fromHEX], unless the number was negative: it is printed as an unsigned one,
    which the reader clamps to the largest [long]. *)
Theorem toHEX_fromHEX n :
  (0 ≤ n < 2 ^ 63 → fromHEX (toHEX 64 n) = n) ∧
  (- 2 ^ 63 ≤ n < 0 → fromHEX (toHEX 64 n) = 2 ^ 63 - 1).
Proof.
  assert (∀ m, 0 ≤ m < 2 ^ 64 → fromHEX (print_number 16 m) = Z.min (2 ^ 63 - 1) m) as H.
  { intros m Hm. pose proof (print_number_digits 16 m ltac:(lia) Hm) as Hd.
    set (ds := print_number 16 m) in *. pose proof Hd as (Hne & Hds & _).
    unfold fromHEX. change (str "0x") with [48; 120].
    rewrite sfind_second by (eapply Forall_impl; [exact Hds|]; cbn; lia). cbn [app]. unfold strtol.
    rewrite c_string_plain by (repeat constructor; try done; eapply Forall_impl; [exact Hds|]; cbn; lia).
    pose proof (digits_of_read 16 m ds Hd) as Hr. clear Hd. destruct ds as [|d ds]; [done|].
    cbn -[read_digits Z.min Z.max Z.opp Z.pow].
    apply Forall_cons in Hds as Hc. destruct Hc as [[-> _] _]. cbn -[read_digits Z.min Z.max Z.opp Z.pow].
    rewrite Hr. lia. }
  split; intros Hn; unfold toHEX, wrapu.
  - rewrite Z.mod_small by lia. rewrite H by lia. lia.
  - replace (n mod 2 ^ 64) with (n + 2 ^ 64)
      by (apply Z.mod_unique with (q := -1); lia).
    rewrite H by lia. lia.
Qed.

Lemma strtol_digits n ds : digits_of 10 n ds → 0 ≤ n < 2 ^ 63 → strtol 10 ds = n.
Proof.
  intros Hd Hn. pose proof Hd as (Hne & Hds & Hv). unfold strtol.
  rewrite c_string_plain by (eapply Forall_impl; [exact Hds|]; cbn; lia).
  pose proof (digits_of_read 10 n ds Hd) as Hr. destruct ds as [|d ds]; [done|].
  apply Forall_cons in Hds as [[_ Hc] _].
  assert (skip_while isspace (d :: ds) = d :: ds) as ->
    by (cbn; unfold isspace; by replace ((d =? 32) || ((9 <=? d) && (d <=? 13))) with false by lia).
  cbv zeta. replace (d =? 45) with false by lia. replace (d =? 43) with false by lia.
  destruct ds as [|? [|? ?]]; cbn [Z.eqb Pos.eqb andb]; rewrite Hr; lia.
Qed.

(** Numbers printed by [CastUtil::fromNumber] are read back by [toInt]. *)
Lemma toInt_print n : 0 ≤ n < 2 ^ 31 → toInt (print_number 10 n) = Ret n.
Proof.
  intros Hn. pose proof (print_number_digits 10 n ltac:(lia) ltac:(lia)) as Hd. unfold toInt.
  case_bool_decide as E.
  - rewrite E in Hd. destruct Hd as (_ & _ & <-). done.
  - rewrite (strtol_digits n) by (done || lia). rewrite wraps_small by lia.
    destruct (n =? 0) eqn:E0; [|done]. exfalso. apply E. by replace n with 0 by lia.
Qed.

Definition digit_ok (c : Z) : Prop := 48 ≤ c ≤ 57.
Definition add_digit (n c : Z) : Z := n * 10 + (c - 48).

Lemma print_decimal n :
  0 ≤ n < 2 ^ 64 → print_number 10 n ≠ [] ∧ Forall digit_ok (print_number 10 n) ∧ foldl add_digit 0 (print_number 10 n) = n.
Proof.
  intros Hn. destruct (print_number_digits 10 n ltac:(lia) Hn) as (H & Hd & Hv). split; [done|].
  assert (∀ c, (digit_value c <? 10) = true → 48 ≤ c ≤ 57 ∨ 97 ≤ c ≤ 102 → digit_ok c ∧ digit_value c = c - 48) as Hc.
  { unfold digit_value, digit_ok. intros c Hc ?. repeat case_match; lia. }
  split; [eapply Forall_impl; [exact Hd|]; intros c [H1 H2]; by apply (Hc c H1 H2)|]. rewrite <- Hv at 2.
  revert Hd. generalize (print_number 10 n) as ds. intros ds Hds. generalize 0. induction Hds as [|c ds [H1 H2] Hds IH]; intros m; [done|].
  cbn [foldl]. by rewrite (proj2 (Hc c H1 H2)), <- IH.
Qed.
