(* ===== verification/CastUtil.v ===== *)
(** * CastUtil

    Conversions of text to numbers ([common/CastUtil.h]) beside [toInt], which is in
    [StdString]. *)

From S2P Require Import Prelude StdString StringUtil.

(** ** Whole numbers *)

(** [toShort], [toInt], [toLong] and their unsigned versions, for a width. *)
Definition to_signed (w : Z) (v : bytes) : outcome Z :=
  if bool_decide (v = [48]) then Ret 0
  else let i := wraps w (strtol 10 v) in if i =? 0 then Throw Runtime_error else Ret i.
Definition to_unsigned (w : Z) (v : bytes) : outcome Z :=
  if bool_decide (v = [48]) then Ret 0
  else let i := wrapu w (strtol 10 v) in if i =? 0 then Throw Runtime_error else Ret i.
(** [sscanf] of a decimal number: white space, a sign, digits; what does not fit is undefined. *)
Definition scan_number (lo hi : Z) (v : bytes) : outcome Z :=
  let s := skip_while isspace (c_string v) in
  let '(neg, s) := match s with
                   | c :: s' => if c =? 45 then (true, s') else if c =? 43 then (false, s') else (false, s)
                   | [] => (false, s)
                   end in
  match s with
  | c :: _ =>
      if digit_value c <? 10 then
        let n := read_digits 10 s 0 in
        let n := if (neg : bool) then - n else n in
        if (lo <=? n) && (n <=? hi) then Ret n else Undefined
      else Throw Runtime_error
  | [] => Throw Runtime_error
  end.
Definition toLonglong (v : bytes) : outcome Z := scan_number (- 2 ^ 63) (2 ^ 63 - 1) v.
Definition toULonglong (v : bytes) : outcome Z := n ← scan_number (- (2 ^ 64 - 1)) (2 ^ 64 - 1) v; Ret (wrapu 64 n).
(** ** Booleans *)

Definition toBool (v : bytes) : outcome bool :=
  let l := toLower v in
  if bool_decide (l = str "true") || bool_decide (l = str "1") then Ret true
  else if bool_decide (l = str "false") || bool_decide (l = str "0") then Ret false
  else Throw Runtime_error.

(** ** Floating point numbers *)

(** [toFloat] and [toDouble]; [strtod] is the conversion of the C library, in whatever
    unit its caller keeps the numbers. *)
Section floats.
Variable strtod : bytes → Z.

Definition nonzero_float (v : bytes) : outcome Z := let f := strtod v in if f =? 0 then Throw Runtime_error else Ret f.
Definition only_zeros (v : bytes) : bool := forallb (λ c, memb c [46; 48]) v.
Definition toFloat (v : bytes) : outcome Z :=
  c ← at_ v 0;
  if (c =? 48) || prefixb (str "+0") v || prefixb (str "-0") v then
    dots ← countOccurrences v [46];
    if 1 <? dots then Throw Runtime_error
    else if c =? 48 then if only_zeros v then Ret 0 else nonzero_float v
    else if only_zeros (drop 1 v) then Ret 0 else nonzero_float (drop 1 v)
  else nonzero_float v.
End floats.
