(* ===== verification/Dates.v ===== *)
(** * Dates

    [common/Date.cpp]: dates with their fields, days counted from 1 March 1900, the
    calendar, the arithmetic on dates and their comparison.  What the clock and the time
    zone of the system answer is an argument ([Clock]), one reading for each time the code
    asks.  The arguments of the functions that add minutes, hours and seconds are [double]s
    in the code; the model has them whole, as every caller passes them. *)

From S2P Require Import Prelude StdString StringUtil CastUtil.

(** ** Data *)

(** [struct tm] of the C library. *)
Record tm := {
  tm_sec : Z; tm_min : Z; tm_hour : Z; tm_mday : Z; tm_mon : Z; tm_year : Z;
  tm_wday : Z; tm_yday : Z; tm_isdst : Z; tm_gmtoff : Z; tm_zone : option bytes }.

(** A reading: [clock_gettime], and [time] through [localtime_r] and [gmtime_r]. *)
Record Clock := { tv_sec : Z; tv_nsec : Z; localtime : tm; gmtime : tm }.

Record Date := {
  ti : tm;
  month : Z; monthName : bytes; monthAbbr : bytes;
  year : Z; day : Z; dayOfYear : Z; dayName : bytes; dayAbbr : bytes;
  hours : Z; minutes : Z; seconds : Z; hourdesignation : bytes; nanoseconds : Z;
  timeZoneOffsetSecs : Z; timeZoneOffset : Z; timeZone : bytes;
  weekday : Z; pmHours : Z; isDLS : bool; epochTime : Z }.

Definition set_day (dd mm yy : Z) (d : Date) : Date := {|
  ti := ti d; month := mm; monthName := monthName d; monthAbbr := monthAbbr d;
  year := yy; day := dd; dayOfYear := dayOfYear d; dayName := dayName d; dayAbbr := dayAbbr d;
  hours := hours d; minutes := minutes d; seconds := seconds d;
  hourdesignation := hourdesignation d; nanoseconds := nanoseconds d;
  timeZoneOffsetSecs := timeZoneOffsetSecs d; timeZoneOffset := timeZoneOffset d; timeZone := timeZone d;
  weekday := weekday d; pmHours := pmHours d; isDLS := isDLS d; epochTime := epochTime d |}.
Definition set_month_names (mn ma : bytes) (d : Date) : Date := {|
  ti := ti d; month := month d; monthName := mn; monthAbbr := ma;
  year := year d; day := day d; dayOfYear := dayOfYear d; dayName := dayName d; dayAbbr := dayAbbr d;
  hours := hours d; minutes := minutes d; seconds := seconds d;
  hourdesignation := hourdesignation d; nanoseconds := nanoseconds d;
  timeZoneOffsetSecs := timeZoneOffsetSecs d; timeZoneOffset := timeZoneOffset d; timeZone := timeZone d;
  weekday := weekday d; pmHours := pmHours d; isDLS := isDLS d; epochTime := epochTime d |}.
Definition set_weekday (dn da : bytes) (wd : Z) (des : bytes) (pm : Z) (d : Date) : Date := {|
  ti := ti d; month := month d; monthName := monthName d; monthAbbr := monthAbbr d;
  year := year d; day := day d; dayOfYear := dayOfYear d; dayName := dn; dayAbbr := da;
  hours := hours d; minutes := minutes d; seconds := seconds d;
  hourdesignation := des; nanoseconds := nanoseconds d;
  timeZoneOffsetSecs := timeZoneOffsetSecs d; timeZoneOffset := timeZoneOffset d; timeZone := timeZone d;
  weekday := wd; pmHours := pm; isDLS := isDLS d; epochTime := epochTime d |}.
Definition set_clock_time (hh mi ss ns : Z) (d : Date) : Date := {|
  ti := ti d; month := month d; monthName := monthName d; monthAbbr := monthAbbr d;
  year := year d; day := day d; dayOfYear := dayOfYear d; dayName := dayName d; dayAbbr := dayAbbr d;
  hours := hh; minutes := mi; seconds := ss;
  hourdesignation := hourdesignation d; nanoseconds := ns;
  timeZoneOffsetSecs := timeZoneOffsetSecs d; timeZoneOffset := timeZoneOffset d; timeZone := timeZone d;
  weekday := weekday d; pmHours := pmHours d; isDLS := isDLS d; epochTime := epochTime d |}.
Definition set_epoch (e : Z) (d : Date) : Date := {|
  ti := ti d; month := month d; monthName := monthName d; monthAbbr := monthAbbr d;
  year := year d; day := day d; dayOfYear := dayOfYear d; dayName := dayName d; dayAbbr := dayAbbr d;
  hours := hours d; minutes := minutes d; seconds := seconds d;
  hourdesignation := hourdesignation d; nanoseconds := nanoseconds d;
  timeZoneOffsetSecs := timeZoneOffsetSecs d; timeZoneOffset := timeZoneOffset d; timeZone := timeZone d;
  weekday := weekday d; pmHours := pmHours d; isDLS := isDLS d; epochTime := e |}.
Definition set_zone (t : tm) (e ns secs off : Z) (z : bytes) (dls : bool) (d : Date) : Date := {|
  ti := t; month := month d; monthName := monthName d; monthAbbr := monthAbbr d;
  year := year d; day := day d; dayOfYear := dayOfYear d; dayName := dayName d; dayAbbr := dayAbbr d;
  hours := hours d; minutes := minutes d; seconds := seconds d;
  hourdesignation := hourdesignation d; nanoseconds := ns;
  timeZoneOffsetSecs := secs; timeZoneOffset := off; timeZone := z;
  weekday := weekday d; pmHours := pmHours d; isDLS := dls; epochTime := e |}.

(** ** Names *)

Definition day_words : list bytes :=
  map str ["SUNDAY"; "MONDAY"; "TUESDAY"; "WEDNESDAY"; "THURSDAY"; "FRIDAY"; "SATURDAY"]%string.
Definition month_words : list bytes :=
  map str ["JANUARY"; "FEBRUARY"; "MARCH"; "APRIL"; "MAY"; "JUNE"; "JULY"; "AUGUST"; "SEPTEMBER"; "OCTOBER"; "NOVEMBER"; "DECEMBER"]%string.
(** The case of a [switch] over the numbers from 0. *)
Definition word (l : list bytes) (i : Z) : option bytes := if 0 <=? i then l !! Z.to_nat i else None.
(** A short form is the first three letters of the long one. *)
Definition in_words (l : list bytes) (i : Z) (sf : bool) : bytes :=
  match word l i with Some w => if sf then take 3 w else w | None => [] end.
Definition dayInWords (d : Z) (sf : bool) : bytes := in_words day_words d sf.
Definition monthInWords (m : Z) (sf : bool) : bytes := in_words month_words m sf.

Definition getMon (m : bytes) : bytes :=
  let mmm := toUpper m in
  if bool_decide (mmm = str "JAN") then str "01"
  else if bool_decide (mmm = str "FEB") then str "02"
  else if bool_decide (mmm = str "MAR") then str "03"
  else if bool_decide (mmm = str "APR") then str "04"
  else if bool_decide (mmm = str "MAY") then str "05"
  else if bool_decide (mmm = str "JUN") then str "06"
  else if bool_decide (mmm = str "JUL") then str "07"
  else if bool_decide (mmm = str "AUG") then str "08"
  else if bool_decide (mmm = str "SEP") then str "09"
  else if bool_decide (mmm = str "OCT") then str "10"
  else if bool_decide (mmm = str "NOV") then str "11"
  else if bool_decide (mmm = str "DEC") then str "12"
  else str "-1".

(** ** Fields from the clock *)

(** [timeZoneOffset] is a [float] of minutes, whole and small. *)
Definition populateEpochAndTimeZone (c : Clock) (utc : bool) (d : Date) : Date :=
  let t := if utc then gmtime c else localtime c in
  set_zone t (tv_sec c) (tv_nsec c) (tm_gmtoff t) (Z.quot (tm_gmtoff t) 60)
    (match tm_zone t with Some z => z | None => timeZone d end) (tm_isdst t =? 1) d.

(** [populateDateFields] of an object whose [ti] is [t] and whose [timeZone] is empty. *)
Definition populateDateFields (c : Clock) (t : tm) : Date := {|
  ti := t; month := tm_mon t; monthName := monthInWords (tm_mon t) false; monthAbbr := monthInWords (tm_mon t) true;
  year := wraps 32 (tm_year t + 1900); day := tm_mday t; dayOfYear := tm_yday t;
  dayName := dayInWords (tm_wday t) false; dayAbbr := dayInWords (tm_wday t) true;
  hours := tm_hour t; minutes := tm_min t; seconds := tm_sec t;
  hourdesignation := if 12 <=? tm_hour t then str "PM" else str "AM"; nanoseconds := tv_nsec c;
  timeZoneOffsetSecs := tm_gmtoff t; timeZoneOffset := Z.quot (tm_gmtoff t) 60;
  timeZone := default [] (tm_zone t);
  weekday := tm_wday t; pmHours := if 13 <=? tm_hour t then tm_hour t - 12 else tm_hour t;
  isDLS := tm_isdst t =? 1; epochTime := tv_sec c |}.

(** [Date(utc)]: now.  [Date(tm)]: from broken-down time. *)
Definition Date_now (c : Clock) (utc : bool) : Date := populateDateFields c (if utc then gmtime c else localtime c).
Definition Date_tm (c : Clock) (t : tm) : Date := populateDateFields c t.

(** ** The calendar *)

Definition is_leap (yyyy : Z) : bool :=
  (Z.rem yyyy 4 =? 0) && (negb (Z.rem yyyy 100 =? 0) || (Z.rem yyyy 400 =? 0)).

Definition validateDate (dd mm yyyy : Z) : bool :=
  let error := true in
  let error := if (dd <? 1) || (31 <? dd) || (yyyy <? 0) then false else error in
  let error := if (mm <? 1) || (12 <? mm) then false else error in
  let mw31days := str ",1,3,5,7,8,10,12," in
  let mw30oldays := str ",4,6,9,11," in
  let mtc := str "," ++ fromNumber mm ++ str "," in
  if mm =? 2 then
    if is_leap yyyy then if (dd <? 1) || (29 <? dd) then false else error
    else if (dd <? 1) || (28 <? dd) then false else error
  else if bool_decide (sfind mtc mw31days ≠ None) then if (dd <? 1) || (31 <? dd) then false else error
  else if bool_decide (sfind mtc mw30oldays ≠ None) then if (dd <? 1) || (30 <? dd) then false else error
  else error.

(** The code of 31 December of the year before. *)
Definition prev_year_code (yyyy : Z) : outcome Z :=
  y ← checked_int (yyyy - 1);
  a ← checked_int (y * 365);
  a ← checked_int (a + Z.quot y 4);
  a ← checked_int (a - Z.quot y 100);
  a ← checked_int (a + Z.quot y 400);
  Ret (Z.rem a 7).

Definition getDayName_offset (mm : Z) : Z :=
  if mm =? 12 then 30 else if mm =? 11 then 31 else if mm =? 10 then 30 else if mm =? 9 then 31
  else if mm =? 8 then 31 else if mm =? 7 then 30 else if mm =? 6 then 31 else if mm =? 5 then 30
  else if mm =? 4 then 31 else if mm =? 3 then 28 else if mm =? 2 then 31 else 0.
Definition getDayName (dd mm yyyy : Z) : outcome bytes :=
  if negb (validateDate dd mm yyyy) then Ret []
  else
    days ← prev_year_code yyyy;
    let days := days + (dd + getDayName_offset mm) in
    let days := if is_leap yyyy && (2 <? mm) then days + 1 else days in
    let days := Z.rem days 7 in
    Ret (dayInWords days false).

Definition populateDay_offset (mm : Z) : Z :=
  if mm =? 12 then 334 else if mm =? 11 then 304 else if mm =? 10 then 273 else if mm =? 9 then 243
  else if mm =? 8 then 212 else if mm =? 7 then 181 else if mm =? 6 then 151 else if mm =? 5 then 120
  else if mm =? 4 then 90 else if mm =? 3 then 59 else if mm =? 2 then 31 else 0.
Definition populateDay (d : Date) : outcome Date :=
  code ← prev_year_code (year d);
  dd ← checked_int (day d + code);
  dd ← checked_int (dd + populateDay_offset (month d));
  dd ← checked_int (if is_leap (year d) && (2 <? month d) then dd + 1 else dd);
  let dd := Z.rem dd 7 in
  let '(dn, wd) := match word day_words dd with
                   | Some w => (w, if dd =? 0 then 7 else dd)
                   | None => (dayName d, weekday d)
                   end in
  let da := if 3 <? slen dn then take 3 dn else dayAbbr d in
  Ret (if 12 <=? hours d then set_weekday dn da wd (str "PM") (hours d - 12) d
       else set_weekday dn da wd (hourdesignation d) 0 d).

Definition populateMonth (d : Date) : Date :=
  let mn := match word month_words (month d - 1) with Some w => w | None => monthName d end in
  set_month_names mn (take 3 mn) d.

(** ** Counting days *)

(** Signed arithmetic of 64 bits. *)
Definition checked_long (x : Z) : outcome Z := if (- 2 ^ 63 <=? x) && (x <? 2 ^ 63) then Ret x else Undefined.

(** [getDays]: days from 1 March 1900.  Divisions truncate; for the years of an [int] nothing
    overflows ([getDays_fits]). *)
Definition getDays (y m d : Z) : Z :=
  let y := y - 1900 in
  let m := Z.rem (m + 9) 12 in
  let y := y - Z.quot m 10 in
  365 * y + Z.quot y 4 - Z.quot y 100 + Z.quot y 400 + Z.quot (m * 306 + 5) 10 + (d - 1).

Definition getHoursI (y m d hh : Z) : Z :=
  let g := getDays y m d in
  let hfd := wraps 32 (Z.quot hh 24) in
  let hh := Z.rem hh 24 in
  (g + hfd) * 24 + hh.
Definition getMinutesI (y m d hh mi : Z) : Z :=
  let g := getHoursI y m d hh in
  let mfh := wraps 32 (Z.quot mi 60) in
  let mi := Z.rem mi 60 in
  (g + mfh) * 60 + mi.
Definition getSecondsI (y m d hh mi ss : Z) : Z :=
  let g := getMinutesI y m d hh mi in
  let sfm := wraps 32 (Z.quot ss 60) in
  let ss := Z.rem ss 60 in
  wrapu 64 ((g + sfm) * 60 + ss).

(** The year, month and day [getDateFromDaysInternal] works out. *)
Definition year_of_days (days est : Z) : Z * Z :=
  let y := est in
  let ddd := days - (365 * y + Z.quot y 4 - Z.quot y 100 + Z.quot y 400) in
  if ddd <? 0 then
    let y := y - 1 in
    (y, days - (365 * y + Z.quot y 4 - Z.quot y 100 + Z.quot y 400))
  else (y, ddd).
Definition date_of_days (days est : Z) : Z * Z * Z :=
  let '(y, ddd) := year_of_days days est in
  let mi := Z.quot (100 * ddd + 52) 3060 in
  let mm := Z.rem (mi + 2) 12 + 1 in
  let y := y + Z.quot (mi + 2) 12 + 1900 in
  let dd := ddd - Z.quot (mi * 306 + 5) 10 + 1 in
  (y, mm, dd).
Definition getDateFromDaysInternal (c : Clock) (days : Z) : outcome Date :=
  e ← checked_long (10000 * days + 14780);
  let '(y, mm, dd) := date_of_days days (Z.quot e 3652425) in
  Ret (set_day (wraps 32 dd) (wraps 32 mm) (wraps 32 y) (Date_now c false)).

Definition setTime (hh mi ss ns : Z) (d : Date) : outcome Date :=
  if (24 <? hh) || (hh <? 0) || (mi <? 0) || (60 <? mi) || (ss <? 0) || (60 <? ss) then Throw Runtime_error
  else Ret (set_clock_time hh mi ss ns d).

Definition getDateFromDays (c1 c2 : Clock) (days : Z) : outcome Date :=
  d ← getDateFromDaysInternal c1 days;
  d ← populateDay d;
  Ret (populateEpochAndTimeZone c2 false d).
(** The end of [getDateFromHours], [getDateFromMinutes] and [getDateFromSeconds]. *)
Definition date_at (c1 c2 : Clock) (days hh mi ss : Z) : outcome Date :=
  d ← getDateFromDaysInternal c1 days;
  d ← setTime hh mi ss 0 d;
  d ← populateDay d;
  Ret (populateEpochAndTimeZone c2 false d).
Definition getDateFromHours (c1 c2 : Clock) (hours : Z) : outcome Date :=
  date_at c1 c2 (Z.quot hours 24) (wraps 32 (Z.rem hours 24)) 0 0.
Definition getDateFromMinutes (c1 c2 : Clock) (minutes : Z) : outcome Date :=
  let hours := Z.quot minutes 60 in
  date_at c1 c2 (Z.quot hours 24) (wraps 32 (Z.rem hours 24)) (wraps 32 (Z.rem minutes 60)) 0.
Definition getDateFromSeconds (c1 c2 : Clock) (seconds : Z) : outcome Date :=
  let minutes := Z.quot seconds 60 in
  let hours := Z.quot minutes 60 in
  date_at c1 c2 (Z.quot hours 24) (wraps 32 (Z.rem hours 24)) (wraps 32 (Z.rem minutes 60)) (wraps 32 (Z.rem seconds 60)).

(** ** Constructors *)

(** The end of the four constructors from a year, a month and a day. *)
Definition Date_of_days (c1 c2 c3 : Clock) (g : Z) : outcome Date :=
  d ← getDateFromDays c1 c2 g;
  d ← populateDay d;
  Ret (populateEpochAndTimeZone c3 false (populateMonth d)).
Definition Date_ymd (c1 c2 c3 : Clock) (yyyy mm dd : Z) : outcome Date :=
  if negb (validateDate dd mm yyyy) then Throw Runtime_error
  else Date_of_days c1 c2 c3 (getDays yyyy mm dd).
Definition Date_ymmmd (c1 c2 c3 : Clock) (yyyy : Z) (mmm : bytes) (dd : Z) : outcome Date :=
  let mm := getMon mmm in
  if bool_decide (mm = str "-1") then Throw Runtime_error
  else
    m ← toInt mm;
    if negb (validateDate dd m yyyy) then Throw Runtime_error
    else l ← to_signed 64 mm; Date_of_days c1 c2 c3 (getDays yyyy l dd).
(** The year of a short one: the century is that of the clock. *)
Definition full_year (c0 : Clock) (yy : Z) : outcome Z :=
  century ← substr (fromNumber (year (Date_now c0 false))) 0 2;
  toInt (century ++ fromNumber yy).
Definition Date_yymmdd (c0 c1 c2 c3 : Clock) (yy mm dd : Z) : outcome Date :=
  yyyy ← full_year c0 yy;
  Date_ymd c1 c2 c3 yyyy mm dd.
Definition Date_yymmmdd (c0 c1 c2 c3 : Clock) (yy : Z) (mmm : bytes) (dd : Z) : outcome Date :=
  yyyy ← full_year c0 yy;
  Date_ymmmd c1 c2 c3 yyyy mmm dd.

(** ** Arithmetic *)

Definition take_day (c1 c2 : Clock) (g : Z) (d : Date) : outcome Date :=
  n ← getDateFromDays c1 c2 g;
  populateDay (set_day (day n) (month n) (year n) d).
(** The seconds of the fields, for [epochTime]. *)
Definition field_seconds (d : Date) : Z := getSecondsI (year d) (month d) (day d) (hours d) (minutes d) (seconds d).

Definition updateDays (c1 c2 : Clock) (days : Z) (d : Date) : outcome Date :=
  let months := month d in
  let y := year d + Z.quot months 12 in
  let months := Z.rem months 12 in
  d ← take_day c1 c2 (getDays y months (day d + days)) d;
  Ret (set_epoch (epochTime d + days * 24 * 60 * 60) d).
Definition updateMonths (c1 c2 : Clock) (months : Z) (d : Date) : outcome Date :=
  let months := month d + months in
  let y := year d + Z.quot months 12 in
  let months := Z.rem months 12 in
  d ← take_day c1 c2 (getDays y months (day d)) d;
  Ret (set_epoch (wraps 64 (field_seconds d)) d).
Definition updateYears (c1 c2 : Clock) (years : Z) (d : Date) : outcome Date :=
  d ← take_day c1 c2 (getDays (year d + years) (month d) (day d)) d;
  Ret (set_epoch (wraps 64 (field_seconds d)) d).

(** With a whole argument [fraction] is 0. *)
Definition updateHours (c1 c2 : Clock) (dhours : Z) (d : Date) : outcome Date :=
  let extminutes := minutes d in
  let h := dhours + Z.quot extminutes 60 in
  let extminutes := Z.rem extminutes 60 in
  let days := Z.quot (hours d + h) 24 in
  let h := Z.rem (hours d + h) 24 in
  d ← (if 0 <? days then updateDays c1 c2 days d else Ret d);
  let d := set_clock_time (wraps 32 h) (wraps 32 extminutes) (seconds d) (nanoseconds d) d in
  Ret (set_epoch (epochTime d + dhours * 60 * 60) d).
Definition updateMinutes (c1 c2 : Clock) (dminutes : Z) (d : Date) : outcome Date :=
  let extseconds := seconds d in
  let m := dminutes + Z.quot extseconds 60 in
  let extseconds := Z.rem extseconds 60 in
  let h := Z.quot (minutes d + m) 60 in
  let m := Z.rem (minutes d + m) 60 in
  d ← (if 0 <? h then updateHours c1 c2 h d else Ret d);
  let d := set_clock_time (hours d) (wraps 32 m) (wraps 32 extseconds) (nanoseconds d) d in
  Ret (set_epoch (epochTime d + dminutes * 60) d).
Definition updateSeconds (c1 c2 : Clock) (dseconds : Z) (d : Date) : outcome Date :=
  let s := dseconds in
  let m := Z.quot (s + s) 60 in
  let s := Z.rem (s + s) 60 in
  d ← (if 0 <? m then updateMinutes c1 c2 m d else Ret d);
  let d := set_clock_time (hours d) (minutes d) (wraps 32 s) 0 d in
  Ret (set_epoch (epochTime d + dseconds) d).

Definition addDaysGet (c1 c2 : Clock) (days : Z) (d : Date) : outcome Date :=
  let months := month d in
  let y := year d + Z.quot months 12 in
  let months := Z.rem months 12 in
  n ← getDateFromDays c1 c2 (getDays y months (day d + days));
  Ret (set_epoch (epochTime n + days * 24 * 3600) n).
Definition addMonthsGet (c1 c2 : Clock) (months : Z) (d : Date) : outcome Date :=
  let months := month d + months in
  let y := year d + Z.quot months 12 in
  let months := Z.rem months 12 in
  n ← getDateFromDays c1 c2 (getDays y months (day d));
  Ret (set_epoch (wraps 64 (field_seconds n)) n).
Definition addYearsGet (c1 c2 : Clock) (years : Z) (d : Date) : outcome Date :=
  n ← getDateFromDays c1 c2 (getDays (year d + years) (month d) (day d));
  Ret (set_epoch (wraps 64 (field_seconds n)) n).
(** [addHoursGet], [addMinutesGet] and [addSecondsGet] update a copy. *)
Definition addHoursGet := updateHours.
Definition addMinutesGet := updateMinutes.
Definition addSecondsGet := updateSeconds.

Definition toGMT (c1 c2 : Clock) (d : Date) : outcome Date :=
  n ← updateHours c1 c2 (timeZoneOffset d) d;
  Ret (set_zone (ti n) (epochTime n) (nanoseconds n) (timeZoneOffsetSecs n) 0 (str "UTC") (isDLS n) n).

(** ** Comparison *)

Definition compare_key (d : Date) : Z := Z.rem (field_seconds d) 9223372036854775807.
Definition compare (d1 d2 : Date) : Z * Z := (compare_key d1, compare_key d2).
Definition date_lt (d1 d2 : Date) : bool := let '(a, b) := compare d1 d2 in a <? b.
Definition date_gt (d1 d2 : Date) : bool := let '(a, b) := compare d1 d2 in b <? a.
Definition date_eq (d1 d2 : Date) : bool := let '(a, b) := compare d1 d2 in a =? b.
Definition date_le (d1 d2 : Date) : bool := let '(a, b) := compare d1 d2 in a <=? b.
Definition date_ge (d1 d2 : Date) : bool := let '(a, b) := compare d1 d2 in b <=? a.
Definition date_ne (d1 d2 : Date) : bool := let '(a, b) := compare d1 d2 in negb (a =? b).

(** [DateFormat::appendZero]. *)
Definition appendZero (value : Z) : bytes := let te := fromNumber value in if slen te =? 1 then str "0" ++ te else te.

(** ** The reference calendar *)

Definition days_in_month (lp : bool) (m : Z) : Z :=
  if m =? 2 then if lp then 29 else 28
  else if bool_decide (m ∈ [4; 6; 9; 11]) then 30 else 31.
Definition month_days (lp : bool) (m d : Z) : Prop := 1 ≤ m ≤ 12 ∧ 1 ≤ d ≤ days_in_month lp m.

(** Days before the year [n + 1], and the number of a day counted from 1 January of year 1. *)
Fixpoint year_start (n : nat) : Z :=
  match n with O => 0 | S n => year_start n + (if is_leap (Z.of_nat (S n)) then 366 else 365) end.
Definition months_before (lp : bool) (m : Z) : Z := foldr Z.add 0 (map (days_in_month lp) (seqZ 1 (m - 1))).
Definition day_number (y m d : Z) : Z := year_start (Z.to_nat (y - 1)) + months_before (is_leap y) m + d.

(** The calendar [getDays] counts in has the leap years of the Gregorian one at a distance of
    1900 years. *)
Definition cal_leap (y : Z) : bool := is_leap (y - 1900).
Definition cal_date (y m d : Z) : Prop := month_days (cal_leap y) m d ∧ (1900 < y ∨ y = 1900 ∧ 3 ≤ m).
#[export] Instance month_days_dec lp m d : Decision (month_days lp m d).
Proof. unfold month_days. apply _. Defined.
#[export] Instance cal_date_dec y m d : Decision (cal_date y m d).
Proof. unfold cal_date. apply _. Defined.

Lemma is_leap_spec y : 0 ≤ y → is_leap y = (y mod 4 =? 0) && (negb (y mod 100 =? 0) || (y mod 400 =? 0)).
Proof. intros. unfold is_leap. by rewrite !Z.rem_mod_nonneg by lia. Qed.

(** Facts about a small range are decided by enumeration. *)

(** *** Days before a year and before a month, from March on *)

Definition before_year (y : Z) : Z := 365 * y + y / 4 - y / 100 + y / 400.
Definition before_month (m : Z) : Z := (m * 306 + 5) / 10.
(** The first day of the month [k], counted from March 1900. *)
Definition first_day (k : Z) : Z := before_year (k / 12) + before_month (k mod 12).
Definition month_no (y m : Z) : Z := 12 * (y - 1900) + m - 3.

Lemma before_year_step y : 0 ≤ y → before_year (y + 1) = before_year y + (if is_leap (y + 1) then 366 else 365).
Proof.
  intros. rewrite is_leap_spec by lia. unfold before_year.
  destruct (Z.eqb_spec ((y + 1) mod 4) 0), (Z.eqb_spec ((y + 1) mod 100) 0), (Z.eqb_spec ((y + 1) mod 400) 0); cbn;
    Z.div_mod_to_equations; lia.
Qed.
Lemma before_year_quot y : 0 ≤ y → 365 * y + Z.quot y 4 - Z.quot y 100 + Z.quot y 400 = before_year y.
Proof. intros. unfold before_year. by rewrite !Z.quot_div_nonneg by lia. Qed.

Lemma month_cases m : 1 ≤ m ≤ 12 →
  m = 1 ∨ m = 2 ∨ m = 3 ∨ m = 4 ∨ m = 5 ∨ m = 6 ∨ m = 7 ∨ m = 8 ∨ m = 9 ∨ m = 10 ∨ m = 11 ∨ m = 12.
Proof. lia. Qed.
Ltac month_cases H := apply month_cases in H;
  repeat match type of H with _ ∨ _ => destruct H as [H|H] end; subst.

Lemma first_day_at y m : 0 ≤ m < 12 → first_day (12 * y + m) = before_year y + before_month m.
Proof. intros. unfold first_day. rewrite (Z.mul_comm 12), Z.div_add_l, Z.div_small, Z.add_0_r by lia. rewrite (Z.add_comm (y * 12) m), Z_mod_plus_full, Z.mod_small by lia. done. Qed.

Lemma getDays_first y m d : 1 ≤ m ≤ 12 → 0 ≤ month_no y m → getDays y m d = first_day (month_no y m) + d - 1.
Proof.
  intros Hm Hk. unfold getDays. unfold month_no in *. rewrite Z.rem_mod_nonneg by lia.
  set (mp := (m + 9) mod 12). set (Y := y - 1900 - Z.quot mp 10).
  assert (0 ≤ mp < 12) by (apply Z.mod_pos_bound; lia).
  assert (12 * (y - 1900) + m - 3 = 12 * Y + mp) as E.
  { unfold Y, mp. rewrite Z.quot_div_nonneg by lia. month_cases Hm; Z.div_mod_to_equations; lia. }
  assert (0 ≤ Y) by lia. rewrite E, first_day_at by lia. rewrite before_year_quot by lia. unfold before_month.
  rewrite Z.quot_div_nonneg by lia. lia.
Qed.

(** The length of the month [k]. *)
Definition month_len (k : Z) : Z := first_day (k + 1) - first_day k.

Lemma month_len_calendar y m : 1 ≤ m ≤ 12 → 0 ≤ month_no y m → month_len (month_no y m) = days_in_month (cal_leap y) m.
Proof.
  intros Hm Hk. unfold month_len.
  assert (∃ Y mp, month_no y m = 12 * Y + mp ∧ 0 ≤ Y ∧ (3 ≤ m ∧ mp = m - 3 ∨ m ≤ 2 ∧ mp = m + 9 ∧ Y + 1 = y - 1900)) as (Y & mp & -> & HY & Hmp).
  { unfold month_no in *. destruct (decide (3 ≤ m)).
    - exists (y - 1900), (m - 3). lia.
    - exists (y - 1901), (m + 9). lia. }
  destruct (decide (m = 2)) as [->|].
  - assert (mp = 11) as -> by lia. replace (12 * Y + 11 + 1) with (12 * (Y + 1) + 0) by lia.
    rewrite !first_day_at by lia. rewrite before_year_step by lia. destruct Hmp as [|(_ & _ & Hy)]; [lia|].
    unfold cal_leap. rewrite <- Hy. change (before_month 0) with 0. change (before_month 11) with 337. unfold days_in_month. cbn. case_match; lia.
  - rewrite <- Z.add_assoc, !first_day_at by lia.
    assert (before_month (mp + 1) - before_month mp = days_in_month (cal_leap y) m) by
      (destruct Hmp as [[? ->]|[? [-> ?]]]; month_cases Hm; solve [lia | reflexivity]).
    lia.
Qed.

Lemma month_len_bounds k : 0 ≤ k → 28 ≤ month_len k ≤ 31.
Proof.
  intros. assert (∃ y m, k = month_no y m ∧ 1 ≤ m ≤ 12) as (y & m & -> & Hm).
  { exists (1900 + (k + 2) / 12), ((k + 2) mod 12 + 1). unfold month_no. Z.div_mod_to_equations. lia. }
  rewrite month_len_calendar by lia.
  unfold days_in_month. repeat case_match; lia.
Qed.
Lemma first_day_mono k k' : 0 ≤ k < k' → first_day k + month_len k ≤ first_day k'.
Proof.
  intros [Hk Hlt]. replace k' with (k + 1 + (k' - (k + 1))) by lia. assert (0 ≤ k' - (k + 1)) as Hn by lia. revert Hn.
  generalize (k' - (k + 1)). apply natlike_ind.
  - rewrite Z.add_0_r. unfold month_len. lia.
  - intros n Hn IH. pose proof (month_len_bounds (k + 1 + n) ltac:(lia)) as Hb. unfold month_len in Hb.
    replace (k + 1 + Z.succ n) with (k + 1 + n + 1) by lia. lia.
Qed.

(** *** The way back *)

Lemma before_year_period q r : before_year (400 * q + r) = 146097 * q + before_year r.
Proof.
  unfold before_year.
  replace (400 * q + r) with (r + 100 * q * 4) at 2 by lia. replace (400 * q + r) with (r + 4 * q * 100) at 2 by lia.
  replace (400 * q + r) with (r + q * 400) at 2 by lia. rewrite !Z.div_add by lia. lia.
Qed.

(** The approximation of the year is right or one too large. *)
Definition estimate_ok (r : Z) : bool :=
  (3652425 * r <=? 10000 * before_year r + 14780) &&
  (10000 * (before_year (r + 1) - 1) + 14780 <? 3652425 * (r + 2)).
Lemma estimate_year y g : 0 ≤ y → before_year y ≤ g < before_year (y + 1) →
  y ≤ (10000 * g + 14780) / 3652425 ≤ y + 1.
Proof.
  intros Hy Hg. set (q := y / 400). set (r := y mod 400).
  assert (y = 400 * q + r) as E by (unfold q, r; Z.div_mod_to_equations; lia).
  assert (0 ≤ r < 0 + 400) as Hr by (unfold r; Z.div_mod_to_equations; lia).
  assert (estimate_ok r = true) as Hok by (revert Hr; apply forall_range; vm_compute; reflexivity).
  unfold estimate_ok in Hok. apply andb_true_iff in Hok as [H1%Z.leb_le H2%Z.ltb_lt].
  rewrite E, before_year_period in Hg. rewrite <- Z.add_assoc, before_year_period in Hg. 
  split; [apply Z.div_le_lower_bound; lia|]. apply Z.lt_succ_r, Z.div_lt_upper_bound; lia.
Qed.

Lemma year_of_days_spec y g : 0 ≤ y → before_year y ≤ g < before_year (y + 1) →
  year_of_days g (Z.quot (10000 * g + 14780) 3652425) = (y, g - before_year y).
Proof.
  intros Hy Hg. assert (0 ≤ before_year y) by (unfold before_year; Z.div_mod_to_equations; lia).
  pose proof (estimate_year y g Hy Hg) as He. rewrite Z.quot_div_nonneg by lia.
  set (e := (10000 * g + 14780) / 3652425) in *. clearbody e. unfold year_of_days.
  assert (e = y ∨ e = y + 1) as [-> | ->] by lia; rewrite !before_year_quot by lia.
  - by replace (_ <? 0) with false by lia.
  - replace (g - before_year (y + 1) <? 0) with true by lia. replace (y + 1 - 1) with y by lia. done.
Qed.

Lemma year_exists g : 0 ≤ g → ∃ y, 0 ≤ y ∧ before_year y ≤ g < before_year (y + 1).
Proof.
  intros Hg. assert (∀ n, 0 ≤ n → g < before_year n → ∃ y, 0 ≤ y ∧ before_year y ≤ g < before_year (y + 1)) as H.
  { apply (natlike_ind (λ n, g < before_year n → ∃ y, 0 ≤ y ∧ before_year y ≤ g < before_year (y + 1))).
    - change (before_year 0) with 0. lia.
    - intros n Hn IH Hlt. destruct (decide (g < before_year n)); [by apply IH|]. exists n. unfold Z.succ in *. lia. }
  apply (H (g + 1)); [lia|]. unfold before_year. Z.div_mod_to_equations. lia.
Qed.

(** The month and the day in a year that starts with March. *)
Lemma month_of_days m d : 0 ≤ m < 12 → 1 ≤ d ≤ 31 → d ≤ before_month (m + 1) - before_month m ∨ m = 11 ∧ d ≤ 29 →
  Z.quot (100 * (before_month m + d - 1) + 52) 3060 = m.
Proof.
  intros Hm Hd Hl. assert (0 ≤ before_month m) by (unfold before_month; Z.div_mod_to_equations; lia).
  rewrite Z.quot_div_nonneg by lia. unfold before_month in *.
  assert (m = 0 ∨ m = 1 ∨ m = 2 ∨ m = 3 ∨ m = 4 ∨ m = 5 ∨ m = 6 ∨ m = 7 ∨ m = 8 ∨ m = 9 ∨ m = 10 ∨ m = 11) as Hc by lia.
  repeat destruct Hc as [->|Hc]; [..|subst m]; cbn in Hl; Z.div_mod_to_equations; lia.
Qed.

Lemma date_of_days_getDays y m d : cal_date y m d → 0 ≤ getDays y m d ∧
  date_of_days (getDays y m d) (Z.quot (10000 * getDays y m d + 14780) 3652425) = (y, m, d).
Proof.
  intros [[Hm Hd] Hy].
  assert (0 ≤ month_no y m) as Hk by (unfold month_no; lia).
  assert (∃ Y mp, month_no y m = 12 * Y + mp ∧ 0 ≤ Y ∧ 0 ≤ mp < 12 ∧ m = Z.rem (mp + 2) 12 + 1 ∧ y = Y + Z.quot (mp + 2) 12 + 1900)
    as (Y & mp & E & HY & Hmp & Em & Ey).
  { unfold month_no in *. destruct (decide (3 ≤ m)).
    - exists (y - 1900), (m - 3). rewrite Z.rem_mod_nonneg, Z.quot_div_nonneg by lia. Z.div_mod_to_equations; lia.
    - exists (y - 1901), (m + 9). rewrite Z.rem_mod_nonneg, Z.quot_div_nonneg by lia. Z.div_mod_to_equations; lia. }
  pose proof (month_len_calendar y m Hm Hk) as Hl. unfold month_len in Hl. rewrite E, <- Z.add_assoc in Hl.
  rewrite getDays_first, E by done. rewrite (first_day_at Y mp) in Hl |- * by lia.
  assert (d ≤ 31) by (revert Hd; unfold days_in_month; repeat case_match; lia).
  assert (0 ≤ before_year Y) by (unfold before_year; Z.div_mod_to_equations; lia).
  assert (0 ≤ before_month mp ≤ 337 ∧ (mp < 11 → before_month mp ≤ 306) ∧ before_month 0 = 0 ∧ (mp = 11 → before_month mp = 337)) as (Hb1 & Hb2 & Hb0 & Hb3)
    by (unfold before_month; split_and!; try done; Z.div_mod_to_equations; lia).
  assert (before_year Y ≤ before_year Y + before_month mp + d - 1 < before_year (Y + 1) ∧
          (d ≤ before_month (mp + 1) - before_month mp ∨ mp = 11 ∧ d ≤ 29)) as [Hrange Hlen].
  { pose proof (before_year_step Y HY) as Hs. destruct (decide (mp = 11)) as [->|].
    - replace (12 * Y + (11 + 1)) with (12 * (Y + 1) + 0) in Hl by lia. rewrite first_day_at in Hl by lia.
      specialize (Hb3 eq_refl). destruct (is_leap (Y + 1)); lia.
    - rewrite first_day_at in Hl by lia. specialize (Hb2 ltac:(lia)). destruct (is_leap (Y + 1)); lia. }
  split; [lia|]. unfold date_of_days. rewrite (year_of_days_spec Y) by lia.
  replace (before_year Y + before_month mp + d - 1 - before_year Y) with (before_month mp + d - 1) by lia.
  rewrite month_of_days by lia. rewrite <- Em, <- Ey. do 2 f_equal.
  unfold before_month. rewrite Z.quot_div_nonneg by lia. lia.
Qed.

Lemma getDays_onto g : 0 ≤ g → ∃ y m d, cal_date y m d ∧ getDays y m d = g.
Proof.
  intros Hg. assert (∃ k, 0 ≤ k ∧ first_day k ≤ g < first_day (k + 1)) as (k & Hk & Hr).
  { assert (∀ n, 0 ≤ n → g < first_day n → ∃ k, 0 ≤ k ∧ first_day k ≤ g < first_day (k + 1)) as H.
    { apply (natlike_ind (λ n, g < first_day n → ∃ k, 0 ≤ k ∧ first_day k ≤ g < first_day (k + 1))).
      - change (first_day 0) with 0. lia.
      - intros n Hn IH Hlt. destruct (decide (g < first_day n)); [by apply IH|]. exists n. unfold Z.succ in *. lia. }
    apply (H (12 * (g + 1) + 0)); [lia|]. rewrite first_day_at by lia. unfold before_year. change (before_month 0) with 0.
    Z.div_mod_to_equations. lia. }
  assert (∃ y m, k = month_no y m ∧ 1 ≤ m ≤ 12) as (y & m & -> & Hm).
  { exists (1900 + (k + 2) / 12), ((k + 2) mod 12 + 1). unfold month_no. Z.div_mod_to_equations. lia. }
  exists y, m, (g - first_day (month_no y m) + 1). pose proof (month_len_calendar y m Hm Hk) as Hl. unfold month_len in Hl.
  unfold cal_date, month_days. rewrite getDays_first by done. unfold month_no in *. lia.
Qed.

(** *** Days of the week *)

Lemma year_start_before n : year_start n = before_year (Z.of_nat n).
Proof.
  induction n as [|n IH]; [done|]. cbn [year_start]. rewrite IH. replace (Z.of_nat (S n)) with (Z.of_nat n + 1) by lia.
  by rewrite before_year_step by lia.
Qed.
Lemma prev_year_code_ok y : 1 ≤ y ≤ 5000000 → prev_year_code y = Ret (before_year (y - 1) mod 7).
Proof.
  intros Hy. unfold prev_year_code.
  assert (0 ≤ before_year (y - 1)) by (unfold before_year; Z.div_mod_to_equations; lia).
  repeat (rewrite checked_int_Ret, bind_Ret_l by (Z.div_mod_to_equations; lia); cbv beta; rewrite ?Z.quot_div_nonneg by lia).
  f_equal. unfold before_year in *. rewrite (Z.mul_comm (y - 1)). by rewrite Z.rem_mod_nonneg by lia.
Qed.
Lemma months_before_offset lp m : 1 ≤ m ≤ 12 →
  months_before lp m = populateDay_offset m + (if lp && (2 <? m) then 1 else 0).
Proof. intros Hm. month_cases Hm; destruct lp; reflexivity. Qed.
Lemma word_days i : 0 ≤ i < 7 → ∃ w, word day_words i = Some w ∧ slen w > 3.
Proof.
  intros. assert (i = 0 ∨ i = 1 ∨ i = 2 ∨ i = 3 ∨ i = 4 ∨ i = 5 ∨ i = 6) as Hc by lia.
  repeat destruct Hc as [->|Hc]; [..|subst i]; eexists; (split; [reflexivity|done]).
Qed.

(** The fields [populateDay] sets for the day [w] of the week. *)
Definition with_weekday (w : Z) (d : Date) : Date :=
  set_weekday (dayInWords w false) (dayInWords w true) (if w =? 0 then 7 else w)
    (if 12 <=? hours d then str "PM" else hourdesignation d) (if 12 <=? hours d then hours d - 12 else 0) d.

Lemma populateDay_ok d : 1 ≤ year d ≤ 5000000 → 1 ≤ month d ≤ 12 → 1 ≤ day d ≤ 31 →
  populateDay d = Ret (with_weekday (day_number (year d) (month d) (day d) mod 7) d).
Proof.
  intros Hy Hm Hd. unfold populateDay. rewrite prev_year_code_ok, bind_Ret_l by done.
  pose proof (Z.mod_pos_bound (before_year (year d - 1)) 7 ltac:(lia)).
  assert (0 ≤ populateDay_offset (month d) ≤ 334) by (unfold populateDay_offset; repeat case_match; lia).
  repeat (rewrite checked_int_Ret, bind_Ret_l by (try case_match; lia); cbv beta).
  set (dd := Z.rem _ 7).
  assert (dd = day_number (year d) (month d) (day d) mod 7) as <-.
  { unfold dd, day_number. rewrite year_start_before, Z2Nat.id by lia. rewrite months_before_offset by done.
    rewrite Z.rem_mod_nonneg by (try case_match; lia). destruct (is_leap (year d) && (2 <? month d)); Z.div_mod_to_equations; lia. }
  assert (0 ≤ dd < 7) as Hdd by (unfold dd; rewrite Z.rem_mod_nonneg by (try case_match; lia); apply Z.mod_pos_bound; lia).
  clearbody dd. destruct (word_days dd Hdd) as (w & Ew & Hw). rewrite Ew. unfold with_weekday, dayInWords, in_words. rewrite Ew.
  replace (3 <? slen w) with true by lia. by case_match.
Qed.

Lemma checked_long_Ret x : - 2 ^ 63 ≤ x < 2 ^ 63 → checked_long x = Ret x.
Proof. intros. unfold checked_long. by replace (_ && _) with true by lia. Qed.
Lemma month_days_bounds lp m d : month_days lp m d → 1 ≤ m ≤ 12 ∧ 1 ≤ d ≤ 31.
Proof. intros [? [? H]]. revert H. unfold days_in_month. repeat case_match; lia. Qed.

Lemma getDays_bound y m d : cal_date y m d → y ≤ 5000000 → 0 ≤ getDays y m d ≤ 2000000000.
Proof.
  intros Hc Hy. split; [apply (proj1 (date_of_days_getDays y m d Hc))|]. destruct Hc as [Hmd Hy'].
  apply month_days_bounds in Hmd as [Hm Hd]. unfold getDays. rewrite Z.rem_mod_nonneg by lia.
  assert (0 ≤ (m + 9) mod 12 < 12) by (apply Z.mod_pos_bound; lia). set (mp := (m + 9) mod 12) in *. clearbody mp.
  rewrite (Z.quot_div_nonneg mp) by lia. assert (0 ≤ mp / 10 ≤ 1) by (Z.div_mod_to_equations; lia).
  assert (-1 ≤ y - 1900 - mp / 10 ≤ 5000000) as HY by lia. generalize dependent (y - 1900 - mp / 10). intros Y HY.
  rewrite (Z.quot_div_nonneg (mp * 306 + 5)) by lia.
  assert (Z.quot Y 4 ≤ 5000000 ∧ - Z.quot Y 100 ≤ 1 ∧ Z.quot Y 400 ≤ 5000000); [|Z.div_mod_to_equations; lia].
  destruct (decide (Y = -1)) as [->|]; [done|]. rewrite !Z.quot_div_nonneg by lia. Z.div_mod_to_equations; lia.
Qed.

(** What [getDateFromDays] makes of the number of a day: the clock's date with the day. *)
Lemma getDateFromDays_ok c1 c2 y m d : cal_date y m d → y ≤ 5000000 →
  getDateFromDays c1 c2 (getDays y m d) =
  Ret (populateEpochAndTimeZone c2 false (with_weekday (day_number y m d mod 7) (set_day d m y (Date_now c1 false)))).
Proof.
  intros Hc Hy. pose proof (getDays_bound y m d Hc Hy). unfold getDateFromDays, getDateFromDaysInternal.
  rewrite checked_long_Ret, bind_Ret_l by lia. rewrite (proj2 (date_of_days_getDays y m d Hc)).
  destruct Hc as [Hmd Hy']. apply month_days_bounds in Hmd as [Hm Hd]. rewrite !wraps_small by lia.
  rewrite bind_Ret_l, populateDay_ok by (cbn; lia). done.
Qed.

(** A reading of the clock. *)
Definition sample_clock : Clock :=
  let t := {| tm_sec := 56; tm_min := 34; tm_hour := 12; tm_mday := 5; tm_mon := 0; tm_year := 124; tm_wday := 5; tm_yday := 4;
              tm_isdst := 0; tm_gmtoff := 19800; tm_zone := Some (str "IST") |} in
  {| tv_sec := 1704438296; tv_nsec := 0; localtime := t; gmtime := t |}.
(** A date with given fields; the others are those of the clock. *)
Definition sample_date (y m d hh mi ss : Z) : Date := set_clock_time hh mi ss 0 (set_day d m y (Date_now sample_clock false)).

(** ** Theorems *)

Lemma fromNumber_small_months :
  forallb (λ m, bool_decide (
      (if m =? 2 then true else bool_decide (sfind (str "," ++ fromNumber m ++ str ",") (str ",1,3,5,7,8,10,12,") ≠ None)
        || bool_decide (sfind (str "," ++ fromNumber m ++ str ",") (str ",4,6,9,11,") ≠ None)) = true ∧
      (m = 2 ∨ bool_decide (sfind (str "," ++ fromNumber m ++ str ",") (str ",1,3,5,7,8,10,12,") ≠ None) = negb (bool_decide (m ∈ [4; 6; 9; 11])))))
    (seqZ 1 12) = true.
Proof. vm_compute. reflexivity. Qed.

(** [validateDate] is the Gregorian calendar, for the years from 0. *)
Theorem validate_is_calendar dd mm yyyy :
  validateDate dd mm yyyy = bool_decide (0 ≤ yyyy ∧ month_days (is_leap yyyy) mm dd).
Proof.
  apply eq_true_iff_eq. rewrite bool_decide_eq_true. unfold validateDate, month_days.
  destruct (decide (1 ≤ mm ≤ 12)) as [Hm|Hm].
  - pose proof (forall_range _ 1 12 fromNumber_small_months mm ltac:(lia)) as [H1 H2]%bool_decide_eq_true_1.
    replace ((mm <? 1) || (12 <? mm)) with false by lia. unfold days_in_month.
    destruct (mm =? 2) eqn:E2.
    + assert (mm = 2) as -> by lia. destruct (is_leap yyyy); repeat case_match; split; intros; try done; lia.
    + destruct H2 as [?|H2]; [lia|]. rewrite H2 in *. destruct (bool_decide (mm ∈ _)) eqn:Em; cbn [negb orb] in *.
      * rewrite H1. repeat case_match; split; intros; try done; lia.
      * repeat case_match; split; intros; try done; lia.
  - replace ((mm <? 1) || (12 <? mm)) with true by lia. split; [|lia].
    intros H. exfalso. revert H. repeat case_match; try done.
Qed.

(** The leap years of [getDays] are the Gregorian ones but for the years 0 and 300 of every
    four hundred: 2000 has no 29 February there, and 2300 has one. *)
Lemma leap_years y : 1900 ≤ y → cal_leap y = if decide (y mod 400 ∈ [0; 300]) then negb (is_leap y) else is_leap y.
Proof.
  intros Hy. unfold cal_leap. rewrite !is_leap_spec by lia. case_decide as Hd; rewrite !elem_of_cons, elem_of_nil in Hd.
  - destruct (Z.eqb_spec ((y - 1900) mod 4) 0), (Z.eqb_spec ((y - 1900) mod 100) 0), (Z.eqb_spec ((y - 1900) mod 400) 0),
      (Z.eqb_spec (y mod 4) 0), (Z.eqb_spec (y mod 100) 0), (Z.eqb_spec (y mod 400) 0); try done; exfalso; Z.div_mod_to_equations; lia.
  - destruct (Z.eqb_spec ((y - 1900) mod 4) 0), (Z.eqb_spec ((y - 1900) mod 100) 0), (Z.eqb_spec ((y - 1900) mod 400) 0),
      (Z.eqb_spec (y mod 4) 0), (Z.eqb_spec (y mod 100) 0), (Z.eqb_spec (y mod 400) 0); try done; exfalso; Z.div_mod_to_equations; lia.
Qed.

Definition date_is (n : Date) (y m d : Z) : Prop := year n = y ∧ month n = m ∧ day n = d.

(** The date of a number. *)
Lemma day_exists g : 0 ≤ g ≤ 1800000000 → ∃ y m d, cal_date y m d ∧ y ≤ 5000000 ∧ getDays y m d = g.
Proof.
  intros Hg. destruct (getDays_onto g) as (y & m & d & Hc & <-); [lia|]. exists y, m, d. split_and!; [done| |done].
  destruct Hc as [Hmd Hy]. apply month_days_bounds in Hmd as [Hm Hd].
  rewrite getDays_first in Hg by (unfold month_no; lia).
  assert (0 ≤ 12 * (y - 1901) + 0 ≤ month_no y m ∨ y = 1900) as [Hk| ->] by (unfold month_no; lia); [|lia].
  destruct (decide (12 * (y - 1901) + 0 = month_no y m)) as [E|].
  - rewrite <- E, first_day_at in Hg by lia. unfold before_year in Hg. change (before_month 0) with 0 in Hg. Z.div_mod_to_equations. lia.
  - pose proof (first_day_mono (12 * (y - 1901) + 0) (month_no y m) ltac:(lia)) as Hf.
    pose proof (month_len_bounds (12 * (y - 1901) + 0) ltac:(lia)). rewrite first_day_at in Hf by lia.
    unfold before_year in Hf. change (before_month 0) with 0 in Hf. Z.div_mod_to_equations. lia.
Qed.

Lemma is_leap_century y : 0 ≤ y → (y mod 400 = 0 → is_leap y = true) ∧ (y mod 400 = 300 → is_leap y = false).
Proof.
  intros Hy. rewrite is_leap_spec by done.
  destruct (Z.eqb_spec (y mod 4) 0), (Z.eqb_spec (y mod 100) 0), (Z.eqb_spec (y mod 400) 0); split; intros; try done; exfalso; Z.div_mod_to_equations; lia.
Qed.

(** 29 February of 2000 and of every 400 years, which [getDays] does not have, is 1 March there. *)
Lemma getDays_century_leap y : 1900 ≤ y → y mod 400 = 0 → getDays y 2 29 = getDays y 3 1.
Proof.
  intros Hy He. pose proof (leap_years y Hy) as Hl. rewrite decide_True in Hl by (rewrite He; set_solver).
  rewrite !getDays_first by (unfold month_no; Z.div_mod_to_equations; lia). unfold month_no in *.
  assert (1 ≤ y - 1900) by (Z.div_mod_to_equations; lia).
  pose proof (month_len_calendar y 2 ltac:(lia) ltac:(unfold month_no; lia)) as Hlen. unfold month_len, month_no in Hlen.
  replace (12 * (y - 1900) + 2 - 3 + 1) with (12 * (y - 1900) + 3 - 3) in Hlen by lia. rewrite Hl in Hlen.
  rewrite (proj1 (is_leap_century y ltac:(lia)) He) in Hlen. cbn in Hlen. lia.
Qed.

(** The two calendars: a date that [validateDate] accepts is one of [getDays] but for these days,
    and the other way round but for 29 February of the years 300 of every four hundred. *)
Lemma calendars y m d : 1900 < y ∨ y = 1900 ∧ 3 ≤ m → ¬ (m = 2 ∧ d = 29 ∧ y mod 400 ∈ [0; 300]) →
  validateDate d m y = true ↔ cal_date y m d.
Proof.
  intros Hy Hex. rewrite validate_is_calendar, bool_decide_eq_true. unfold cal_date, month_days.
  pose proof (leap_years y ltac:(lia)) as Hl. destruct (decide (m = 2)) as [->|Hm].
  - rewrite Hl. case_decide as Hin; [|split; [intros (? & ? & ?)|intros ((? & ?) & ?)]; split_and!; lia || done].
    assert (d ≠ 29) by tauto. unfold days_in_month. cbn. destruct (is_leap y); cbn; lia.
  - unfold days_in_month. replace (m =? 2) with false by lia. case_match; lia.
Qed.

(** C25: Days and dates are two views of the same thing, but not of the calendar [validateDate]
    checks: [getDays] has its leap years 1900 years off. From 1 March 1900 to the year 5000000,
    a date that [validateDate] accepts comes back from its number, unless it is 29 February of
    2000, 2400 and so on, which comes back as 1 March; and every number up to 1800000000 comes
    back from its date, which [validateDate] accepts unless it is 29 February of 2300, 2700 and
    so on, a day that does not exist. *)
Theorem date_days_roundtrip c1 c2 :
  (∀ y m d, validateDate d m y = true → 1900 < y ∨ y = 1900 ∧ 3 ≤ m → y ≤ 5000000 →
     ∃ n, getDateFromDays c1 c2 (getDays y m d) = Ret n ∧
       if decide (y mod 400 = 0 ∧ m = 2 ∧ d = 29) then date_is n y 3 1 else date_is n y m d) ∧
  (∀ g, 0 ≤ g ≤ 1800000000 →
     ∃ n, getDateFromDays c1 c2 g = Ret n ∧ getDays (year n) (month n) (day n) = g ∧
       validateDate (day n) (month n) (year n) = negb (bool_decide (year n mod 400 = 300 ∧ month n = 2 ∧ day n = 29))).
Proof.
  split.
  - intros y m d Hv Hy Hb. case_decide as Hex.
    + destruct Hex as (He & -> & ->). rewrite getDays_century_leap by lia. rewrite getDateFromDays_ok; [by eexists| |done].
      unfold cal_date, month_days. change (days_in_month _ 3) with 31. lia.
    + rewrite getDateFromDays_ok; [by eexists| |done].
      destruct (decide (m = 2 ∧ d = 29 ∧ y mod 400 = 300)) as [(-> & -> & H3)|Hn].
      * exfalso. rewrite validate_is_calendar, bool_decide_eq_true in Hv. destruct Hv as (_ & _ & Hv).
        rewrite (proj2 (is_leap_century y ltac:(lia)) H3) in Hv. cbn in Hv. lia.
      * apply (calendars y m d Hy); [|done]. rewrite !elem_of_cons, elem_of_nil. intuition lia.
  - intros g Hg. destruct (day_exists g Hg) as (y & m & d & Hc & Hy & <-).
    rewrite getDateFromDays_ok by done. eexists. split; [done|].
    match goal with |- context [year ?n] => assert (date_is n y m d) as (-> & -> & ->) by done end. split; [done|].
    pose proof Hc as [[Hm Hd] Hy0]. pose proof (leap_years y ltac:(lia)) as Hl.
    case_bool_decide as Hex; cbn [negb].
    + destruct Hex as (He & -> & ->). rewrite validate_is_calendar. apply bool_decide_eq_false. intros (_ & _ & Hv).
      rewrite decide_True in Hl by (rewrite He; set_solver). unfold days_in_month in *. cbn in Hv, Hd. rewrite Hl in Hd. destruct (is_leap y); cbn in *; lia.
    + apply (calendars y m d Hy0); [|done]. rewrite !elem_of_cons, elem_of_nil. intros (-> & -> & [He|[He|[]]]); [|tauto].
      rewrite decide_True in Hl by (rewrite He; set_solver). unfold days_in_month in Hd. cbn in Hd. rewrite Hl in Hd.
      rewrite (proj1 (is_leap_century y ltac:(lia)) He) in Hd. cbn in Hd. lia.
Qed.
Lemma date_days_roundtrip_witness :
  (∃ n, getDateFromDays sample_clock sample_clock (getDays 2024 2 29) = Ret n ∧ date_is n 2024 2 29) ∧
  (∃ n, getDateFromDays sample_clock sample_clock (getDays 2000 2 29) = Ret n ∧ date_is n 2000 3 1) ∧
  (∃ n, getDateFromDays sample_clock sample_clock 45000 = Ret n ∧ getDays (year n) (month n) (day n) = 45000).
Proof.
  destruct (date_days_roundtrip sample_clock sample_clock) as [H1 H2]. split_and!.
  - exact (H1 2024 2 29 eq_refl (or_introl eq_refl) ltac:(lia)).
  - exact (H1 2000 2 29 eq_refl (or_introl eq_refl) ltac:(lia)).
  - destruct (H2 45000) as (n & Hn & Hg & _); [lia|]. by exists n.
Defined.

(** The day of the week and the names a date gets. *)
Definition named (n : Date) (w : Z) : Prop :=
  dayName n = dayInWords w false ∧ dayAbbr n = dayInWords w true ∧ weekday n = (if w =? 0 then 7 else w) ∧
  monthName n = monthInWords (month n - 1) false ∧ monthAbbr n = monthInWords (month n - 1) true.

Lemma populateMonth_names d : 1 ≤ month d ≤ 12 →
  populateMonth d = set_month_names (monthInWords (month d - 1) false) (monthInWords (month d - 1) true) d.
Proof. intros Hm. unfold populateMonth. destruct d as [? mo]. cbn in Hm |- *. month_cases Hm; reflexivity. Qed.

Lemma Date_of_days_ok c1 c2 c3 y m d : cal_date y m d → y ≤ 5000000 →
  ∃ n, Date_of_days c1 c2 c3 (getDays y m d) = Ret n ∧ date_is n y m d ∧ named n (day_number y m d mod 7).
Proof.
  intros Hc Hy. unfold Date_of_days. rewrite getDateFromDays_ok, bind_Ret_l by done.
  destruct Hc as [Hmd Hy']. apply month_days_bounds in Hmd as [Hm Hd].
  rewrite populateDay_ok, bind_Ret_l by (cbn; lia). rewrite populateMonth_names by (cbn; lia). eexists. split; [done|]. done.
Qed.

(** A date from a year, a month and a day, from 1 March 1900 on: what is not in the Gregorian
    calendar is refused; the rest becomes a date with that day, its day of the week in the
    Gregorian calendar and its names.  29 February of 2000, 2400 and so on is the exception:
    it becomes 1 March. *)
Theorem date_constructor c1 c2 c3 yyyy mm dd :
  (1900 < yyyy ∨ yyyy = 1900 ∧ 3 ≤ mm) → yyyy ≤ 5000000 →
  if decide (month_days (is_leap yyyy) mm dd) then
    ∃ n, Date_ymd c1 c2 c3 yyyy mm dd = Ret n ∧
      let '(m, d) := if decide (yyyy mod 400 = 0 ∧ mm = 2 ∧ dd = 29) then (3, 1) else (mm, dd) in
      date_is n yyyy m d ∧ named n (day_number yyyy m d mod 7)
  else Date_ymd c1 c2 c3 yyyy mm dd = Throw Runtime_error.
Proof.
  intros Hy Hb. unfold Date_ymd. rewrite validate_is_calendar. case_decide as Hmd.
  2:{ by rewrite bool_decide_false by tauto. }
  rewrite bool_decide_true by (split; [lia|done]). cbn [negb].
  pose proof (leap_years yyyy ltac:(lia)) as Hl. destruct (decide (yyyy mod 400 = 0 ∧ mm = 2 ∧ dd = 29)) as [Hex|Hex].
  - destruct Hex as (He & -> & ->). rewrite decide_True in Hl by (rewrite He; set_solver).
    rewrite getDays_century_leap by lia.
    apply Date_of_days_ok; [|done]. unfold cal_date, month_days. change (days_in_month _ 3) with 31. lia.
  - apply Date_of_days_ok; [|done]. split; [|done]. destruct Hmd as [Hm Hd]. split; [done|].
    destruct (decide (mm = 2)) as [->|]; [|revert Hd; unfold days_in_month; by replace (mm =? 2) with false by lia].
    rewrite Hl. case_decide as Hin; [|done]. rewrite !elem_of_cons, elem_of_nil in Hin. unfold days_in_month in *. cbn in *.
    destruct (is_leap yyyy) eqn:E; cbn in *; [|lia].
    rewrite is_leap_spec in E by lia. assert (yyyy mod 400 = 0 ∨ yyyy mod 400 = 300) as [H0|H0] by tauto; [lia|].
    exfalso. Z.div_mod_to_equations. lia.
Qed.
Lemma date_constructor_witness :
  ∃ n, Date_ymd sample_clock sample_clock sample_clock 2000 2 29 = Ret n ∧ date_is n 2000 3 1 ∧ named n 3.
Proof.
  exact (date_constructor sample_clock sample_clock sample_clock 2000 2 29 (or_introl eq_refl) ltac:(lia)).
Defined.

(** [getDayName] has the days before a month wrong: it gives the day of the week in January,
    February and November, and another day in the other months. *)
Theorem getDayName_right dd mm yyyy : 1 ≤ yyyy ≤ 5000000 → month_days (is_leap yyyy) mm dd →
  ∃ w, getDayName dd mm yyyy = Ret (dayInWords w false) ∧ 0 ≤ w < 7 ∧
       (w = day_number yyyy mm dd mod 7 ↔ mm ∈ [1; 2; 11]).
Proof.
  intros Hy Hmd. unfold getDayName. rewrite validate_is_calendar, bool_decide_true by (split; [lia|done]). cbn [negb].
  rewrite prev_year_code_ok, bind_Ret_l by done. apply month_days_bounds in Hmd as [Hm Hd].
  pose proof (Z.mod_pos_bound (before_year (yyyy - 1)) 7 ltac:(lia)).
  assert (0 ≤ getDayName_offset mm) by (unfold getDayName_offset; repeat case_match; lia).
  eexists. split; [done|]. unfold day_number. rewrite year_start_before, Z2Nat.id, months_before_offset by lia.
  rewrite Z.rem_mod_nonneg by (try case_match; lia). split; [apply Z.mod_pos_bound; lia|].
  rewrite !elem_of_cons, elem_of_nil. set (B := before_year (yyyy - 1)) in *. clearbody B.
  month_cases Hm; destruct (is_leap yyyy); cbn [getDayName_offset populateDay_offset Z.eqb Z.ltb Z.compare Pos.compare Pos.compare_cont Pos.eqb andb];
    (split; [intros E|intros Hin]; [|]); try (Z.div_mod_to_equations; lia); exfalso; Z.div_mod_to_equations; lia.
Qed.

(** *** Order *)

(** The moment of a date as the calendar orders it. *)
Definition moment (d : Date) : list Z := [year d; month d; day d; hours d; minutes d; seconds d].
Fixpoint lex (a b : list Z) : comparison :=
  match a, b with
  | x :: a, y :: b => match Z.compare x y with Eq => lex a b | c => c end
  | [], [] => Eq
  | [], _ => Lt
  | _, [] => Gt
  end.
Definition clock_ok (d : Date) : Prop := 0 ≤ hours d < 24 ∧ 0 ≤ minutes d < 60 ∧ 0 ≤ seconds d < 60.
Definition date_ok (d : Date) : Prop := cal_date (year d) (month d) (day d) ∧ year d ≤ 5000000 ∧ clock_ok d.
#[export] Instance date_ok_dec d : Decision (date_ok d).
Proof. unfold date_ok, clock_ok. apply _. Defined.

Lemma getDays_later y m d y' m' d' : cal_date y m d → cal_date y' m' d' →
  y < y' ∨ y = y' ∧ (m < m' ∨ m = m' ∧ d < d') → getDays y m d < getDays y' m' d'.
Proof.
  intros [[Hm Hd] Hy] [[Hm' Hd'] Hy'] Hlt. rewrite !getDays_first by (unfold month_no; lia).
  destruct (decide (month_no y m = month_no y' m')) as [E|].
  - rewrite E. unfold month_no in E. lia.
  - pose proof (first_day_mono (month_no y m) (month_no y' m') ltac:(unfold month_no in *; lia)) as Hf.
    rewrite month_len_calendar in Hf by (unfold month_no; lia). lia.
Qed.
Lemma getDays_compare y m d y' m' d' : cal_date y m d → cal_date y' m' d' →
  Z.compare (getDays y m d) (getDays y' m' d') = lex [y; m; d] [y'; m'; d'].
Proof.
  intros H H'. cbn [lex].
  destruct (Z.compare_spec y y'); [|apply Z.compare_lt_iff, getDays_later; auto; lia|apply Z.compare_gt_iff, getDays_later; auto; lia].
  destruct (Z.compare_spec m m'); [|apply Z.compare_lt_iff, getDays_later; auto; lia|apply Z.compare_gt_iff, getDays_later; auto; lia].
  destruct (Z.compare_spec d d'); [|apply Z.compare_lt_iff, getDays_later; auto; lia|apply Z.compare_gt_iff, getDays_later; auto; lia].
  subst. apply Z.compare_refl.
Qed.

Lemma scale_compare n a b r s : 0 ≤ r < n → 0 ≤ s < n →
  Z.compare (a * n + r) (b * n + s) = match Z.compare a b with Eq => Z.compare r s | c => c end.
Proof.
  intros. destruct (Z.compare_spec a b) as [->| |].
  - destruct (Z.compare_spec r s); [subst; apply Z.compare_refl|apply Z.compare_lt_iff; lia|apply Z.compare_gt_iff; lia].
  - apply Z.compare_lt_iff. nia.
  - apply Z.compare_gt_iff. nia.
Qed.

(** The seconds of a date in the calendar. *)
Definition moment_secs (d : Date) : Z := ((getDays (year d) (month d) (day d) * 24 + hours d) * 60 + minutes d) * 60 + seconds d.

Lemma field_seconds_clock d : clock_ok d → field_seconds d = wrapu 64 (moment_secs d).
Proof.
  intros (Hh & Hm & Hs). unfold field_seconds, getSecondsI, getMinutesI, getHoursI, moment_secs. cbv zeta.
  rewrite !Z.quot_small, (Z.rem_small (hours d)), (Z.rem_small (minutes d)), (Z.rem_small (seconds d)) by lia.
  change (wraps 32 0) with 0. by rewrite !Z.add_0_r.
Qed.
Lemma moment_secs_bound d : date_ok d → 0 ≤ moment_secs d < 2 ^ 62.
Proof. intros (Hc & Hy & Hh & Hm & Hs). pose proof (getDays_bound _ _ _ Hc Hy). unfold moment_secs. lia. Qed.
Lemma field_seconds_moment d : date_ok d → field_seconds d = moment_secs d.
Proof.
  intros Hok. pose proof (moment_secs_bound d Hok). destruct Hok as (_ & _ & Hk). rewrite field_seconds_clock by done.
  apply wrapu_small. lia.
Qed.
Lemma field_seconds_ok d : date_ok d → compare_key d = moment_secs d.
Proof.
  intros Hok. pose proof (moment_secs_bound d Hok). unfold compare_key. rewrite field_seconds_moment by done. apply Z.rem_small. lia.
Qed.
Lemma compare_key_chrono d1 d2 : date_ok d1 → date_ok d2 → Z.compare (compare_key d1) (compare_key d2) = lex (moment d1) (moment d2).
Proof.
  intros H1 H2. rewrite !field_seconds_ok by done. unfold moment_secs.
  destruct H1 as (Hc1 & _ & ? & ? & ?), H2 as (Hc2 & _ & ? & ? & ?).
  rewrite !scale_compare, getDays_compare by done || lia. unfold moment. cbn [lex].
  repeat (case_match; try done).
Qed.

(** The six comparisons are the order of the calendar, from 1 March 1900 on. *)
Theorem comparisons_chronological d1 d2 : date_ok d1 → date_ok d2 →
  let c := lex (moment d1) (moment d2) in
  date_lt d1 d2 = bool_decide (c = Lt) ∧ date_gt d1 d2 = bool_decide (c = Gt) ∧
  date_eq d1 d2 = bool_decide (c = Eq) ∧ date_ne d1 d2 = bool_decide (c ≠ Eq) ∧
  date_le d1 d2 = bool_decide (c ≠ Gt) ∧ date_ge d1 d2 = bool_decide (c ≠ Lt).
Proof.
  intros H1 H2. cbv zeta. rewrite <- compare_key_chrono by done.
  unfold date_lt, date_gt, date_eq, date_ne, date_le, date_ge, compare.
  destruct (Z.compare_spec (compare_key d1) (compare_key d2)) as [E|E|E]; split_and!;
    match goal with |- ?b = bool_decide _ => destruct b eqn:? end; symmetry;
    first [apply bool_decide_eq_true_2; done | apply bool_decide_eq_false_2; intros ?; done | lia ].
Qed.

Lemma comparisons_chronological_witness :
  date_lt (sample_date 2024 2 29 23 59 59) (sample_date 2024 3 1 0 0 0) = true ∧
  date_ge (sample_date 2024 2 29 23 59 59) (sample_date 2024 3 1 0 0 0) = false.
Proof.
  refine (let H := comparisons_chronological (sample_date 2024 2 29 23 59 59) (sample_date 2024 3 1 0 0 0) _ _ in
          conj (proj1 H) (proj2 (proj2 (proj2 (proj2 (proj2 H)))))); apply (bool_decide_unpack _); vm_compute; exact I.
Defined.

(** Dates before March 1900 count as later than all others: their negative seconds are taken
    for unsigned ones. *)
Theorem before_1900_is_later old d :
  -2000000000 ≤ getDays (year old) (month old) (day old) ≤ -2 → clock_ok old → date_ok d →
  date_gt old d = true ∧ date_lt d old = true.
Proof.
  intros Hg Hcl Hd. pose proof (moment_secs_bound d Hd) as Hb. rewrite <- field_seconds_ok in Hb by done.
  assert (2 ^ 62 < compare_key old) as Hgt.
  { unfold compare_key. rewrite field_seconds_clock by done. destruct Hcl as (Hh & Hm & Hs).
    assert (-200000000000000 ≤ moment_secs old ≤ -3) as Hr by (unfold moment_secs; lia).
    revert Hr. generalize (moment_secs old). intros s Hr. unfold wrapu.
    assert (s mod 2 ^ 64 = 2 ^ 64 + s) as -> by (rewrite <- (Z_mod_plus_full s 1), Z.mod_small; lia).
    rewrite Z.rem_mod_nonneg by lia.
    assert ((2 ^ 64 + s) mod 9223372036854775807 = 2 ^ 63 + 1 + s) as ->; [|lia].
    rewrite <- (Z_mod_plus_full _ (-1)), Z.mod_small; lia. }
  unfold date_gt, date_lt, compare. lia.
Qed.
Lemma before_1900_is_later_witness : date_gt (sample_date 1899 12 31 0 0 0) (sample_date 2024 1 5 0 0 0) = true ∧ date_lt (sample_date 2024 1 5 0 0 0) (sample_date 1899 12 31 0 0 0) = true.
Proof. apply before_1900_is_later; [vm_compute; split; done|split_and!; vm_compute; done|]. apply (bool_decide_unpack _); vm_compute; exact I. Defined.

(** *** Arithmetic on dates *)

Definition same_clock (d d' : Date) : Prop := hours d' = hours d ∧ minutes d' = minutes d ∧ seconds d' = seconds d.

(** Taking the day of a number keeps the time of the day. *)
Lemma take_day_ok c1 c2 g d : 0 ≤ g ≤ 1800000000 →
  ∃ d', take_day c1 c2 g d = Ret d' ∧ cal_date (year d') (month d') (day d') ∧ year d' ≤ 5000000 ∧
        getDays (year d') (month d') (day d') = g ∧ same_clock d d' ∧ epochTime d' = epochTime d.
Proof.
  intros Hg. destruct (day_exists g Hg) as (y & m & dd & Hc & Hy & <-). unfold take_day.
  rewrite getDateFromDays_ok, bind_Ret_l by done. pose proof Hc as [Hmd Hy']. apply month_days_bounds in Hmd as [Hm Hd].
  rewrite populateDay_ok by (cbn; lia). by eexists.
Qed.

(** The year [updateDays] and [addDaysGet] count from: December counts as the December of the
    year after. *)
Definition counted_year (d : Date) : Z := if month d =? 12 then year d + 1 else year d.
Lemma december y m d n : 1 ≤ m ≤ 12 → getDays (y + Z.quot m 12) (Z.rem m 12) (d + n) = getDays (if m =? 12 then y + 1 else y) m d + n.
Proof.
  intros Hm. destruct (Z.eqb_spec m 12) as [->|].
  - change (Z.quot 12 12) with 1. change (Z.rem 12 12) with 0. unfold getDays. change (Z.rem (0 + 9) 12) with 9. change (Z.rem (12 + 9) 12) with 9. lia.
  - rewrite Z.quot_small, Z.rem_small, Z.add_0_r by lia. unfold getDays. lia.
Qed.

Definition counted_days (d : Date) : Z := getDays (counted_year d) (month d) (day d).

Lemma updateDays_ok c1 c2 n d : 1 ≤ month d ≤ 12 → 0 ≤ counted_days d + n ≤ 1800000000 →
  ∃ d', updateDays c1 c2 n d = Ret d' ∧ cal_date (year d') (month d') (day d') ∧ year d' ≤ 5000000 ∧
        getDays (year d') (month d') (day d') = counted_days d + n ∧ same_clock d d' ∧
        epochTime d' = epochTime d + 86400 * n.
Proof.
  intros Hm Hg. unfold updateDays. rewrite december by done. fold (counted_year d). fold (counted_days d).
  destruct (take_day_ok c1 c2 (counted_days d + n) d Hg) as (d' & -> & Hc & Hy & E & Hs & He).
  rewrite bind_Ret_l. eexists. split; [done|]. cbn. split_and!; try done; try apply Hs. lia.
Qed.

(** Adding days to a date moves it by that many days, except in December: there it moves a
    year and that many days. *)
Theorem days_added c1 c2 n d : date_ok d → 0 ≤ counted_days d + n ≤ 1800000000 →
  ∃ d', updateDays c1 c2 n d = Ret d' ∧ date_ok d' ∧ same_clock d d' ∧
        getDays (year d') (month d') (day d') =
        getDays (if month d =? 12 then year d + 1 else year d) (month d) (day d) + n.
Proof.
  intros (Hc & Hy & Hh & Hmi & Hs) Hg. pose proof Hc as [Hmd _]. apply month_days_bounds in Hmd as [Hm _].
  destruct (updateDays_ok c1 c2 n d Hm Hg) as (d' & -> & Hc' & Hy' & E & (E1 & E2 & E3) & _). exists d'.
  split_and!; try done. unfold date_ok, clock_ok. rewrite E1, E2, E3. done.
Qed.
Lemma days_added_witness :
  ∃ d', updateDays sample_clock sample_clock 1 (sample_date 2023 12 5 0 0 0) = Ret d' ∧ date_ok d' ∧
        same_clock (sample_date 2023 12 5 0 0 0) d' ∧ getDays (year d') (month d') (day d') = getDays 2024 12 5 + 1.
Proof.
  apply (days_added sample_clock sample_clock 1 (sample_date 2023 12 5 0 0 0)); [apply (bool_decide_unpack _); vm_compute; exact I|].
  vm_compute. split; done.
Defined.

Lemma getDays_day y m d : getDays y m d = getDays y m 1 + (d - 1).
Proof. unfold getDays. ring. Qed.

(** Adding months counts the months from January of year 0 and puts the day behind, so that it
    may run into the month after; a December comes out a year late. *)
Theorem months_added c1 c2 n d :
  let k := 12 * year d + (month d - 1) + n in
  let y := k / 12 in let m := k mod 12 + 1 in
  let late := if m =? 12 then 1 else 0 in
  0 < month d + n → 1901 ≤ y ≤ 4000000 → 1 ≤ day d ≤ 31 → 0 ≤ year d →
  ∃ d', updateMonths c1 c2 n d = Ret d' ∧ same_clock d d' ∧
        getDays (year d') (month d') (day d') = getDays (y + late) m 1 + (day d - 1).
Proof.
  cbv zeta. intros Hn Hy Hd Hd0. unfold updateMonths.
  set (k := 12 * year d + (month d - 1) + n) in *.
  assert (getDays (year d + Z.quot (month d + n) 12) (Z.rem (month d + n) 12) (day d) =
          getDays (k / 12 + (if k mod 12 + 1 =? 12 then 1 else 0)) (k mod 12 + 1) 1 + (day d - 1)) as E.
  { rewrite Z.quot_div_nonneg, Z.rem_mod_nonneg by lia.
    assert (k mod 12 = (month d + n - 1) mod 12) as -> by (unfold k; rewrite <- (Z_mod_plus_full (month d + n - 1) (year d)); f_equal; lia).
    assert (k / 12 = year d + (month d + n - 1) / 12) as -> by (unfold k; Z.div_mod_to_equations; lia).
    generalize dependent (month d + n). intros t Ht. destruct (Z.eqb_spec ((t - 1) mod 12 + 1) 12) as [E12|E12].
    - assert (t mod 12 = 0 ∧ t / 12 = (t - 1) / 12 + 1) as [-> ->] by (Z.div_mod_to_equations; lia). rewrite E12.
      unfold getDays. change (Z.rem (0 + 9) 12) with 9. change (Z.rem (12 + 9) 12) with 9. rewrite Z.add_assoc. lia.
    - assert (t mod 12 = (t - 1) mod 12 + 1 ∧ t / 12 = (t - 1) / 12) as [-> ->] by (Z.div_mod_to_equations; lia).
      rewrite Z.add_0_r. apply getDays_day. }
  rewrite E. clear E. set (g := getDays _ _ 1 + _).
  assert (cal_date (k / 12 + (if k mod 12 + 1 =? 12 then 1 else 0)) (k mod 12 + 1) 1) as Hc.
  { pose proof (Z.mod_pos_bound k 12 ltac:(lia)). split; [|left; case_match; lia]. split; [lia|].
    unfold days_in_month. repeat case_match; lia. }
  pose proof (date_of_days_getDays _ _ _ Hc) as [H0 _].
  assert (g ≤ 1800000000) as Hg.
  { unfold g. rewrite getDays_first by (unfold month_no; pose proof (Z.mod_pos_bound k 12 ltac:(lia)); case_match; lia).
    set (mn := month_no _ _). assert (0 ≤ mn ≤ 48000000) as Hmn by (unfold mn, month_no; pose proof (Z.mod_pos_bound k 12 ltac:(lia)); case_match; lia).
    clearbody mn. unfold first_day, before_year, before_month. Z.div_mod_to_equations. lia. }
  destruct (take_day_ok c1 c2 g d) as (d' & -> & _ & _ & E' & Hs & _); [unfold g in *; lia|].
  rewrite bind_Ret_l. eexists. split; [done|]. by cbn.
Qed.

Lemma updateHours_ok c1 c2 n d : date_ok d → month d < 12 → 0 ≤ n → moment_secs d + 3600 * n ≤ 150000000000000 →
  ∃ d', updateHours c1 c2 n d = Ret d' ∧ date_ok d' ∧ moment_secs d' = moment_secs d + 3600 * n ∧
        minutes d' = minutes d ∧ seconds d' = seconds d ∧ hours d' = (hours d + n) mod 24 ∧
        epochTime d' = epochTime d + 3600 * n + 86400 * ((hours d + n) / 24).
Proof.
  intros (Hc & Hy & Hh & Hm & Hs) Hdec Hn Hb. pose proof (getDays_bound _ _ _ Hc Hy). unfold moment_secs in *.
  unfold updateHours. cbv zeta. rewrite (Z.quot_small (minutes d)), (Z.rem_small (minutes d)), Z.add_0_r by lia.
  rewrite Z.quot_div_nonneg, Z.rem_mod_nonneg by lia.
  pose proof (Z.mod_pos_bound (hours d + n) 24 ltac:(lia)). rewrite !wraps_small by lia.
  pose proof Hc as [Hmd _]. apply month_days_bounds in Hmd as [Hmb _].
  assert (counted_days d = getDays (year d) (month d) (day d)) as Ec by (unfold counted_days, counted_year; by replace (month d =? 12) with false by lia).
  destruct (0 <? (hours d + n) / 24) eqn:Ed.
  - destruct (updateDays_ok c1 c2 ((hours d + n) / 24) d) as (d' & -> & Hc' & Hy' & E & (E1 & E2 & E3) & He);
      [lia|rewrite Ec; Z.div_mod_to_equations; lia|].
    rewrite bind_Ret_l. eexists. split; [done|]. unfold date_ok, clock_ok. cbn. rewrite E, E3, He, Ec. split_and!; try done; try lia.
    Z.div_mod_to_equations. lia.
  - rewrite bind_Ret_l. eexists. split; [done|]. unfold date_ok, clock_ok. cbn. split_and!; try done; try lia; Z.div_mod_to_equations; lia.
Qed.

Lemma updateMinutes_ok c1 c2 n d : date_ok d → month d < 12 → 0 ≤ n → moment_secs d + 60 * n ≤ 140000000000000 →
  ∃ d', updateMinutes c1 c2 n d = Ret d' ∧ date_ok d' ∧ moment_secs d' = moment_secs d + 60 * n ∧ seconds d' = seconds d ∧
        (let h := (minutes d + n) / 60 in epochTime d' = epochTime d + 60 * n + 3600 * h + 86400 * ((hours d + h) / 24)).
Proof.
  intros Hok Hdec Hn Hb. pose proof Hok as (Hc & Hy & Hh & Hm & Hs). pose proof (getDays_bound _ _ _ Hc Hy).
  assert (moment_secs d = ((getDays (year d) (month d) (day d) * 24 + hours d) * 60 + minutes d) * 60 + seconds d) as Em by done.
  unfold updateMinutes. cbv zeta. rewrite (Z.quot_small (seconds d)), (Z.rem_small (seconds d)), Z.add_0_r by lia.
  rewrite Z.quot_div_nonneg, Z.rem_mod_nonneg by lia.
  pose proof (Z.mod_pos_bound (minutes d + n) 60 ltac:(lia)). rewrite !wraps_small by lia.
  destruct (0 <? (minutes d + n) / 60) eqn:Ed.
  - destruct (updateHours_ok c1 c2 ((minutes d + n) / 60) d Hok Hdec) as (d' & -> & Hok' & E & E2 & E3 & _ & He);
      [lia|Z.div_mod_to_equations; lia|].
    rewrite bind_Ret_l. eexists. split; [done|]. destruct Hok' as (Hc' & Hy' & Hh' & _).
    assert (moment_secs d' = ((getDays (year d') (month d') (day d') * 24 + hours d') * 60 + minutes d') * 60 + seconds d') as Em' by done.
    unfold date_ok, clock_ok, moment_secs. cbn. rewrite He. split_and!; try done; try lia.
    Z.div_mod_to_equations. lia.
  - rewrite bind_Ret_l. eexists. split; [done|]. unfold date_ok, clock_ok, moment_secs. cbn. split_and!; try done; try lia; Z.div_mod_to_equations; lia.
Qed.

(** Outside December, adding hours and minutes moves a date by exactly that; adding seconds
    moves it by twice as many, and forgets the seconds it had.  [epochTime] counts every hour
    and every day that fills up once more. *)
Theorem time_added c1 c2 n d : date_ok d → month d < 12 → 0 ≤ n → moment_secs d + 3600 * n ≤ 130000000000000 →
  (∃ d', updateHours c1 c2 n d = Ret d' ∧ date_ok d' ∧ moment_secs d' = moment_secs d + 3600 * n ∧
         epochTime d' = epochTime d + 3600 * n + 86400 * ((hours d + n) / 24)) ∧
  (∃ d', updateMinutes c1 c2 n d = Ret d' ∧ date_ok d' ∧ moment_secs d' = moment_secs d + 60 * n) ∧
  (∃ d', updateSeconds c1 c2 n d = Ret d' ∧ date_ok d' ∧ moment_secs d' = moment_secs d - seconds d + 2 * n).
Proof.
  intros Hok Hdec Hn Hb. split_and!.
  - destruct (updateHours_ok c1 c2 n d Hok Hdec Hn ltac:(lia)) as (d' & ? & ? & ? & _ & _ & _ & ?). by exists d'.
  - destruct (updateMinutes_ok c1 c2 n d Hok Hdec Hn ltac:(lia)) as (d' & ? & ? & ? & _). by exists d'.
  - pose proof Hok as (Hc & Hy & Hh & Hm & Hs). unfold updateSeconds. cbv zeta.
    rewrite Z.quot_div_nonneg, Z.rem_mod_nonneg by lia. pose proof (Z.mod_pos_bound (n + n) 60 ltac:(lia)). rewrite !wraps_small by lia.
    destruct (0 <? (n + n) / 60) eqn:Ed.
    + destruct (updateMinutes_ok c1 c2 ((n + n) / 60) d Hok Hdec) as (d' & -> & Hok' & E & E3 & _);
        [lia|Z.div_mod_to_equations; lia|].
      rewrite bind_Ret_l. eexists. split; [done|]. destruct Hok' as (Hc' & Hy' & Hh' & Hm' & _).
      assert (moment_secs d' = ((getDays (year d') (month d') (day d') * 24 + hours d') * 60 + minutes d') * 60 + seconds d') as Em' by done.
      unfold date_ok, clock_ok. split_and!; try done; try (cbn; lia). unfold moment_secs in *. cbn. Z.div_mod_to_equations. lia.
    + rewrite bind_Ret_l. eexists. split; [done|]. unfold date_ok, clock_ok. split_and!; try done; try (cbn; lia).
      unfold moment_secs. cbn. Z.div_mod_to_equations. lia.
Qed.
Lemma time_added_witness :
  let d := sample_date 2024 2 29 23 59 30 in
  ∃ d', updateSeconds sample_clock sample_clock 45 d = Ret d' ∧ date_ok d' ∧ moment_secs d' = moment_secs d - 30 + 90.
Proof.
  refine (proj2 (proj2 (time_added sample_clock sample_clock 45 (sample_date 2024 2 29 23 59 30) _ _ _ _))); [|done..|by vm_compute].
  apply (bool_decide_unpack _); vm_compute; exact I.
Defined.

(** [toGMT] adds the offset of the time zone, which is in minutes, as hours. *)
Theorem toGMT_adds_hours c1 c2 d : date_ok d → month d < 12 → 0 ≤ timeZoneOffset d → moment_secs d + 3600 * timeZoneOffset d ≤ 130000000000000 →
  ∃ d', toGMT c1 c2 d = Ret d' ∧ timeZoneOffset d' = 0 ∧ timeZone d' = str "UTC" ∧
        moment_secs d' = moment_secs d + 3600 * timeZoneOffset d.
Proof.
  intros Hok Hdec Hn Hb. destruct (updateHours_ok c1 c2 (timeZoneOffset d) d Hok Hdec Hn ltac:(lia)) as (d' & E & _ & Em & _).
  unfold toGMT. rewrite E. eexists. split; [done|]. by cbn.
Qed.
Lemma toGMT_adds_hours_witness :
  ∃ d', toGMT sample_clock sample_clock (sample_date 2024 1 5 12 0 0) = Ret d' ∧ timeZoneOffset d' = 0 ∧ timeZone d' = str "UTC" ∧
        moment_secs d' = moment_secs (sample_date 2024 1 5 12 0 0) + 3600 * 330.
Proof.
  apply (toGMT_adds_hours sample_clock sample_clock (sample_date 2024 1 5 12 0 0)); [|done..].
  apply (bool_decide_unpack _); vm_compute; exact I.
Defined.

(** A date taken from the clock has its months from 0, the comparison takes them from 1: every
    moment of January counts as later than the rest of the year. *)
Theorem january_is_last :
  let at_month m := Date_now {| tv_sec := 0; tv_nsec := 0; gmtime := localtime sample_clock;
    localtime := {| tm_sec := 0; tm_min := 0; tm_hour := 0; tm_mday := 5; tm_mon := m; tm_year := 124; tm_wday := 0; tm_yday := 0;
                    tm_isdst := 0; tm_gmtoff := 0; tm_zone := None |} |} false in
  ∀ m, 1 ≤ m ≤ 11 → date_gt (at_month 0) (at_month m) = true.
Proof.
  cbv zeta. intros m Hm. assert (m = 1 ∨ m = 2 ∨ m = 3 ∨ m = 4 ∨ m = 5 ∨ m = 6 ∨ m = 7 ∨ m = 8 ∨ m = 9 ∨ m = 10 ∨ m = 11) as Hc by lia.
  repeat destruct Hc as [->|Hc]; [..|subst m]; vm_compute; reflexivity.
Qed.

(** The seconds of a date lead back to it: they are counted from 1 March 1900, also where a
    caller means those of Unix. *)
Theorem seconds_roundtrip c1 c2 d : date_ok d →
  ∃ n, getDateFromSeconds c1 c2 (field_seconds d) = Ret n ∧ moment n = moment d.
Proof.
  intros Hok. rewrite field_seconds_moment by done. destruct Hok as (Hc & Hy & Hh & Hm & Hs).
  pose proof (getDays_bound _ _ _ Hc Hy) as Hg. unfold moment_secs, getDateFromSeconds, date_at.
  set (g := getDays (year d) (month d) (day d)) in *.
  set (s := ((g * 24 + hours d) * 60 + minutes d) * 60 + seconds d).
  assert (s / 60 = (g * 24 + hours d) * 60 + minutes d ∧ s mod 60 = seconds d) as [E1 E2] by (unfold s; Z.div_mod_to_equations; lia).
  assert (((g * 24 + hours d) * 60 + minutes d) / 60 = g * 24 + hours d ∧ ((g * 24 + hours d) * 60 + minutes d) mod 60 = minutes d) as [E3 E4] by (Z.div_mod_to_equations; lia).
  assert ((g * 24 + hours d) / 24 = g ∧ (g * 24 + hours d) mod 24 = hours d) as [E5 E6] by (Z.div_mod_to_equations; lia).
  assert (0 ≤ s) by (unfold s; lia). cbv zeta.
  rewrite (Z.quot_div_nonneg s), (Z.rem_mod_nonneg s), E1, E2 by lia. rewrite (Z.quot_div_nonneg _ 60), (Z.rem_mod_nonneg _ 60), E3, E4 by lia.
  rewrite (Z.quot_div_nonneg _ 24), (Z.rem_mod_nonneg _ 24), E5, E6 by lia. rewrite !wraps_small by lia.
  unfold getDateFromDaysInternal. rewrite checked_long_Ret, bind_Ret_l by lia.
  unfold g. rewrite (proj2 (date_of_days_getDays _ _ _ Hc)). pose proof Hc as [Hmd Hy']. apply month_days_bounds in Hmd as [Hmb Hdb].
  rewrite !wraps_small by lia. rewrite bind_Ret_l. unfold setTime. replace (_ || (60 <? seconds d)) with false by lia.
  rewrite bind_Ret_l, populateDay_ok by (cbn; lia). eexists. split; [done|]. done.
Qed.
Lemma seconds_roundtrip_witness :
  ∃ n, getDateFromSeconds sample_clock sample_clock (field_seconds (sample_date 2024 2 29 23 59 30)) = Ret n ∧
       moment n = [2024; 2; 29; 23; 59; 30].
Proof. apply (seconds_roundtrip sample_clock sample_clock (sample_date 2024 2 29 23 59 30)). apply (bool_decide_unpack _); vm_compute; exact I. Defined.
Example unix_zero : match getDateFromSeconds sample_clock sample_clock 0 with Ret n => moment n = [1900; 3; 1; 0; 0; 0] | _ => False end.
Proof. vm_compute. reflexivity. Qed.
Lemma months_added_witness :
  ∃ d', updateMonths sample_clock sample_clock 1 (sample_date 2023 11 30 0 0 0) = Ret d' ∧ same_clock (sample_date 2023 11 30 0 0 0) d' ∧
        getDays (year d') (month d') (day d') = getDays (2023 + 1) 12 1 + 29.
Proof. apply (months_added sample_clock sample_clock 1 (sample_date 2023 11 30 0 0 0)); vm_compute; try split; done. Defined.
