(* ===== verification/CronTimer.v ===== *)
(** * CronTimer

    Cron expressions and the jobs that run by them: [jobs/CronTimer.cpp] and the loop of
    [JobScheduler::JobTask::run] of [jobs/JobScheduler.cpp].  The clock is a list of readings,
    one for each turn of the loop; the readings the functions of [Date] take on the way do not
    matter ([take_day_clock]), and the model takes the same one for all of them. *)

From S2P Require Import Prelude StdString StringUtil Dates.

(** ** Expressions *)

Record CronExpressionPart := {
  all : bool; from : Z; to : Z; interval : Z; lst : bytes; lstParts : list Z }.
Definition CronExpressionPart_new : CronExpressionPart :=
  {| all := false; from := -1; to := -1; interval := -1; lst := []; lstParts := [] |}.

Definition starts : list Z := [0; 0; 1; 1; 0; 1970].
Definition ends : list Z := [59; 23; 31; 12; 6; 2099].
Definition months : list (bytes * Z) :=
  [(str "JAN", 1); (str "FEB", 2); (str "MAR", 3); (str "APR", 4); (str "MAY", 5); (str "JUN", 6);
   (str "JUL", 7); (str "AUG", 8); (str "SEP", 9); (str "OCT", 10); (str "NOV", 11); (str "DEC", 12)].
Definition days : list (bytes * Z) :=
  [(str "SUN", 0); (str "MON", 1); (str "TUE", 2); (str "WED", 3); (str "THU", 4); (str "FRI", 5); (str "SAT", 6)].

(** [at] of a vector. *)
Definition vat {A} (l : list A) (i : nat) : outcome A := match l !! i with Some v => Ret v | None => Throw Out_of_range end.

Definition named_value (names : list (bytes * Z)) (s : bytes) : option Z :=
  list_find (λ e, e.1 = toUpper s) names ≫= λ p, Some p.2.2.

(** A value at a position: a number, or the name of a month or a day; [star] is what [*]
    stands for behind a slash.  -1 and [false] when it is none. *)
Definition part_value (position : nat) (star : option Z) (s : bytes) : Z * bool :=
  match toInt s with
  | Ret v => (v, true)
  | _ =>
      match star with
      | Some v => if bool_decide (s = str "*") then (v, true) else
          match (if bool_decide (position = 3%nat) then named_value months s
                 else if bool_decide (position = 4%nat) then named_value days s else None) with
          | Some v => (v, true) | None => (-1, false) end
      | None =>
          match (if bool_decide (position = 3%nat) then named_value months s
                 else if bool_decide (position = 4%nat) then named_value days s else None) with
          | Some v => (v, true) | None => (-1, false) end
      end
  end.
(** The loop over the values of a field, which ends at the first one that [stop] refuses. *)
Fixpoint read_values (position : nat) (star : option Z) (stop : Z → bool) (parts : list bytes) (valid : bool) (vparts : list Z) : list Z * bool :=
  match parts with
  | [] => (vparts, valid)
  | p :: parts =>
      let '(v, ok) := part_value position star p in
      let valid := valid && ok in
      if (v =? -1) || stop v then (vparts, valid) else read_values position star stop parts valid (vparts ++ [v])
  end.

(** What a field does to the loop over the fields. *)
Inductive field_result :=
| Push (p : CronExpressionPart)
| Break (valid : bool).

Definition has (c : Z) (s : bytes) : bool := bool_decide (sfind [c] s ≠ None).
(** Insertion into a sorted list: [push_back] and [sort]. *)
Fixpoint insert_sorted (v : Z) (l : list Z) : list Z :=
  match l with [] => [v] | x :: l => if x <=? v then x :: insert_sorted v l else v :: x :: l end.
Definition push_value (p : CronExpressionPart) (v : Z) : CronExpressionPart :=
  {| all := all p; from := from p; to := to p; interval := interval p;
     lst := lst p ++ str "," ++ fromNumber v ++ str ","; lstParts := insert_sorted v (lstParts p) |}.
Definition with_range (a b i : Z) : CronExpressionPart :=
  {| all := false; from := a; to := b; interval := i; lst := []; lstParts := [] |}.
Definition field (valid : bool) (p : CronExpressionPart) : field_result := if valid then Push p else Break false.

Definition never (_ : Z) : bool := false.
(** The body of the loop for one field. *)
Definition parse_field (position : nat) (tst : bytes) : outcome field_result :=
  let cpart := CronExpressionPart_new in
  if bool_decide (tst = str "*") then
    Ret (Push {| all := true; from := -1; to := -1; interval := -1; lst := []; lstParts := [] |})
  else if has 45 tst && has 47 tst && (default 0%nat (sfind [45%Z] tst) <? default 0%nat (sfind [47%Z] tst))%nat then
    let parts := split_all tst [str "-"; str "/"] in
    start ← vat starts position; end_ ← vat ends position;
    if bool_decide (length parts = 3%nat) then
      let '(vparts, valid) := read_values position None never parts true [] in
      v0 ← vat vparts 0;
      if v0 <? start then Ret (Break false) else
      v1 ← vat vparts 1;
      if end_ <? v1 then Ret (Break false) else
      v2 ← vat vparts 2;
      if v1 - v0 <? v2 then Ret (Break false) else Ret (field valid (with_range v0 v1 v2))
    else Ret (Push cpart)
  else if has 45 tst then
    let parts := splitAndReturn tst (str "-") false in
    start ← vat starts position; end_ ← vat ends position;
    if bool_decide (length parts = 2%nat) then
      let '(vparts, valid) := read_values position None never parts true [] in
      v0 ← vat vparts 0;
      if v0 <? start then Ret (Break false) else
      v1 ← vat vparts 1;
      if end_ <? v1 then Ret (Break false) else Ret (field valid (with_range v0 v1 (-1)))
    else Ret (Push cpart)
  else if has 47 tst then
    let parts := splitAndReturn tst (str "/") false in
    start ← vat starts position; end_ ← vat ends position;
    if bool_decide (length parts = 2%nat) then
      let '(vparts, valid) := read_values position (Some start) never parts true [] in
      v0 ← vat vparts 0;
      if v0 <? start then Ret (Break false) else
      v1 ← vat vparts 1;
      if (end_ <? v1) || (end_ - v0 <? v1) then Ret (Break false) else Ret (field valid (with_range v0 end_ v1))
    else Ret (Push cpart)
  else if has 44 tst then
    let parts := splitAndReturn tst (str ",") false in
    start ← vat starts position; end_ ← vat ends position;
    let '(vparts, valid) := read_values position None (λ v, (v <? start) || (end_ <? v)) parts true [] in
    Ret (field valid (foldl push_value cpart vparts))
  else
    start ← vat starts position; end_ ← vat ends position;
    let '(v, valid) := part_value position None tst in
    if (v =? -1) || (v <? start) || (end_ <? v) then Ret (Break valid) else Ret (field valid (with_range v (-1) (-1))).

Fixpoint parse_fields (position : nat) (cronParts : list bytes) (cParts : list CronExpressionPart) : outcome (list CronExpressionPart * bool) :=
  match cronParts with
  | [] => Ret (cParts, true)
  | tst :: cronParts =>
      r ← parse_field position tst;
      match r with
      | Push p => parse_fields (S position) cronParts (cParts ++ [p])
      | Break valid => Ret (cParts, valid)
      end
  end.

(** The constructor, and what it makes of the parts. *)
Definition every : CronExpressionPart := {| all := true; from := -1; to := -1; interval := -1; lst := []; lstParts := [] |}.
Definition CronTimer_new (cronExpression : bytes) : outcome (list CronExpressionPart) :=
  let cronParts := splitAndReturn cronExpression (str " ") false in
  if (6 <? length cronParts)%nat then Ret []
  else
    '(cParts, valid) ← parse_fields 0 cronParts [];
    if negb valid then Throw Runtime_error
    else Ret (if bool_decide (length cParts = 5%nat) then cParts ++ [every] else cParts).

(** [toString]; the loop over an interval has one round per value and one more. *)
Definition types : list bytes := map str ["minute"; "hour"; "day"; "month"; "dayOfWeek"; "year"]%string.
Fixpoint steps (fuel : nat) (start end_ step : Z) (builder : bytes) : outcome bytes :=
  match fuel with
  | O => Out_of_fuel
  | S fuel => if start <=? end_ then steps fuel (start + step) end_ step (builder ++ fromNumber start ++ str " ") else Ret builder
  end.
Definition part_text (p : CronExpressionPart) (type : bytes) : outcome bytes :=
  if all p then Ret (str "every " ++ type)
  else if negb (bool_decide (lst p = [])) then Ret (lst p ++ str " " ++ type)
  else if negb (interval p =? -1) then
    t ← steps (Z.to_nat (to p - from p + 2)) (from p) (to p) (interval p) []; Ret (t ++ str " " ++ type)
  else if negb (from p =? -1) && negb (to p =? -1) then
    Ret (str "every " ++ type ++ str " from " ++ fromNumber (from p) ++ str " " ++ fromNumber (to p))
  else Ret (str "every " ++ fromNumber (from p) ++ str " " ++ type).
Fixpoint parts_text (var : nat) (cParts : list CronExpressionPart) : outcome bytes :=
  match cParts with
  | [] => Ret []
  | p :: rest =>
      type ← vat types var;
      t ← part_text p type;
      r ← parts_text (S var) rest;
      Ret (t ++ (if bool_decide (rest = []) then [] else str ",") ++ r)
  end.
Definition toString (cParts : list CronExpressionPart) : outcome bytes := parts_text 0 cParts.

(** ** Running *)

(** [isValid]. *)
Definition isValid (cParts : list CronExpressionPart) (pos : nat) (cvalue nvalue : Z) : outcome bool :=
  valid ← (if (pos <? 6)%nat && (0 <? cvalue) then
      p ← vat cParts pos;
      if all p then Ret true
      else if (interval p =? -1) && (from p =? cvalue) then Ret true
      else if (interval p =? -1) && negb (to p =? -1) && (from p <=? cvalue) && (cvalue <=? to p) then Ret true
      else
        stepped ← (if negb (interval p =? -1) && (from p <=? cvalue) && (cvalue <=? to p) then
                     if interval p =? 0 then Undefined else Ret (Z.rem (cvalue - from p) (interval p) =? 0)
                   else Ret false);
        if (stepped : bool) then Ret true
        else Ret (bool_decide (sfind (str "," ++ fromNumber cvalue ++ str ",") (lst p) ≠ None))
    else Ret false);
  Ret (valid && (cvalue =? nvalue)).

(** The bounds [correctNextRunDateTime] works with at an index. *)
Definition bounds (cParts : list CronExpressionPart) (index : nat) : outcome (Z * Z) :=
  p ← vat cParts index;
  let start := from p in
  let end_ := to p in
  let end_ := if (interval p =? -1) && (end_ =? -1) && negb (start =? -1) && negb (all p) then start else end_ in
  start ← (if start =? -1 then vat starts index else Ret start);
  end_ ← (if end_ =? -1 then vat ends index else Ret end_);
  Ret (match lstParts p with [] => (start, end_) | v :: _ => (v, default 0 (last (lstParts p))) end).

Section running.
Variable c : Clock.

(** [correctNextRunDateTime]: the recursion goes to the position before, from 5 to 3. *)
Fixpoint correctNextRunDateTime (cParts : list CronExpressionPart) (pos : nat) (d : Date) : outcome Date :=
  match pos with
  | O => Ret d
  | S q =>
      '(start, end_) ← bounds cParts (if (pos =? 5)%nat then 3%nat else q);
      match pos with
      | 1%nat => if end_ <=? minutes d then updateMinutes c c (start - minutes d) d else Ret d
      | 2%nat =>
          d ← (if end_ <=? hours d then updateHours c c (start - hours d) d else Ret d);
          correctNextRunDateTime cParts q d
      | 3%nat =>
          d ← (if end_ <=? day d then updateDays c c (start - day d) d else Ret d);
          correctNextRunDateTime cParts q d
      | 5%nat =>
          d ← (if end_ <=? month d then updateMonths c c (start - month d) d else Ret d);
          match q with S r => correctNextRunDateTime cParts r d | O => Ret d end
      | _ => Ret d
      end
  end.

(** The value after [v] in a list, or the first one. *)
Definition list_next (l : list Z) (v : Z) : Z :=
  match list_find (λ x, x = v) l with
  | Some (j, _) => if bool_decide (S j = length l) then nth 0 l 0 else nth (S j) l 0
  | None => v
  end.

(** [tryIncrement]: whether the increment is done, and the date. *)
Definition tryIncrement (cParts : list CronExpressionPart) (pos : nat) (cvalue : Z) (d : Date) : outcome (bool * Date) :=
  p ← vat cParts pos;
  let lstExists := bool_decide (cvalue ∈ lstParts p) in
  let intervalValue := if negb (interval p =? -1) then interval p else 1 in
  let isRangeVal := (from p <=? cvalue) && (cvalue <? to p) in
  let intervalValue := if lstExists then list_next (lstParts p) cvalue - cvalue else intervalValue in
  let intervalValue := if negb (interval p =? -1) && (to p <? cvalue + intervalValue) then from p - cvalue else intervalValue in
  if all p || negb (interval p =? -1) || isRangeVal || lstExists then
    d ← match pos with
        | 0%nat => updateMinutes c c intervalValue d
        | 1%nat => updateHours c c intervalValue d
        | 2%nat => updateDays c c intervalValue d
        | 3%nat => updateMonths c c intervalValue d
        | 5%nat => updateYears c c intervalValue d
        | _ => Ret d
        end;
    d ← correctNextRunDateTime cParts pos d;
    Ret (negb (intervalValue <? 0), d)
  else Ret (false, d).

(** The field of a date a position looks at. *)
Definition field_of (pos : nat) (d : Date) : Z :=
  match pos with 0%nat => minutes d | 1%nat => hours d | 2%nat => day d | 3%nat => month d | _ => year d end.

(** The five positions, from the year to the minute. *)
Fixpoint all_valid (cParts : list CronExpressionPart) (positions : list nat) (d2 next : Date) : outcome bool :=
  match positions with
  | [] => Ret true
  | pos :: positions =>
      v ← isValid cParts pos (field_of pos d2) (field_of pos next);
      if (v : bool) then all_valid cParts positions d2 next else Ret false
  end.
(** The increments from the minute to the year, until one is done. *)
Fixpoint increments (cParts : list CronExpressionPart) (positions : list nat) (next : Date) : outcome Date :=
  match positions with
  | [] => Ret next
  | pos :: positions =>
      '(done, next) ← tryIncrement cParts pos (field_of pos next) next;
      if (done : bool) then Ret next else increments cParts positions next
  end.

(** A turn of the loop of [run] when the clock says [d2]: whether the job ran, and the date of
    the next run. *)
Definition run_turn (cParts : list CronExpressionPart) (d2 next : Date) : outcome (bool * Date) :=
  v ← all_valid cParts [5; 3; 2; 1; 0]%nat d2 next;
  if (v : bool) then next ← increments cParts [0; 1; 2; 3; 5]%nat next; Ret (true, next)
  else Ret (false, next).

(** The loop over the readings of the clock: the dates the job ran at, and the date of the next
    run.  In a [JobTask] the flag [doRun], which [stop] clears, ends the readings. *)
Fixpoint run_loop (cParts : list CronExpressionPart) (ticks : list Date) (next : Date) : outcome (list Date * Date) :=
  match ticks with
  | [] => Ret ([], next)
  | d2 :: ticks =>
      '(ran, next) ← run_turn cParts d2 next;
      '(runs, next) ← run_loop cParts ticks next;
      Ret ((if (ran : bool) then [d2] else []) ++ runs, next)
  end.
End running.

(** [run] of a timer, from the reading [c0] on. *)
Definition run (c : Clock) (c0 : Clock) (cParts : list CronExpressionPart) (ticks : list Clock) : outcome (list Date * Date) :=
  run_loop c cParts (map (λ k, Date_now k false) ticks) (Date_now c0 false).

(** [JobTask::run]: what an exception of the expression or of the loop ends is logged. *)
Definition job_run (c c0 : Clock) (cron : bytes) (ticks : list Clock) : outcome (option (list Date)) :=
  match (cParts ← CronTimer_new cron; run c c0 cParts ticks) with
  | Ret (runs, _) => Ret (Some runs)
  | Throw e => if is_std e then Ret None else Throw e
  | Undefined => Undefined
  | Out_of_fuel => Out_of_fuel
  end.

(** ** What an expression means *)

(** The values a part stands for. *)
Definition part_matches (p : CronExpressionPart) (v : Z) : Prop :=
  all p = true ∨ interval p = -1 ∧ (from p = v ∨ to p ≠ -1 ∧ from p ≤ v ≤ to p) ∨
  interval p ≠ -1 ∧ from p ≤ v ≤ to p ∧ Z.rem (v - from p) (interval p) = 0 ∨ v ∈ lstParts p.
#[export] Instance part_matches_dec p v : Decision (part_matches p v).
Proof. unfold part_matches. apply _. Defined.

Definition number_ok (v : Z) : Prop := 0 ≤ v < 2 ^ 31.
#[export] Instance number_ok_dec v : Decision (number_ok v).
Proof. unfold number_ok. apply _. Defined.
Definition value_text (v : Z) : bytes := str "," ++ fromNumber v ++ str ",".
Definition list_text (vs : list Z) : bytes := concat (map value_text vs).
(** The parts the constructor builds: [lst] is the text of the values of [lstParts], in the
    order of the expression. *)
Definition part_ok (p : CronExpressionPart) : Prop :=
  interval p ≠ 0 ∧ ∃ vs, lst p = list_text vs ∧ Forall number_ok vs ∧ lstParts p = foldl (λ l v, insert_sorted v l) [] vs.

Lemma fromNumber_digits_of v : number_ok v → digits_of 10 v (fromNumber v).
Proof. intros H. unfold number_ok in H. unfold fromNumber. rewrite wrapu_small by lia. apply print_number_digits; lia. Qed.
Lemma fromNumber_plain v c : number_ok v → c < 48 ∨ 57 < c < 97 ∨ 102 < c → c ∉ fromNumber v.
Proof.
  intros Hv Hc Hin. destruct (fromNumber_digits_of v Hv) as (_ & H & _). rewrite Forall_forall in H.
  destruct (H c Hin) as [_ ?]. lia.
Qed.
Lemma fromNumber_inj v w : number_ok v → number_ok w → fromNumber v = fromNumber w → v = w.
Proof.
  intros Hv Hw E. pose proof (digits_of_read _ _ _ (fromNumber_digits_of v Hv)) as <-. rewrite E.
  apply digits_of_read, fromNumber_digits_of, Hw.
Qed.

(** Where a separator of one text stands in another one. *)
Lemma separator_cases (c : Z) e x y z : c ∉ e → x ++ c :: y = e ++ c :: z →
  x = e ∧ y = z ∨ ∃ x', x = e ++ c :: x' ∧ z = x' ++ c :: y.
Proof.
  revert x. induction e as [|a e IH]; intros [|b x] Hc E; cbn in E.
  - left. by simplify_eq.
  - right. injection E as -> <-. by exists x.
  - injection E as -> _. exfalso. apply Hc. left.
  - injection E as -> E. destruct (IH x) as [[-> ->]|(x' & -> & ->)]; [set_solver|done|by left|right; by exists x'].
Qed.

Lemma list_text_block a v b vs : number_ok v → Forall number_ok vs → list_text vs = a ++ value_text v ++ b → v ∈ vs.
Proof.
  intros Hv Hvs. revert a. induction Hvs as [|w vs Hw Hvs IH]; intros a E.
  { destruct a; done. }
  unfold list_text in E. cbn [map concat] in E. fold (list_text vs) in E. unfold value_text in E at 1. change (str ",") with [44] in E.
  unfold value_text in E. change (str ",") with [44] in E. rewrite <- !app_assoc in E. cbn [app] in E.
  assert (44 ∉ fromNumber v) as Cv by (apply fromNumber_plain; [done|lia]).
  assert (44 ∉ fromNumber w) as Cw by (apply fromNumber_plain; [done|lia]).
  destruct a as [|x a]; cbn [app] in E.
  - injection E as E. destruct (separator_cases 44 _ _ _ _ Cv E) as [[E' _]|(x' & E' & _)].
    + apply fromNumber_inj in E' as ->; [left|done..].
    + exfalso. apply Cw. rewrite E'. apply elem_of_app. right. left.
  - injection E as <- E. symmetry in E. rewrite app_comm_cons in E.
    destruct (separator_cases 44 _ a _ _ Cw E) as [[-> E']|(x' & -> & E')].
    + exfalso. destruct (fromNumber_digits_of v Hv) as (Hne & Hds & _). destruct (fromNumber v) as [|d ds] eqn:Ed; [done|].
      destruct vs as [|u vs]; [done|].
      unfold list_text in E'. cbn [map concat] in E'. unfold value_text in E'. change (str ",") with [44] in E'. cbn [app] in E'.
      injection E' as -> _. apply Cv. left.
    + right. apply (IH x'). rewrite E'. unfold value_text. change (str ",") with [44]. by rewrite <- !app_assoc.
Qed.

Lemma sfind_middle p a b : sfind p (a ++ p ++ b) ≠ None.
Proof.
  induction a as [|x a IH]; cbn [app].
  - by rewrite sfind_here.
  - cbn [sfind]. case_match; [done|]. by destruct (sfind p (a ++ p ++ b)).
Qed.
Lemma list_text_find v vs : number_ok v → Forall number_ok vs →
  sfind (str "," ++ fromNumber v ++ str ",") (list_text vs) ≠ None ↔ v ∈ vs.
Proof.
  intros Hv Hvs. fold (value_text v). split.
  - destruct (sfind _ _) as [i|] eqn:E; [intros _|done]. apply sfind_Some in E as [E _]. by eapply list_text_block.
  - intros (l1 & l2 & ->)%list_elem_of_split. unfold list_text. rewrite map_app, concat_app. cbn [map concat]. apply sfind_middle.
Qed.

Lemma insert_sorted_elem w v l : w ∈ insert_sorted v l ↔ w = v ∨ w ∈ l.
Proof. induction l as [|x l IH]; cbn; [set_solver|]. case_match; set_solver. Qed.
Lemma sorted_elem w vs l : w ∈ foldl (λ l v, insert_sorted v l) l vs ↔ w ∈ vs ∨ w ∈ l.
Proof. revert l. induction vs as [|v vs IH]; intros l; cbn; [set_solver|]. rewrite IH, insert_sorted_elem. set_solver. Qed.

(** When a value of the clock lets a job run. *)
Definition due (p : CronExpressionPart) (cvalue nvalue : Z) : Prop := cvalue = nvalue ∧ 0 < cvalue ∧ part_matches p cvalue.
#[export] Instance due_dec p v w : Decision (due p v w).
Proof. unfold due. apply _. Defined.

Lemma isValid_due cParts pos p v w : cParts !! pos = Some p → (pos < 6)%nat → part_ok p → v < 2 ^ 31 →
  isValid cParts pos v w = Ret (bool_decide (due p v w)).
Proof.
  intros Hp Hpos (Hi & vs & Hl & Hvs & Hs) Hv. unfold isValid, due. rewrite (proj2 (Nat.ltb_lt _ _) Hpos). cbn [andb].
  destruct (0 <? v) eqn:E0; [|rewrite bind_Ret_l; rewrite bool_decide_false by lia; done].
  unfold vat. rewrite Hp, bind_Ret_l.
  assert (bool_decide (sfind (str "," ++ fromNumber v ++ str ",") (lst p) ≠ None) = bool_decide (v ∈ lstParts p)) as ->.
  { apply bool_decide_ext. rewrite Hl, list_text_find by (done || unfold number_ok; lia). rewrite Hs, sorted_elem. set_solver. }
  assert (∀ b, (b = true ↔ part_matches p v) → (valid ← Ret b; Ret (valid && (v =? w))) = Ret (bool_decide (v = w ∧ 0 < v ∧ part_matches p v))) as Hfin.
  { intros b Hb. rewrite bind_Ret_l. f_equal. apply eq_true_iff_eq. rewrite bool_decide_eq_true, andb_true_iff, Hb, Z.eqb_eq. apply Z.ltb_lt in E0. tauto. }
  revert Hfin. generalize (bool_decide (v = w ∧ 0 < v ∧ part_matches p v)). intros r Hfin. unfold part_matches in Hfin.
  destruct (all p) eqn:Ea; [apply Hfin; tauto|].
  destruct (Z.eqb_spec (interval p) (-1)) as [Ei|Ei]; cbn [andb negb].
  - destruct (Z.eqb_spec (from p) v) as [Ef|Ef]; [apply Hfin; tauto|].
    destruct (_ && _ && _) eqn:Er.
    + apply Hfin. split; [|done]. intros _. right; left. split; [done|]. right. lia.
    + rewrite bind_Ret_l. apply Hfin. rewrite bool_decide_eq_true. split; [tauto|].
      intros [?|[(_ & [?|?])|[(? & _)|?]]]; try done; exfalso; lia.
  - destruct (_ && _) eqn:Er.
    + replace (interval p =? 0) with false by lia. rewrite bind_Ret_l. destruct (Z.eqb_spec (Z.rem (v - from p) (interval p)) 0) as [Em|Em].
      * apply Hfin. split; [|done]. intros _. right; right; left. split_and!; [done|lia..|done].
      * apply Hfin. rewrite bool_decide_eq_true. split; [tauto|]. intros [?|[(? & _)|[(_ & _ & ?)|?]]]; done.
    + rewrite bind_Ret_l. apply Hfin. rewrite bool_decide_eq_true. split; [tauto|]. intros [?|[(? & _)|[(_ & ? & _)|?]]]; try done. exfalso; lia.
Qed.

Definition run_positions : list nat := [5; 3; 2; 1; 0]%nat.
(** The fields of a date are [int]s. *)
Definition int_fields (d : Date) : Prop := Forall (λ pos, field_of pos d < 2 ^ 31) run_positions.
(** At a position, the clock is at the next run, above 0 and at a value of the expression. *)
Definition due_at (cParts : list CronExpressionPart) (d2 next : Date) (pos : nat) : Prop :=
  match cParts !! pos with Some p => due p (field_of pos d2) (field_of pos next) | None => False end.
#[export] Instance due_at_dec cParts d2 next pos : Decision (due_at cParts d2 next pos).
Proof. unfold due_at. destruct (cParts !! pos); apply _. Defined.

Definition parts_ok (cParts : list CronExpressionPart) : Prop := length cParts = 6%nat ∧ Forall part_ok cParts.

Lemma all_valid_due cParts positions d2 next : parts_ok cParts → Forall (λ pos, (pos < 6)%nat ∧ field_of pos d2 < 2 ^ 31) positions →
  all_valid cParts positions d2 next = Ret (bool_decide (Forall (due_at cParts d2 next) positions)).
Proof.
  intros [Hl Hok] Hpos. induction Hpos as [|pos positions [Hp Hf] Hpos IH]; cbn [all_valid]; [done|].
  destruct (lookup_lt_is_Some_2 cParts pos) as [p Ep]; [lia|].
  rewrite (isValid_due cParts pos p) by (try done; by eapply Forall_lookup_1). rewrite bind_Ret_l, IH.
  transitivity (Ret (bool_decide (due p (field_of pos d2) (field_of pos next)) && bool_decide (Forall (due_at cParts d2 next) positions))).
  { by destruct (bool_decide (due _ _ _)). }
  f_equal. apply eq_true_iff_eq. rewrite andb_true_iff, !bool_decide_eq_true, Forall_cons. unfold due_at at 2. by rewrite Ep.
Qed.
Lemma run_positions_ok d2 : int_fields d2 → Forall (λ pos, (pos < 6)%nat ∧ field_of pos d2 < 2 ^ 31) run_positions.
Proof. unfold int_fields, run_positions. rewrite !Forall_cons. intros. repeat (split; [split; [lia|tauto]|]). done. Qed.

(** What a turn of the loop does. *)
Lemma run_turn_due c cParts d2 next : parts_ok cParts → int_fields d2 →
  run_turn c cParts d2 next =
  if decide (Forall (due_at cParts d2 next) run_positions) then n ← increments c cParts [0; 1; 2; 3; 5]%nat next; Ret (true, n)
  else Ret (false, next).
Proof.
  intros Hok Hf. unfold run_turn. fold run_positions. rewrite all_valid_due by (done || by apply run_positions_ok).
  rewrite bind_Ret_l. destruct (decide (Forall (due_at cParts d2 next) run_positions)); [rewrite bool_decide_true by done|rewrite bool_decide_false by done]; done.
Qed.

Lemma run_loop_cons c cParts d2 ticks next :
  run_loop c cParts (d2 :: ticks) next =
  ('(ran, next) ← run_turn c cParts d2 next; '(runs, next) ← run_loop c cParts ticks next; Ret ((if (ran : bool) then [d2] else []) ++ runs, next)).
Proof. done. Qed.

(** A date the clock of the loop never lets a job run at: at minute, hour or month 0. *)
Definition stuck (next : Date) : Prop := minutes next = 0 ∨ hours next = 0 ∨ month next = 0.
Lemma stuck_not_due cParts d2 next : stuck next → ¬ Forall (due_at cParts d2 next) run_positions.
Proof.
  intros Hs Hall. unfold run_positions in Hall. rewrite !Forall_cons in Hall. destruct Hall as (_ & H3 & _ & H1 & H0 & _).
  unfold due_at, due in *. cbn [field_of] in *.
  destruct Hs as [Hs|[Hs|Hs]]; [destruct (cParts !! 0%nat)|destruct (cParts !! 1%nat)|destruct (cParts !! 3%nat)]; try done; lia.
Qed.

(** Once the date of the next run has minute, hour or month 0 the job never runs again,
    whatever the expression and however long the loop goes on: [isValid] takes no 0, although
    the first minute, the first hour and January are 0. *)
Theorem stalls_at_zero c cParts ticks next : parts_ok cParts → Forall int_fields ticks → stuck next →
  run_loop c cParts ticks next = Ret ([], next).
Proof.
  intros Hok Ht Hs. induction Ht as [|d2 ticks Hd Ht IH]; [done|].
  rewrite run_loop_cons, run_turn_due by done. rewrite decide_False by by apply stuck_not_due. by rewrite bind_Ret_l, IH.
Qed.

Lemma run_loop_due c cParts ticks next runs n : parts_ok cParts → Forall int_fields ticks →
  run_loop c cParts ticks next = Ret (runs, n) →
  Forall (λ d, d ∈ ticks ∧ ∃ nx, Forall (due_at cParts d nx) run_positions) runs.
Proof.
  intros Hok Ht. revert next runs n. induction Ht as [|d2 ticks Hd Ht IH]; intros next runs n; [by intros [= <- <-]|].
  rewrite run_loop_cons, run_turn_due by done. case_decide as Hdue.
  - destruct (increments c cParts _ next) as [n'| | |]; [|done..]. rewrite !bind_Ret_l.
    destruct (run_loop c cParts ticks n') as [[rs n'']| | |] eqn:E; [|done..]. intros [= <- <-].
    constructor; [split; [left|by exists next]|]. eapply Forall_impl; [by eapply IH|]. intros x [? ?]. split; [by right|done].
  - rewrite bind_Ret_l. destruct (run_loop c cParts ticks next) as [[rs n'']| | |] eqn:E; [|done..]. intros [= <- <-].
    eapply Forall_impl; [by eapply IH|]. intros x [? ?]. split; [by right|done].
Qed.

(** ** An expression for every minute *)

(** Fields as the clock has them, with months from 0. *)
Definition clock_date (d : Date) : Prop :=
  clock_ok d ∧ 0 ≤ month d ≤ 11 ∧ 1 ≤ day d ≤ 31 ∧ 1901 ≤ year d ≤ 4000000.
#[export] Instance clock_date_dec d : Decision (clock_date d).
Proof. unfold clock_date, clock_ok. apply _. Defined.

Lemma month_start_bound y m : 1901 ≤ y ≤ 4000000 → 1 ≤ m ≤ 12 → 0 ≤ getDays y m 1 ≤ 1500000000.
Proof.
  intros Hy Hm. rewrite getDays_first by (unfold month_no; lia).
  assert (0 ≤ month_no y m ≤ 48000000) as Hk by (unfold month_no; lia). revert Hk. generalize (month_no y m). intros k Hk.
  unfold first_day, before_year, before_month. Z.div_mod_to_equations. lia.
Qed.

Lemma next_minute c d : clock_date d → 0 < month d →
  ∃ d', updateMinutes c c 1 d = Ret d' ∧ minutes d' = (minutes d + 1) mod 60 ∧ (minutes d < 59 → clock_date d').
Proof.
  intros ((Hh & Hm & Hs) & Hmo & Hd & Hy) Hpos. unfold updateMinutes. cbv zeta.
  rewrite (Z.quot_small (seconds d)), (Z.rem_small (seconds d)), (Z.add_0_r 1) by lia.
  rewrite Z.quot_div_nonneg, Z.rem_mod_nonneg by lia. pose proof (Z.mod_pos_bound (minutes d + 1) 60 ltac:(lia)).
  rewrite !wraps_small by lia. destruct (0 <? (minutes d + 1) / 60) eqn:E.
  - assert (∃ d', updateHours c c ((minutes d + 1) / 60) d = Ret d') as (d' & ->).
    { unfold updateHours. cbv zeta. assert (0 ≤ (minutes d + 1) / 60 ≤ 1) by (Z.div_mod_to_equations; lia).
      rewrite (Z.quot_small (minutes d)), Z.add_0_r by lia. rewrite Z.quot_div_nonneg by lia.
      case_match; [|by eexists]. pose proof (month_start_bound (year d) (month d) ltac:(lia) ltac:(lia)).
      destruct (updateDays_ok c c ((hours d + (minutes d + 1) / 60) / 24) d) as (d' & -> & _); [lia| |by eexists].
      unfold counted_days, counted_year. replace (month d =? 12) with false by lia. rewrite getDays_day. Z.div_mod_to_equations. lia. }
    rewrite bind_Ret_l. eexists. split; [done|]. cbn. split; [done|]. intros. exfalso. Z.div_mod_to_equations. lia.
  - rewrite bind_Ret_l. eexists. split; [done|]. unfold clock_date, clock_ok. cbn. split; [done|]. intros. split_and!; lia.
Qed.

Lemma every_ok : parts_ok (replicate 6 every).
Proof. split; [done|]. repeat constructor; try done; by exists []. Qed.

Lemma increments_every c d d' : updateMinutes c c 1 d = Ret d' → increments c (replicate 6 every) [0; 1; 2; 3; 5]%nat d = Ret d'.
Proof.
  intros E. cbn [increments]. unfold tryIncrement. change (vat (replicate 6 every) 0) with (Ret every). rewrite bind_Ret_l.
  cbn -[updateMinutes]. rewrite (bool_decide_false (minutes d ∈ [])) by set_solver. by rewrite E.
Qed.

Lemma every_minute_runs c ticks next : Forall int_fields ticks → clock_date next →
  ∃ runs n, run_loop c (replicate 6 every) ticks next = Ret (runs, n) ∧
            Z.of_nat (length runs) ≤ if decide (stuck next) then 0 else 60 - minutes next.
Proof.
  intros Ht. revert next. induction Ht as [|d2 ticks Hd Ht IH]; intros next Hc.
  { exists [], next. split; [done|]. destruct Hc as ((_ & ? & _) & _). cbn. case_decide; lia. }
  case_decide as Hs.
  { exists [], next. split; [|done]. by apply stalls_at_zero; [apply every_ok|constructor|]. }
  rewrite run_loop_cons, run_turn_due by (done || apply every_ok). case_decide as Hdue.
  - pose proof Hc as ((_ & Hm & _) & Hmo & _). unfold stuck in Hs.
    destruct (next_minute c next Hc ltac:(lia)) as (d' & E & Em & Hnext).
    rewrite (increments_every c next d' E), !bind_Ret_l.
    destruct (decide (minutes next = 59)) as [E59|N59].
    + rewrite E59 in Em. change ((59 + 1) mod 60) with 0 in Em.
      rewrite (stalls_at_zero c (replicate 6 every) ticks d' every_ok Ht) by (by left). eexists _, _. split; [done|]. cbn. lia.
    + destruct (IH d' (Hnext ltac:(lia))) as (runs & n & -> & Hl). rewrite bind_Ret_l. eexists _, _. split; [done|].
      rewrite Z.mod_small in Em by lia. cbn [app length]. case_decide; lia.
  - rewrite bind_Ret_l. destruct (IH next Hc) as (runs & n & -> & Hl). rewrite bind_Ret_l. eexists _, _. split; [done|].
    rewrite decide_False in Hl by done. done.
Qed.

(** A reading of a real clock. *)
Definition reading_ok (k : Clock) : Prop :=
  let t := localtime k in
  0 ≤ tm_hour t < 24 ∧ 0 ≤ tm_min t < 60 ∧ 0 ≤ tm_sec t < 60 ∧ 0 ≤ tm_mon t ≤ 11 ∧ 1 ≤ tm_mday t ≤ 31 ∧ 1 ≤ tm_year t ≤ 3990000.
#[export] Instance reading_ok_dec k : Decision (reading_ok k).
Proof. unfold reading_ok. apply _. Defined.
Lemma reading_date k : reading_ok k → clock_date (Date_now k false) ∧ int_fields (Date_now k false).
Proof.
  intros (? & ? & ? & ? & ? & ?). unfold clock_date, clock_ok, int_fields, run_positions. rewrite !Forall_cons, Forall_nil. cbn.
  rewrite wraps_small by lia. lia.
Qed.
Lemma readings_fields ticks : Forall reading_ok ticks → Forall int_fields (map (λ k, Date_now k false) ticks).
Proof. intros H. apply Forall_fmap. eapply Forall_impl; [exact H|]. intros k Hk. by apply reading_date. Qed.

(** A job for every minute runs until the hour is full and never again: at most once for each
    minute that is left of the hour it was started in, and not at all when it was started in
    minute 0, hour 0 or in January, however long the clock goes on. *)
Theorem every_minute_stops c c0 ticks : reading_ok c0 → Forall reading_ok ticks →
  ∃ cParts runs n, CronTimer_new (str "* * * * *") = Ret cParts ∧ run c c0 cParts ticks = Ret (runs, n) ∧
    Z.of_nat (length runs) ≤ if decide (stuck (Date_now c0 false)) then 0 else 60 - tm_min (localtime c0).
Proof.
  intros H0 Ht. exists (replicate 6 every). unfold run.
  destruct (every_minute_runs c (map (λ k, Date_now k false) ticks) (Date_now c0 false)) as (runs & n & E & Hl);
    [by apply readings_fields|by apply reading_date|]. exists runs, n. split_and!; [by vm_compute|done|exact Hl].
Qed.
Lemma every_minute_stops_witness :
  ∃ cParts runs n, CronTimer_new (str "* * * * *") = Ret cParts ∧ run sample_clock sample_clock cParts (replicate 100 sample_clock) = Ret (runs, n) ∧
    Z.of_nat (length runs) ≤ 0.
Proof. apply (every_minute_stops sample_clock sample_clock (replicate 100 sample_clock)); apply (bool_decide_unpack _); vm_compute; exact I. Defined.

(** ** Reading an expression *)

(** The fields the grammar has, their text and the part they stand for. *)
Inductive cron_field :=
| Any
| Value (v : Z)
| Range (a b : Z)
| Steps (a b i : Z)
| From (a i : Z)
| Values (vs : list Z).

Definition num (v : Z) : bytes := print_number 10 v.
Definition field_text (f : cron_field) : bytes :=
  match f with
  | Any => [42]
  | Value v => num v
  | Range a b => num a ++ 45 :: num b
  | Steps a b i => num a ++ 45 :: num b ++ 47 :: num i
  | From a i => num a ++ 47 :: num i
  | Values vs => join [44] (map num vs)
  end.
Definition field_start (pos : nat) : Z := nth pos starts 0.
Definition field_end (pos : nat) : Z := nth pos ends 0.
Definition field_part (pos : nat) (f : cron_field) : CronExpressionPart :=
  match f with
  | Any => every
  | Value v => with_range v (-1) (-1)
  | Range a b => with_range a b (-1)
  | Steps a b i => with_range a b i
  | From a i => with_range a (field_end pos) i
  | Values vs => foldl push_value CronExpressionPart_new vs
  end.
Definition in_range (pos : nat) (v : Z) : Prop := field_start pos ≤ v ≤ field_end pos.
Definition field_ok (pos : nat) (f : cron_field) : Prop :=
  match f with
  | Any => True
  | Value v => in_range pos v
  | Range a b => field_start pos ≤ a ∧ 0 ≤ b ≤ field_end pos ∧ number_ok a
  | Steps a b i => field_start pos ≤ a ∧ 0 ≤ b ≤ field_end pos ∧ 0 ≤ i ≤ b - a
  | From a i => field_start pos ≤ a ∧ 0 ≤ i ≤ field_end pos - a
  | Values vs => (2 ≤ length vs)%nat ∧ Forall (in_range pos) vs
  end.
#[export] Instance cron_field_ok_dec pos f : Decision (field_ok pos f).
Proof. destruct f; unfold field_ok, in_range; apply _. Defined.

Lemma starts_at pos : (pos < 6)%nat → vat starts pos = Ret (field_start pos) ∧ vat ends pos = Ret (field_end pos) ∧ 0 ≤ field_start pos ∧ field_end pos ≤ 2099.
Proof. intros H. do 6 (destruct pos as [|pos]; [split_and!; reflexivity || done|]). lia. Qed.

Lemma num_plain v c : 0 ≤ v < 2 ^ 31 → c < 48 ∨ 57 < c < 97 ∨ 102 < c → c ∉ num v.
Proof. intros Hv. unfold num. rewrite <- (wrapu_small 64 v) by lia. by apply fromNumber_plain. Qed.
Lemma num_value pos star v : 0 ≤ v < 2 ^ 31 → part_value pos star (num v) = (v, true).
Proof. intros Hv. unfold part_value, num. by rewrite toInt_print. Qed.
Lemma read_values_num pos star stop vs valid acc :
  Forall (λ v, 0 ≤ v < 2 ^ 31 ∧ stop v = false) vs → read_values pos star stop (map num vs) valid acc = (acc ++ vs, valid).
Proof.
  intros H. revert acc. induction H as [|v vs [Hv Hs] H IH]; intros acc; cbn [read_values map]; [by rewrite app_nil_r|].
  rewrite num_value by done. rewrite andb_true_r, Hs, orb_false_r. replace (v =? -1) with false by lia. by rewrite IH, <- app_assoc.
Qed.

Lemma has_false c s : c ∉ s → has c s = false.
Proof. intros H. unfold has. apply bool_decide_eq_false. intros Hn. by apply Hn, sfind_char_None. Qed.
Lemma has_true c a b : c ∉ a → has c (a ++ c :: b) = true.
Proof. intros H. unfold has. rewrite sfind_char_app by done. done. Qed.

Lemma not_star v s : 0 ≤ v < 2 ^ 31 → num v ++ s ≠ str "*".
Proof.
  intros Hv E. assert (42 ∈ num v) as H; [|revert H; apply num_plain; [done|lia]].
  unfold num in *. destruct (print_number_digits 10 v ltac:(lia) ltac:(lia)) as (Hne & _ & _).
  destruct (print_number 10 v) as [|d ds]; [done|]. cbn in E. injection E as -> _. left.
Qed.
Lemma split_one (d : Z) a : d ∉ a → splitAndReturn a [d] false = [a].
Proof. intros Ha. apply (split_of_join d [a]); [done|]. by repeat constructor. Qed.
#[local] Hint Extern 1 (_ ∉ num _) => (apply num_plain; unfold number_ok in *; lia) : core.

Ltac solve_nums := rewrite ?Forall_cons, ?Forall_nil; unfold never; split_and!; first [done | lia].
Ltac not_in := rewrite ?elem_of_app, ?elem_of_cons, ?elem_of_app, ?elem_of_cons; let H := fresh in intros H;
  repeat match type of H with _ ∨ _ => destruct H as [H|H] end;
  first [discriminate H | apply num_plain in H; [destruct H|lia|lia]].

Lemma join_nums_plain (c : Z) vs : c < 44 ∨ 44 < c < 48 ∨ 57 < c < 97 ∨ 102 < c → Forall (λ v, 0 ≤ v < 2 ^ 31) vs → c ∉ join [44] (map num vs).
Proof.
  intros Hc H. induction H as [|v vs Hv H IH]; [cbn; set_solver|]. cbn [map join].
  destruct (map num vs) as [|x l] eqn:E; [apply num_plain; [done|lia]|].
  rewrite !elem_of_app, list_elem_of_singleton. intros [Hx|[Hx|Hx]]; [revert Hx; apply num_plain; [done|lia]|lia|by apply IH].
Qed.

(** Every field of the grammar is read as its part. *)
Lemma parse_field_text pos f : (pos < 6)%nat → field_ok pos f → parse_field pos (field_text f) = Ret (Push (field_part pos f)).
Proof.
  intros Hp. destruct (starts_at pos Hp) as (Es & Ee & H0 & H9). unfold parse_field. rewrite Es, Ee. clear Es Ee.
  change (str "-") with [45]. change (str "/") with [47]. change (str ",") with [44].
  destruct f as [|v|a b|a b i|a i|vs]; cbn [field_ok field_text field_part]; unfold in_range, number_ok.
  - done.
  - intros Hv. rewrite (bool_decide_false (num v = _)) by (rewrite <- (app_nil_r (num v)); apply not_star; lia).
    rewrite !has_false by not_in. cbn [andb]. rewrite !bind_Ret_l, num_value by lia.
    replace (_ || _ || _) with false by lia. done.
  - intros (Ha & Hb & Hn). rewrite bool_decide_false by (apply not_star; lia).
    rewrite has_true, (has_false 47) by not_in. cbn [andb].
    rewrite split_two by not_in. rewrite !bind_Ret_l. change (bool_decide _) with true.
    rewrite (read_values_num pos None never [a; b]) by solve_nums.
    cbn [app vat lookup list_lookup]. rewrite bind_Ret_l. replace (a <? field_start pos) with false by lia. rewrite bind_Ret_l.
    by replace (field_end pos <? b) with false by lia.
  - intros (Ha & Hb & Hi). rewrite bool_decide_false by (apply not_star; lia).
    rewrite has_true by not_in. rewrite sfind_char_app by not_in.
    assert (num a ++ 45 :: num b ++ 47 :: num i = (num a ++ 45 :: num b) ++ 47 :: num i) as E by by rewrite <- app_assoc.
    rewrite E, has_true, sfind_char_app by not_in. rewrite <- E. cbn [andb default option_map].
    replace (_ <? _)%nat with true by (symmetry; apply Nat.ltb_lt; rewrite length_app; cbn; lia).
    assert (split_all (num a ++ 45 :: num b ++ 47 :: num i) [[45]; [47]] = [num a; num b; num i]) as ->.
    { unfold split_all. cbn [foldl flat_map app]. rewrite split_two by not_in. cbn [app flat_map].
      rewrite split_one, split_two by not_in. done. }
    rewrite !bind_Ret_l. change (bool_decide _) with true. rewrite (read_values_num pos None never [a; b; i]) by solve_nums.
    cbn [app vat lookup list_lookup]. rewrite bind_Ret_l. replace (a <? field_start pos) with false by lia. rewrite bind_Ret_l.
    replace (field_end pos <? b) with false by lia. rewrite bind_Ret_l. by replace (b - a <? i) with false by lia.
  - intros (Ha & Hi). rewrite bool_decide_false by (apply not_star; lia).
    rewrite (has_false 45), has_true by not_in. cbn [andb].
    rewrite split_two by not_in. rewrite !bind_Ret_l. change (bool_decide _) with true.
    rewrite (read_values_num pos _ never [a; i]) by solve_nums.
    cbn [app vat lookup list_lookup]. rewrite bind_Ret_l. replace (a <? field_start pos) with false by lia. rewrite bind_Ret_l.
    by replace (_ || _) with false by lia.
  - intros (Hl & Hvs). assert (Forall (λ v, 0 ≤ v < 2 ^ 31) vs) as Hn by (eapply Forall_impl; [exact Hvs|]; intros x Hx; cbv beta in Hx; lia).
    assert (∃ v w vs', vs = v :: w :: vs') as (v & w & vs' & E) by (destruct vs as [|v [|w vs']]; cbn in Hl; [lia..|by eexists _, _, _]).
    rewrite !(has_false 45), (has_false 47) by (apply join_nums_plain; [lia|done]).
    rewrite bool_decide_false.
    2:{ rewrite E. cbn [map join]. apply not_star. rewrite E in Hn. by apply Forall_cons in Hn as [? _]. }
    assert (has 44 (join [44] (map num vs)) = true) as ->.
    { rewrite E. cbn [map join app]. apply has_true. rewrite E in Hn. apply Forall_cons in Hn as [? _]. not_in. }
    cbn [andb]. rewrite split_of_join.
    2:{ by rewrite E. } 2:{ apply Forall_fmap. eapply Forall_impl; [exact Hn|]. intros x Hx. cbv beta in Hx. not_in. }
    rewrite !bind_Ret_l, read_values_num; [done|]. eapply Forall_impl; [exact Hvs|]. intros x Hx. cbv beta in Hx. lia.
Qed.

Definition expression_text (fs : list cron_field) : bytes := join [32] (map field_text fs).
Definition fields_ok (fs : list cron_field) : Prop := ∀ i f, fs !! i = Some f → field_ok i f.
Definition field_parts (fs : list cron_field) : list CronExpressionPart := imap field_part fs.

Lemma parse_fields_texts pos fs rest acc : (∀ i f, fs !! i = Some f → field_ok (pos + i) f) → (pos + length fs ≤ 6)%nat →
  parse_fields pos (map field_text fs ++ rest) acc = parse_fields (pos + length fs) rest (acc ++ imap (λ i, field_part (pos + i)) fs).
Proof.
  revert pos acc. induction fs as [|f fs IH]; intros pos acc Hok Hl; cbn [map app].
  { cbn. by rewrite Nat.add_0_r, app_nil_r. }
  cbn [parse_fields length imap] in *. rewrite parse_field_text by (lia || (rewrite <- (Nat.add_0_r pos); by apply Hok)).
  rewrite bind_Ret_l, IH.
  - rewrite <- app_assoc. cbn. f_equal; [lia|]. do 2 f_equal; [f_equal; lia|]. apply imap_ext. intros. cbn. f_equal. lia.
  - intros i f' Hi. replace (S pos + i)%nat with (pos + S i)%nat by lia. by apply Hok.
  - lia.
Qed.

Lemma field_text_no_space pos f : (pos < 6)%nat → field_ok pos f → 32 ∉ field_text f.
Proof.
  intros Hp. destruct (starts_at pos Hp) as (_ & _ & H0 & H9).
  destruct f as [|v|a b|a b i|a i|vs]; cbn [field_ok field_text]; unfold in_range, number_ok; intros H.
  - rewrite list_elem_of_singleton. lia.
  - not_in.
  - not_in.
  - not_in.
  - not_in.
  - destruct H as [_ H]. apply join_nums_plain; [lia|]. eapply Forall_impl; [exact H|]. intros x Hx. cbv beta in Hx. lia.
Qed.

Lemma expression_splits fs rest : fields_ok fs → (length fs ≤ 6)%nat → Forall (λ t, 32 ∉ t) rest → fs ≠ [] ∨ rest ≠ [] →
  splitAndReturn (join [32] (map field_text fs ++ rest)) (str " ") false = map field_text fs ++ rest.
Proof.
  intros Hok Hl Hr Hne. apply split_of_join.
  - destruct Hne; [destruct fs|destruct fs, rest]; done.
  - apply Forall_app. split; [|done]. apply Forall_fmap, Forall_lookup. intros i f Hi.
    apply (field_text_no_space i); [|by apply Hok]. apply lookup_lt_Some in Hi. lia.
Qed.

(** An expression of up to six fields of the grammar, with its values in range, is read as
    their parts; five fields get one for every year. *)
Theorem expression_reads fs : fs ≠ [] → (length fs ≤ 6)%nat → fields_ok fs →
  CronTimer_new (expression_text fs) = Ret (if decide (length fs = 5%nat) then field_parts fs ++ [every] else field_parts fs).
Proof.
  intros Hne Hl Hok. unfold CronTimer_new, expression_text. rewrite <- (app_nil_r (map field_text fs)).
  rewrite expression_splits by auto. rewrite app_nil_r, length_map.
  replace (6 <? length fs)%nat with false by (symmetry; apply Nat.ltb_ge; lia).
  rewrite <- (app_nil_r (map field_text fs)), parse_fields_texts by done. cbn [parse_fields app].
  rewrite bind_Ret_l. cbn [negb]. change (imap (λ i, field_part (0 + i)) fs) with (field_parts fs).
  assert (length (field_parts fs) = length fs) as Ef by apply length_imap.
  case_decide as H5; [rewrite bool_decide_true by congruence|rewrite bool_decide_false by congruence]; done.
Qed.
Lemma expression_reads_witness :
  let fs := [Values [5; 35]; Range 9 17; Any; Steps 1 9 2; Any] in
  CronTimer_new (str "5,35 9-17 * 1-9/2 *") = Ret (field_parts fs ++ [every]).
Proof.
  apply (expression_reads [Values [5; 35]; Range 9 17; Any; Steps 1 9 2; Any]); [done|cbn; lia|].
  intros i f Hi. do 5 (destruct i as [|i]; [cbn in Hi; injection Hi as <-; apply (bool_decide_unpack _); vm_compute; exact I|]). done.
Defined.

Lemma isValid_missing cParts pos v w : cParts !! pos = None → (pos < 6)%nat → 0 < v → isValid cParts pos v w = Throw Out_of_range.
Proof. intros Hp Hpos Hv. unfold isValid, vat. rewrite (proj2 (Nat.ltb_lt _ _) Hpos), Hp. by replace (0 <? v) with true by lia. Qed.

(** A number out of range ends the reading without an error: the field and all fields behind
    it are dropped.  When less than six parts are left, the job ends at its first turn, with
    the message that its expression is invalid. *)
Theorem out_of_range_truncates fs v rest c c0 k ticks :
  fields_ok fs → (length fs < 5)%nat → 0 ≤ v < 2 ^ 31 → ¬ in_range (length fs) v →
  Forall (λ t, 32 ∉ t) rest → (length fs + length rest < 6)%nat → reading_ok k →
  let text := join [32] (map field_text fs ++ num v :: rest) in
  CronTimer_new text = Ret (field_parts fs) ∧ job_run c c0 text (k :: ticks) = Ret None.
Proof.
  cbv zeta. intros Hok Hl Hv Hout Hr Hlen Hk.
  assert (CronTimer_new (join [32] (map field_text fs ++ num v :: rest)) = Ret (field_parts fs)) as E.
  { unfold CronTimer_new. rewrite expression_splits; [|done|lia| |by right].
    2:{ constructor; [not_in|done]. }
    rewrite length_app, length_map. cbn [length].
    replace (6 <? _)%nat with false by (symmetry; apply Nat.ltb_ge; lia).
    rewrite parse_fields_texts by (done || lia). cbn [parse_fields app]. cbn [Nat.add].
    destruct (starts_at (length fs) ltac:(lia)) as (Es & Ee & H0 & H9).
    assert (parse_field (length fs) (num v) = Ret (Break true)) as ->.
    { unfold parse_field. change (str "-") with [45]. change (str "/") with [47]. change (str ",") with [44].
      rewrite (bool_decide_false (num v = _)) by (rewrite <- (app_nil_r (num v)); apply not_star; lia).
      rewrite !has_false by not_in. cbn [andb]. rewrite Es, Ee, !bind_Ret_l, num_value by lia. unfold in_range in Hout.
      by replace (_ || _ || _) with true by lia. }
    rewrite !bind_Ret_l. cbn [negb]. rewrite bool_decide_false; [done|]. intros H5. rewrite length_imap in H5. lia. }
  split; [done|]. unfold job_run. rewrite E, bind_Ret_l. unfold run. cbn [map]. rewrite run_loop_cons. unfold run_turn. cbn [all_valid field_of].
  destruct (reading_date k Hk) as [(_ & _ & _ & Hy) _].
  assert (length (field_parts fs) = length fs) as Ef by apply length_imap.
  rewrite (isValid_missing (field_parts fs) 5); [done|apply lookup_ge_None_2; lia|lia|lia].
Qed.
Lemma out_of_range_truncates_witness :
  let text := join [32] (map field_text [Any; Range 9 17] ++ num 32 :: [str "*"; str "*"]) in
  CronTimer_new text = Ret (field_parts [Any; Range 9 17]) ∧ job_run sample_clock sample_clock text [sample_clock] = Ret None.
Proof.
  apply (out_of_range_truncates [Any; Range 9 17] 32 [str "*"; str "*"] sample_clock sample_clock sample_clock []); [|cbn; lia|lia| | |cbn; lia|].
  - intros i f Hi. do 2 (destruct i as [|i]; [cbn in Hi; injection Hi as <-; apply (bool_decide_unpack _); vm_compute; exact I|]). done.
  - vm_compute. intros [_ H]. by apply H.
  - apply (bool_decide_unpack _); vm_compute; exact I.
  - apply (bool_decide_unpack _); vm_compute; exact I.
Defined.

(** ** A job runs when its expression says *)

(** The values a field stands for. *)
Definition field_matches (pos : nat) (f : cron_field) (x : Z) : Prop :=
  match f with
  | Any => True
  | Value v => x = v
  | Range a b => a ≤ x ≤ b
  | Steps a b i => a ≤ x ≤ b ∧ (x - a) mod i = 0
  | From a i => a ≤ x ≤ field_end pos ∧ (x - a) mod i = 0
  | Values vs => x ∈ vs
  end.
(** Ranges that are not empty and steps that are not zero. *)
Definition field_sane (f : cron_field) : Prop :=
  match f with Range a b => a ≤ b | Steps _ _ i | From _ i => 0 < i | _ => True end.
#[export] Instance field_sane_dec f : Decision (field_sane f).
Proof. destruct f; apply _. Defined.

Lemma push_values vs p :
  foldl push_value p vs =
  {| all := all p; from := from p; to := to p; interval := interval p;
     lst := lst p ++ list_text vs; lstParts := foldl (λ l v, insert_sorted v l) (lstParts p) vs |}.
Proof.
  revert p. induction vs as [|v vs IH]; intros p; cbn [foldl].
  - unfold list_text. cbn. rewrite app_nil_r. by destruct p.
  - rewrite IH. unfold push_value at 1 2 3 4 5 6. cbn [all from to interval lst lstParts]. f_equal.
    unfold list_text, value_text. cbn [map concat]. by rewrite <- app_assoc.
Qed.

Lemma field_part_ok pos f : (pos < 6)%nat → field_ok pos f → field_sane f → part_ok (field_part pos f).
Proof.
  intros Hp Hok Hs. destruct (starts_at pos Hp) as (_ & _ & H0 & H9). unfold part_ok.
  destruct f as [|v|a b|a b i|a i|vs]; cbn [field_part field_sane field_ok] in *;
    try (cbn; split; [lia|exists []; done]).
  rewrite push_values. split; [done|]. exists vs. cbn. split_and!; [done| |done].
  destruct Hok as [_ H]. eapply Forall_impl; [exact H|]. intros x Hx. unfold in_range, number_ok in *. lia.
Qed.
Lemma field_part_matches pos f x : (pos < 6)%nat → field_ok pos f → field_sane f → 0 < x →
  part_matches (field_part pos f) x ↔ field_matches pos f x.
Proof.
  intros Hp Hok Hs Hx. destruct (starts_at pos Hp) as (_ & _ & H0 & H9). unfold part_matches.
  destruct f as [|v|a b|a b i|a i|vs]; cbn [field_part field_sane field_ok field_matches] in *; unfold in_range, number_ok in *.
  - cbn. tauto.
  - cbn. rewrite elem_of_nil. split; [intros [?|[(_ & [?|?])|[?|?]]]; try done; lia|intros ->]. right; left. split; [done|by left].
  - cbn. rewrite elem_of_nil. split; [intros [?|[(_ & [?|?])|[?|?]]]; try done; lia|intros]. right; left. split; [done|]. right. lia.
  - cbn. rewrite elem_of_nil. split.
    + intros [?|[(? & _)|[(_ & ? & ?)|?]]]; try done; [lia|]. rewrite <- Z.rem_mod_nonneg by lia. done.
    + intros [? Hm]. right; right; left. rewrite Z.rem_mod_nonneg by lia. split_and!; try done; lia.
  - cbn. rewrite elem_of_nil. split.
    + intros [?|[(? & _)|[(_ & ? & ?)|?]]]; try done; [lia|]. rewrite <- Z.rem_mod_nonneg by lia. done.
    + intros [? Hm]. right; right; left. rewrite Z.rem_mod_nonneg by lia. split_and!; try done; lia.
  - rewrite push_values. cbn [all from to interval lstParts CronExpressionPart_new]. rewrite sorted_elem, elem_of_nil.
    split; [intros [?|[(_ & [?|?])|[(? & _)|[?|?]]]]; try done; lia|tauto].
Qed.

Lemma field_parts_ok fs : length fs = 5%nat → fields_ok fs → Forall field_sane fs → parts_ok (field_parts fs ++ [every]).
Proof.
  intros Hl Hok Hs. split; [rewrite length_app; unfold field_parts; rewrite length_imap, Hl; done|].
  apply Forall_app. split; [|constructor; [split; [done|by exists []]|done]].
  apply Forall_lookup. intros i p Hi. unfold field_parts in Hi. rewrite list_lookup_imap in Hi.
  destruct (fs !! i) as [f|] eqn:E; [|done]. cbn in Hi. injection Hi as <-.
  apply field_part_ok; [apply lookup_lt_Some in E; lia|by apply Hok|by eapply Forall_lookup_1].
Qed.

(** The fields of an expression a date has to match: all but the day of the week. *)
Definition matched (fs : list cron_field) (d : Date) : Prop :=
  Forall (λ pos, 0 < field_of pos d ∧ ∀ f, fs !! pos = Some f → field_matches pos f (field_of pos d)) [3; 2; 1; 0]%nat.

(** C31: A job that runs, runs at a moment its expression names: for an expression of five
    fields, each a star, a number, a list, a range that is not empty or a range or start with a
    step that is not 0, minute, hour, day and month of the clock are values of their fields, and
    none of them is 0. The field for the day of the week is read and never looked at, and the
    clock counts months from 0, the expression from 1: the month that runs is the one after the
    month named. *)
Theorem job_runs_when_due c c0 fs ticks runs :
  length fs = 5%nat → fields_ok fs → Forall field_sane fs → Forall reading_ok ticks →
  job_run c c0 (expression_text fs) ticks = Ret (Some runs) →
  Forall (λ d, d ∈ map (λ k, Date_now k false) ticks ∧ matched fs d) runs.
Proof.
  intros Hl Hok Hs Ht. unfold job_run. unfold CronTimer_new, expression_text.
  rewrite <- (app_nil_r (map field_text fs)). rewrite expression_splits by (done || lia || (left; by destruct fs)).
  rewrite app_nil_r, length_map, Hl. cbn [Nat.ltb Nat.leb]. rewrite <- (app_nil_r (map field_text fs)), parse_fields_texts by (done || lia).
  cbn [parse_fields app]. rewrite !bind_Ret_l. cbn [negb].
  change (imap (λ i, field_part (0 + i)) fs) with (field_parts fs).
  assert (length (field_parts fs) = 5%nat) as Ef by (unfold field_parts; by rewrite length_imap).
  rewrite (bool_decide_true (length (field_parts fs) = 5%nat)) by done. rewrite bind_Ret_l. unfold run.
  destruct (run_loop c _ _ _) as [[rs n]|e| |] eqn:E; [|by destruct (is_std e)|done|done]. intros [= <-].
  eapply run_loop_due in E; [|by apply field_parts_ok|by apply readings_fields].
  eapply Forall_impl; [exact E|]. intros d [Hin (nx & Hdue)]. split; [done|].
  unfold run_positions in Hdue. rewrite Forall_cons in Hdue. destruct Hdue as [_ Hdue].
  unfold matched. rewrite !Forall_cons, Forall_nil in *.
  assert (∀ pos, (pos < 5)%nat → due_at (field_parts fs ++ [every]) d nx pos →
    0 < field_of pos d ∧ ∀ f, fs !! pos = Some f → field_matches pos f (field_of pos d)) as H.
  { intros pos Hpos Hd. destruct (lookup_lt_is_Some_2 fs pos) as [f Ef']; [lia|].
    unfold due_at in Hd. rewrite lookup_app_l in Hd by lia. unfold field_parts in Hd. rewrite list_lookup_imap, Ef' in Hd. cbn in Hd.
    destruct Hd as (_ & Hp & Hm). split; [done|]. intros f' Ef2. rewrite Ef' in Ef2. injection Ef2 as <-.
    apply field_part_matches in Hm; [done|lia|by apply Hok|by eapply Forall_lookup_1|done]. }
  destruct Hdue as (H3 & H2 & H1 & H0 & _). split_and!; try done; apply H; done || lia.
Qed.
(** 12:34 on 5 April 2024. *)
Definition april_clock : Clock :=
  let t := {| tm_sec := 56; tm_min := 34; tm_hour := 12; tm_mday := 5; tm_mon := 3; tm_year := 124; tm_wday := 5; tm_yday := 95;
              tm_isdst := 0; tm_gmtoff := 0; tm_zone := None |} in
  {| tv_sec := 1712320496; tv_nsec := 0; localtime := t; gmtime := t |}.
Lemma job_runs_when_due_witness :
  Forall (λ d, d ∈ map (λ k, Date_now k false) [april_clock; april_clock] ∧ matched [Steps 4 54 10; Range 9 17; Any; Value 3; Any] d) [Date_now april_clock false].
Proof.
  apply (job_runs_when_due sample_clock april_clock [Steps 4 54 10; Range 9 17; Any; Value 3; Any] [april_clock; april_clock]); [done| | | |].
  - intros i f Hi. do 5 (destruct i as [|i]; [cbn in Hi; injection Hi as <-; apply (bool_decide_unpack _); vm_compute; exact I|]). done.
  - apply (bool_decide_unpack _); vm_compute; exact I.
  - apply (bool_decide_unpack _); vm_compute; exact I.
  - vm_compute. reflexivity.
Defined.

(** More than six fields are taken for a valid expression without any part: its job ends at
    the first turn. *)
Theorem too_many_fields expr : (6 < length (splitAndReturn expr (str " ") false))%nat → CronTimer_new expr = Ret [].
Proof. intros H. unfold CronTimer_new. by rewrite (proj2 (Nat.ltb_lt _ _) H). Qed.
Lemma too_many_fields_witness : CronTimer_new (str "1 1 1 1 1 2024 1") = Ret [].
Proof. apply too_many_fields. apply Nat.ltb_lt. vm_compute. reflexivity. Defined.

(** A step of 0 is accepted: looking at a value of its range divides by 0, and printing the
    expression never ends. *)
Theorem step_of_zero pos a b v w : (pos < 6)%nat → in_range pos a → in_range pos b → a ≤ v ≤ b → 0 < v →
  parse_field pos (field_text (Steps a b 0)) = Ret (Push (with_range a b 0)) ∧
  (∀ cParts, cParts !! pos = Some (with_range a b 0) → isValid cParts pos v w = Undefined) ∧
  (∀ fuel builder, steps fuel a b 0 builder = Out_of_fuel).
Proof.
  intros Hp Ha Hb Hv Hv0. destruct (starts_at pos Hp) as (_ & _ & H0 & H9). unfold in_range in *. split_and!.
  - apply (parse_field_text pos (Steps a b 0)); [done|]. cbn [field_ok]. lia.
  - intros cParts E. unfold isValid, vat. rewrite (proj2 (Nat.ltb_lt _ _) Hp), E. replace (0 <? v) with true by lia. cbn [andb].
    rewrite bind_Ret_l. cbn [all from to interval with_range]. change (0 =? -1) with false. cbn [andb negb].
    replace ((a <=? v) && (v <=? b)) with true by lia. done.
  - intros fuel. induction fuel as [|fuel IH]; intros builder; cbn [steps]; [done|]. replace (a <=? b) with true by lia.
    rewrite Z.add_0_r. apply IH.
Qed.
Lemma step_of_zero_witness :
  parse_field 0 (str "1-30/0") = Ret (Push (with_range 1 30 0)) ∧
  (∀ cParts, cParts !! 0%nat = Some (with_range 1 30 0) → isValid cParts 0 15 15 = Undefined) ∧
  (∀ fuel builder, steps fuel 1 30 0 builder = Out_of_fuel).
Proof. apply (step_of_zero 0 1 30 15 15); [lia|vm_compute; split; done..|lia|lia]. Defined.

(** ** The readings on the way *)

Definition day_code (y m d : Z) : outcome Z :=
  code ← prev_year_code y;
  dd ← checked_int (d + code);
  dd ← checked_int (dd + populateDay_offset m);
  checked_int (if is_leap y && (2 <? m) then dd + 1 else dd).
Lemma populateDay_code d : ∃ f : Z → Date, populateDay d = (w ← day_code (year d) (month d) (day d); Ret (f w)) ∧
  ∀ w, year (f w) = year d ∧ month (f w) = month d ∧ day (f w) = day d.
Proof.
  eexists (λ w, let dd := Z.rem w 7 in
    let '(dn, wd) := match word day_words dd with Some w => (w, if dd =? 0 then 7 else dd) | None => (dayName d, weekday d) end in
    let da := if 3 <? slen dn then take 3 dn else dayAbbr d in
    if 12 <=? hours d then set_weekday dn da wd (str "PM") (hours d - 12) d else set_weekday dn da wd (hourdesignation d) 0 d).
  split.
  - unfold populateDay, day_code. rewrite !bind_assoc. destruct (prev_year_code _) as [code| | |]; [|done..]. rewrite !bind_Ret_l, !bind_assoc.
    destruct (checked_int (day d + code)) as [dd| | |]; [|done..]. rewrite !bind_Ret_l, !bind_assoc.
    destruct (checked_int (dd + _)) as [dd'| | |]; [|done..]. rewrite !bind_Ret_l.
    destruct (checked_int _) as [dd''| | |]; [|done..]. rewrite !bind_Ret_l. by destruct (word day_words _), (12 <=? hours d).
  - intros w. cbv zeta. by destruct (word day_words _), (12 <=? hours d).
Qed.

(** [take_day] makes the same of every two readings of the clock, and so do the updates. *)
Lemma take_day_clock c1 c2 c1' c2' g d : take_day c1 c2 g d = take_day c1' c2' g d.
Proof.
  unfold take_day, getDateFromDays, getDateFromDaysInternal. destruct (checked_long _) as [e| | |]; [|done..]. rewrite !bind_Ret_l.
  destruct (date_of_days g _) as [[y mm] dd]. rewrite !bind_Ret_l.
  destruct (populateDay_code (set_day (wraps 32 dd) (wraps 32 mm) (wraps 32 y) (Date_now c1 false))) as (f & -> & Hf).
  destruct (populateDay_code (set_day (wraps 32 dd) (wraps 32 mm) (wraps 32 y) (Date_now c1' false))) as (f' & -> & Hf').
  cbn [year month day set_day] in *. destruct (day_code _ _ _) as [w| | |]; [|done..]. rewrite !bind_Ret_l.
  destruct (Hf w) as (E1 & E2 & E3), (Hf' w) as (E1' & E2' & E3').
  unfold populateEpochAndTimeZone, set_zone. cbn [year month day]. by rewrite E1, E2, E3, E1', E2', E3'.
Qed.
Lemma updateDays_clock c1 c2 c1' c2' n d : updateDays c1 c2 n d = updateDays c1' c2' n d.
Proof. unfold updateDays. by rewrite (take_day_clock c1 c2 c1' c2'). Qed.
Lemma updateHours_clock c1 c2 c1' c2' n d : updateHours c1 c2 n d = updateHours c1' c2' n d.
Proof. unfold updateHours. by rewrite (updateDays_clock c1 c2 c1' c2'). Qed.

(** The readings the functions of [Date] take on the way of a turn do not matter. *)
Theorem readings_irrelevant c1 c2 c1' c2' n d :
  updateMinutes c1 c2 n d = updateMinutes c1' c2' n d ∧ updateHours c1 c2 n d = updateHours c1' c2' n d ∧
  updateDays c1 c2 n d = updateDays c1' c2' n d ∧ updateMonths c1 c2 n d = updateMonths c1' c2' n d ∧
  updateYears c1 c2 n d = updateYears c1' c2' n d.
Proof.
  unfold updateMinutes, updateMonths, updateYears.
  split_and!; rewrite ?(take_day_clock c1 c2 c1' c2'); try done.
  - by rewrite (updateHours_clock c1 c2 c1' c2').
  - apply updateHours_clock.
  - apply updateDays_clock.
Qed.
