(* ===== verification/Tasks.v ===== *)
(** * Tasks

    Tasks and the pool of tasks that the workers of a priority or scheduled thread pool share:
    [threads/Task.cpp], [threads/FutureTask.cpp] and [threads/TaskPool.cpp].  What the members
    do between [lock] and [unlock] of the pool's mutexes is one step.  A task is its fields and
    its address; what a timer answers is an argument, since it is computed in [double]. *)

From S2P Require Import Prelude.

(** ** Tasks *)

Record Task := mkTask {
  address : Z; tunit : Z; ttype : Z; priority : Z; cleanUp : bool; isFuture : bool; hdlr : bool;
  (* the object's class derives from FutureTask *)
  future_object : bool }.
Definition Task_new (address : Z) : Task := mkTask address (-1) (-1) 0 false false false false.
Definition setTunitType (u t : Z) (k : Task) : Task := mkTask (address k) u t (priority k) false (isFuture k) (hdlr k) (future_object k).
Definition setPriority (p : Z) (k : Task) : Task := mkTask (address k) (-1) (-1) p false (isFuture k) (hdlr k) (future_object k).
Definition set_schedule (u t p : Z) (k : Task) : Task := mkTask (address k) u t p (cleanUp k) (isFuture k) (hdlr k) (future_object k).
Definition set_isFuture (k : Task) : Task := mkTask (address k) (tunit k) (ttype k) (priority k) (cleanUp k) true (hdlr k) (future_object k).
(** [operator<], on tasks. *)
Definition task_lt (a b : Task) : bool := priority a <? priority b.
#[export] Instance Task_eq_dec : EqDecision Task.
Proof. solve_decision. Defined.

(** [TimeUnit]. *)
Definition NANOSECONDS := 0.
Definition MICROSECONDS := 1.
Definition MILLISECONDS := 2.
Definition SECONDS := 3.
Definition MINUTES := 4.
Definition HOURS := 5.
Definition DAYS := 6.

(** What the functions of a timer that is started return. *)
Record Elapsed := { elapsedNanoSeconds : Z; elapsedMicroSeconds : Z; elapsedMilliSeconds : Z; elapsedSeconds : Z }.

Definition isWaitOver (timer : Elapsed) (k : Task) : bool :=
  if ttype k =? NANOSECONDS then tunit k <=? elapsedNanoSeconds timer
  else if ttype k =? MICROSECONDS then tunit k <=? elapsedMicroSeconds timer
  else if ttype k =? MILLISECONDS then tunit k <=? elapsedMilliSeconds timer
  else if ttype k =? SECONDS then tunit k <=? elapsedSeconds timer
  else if ttype k =? MINUTES then
    let diff := Z.quot (elapsedSeconds timer) 60 in
    let diff := Z.quot diff 60 in tunit k <=? diff
  else if ttype k =? HOURS then tunit k <=? Z.quot (elapsedSeconds timer) 3600
  else if ttype k =? DAYS then tunit k <=? Z.quot (elapsedSeconds timer) 86400
  else false.

(** [FutureTask] inherits from [Task] in private, so that the [dynamic_cast] of a pointer to
    the [Task] finds no [FutureTask], whatever the object is. *)
Definition public_base : bool := false.
Definition cast_FutureTask (k : Task) : bool := future_object k && public_base.
(** What a worker calls: [run], or [call] with the result and completion stored. *)
Inductive task_action := Run | Call.
Definition action_of (k : Task) : task_action := if negb (isFuture k) then Run else if cast_FutureTask k then Call else Run.
(** Whether the handler of an exception completes the task. *)
Definition completes_on_error (k : Task) : bool := isFuture k && cast_FutureTask k.
(** What happens to the object afterwards. *)
Inductive disposal := Kept | Reused | Deleted.
Definition dispose (k : Task) : disposal := if cleanUp k then if hdlr k then Reused else Deleted else Kept.

(** ** The pool *)

(** [scheduled]: the vectors [scheduledtasks] and [scheduledTimers], which have the same length. *)
Record TaskPool := mkTaskPool {
  tasks : list Task; ptasks : list Task; scheduled : list (Task * Z); count : Z;
  prioritybased : bool; allowScheduledTasks : bool; pool_runFlag : bool; pool_started : bool }.
Definition TaskPool_new : TaskPool := mkTaskPool [] [] [] 0 false false false false.
Definition TaskPool_init (prio sched : bool) (p : TaskPool) : TaskPool :=
  mkTaskPool (tasks p) (ptasks p) (scheduled p) 0 prio sched true false.
(** Starts the thread of [run], once. *)
Definition TaskPool_start (p : TaskPool) : TaskPool :=
  mkTaskPool (tasks p) (ptasks p) (scheduled p) (count p) (prioritybased p) (allowScheduledTasks p) (pool_runFlag p) true.
Definition set_tasks (t q : list Task) (n : Z) (p : TaskPool) : TaskPool :=
  mkTaskPool t q (scheduled p) n (prioritybased p) (allowScheduledTasks p) (pool_runFlag p) (pool_started p).
Definition set_scheduled (t : list Task) (l : list (Task * Z)) (p : TaskPool) : TaskPool :=
  mkTaskPool t (ptasks p) l (count p) (prioritybased p) (allowScheduledTasks p) (pool_runFlag p) (pool_started p).

Definition addTask (k : Task) (p : TaskPool) : TaskPool := set_tasks (tasks p ++ [k]) (ptasks p) (count p + 1) p.
Definition addPTask (k : Task) (p : TaskPool) : TaskPool := set_tasks (tasks p) (k :: ptasks p) (count p + 1) p.
(** The timer is started at [now]. *)
Definition addSTask (now : Z) (k : Task) (p : TaskPool) : TaskPool :=
  if (0 <=? ttype k) && (ttype k <=? 6) && (0 <? tunit k) then set_scheduled (tasks p) (scheduled p ++ [(k, now)]) p else p.

(** [ptasks] is a [std::priority_queue<Task*>], which compares the pointers: its top is the
    highest address.  The list is what is in it, in no particular order. *)
Fixpoint take_top (l : list Task) : option (Task * list Task) :=
  match l with
  | [] => None
  | k :: l =>
      match take_top l with
      | None => Some (k, [])
      | Some (m, r) => if address m <? address k then Some (k, l) else Some (m, k :: r)
      end
  end.
Definition getTask (p : TaskPool) : option Task * TaskPool :=
  if negb (prioritybased p) then
    match tasks p with
    | k :: r => (Some k, set_tasks r (ptasks p) (count p - 1) p)
    | [] => (None, p)
    end
  else
    match take_top (ptasks p) with
    | Some (k, r) => (Some k, set_tasks (tasks p) r (count p - 1) p)
    | None => (None, p)
    end.
Definition tasksPending (p : TaskPool) : bool :=
  (if negb (prioritybased p) then negb (bool_decide (tasks p = [])) else negb (bool_decide (ptasks p = []))) ||
  negb (bool_decide (scheduled p = [])).
(** Wakes the workers. *)
Definition TaskPool_stop (p : TaskPool) : TaskPool := set_tasks (tasks p) (ptasks p) (count p + 1) p.

(** One round of the thread of [run]: the tasks moved to the queue and those that stay.  The
    round ends behind the task at which [counter] is 100. *)
Section rounds.
Variable elapsed : Z → Elapsed.
Fixpoint schedule_round (n : nat) (l : list (Task * Z)) : list Task * list (Task * Z) :=
  match n, l with
  | S n, (k, start) :: l =>
      let '(moved, rest) := schedule_round n l in
      if isWaitOver (elapsed start) k then (k :: moved, rest) else (moved, (k, start) :: rest)
  | _, _ => ([], l)
  end.
Definition run_round (p : TaskPool) : TaskPool :=
  let '(moved, rest) := schedule_round 101 (scheduled p) in set_scheduled (tasks p ++ moved) rest p.
End rounds.

(** ** Properties *)

Lemma take_top_spec l : match take_top l with
  | Some (m, r) => l ≡ₚ m :: r ∧ Forall (λ k, address k ≤ address m) l
  | None => l = [] end.
Proof.
  induction l as [|k l IH]; cbn; [done|]. destruct (take_top l) as [[m r]|].
  - destruct IH as [Hp Hm]. destruct (Z.ltb_spec (address m) (address k)).
    + split; [done|]. constructor; [lia|]. eapply Forall_impl; [exact Hm|]. cbn. lia.
    + split; [rewrite Hp; apply Permutation_swap|]. by constructor.
  - subst l. split; [done|]. constructor; [lia|done].
Qed.

(** A worker takes the task with the highest address: the priorities play no part. *)
Theorem served_by_address p k p' :
  prioritybased p = true → getTask p = (Some k, p') →
  ptasks p ≡ₚ k :: ptasks p' ∧ Forall (λ x, address x ≤ address k) (ptasks p) ∧ count p' = count p - 1.
Proof.
  intros Hp. unfold getTask. rewrite Hp. cbn [negb]. pose proof (take_top_spec (ptasks p)) as H.
  destruct (take_top (ptasks p)) as [[m r]|]; intros [= <- <-]. destruct H as [H1 H2]. cbn. done.
Qed.
Definition urgent : Task := setPriority 9 (Task_new 1000).
Definition casual : Task := setPriority 1 (Task_new 2000).
Lemma served_by_address_witness :
  task_lt casual urgent = true ∧
  let p := addPTask urgent (addPTask casual (TaskPool_init true false TaskPool_new)) in
  getTask p = (Some casual, snd (getTask p)) ∧ ptasks p ≡ₚ casual :: ptasks (snd (getTask p)).
Proof.
  split; [reflexivity|]. cbn zeta. split; [reflexivity|].
  refine (proj1 (served_by_address (addPTask urgent (addPTask casual (TaskPool_init true false TaskPool_new))) casual _ eq_refl _)). reflexivity.
Defined.

(** The seconds after which a task is due, by the unit of its time. *)
Definition unit_seconds (t : Z) : Z := if t =? SECONDS then 1 else if t =? MINUTES then 3600 else if t =? HOURS then 3600 else 86400.
(** A task is due when its time in seconds, hours or days is over; a minute is an hour. *)
Theorem wait_units (timer : Elapsed) (k : Task) : SECONDS ≤ ttype k ≤ DAYS → 0 < tunit k → 0 ≤ elapsedSeconds timer →
  isWaitOver timer k = (tunit k * unit_seconds (ttype k) <=? elapsedSeconds timer).
Proof.
  unfold isWaitOver, unit_seconds, NANOSECONDS, MICROSECONDS, MILLISECONDS, SECONDS, MINUTES, HOURS, DAYS. intros Ht Hu He.
  assert (ttype k = 3 ∨ ttype k = 4 ∨ ttype k = 5 ∨ ttype k = 6) as [-> | [-> | [-> | ->]]] by lia; cbn [Z.eqb Pos.eqb];
    apply eq_true_iff_eq; rewrite !Z.leb_le; rewrite ?Z.quot_div_nonneg by (try apply Z.quot_pos; lia).
  - lia.
  - Z.to_euclidean_division_equations. lia.
  - Z.to_euclidean_division_equations. lia.
  - Z.to_euclidean_division_equations. lia.
Qed.
Lemma wait_units_witness :
  let timer := {| elapsedNanoSeconds := 0; elapsedMicroSeconds := 0; elapsedMilliSeconds := 0; elapsedSeconds := 60 |} in
  let k := setTunitType 1 MINUTES (Task_new 1) in isWaitOver timer k = (tunit k * unit_seconds (ttype k) <=? 60).
Proof. intros timer k. apply (wait_units timer k); cbn; unfold SECONDS, DAYS, MINUTES; lia. Defined.

(** A round moves the tasks that are due among the first 101, in their order, and looks at no
    other. *)
Theorem round_moves_due elapsed p :
  let due := λ x : Task * Z, isWaitOver (elapsed x.2) x.1 = true in
  let seen := take 101 (scheduled p) in
  tasks (run_round elapsed p) = tasks p ++ map fst (filter due seen) ∧
  scheduled (run_round elapsed p) = filter (λ x, ¬ due x) seen ++ drop 101 (scheduled p) ∧
  count (run_round elapsed p) = count p.
Proof.
  intros due seen. assert (∀ n l, schedule_round elapsed n l = (map fst (filter due (take n l)), filter (λ x, ¬ due x) (take n l) ++ drop n l)) as H.
  { induction n as [|n IH]; intros l; [by rewrite take_0, drop_0|]. destruct l as [|[k s] l]; [done|]. cbn [schedule_round take drop]. rewrite IH.
    unfold due. destruct (isWaitOver (elapsed s) k) eqn:E.
    - rewrite filter_cons_True, filter_cons_False by (cbn; congruence). done.
    - rewrite filter_cons_False, filter_cons_True by (cbn; congruence). done. }
  unfold run_round. rewrite H. done.
Qed.
