(* ===== verification/PoolThread.v ===== *)
(** * PoolThread

    A worker of the thread pool that serves the connections: [PoolThread::run] of
    [threads/PoolThread.cpp], with [addTask] and [stop] as other threads call them.  The
    worker and its callers take turns; a step is what no other thread can see half of.

    The queue is [moodycamel::ConcurrentQueue], which is not the project's: an argument, of which
    the model uses that an element that is taken leaves the queue, and that taking may fail while
    others put elements in. *)

From S2P Require Import Prelude Tasks.

Class ConcurrentQueue := {
  try_dequeue : list (option Task) → option Task → list (option Task) → Prop;
  dequeue_removes q x q' : try_dequeue q x q' → q ≡ₚ x :: q';
  dequeue_some q : q ≠ [] → ∃ x q', try_dequeue q x q' }.
(** The elements one thread puts in come out in their order. *)
Class OneProducer `{ConcurrentQueue} : Prop := dequeue_first q x q' : try_dequeue q x q' → q = x :: q'.

(** ** The worker *)

(** Where it is: before [execute]; at the test of [runFlag]; at the wait for [condVar]; at
    [try_dequeue]; in a task; in the loop behind the main one; at the end; or the process has
    ended, by a null pointer or an exception nothing catches. *)
Inductive place := Created | Top | Waiting | Taking | Running (k : Task) | Draining | Ended | Null_read | Terminated.
(** What the task does. *)
Inductive run_result := Finished | Std_exception | Other_exception.

(** [locked]: a caller is between [enqueue] and [condVar++]; the worker tests [condVar] with the
    mutex held.  [entered]: the tasks of callers that have seen [runFlag] and wait for the mutex;
    [stopping]: the callers of [stop] that do.  [added], [ran] and [dropped] are what happened:
    the tasks put in the queue, those run, in their order, and those taken by the last loop. *)
Record PoolThread := mkPoolThread {
  at_ : place; queue : list (option Task); condVar : Z; taskCount : Z; runFlag : bool; locked : bool;
  entered : list Task; stopping : nat; added : list Task; ran : list Task; dropped : list Task }.
Definition PoolThread_new : PoolThread := mkPoolThread Created [] 0 0 true false [] 0 [] [] [].

(** [execute], once. *)
Definition execute (s : PoolThread) : PoolThread :=
  match at_ s with
  | Created => mkPoolThread Top (queue s) (condVar s) (taskCount s) (runFlag s) (locked s) (entered s) (stopping s) (added s) (ran s) (dropped s)
  | _ => s
  end.
Definition isComplete (s : PoolThread) : bool := match at_ s with Ended => true | _ => false end.

(** [addTask]: the test, then, with the mutex, the queue, and [condVar] with the notification. *)
Definition addTask_enter (k : Task) (s : PoolThread) : PoolThread :=
  if runFlag s then mkPoolThread (at_ s) (queue s) (condVar s) (taskCount s) true (locked s) (k :: entered s) (stopping s) (added s) (ran s) (dropped s)
  else s.
Definition addTask_enqueue (k : Task) (rest : list Task) (s : PoolThread) : PoolThread :=
  mkPoolThread (at_ s) (queue s ++ [Some k]) (condVar s) (taskCount s) (runFlag s) true rest (stopping s) (added s ++ [k]) (ran s) (dropped s).
Definition notify (s : PoolThread) : PoolThread :=
  mkPoolThread (at_ s) (queue s) (condVar s + 1) (taskCount s) (runFlag s) false (entered s) (stopping s) (added s) (ran s) (dropped s).
(** [stop], which does nothing before [execute]. *)
Definition stop_flag (s : PoolThread) : PoolThread :=
  match at_ s with
  | Created => s
  | _ => mkPoolThread (at_ s) (queue s) (condVar s) (taskCount s) false (locked s) (entered s) (S (stopping s)) (added s) (ran s) (dropped s)
  end.
Definition stop_enqueue (s : PoolThread) : PoolThread :=
  mkPoolThread (at_ s) (queue s ++ [None]) (condVar s) (taskCount s) (runFlag s) true (entered s) (pred (stopping s)) (added s) (ran s) (dropped s).

(** What the worker does at each place. *)
Definition go (p : place) (s : PoolThread) : PoolThread :=
  mkPoolThread p (queue s) (condVar s) (taskCount s) (runFlag s) (locked s) (entered s) (stopping s) (added s) (ran s) (dropped s).
Definition take_item (x : option Task) (q : list (option Task)) (s : PoolThread) : PoolThread :=
  match x with
  | Some k => mkPoolThread (Running k) q (condVar s - 1) (taskCount s + 1) (runFlag s) (locked s) (entered s) (stopping s) (added s) (ran s ++ [k]) (dropped s)
  | None => mkPoolThread Top q (condVar s) (taskCount s) (runFlag s) (locked s) (entered s) (stopping s) (added s) (ran s) (dropped s)
  end.
Definition drain_item (x : option Task) (q : list (option Task)) (s : PoolThread) : PoolThread :=
  match x with
  | Some k => mkPoolThread Draining q (condVar s) (taskCount s) (runFlag s) (locked s) (entered s) (stopping s) (added s) (ran s) (k :: dropped s)
  | None => mkPoolThread Null_read q (condVar s) (taskCount s) (runFlag s) (locked s) (entered s) (stopping s) (added s) (ran s) (dropped s)
  end.
Definition after_task (r : run_result) : place := match r with Other_exception => Terminated | _ => Taking end.

Section worker.
Context `{ConcurrentQueue}.
(** What the tasks, code of the application, do. *)
Variable result : Task → run_result.

Inductive thread_step : PoolThread → PoolThread → Prop :=
| worker_top s : at_ s = Top → thread_step s (go (if runFlag s then Waiting else Draining) s)
| worker_wakes s : at_ s = Waiting → locked s = false → 0 < condVar s → thread_step s (go Taking s)
| worker_takes s x q : at_ s = Taking → try_dequeue (queue s) x q → thread_step s (take_item x q s)
| worker_finds_none s : at_ s = Taking → thread_step s (go Top s)
| worker_runs s k : at_ s = Running k → thread_step s (go (after_task (result k)) s)
| worker_drains s x q : at_ s = Draining → try_dequeue (queue s) x q → thread_step s (drain_item x q s)
| worker_ends s : at_ s = Draining → thread_step s (go Ended s).

Inductive step : PoolThread → PoolThread → Prop :=
| step_worker s s' : thread_step s s' → step s s'
| step_execute s : step s (execute s)
| step_enter k s : step s (addTask_enter k s)
| step_enqueue k l1 l2 s : locked s = false → entered s = l1 ++ k :: l2 → step s (addTask_enqueue k (l1 ++ l2) s)
| step_notify s : locked s = true → step s (notify s)
| step_stop s : step s (stop_flag s)
| step_stop_enqueue s : locked s = false → (0 < stopping s)%nat → step s (stop_enqueue s).
Definition reachable (s : PoolThread) : Prop := rtc step PoolThread_new s.

(** ** The invariant *)

Definition tasks_of (q : list (option Task)) : list Task := omap id q.
Definition queued (s : PoolThread) : list Task := tasks_of (queue s).
Definition held (s : PoolThread) : Z := if locked s then 1 else 0.
Definition going (p : place) : Prop := match p with Draining | Ended | Null_read => False | _ => True end.
Record thread_ok (s : PoolThread) : Prop := {
  ok_tasks : added s ≡ₚ ran s ++ dropped s ++ queued s;
  ok_cond : Z.of_nat (length (queue s)) ≤ condVar s + held s;
  ok_running : runFlag s = true → dropped s = [] ∧ condVar s + held s = Z.of_nat (length (queue s)) ∧ (None ∉ queue s) ∧ stopping s = 0%nat ∧ going (at_ s);
  ok_count : taskCount s = Z.of_nat (length (ran s)) }.

Lemma thread_ok_new : thread_ok PoolThread_new.
Proof. split; try done. intros _. split_and!; try done. apply not_elem_of_nil. Qed.

Lemma tasks_of_app q1 q2 : tasks_of (q1 ++ q2) = tasks_of q1 ++ tasks_of q2.
Proof. apply omap_app. Qed.
Lemma tasks_of_removed q x q' : q ≡ₚ x :: q' → tasks_of q ≡ₚ match x with Some k => [k] | None => [] end ++ tasks_of q'.
Proof. unfold tasks_of. intros ->. by destruct x. Qed.

Lemma thread_ok_worker s s' : thread_step s s' → thread_ok s → thread_ok s'.
Proof.
  intros Hs [Ht Hc Hr Hn]. destruct Hs as [s E|s E El Ec|s x q E Ed|s E|s k E|s x q E Ed|s E].
  - split; try done. cbn. intros Hf. rewrite Hf. destruct (Hr Hf) as (?&?&?&?&_). by split_and!.
  - split; try done. intros Hf. destruct (Hr Hf) as (?&?&?&?&_). by split_and!.
  - apply dequeue_removes in Ed as Ep. pose proof (Permutation_length Ep) as Hl. cbn in Hl. pose proof (tasks_of_removed _ _ _ Ep) as Hw.
    assert (runFlag s = true → (None ∉ q) ∧ x ≠ None) as Hnone.
    { intros Hf. destruct (Hr Hf) as (_&_&Hno&_). split; intros He; apply Hno; rewrite Ep; [by right|subst; by left]. }
    destruct x as [k|]; split; cbn [take_item queue condVar runFlag dropped ran added taskCount stopping at_]; unfold queued, held in *; cbn [take_item queue locked].
    + rewrite Ht, Hw. cbn. rewrite <- app_assoc. cbn. by rewrite (Permutation_middle (dropped s)).
    + lia.
    + intros Hf. destruct (Hr Hf) as (?&?&?&?&_). destruct (Hnone Hf). split_and!; try done. lia.
    + rewrite Hn, length_app. cbn. lia.
    + by rewrite Ht, Hw.
    + lia.
    + intros Hf. by destruct (Hnone Hf).
    + done.
  - split; try done. intros Hf. destruct (Hr Hf) as (?&?&?&?&_). by split_and!.
  - split; try done. intros Hf. destruct (Hr Hf) as (?&?&?&?&_). split_and!; try done. cbn. by destruct (result k).
  - assert (runFlag s = false) as Hf. { destruct (runFlag s) eqn:Hf; [|done]. destruct (Hr eq_refl) as (_&_&_&_&Hg). by rewrite E in Hg. }
    apply dequeue_removes in Ed as Ep. pose proof (Permutation_length Ep) as Hl. cbn in Hl. pose proof (tasks_of_removed _ _ _ Ep) as Hw.
    destruct x as [k|]; split; cbn [drain_item queue condVar runFlag dropped ran added taskCount]; unfold queued, held in *; cbn [drain_item queue locked]; try (rewrite Hf; done); try lia.
    + rewrite Ht, Hw. cbn. by rewrite (Permutation_middle (dropped s)).
    + by rewrite Ht, Hw.
  - assert (runFlag s = false) as Hf. { destruct (runFlag s) eqn:Hf; [|done]. destruct (Hr eq_refl) as (_&_&_&_&Hg). by rewrite E in Hg. }
    split; try done. cbn. by rewrite Hf.
Qed.

Lemma thread_ok_step s s' : step s s' → thread_ok s → thread_ok s'.
Proof.
  intros Hs Hok. destruct Hs as [s s' Hs|s|k s|k l1 l2 s El Ee|s El|s|s El Ep]; [by eapply thread_ok_worker|..]; pose proof Hok as [Ht Hc Hr Hn].
  - unfold execute. destruct (at_ s) eqn:E; try exact Hok. by split.
  - unfold addTask_enter. destruct (runFlag s) eqn:Hf; [|done]. by split.
  - split; cbn; unfold queued, held in *; cbn; rewrite ?El in *.
    + rewrite tasks_of_app. cbn. rewrite Ht, !app_assoc. done.
    + rewrite length_app. cbn. lia.
    + intros Hf. destruct (Hr Hf) as (?&?&Hno&?&?). split_and!; try done; [rewrite length_app; cbn; lia|]. rewrite elem_of_app. intros [?|He]; [done|]. by apply list_elem_of_singleton in He.
    + done.
  - split; cbn; unfold queued, held in *; cbn; rewrite ?El in *; try done; [lia|]. intros Hf. destruct (Hr Hf) as (?&?&?&?&?). split_and!; try done. lia.
  - unfold stop_flag. destruct (at_ s) eqn:E; try exact Hok; by split.
  - split; cbn; unfold queued, held in *; cbn; rewrite ?El in *; try done.
    + rewrite tasks_of_app. cbn. by rewrite app_nil_r.
    + rewrite length_app. cbn. lia.
    + intros Hf. destruct (Hr Hf) as (?&?&?&Hz&?). lia.
Qed.
Lemma reachable_ok s : reachable s → thread_ok s.
Proof. apply (rtc_ind_r (λ s, thread_ok s)); [apply thread_ok_new|]. intros y z _ Hs. by apply thread_ok_step. Qed.

(** ** What the worker promises *)

(** C10: Until [stop], no task is lost, repeated or kept waiting, however the worker and the
    callers of [addTask] interleave and whatever order the queue has: the tasks put in are
    those that were run and those in the queue, each once; [condVar] is the number in the
    queue, less one while a caller is about to count its own; so a worker that waits beside
    a task goes on, and none is given up. *)
Theorem tasks_run_once (s : PoolThread) : reachable s → runFlag s = true →
  added s ≡ₚ ran s ++ queued s ∧ dropped s = [] ∧
  condVar s + held s = Z.of_nat (length (queued s)) ∧
  (at_ s = Waiting → queued s ≠ [] → locked s = false → thread_step s (go Taking s)).
Proof.
  intros Hs Hf. apply reachable_ok in Hs as [Ht _ Hr _]. destruct (Hr Hf) as (Hd & Hc & Hno & _).
  assert (length (queued s) = length (queue s)) as Hl.
  { unfold queued, tasks_of. clear -Hno. induction (queue s) as [|[k|] q IH]; [done| |]; cbn; [f_equal; apply IH; intros ?; apply Hno; by right|].
    exfalso. apply Hno. by left. }
  rewrite Hd in Ht. rewrite Hl. split_and!; try done. intros Ew Hne Hk. apply worker_wakes; [done..|].
  unfold held in Hc. rewrite Hk in Hc. destruct (queued s); [done|]. cbn in Hl. lia.
Qed.

Lemma never_terminated s : (∀ k, result k ≠ Other_exception) → reachable s → at_ s ≠ Terminated.
Proof.
  intros Hres. apply (rtc_ind_r (λ s, at_ s ≠ Terminated)); [done|]. intros y z _ Hs IH.
  destruct Hs as [y z Hw|y|k y|k l1 l2 y El Ee|y El|y|y El Ep]; try done.
  - destruct Hw as [y E|y E El Ec|y x q E Ed|y E|y k E|y x q E Ed|y E]; try done.
    + cbn. by case_match.
    + by destruct x.
    + cbn. specialize (Hres k). by destruct (result k).
    + by destruct x.
  - unfold execute. case_match; cbn; congruence.
  - unfold addTask_enter. case_match; cbn; congruence.
  - unfold stop_flag. case_match; cbn; congruence.
Qed.

Lemma empties_queue n : ∀ s, thread_ok s → runFlag s = true → locked s = false → at_ s = Taking → length (queue s) = n → (∀ k, result k ≠ Other_exception) →
  ∃ s', rtc step s s' ∧ runFlag s' = true ∧ queue s' = [] ∧ added s' = added s.
Proof.
  induction n as [|n IH]; intros s Hok Hf Hl Ha Hn Hres.
  - exists s. split_and!; try done. by apply nil_length_inv.
  - destruct (dequeue_some (queue s)) as (x & q & Ed); [by destruct (queue s)|].
    apply dequeue_removes in Ed as Ep. destruct (ok_running _ Hok Hf) as (_ & _ & Hno & _).
    destruct x as [k|]; [|exfalso; apply Hno; rewrite Ep; by left].
    set (s1 := take_item (Some k) q s). set (s2 := go Taking s1).
    assert (thread_step s s1) as W1 by (by apply worker_takes).
    assert (thread_step s1 s2) as W2. { replace s2 with (go (after_task (result k)) s1); [by apply worker_runs|]. unfold s2. specialize (Hres k). by destruct (result k). }
    destruct (IH s2) as (s' & Hr & ? & ? & Hadd); try done.
    + eapply thread_ok_worker, (thread_ok_worker s); done.
    + apply Permutation_length in Ep. cbn in Ep |- *. lia.
    + exists s'. split_and!; try done. eapply rtc_l; [by apply step_worker|]. eapply rtc_l; [by apply step_worker|]. done.
Qed.

Lemma reaches_taking s : thread_ok s → runFlag s = true → locked s = false → at_ s ≠ Terminated → queue s ≠ [] → (∀ k, result k ≠ Other_exception) →
  ∃ s', rtc step s s' ∧ at_ s' = Taking ∧ runFlag s' = true ∧ locked s' = false ∧ queue s' = queue s ∧ added s' = added s.
Proof.
  intros Hok Hf Hl Ht Hq Hres. destruct (ok_running _ Hok Hf) as (_ & Hc & _ & _ & Hg).
  unfold held in Hc. rewrite Hl in Hc. assert (0 < condVar s) as Hpos by (destruct (queue s); [done|cbn in Hc; lia]).
  assert (∀ y, y = go Waiting s → rtc step y (go Taking s)) as HW.
  { intros y ->. apply rtc_once, step_worker. by apply (worker_wakes (go Waiting s)). }
  assert (∀ y, y = go Top s → rtc step y (go Taking s)) as HT.
  { intros y ->. eapply rtc_l; [apply step_worker, worker_top; done|]. cbn. rewrite Hf. by apply HW. }
  destruct (at_ s) as [| | | |k| | | |] eqn:E; try done.
  - exists (go Taking s). split_and!; try done. eapply rtc_l; [apply (step_execute s)|]. apply HT. unfold execute. by rewrite E.
  - exists (go Taking s). split_and!; try done. apply HT. unfold go. rewrite <- E. by destruct s.
  - exists (go Taking s). split_and!; try done. apply HW. unfold go. rewrite <- E. by destruct s.
  - by exists s.
  - exists (go Taking s). split_and!; try done. apply rtc_once, step_worker.
    replace (go Taking s) with (go (after_task (result k)) s); [by apply worker_runs|]. specialize (Hres k). by destruct (result k).
Qed.

(** C11: Every task is run: as long as nobody has called [stop] and no task ends the process, the
    worker can at any time go on to run all the tasks put in so far, with no help but that the
    caller that holds the mutex goes on too; nothing it or others did before prevents it. *)
Theorem all_tasks_run (s : PoolThread) : reachable s → runFlag s = true → (∀ k, result k ≠ Other_exception) →
  ∃ s', rtc step s s' ∧ queue s' = [] ∧ added s' = added s ∧ ran s' ≡ₚ added s.
Proof.
  intros Hs Hf Hres. pose proof (never_terminated s Hres Hs) as Ht. apply reachable_ok in Hs as Hok.
  assert (∃ s1, rtc step s s1 ∧ thread_ok s1 ∧ runFlag s1 = true ∧ locked s1 = false ∧ at_ s1 ≠ Terminated ∧ queue s1 = queue s ∧ added s1 = added s) as (s1 & R1 & Ok1 & F1 & L1 & T1 & Q1 & A1).
  { destruct (locked s) eqn:El; [|by exists s]. exists (notify s). split_and!; try done; [by apply rtc_once, step_notify|].
    by apply (thread_ok_step s _ (step_notify s El)). }
  assert (∃ s', rtc step s1 s' ∧ runFlag s' = true ∧ queue s' = [] ∧ added s' = added s1) as (s' & R2 & F2 & Q2 & A2).
  { destruct (decide (queue s1 = [])) as [|Hne]; [by exists s1|].
    destruct (reaches_taking s1) as (s2 & R2 & E2 & F2 & L2 & Q2 & A2); try done.
    assert (thread_ok s2) as Ok2. { revert Ok1. clear -R2. induction R2 as [|x y z Hx _ IH]; intros Hx0; [done|]. apply IH. by eapply thread_ok_step. }
    destruct (empties_queue (length (queue s2)) s2) as (s3 & R3 & F3 & Q3 & A3); try done.
    exists s3. split_and!; try done; [by etrans|congruence]. }
  exists s'. assert (rtc step s s') as R by (by etrans). split_and!; try done; [congruence|].
  assert (reachable s') as Hs' by (unfold reachable in *; by etrans).
  destruct (tasks_run_once s' Hs' F2) as (Hp & _). unfold queued in Hp. rewrite Q2 in Hp. cbn in Hp. rewrite app_nil_r in Hp.
  rewrite <- A1, <- A2. symmetry. exact Hp.
Qed.

(** C16: If one thread puts the tasks in, as the dispatcher does, they are run in its order: at any
    time those run are the first of those put in, and until the last loop the others wait in
    their order. *)
Theorem tasks_run_in_order `{!OneProducer} (s : PoolThread) : reachable s →
  ran s `prefix_of` added s ∧ (going (at_ s) → added s = ran s ++ queued s).
Proof.
  apply (rtc_ind_r (λ s, ran s `prefix_of` added s ∧ (going (at_ s) → added s = ran s ++ queued s))); [done|].
  intros y z _ Hs [IHp IH].
  destruct Hs as [y z Hw|y|k y|k l1 l2 y El Ee|y El|y|y El Ep].
  - destruct Hw as [y E|y E El Ec|y x q E Ed|y E|y k E|y x q E Ed|y E]; rewrite ?E in IH; cbn; try (split; [done|]); try by intros _; apply IH.
    + apply dequeue_first in Ed. specialize (IH I). unfold queued in *. rewrite Ed in IH. destruct x as [k|]; cbn in IH |- *.
      * unfold queued. cbn. rewrite IH. split; [|intros _; by rewrite <- app_assoc]. exists (tasks_of q). by rewrite <- app_assoc.
      * by split; [|intros _].
    + by destruct x.
    + done.
  - unfold execute. destruct (at_ y) eqn:E; rewrite ?E; by split.
  - unfold addTask_enter. case_match; by split.
  - cbn. split; [by apply prefix_app_r|]. intros Hg. unfold queued. cbn. rewrite tasks_of_app. cbn. rewrite app_assoc. f_equal. by apply IH.
  - by split.
  - unfold stop_flag. destruct (at_ y) eqn:E; cbn; rewrite ?E; by split.
  - cbn. split; [done|]. intros Hg. unfold queued. cbn. rewrite tasks_of_app. cbn. rewrite app_nil_r. by apply IH.
Qed.
End worker.

(** ** Queues that are first in, first out *)

#[export] Instance fifo : ConcurrentQueue.
Proof.
  refine {| try_dequeue q x q' := q = x :: q' |}.
  - by intros q x q' ->.
  - intros [|x q] Hq; [done|]. by exists x, q.
Defined.
#[export] Instance fifo_order : OneProducer.
Proof. intros q x q' H; exact H. Qed.

Definition fine : Task → run_result := λ _, Finished.
Definition one : Task := Task_new 1.
Definition two : Task := Task_new 2.
(** A worker in the first of two tasks. *)
Definition busy : PoolThread :=
  take_item (Some one) [] (go Taking (go Waiting (notify (addTask_enqueue one [] (addTask_enter one (execute PoolThread_new)))))).
Lemma busy_reachable : reachable fine busy.
Proof.
  eapply rtc_l; [apply step_execute|]. eapply rtc_l; [apply (step_enter fine one)|]. eapply rtc_l; [by apply (step_enqueue fine one [] [])|].
  eapply rtc_l; [by apply step_notify|]. eapply rtc_l; [by apply step_worker, worker_top|]. eapply rtc_l; [by apply step_worker, worker_wakes|].
  apply rtc_once, step_worker. by apply worker_takes.
Qed.
Lemma tasks_run_once_witness :
  reachable fine busy ∧ added busy ≡ₚ ran busy ++ queued busy.
Proof. split; [apply busy_reachable|]. refine (proj1 (tasks_run_once fine busy busy_reachable eq_refl)). Defined.
Lemma all_tasks_run_witness : ∃ s', rtc (step fine) busy s' ∧ queue s' = [] ∧ added s' = added busy ∧ ran s' ≡ₚ added busy.
Proof. apply (all_tasks_run fine busy busy_reachable eq_refl). intros k. discriminate. Defined.
Lemma tasks_run_in_order_witness : ran busy `prefix_of` added busy.
Proof. refine (proj1 (tasks_run_in_order fine busy busy_reachable)). Defined.

(** Stopping a worker is not safe, even when the queue keeps its order and every task ends well.
    [joinAll] calls [stop] every second until the worker has ended: a second null pointer is put in
    the queue of a worker whose task takes longer, and the last loop reads the fields of
    the task it points to.  And a task whose [addTask] has begun when [stop] is called is put behind
    the first null pointer and is not run. *)
Theorem stop_is_unsafe :
  (∃ s, reachable fine s ∧ at_ s = Null_read ∧ queued s = []) ∧
  (∃ s, reachable fine s ∧ at_ s = Ended ∧ two ∈ added s ∧ two ∈ dropped s ∧ two ∉ ran s).
Proof.
  split.
  - set (s1 := notify (stop_enqueue (notify (stop_enqueue (stop_flag (stop_flag busy)))))).
    exists (drain_item None [] (go Draining (take_item None [None] (go Taking s1)))). split_and!; try done.
    apply (transitivity busy_reachable).
    eapply rtc_l; [apply step_stop|]. eapply rtc_l; [apply step_stop|]. eapply rtc_l; [apply step_stop_enqueue; [done|cbn; lia]|]. eapply rtc_l; [by apply step_notify|].
    eapply rtc_l; [apply step_stop_enqueue; [done|cbn; lia]|]. eapply rtc_l; [by apply step_notify|].
    eapply rtc_l; [by apply step_worker, (worker_runs fine s1 one)|]. eapply rtc_l; [by apply step_worker, worker_takes|].
    eapply rtc_l; [by apply step_worker, worker_top|]. apply rtc_once, step_worker. by apply worker_drains.
  - set (s1 := notify (addTask_enqueue two [] (notify (stop_enqueue (stop_flag (addTask_enter two busy)))))).
    exists (go Ended (drain_item (Some two) [] (go Draining (take_item None [Some two] (go Taking s1))))).
    split_and!; try done; [|by right; left|by left|].
    + apply (transitivity busy_reachable).
      eapply rtc_l; [apply (step_enter fine two)|]. eapply rtc_l; [apply step_stop|]. eapply rtc_l; [apply step_stop_enqueue; [done|cbn; lia]|]. eapply rtc_l; [by apply step_notify|].
      eapply rtc_l; [by apply (step_enqueue fine two [] [])|]. eapply rtc_l; [by apply step_notify|].
      eapply rtc_l; [by apply step_worker, (worker_runs fine s1 one)|]. eapply rtc_l; [by apply step_worker, worker_takes|].
      eapply rtc_l; [by apply step_worker, worker_top|]. eapply rtc_l; [by apply step_worker, worker_drains|]. by apply rtc_once, step_worker, worker_ends.
    + cbn. rewrite list_elem_of_singleton. done.
Qed.
