(* ===== verification/ThreadPool.v ===== *)
(** * ThreadPool

    The thread pool of [threads/ThreadPool.cpp]: which worker a task is given to, for the pool that
    serves the connections; and the workers of a priority or scheduled pool, which share a
    [TaskPool] ([PoolThread::runWithTaskPool]), with [joinAll] and the destructor. *)

From S2P Require Import Prelude Tasks PoolThread.

(** ** The choice of a worker *)

(** [getTid] of a task is the number its connection has kept, -1 before the first task. *)
Definition tid_of (tids : gmap Z Z) (conn : Z) : Z := default (-1) (tids !! conn).
(** The number of the next worker, [currentThread] counted up, and its remainder put back. *)
Definition next_worker (maxThreads currentThread : Z) : outcome (Z * Z) :=
  if maxThreads =? 0 then Undefined
  else Ret (Z.rem currentThread maxThreads, Z.rem (wraps 32 (currentThread + 1)) maxThreads).
(** [submit]: the worker whose [addTask] is called, [currentThread] and the numbers kept. *)
Definition submit (maxThreads : Z) (conn : Z) (s : Z * gmap Z Z) : outcome (Z * (Z * gmap Z Z)) :=
  let '(currentThread, tids) := s in
  let at_worker := λ id s, if (0 <=? id) && (id <? maxThreads) then Ret (id, s) else Throw Out_of_range in
  if negb (tid_of tids conn =? -1) then at_worker (tid_of tids conn) s
  else
    '(id, currentThread) ← next_worker maxThreads currentThread;
    at_worker id (currentThread, <[conn := id]> tids).
Fixpoint submit_all (maxThreads : Z) (conns : list Z) (s : Z * gmap Z Z) : outcome (list (Z * Z)) :=
  match conns with
  | [] => Ret []
  | c :: conns => '(id, s) ← submit maxThreads c s; l ← submit_all maxThreads conns s; Ret ((c, id) :: l)
  end.

(** *** The counter under concurrent calls *)

(** A call that has counted up and has its number, with the value it read last. *)
Inductive caller := Outside | Counted (id : Z) | Read (id old : Z).
Section counter.
Variable maxThreads : Z.
Inductive counter_step : Z * list caller → Z * list caller → Prop :=
| count_up c l1 l2 : counter_step (c, l1 ++ Outside :: l2) (wraps 32 (c + 1), l1 ++ Counted (Z.rem c maxThreads) :: l2)
| count_read c id l1 l2 : counter_step (c, l1 ++ Counted id :: l2) (c, l1 ++ Read id c :: l2)
| count_put c id l1 l2 : counter_step (c, l1 ++ Read id c :: l2) (Z.rem c maxThreads, l1 ++ Outside :: l2)
(* the weak exchange may also fail when the values are equal *)
| count_again c id old l1 l2 : counter_step (c, l1 ++ Read id old :: l2) (c, l1 ++ Read id c :: l2).

Definition inside (x : caller) : bool := match x with Outside => false | _ => true end.
Definition caller_ok (x : caller) : Prop := match x with Outside => True | Counted id | Read id _ => 0 ≤ id < maxThreads end.
Definition calls (l : list caller) : Z := Z.of_nat (length (filter (λ x, inside x = true) l)).
Lemma calls_app l1 l2 : calls (l1 ++ l2) = calls l1 + calls l2.
Proof. unfold calls. rewrite filter_app, length_app. lia. Qed.
Lemma calls_cons x l : calls (x :: l) = (if inside x then 1 else 0) + calls l.
Proof. unfold calls. destruct (inside x) eqn:E; [rewrite filter_cons_True by done; cbn; lia|rewrite filter_cons_False by congruence; done]. Qed.
Lemma calls_bound l : 0 ≤ calls l ≤ Z.of_nat (length l).
Proof. unfold calls. pose proof (length_filter (λ x, inside x = true) l). lia. Qed.

(** C18: However many threads call [submit] at once, the counter stays below the number of workers and
    the calls under way, so that it neither overflows nor turns negative, every call gets the
    number of a worker, and with no call under way the counter is such a number itself. *)
Theorem counter_bounds (n : nat) (c : Z) (l : list caller) :
  0 < maxThreads → maxThreads + Z.of_nat n < 2 ^ 31 →
  rtc counter_step (0, replicate n Outside) (c, l) →
  0 ≤ c < maxThreads + calls l ∧ Forall caller_ok l ∧ (Forall (λ x, x = Outside) l → c < maxThreads).
Proof.
  intros Hm Hn Hr.
  assert (∀ s, rtc counter_step (0, replicate n Outside) s → (0 ≤ s.1 < maxThreads + calls s.2 ∧ length s.2 = n) ∧ Forall caller_ok s.2) as H.
  { apply (rtc_ind_r (λ s, (0 ≤ s.1 < maxThreads + calls s.2 ∧ length s.2 = n) ∧ Forall caller_ok s.2)).
    - cbn [fst snd]. pose proof (calls_bound (replicate n Outside)). rewrite length_replicate. split; [lia|]. by apply Forall_replicate.
    - clear c l Hr. intros s s' _ Hs [[Hc Hl] Hf].
      destruct Hs as [c l1 l2|c id l1 l2|c id l1 l2|c id old l1 l2]; cbn [fst snd] in *; rewrite calls_app, calls_cons in *; rewrite length_app in *; cbn [inside length] in *;
        apply Forall_app in Hf as [Hf1 Hf]; apply Forall_cons in Hf as [Hx Hf]; cbn [caller_ok] in Hx;
        pose proof (calls_bound l1); pose proof (calls_bound l2).
      + rewrite wraps_small by lia. split; [lia|].
        apply Forall_app. split; [done|]. constructor; [|done]. cbn. apply Z.rem_bound_pos; lia.
      + split; [lia|]. apply Forall_app. split; [done|]. by constructor.
      + pose proof (Z.rem_bound_pos c maxThreads). split; [lia|]. apply Forall_app. split; [done|]. by constructor.
      + split; [lia|]. apply Forall_app. split; [done|]. by constructor. }
  destruct (H _ Hr) as [[H1 _] H2]. cbn [fst snd] in *.
  split_and!; try done; try lia. intros Ho. assert (calls l = 0) as Hz; [|lia].
  unfold calls. assert (filter (λ x, inside x = true) l = []) as ->; [|done]. clear -Ho. induction Ho as [|x l -> _ IH]; [done|]. by rewrite filter_cons_False.
Qed.
End counter.
Lemma counter_bounds_witness :
  let l := [Read 0 2; Counted 1] in
  0 ≤ 2 < 2 + calls l ∧ Forall (caller_ok 2) l.
Proof.
  assert (rtc (counter_step 2) (0, replicate 2 Outside) (2, [Read 0 2; Counted 1])) as Hr.
  { eapply rtc_l; [apply (count_up 2 0 [] [Outside])|]. eapply rtc_l; [apply (count_up 2 1 [Counted 0] [])|]. apply rtc_once, (count_read 2 2 0 [] [Counted 1]). }
  pose proof (counter_bounds 2 2 2 [Read 0 2; Counted 1] ltac:(lia) ltac:(lia) Hr) as (H1 & H2 & _). split; [exact H1|exact H2].
Defined.

(** *** One dispatcher *)

(** The connections in the order of their first task, and the place of one of them. *)
Definition newcomer (seen : list Z) (c : Z) : list Z := if decide (c ∈ seen) then seen else seen ++ [c].
Definition newcomers (conns : list Z) : list Z := foldl newcomer [] conns.
Definition place_of (c : Z) (seen : list Z) : option (nat * Z) := list_find (λ x, c = x) seen.
Definition rank (c : Z) (seen : list Z) : Z := Z.of_nat (default 0%nat (fst <$> place_of c seen)).

Lemma newcomer_prefix l : ∀ seen, seen `prefix_of` foldl newcomer seen l.
Proof. induction l as [|c l IH]; intros seen; cbn; [done|]. etrans; [|apply IH]. unfold newcomer. case_decide; [done|by apply prefix_app_r]. Qed.
Lemma find_prefix c seen seen' : c ∈ seen → seen `prefix_of` seen' → place_of c seen' = place_of c seen.
Proof.
  intros Hc [k ->]. destruct (list_find_elem_of (λ x, c = x) seen c Hc eq_refl) as [[i y] E]. unfold place_of. rewrite E.
  by apply list_find_app_l.
Qed.
Lemma rank_prefix c seen seen' : c ∈ seen → seen `prefix_of` seen' → rank c seen' = rank c seen.
Proof. intros Hc Hp. unfold rank. by rewrite (find_prefix c seen seen'). Qed.
Lemma find_new c seen : c ∉ seen → place_of c (seen ++ [c]) = Some (length seen, c).
Proof.
  intros Hc. unfold place_of. apply list_find_Some. split_and!; [by apply list_lookup_middle|done|].
  intros j y Hj Hlt. rewrite lookup_app_l in Hj by done. intros <-. apply Hc. by eapply list_elem_of_lookup_2.
Qed.

(** C17: One thread that hands out tasks, as the event loop does, spreads the connections evenly and
    keeps them together: the task of a connection goes to the worker whose number is the place
    of the connection among those seen, modulo the number of workers; so all tasks of a
    connection go to one worker, no number is out of range, and any two workers differ by
    at most one in the connections they have. *)
Theorem connections_keep_worker (maxThreads : Z) (conns : list Z) : 0 < maxThreads < 2 ^ 31 →
  submit_all maxThreads conns (0, ∅) = Ret (map (λ c, (c, rank c (newcomers conns) mod maxThreads)) conns).
Proof.
  intros Hm.
  assert (∀ l seen s, s.1 = Z.of_nat (length seen) mod maxThreads → (∀ c, s.2 !! c = (λ p, Z.of_nat p.1 mod maxThreads) <$> place_of c seen) →
    submit_all maxThreads l s = Ret (map (λ c, (c, rank c (foldl newcomer seen l) mod maxThreads)) l)) as H.
  2: { apply (H conns [] (0, ∅)); [by rewrite Z.mod_small by (cbn; lia)|]. intros c. cbn [snd]. by rewrite lookup_empty. }
  induction l as [|c l IH]; intros seen [cur tids] Hc Ht; [done|]. cbn [fst snd] in Hc, Ht. cbn [submit_all map foldl]. unfold submit.
  pose proof (Z.mod_pos_bound (Z.of_nat (length seen)) maxThreads ltac:(lia)) as Hb.
  assert (∀ x, (0 <=? x mod maxThreads) && (x mod maxThreads <? maxThreads) = true) as Hin.
  { intros x. pose proof (Z.mod_pos_bound x maxThreads ltac:(lia)). apply andb_true_iff. rewrite Z.leb_le, Z.ltb_lt. lia. }
  pose proof (newcomer_prefix l (newcomer seen c)) as Hp.
  unfold tid_of. rewrite Ht. destruct (decide (c ∈ seen)) as [Hs|Hs].
  - assert (newcomer seen c = seen) as En by (unfold newcomer; by rewrite decide_True). rewrite En in *.
    destruct (list_find_elem_of (λ x, c = x) seen c Hs eq_refl) as [[i y] E]. change (list_find _ seen) with (place_of c seen) in E. rewrite E. cbn [fmap option_fmap option_map default fst id].
    pose proof (Z.mod_pos_bound (Z.of_nat i) maxThreads ltac:(lia)) as Hi.
    rewrite (proj2 (Z.eqb_neq _ _)) by lia. cbn [negb]. rewrite Hin, bind_Ret_l, (IH seen), bind_Ret_l by done.
    do 3 f_equal. rewrite (rank_prefix c seen) by done. unfold rank. by rewrite E.
  - assert (newcomer seen c = seen ++ [c]) as En by (unfold newcomer; by rewrite decide_False). rewrite En in *.
    destruct (place_of c seen) as [[i y]|] eqn:E.
    { apply list_find_Some in E as (Ey & <- & _). exfalso. apply Hs. by eapply list_elem_of_lookup_2. }
    cbn [fmap option_fmap option_map default]. change (-1 =? -1) with true. cbn [negb]. unfold next_worker.
    rewrite (proj2 (Z.eqb_neq _ _)) by lia. rewrite bind_Ret_l. rewrite wraps_small by lia.
    rewrite !Z.rem_mod_nonneg by lia. rewrite (Z.mod_small cur) by lia. rewrite Hc, Hin, bind_Ret_l.
    rewrite (IH (seen ++ [c])).
    + rewrite bind_Ret_l. do 3 f_equal. rewrite (rank_prefix c (seen ++ [c])); [|by apply elem_of_app; right; left|done].
      unfold rank. by rewrite find_new.
    + cbn [fst]. rewrite length_app. cbn. rewrite Zplus_mod_idemp_l. f_equal. lia.
    + intros d. cbn [snd]. destruct (decide (d = c)) as [->|Hd].
      * by rewrite lookup_insert_eq, find_new.
      * rewrite lookup_insert_ne by done. rewrite Ht. unfold place_of. destruct (list_find _ seen) as [[i y]|] eqn:E2.
        -- by rewrite (list_find_app_l _ _ _ _ _ E2).
        -- symmetry. apply fmap_None. apply list_find_None. apply list_find_None in E2. apply Forall_app. split; [done|]. by constructor.
Qed.
Lemma connections_keep_worker_witness :
  submit_all 2 [7; 8; 7; 9; 8] (0, ∅) = Ret [(7, 0); (8, 1); (7, 0); (9, 0); (8, 1)].
Proof. rewrite (connections_keep_worker 2 [7; 8; 7; 9; 8]); [vm_compute; reflexivity|lia]. Defined.
