(* ===== verification/WorkerPool.v ===== *)
(** * WorkerPool

    Priority and scheduled thread pools: workers that share a [TaskPool]
    ([PoolThread::runWithTaskPool] of [threads/PoolThread.cpp]), the thread that moves tasks that
    are due ([TaskPool::run]), and the owner of the pool, which submits, schedules and at the end
    destroys it ([threads/ThreadPool.cpp]).  Each step is what happens with a mutex held, or
    between two of them. *)

From S2P Require Import Prelude Tasks PoolThread ThreadPool.

(** ** The pool *)

(** Where the owner is: using the pool, in [joinAll], behind it. *)
Inductive owner := Using | Joining | Joined.
(** A worker: its place, its [runFlag], and its own queue, which [runWithTaskPool] never reads. *)
Record PoolWorker := mkWorker { w_at : place; w_flag : bool; w_own : list Task }.
Record ThreadPool := mkThreadPool {
  wpool : TaskPool; workers : list PoolWorker; tpool_owner : owner;
  (* what happened: the tasks handed to the shared pool, those run and those taken by the last loops *)
  handed : list Task; done_tasks : list Task; given_up : list Task }.

Definition worker_new : PoolWorker := mkWorker Top true [].
(** [initializeThreads] of a pool with priorities or with scheduled tasks. *)
Definition ThreadPool_new (maxThreads : nat) (prioritypooling allowScheduled : bool) : ThreadPool :=
  mkThreadPool (TaskPool_start (TaskPool_init prioritypooling allowScheduled TaskPool_new)) (replicate maxThreads worker_new) Using [] [] [].
(** The constructor with priorities. *)
Definition ThreadPool_priority (maxThreads : nat) (lowp highp : Z) : outcome ThreadPool :=
  if highp <? lowp then Throw Runtime_error else Ret (ThreadPool_new maxThreads true false).

Definition with_pool (p : TaskPool) (s : ThreadPool) : ThreadPool := mkThreadPool p (workers s) (tpool_owner s) (handed s) (done_tasks s) (given_up s).
Definition with_worker (i : nat) (w : PoolWorker) (s : ThreadPool) : ThreadPool := mkThreadPool (wpool s) (<[i := w]> (workers s)) (tpool_owner s) (handed s) (done_tasks s) (given_up s).
Definition with_owner (o : owner) (s : ThreadPool) : ThreadPool := mkThreadPool (wpool s) (workers s) o (handed s) (done_tasks s) (given_up s).
Definition log_handed (k : Task) (s : ThreadPool) : ThreadPool := mkThreadPool (wpool s) (workers s) (tpool_owner s) (k :: handed s) (done_tasks s) (given_up s).
Definition log_done (k : Task) (s : ThreadPool) : ThreadPool := mkThreadPool (wpool s) (workers s) (tpool_owner s) (handed s) (k :: done_tasks s) (given_up s).
Definition log_given_up (k : Task) (s : ThreadPool) : ThreadPool := mkThreadPool (wpool s) (workers s) (tpool_owner s) (handed s) (done_tasks s) (k :: given_up s).

(** [submit(task)] puts the task in the own queue of the worker [i] that is chosen. *)
Definition submit_own (i : nat) (k : Task) (s : ThreadPool) : ThreadPool :=
  match workers s !! i with
  | Some w => with_worker i (mkWorker (w_at w) (w_flag w) (if w_flag w then w_own w ++ [k] else w_own w)) s
  | None => s
  end.
(** [submit(task, priority)] and [schedule(task, tunit, type)]. *)
Definition submit_priority (i : nat) (priority : Z) (k : Task) (s : ThreadPool) : ThreadPool :=
  if prioritybased (wpool s) then let k := set_schedule (-1) (-1) priority k in log_handed k (with_pool (addPTask k (wpool s)) s)
  else submit_own i k s.
Definition schedule (i : nat) (now tunit type : Z) (k : Task) (s : ThreadPool) : ThreadPool :=
  if allowScheduledTasks (wpool s) then let k := set_schedule tunit type (-1) k in log_handed k (with_pool (addSTask now k (wpool s)) s)
  else submit_own i k s.
(** The same for a [FutureTask], which is marked as one behind the call. *)
Definition submit_future (i : nat) (priority : Z) (k : Task) (s : ThreadPool) : ThreadPool := submit_priority i priority k s.

Definition w_go (p : place) (w : PoolWorker) : PoolWorker := mkWorker p (w_flag w) (w_own w).
Definition w_stop (w : PoolWorker) : PoolWorker := mkWorker (w_at w) false (w_own w).

Section pool.
Variable result : Task → run_result.

(** One step of worker [i], in the state [w]. *)
Inductive worker_moves (i : nat) (w : PoolWorker) (s : ThreadPool) : ThreadPool → Prop :=
| moves_top : w_at w = Top → worker_moves i w s (with_worker i (w_go (if w_flag w then Waiting else Draining) w) s)
| moves_wakes : w_at w = Waiting → 0 < count (wpool s) → worker_moves i w s (with_worker i (w_go Taking w) s)
| moves_takes k p : w_at w = Taking → getTask (wpool s) = (Some k, p) →
    worker_moves i w s (log_done k (with_worker i (w_go (Running k) w) (with_pool p s)))
| moves_none p : w_at w = Taking → getTask (wpool s) = (None, p) → worker_moves i w s (with_worker i (w_go Top w) s)
| moves_runs k : w_at w = Running k → worker_moves i w s (with_worker i (w_go (after_task (result k)) w) s)
| moves_drains k p : w_at w = Draining → getTask (wpool s) = (Some k, p) → worker_moves i w s (log_given_up k (with_pool p s))
| moves_ends p : w_at w = Draining → getTask (wpool s) = (None, p) → worker_moves i w s (with_worker i (w_go Ended w) s).

Definition all_ended (s : ThreadPool) : bool := forallb (λ w, match w_at w with Ended => true | _ => false end) (workers s).
(** [joinAll] stops every worker, again and again, until all have ended; then the destructor calls
    [TaskPool::stop]. *)
Inductive pool_step : ThreadPool → ThreadPool → Prop :=
| step_moves i w s s' : workers s !! i = Some w → worker_moves i w s s' → pool_step s s'
| step_round elapsed s : pool_started (wpool s) = true → allowScheduledTasks (wpool s) = true → pool_step s (with_pool (run_round elapsed (wpool s)) s)
| step_submit i k s : tpool_owner s = Using → pool_step s (submit_own i k s)
| step_submit_priority i priority k s : tpool_owner s = Using → pool_step s (submit_priority i priority k s)
| step_schedule i now tunit type k s : tpool_owner s = Using → pool_step s (schedule i now tunit type k s)
| step_join s : tpool_owner s = Using → pool_step s (with_owner Joining s)
| step_stop_worker i w s : tpool_owner s = Joining → workers s !! i = Some w → pool_step s (with_worker i (w_stop w) s)
| step_joined s : tpool_owner s = Joining → all_ended s = true → pool_step s (with_owner Joined s)
| step_pool_stop s : tpool_owner s = Joined → pool_step s (with_pool (TaskPool_stop (wpool s)) s).

(** ** Pools with scheduled tasks *)

(** A place of a worker that has taken nothing. *)
Definition empty_handed (w : PoolWorker) : Prop := match w_at w with Top | Waiting | Draining | Ended => True | _ => False end.
Record unserved (s : ThreadPool) : Prop := {
  un_prio : prioritybased (wpool s) = false; un_sched : allowScheduledTasks (wpool s) = true;
  un_count : tpool_owner s ≠ Joined → count (wpool s) ≤ 0;
  un_workers : Forall empty_handed (workers s);
  un_joined : tpool_owner s = Joined → all_ended s = true;
  un_done : done_tasks s = [] }.

Lemma round_count elapsed p : count (run_round elapsed p) = count p ∧ prioritybased (run_round elapsed p) = prioritybased p ∧ allowScheduledTasks (run_round elapsed p) = allowScheduledTasks p ∧ ptasks (run_round elapsed p) = ptasks p.
Proof. unfold run_round. by destruct (schedule_round elapsed 101 (scheduled p)). Qed.
Lemma addSTask_count now k p : count (addSTask now k p) = count p ∧ prioritybased (addSTask now k p) = prioritybased p ∧ allowScheduledTasks (addSTask now k p) = allowScheduledTasks p.
Proof. unfold addSTask. by case_match. Qed.
Lemma getTask_same p : prioritybased (getTask p).2 = prioritybased p ∧ allowScheduledTasks (getTask p).2 = allowScheduledTasks p ∧ count (getTask p).2 ≤ count p.
Proof. unfold getTask. repeat case_match; cbn; split_and!; try done; lia. Qed.
Lemma ended_at s i w : all_ended s = true → workers s !! i = Some w → w_at w = Ended.
Proof.
  unfold all_ended. rewrite forallb_forall. intros H Hi. specialize (H w). rewrite <- list_elem_of_In in H.
  apply list_elem_of_lookup_2 in Hi. specialize (H Hi). by destruct (w_at w).
Qed.

Lemma all_ended_insert i w s : all_ended s = true → w_at w = Ended → all_ended (with_worker i w s) = true.
Proof.
  unfold all_ended. cbn. rewrite !forallb_forall. intros H Hw x Hx. apply list_elem_of_In, list_elem_of_lookup in Hx as [j Hx].
  apply list_lookup_insert_Some in Hx as [(_ & -> & _)|(_ & Hx)]; [by rewrite Hw|].
  apply H, list_elem_of_In. by eapply list_elem_of_lookup_2.
Qed.

Lemma unserved_worker i w s : unserved s → empty_handed w → (tpool_owner s = Joined → w_at w = Ended) → unserved (with_worker i w s).
Proof.
  intros [Hp Ha Hc Hw Hj Hd] Hw' He. split; try done; [by apply Forall_insert|]. intros Ho. by apply all_ended_insert; [apply Hj|apply He].
Qed.
Lemma unserved_pool p s : unserved s → prioritybased p = false → allowScheduledTasks p = true → (tpool_owner s ≠ Joined → count p ≤ 0) → unserved (with_pool p s).
Proof. intros [Hp Ha Hc Hw Hj Hd] ? ? ?. by split. Qed.

Lemma unserved_moves i w s s' : workers s !! i = Some w → worker_moves i w s s' → unserved s → unserved s'.
Proof.
  intros Hi Hm Hu. pose proof Hu as [Hp Ha Hc Hw Hj Hd]. pose proof (proj1 (Forall_lookup _ _) Hw i w Hi) as Hemp. unfold empty_handed in Hemp.
  assert (w_at w ≠ Ended → tpool_owner s ≠ Joined) as Ho by (intros He Eo; by apply He, (ended_at s i); [apply Hj|]).
  destruct Hm as [E|E Ec|k p E Eg|p E Eg|k E|k p E Eg|p E Eg]; rewrite E in *; try done.
  - apply unserved_worker; [done|unfold empty_handed; cbn; by destruct (w_flag w)|]. intros Eo. exfalso. by apply Ho.
  - assert (tpool_owner s ≠ Joined) as Hn by by apply Ho. specialize (Hc Hn). lia.
  - pose proof (getTask_same (wpool s)) as (H1 & H2 & H3). rewrite Eg in H1, H2, H3. cbn in H1, H2, H3.
    assert (unserved (with_pool p s)) as [? ? ? ? ? ?]; [|by split].
    apply unserved_pool; [done|congruence|congruence|]. intros Eo. specialize (Hc Eo). lia.
  - apply unserved_worker; [done|unfold empty_handed; done|done].
Qed.
Lemma unserved_own i k s : unserved s → unserved (submit_own i k s).
Proof.
  intros Hu. unfold submit_own. destruct (workers s !! i) as [w|] eqn:E; [|done].
  pose proof (proj1 (Forall_lookup _ _) (un_workers s Hu) i w E) as Hw. apply unserved_worker; [done|exact Hw|].
  intros Eo. apply (ended_at s i w); [by apply (un_joined s)|done].
Qed.
Lemma unserved_step s s' : pool_step s s' → unserved s → unserved s'.
Proof.
  intros Hs Hu. destruct Hs as [i w s s' Hi Hm|elapsed s Hst Hal|i k s Ho|i pr k s Ho|i now u t k s Ho|s Ho|i w s Ho Hi|s Ho He|s Ho].
  - by eapply unserved_moves.
  - destruct (round_count elapsed (wpool s)) as (H1 & H2 & H3 & _). pose proof Hu as [Hp Ha Hc _ _ _]. apply unserved_pool; [done|congruence..|]. rewrite H1. done.
  - by apply unserved_own.
  - unfold submit_priority. rewrite (un_prio s Hu). by apply unserved_own.
  - unfold schedule. rewrite (un_sched s Hu). destruct (addSTask_count now (set_schedule u t (-1) k) (wpool s)) as (H1 & H2 & H3). pose proof Hu as [Hp Ha Hc _ _ _].
    assert (unserved (with_pool (addSTask now (set_schedule u t (-1) k) (wpool s)) s)) as [? ? ? ? ? ?]; [|by split].
    apply unserved_pool; [done|congruence..|]. rewrite H1. done.
  - destruct Hu as [Hp Ha Hc Hw Hj Hd]. split; try done. intros _. apply Hc. congruence.
  - apply unserved_worker; [done| |congruence]. exact (proj1 (Forall_lookup _ _) (un_workers s Hu) i w Hi).
  - destruct Hu as [Hp Ha Hc Hw Hj Hd]. by split.
  - apply unserved_pool; [done|apply Hu|apply Hu|done].
Qed.

(** C30: A scheduled task is never run: in a pool for scheduled tasks nothing counts the tasks that
    are moved to the queue, and the workers wait for the count, so whatever is scheduled or
    submitted, however much time passes and whatever the workers do, no task is ever run. *)
Theorem scheduled_tasks_never_run (maxThreads : nat) (s : ThreadPool) :
  rtc pool_step (ThreadPool_new maxThreads false true) s → done_tasks s = [].
Proof.
  intros Hr. apply un_done. revert s Hr. apply rtc_ind_r.
  - split; try done. by apply Forall_replicate.
  - intros y z _ Hs. by apply unserved_step.
Qed.

(** ** The end of a pool *)

(** A pool with an idle worker cannot be destroyed: [joinAll] sets the flags of the workers, but an
    idle worker waits for the count of the shared pool, which only the destructor raises,
    behind [joinAll]; so once [joinAll] runs, with nothing counted and a worker waiting, it
    never ends, whatever the other workers do. *)
Theorem idle_pool_never_joins (s s' : ThreadPool) (i : nat) (w : PoolWorker) :
  tpool_owner s = Joining → count (wpool s) ≤ 0 → workers s !! i = Some w → w_at w = Waiting →
  rtc pool_step s s' → tpool_owner s' = Joining ∧ ∃ w', workers s' !! i = Some w' ∧ w_at w' = Waiting.
Proof.
  intros Ho Hc Hi Hw Hr.
  assert (tpool_owner s' = Joining ∧ count (wpool s') ≤ 0 ∧ ∃ w', workers s' !! i = Some w' ∧ w_at w' = Waiting) as (? & _ & ?); [|done].
  revert s' Hr. apply rtc_ind_r; [split_and!; try done; by exists w|].
  intros y z _ Hs (Ey & Cy & w1 & Hi1 & E1).
  destruct Hs as [j v y z Hj Hm|elapsed y Hst Hal|j k y Ey'|j pr k y Ey'|j now u t k y Ey'|y Ey'|j v y Ey' Hj|y Ey' He|y Ey']; try congruence.
  - destruct (decide (j = i)) as [->|Hne].
    + assert (v = w1) as -> by congruence. destruct Hm; try congruence. lia.
    + assert (∀ v', <[j := v']> (workers y) !! i = Some w1) as Hother by (intros v'; by rewrite list_lookup_insert_ne).
      pose proof (getTask_same (wpool y)) as (_ & _ & Hle).
      destruct Hm as [E|E Ec|k p E Eg|p E Eg|k E|k p E Eg|p E Eg]; rewrite ?Eg in Hle; cbn in Hle |- *; split_and!; try done; try lia; exists w1; by rewrite ?Hother.
  - destruct (round_count elapsed (wpool y)) as (H1 & _). split_and!; [done|cbn; lia|by exists w1].
  - split_and!; try done. destruct (decide (j = i)) as [->|Hne].
    + assert (v = w1) as -> by congruence. exists (w_stop w1). split; [|done]. cbn. apply list_lookup_insert_eq. by eapply lookup_lt_Some.
    + exists w1. split; [|done]. cbn. by rewrite list_lookup_insert_ne.
  - exfalso. pose proof (ended_at y i w1 He Hi1). congruence.
Qed.

(** ** Pools with priorities *)

Record counted (s : ThreadPool) : Prop := {
  cn_prio : prioritybased (wpool s) = true; cn_sched : allowScheduledTasks (wpool s) = false;
  cn_tasks : handed s ≡ₚ done_tasks s ++ given_up s ++ ptasks (wpool s);
  cn_count : tpool_owner s ≠ Joined → count (wpool s) = Z.of_nat (length (ptasks (wpool s)));
  cn_using : tpool_owner s = Using → given_up s = [] ∧ Forall (λ w, w_flag w = true ∧ going (w_at w)) (workers s);
  cn_joined : tpool_owner s = Joined → all_ended s = true }.

Lemma counted_worker i w s : counted s → (tpool_owner s = Using → w_flag w = true ∧ going (w_at w)) → (tpool_owner s = Joined → w_at w = Ended) → counted (with_worker i w s).
Proof.
  intros [Hp Ha Ht Hc Hu Hj] Hg He. split; try done; cbn; intros Eo.
  - destruct (Hu Eo). split; [done|]. apply Forall_insert; [done|by apply Hg].
  - by apply all_ended_insert; [apply Hj|apply He].
Qed.
Lemma getTask_priority p : prioritybased p = true → match getTask p with
  | (Some k, p') => ptasks p ≡ₚ k :: ptasks p' ∧ count p' = count p - 1 ∧ prioritybased p' = true ∧ allowScheduledTasks p' = allowScheduledTasks p
  | (None, p') => p' = p end.
Proof.
  intros Hp. unfold getTask. rewrite Hp. cbn [negb]. pose proof (take_top_spec (ptasks p)) as H.
  destruct (take_top (ptasks p)) as [[m r]|]; [|done]. by destruct H.
Qed.
Lemma counted_moves i w s s' : workers s !! i = Some w → worker_moves i w s s' → counted s → counted s'.
Proof.
  intros Hi Hm Hok. pose proof Hok as [Hp Ha Ht Hc Hu Hj].
  assert (w_at w ≠ Ended → tpool_owner s ≠ Joined) as Hne by (intros He Eo; by apply He, (ended_at s i); [apply Hj|]).
  assert (tpool_owner s = Using → w_flag w = true ∧ going (w_at w)) as Hw by (intros Eo; apply (proj1 (Forall_lookup _ _) (proj2 (Hu Eo)) i w Hi)).
  pose proof (getTask_priority (wpool s) Hp) as Hg.
  destruct Hm as [E|E Ec|k p E Eg|p E Eg|k E|k p E Eg|p E Eg]; rewrite E in *; try rewrite Eg in Hg.
  - apply counted_worker; [done| |intros Eo; exfalso; by apply Hne]. intros Eo. destruct (Hw Eo) as [Hf _]. cbn. by rewrite Hf.
  - apply counted_worker; [done|intros Eo; by destruct (Hw Eo)|intros Eo; exfalso; by apply Hne].
  - destruct Hg as (Hg & Hcp & Hpp & Hap). assert (tpool_owner s ≠ Joined) as Ho by by apply Hne. specialize (Hc Ho).
    assert (counted (with_worker i (w_go (Running k) w) s)) as [_ _ _ _ Hu2 _].
    { apply counted_worker; [done|intros Eo; by destruct (Hw Eo)|done]. }
    pose proof (Permutation_length Hg) as Hl. cbn in Hl.
    split; cbn; [done|congruence| |intros _; lia|exact Hu2|done].
    rewrite Ht, Hg. cbn. by rewrite (Permutation_middle (done_tasks s)), (Permutation_middle (given_up s)).
  - apply counted_worker; [done|intros Eo; by destruct (Hw Eo)|intros Eo; exfalso; by apply Hne].
  - apply counted_worker; [done|intros Eo; destruct (Hw Eo); split; [done|by destruct (result k)]|intros Eo; exfalso; by apply Hne].
  - destruct Hg as (Hg & Hcp & Hpp & Hap). assert (tpool_owner s ≠ Joined) as Ho by by apply Hne. specialize (Hc Ho).
    pose proof (Permutation_length Hg) as Hl. cbn in Hl.
    split; cbn; [done|congruence| |intros _; lia| |done].
    + rewrite Ht, Hg. by rewrite (Permutation_middle (given_up s)).
    + intros Eo. by destruct (Hw Eo).
  - apply counted_worker; [done|intros Eo; by destruct (Hw Eo)|done].
Qed.
Lemma counted_own i k s : counted s → counted (submit_own i k s).
Proof.
  intros Hok. unfold submit_own. destruct (workers s !! i) as [w|] eqn:E; [|done]. apply counted_worker; [done| |].
  - intros Eo. apply (proj1 (Forall_lookup _ _) (proj2 (cn_using s Hok Eo)) i w E).
  - intros Eo. apply (ended_at s i w); [by apply (cn_joined s)|done].
Qed.
Lemma counted_step s s' : pool_step s s' → counted s → counted s'.
Proof.
  intros Hs Hok. destruct Hs as [i w s s' Hi Hm|elapsed s Hst Hal|i k s Ho|i pr k s Ho|i now u t k s Ho|s Ho|i w s Ho Hi|s Ho He|s Ho].
  - by eapply counted_moves.
  - pose proof (cn_sched s Hok). congruence.
  - by apply counted_own.
  - unfold submit_priority. rewrite (cn_prio s Hok). destruct Hok as [Hp Ha Ht Hc Hu Hj]. split; cbn; try done.
    + rewrite Ht. by rewrite (Permutation_middle (done_tasks s)), (Permutation_middle (given_up s)).
    + intros Hn. specialize (Hc Hn). lia.
  - unfold schedule. rewrite (cn_sched s Hok). by apply counted_own.
  - destruct Hok as [Hp Ha Ht Hc Hu Hj]. split; try done. intros _. apply Hc. congruence.
  - apply counted_worker; [done|congruence|congruence].
  - destruct Hok as [Hp Ha Ht Hc Hu Hj]. by split.
  - destruct Hok as [Hp Ha Ht Hc Hu Hj]. by split.
Qed.

(** Until it is destroyed, a pool with priorities loses no task and repeats none, whatever the
    workers and the owner do in whatever order: the tasks handed to it are those run and those in
    its queue, each once; [count] is the number of those in the queue, so that a worker
    that waits goes on as soon as there is one. *)
Theorem priority_tasks_run_once (maxThreads : nat) (s : ThreadPool) :
  rtc pool_step (ThreadPool_new maxThreads true false) s → tpool_owner s = Using →
  handed s ≡ₚ done_tasks s ++ ptasks (wpool s) ∧ count (wpool s) = Z.of_nat (length (ptasks (wpool s))) ∧
  (∀ i w, workers s !! i = Some w → w_at w = Waiting → ptasks (wpool s) ≠ [] → pool_step s (with_worker i (w_go Taking w) s)).
Proof.
  intros Hr Ho. assert (counted s) as [Hp Ha Ht Hc Hu Hj].
  { revert s Hr Ho. intros s Hr _. revert s Hr. apply rtc_ind_r; [|intros y z _ Hs; by apply counted_step].
    split; try done. intros _. split; [done|]. by apply Forall_replicate. }
  destruct (Hu Ho) as [Hg _]. rewrite Hg in Ht. specialize (Hc ltac:(congruence)). split_and!; try done.
  intros i w Hi Ew Hne. apply (step_moves i w); [done|]. apply moves_wakes; [done|]. rewrite Hc. destruct (ptasks (wpool s)); [done|cbn; lia].
Qed.
End pool.

(** A pool with one worker that waits, and with a task. *)
Definition idle_pool : ThreadPool := with_worker 0 (w_go Waiting worker_new) (ThreadPool_new 1 true false).
Lemma idle_reachable : rtc (pool_step fine) (ThreadPool_new 1 true false) idle_pool.
Proof. apply rtc_once. apply (step_moves fine 0 worker_new); [done|]. by apply (moves_top fine 0 worker_new). Qed.
Lemma priority_tasks_run_once_witness :
  let s := submit_priority 0 5 one idle_pool in handed s ≡ₚ done_tasks s ++ ptasks (wpool s) ∧ handed s ≠ [].
Proof.
  split; [|discriminate]. refine (proj1 (priority_tasks_run_once fine 1 (submit_priority 0 5 one idle_pool) _ eq_refl)).
  eapply rtc_r; [apply idle_reachable|]. by apply step_submit_priority.
Defined.
Lemma scheduled_tasks_never_run_witness :
  let s := schedule 0 0 1 SECONDS one (ThreadPool_new 1 false true) in
  let s := with_pool (run_round (λ _, {| elapsedNanoSeconds := 0; elapsedMicroSeconds := 0; elapsedMilliSeconds := 0; elapsedSeconds := 2 |}) (wpool s)) s in
  length (tasks (wpool s)) = 1%nat ∧ done_tasks s = [].
Proof.
  intros s s'. split; [reflexivity|]. apply (scheduled_tasks_never_run fine 1 s').
  eapply rtc_l; [by apply (step_schedule fine 0 0 1 SECONDS one)|]. apply rtc_once. by apply step_round.
Defined.
Lemma idle_pool_never_joins_witness :
  let s := with_worker 0 (w_stop (w_go Waiting worker_new)) (with_owner Joining idle_pool) in
  rtc (pool_step fine) (ThreadPool_new 1 true false) s ∧ tpool_owner s = Joining.
Proof.
  intros s. assert (rtc (pool_step fine) (with_owner Joining idle_pool) s) as Hs.
  { apply rtc_once. by apply (step_stop_worker fine 0 (w_go Waiting worker_new)). }
  split.
  - apply (transitivity idle_reachable). eapply rtc_l; [by apply step_join|]. exact Hs.
  - refine (proj1 (idle_pool_never_joins fine (with_owner Joining idle_pool) s 0 (w_go Waiting worker_new) eq_refl _ eq_refl eq_refl Hs)). cbn. lia.
Defined.

(** ** Futures *)

(** No worker calls [call], and none completes a future: [getResult] waits for ever. *)
Lemma futures_never_complete k : action_of k = Run ∧ completes_on_error k = false.
Proof. unfold action_of, completes_on_error, cast_FutureTask, public_base. rewrite !andb_false_r. by destruct (isFuture k). Qed.
