(* ===== verification/Element.v ===== *)
(** * Element

    XML documents: [common/Element.cpp], [common/Document.cpp] with the tags of
    [common/Renderer.cpp], and the writer [SimpleStringXmlWriter] of
    [common/SimpleXmlParser.cpp].  The pointer [parent] is null but on the copies that
    [validateNs] walks over; there the elements above are an argument. *)

From S2P Require Import Prelude StdMap StdString StringUtil.

(** ** Elements *)

Inductive Element := mkElement {
  tagName : bytes; nameSpace : bytes; text : bytes; cdata : bool;
  attributes : list (bytes * bytes); namespaces : list (bytes * bytes);
  elements : list Element; mapOfEle : list (bytes * Z) }.
Definition Element_new : Element := mkElement [] [] [] false [] [] [] [].

Definition setText (t : bytes) (e : Element) : Element :=
  mkElement (tagName e) (nameSpace e) t (cdata e) (attributes e) (namespaces e) (elements e) (mapOfEle e).
Definition setCdata (b : bool) (e : Element) : Element :=
  mkElement (tagName e) (nameSpace e) (text e) b (attributes e) (namespaces e) (elements e) (mapOfEle e).
Definition set_tag (t n : bytes) (e : Element) : Element :=
  mkElement t n (text e) (cdata e) (attributes e) (namespaces e) (elements e) (mapOfEle e).
Definition set_attributes (a n : list (bytes * bytes)) (e : Element) : Element :=
  mkElement (tagName e) (nameSpace e) (text e) (cdata e) a n (elements e) (mapOfEle e).
Definition set_elements (l : list Element) (m : list (bytes * Z)) (e : Element) : Element :=
  mkElement (tagName e) (nameSpace e) (text e) (cdata e) (attributes e) (namespaces e) l m.

(** [copy(to)]: [to] becomes the element; the children of the element itself are cleared. *)
Definition copy (e : Element) : Element * Element := (set_elements [] (mapOfEle e) e, e).

(** [operator==]. *)
Definition same_element (a b : Element) : bool :=
  bool_decide (tagName a = tagName b) && bool_decide (attributes a = attributes b).

(** [mapOfEle] has the position of the first child of each name. *)
Definition addElement (element e : Element) : Element :=
  let l := elements e ++ [element] in
  set_elements l (if mmem (tagName element) (mapOfEle e) then mapOfEle e
                  else mset (tagName element) (Z.of_nat (length l) - 1) (mapOfEle e)) e.

(** The loop of [removeElement]: the child behind a removed one is not looked at. *)
Fixpoint remove_loop (element : Element) (l : list Element) : list Element * bool :=
  match l with
  | [] => ([], false)
  | x :: r =>
      if same_element element x then
        match r with
        | [] => ([], true)
        | y :: r => let '(r, _) := remove_loop element r in (y :: r, true)
        end
      else let '(r, b) := remove_loop element r in (x :: r, b)
  end.
Definition removeElement (element e : Element) : Element :=
  let '(l, found) := remove_loop element (elements e) in
  set_elements l (if (found : bool) then merase (tagName element) (mapOfEle e) else mapOfEle e) e.

Definition addAttribute (k value : bytes) (validate : bool) (e : Element) : Element :=
  if bool_decide (trim value = []) then e
  else if bool_decide (sfind (str "xmlns:") (trim k) = Some 0%nat) then
    let key := drop 6 k in
    set_attributes (mset (str "xmlns:" ++ key) value (attributes e))
      (if validate && mmem key (namespaces e) then namespaces e else mset key value (namespaces e)) e
  else set_attributes (mset k value (attributes e)) (namespaces e) e.
Definition removeAttribute (key : bytes) (e : Element) : Element := set_attributes (merase key (attributes e)) (namespaces e) e.
Definition getAttribute (key : bytes) (e : Element) : bytes := default [] (mfind key (attributes e)).
Definition isNull (e : Element) : bool := bool_decide (tagName e = []).
Definition getTagNameSpc (e : Element) : bytes :=
  if negb (bool_decide (nameSpace e = [])) then nameSpace e ++ str ":" ++ tagName e else tagName e.
Definition setTagName (t : bytes) (e : Element) : Element :=
  match splitAndReturn t (str ":") false with
  | [n; t'] => set_tag t' n e
  | _ => set_tag t (nameSpace e) e
  end.

(** An access to [elements] without a check. *)
Definition child_at (e : Element) (i : Z) : outcome Element :=
  match elements e !! Z.to_nat i with Some c => if 0 <=? i then Ret c else Undefined | None => Undefined end.
Definition getElementByName (name : bytes) (e : Element) : outcome (option Element) :=
  match mfind name (mapOfEle e) with Some i => c ← child_at e i; Ret (Some c) | None => Ret None end.
(** The first name of the map, in its order, that differs in case only. *)
Definition getElementByNameIgnoreCase (name : bytes) (e : Element) : outcome (option Element) :=
  match list_find (λ p, toLower p.1 = toLower name) (mapOfEle e) with
  | Some (_, (_, i)) => c ← child_at e i; Ret (Some c)
  | None => Ret None
  end.
Definition getElementsByName (name : bytes) (e : Element) : list Element := filter (λ c, tagName c = name) (elements e).

(** ** Text *)

Definition generateStartOpenTag (t : bytes) : bytes := str "<" ++ t.
Definition generateEndOpenTag : bytes := str ">".
Definition generateCloseTag (t : bytes) : bytes := str "</" ++ t ++ str ">".
Definition attribute_text (a : bytes * bytes) : bytes := str " " ++ a.1 ++ [61; 34] ++ a.2 ++ [34; 32].
Definition generateAttributes (l : list (bytes * bytes)) : bytes := concat (map attribute_text l).

Fixpoint render (e : Element) : bytes :=
  generateStartOpenTag (tagName e) ++ generateAttributes (attributes e) ++ generateEndOpenTag ++ text e ++
  concat (map render (elements e)) ++ generateCloseTag (tagName e).
(** [renderSerialization] does the same, and [Document::render] puts the type in front. *)
Fixpoint renderSerialization (e : Element) : bytes :=
  generateStartOpenTag (tagName e) ++ generateAttributes (attributes e) ++ generateEndOpenTag ++ text e ++
  concat (map renderSerialization (elements e)) ++ generateCloseTag (tagName e).
Definition renderChildren (e : Element) : bytes := concat (map render (elements e)).

(** ** Name spaces *)

(** [above]: the elements from the element itself up to the root. *)
Fixpoint isValidNamespace (above : list Element) (ns : bytes) : bool :=
  match above with [] => false | e :: above => mmem ns (namespaces e) || isValidNamespace above ns end.
Fixpoint getNmspc (above : list Element) (ns : bytes) : bytes :=
  match above with [] => [] | e :: above => match mfind ns (namespaces e) with Some v => v | None => getNmspc above ns end end.
(** The exception is a [std::string]. *)
Fixpoint validateNs (above : list Element) (e : Element) : outcome unit :=
  if bool_decide (nameSpace e = []) || isValidNamespace (e :: above) (nameSpace e) then
    foldr (λ c o, c ≫= λ _, o) (Ret tt) (map (validateNs (e :: above)) (elements e))
  else Throw Literal_text.
Definition getNameSpcValue (e : Element) : bytes := getNmspc [e] (nameSpace e).

(** ** Documents *)

Record Document := { root : Element; docType : bytes }.
Definition Document_new : Document := {| root := Element_new; docType := [] |}.
Definition setRootElement (e : Element) (d : Document) : Document := {| root := e; docType := docType d |}.
Definition setDocType (t : bytes) (d : Document) : Document := {| root := root d; docType := t |}.

(** What [Document::getElementByName] returns: a null pointer, the root, or a pointer into the
    copy of the children, which is gone when the function returns. *)
Inductive element_pointer := Null | Live (e : Element) | Dangling.
Fixpoint has_named (name : bytes) (e : Element) : bool :=
  bool_decide (tagName e = name) || existsb (has_named name) (elements e).
Definition Document_getElementByName (name : bytes) (d : Document) : element_pointer :=
  if bool_decide (tagName (root d) = name) then Live (root d)
  else if existsb (has_named name) (elements (root d)) then Dangling else Null.
Definition Document_render (d : Document) : bytes :=
  docType d ++ generateStartOpenTag (tagName (root d)) ++ generateAttributes (attributes (root d)) ++ generateEndOpenTag ++
  text (root d) ++ concat (map render (elements (root d))) ++ generateCloseTag (tagName (root d)).

(** ** The writer *)

Record XmlWriter := { os : bytes; tag_open : bool; new_line : bool; is_format : bool; elt_stack : list bytes }.
Definition HEADER : bytes := str "<?xml version=" ++ [34] ++ str "1.0" ++ [34] ++ str " encoding=" ++ [34] ++ str "utf-8" ++ [34] ++ str "?>".
Definition XmlWriter_new (os : bytes) (format : bool) : XmlWriter :=
  {| os := if format then os ++ HEADER else os; tag_open := false; new_line := true; is_format := format; elt_stack := [] |}.
Definition put (s : bytes) (w : XmlWriter) : XmlWriter :=
  {| os := os w ++ s; tag_open := tag_open w; new_line := new_line w; is_format := is_format w; elt_stack := elt_stack w |}.
Definition closeTag (w : XmlWriter) : XmlWriter :=
  if tag_open w then {| os := os w ++ str ">"; tag_open := false; new_line := new_line w; is_format := is_format w; elt_stack := elt_stack w |} else w.
Definition indent (w : XmlWriter) : XmlWriter :=
  if negb (is_format w) then w else put (concat (replicate (length (elt_stack w)) [9])) w.

(** [write_escape] of a [std::string]. *)
Definition escape_char (c : Z) : bytes :=
  if c =? 38 then str "&amp;" else if c =? 60 then str "&lt;" else if c =? 62 then str "&gt;"
  else if c =? 39 then str "&apos;" else if c =? 34 then str "&quot;" else [c].
Definition write_escape (val : bytes) (w : XmlWriter) : XmlWriter := put (flat_map escape_char val) w.
(** [write_escape] of a [const char*]: the switch looks at the first character each time. *)
Definition write_escape_c (s : bytes) (w : XmlWriter) : XmlWriter :=
  let s := c_string s in
  put (flat_map (λ c, let e := escape_char (hd 0 s) in if bool_decide (e = [hd 0 s]) then [c] else e) s) w.

Definition startElement (tag : bytes) (w : XmlWriter) : XmlWriter :=
  let w := closeTag w in
  let w := if is_format w && negb (bool_decide (elt_stack w = [])) then put [10] w else w in
  let w := put (str "<" ++ tag) (indent w) in
  {| os := os w; tag_open := true; new_line := false; is_format := is_format w; elt_stack := tag :: elt_stack w |}.
(** [top] of an empty stack is undefined. *)
Definition closeElement (w : XmlWriter) : outcome XmlWriter :=
  let w := closeTag w in
  match elt_stack w with
  | [] => Undefined
  | elt :: stack =>
      let w := {| os := os w; tag_open := tag_open w; new_line := new_line w; is_format := is_format w; elt_stack := stack |} in
      let w := if is_format w && new_line w then indent (put [10] w) else w in
      let w := {| os := os w; tag_open := tag_open w; new_line := true; is_format := is_format w; elt_stack := elt_stack w |} in
      Ret (put (str "</" ++ elt ++ str ">") w)
  end.
Fixpoint closeAll_loop (n : nat) (w : XmlWriter) : outcome XmlWriter :=
  match n with O => Ret w | S n => w ← closeElement w; closeAll_loop n w end.
Definition closeAll (w : XmlWriter) : outcome XmlWriter := closeAll_loop (length (elt_stack w)) w.
Definition attribute (key val : bytes) (w : XmlWriter) : XmlWriter := put [34] (write_escape val (put (str " " ++ key ++ [61; 34]) w)).
Definition attribute_c (key val : bytes) (w : XmlWriter) : XmlWriter := put [34] (write_escape_c val (put (str " " ++ c_string key ++ [61; 34]) w)).
Definition content (val : bytes) (w : XmlWriter) : XmlWriter := write_escape val (closeTag w).
Definition content_c (val : bytes) (w : XmlWriter) : XmlWriter := write_escape_c val (closeTag w).
Definition write_cdata (val : bytes) (w : XmlWriter) : XmlWriter := put (str "<![CDATA[" ++ val ++ str "]]>") (closeTag w).

(** ** Children *)

(** [mapOfEle] has the position of the first child of every name there is. *)
Definition first_child (name : bytes) (l : list Element) : option (nat * Element) := list_find (λ c, tagName c = name) l.
Definition map_ok (e : Element) : Prop :=
  ∀ name, mfind name (mapOfEle e) = (λ p, Z.of_nat p.1) <$> first_child name (elements e).

Lemma map_ok_new : map_ok Element_new.
Proof. done. Qed.
Lemma list_find_snoc {A} (P : A → Prop) `{∀ x, Decision (P x)} l y :
  list_find P (l ++ [y]) = match list_find P l with Some r => Some r | None => if decide (P y) then Some (length l, y) else None end.
Proof.
  induction l as [|x l IH]; cbn; [by case_decide|]. destruct (decide (P x)) as [?|?]; [done|]. rewrite IH.
  destruct (list_find P l) as [[i z]|]; cbn; [done|]. by case_decide.
Qed.
Lemma map_ok_addElement c e : map_ok e → map_ok (addElement c e).
Proof.
  intros He name. unfold addElement, first_child. cbn [elements mapOfEle set_elements]. rewrite list_find_snoc.
  pose proof (He name) as H. pose proof (He (tagName c)) as Hc. unfold first_child in *. unfold mmem.
  rewrite length_app. cbn [length].
  case_bool_decide as Hm.
  - rewrite H. destruct (list_find _ (elements e)) as [p|] eqn:E; [done|]. case_decide as Ht; [|done]. subst name.
    rewrite Hc, E in Hm. by destruct Hm.
  - rewrite mfind_mset. case_decide as Ht.
    + subst name. rewrite H in Hm. destruct (list_find _ (elements e)); [by destruct Hm|]. rewrite decide_True by done. cbn. f_equal. lia.
    + rewrite H. destruct (list_find _ (elements e)) as [p|]; [done|]. by rewrite decide_False by congruence.
Qed.

(** The children of an element are found by their names: after any number of [addElement],
    [getElementByName] gives the first child that was added under the name, never reads outside
    [elements], and gives null exactly for a name no child has. *)
Theorem children_found (l : list Element) (name : bytes) :
  let e := foldl (λ e c, addElement c e) Element_new l in
  elements e = l ∧ getElementByName name e = Ret (snd <$> first_child name l).
Proof.
  cbn. assert (∀ e0, map_ok e0 → let e := foldl (λ e c, addElement c e) e0 l in map_ok e ∧ elements e = elements e0 ++ l) as H.
  { induction l as [|c l IH]; intros e0 H0; cbn; [by rewrite app_nil_r|].
    destruct (IH (addElement c e0) (map_ok_addElement c e0 H0)) as [? ->]. split; [done|]. cbn. by rewrite <- app_assoc. }
  destruct (H Element_new map_ok_new) as [Hm He]. cbn in He. split; [done|].
  unfold getElementByName. rewrite (Hm name). rewrite He. destruct (first_child name l) as [[i c]|] eqn:E; [|done]. cbn.
  apply list_find_Some in E as (E & _). unfold child_at. rewrite Nat2Z.id, He, E, (proj2 (Z.leb_le 0 _)) by lia. done.
Qed.

(** [removeElement] leaves the positions of the other names: another child is found, or none. *)
Definition named (t : bytes) : Element := set_tag t [] Element_new.
Example removal_misleads :
  let e := removeElement (named (str "a")) (foldl (λ e c, addElement c e) Element_new (map (λ t, named t) [str "a"; str "b"; str "c"])) in
  getElementByName (str "b") e = Ret (Some (named (str "c"))) ∧ getElementByName (str "c") e = Undefined.
Proof. vm_compute. done. Qed.
(** Of two equal children in a row one stays. *)
Example removal_skips :
  elements (removeElement (named (str "a")) (foldl (λ e c, addElement c e) Element_new [named (str "a"); named (str "a")])) = [named (str "a")].
Proof. vm_compute. done. Qed.

(** ** What the writer writes *)

(** An element written with the calls of the writer. *)
Fixpoint write_element (e : Element) (w : XmlWriter) : outcome XmlWriter :=
  let w := startElement (tagName e) w in
  let w := foldl (λ w a, attribute a.1 a.2 w) w (attributes e) in
  w ← foldl (λ o c, o ≫= write_element c) (Ret (content (text e) w)) (elements e);
  closeElement w.
Fixpoint escaped (e : Element) : bytes :=
  str "<" ++ tagName e ++ concat (map (λ a, str " " ++ a.1 ++ [61; 34] ++ flat_map escape_char a.2 ++ [34]) (attributes e)) ++ str ">" ++
  flat_map escape_char (text e) ++ concat (map escaped (elements e)) ++ str "</" ++ tagName e ++ str ">".
(** The writer without formatting: the pending end of the last start tag, and the text. *)
Definition written (w : XmlWriter) (s : bytes) : XmlWriter :=
  {| os := os (closeTag w) ++ s; tag_open := false; new_line := true; is_format := false; elt_stack := elt_stack w |}.
Lemma put_put a b w : put b (put a w) = put (a ++ b) w.
Proof. unfold put. cbn. by rewrite app_assoc. Qed.
Lemma put_nil w : put [] w = w.
Proof. destruct w. unfold put. cbn. by rewrite app_nil_r. Qed.
Lemma attribute_put k v w : attribute k v w = put (str " " ++ k ++ [61; 34] ++ flat_map escape_char v ++ [34]) w.
Proof. unfold attribute, write_escape. rewrite !put_put. f_equal. by rewrite <- !app_assoc. Qed.
Lemma attributes_put l w :
  foldl (λ w a, attribute a.1 a.2 w) w l = put (concat (map (λ a, str " " ++ a.1 ++ [61; 34] ++ flat_map escape_char a.2 ++ [34]) l)) w.
Proof.
  revert w. induction l as [|[k v] l IH]; intros w; cbn [foldl map concat]; [by rewrite put_nil|].
  rewrite IH, attribute_put, put_put. done.
Qed.
Lemma Element_rule (P : Element → Prop) : (∀ e, Forall P (elements e) → P e) → ∀ e, P e.
Proof.
  intros H. fix IH 1. intros [t n x c a ns l m]. apply H. cbn. clear H.
  induction l as [|e l IHl]; constructor; [apply IH|apply IHl].
Qed.

(** A writer between two calls, with a text behind what it has written. *)
Definition between (w : XmlWriter) (s : bytes) (line : bool) : XmlWriter :=
  {| os := os w ++ s; tag_open := false; new_line := line; is_format := false; elt_stack := elt_stack w |}.
Lemma write_children l w line : Forall (λ c, ∀ w, is_format w = false → write_element c w = Ret (written w (escaped c))) l →
  ∀ s, ∃ line', foldl (λ o c, o ≫= write_element c) (Ret (between w s line)) l = Ret (between w (s ++ concat (map escaped l)) line').
Proof.
  intros H. revert line. induction H as [|c l Hc H IH]; intros line s; cbn [foldl map concat].
  - exists line. by rewrite app_nil_r.
  - rewrite bind_Ret_l, Hc by done.
    change (written (between w s line) (escaped c)) with (between (between w s line) (escaped c) true).
    replace (between (between w s line) (escaped c) true) with (between w (s ++ escaped c) true) by (unfold between; cbn; by rewrite app_assoc).
    destruct (IH true (s ++ escaped c)) as [line' ->]. exists line'. by rewrite app_assoc.
Qed.

Lemma start_content x a t w : is_format w = false →
  content x (put a (startElement t w)) =
  between {| os := os (closeTag w); tag_open := false; new_line := true; is_format := false; elt_stack := t :: elt_stack w |}
    (str "<" ++ t ++ a ++ str ">" ++ flat_map escape_char x) false.
Proof.
  intros Hw. unfold content, write_escape, startElement, indent.
  assert (is_format (closeTag w) = false) as Ef by (unfold closeTag; by case_match).
  assert (elt_stack (closeTag w) = elt_stack w) as Es by (unfold closeTag; by case_match).
  rewrite Ef. cbn [andb]. rewrite Ef. cbn [negb]. unfold put, between. cbn [os tag_open closeTag is_format elt_stack]. rewrite Es, Ef.
  f_equal. by rewrite <- !app_assoc.
Qed.
(** The writer, without formatting, writes well-nested text: the calls for an element, its
    attributes, its text and its children, made on any writer whatever its stack and whether a
    start tag is pending, finish that tag, append the element with every value and every text
    escaped, and leave the stack as it was; no call pops an empty stack. *)
Theorem writer_writes (e : Element) (w : XmlWriter) : is_format w = false → write_element e w = Ret (written w (escaped e)).
Proof.
  revert w. induction e as [e IH] using Element_rule. intros w Hw.
  assert (write_element e w = (foldl (λ o c, o ≫= write_element c)
    (Ret (content (text e) (foldl (λ w a, attribute a.1 a.2 w) (startElement (tagName e) w) (attributes e)))) (elements e)) ≫= closeElement) as -> by by destruct e.
  assert (escaped e = (str "<" ++ tagName e ++ concat (map (λ a, str " " ++ a.1 ++ [61; 34] ++ flat_map escape_char a.2 ++ [34]) (attributes e)) ++ str ">" ++
    flat_map escape_char (text e)) ++ concat (map escaped (elements e)) ++ str "</" ++ tagName e ++ str ">") as ->.
  { destruct e. cbn [escaped]. by rewrite <- !app_assoc. }
  rewrite attributes_put. set (a := concat (map _ (attributes e))).
  set (w0 := {| os := os (closeTag w); tag_open := false; new_line := true; is_format := false; elt_stack := tagName e :: elt_stack w |}).
  assert (content (text e) (put a (startElement (tagName e) w)) =
          between w0 (str "<" ++ tagName e ++ a ++ str ">" ++ flat_map escape_char (text e)) false) as ->.
{ apply start_content, Hw. }
  destruct (write_children (elements e) w0 false IH (str "<" ++ tagName e ++ a ++ str ">" ++ flat_map escape_char (text e))) as [line ->].
  rewrite bind_Ret_l. set (x := str "<" ++ _).
  unfold closeElement. cbn [between closeTag tag_open elt_stack w0]. unfold put, written.
  cbn [is_format new_line andb os tag_open elt_stack between w0]. do 2 f_equal. by rewrite <- !app_assoc.
Qed.
Lemma writer_writes_witness :
  let e := foldl (λ e c, addElement c e) (addAttribute (str "k") (str "1 < 2") false (named (str "a"))) [named (str "b"); named (str "c")] in
  write_element e (XmlWriter_new (str "x") false) = Ret (written (XmlWriter_new (str "x") false) (escaped e)).
Proof. intros e. apply (writer_writes e (XmlWriter_new (str "x") false)). reflexivity. Defined.

(** The overloads for [const char*] look at the first character for every one. *)
Example write_escape_c_first : os (content_c (str "<a>") (XmlWriter_new [] false)) = str "&lt;&lt;&lt;" ∧ os (content_c (str "a<b") (XmlWriter_new [] false)) = str "a<b".
Proof. vm_compute. done. Qed.
