(* ===== verification/SimpleXmlParser.v ===== *)
(** * SimpleXmlParser

    The XML parser of [common/SimpleXmlParser.cpp].  It works on the text of an element by
    searching it; positions are [int]s, -1 for [npos].  Reading recurses into the text of an
    element and into what follows it: the fuel is a bound for that recursion. *)

From S2P Require Import Prelude StdMap StdString StringUtil Element.

(** [(int)s.find(p)], and [s.find(p)] as a [size_t]. *)
Definition ifind (p s : bytes) : Z := match sfind p s with Some i => wraps 32 (Z.of_nat i) | None => -1 end.
Definition zfind (p s : bytes) : Z := match sfind p s with Some i => Z.of_nat i | None => npos end.
Definition found (p s : bytes) : bool := bool_decide (sfind p s ≠ None).
Definition first_not_blank (s : bytes) : Z := match find_first_not_of [32] s with Some i => wraps 32 (Z.of_nat i) | None => -1 end.
Definition last_not_blank (s : bytes) : Z := match find_last_not_of [32] s with Some i => wraps 32 (Z.of_nat i) | None => -1 end.
(** The text between the blanks at both ends; a text of blanks throws. *)
Definition without_blanks (s : bytes) : outcome bytes :=
  let ss := first_not_blank s in
  let se := last_not_blank s + 1 in
  substr_int s ss (se - ss).

Definition sanitizeXml (s : bytes) : outcome bytes :=
  s ← replaceAll s (str "&amp;") [38];
  s ← replaceAll s (str "&quot;") [34];
  s ← replaceAll s (str "&apos;") [39];
  s ← replaceAll s (str "&lt;") [60];
  replaceAll s (str "&gt;") [62].

(** The attributes behind the name of a tag. *)
Fixpoint read_attributes (fuel : nat) (tag : bytes) (e : Element) : outcome Element :=
  match fuel with
  | O => Out_of_fuel
  | S fuel =>
      match find_first_of [61] tag, find_first_of [34] tag with
      | Some eq, Some q =>
          atname ← without_blanks (take eq tag);
          let tag := drop (S q) tag in
          let '(atvalue, tag) := match find_first_of [34] tag with Some q => (take q tag, drop (S q) tag) | None => (tag, tag) end in
          read_attributes fuel tag (addAttribute (trim atname) atvalue true e)
      | _, _ => Ret e
      end
  end.

(** The end of the element [ta] whose content starts at [ed + 1]: the first closing tag before
    which as many of its tags are closed as opened.  The end and the content. *)
Fixpoint matching_end (fuel : nat) (xml ta : bytes) (ed end_ : Z) : outcome (Z * bytes) :=
  match fuel with
  | O => Out_of_fuel
  | S fuel =>
      txml ← substr_int xml (ed + 1) (end_ - ed - 1);
      stoc ← countOccurrences txml (str "<" ++ ta ++ str ">");
      sstoc ← countOccurrences txml (str "<" ++ ta ++ str " ");
      etoc ← countOccurrences txml (str "</" ++ ta ++ str ">");
      if stoc + sstoc =? etoc then Ret (end_, txml)
      else
        match (if 0 <=? end_ + 2 then sfind_from (str "</" ++ ta ++ str ">") xml (Z.to_nat (end_ + 2)) else None) with
        | Some i => matching_end fuel xml ta ed (wraps 32 (Z.of_nat i))
        | None => Throw Runtime_error
        end
  end.

(** What no tag may contain. *)
Definition bad_marks : list bytes := [[60; 32]; [60; 9]; [60; 47; 32]; [60; 47; 9]; [60; 32; 47]; [47; 32; 62]; [60; 9; 47]].

(** The first comment is cut out. *)
Definition without_comment (xml : bytes) : outcome bytes :=
  let cmt := ifind (str "<!--") xml in
  if cmt =? -1 then Ret xml
  else
    let ecmt := ifind (str "-->") xml in
    if ecmt =? -1 then Throw Runtime_error
    else stx ← substr_int xml 0 cmt; enx ← substr_int xml (ecmt + 3) npos; Ret (stx ++ enx).

(** The end of the first tag. *)
Definition tag_end (xml : bytes) : Z :=
  let ed1 := ifind (str "/>") xml in
  let ed2 := ifind (str ">") xml in
  if ((ed2 <? ed1) || (ed1 =? -1)) && negb (ed2 =? -1) then ed2 else if negb (ed1 =? -1) then ed1 else 0.
Definition first_tag (xml : bytes) : outcome bytes :=
  let st := (match sfind (str "<") xml with Some i => wraps 32 (Z.of_nat i + 1) | None => 0 end) in
  tag ← substr_int xml st (tag_end xml - st);
  without_blanks tag.

(** The checks before the element is read. *)
Definition tag_errors (xml ta : bytes) : outcome unit :=
  let initcheck := ifind (str "<") xml in
  tail ← substr_int xml (initcheck + 1) npos;
  let someTag := zfind (str "<") tail in
  let pndTag := if found (str "</" ++ ta) xml then ifind (str "</" ++ ta) xml else 0 in
  let endTag := if found (str "</" ++ ta) xml then 0
                else if found (str "/>") xml && (zfind (str "/>") xml <? someTag) then ifind (str "/>") xml else 0 in
  if existsb (λ m, found m xml) bad_marks then Throw Runtime_error
  else if negb (found (str "<" ++ ta) xml) && found (str "</" ++ ta) xml then Throw Runtime_error
  else if found (str "<" ++ ta) xml && (pndTag =? 0) && (endTag =? 0) then Throw Runtime_error
  else Ret tt.

(** The tag with its attributes: the name, and the element the attributes are put in. *)
Definition open_element (tag : bytes) (own : Element) : outcome (bytes * Element) :=
  match find_first_of [32] tag with
  | Some b => own ← read_attributes (S (length tag)) (drop (S b) tag) own; Ret (take b tag, own)
  | None => Ret (tag, own)
  end.

(** [readXML], but for what is recursive in it: [rec] reads the content of the element. *)
Section read_element.
Variable rec : bytes → bytes → Element → outcome Element.

(** Reads the first element of [xml], as a child of [par] or, without a [parent], as [par]
    itself.  What [par] is then, and what follows. *)
Definition read_element (xml parent : bytes) (par : Element) : outcome (Element * bytes) :=
  let ed1 := ifind (str "/>") xml in
  let ed := tag_end xml in
  tag ← first_tag xml;
  '(ta, own) ← open_element tag (if bool_decide (parent = []) then par else Element_new);
  _ ← tag_errors xml ta;
  let adopt := λ own, if bool_decide (parent = []) then own else addElement own par in
  let skipped := if bool_decide (parent = []) then own else par in
  if found (str "<" ++ ta) xml && (found (str "</" ++ ta) xml || found (str "/>") xml) then
    if ed =? ed1 then
      rest ← substr xml (size_t (zfind (str "/>") xml + 2)) npos;
      Ret (adopt (setTagName (trim ta) own), rest)
    else if found (str "</" ++ ta) xml then
      '(end_, txml) ← matching_end (S (length xml)) xml ta ed (ifind (str "</" ++ ta ++ str ">") xml);
      own ← (let own := setTagName (trim ta) own in
             if found (str "<") txml then rec txml ta own else Ret (setText txml own));
      rest ← substr_int xml (end_ + slen (str "</" ++ ta ++ str ">")) npos;
      Ret (adopt own, rest)
    else Ret (skipped, xml)
  else Ret (skipped, xml).
End read_element.

Fixpoint readXML (fuel : nat) (xml parent : bytes) (par : Element) : outcome Element :=
  match fuel with
  | O => Out_of_fuel
  | S fuel =>
      if bool_decide (xml = []) then Ret par
      else
        let xml := trim xml in
        if ifind (str "<![CDATA[") xml =? 0 then
          let ecdt := ifind (str "]]>") xml in
          if ecdt =? -1 then Throw Runtime_error
          else t ← substr_int xml 9 (ecdt - 9); Ret (setText t (setCdata true par))
        else
          xml ← without_comment xml;
          '(par, xml) ← read_element (readXML fuel) xml parent par;
          if found (str "<") xml && (found (str "</") xml || found (str "/>") xml) then readXML fuel xml parent par
          else if found (str "<") xml && (negb (found (str "</") xml) || negb (found (str "/>") xml)) then Throw Runtime_error
          else if negb (found (str "<") xml) && (found (str "</") xml || found (str "/>") xml) then Throw Runtime_error
          else Ret par
  end.

(** [parse]: [mode] is compared without case. *)
Definition parse (fuel : nat) (mode xml : bytes) (doc : Document) : outcome Document :=
  let xml := trim xml in
  doc ← (if bool_decide (sfind (str "<") xml = Some 0%nat) && found (str ">") xml then
           xml ← (if found (str "<?") xml && found (str "?>") xml then substr xml (size_t (zfind (str "?>") xml + 2)) npos else Ret xml);
           root ← readXML fuel xml [] (root doc); Ret (setRootElement root doc)
         else Ret doc);
  if bool_decide (toLower mode = str "validator") then
    match validateNs [] (root doc) with
    | Ret _ => Ret doc
    | Throw e => if is_std e then Throw Runtime_error else Throw e
    | Undefined => Undefined
    | Out_of_fuel => Out_of_fuel
    end
  else Ret doc.

(** [readDocument]: [lines] are those of the file; lines with a processing instruction are left
    out. *)
Definition readDocument (fuel : nat) (mode : bytes) (lines : option (list bytes)) (doc : Document) : outcome Document :=
  let xml := match lines with
             | Some ls => concat (map (λ l, l ++ [10]) (filter (λ l, sfind (str "<?") l = None ∧ sfind (str "?>") l = None) ls))
             | None => []
             end in
  parse fuel mode xml doc.

(** ** Occurrences *)

(** The number of positions a text occurs at. *)
Fixpoint cnt (p s : bytes) : Z :=
  (if prefixb p s then 1 else 0) + match s with [] => 0 | _ :: s' => cnt p s' end.

Lemma cnt_find p s : match sfind p s with Some i => cnt p s = 1 + cnt p (drop (S i) s) | None => cnt p s = 0 end ∨ p = [].
Proof.
  destruct p as [|c p]; [by right|left]. induction s as [|x s IH]; cbn [sfind cnt].
  - done.
  - destruct (prefixb (c :: p) (x :: s)) eqn:E; [cbn [drop]; by rewrite drop_0|].
    destruct (sfind (c :: p) s) as [i|]; cbn [fmap option_fmap option_map]; rewrite IH; [|done]. cbn [drop]. lia.
Qed.
Lemma cnt_bound p s : p ≠ [] → 0 ≤ cnt p s ≤ slen s.
Proof.
  intros Hp. induction s as [|x s IH]; cbn [cnt].
  - destruct p; [done|]. cbn. unfold slen. cbn. lia.
  - rewrite slen_cons. case_match; lia.
Qed.

Lemma countOccurrences_loop_cnt p s fuel n i : p ≠ [] → (i ≤ length s)%nat → (length s - i < fuel)%nat →
  0 ≤ n → n + cnt p (drop i s) < 2 ^ 31 → countOccurrences_loop fuel s p n i = Ret (n + cnt p (drop i s)).
Proof.
  intros Hp. revert n i. induction fuel as [|fuel IH]; intros n i Hi Hf Hn Hb; [lia|]. cbn [countOccurrences_loop]. unfold sfind_from.
  rewrite (proj2 (Nat.leb_le _ _) Hi). destruct (cnt_find p (drop i s)) as [Hc|]; [|done].
  destruct (sfind p (drop i s)) as [j|] eqn:E; cbn [fmap option_fmap option_map].
  - pose proof (sfind_bound _ _ _ E) as Hj. rewrite length_drop in Hj. assert (0 < length p)%nat by (destruct p; [done|cbn; lia]).
    rewrite drop_drop in Hc. replace (i + S j)%nat with (S (i + j)) in Hc by lia.
    pose proof (cnt_bound p (drop (S (i + j)) s) Hp). rewrite checked_int_Ret, bind_Ret_l by lia. rewrite IH by lia. f_equal. lia.
  - f_equal. lia.
Qed.
Lemma countOccurrences_cnt p s : p ≠ [] → slen s < 2 ^ 31 → countOccurrences s p = Ret (cnt p s).
Proof.
  intros Hp Hs. unfold countOccurrences. pose proof (cnt_bound p s Hp).
  rewrite countOccurrences_loop_cnt; rewrite ?drop_0; try done; lia.
Qed.

(** A text that starts a tag does not straddle what ends before a tag. *)
Definition starts_tag (s : bytes) : Prop := s = [] ∨ ∃ t, s = 60 :: t.
Lemma prefixb_tag q a b : 60 ∉ q → starts_tag b → prefixb q (a ++ b) = prefixb q a.
Proof.
  intros Hq Hb. revert q Hq. induction a as [|x a IH]; intros [|y q] Hq; try done.
  - destruct Hb as [->|[t ->]]; [done|]. cbn. replace (y =? 60) with false; [done|]. symmetry. apply Z.eqb_neq. set_solver.
  - cbn. rewrite IH; [done|set_solver].
Qed.
Lemma cnt_app q a b : 60 ∉ q → starts_tag b → cnt (60 :: q) (a ++ b) = cnt (60 :: q) a + cnt (60 :: q) b.
Proof.
  intros Hq Hb. induction a as [|x a IH]; [done|]. cbn [app cnt]. rewrite IH.
  cbn [prefixb]. rewrite prefixb_tag by done. lia.
Qed.
Lemma cnt_absent q a : 60 ∉ a → cnt (60 :: q) a = 0.
Proof.
  intros Ha. induction a as [|x a IH]; [done|]. cbn [cnt prefixb]. rewrite IH by set_solver.
  replace (60 =? x) with false; [done|]. symmetry. apply Z.eqb_neq. set_solver.
Qed.
Lemma cnt_tag q t : 60 ∉ t → cnt (60 :: q) (60 :: t) = if prefixb q t then 1 else 0.
Proof. intros Ht. cbn [cnt]. rewrite cnt_absent by done. cbn. destruct (prefixb q t); done. Qed.

(** ** Plain elements *)

(** Names without the characters of the syntax, values and texts without tags in them. *)
Definition name_char (c : Z) : Prop := c ∉ [60; 62; 47; 61; 34; 58; 32; 9; 12; 11; 10; 13].
Definition name_start (c : Z) : Prop := name_char c ∧ c ≠ 33 ∧ c ≠ 63.
Definition name_ok (t : bytes) : Prop := Forall name_char t ∧ match t with c :: _ => c ≠ 33 ∧ c ≠ 63 | [] => False end.
Definition xml_attribute_ok (a : bytes * bytes) : Prop :=
  Forall name_char a.1 ∧ a.1 ≠ [] ∧ Forall (λ c, c ∉ [60; 62; 34]) a.2 ∧ trim a.2 ≠ [].
Definition xml_text_ok (x : bytes) : Prop := Forall (λ c, c ∉ [60; 62]) x.
#[export] Instance name_ok_dec t : Decision (name_ok t).
Proof. unfold name_ok, name_char. destruct t; apply _. Defined.
#[export] Instance xml_attribute_ok_dec a : Decision (xml_attribute_ok a).
Proof. unfold xml_attribute_ok, name_char. apply _. Defined.
#[export] Instance xml_text_ok_dec x : Decision (xml_text_ok x).
Proof. unfold xml_text_ok. apply _. Defined.

Definition add_all (l : list Element) (par : Element) : Element := foldl (λ e c, addElement c e) par l.
Definition children_map (l : list Element) : list (bytes * Z) := mapOfEle (add_all l Element_new).
(** The keys of a map are in order. *)
Fixpoint in_order (l : list (bytes * bytes)) : bool :=
  match l with (k, _) :: (((k', _) :: _) as l') => bytes_lt k k' && in_order l' | _ => true end.

(** Elements whose text can be read back: a text or children, no name spaces. *)
Fixpoint plain (e : Element) : bool :=
  bool_decide (name_ok (tagName e)) && bool_decide (nameSpace e = []) && negb (cdata e) && bool_decide (namespaces e = []) &&
  bool_decide (Forall xml_attribute_ok (attributes e)) && in_order (attributes e) && bool_decide (xml_text_ok (text e)) &&
  (bool_decide (text e = []) || bool_decide (elements e = [])) &&
  bool_decide (mapOfEle e = children_map (elements e)) && forallb plain (elements e).

Record plain_parts (e : Element) : Prop := {
  pp_name : name_ok (tagName e); pp_ns : nameSpace e = []; pp_cdata : cdata e = false; pp_nss : namespaces e = [];
  pp_attrs : Forall xml_attribute_ok (attributes e); pp_order : in_order (attributes e) = true; pp_text : xml_text_ok (text e);
  pp_either : text e = [] ∨ elements e = []; pp_map : mapOfEle e = children_map (elements e);
  pp_children : Forall (λ c, plain c = true) (elements e) }.
Lemma plain_inv e : plain e = true → plain_parts e.
Proof.
  destruct e as [t n x c a ns l m]. cbn [plain tagName nameSpace text cdata attributes namespaces elements mapOfEle].
  rewrite !andb_true_iff, orb_true_iff, !bool_decide_eq_true, negb_true_iff, forallb_forall.
  intros [[[[[[[[[H1 H2] H3] H4] H5] H6] H7] H8] H9] H10]. constructor; try done.
  apply Forall_forall. intros e He. by apply H10, list_elem_of_In.
Qed.

Definition inner (e : Element) : bytes := tagName e ++ generateAttributes (attributes e).
(** The start of an element up to its first child. *)
Definition head_text (e : Element) : bytes := 60 :: inner e ++ 62 :: text e.
Definition forest (l : list Element) : bytes := concat (map render l).
Definition close_text (t : bytes) : bytes := 60 :: 47 :: t ++ [62].
Lemma render_parts e : render e = head_text e ++ forest (elements e) ++ close_text (tagName e).
Proof.
  destruct e as [t n x c a ns l m]. cbn [render tagName text attributes elements]. unfold head_text, inner, forest, close_text.
  cbn [tagName text attributes elements].
  unfold generateStartOpenTag, generateEndOpenTag, generateCloseTag. change (str "<") with [60]. change (str ">") with [62]. change (str "</") with [60; 47].
  cbn [app]. f_equal. rewrite <- !app_assoc. cbn [app]. done.
Qed.
Lemma forest_cons e l : forest (e :: l) = render e ++ forest l.
Proof. done. Qed.

(** *** What stands next to the marks *)

Lemma cons_cut (d : Z) x y a b : x ++ y = a ++ d :: b →
  (∃ b', x = a ++ d :: b' ∧ b = b' ++ y) ∨ (∃ a', a = x ++ a' ∧ y = a' ++ d :: b).
Proof.
  revert a. induction x as [|c x IH]; intros a E; cbn in E.
  - right. exists a. done.
  - destruct a as [|c' a]; cbn in E; injection E as -> E.
    + left. exists x. done.
    + destruct (IH a E) as [(b' & -> & ->)|(a' & -> & ->)]; [left; by exists b'|right; by exists a'].
Qed.

Definition lt_ok (s : bytes) : Prop :=
  ∀ a b, s = a ++ 60 :: b → ∃ c b', b = c :: b' ∧ (name_start c ∨ c = 47 ∧ ∃ d b'', b' = d :: b'' ∧ name_start d).
Definition gt_ok (s : bytes) : Prop :=
  ∀ a b, s = a ++ 62 :: b → ∃ a' c, a = a' ++ [c] ∧ c ≠ 47 ∧ (c = 32 → ∃ a'', a' = a'' ++ [34]).
Lemma lt_ok_app x y : lt_ok x → lt_ok y → lt_ok (x ++ y).
Proof.
  intros Hx Hy a b E. destruct (cons_cut _ _ _ _ _ E) as [(b' & Ex & ->)|(a' & -> & Ey)]; [|by apply (Hy a')].
  destruct (Hx _ _ Ex) as (c & b1 & -> & H). exists c, (b1 ++ y). split; [done|]. destruct H as [?|(? & d & b2 & -> & ?)]; [by left|right].
  split; [done|]. exists d, (b2 ++ y). done.
Qed.
Lemma gt_ok_app x y : gt_ok x → gt_ok y → gt_ok (x ++ y).
Proof.
  intros Hx Hy a b E. destruct (cons_cut _ _ _ _ _ E) as [(b' & Ex & ->)|(a' & -> & Ey)]; [by apply (Hx a b')|].
  destruct (Hy _ _ Ey) as (a1 & c & -> & ? & H). exists (x ++ a1), c. split_and!; [by rewrite app_assoc|done|].
  intros Hc. destruct (H Hc) as (a2 & ->). exists (x ++ a2). by rewrite app_assoc.
Qed.
Lemma elem_mark (d : Z) a b : ¬ (d ∉ a ++ d :: b).
Proof. intros H. apply H, elem_of_app. right. left. Qed.
Lemma lt_ok_none s : 60 ∉ s → lt_ok s.
Proof. intros H a b ->. by apply elem_mark in H. Qed.
Lemma gt_ok_none s : 62 ∉ s → gt_ok s.
Proof. intros H a b ->. by apply elem_mark in H. Qed.
(** A single mark at the start or at the end. *)
Lemma lt_ok_tag t : 60 ∉ t → (∃ c b', t = c :: b' ∧ (name_start c ∨ c = 47 ∧ ∃ d b'', b' = d :: b'' ∧ name_start d)) → lt_ok (60 :: t).
Proof.
  intros Ht H a b E. destruct a as [|x a]; cbn in E; [by injection E as <-|].
  injection E as <- ->. by apply elem_mark in Ht.
Qed.
Lemma gt_ok_tag t u : 62 ∉ t → 62 ∉ u → (∃ a' c, t = a' ++ [c] ∧ c ≠ 47 ∧ (c = 32 → ∃ a'', a' = a'' ++ [34])) → gt_ok (t ++ 62 :: u).
Proof.
  intros Ht Hu H a b E. destruct (cons_cut _ _ _ _ _ E) as [(b' & -> & _)|(a' & -> & E')].
  { exfalso. by apply (elem_mark 62 a b') in Ht. }
  destruct a' as [|x a']; cbn in E'; [by rewrite app_nil_r|]. injection E' as <- ->. exfalso. by apply elem_mark in Hu.
Qed.

(** *** The marks of a plain element *)

Lemma name_char_not c d : name_char c → d ∈ [60; 62; 47; 61; 34; 58; 32; 9; 12; 11; 10; 13] → c ≠ d.
Proof. by intros H Hd ->. Qed.
Lemma name_no t d : Forall name_char t → d ∈ [60; 62; 47; 61; 34; 58; 32; 9; 12; 11; 10; 13] → d ∉ t.
Proof. intros H Hd Hin. rewrite Forall_forall in H. by apply (H d). Qed.
Ltac in_set := repeat (first [left | right]); done.

Lemma attribute_text_no a d : xml_attribute_ok a → d = 60 ∨ d = 62 → d ∉ attribute_text a.
Proof.
  intros (Hk & _ & Hv & _) Hd. unfold attribute_text. change (str " ") with [32].
  rewrite Forall_forall in Hv. rewrite !not_elem_of_app, !not_elem_of_cons.
  split_and!; try apply not_elem_of_nil; try (destruct Hd; lia).
  - apply name_no; [done|]. destruct Hd as [-> | ->]; set_solver.
  - intros Hin. apply (Hv d Hin). destruct Hd as [-> | ->]; set_solver.
Qed.
Lemma generateAttributes_no l d : Forall xml_attribute_ok l → d = 60 ∨ d = 62 → d ∉ generateAttributes l.
Proof.
  intros H Hd. unfold generateAttributes. induction H as [|a l Ha H IH]; cbn [map concat]; [apply not_elem_of_nil|].
  rewrite elem_of_app. intros [?|?]; [by apply (attribute_text_no a d)|by apply IH].
Qed.
Lemma inner_no e d : plain_parts e → d = 60 ∨ d = 62 → d ∉ inner e.
Proof.
  intros He Hd. unfold inner. rewrite elem_of_app. intros [Hin|Hin].
  - destruct (pp_name e He) as [Hn _]. revert Hin. apply name_no; [done|]. destruct Hd as [-> | ->]; set_solver.
  - revert Hin. by apply generateAttributes_no; [apply pp_attrs|].
Qed.
Lemma name_first t : name_ok t → ∃ c t', t = c :: t' ∧ name_start c ∧ Forall name_char t'.
Proof. intros [H Hc]. destruct t as [|c t]; [done|]. apply Forall_cons in H as [H1 H2]. by exists c, t. Qed.
Lemma name_last t : name_ok t → ∃ t' c, t = t' ++ [c] ∧ name_char c.
Proof.
  intros (Hn & Hc). destruct t as [|c t _] using rev_ind; [done|]. apply Forall_app in Hn as [_ Hn]. apply Forall_cons in Hn as [Hn _].
  by exists t, c.
Qed.
Lemma attributes_last l : Forall xml_attribute_ok l → l ≠ [] → ∃ b, generateAttributes l = b ++ [34; 32].
Proof.
  intros H Hne. destruct l as [|a l _] using rev_ind; [done|]. unfold generateAttributes. rewrite map_app, concat_app. cbn [map concat].
  rewrite app_nil_r. unfold attribute_text. eexists. rewrite !app_assoc. done.
Qed.
Lemma inner_last e : plain_parts e → ∃ a' c, inner e = a' ++ [c] ∧ c ≠ 47 ∧ (c = 32 → ∃ a'', a' = a'' ++ [34]).
Proof.
  intros He. unfold inner. destruct (attributes e) as [|a l] eqn:E.
  - cbn. rewrite app_nil_r. destruct (name_last _ (pp_name e He)) as (t & c & -> & Hc). exists t, c.
    split_and!; [done|apply (name_char_not c 47 Hc); set_solver|]. intros ->. exfalso. apply Hc. set_solver.
  - destruct (attributes_last (attributes e)) as [b Hb]; [by apply pp_attrs|by rewrite E|]. rewrite E in Hb. rewrite Hb.
    exists (tagName e ++ b ++ [34]), 32. rewrite <- !app_assoc. split_and!; [done|done|]. intros _. exists (tagName e ++ b). by rewrite <- app_assoc.
Qed.
Lemma text_no e d : plain_parts e → d = 60 ∨ d = 62 → d ∉ text e.
Proof. intros He Hd Hin. pose proof (pp_text e He) as H. unfold xml_text_ok in H. rewrite Forall_forall in H. apply (H d Hin). set_solver. Qed.

Lemma head_no_lt e : plain_parts e → 60 ∉ inner e ++ 62 :: text e.
Proof.
  intros He. rewrite elem_of_app, elem_of_cons. intros [H|[H|H]]; [by apply (inner_no e 60) in H; auto|done|by apply (text_no e 60) in H; auto].
Qed.
Lemma head_lt_ok e : plain_parts e → lt_ok (head_text e).
Proof.
  intros He. apply lt_ok_tag; [by apply head_no_lt|]. destruct (name_first _ (pp_name e He)) as (c & t & E & Hc & _).
  unfold inner. rewrite E. cbn [app]. eexists _, _. split; [done|]. by left.
Qed.
Lemma head_gt_ok e : plain_parts e → gt_ok (head_text e).
Proof.
  intros He. unfold head_text. rewrite app_comm_cons. apply gt_ok_tag.
  - rewrite elem_of_cons. intros [?|H]; [done|]. by apply (inner_no e 62) in H; auto.
  - intros H. by apply (text_no e 62) in H; auto.
  - destruct (inner_last e He) as (a & c & -> & Hc & H). exists (60 :: a), c. split_and!; [done|done|].
    intros Hx. destruct (H Hx) as [a' ->]. by exists (60 :: a').
Qed.
Lemma close_ok t : name_ok t → lt_ok (close_text t) ∧ gt_ok (close_text t).
Proof.
  intros Ht. pose proof Ht as [Hn _]. unfold close_text. split.
  - apply lt_ok_tag.
    + rewrite elem_of_cons, elem_of_app, elem_of_cons, elem_of_nil. intros [?|[H|[?|?]]]; try done. revert H. apply name_no; [done|set_solver].
    + destruct (name_first t Ht) as (c & t' & -> & Hc & _). eexists _, _. split; [done|]. right. split; [done|]. cbn. eexists _, _. done.
  - apply (gt_ok_tag (60 :: 47 :: t) []).
    + rewrite !elem_of_cons. intros [?|[?|H]]; try done. revert H. apply name_no; [done|set_solver].
    + apply not_elem_of_nil.
    + destruct (name_last t Ht) as (t' & c & -> & Hc). exists (60 :: 47 :: t'), c.
      split_and!; [done|apply (name_char_not c 47 Hc); set_solver|]. intros ->. exfalso. apply Hc. set_solver.
Qed.

Lemma render_ok e : plain e = true → lt_ok (render e) ∧ gt_ok (render e).
Proof.
  induction e as [e IH] using Element_rule. intros Hp. pose proof (plain_inv e Hp) as He. rewrite render_parts.
  assert (lt_ok (forest (elements e)) ∧ gt_ok (forest (elements e))) as [Hl Hg].
  { pose proof (pp_children e He) as Hc. revert IH Hc. generalize (elements e). intros l IH Hc. unfold forest.
    induction l as [|x l IHl]; cbn [map concat]; [split; [apply lt_ok_none, not_elem_of_nil|apply gt_ok_none, not_elem_of_nil]|].
    apply Forall_cons in IH as [H1 H2]. apply Forall_cons in Hc as [Hc1 Hc2].
    destruct (H1 Hc1), (IHl H2 Hc2). split; [by apply lt_ok_app|by apply gt_ok_app]. }
  destruct (close_ok _ (pp_name e He)). split; [apply lt_ok_app; [by apply head_lt_ok|by apply lt_ok_app]|].
  apply gt_ok_app; [by apply head_gt_ok|by apply gt_ok_app].
Qed.
Definition all_plain (l : list Element) : Prop := Forall (λ e, plain e = true) l.
Lemma forest_ok l : all_plain l → lt_ok (forest l) ∧ gt_ok (forest l).
Proof.
  induction 1 as [|e l He H IH]; [split; [apply lt_ok_none, not_elem_of_nil|apply gt_ok_none, not_elem_of_nil]|].
  rewrite forest_cons. destruct (render_ok e He), IH. split; [by apply lt_ok_app|by apply gt_ok_app].
Qed.

(** *** What is not found *)

Lemma lt_not_found s c p : lt_ok s → ¬ name_start c → c ≠ 47 → sfind (60 :: c :: p) s = None.
Proof.
  intros Hs Hc H47. destruct (sfind _ s) as [i|] eqn:E; [|done]. exfalso. apply sfind_Some in E as [E _]. cbn [app] in E.
  destruct (Hs _ _ E) as (d & b & [= <- <-] & [?|(? & _)]); done.
Qed.
Lemma lt_close_not_found s c p : lt_ok s → ¬ name_start c → sfind (60 :: 47 :: c :: p) s = None.
Proof.
  intros Hs Hc. destruct (sfind _ s) as [i|] eqn:E; [|done]. exfalso. apply sfind_Some in E as [E _]. cbn [app] in E.
  destruct (Hs _ _ E) as (d & b & [= <- <-] & [[H _]|(_ & x & y & [= <- <-] & ?)]); [|done]. apply H. set_solver.
Qed.
Lemma gt_not_found s : gt_ok s → sfind [47; 62] s = None ∧ sfind [47; 32; 62] s = None.
Proof.
  intros Hs. split.
  - destruct (sfind _ s) as [i|] eqn:E; [|done]. exfalso. apply sfind_Some in E as [E _]. cbn [app] in E.
    destruct (Hs (take i s ++ [47]) (drop (i + length [47; 62]) s)) as (a & c & Ha & Hc & _); [rewrite <- app_assoc; exact E|].
    apply app_inj_tail in Ha as [_ <-]. done.
  - destruct (sfind _ s) as [i|] eqn:E; [|done]. exfalso. apply sfind_Some in E as [E _]. cbn [app] in E.
    destruct (Hs ((take i s ++ [47]) ++ [32]) (drop (i + length [47; 32; 62]) s)) as (a & c & Ha & Hc & H); [rewrite <- !app_assoc; exact E|].
    apply app_inj_tail in Ha as [<- <-]. destruct (H eq_refl) as [a' Ha]. by apply app_inj_tail in Ha as [_ ?].
Qed.
Lemma not_name_start c : c ∈ [33; 63; 32; 9; 47] → ¬ name_start c.
Proof. intros Hc (H & H1 & H2). unfold name_char in H. set_solver. Qed.

(** *** Opening and closing tags *)

Definition opens (t s : bytes) : Z := cnt (60 :: t ++ [62]) s + cnt (60 :: t ++ [32]) s.
Definition closes (t s : bytes) : Z := cnt (60 :: 47 :: t ++ [62]) s.

Lemma tag_no_lt (t : bytes) c : name_ok t → c ≠ 60 → 60 ∉ t ++ [c].
Proof.
  intros [Ht _] Hc. rewrite not_elem_of_app, not_elem_of_cons. split_and!; [apply name_no; [done|set_solver]|done|apply not_elem_of_nil].
Qed.
Lemma close_no_lt t : name_ok t → 60 ∉ 47 :: t ++ [62].
Proof. intros Ht. rewrite not_elem_of_cons. split; [done|]. by apply tag_no_lt. Qed.
Lemma opens_app t a b : name_ok t → starts_tag b → opens t (a ++ b) = opens t a + opens t b.
Proof. intros Ht Hb. unfold opens. rewrite !cnt_app by (done || by apply tag_no_lt). lia. Qed.
Lemma closes_app t a b : name_ok t → starts_tag b → closes t (a ++ b) = closes t a + closes t b.
Proof. intros Ht Hb. unfold closes. apply cnt_app; [by apply close_no_lt|done]. Qed.
Lemma opens_none t a : 60 ∉ a → opens t a = 0.
Proof. intros Ha. unfold opens. by rewrite !cnt_absent. Qed.
Lemma closes_none t a : 60 ∉ a → closes t a = 0.
Proof. intros Ha. unfold closes. by rewrite cnt_absent. Qed.

(** A name with what follows it, in front of another one. *)
Lemma prefixb_name t u x y r : Forall name_char t → Forall name_char u → x ∈ [62; 32] → y ∈ [62; 32] →
  prefixb (t ++ [x]) (u ++ y :: r) = bool_decide (t = u ∧ x = y).
Proof.
  intros Ht. revert u. induction Ht as [|c t Hc Ht IH]; intros u Hu Hx Hy.
  - destruct Hu as [|d u Hd Hu]; cbn [app prefixb].
    + rewrite andb_true_r. apply eq_true_iff_eq. rewrite bool_decide_eq_true, Z.eqb_eq. naive_solver.
    + rewrite andb_true_r. assert (x ≠ d) by (intros ->; apply Hd; set_solver).
      rewrite bool_decide_false by naive_solver. lia.
  - destruct Hu as [|d u Hd Hu]; cbn [app prefixb].
    + assert (c ≠ y) by (intros ->; apply Hc; set_solver). rewrite bool_decide_false by naive_solver.
      replace (c =? y) with false by lia. done.
    + rewrite IH by done. destruct (Z.eqb_spec c d) as [->|]; cbn [andb].
      * apply bool_decide_ext. naive_solver.
      * rewrite bool_decide_false by naive_solver. done.
Qed.

Lemma inner_next e : plain_parts e → ∃ y r, inner e ++ 62 :: text e = tagName e ++ y :: r ∧ y ∈ [62; 32].
Proof.
  intros He. unfold inner. rewrite <- app_assoc. destruct (attributes e) as [|a l].
  - exists 62, (text e). split; [done|set_solver].
  - unfold generateAttributes, attribute_text. cbn [map concat]. change (str " ") with [32]. eexists 32, _. split; [cbn [app]; done|set_solver].
Qed.
Lemma opens_head t e : name_ok t → plain_parts e → opens t (head_text e) = if decide (t = tagName e) then 1 else 0.
Proof.
  intros [Ht _] He. destruct (pp_name e He) as [Hn _]. unfold opens, head_text. rewrite !cnt_tag by by apply head_no_lt.
  destruct (inner_next e He) as (y & r & -> & Hy). rewrite !prefixb_name by (done || set_solver).
  rewrite !elem_of_cons, elem_of_nil in Hy. case_decide as E.
  - destruct Hy as [->|[->|?]]; [| |done].
    + rewrite bool_decide_true, bool_decide_false by naive_solver. done.
    + rewrite bool_decide_false, bool_decide_true by naive_solver. done.
  - rewrite !bool_decide_false by naive_solver. done.
Qed.
Lemma closes_head t e : name_ok t → plain_parts e → closes t (head_text e) = 0.
Proof.
  intros Ht He. unfold closes, head_text. rewrite cnt_tag by by apply head_no_lt.
  destruct (name_first _ (pp_name e He)) as (c & t' & E & Hc & _). unfold inner. rewrite E. cbn [app prefixb].
  replace (47 =? c) with false; [done|]. symmetry. apply Z.eqb_neq. intros <-. destruct Hc as [Hc _]. apply Hc. set_solver.
Qed.
Lemma opens_close t u : name_ok t → name_ok u → opens t (close_text u) = 0.
Proof.
  intros Ht Hu. unfold opens, close_text. rewrite !cnt_tag by by apply close_no_lt.
  destruct (name_first t Ht) as (c & t' & -> & Hc & _). cbn [app prefixb].
  replace (c =? 47) with false; [done|]. symmetry. apply Z.eqb_neq. intros ->. destruct Hc as [Hc _]. apply Hc. set_solver.
Qed.
Lemma closes_close t u : name_ok t → name_ok u → closes t (close_text u) = if decide (t = u) then 1 else 0.
Proof.
  intros Ht Hu. unfold closes, close_text. rewrite cnt_tag by by apply close_no_lt. cbn [prefixb]. rewrite Z.eqb_refl. cbn [andb].
  destruct Ht as [Ht _], Hu as [Hu _]. rewrite prefixb_name by (done || set_solver).
  case_decide; [rewrite bool_decide_true by naive_solver|rewrite bool_decide_false by naive_solver]; done.
Qed.

(** *** Balance *)

Lemma starts_render e : ∃ t, render e = 60 :: t.
Proof. rewrite render_parts. unfold head_text. by eexists. Qed.
Lemma starts_forest l : starts_tag (forest l).
Proof. destruct l as [|e l]; [by left|]. right. rewrite forest_cons. destruct (starts_render e) as [t ->]. by eexists. Qed.
Lemma starts_close t s : starts_tag (close_text t ++ s).
Proof. right. by eexists. Qed.
Lemma starts_app a b : starts_tag a → starts_tag b → starts_tag (a ++ b).
Proof. intros [->|[t ->]] Hb; [done|]. right. by eexists. Qed.
Lemma starts_prefix u v : starts_tag (u ++ v) → starts_tag u.
Proof. destruct u as [|c u]; [by left|]. intros [?|[t [= -> _]]]; [done|]. right. by eexists. Qed.

(** The text before the first separator. *)
Lemma separator_first (d : Z) a a' b b' : d ∉ a → d ∉ a' → a ++ d :: b = a' ++ d :: b' → a = a' ∧ b = b'.
Proof.
  revert a'. induction a as [|x a IH]; intros [|y a'] Ha Ha' E; cbn in E; injection E.
  - done.
  - intros _ <-. exfalso. apply Ha'. left.
  - intros _ ->. exfalso. apply Ha. left.
  - intros E' ->. destruct (IH a') as [-> ->]; [set_solver|set_solver|done|done].
Qed.

(** A closing tag does not straddle what ends before a tag. *)
Lemma close_inside t x y u v : name_ok t → starts_tag y → x ++ y = u ++ close_text t ++ v →
  (∃ v', x = u ++ close_text t ++ v') ∨ (∃ u', u = x ++ u' ∧ y = u' ++ close_text t ++ v).
Proof.
  intros Ht Hy E. unfold close_text in *. cbn [app] in E.
  destruct (cons_cut _ _ _ _ _ E) as [(b & Ex & Eb)|(a & -> & Ey)]; [left|right; by exists a].
  assert (prefixb (47 :: t ++ [62]) b = true) as [k ->]%prefixb_spec.
  { rewrite <- (prefixb_tag _ b y) by (done || by apply close_no_lt). rewrite <- Eb. 
    apply prefixb_spec. exists v. done. }
  exists k. exact Ex.
Qed.

(** As many tags of a name are opened as closed, and before each closing tag more. *)
Definition balanced (t s : bytes) : Prop :=
  opens t s = closes t s ∧ ∀ u v, s = u ++ close_text t ++ v → closes t u < opens t u.

Lemma balanced_none t s : 60 ∉ s → balanced t s.
Proof.
  intros Hs. split; [by rewrite opens_none, closes_none|]. intros u v ->. by apply elem_mark in Hs.
Qed.
Lemma balanced_app t a b : name_ok t → starts_tag b → balanced t a → balanced t b → balanced t (a ++ b).
Proof.
  intros Ht Hb [Ea Ha] [Eb Hb']. split; [rewrite opens_app, closes_app by done; lia|]. intros u v E.
  destruct (close_inside _ _ _ _ _ Ht Hb E) as [(v' & Ex)|(u' & -> & Ey)]; [by apply (Ha u v')|].
  assert (starts_tag u') as Hu by (rewrite Ey in Hb; by apply starts_prefix in Hb).
  rewrite opens_app, closes_app by done. specialize (Hb' _ _ Ey). lia.
Qed.
Lemma balanced_element t e s : name_ok t → plain_parts e → balanced t s → starts_tag s →
  balanced t (head_text e ++ s ++ close_text (tagName e)).
Proof.
  intros Ht He [Es Hs] Hst. pose proof (pp_name e He) as Hn.
  assert (starts_tag (close_text (tagName e))) as Hc by (rewrite <- (app_nil_r (close_text _)); apply starts_close).
  assert (starts_tag (s ++ close_text (tagName e))) as Hsc by by apply starts_app.
  split.
  - rewrite !opens_app, !closes_app by done. rewrite opens_head, closes_head, opens_close, closes_close by done. case_decide; lia.
  - intros u v E. destruct (close_inside _ _ _ _ _ Ht Hsc E) as [(v' & Ex)|(u' & -> & Ey)].
    + exfalso. unfold head_text, close_text in Ex. destruct u as [|x u]; cbn [app] in Ex.
      * injection Ex as Ex. destruct (name_first _ Hn) as (c & t' & Et & Hc' & _). unfold inner in Ex. rewrite Et in Ex. cbn [app] in Ex.
        injection Ex as -> _. destruct Hc' as [Hc' _]. apply Hc'. set_solver.
      * injection Ex as _ Ex. pose proof (head_no_lt e He) as Hno. rewrite Ex in Hno. by apply elem_mark in Hno.
    + assert (starts_tag u') as Hu by (rewrite Ey in Hsc; by apply starts_prefix in Hsc).
      rewrite opens_app, closes_app by done. rewrite opens_head, closes_head by done.
      destruct (close_inside _ _ _ _ _ Ht Hc Ey) as [(v' & Ex)|(u2 & -> & Ez)]; [specialize (Hs _ _ Ex); case_decide; lia|].
      unfold close_text in Ez. destruct u2 as [|x u2]; cbn [app] in Ez.
      * injection Ez as Ez. assert (tagName e = t) as Et.
        { destruct (separator_first 62 (tagName e) t [] v) as [? _]; try done; [destruct Hn as [Hn _]; apply name_no; [done|set_solver]|destruct Ht as [Ht _]; apply name_no; [done|set_solver]|].
          rewrite Ez. by rewrite <- app_assoc. }
        rewrite app_nil_r. rewrite decide_True by done. lia.
      * injection Ez as _ Ez. exfalso. pose proof (close_no_lt _ Hn) as Hno. rewrite Ez in Hno. by apply elem_mark in Hno.
Qed.

Lemma balanced_render t e : name_ok t → plain e = true → balanced t (render e).
Proof.
  intros Ht. induction e as [e IH] using Element_rule. intros Hp. pose proof (plain_inv e Hp) as He. rewrite render_parts.
  apply balanced_element; [done|done| |apply starts_forest].
  pose proof (pp_children e He) as Hc. revert IH Hc. generalize (elements e). intros l IH Hc. unfold forest.
  induction l as [|x l IHl]; [apply balanced_none, not_elem_of_nil|]. cbn [map concat].
  apply Forall_cons in IH as [H1 H2]. apply Forall_cons in Hc as [Hc1 Hc2].
  apply balanced_app; [done|apply starts_forest|by apply H1|by apply IHl].
Qed.
Lemma balanced_content t e : name_ok t → plain e = true → balanced t (text e ++ forest (elements e)).
Proof.
  intros Ht Hp. pose proof (plain_inv e Hp) as He. apply balanced_app; [done|apply starts_forest| |].
  - apply balanced_none, text_no; auto.
  - pose proof (pp_children e He) as Hc. revert Hc. generalize (elements e). intros l Hc. unfold forest.
    induction Hc as [|x l Hx Hc IHl]; [apply balanced_none, not_elem_of_nil|]. cbn [map concat].
    apply balanced_app; [done|apply starts_forest|by apply balanced_render|done].
Qed.

(** *** The end of an element *)

Lemma sfind_le p a b : ∃ j, sfind p (a ++ p ++ b) = Some j ∧ (j ≤ length a)%nat.
Proof.
  induction a as [|x a (j & E & Hj)]; cbn [app].
  - exists 0%nat. split; [apply sfind_here|done].
  - cbn [sfind]. destruct (prefixb p (x :: a ++ p ++ b)); [exists 0%nat; split; [done|lia]|].
    exists (S j). rewrite E. split; [done|cbn; lia].
Qed.
Lemma str_tags (t : bytes) : str "<" ++ t ++ str ">" = 60 :: t ++ [62] ∧ str "<" ++ t ++ str " " = 60 :: t ++ [32] ∧ str "</" ++ t ++ str ">" = close_text t.
Proof. done. Qed.
Lemma size_t_int x : 0 ≤ x < 2 ^ 31 → size_t x = x.
Proof. intros. unfold size_t. apply wrapu_small. lia. Qed.

Lemma close_slen t : slen (close_text t) = slen t + 3.
Proof. unfold close_text. rewrite !slen_cons, slen_app. change (slen [62]) with 1. lia. Qed.
Lemma slen_take_le (n : nat) (s : bytes) : slen (take n s) ≤ slen s.
Proof. unfold slen. rewrite length_take. lia. Qed.
Lemma countOccurrences_tags t u : slen u < 2 ^ 31 →
  countOccurrences u (60 :: t ++ [62]) = Ret (cnt (60 :: t ++ [62]) u) ∧
  countOccurrences u (60 :: t ++ [32]) = Ret (cnt (60 :: t ++ [32]) u) ∧
  countOccurrences u (close_text t) = Ret (closes t u).
Proof. intros Hu. rewrite !countOccurrences_cnt by done. done. Qed.
(** The first closing tag from behind another one. *)
Lemma next_close t pre u w : name_ok t →
  sfind_from (close_text t) (pre ++ u ++ close_text t ++ w) (length pre + length u + 2) =
  (λ j, (length pre + length u + length (close_text t) + j)%nat) <$> sfind (close_text t) w.
Proof.
  intros Ht. unfold sfind_from. assert (length (close_text t) = length t + 3)%nat as Hl by (unfold close_text; cbn; rewrite length_app; cbn; lia).
  rewrite (proj2 (Nat.leb_le _ _)) by (rewrite !length_app, Hl; lia).
  rewrite (app_assoc pre u). rewrite drop_app_ge by (rewrite length_app; lia).
  replace (length pre + length u + 2 - length (pre ++ u))%nat with 2%nat by (rewrite length_app; lia).
  unfold close_text at 2. cbn [app drop]. rewrite <- app_assoc, drop_0.
  rewrite sfind_absent.
  2:{ unfold close_text. rewrite app_comm_cons. change (62 :: w) with ([62] ++ w). 
      apply absent_first, Forall_forall. intros x Hx ->. destruct Ht as [Ht _]. by apply (name_no t 60) in Hx; [|done|set_solver]. }
  assert (sfind (close_text t) ([62] ++ w) = S <$> sfind (close_text t) w) as -> by (unfold close_text; cbn; done).
  rewrite Hl. destruct (sfind (close_text t) w); cbn; [f_equal; lia|done].
Qed.

Lemma matching_end_ok t pre c rest fuel u w :
  name_ok t → balanced t c → slen (pre ++ c ++ close_text t ++ rest) < 2 ^ 31 → pre ≠ [] →
  c ++ close_text t ++ rest = u ++ close_text t ++ w → (length u ≤ length c)%nat → (length c - length u < fuel)%nat →
  matching_end fuel (pre ++ c ++ close_text t ++ rest) t (slen pre - 1) (slen pre + slen u) = Ret (slen pre + slen c, c).
Proof.
  intros Ht Hbal Hlen Hpre. revert u w. induction fuel as [|fuel IH]; intros u w E Hu Hf; [lia|]. cbn [matching_end].
  destruct (str_tags t) as (-> & -> & ->).
  assert (slen u ≤ slen c) as Hul by (unfold slen; lia).
  pose proof (slen_pos pre Hpre). rewrite !slen_app, close_slen in Hlen.
  pose proof (slen_nonneg u). pose proof (slen_nonneg rest). pose proof (slen_nonneg t).
  unfold substr_int. rewrite !size_t_int by lia.
  rewrite E at 1. rewrite (substr_app_mid pre u) by lia. rewrite bind_Ret_l.
  destruct (countOccurrences_tags t u ltac:(lia)) as (-> & -> & ->). rewrite !bind_Ret_l. fold (opens t u).
  destruct (decide (length u = length c)) as [El|El].
  - apply app_inj_1 in E as [-> _]; [|done]. destruct Hbal as [-> _]. rewrite Z.eqb_refl. done.
  - assert (∃ v, c = u ++ close_text t ++ v) as (v & Ev).
    { destruct (close_inside t c (close_text t ++ rest) u w Ht (starts_close t rest)) as [?|(u' & -> & _)]; [done|done|].
      rewrite length_app in Hu, El. lia. }
    assert (closes t u < opens t u) as Hlt by by apply (proj2 Hbal u v).
    replace (opens t u =? closes t u) with false by lia.
    replace (0 <=? slen pre + slen u + 2) with true by lia.
    replace (Z.to_nat (slen pre + slen u + 2)) with (length pre + length u + 2)%nat by (unfold slen; lia).
    assert (w = v ++ close_text t ++ rest) as Ew.
    { rewrite Ev, <- !app_assoc in E. apply app_inv_head, app_inv_head in E. done. }
    rewrite E at 1. rewrite next_close by done.
    destruct (sfind_le (close_text t) v rest) as (j & Ej & Hj). rewrite Ew at 1. rewrite Ej. cbn [fmap option_fmap option_map].
    pose proof (sfind_Some _ _ _ Ej) as [Es _].
    assert (length c = length u + length (close_text t) + length v)%nat as Hc by (rewrite Ev, !length_app; lia).
    specialize (IH (u ++ close_text t ++ take j (v ++ close_text t ++ rest)) (drop (j + length (close_text t)) (v ++ close_text t ++ rest))).
    assert (length (take j (v ++ close_text t ++ rest)) = j) as Htk by (rewrite length_take, length_app; lia).
    rewrite !length_app, Htk in IH.
    assert (slen (u ++ close_text t ++ take j (v ++ close_text t ++ rest)) = slen u + slen (close_text t) + Z.of_nat j) as Hsl
      by (rewrite !slen_app; unfold slen at 3; rewrite Htk; lia).
    assert (Z.of_nat (length pre + length u + length (close_text t) + j) ≤ slen pre + slen c) by (unfold slen; lia).
    rewrite wraps_small by lia.
    rewrite Hsl in IH. replace (Z.of_nat (length pre + length u + length (close_text t) + j)) with (slen pre + (slen u + slen (close_text t) + Z.of_nat j)) by (unfold slen; lia).
    apply IH; [|lia|].
    + rewrite E, Ew. rewrite <- !app_assoc. do 2 f_equal. exact Es.
    + assert (0 < length (close_text t))%nat by (unfold close_text; cbn; lia). lia.
Qed.

(** *** The tag and its attributes *)

(** The attributes without the blanks at both ends. *)
Definition pair_text (a : bytes * bytes) : bytes := a.1 ++ [61; 34] ++ a.2 ++ [34].
Fixpoint attribute_core (l : list (bytes * bytes)) : bytes :=
  match l with [] => [] | [a] => pair_text a | a :: l => pair_text a ++ [32; 32] ++ attribute_core l end.
Lemma generateAttributes_core l : l ≠ [] → generateAttributes l = 32 :: attribute_core l ++ [32].
Proof.
  intros Hl. induction l as [|a [|b l] IH]; [done| |].
  - unfold generateAttributes, attribute_text. cbn [map concat attribute_core]. unfold pair_text. rewrite app_nil_r, <- !app_assoc. done.
  - change (generateAttributes (a :: b :: l)) with (attribute_text a ++ generateAttributes (b :: l)). rewrite IH by done.
    change (attribute_core (a :: b :: l)) with (pair_text a ++ [32; 32] ++ attribute_core (b :: l)).
    unfold attribute_text, pair_text. cbn [app]. change (str " ") with [32]. rewrite <- !app_assoc. cbn [app]. rewrite <- !app_assoc. done.
Qed.

Definition blanks (n : nat) : bytes := replicate n 32.
Lemma length_blanks n : length (blanks n) = n.
Proof. apply length_replicate. Qed.
Lemma not_blank_Forall n : Forall (λ c, negb (memb c [32]) = false) (blanks n).
Proof. induction n; constructor; done. Qed.
Lemma not_blank c : c ≠ 32 → negb (memb c [32]) = true.
Proof. intros. rewrite memb_single. by replace (c =? 32) with false by lia. Qed.

Lemma without_blanks_ok m n y c d : slen y + Z.of_nat m + Z.of_nat n < 2 ^ 31 → head y = Some c → c ≠ 32 → last y = Some d → d ≠ 32 →
  without_blanks (blanks m ++ y ++ blanks n) = Ret y.
Proof.
  intros Hlen Hh Hc Hl Hd. destruct y as [|c' y]; [done|]. cbn in Hh. injection Hh as ->.
  assert (∃ y', c :: y = y' ++ [d]) as (y' & Ey). { apply last_Some in Hl as [y' ->]. by exists y'. }
  unfold without_blanks, first_not_blank, last_not_blank, find_first_not_of, find_last_not_of.
  cbn [app]. rewrite find_first_app by (apply not_blank_Forall || by apply not_blank). rewrite length_blanks.
  rewrite app_comm_cons, Ey, <- app_assoc, app_assoc. cbn [app]. rewrite find_last_app by (apply not_blank_Forall || by apply not_blank).
  assert (slen y' + 1 = slen (c :: y)) as El by (rewrite Ey, slen_app; done). pose proof (slen_nonneg y').
  rewrite length_app, length_blanks. rewrite !wraps_small by (unfold slen in *; lia).
  unfold substr_int. rewrite !size_t_int by (unfold slen in *; lia). rewrite <- app_assoc. change (d :: blanks n) with ([d] ++ blanks n).
  rewrite (app_assoc y'), <- Ey. apply substr_app_mid; [unfold slen; by rewrite length_blanks|]. rewrite <- El. unfold slen. lia.
Qed.

Lemma name_ends t : t ≠ [] → Forall name_char t → ∃ c d, head t = Some c ∧ c ≠ 32 ∧ last t = Some d ∧ d ≠ 32 ∧ ¬ ws c ∧ ¬ ws d.
Proof.
  intros Hne Ht. destruct t as [|c t]; [done|]. destruct (last (c :: t)) as [d|] eqn:El.
  2:{ by apply last_None in El. }
  assert (d ∈ c :: t) as Hd by by apply last_Some_elem_of. rewrite Forall_forall in Ht.
  assert (∀ x, name_char x → x ≠ 32 ∧ ¬ ws x) as H.
  { intros x Hx. split; [apply (name_char_not _ _ Hx); set_solver|]. intros Hw. apply Hx. unfold ws, whitespaces in Hw. set_solver. }
  destruct (H c (Ht c ltac:(left))), (H d (Ht d Hd)). exists c, d. done.
Qed.
Lemma trim_name t : t ≠ [] → Forall name_char t → trim t = t.
Proof.
  intros Hne Ht. destruct (name_ends t Hne Ht) as (c & d & Hc & _ & Hd & _ & Hw & Hw'). apply (trim_id c t d); try done.
  destruct t; [done|]. cbn in Hc. by injection Hc as ->.
Qed.

Definition add_attributes (l : list (bytes * bytes)) (e : Element) : Element := foldl (λ e a, addAttribute a.1 a.2 true e) e l.

Lemma read_attribute fuel m a rest e : xml_attribute_ok a → slen (blanks m ++ pair_text a ++ rest) < 2 ^ 31 →
  read_attributes (S fuel) (blanks m ++ pair_text a ++ rest) e = read_attributes fuel rest (addAttribute a.1 a.2 true e).
Proof.
  intros (Hk & Hne & Hv & _) Hlen. cbn [read_attributes].
  assert (blanks m ++ pair_text a ++ rest = (blanks m ++ a.1) ++ 61 :: 34 :: a.2 ++ 34 :: rest) as E
    by (unfold pair_text; rewrite <- !app_assoc; cbn [app]; rewrite <- ?app_assoc; done).
  rewrite E in *. clear E. unfold find_first_of.
  assert (∀ d, d ∈ [61; 34] → d ∉ blanks m ++ a.1) as Hno.
  { intros d Hd. rewrite not_elem_of_app. split.
    - unfold blanks. rewrite elem_of_replicate. intros [-> _]. set_solver.
    - apply name_no; [done|set_solver]. }
  assert (∀ (d : Z) s, d ∉ s → Forall (λ c, memb c [d] = false) s) as Hm by (intros d s; apply memb_not_in).
  rewrite find_first_app; [|by apply Hm, Hno; set_solver|done].
  change (61 :: 34 :: a.2 ++ 34 :: rest) with ([61] ++ 34 :: a.2 ++ 34 :: rest). rewrite (app_assoc (blanks m ++ a.1)).
  rewrite find_first_app; [|apply Hm; rewrite not_elem_of_app; split; [apply Hno; set_solver|set_solver]|done].
  rewrite <- (app_assoc (blanks m ++ a.1) [61]). cbn [app]. rewrite take_app_length.
  destruct (name_ends a.1 Hne Hk) as (c & d & Hc & Hc' & Hd & Hd' & _).
  pose proof (without_blanks_ok m 0 a.1 c d) as Hw. unfold blanks at 2 in Hw. cbn [replicate] in Hw. rewrite app_nil_r in Hw.
  rewrite Hw; [|rewrite !slen_app in Hlen; unfold slen, blanks in *; rewrite length_replicate in Hlen; cbn in Hlen; lia|done..]. rewrite bind_Ret_l.
  change (61 :: 34 :: a.2 ++ 34 :: rest) with ([61] ++ [34] ++ a.2 ++ 34 :: rest). rewrite !(app_assoc (blanks m ++ a.1)).
  assert (S (length ((blanks m ++ a.1) ++ [61])) = length (((blanks m ++ a.1) ++ [61]) ++ [34])) as -> by (rewrite (length_app _ [34]); cbn; lia).
  rewrite !(app_assoc _ [34]), !drop_app_length. rewrite find_first_app.
  2:{ apply Hm. intros Hin. rewrite Forall_forall in Hv. apply (Hv 34 Hin). set_solver. } 2:{ done. }
  rewrite take_app_length. change (34 :: rest) with ([34] ++ rest). rewrite (app_assoc a.2).
  assert (S (length a.2) = length (a.2 ++ [34])) as -> by (rewrite length_app; cbn; lia). rewrite drop_app_length.
  rewrite trim_name by done. done.
Qed.

Lemma attribute_core_cons a b l : attribute_core (a :: b :: l) = pair_text a ++ blanks 2 ++ attribute_core (b :: l).
Proof. done. Qed.
Lemma read_attributes_ok l m fuel e : Forall xml_attribute_ok l → l ≠ [] → slen (blanks m ++ attribute_core l) < 2 ^ 31 →
  (length l < fuel)%nat → read_attributes fuel (blanks m ++ attribute_core l) e = Ret (add_attributes l e).
Proof.
  intros H. revert m fuel e. induction H as [|a l Ha H IH]; intros m fuel e Hne Hlen Hf; [done|].
  destruct fuel as [|fuel]; [lia|]. destruct l as [|b l].
  - cbn [attribute_core] in *. rewrite <- (app_nil_r (pair_text a)) in *. rewrite read_attribute by done.
    cbn [length] in Hf. destruct fuel as [|fuel]; [lia|]. done.
  - rewrite attribute_core_cons in *. rewrite read_attribute by done. rewrite (IH 2%nat); [done|done| |cbn [length] in *; lia].
    rewrite slen_app in Hlen |- *. rewrite (slen_app (pair_text a)) in Hlen. rewrite slen_app in Hlen.
    pose proof (slen_nonneg (blanks m)). pose proof (slen_nonneg (pair_text a)). lia.
Qed.

Definition tag_text (e : Element) : bytes :=
  match attributes e with [] => tagName e | _ => tagName e ++ 32 :: attribute_core (attributes e) end.
Lemma attribute_core_last l : l ≠ [] → ∃ b, attribute_core l = b ++ [34].
Proof.
  induction l as [|a [|b l] IH]; intros Hl; [done| |].
  - exists (a.1 ++ [61; 34] ++ a.2). cbn [attribute_core]. unfold pair_text. by rewrite <- !app_assoc.
  - destruct IH as [t Ht]; [done|]. rewrite attribute_core_cons, Ht. exists (pair_text a ++ blanks 2 ++ t). by rewrite <- !app_assoc.
Qed.
Lemma inner_tag_text e : inner e = tag_text e ++ blanks (if decide (attributes e = []) then 0 else 1).
Proof.
  unfold inner, tag_text. case_decide as E; [by rewrite E|]. rewrite generateAttributes_core by done.
  destruct (attributes e) eqn:Ea; [done|]. rewrite <- app_assoc. done.
Qed.
Lemma without_blanks_inner e : plain_parts e → slen (inner e) + 1 < 2 ^ 31 → without_blanks (inner e) = Ret (tag_text e).
Proof.
  intros He Hlen. rewrite inner_tag_text in *. destruct (name_first _ (pp_name e He)) as (c & t & Et & [Hc _] & Ht).
  assert (head (tag_text e) = Some c) as Hh by (unfold tag_text; rewrite Et; by destruct (attributes e)).
  assert (∃ d, last (tag_text e) = Some d ∧ d ≠ 32) as (d & Hd & Hd').
  { unfold tag_text. destruct (attributes e) as [|a l] eqn:Ea.
    - destruct (name_ends (tagName e)) as (_ & d & _ & _ & ? & ? & _); [by rewrite Et|by destruct (pp_name e He)|]. by exists d.
    - destruct (attribute_core_last (a :: l)) as [b ->]; [done|]. exists 34. split; [|done].
      rewrite app_comm_cons, app_assoc. apply last_snoc. }
  pose proof (without_blanks_ok 0 (if decide (attributes e = []) then 0 else 1) (tag_text e) c d) as H. cbn [app blanks replicate] in H.
  apply H; try done; [|apply (name_char_not _ _ Hc); set_solver].
  rewrite slen_app in Hlen. unfold slen at 2 in Hlen. rewrite length_blanks in Hlen. lia.
Qed.

Lemma core_length l : (length l ≤ length (attribute_core l))%nat.
Proof.
  induction l as [|a [|b l] IH]; [done| |].
  - cbn [attribute_core]. unfold pair_text. rewrite !length_app. cbn. lia.
  - rewrite attribute_core_cons, !length_app. unfold pair_text. rewrite !length_app. cbn [length] in *. lia.
Qed.
Lemma open_element_ok e own : plain_parts e → slen (tag_text e) < 2 ^ 31 →
  open_element (tag_text e) own = Ret (tagName e, add_attributes (attributes e) own).
Proof.
  intros He Hlen. unfold open_element, find_first_of. destruct (pp_name e He) as [Hn _].
  assert (32 ∉ tagName e) as Hb by (apply name_no; [done|set_solver]).
  unfold tag_text in *. destruct (attributes e) as [|a l] eqn:Ea.
  - assert (find_first (λ c, memb c [32]) (tagName e) = None) as -> by by apply find_first_None, memb_not_in. done.
  - rewrite find_first_app by (by apply memb_not_in || done). change (32 :: attribute_core (a :: l)) with ([32] ++ attribute_core (a :: l)).
    rewrite take_app_length, app_assoc. assert (S (length (tagName e)) = length (tagName e ++ [32])) as -> by (rewrite length_app; cbn; lia).
    rewrite drop_app_length. pose proof (read_attributes_ok (a :: l) 0) as H. cbn [blanks replicate app] in H.
    rewrite H; [done| |done| |].
    + rewrite <- Ea. by apply pp_attrs.
    + rewrite slen_app, slen_cons in Hlen. pose proof (slen_nonneg (tagName e)). lia.
    + pose proof (core_length (a :: l)). rewrite !length_app. cbn [length] in *. lia.
Qed.

(** *** Putting the element together *)

Lemma mset_last (k v : bytes) m : Forall (λ p, bytes_lt p.1 k = true) m → mset k v m = m ++ [(k, v)].
Proof.
  induction 1 as [|[k' v'] m Hk H IH]; [done|]. cbn [mset]. cbn in Hk. assert (klt k' k = true) as Hk' by exact Hk.
  rewrite decide_False by (intros E; by apply (klt_ne k' k Hk')).
  assert (klt k k' = false) as -> by exact (klt_asym k' k Hk'). by rewrite IH.
Qed.
Lemma in_order_cons a l : in_order (a :: l) = true → Forall (λ p, bytes_lt a.1 p.1 = true) l ∧ in_order l = true.
Proof.
  revert a. induction l as [|b l IH]; intros [k v] H; [done|]. destruct b as [k' v']. cbn [in_order] in H. apply andb_true_iff in H as [Hk H].
  destruct (IH (k', v') H) as [Hl _]. split; [|done]. constructor; [done|]. eapply Forall_impl; [exact Hl|]. intros [k2 v2] H2.
  exact (klt_trans (k : bytes) k' k2 Hk H2).
Qed.
Lemma addAttribute_plain a e : xml_attribute_ok a → addAttribute a.1 a.2 true e = set_attributes (mset a.1 a.2 (attributes e)) (namespaces e) e.
Proof.
  intros (Hk & Hne & _ & Hv). unfold addAttribute. rewrite bool_decide_false by done. rewrite trim_name by done.
  rewrite bool_decide_false; [done|]. intros E. apply sfind_Some in E as [E _].
  assert (58 ∈ a.1) as Hin by (rewrite E; cbn; set_solver). revert Hin. apply name_no; [done|set_solver].
Qed.
Lemma add_attributes_ok l l0 e : Forall xml_attribute_ok l → in_order l = true → attributes e = l0 →
  Forall (λ p, Forall (λ q, bytes_lt p.1 q.1 = true) l) l0 →
  add_attributes l e = set_attributes (l0 ++ l) (namespaces e) e.
Proof.
  intros H. revert l0 e. induction H as [|a l Ha H IH]; intros l0 e Ho He Hlt.
  - cbn. rewrite app_nil_r, <- He. by destruct e.
  - cbn [add_attributes foldl]. fold (add_attributes l (addAttribute a.1 a.2 true e)). rewrite addAttribute_plain by done.
    destruct (in_order_cons a l Ho) as [Hal Ho'].
    rewrite (IH (l0 ++ [a])); [by rewrite <- app_assoc|done| |].
    + cbn [attributes set_attributes]. rewrite He, mset_last; [by destruct a|]. eapply Forall_impl; [exact Hlt|]. cbn. intros p Hp. by apply Forall_cons in Hp as [? _].
    + apply Forall_app. split; [|by repeat constructor]. eapply Forall_impl; [exact Hlt|]. cbn. intros p Hp. by apply Forall_cons in Hp as [_ ?].
Qed.

Lemma add_all_ok l par :
  add_all l par = set_elements (elements par ++ l) (mapOfEle (add_all l (set_elements (elements par) (mapOfEle par) Element_new))) par.
Proof.
  revert par. induction l as [|c l IH]; intros par.
  - cbn. rewrite app_nil_r. by destruct par.
  - cbn [add_all foldl]. fold (add_all l (addElement c par)). fold (add_all l (addElement c (set_elements (elements par) (mapOfEle par) Element_new))).
    rewrite IH. cbn [addElement elements mapOfEle set_elements]. rewrite <- app_assoc. unfold set_elements at 1. cbn. done.
Qed.

(** What reading makes of the tag, the attributes and the content of a plain element. *)
Definition opened (e : Element) : Element := set_tag (tagName e) [] (set_attributes (attributes e) [] Element_new).
Lemma opened_ok e : plain_parts e → setTagName (trim (tagName e)) (add_attributes (attributes e) Element_new) = opened e.
Proof.
  intros He. pose proof (pp_name e He) as [Hn Hc]. assert (tagName e ≠ []) by (by destruct (tagName e)).
  rewrite trim_name by done. rewrite (add_attributes_ok _ []); [|by apply pp_attrs|by apply pp_order|done|done].
  unfold setTagName. change (str ":") with [58].
  pose proof (split_of_join 58 [tagName e]) as Hs. cbn [join] in Hs. rewrite Hs; [done|done|].
  repeat constructor. apply name_no; [done|set_solver].
Qed.
Lemma filled_ok e : plain_parts e →
  (if bool_decide (elements e = []) then setText (text e) (opened e) else add_all (elements e) (opened e)) = e.
Proof.
  intros He. pose proof (pp_ns e He) as E1. pose proof (pp_cdata e He) as E2. pose proof (pp_nss e He) as E3. pose proof (pp_map e He) as E4.
  pose proof (pp_either e He) as E5. rewrite add_all_ok.
  change (mapOfEle (add_all (elements e) _)) with (children_map (elements e)). rewrite <- E4.
  destruct e as [t n x c a ns l m]. cbn [tagName nameSpace text cdata attributes namespaces elements mapOfEle] in *. subst. case_bool_decide as El.
  - subst l. done.
  - by destruct E5 as [->|?].
Qed.

(** *** Reading an element *)

Section reading.
Context (e : Element) (l : list Element).
Hypothesis (Hp : plain e = true) (Hl : all_plain l) (Hlen : slen (render e ++ forest l) < 2 ^ 31).
Let X := render e ++ forest l.
Let pre := 60 :: inner e ++ [62].
Let c := text e ++ forest (elements e).

Lemma X_parts : X = pre ++ c ++ close_text (tagName e) ++ forest l.
Proof. unfold X, pre, c. rewrite render_parts. unfold head_text. cbn [app]. f_equal. rewrite <- !app_assoc. cbn [app]. rewrite <- ?app_assoc. done. Qed.
Lemma X_ok : lt_ok X ∧ gt_ok X.
Proof. destruct (render_ok e Hp), (forest_ok l Hl). split; [by apply lt_ok_app|by apply gt_ok_app]. Qed.
Lemma X_length : slen pre + slen c + slen (tagName e) + 3 + slen (forest l) < 2 ^ 31 ∧ slen pre = slen (inner e) + 2.
Proof.
  assert (slen pre = slen (inner e) + 2) as E by (unfold pre; rewrite slen_cons, slen_app; change (slen [62]) with 1; lia).
  split; [|done]. fold X in Hlen. rewrite X_parts, !slen_app, close_slen in Hlen. lia.
Qed.

Lemma X_gt : ifind (str ">") X = slen pre - 1 ∧ ifind (str "/>") X = -1.
Proof.
  pose proof (plain_inv e Hp) as He. destruct X_length as [Hx Hpr]. split.
  - unfold ifind. change (str ">") with [62]. rewrite X_parts. unfold pre. change (60 :: inner e ++ [62]) with ((60 :: inner e) ++ [62]).
    rewrite <- app_assoc. cbn [app]. rewrite app_comm_cons.
    rewrite sfind_char_app; [|rewrite not_elem_of_cons; split; [done|by apply inner_no; auto]].
    pose proof (slen_nonneg c). pose proof (slen_nonneg (tagName e)). pose proof (slen_nonneg (forest l)). pose proof (slen_nonneg (inner e)).
    cbn [length]. unfold pre in *. rewrite wraps_small; [unfold slen in *; lia|lia|unfold slen in *; lia].
  - unfold ifind. change (str "/>") with [47; 62]. by rewrite (proj1 (gt_not_found X (proj2 X_ok))).
Qed.
Lemma X_tag_end : tag_end X = slen pre - 1.
Proof. unfold tag_end. destruct X_gt as [-> ->]. pose proof (slen_nonneg (inner e)). destruct X_length as [_ ?]. replace (_ && _) with true by lia. done. Qed.
Lemma X_first_tag : first_tag X = Ret (tag_text e).
Proof.
  destruct X_length as [Hx Hpr]. pose proof (slen_nonneg c). pose proof (slen_nonneg (tagName e)). pose proof (slen_nonneg (forest l)). pose proof (slen_nonneg (inner e)).
  unfold first_tag. rewrite X_tag_end. assert (sfind (str "<") X = Some 0%nat) as -> by (rewrite X_parts; done).
  change (wraps 32 (Z.of_nat 0 + 1)) with 1. unfold substr_int. rewrite !size_t_int by lia.
  assert (X = [60] ++ inner e ++ 62 :: c ++ close_text (tagName e) ++ forest l) as E.
  { rewrite X_parts. unfold pre. cbn [app]. by rewrite <- app_assoc. }
  rewrite E, substr_app_mid by (done || lia). rewrite bind_Ret_l. apply without_blanks_inner; [by apply plain_inv|lia].
Qed.

Lemma found_Some p s i : sfind p s = Some i → found p s = true.
Proof. unfold found. intros ->. done. Qed.
Lemma found_None p s : sfind p s = None → found p s = false.
Proof. unfold found. intros ->. done. Qed.
Lemma X_open : found (str "<" ++ tagName e) X = true.
Proof.
  change (str "<" ++ tagName e) with (60 :: tagName e).
  assert (∃ r, X = (60 :: tagName e) ++ r) as [r ->] by (eexists; rewrite X_parts; unfold pre, inner; cbn [app]; rewrite <- !app_assoc; done).
  apply (found_Some _ _ 0%nat). apply sfind_here.
Qed.
Lemma pre_absent q T : absent (60 :: 47 :: q) pre T = true.
Proof.
  pose proof (plain_inv e Hp) as He. unfold pre. cbn [absent]. rewrite absent_first.
  2:{ apply Forall_forall. intros x Hx ->. apply elem_of_app in Hx as [Hx|Hx]; [by apply (inner_no e 60) in Hx; auto|set_solver]. }
  rewrite andb_true_r. destruct (name_first _ (pp_name e He)) as (d & t' & E & [Hd _] & _). unfold inner. rewrite E. cbn [app prefixb].
  replace (47 =? d) with false; [done|]. symmetry. apply Z.eqb_neq. intros <-. apply Hd. set_solver.
Qed.
Lemma X_close : ∃ u w, c ++ close_text (tagName e) ++ forest l = u ++ close_text (tagName e) ++ w ∧ (length u ≤ length c)%nat ∧
  ifind (close_text (tagName e)) X = slen pre + slen u.
Proof.
  destruct (sfind_le (close_text (tagName e)) c (forest l)) as (j & Ej & Hj). destruct X_length as [Hx Hpr].
  pose proof (slen_nonneg c). pose proof (slen_nonneg (tagName e)). pose proof (slen_nonneg (forest l)). pose proof (slen_nonneg (inner e)).
  pose proof (sfind_Some _ _ _ Ej) as [Es _]. eexists _, _. split; [exact Es|]. rewrite length_take.
  rewrite (Nat.min_l j) by (rewrite length_app; lia). split; [done|]. unfold ifind. rewrite X_parts.
  rewrite sfind_absent by apply pre_absent. rewrite Ej. cbn [fmap option_fmap option_map]. unfold slen at 2. rewrite length_take, (Nat.min_l j) by (rewrite length_app; lia).
  rewrite wraps_small; unfold slen in *; lia.
Qed.
Lemma X_found_close : found (str "</" ++ tagName e) X = true ∧ ifind (str "</" ++ tagName e) X ≠ 0.
Proof.
  change (str "</" ++ tagName e) with (60 :: 47 :: tagName e). destruct X_length as [Hx Hpr].
  pose proof (slen_nonneg c). pose proof (slen_nonneg (tagName e)). pose proof (slen_nonneg (forest l)). pose proof (slen_nonneg (inner e)).
  destruct (sfind_le (60 :: 47 :: tagName e) c ([62] ++ forest l)) as (j & Ej & Hj).
  assert (sfind (60 :: 47 :: tagName e) X = Some (length pre + j)%nat) as E.
  { rewrite X_parts. rewrite sfind_absent by apply pre_absent. unfold close_text. cbn [app] in *. rewrite <- app_assoc. cbn [app]. by rewrite Ej. }
  split; [by eapply found_Some|]. unfold ifind. rewrite E. rewrite wraps_small; unfold slen in *; lia.
Qed.
Lemma X_errors : tag_errors X (tagName e) = Ret tt.
Proof.
  destruct X_ok as [Hlt Hgt]. unfold tag_errors. destruct X_found_close as [Hf Hi]. rewrite Hf, X_open. cbn [negb andb].
  assert (ifind (str "<") X = 0) as -> by (unfold ifind; rewrite X_parts; done).
  assert (∃ s, substr_int X (0 + 1) npos = Ret s) as [s ->].
  { unfold substr_int, substr. change (size_t (0 + 1)) with 1. rewrite X_parts. unfold pre. cbn [app]. rewrite slen_cons. pose proof (slen_nonneg ((inner e ++ [62]) ++ c ++ close_text (tagName e) ++ forest l)).
    replace (_ <? 1) with false by lia. by eexists. }
  rewrite bind_Ret_l. assert (existsb (λ m, found m X) bad_marks = false) as ->.
  { unfold bad_marks. cbn [existsb].
    rewrite (found_None [60; 32]), (found_None [60; 9]), (found_None [60; 47; 32]), (found_None [60; 47; 9]), (found_None [60; 32; 47]), (found_None [47; 32; 62]), (found_None [60; 9; 47]); try done.
    all: first [apply (proj2 (gt_not_found X Hgt)) | apply lt_close_not_found; [done|] | apply lt_not_found; [done| |done]];
      intros [Hn _]; apply Hn; set_solver. }
  by replace (ifind (str "</" ++ tagName e) X =? 0) with false by lia.
Qed.

(** One element is read, whatever it is the child of. *)
Lemma read_element_ok rec parent par :
  (elements e ≠ [] → rec (forest (elements e)) (tagName e) (opened e) = Ret (add_all (elements e) (opened e))) →
  (parent = [] → par = Element_new) →
  read_element rec X parent par = Ret (if bool_decide (parent = []) then e else addElement e par, forest l).
Proof.
  intros Hrec Hpar. pose proof (plain_inv e Hp) as He. destruct X_length as [Hx Hpr].
  pose proof (slen_nonneg c). pose proof (slen_nonneg (tagName e)). pose proof (slen_nonneg (forest l)). pose proof (slen_nonneg (inner e)).
  unfold read_element. rewrite X_first_tag, bind_Ret_l.
  assert ((if bool_decide (parent = []) then par else Element_new) = Element_new) as -> by (case_bool_decide; auto).
  rewrite open_element_ok; [|done|].
  2:{ rewrite inner_tag_text, slen_app in Hpr. pose proof (slen_nonneg (blanks (if decide (attributes e = []) then 0 else 1))). lia. }
  rewrite bind_Ret_l, X_errors, bind_Ret_l. destruct X_found_close as [Hf _]. rewrite X_open, Hf. cbn [andb orb].
  destruct X_gt as [_ ->]. rewrite X_tag_end. replace (slen pre - 1 =? -1) with false by lia.
  destruct X_close as (u & w & E & Hu & Ei). destruct (str_tags (tagName e)) as (_ & _ & ->). rewrite Ei.
  assert (pre ≠ []) as Hne by (unfold pre; done).
  rewrite X_parts at 2. rewrite matching_end_ok with (w := w); [|by apply pp_name|by apply balanced_content; [apply pp_name|]|rewrite <- X_parts; done|done|exact E|done|].
  2:{ rewrite X_parts, !length_app. lia. }
  rewrite bind_Ret_l. rewrite (opened_ok e He).
  assert ((if found (str "<") c then rec c (tagName e) (opened e) else Ret (setText c (opened e))) = Ret e) as ->.
  { pose proof (filled_ok e He) as Hfill. unfold c. destruct (elements e) as [|x es] eqn:Ee.
    - unfold forest. cbn [map concat]. rewrite app_nil_r. rewrite bool_decide_true in Hfill by done. rewrite found_None; [by rewrite Hfill|]. apply sfind_char_None, text_no; auto.
    - rewrite bool_decide_false in Hfill by done. destruct (pp_either e He) as [Ht|?]; [|congruence]. rewrite Ht. cbn [app].
      rewrite (found_Some _ _ 0%nat).
      + rewrite Hrec by done. by rewrite Hfill.
      + rewrite forest_cons. destruct (starts_render x) as [r ->]. done. }
  rewrite bind_Ret_l. rewrite close_slen. unfold substr_int. rewrite size_t_int by lia.
  assert (slen (pre ++ c ++ close_text (tagName e)) = slen pre + slen c + (slen (tagName e) + 3)) as Es by (rewrite !slen_app, close_slen; lia).
  rewrite X_parts. rewrite !app_assoc, <- (app_assoc pre), substr_app_r.
  - by rewrite bind_Ret_l.
  - lia.
  - unfold size_t, npos, wrapu. rewrite Z.mod_small by lia. lia.
Qed.
End reading.

Lemma render_last e : last (render e) = Some 62.
Proof. rewrite render_parts, app_assoc. unfold close_text. rewrite !app_comm_cons, app_assoc. apply last_snoc. Qed.
Lemma trim_forest l : l ≠ [] → trim (forest l) = forest l.
Proof.
  intros Hl. apply (trim_id 60 _ 62).
  - destruct l as [|e l]; [done|]. rewrite forest_cons. destruct (starts_render e) as [t ->]. done.
  - destruct l as [|e l _] using rev_ind; [done|]. unfold forest. rewrite map_app, concat_app. cbn [map concat]. rewrite app_nil_r.
    rewrite last_app, render_last. done.
  - intros H. unfold ws, whitespaces in H. set_solver.
  - intros H. unfold ws, whitespaces in H. set_solver.
Qed.
Lemma found_close_forest l : l ≠ [] → found (str "<") (forest l) = true ∧ found (str "</") (forest l) = true.
Proof.
  intros Hl. destruct l as [|e l]; [done|]. rewrite forest_cons. split.
  - destruct (starts_render e) as [t ->]. by apply (found_Some _ _ 0%nat).
  - rewrite render_parts. change (str "</") with [60; 47]. unfold close_text.
    destruct (sfind_le [60; 47] (head_text e ++ forest (elements e)) (tagName e ++ [62] ++ forest l)) as (j & Ej & _).
    eapply found_Some. rewrite <- !app_assoc in *. cbn [app] in *. rewrite <- ?app_assoc. exact Ej.
Qed.

(** The step of [readXML] on elements that can be read back. *)
Lemma readXML_step fuel e l parent par :
  plain e = true → all_plain l → slen (render e ++ forest l) < 2 ^ 31 → (parent = [] → par = Element_new) →
  (elements e ≠ [] → readXML fuel (forest (elements e)) (tagName e) (opened e) = Ret (add_all (elements e) (opened e))) →
  readXML (S fuel) (render e ++ forest l) parent par =
  let par := if bool_decide (parent = []) then e else addElement e par in
  if bool_decide (l = []) then Ret par else readXML fuel (forest l) parent par.
Proof.
  intros Hp Hl Hlen Hpar Hrec. cbn [readXML].
  assert (render e ++ forest l ≠ []) as Hne by (destruct (starts_render e) as [t ->]; done).
  rewrite bool_decide_false by done. rewrite <- forest_cons, trim_forest, forest_cons by done.
  destruct (X_ok e l Hp Hl) as [Hlt Hgt].
  assert (ifind (str "<![CDATA[") (render e ++ forest l) = -1) as ->.
  { unfold ifind. change (str "<![CDATA[") with ([60; 33] ++ str "[CDATA["). cbn [app]. rewrite lt_not_found; [done|done| |done]. apply not_name_start. set_solver. }
  change (-1 =? 0) with false. cbv iota.
  assert (without_comment (render e ++ forest l) = Ret (render e ++ forest l)) as ->.
  { unfold without_comment, ifind. change (str "<!--") with ([60; 33] ++ str "--"). cbn [app]. rewrite lt_not_found; [done|done| |done]. apply not_name_start. set_solver. }
  rewrite bind_Ret_l, (read_element_ok e l Hp Hl Hlen) by done. rewrite bind_Ret_l. cbv zeta.
  destruct (decide (l = [])) as [->|El]; [done|].
  rewrite (bool_decide_false (l = [])) by done. destruct (found_close_forest l El) as [-> ->]. done.
Qed.

Lemma readXML_ok fuel : ∀ l parent par, all_plain l → l ≠ [] → slen (forest l) < 2 ^ 31 → (length (forest l) < fuel)%nat → parent ≠ [] →
  readXML fuel (forest l) parent par = Ret (add_all l par).
Proof.
  induction fuel as [|fuel IH]; intros l parent par Hl Hne Hlen Hf Hpar; [lia|].
  destruct l as [|e l]; [done|]. apply Forall_cons in Hl as [He Hl]. rewrite forest_cons in *.
  pose proof (plain_inv e He) as Hpl. pose proof (pp_name e Hpl) as [_ Hn].
  assert (length (render e) = length (head_text e) + length (forest (elements e)) + length (close_text (tagName e)))%nat as Er by (rewrite render_parts, !length_app; lia).
  assert (0 < length (head_text e))%nat by (unfold head_text; cbn; lia).
  rewrite slen_app in Hlen. rewrite length_app in Hf.
  rewrite readXML_step; [|done|done|rewrite slen_app; done|done|].
  - cbv zeta. rewrite (bool_decide_false (parent = [])) by done. destruct (decide (l = [])) as [->|El]; [done|].
    rewrite (bool_decide_false (l = [])) by done. rewrite IH; [done|done|done|pose proof (slen_nonneg (render e)); lia|lia|done].
  - intros Hee. apply IH; [apply (pp_children e Hpl)|done|unfold slen in *; lia|lia|by destruct (tagName e)].
Qed.

(** A plain element is what its own text is read as. *)
Lemma readXML_root fuel e : plain e = true → slen (render e) < 2 ^ 31 → (length (render e) < fuel)%nat → readXML fuel (render e) [] Element_new = Ret e.
Proof.
  intros He Hlen Hf. destruct fuel as [|fuel]; [lia|]. pose proof (plain_inv e He) as Hpl. pose proof (pp_name e Hpl) as [_ Hn].
  assert (length (render e) = length (head_text e) + length (forest (elements e)) + length (close_text (tagName e)))%nat as Er by (rewrite render_parts, !length_app; lia).
  assert (0 < length (head_text e))%nat by (unfold head_text; cbn; lia).
  pose proof (readXML_step fuel e [] [] Element_new) as HS. cbn [forest map concat] in HS. rewrite !app_nil_r in HS. rewrite HS; [done|done|by apply Forall_nil|done|done|].
  intros Hee. apply readXML_ok; [apply (pp_children e Hpl)|done|unfold slen in *; lia|lia|by destruct (tagName e)].
Qed.

(** ** Properties *)

Lemma validateNs_plain e : ∀ above, plain e = true → validateNs above e = Ret tt.
Proof.
  induction e as [e IH] using Element_rule. intros above He. pose proof (plain_inv e He) as Hp.
  assert (validateNs above e = foldr (λ c o, c ≫= λ _, o) (Ret tt) (map (validateNs (e :: above)) (elements e))) as ->.
  { pose proof (pp_ns e Hp) as E. destruct e as [t n x c a ns l m]. cbn [validateNs nameSpace elements] in *. rewrite E. done. }
  pose proof (pp_children e Hp) as Hc. induction (elements e) as [|c l IHl]; [done|].
  apply Forall_cons in IH as [IHc IH]. apply Forall_cons in Hc as [Hc1 Hc]. cbn [map foldr]. rewrite IHc by done. rewrite bind_Ret_l. by apply IHl.
Qed.

(** C27: A document is read back from its text: for an element with a name, attributes and either a
    text or children of the same kind ([plain]), without name spaces, [parse] of what
    [Element::render] writes, with or without the XML declaration in front, gives the element:
    every tag, every attribute, every text, the children in their order, and the map of the
    children's names.  It holds for both modes; the fuel is the length of the text, which
    is a bound for the depth of the recursion. *)
Theorem xml_roundtrip (header : bytes) (e : Element) (mode : bytes) (fuel : nat) :
  header = [] ∨ header = HEADER → plain e = true → slen (render e) < 2 ^ 31 → (length (render e) < fuel)%nat →
  parse fuel mode (header ++ render e) Document_new = Ret (setRootElement e Document_new).
Proof.
  intros Hh He Hlen Hf. unfold parse.
  assert (trim (header ++ render e) = header ++ render e) as ->.
  { apply (trim_id 60 _ 62); [|by rewrite last_app, render_last|intros H; unfold ws, whitespaces in H; set_solver..].
    destruct Hh as [->| ->]; [|done]. destruct (starts_render e) as [t ->]. done. }
  destruct (render_ok e He) as [Hlt Hgt].
  assert (bool_decide (sfind (str "<") (header ++ render e) = Some 0%nat) = true) as ->.
  { apply bool_decide_eq_true. destruct Hh as [->| ->]; [|done]. destruct (starts_render e) as [t ->]. done. }
  assert (found (str ">") (header ++ render e) = true) as ->.
  { rewrite render_parts, app_assoc. unfold close_text. change (str ">") with [62].
    destruct (sfind_le [62] (header ++ head_text e ++ forest (elements e) ++ 60 :: 47 :: tagName e) []) as (j & Ej & _).
    apply (found_Some _ _ j). rewrite <- Ej. f_equal. rewrite <- !app_assoc. cbn. done. }
  cbn [andb root Document_new]. destruct Hh as [->| ->].
  - cbn [app]. assert (found (str "<?") (render e) = false) as ->.
    { apply found_None. change (str "<?") with [60; 63]. apply lt_not_found; [done| |done]. apply not_name_start. set_solver. }
    cbn [andb]. rewrite bind_Ret_l, readXML_root by done. cbn [root]. rewrite !bind_Ret_l. case_match; [|done].
    cbn [root setRootElement]. by rewrite validateNs_plain.
  - assert (found (str "<?") (HEADER ++ render e) = true) as -> by (by apply (found_Some _ _ 0%nat)).
    assert (sfind (str "?>") (HEADER ++ render e) = Some 36%nat) as Eh by reflexivity.
    rewrite (found_Some _ _ _ Eh). unfold zfind. rewrite Eh. cbn [andb].
    assert (substr (HEADER ++ render e) (size_t (Z.of_nat 36 + 2)) npos = Ret (render e)) as ->.
    { change (size_t (Z.of_nat 36 + 2)) with (slen HEADER). apply substr_app_r; [done|]. unfold npos. lia. }
    rewrite bind_Ret_l, readXML_root by done. rewrite !bind_Ret_l. case_match; [|done].
    cbn [root setRootElement]. by rewrite validateNs_plain.
Qed.

(** A bean with two properties. *)
Definition leaf (t x : bytes) (a : list (bytes * bytes)) : Element := mkElement t [] x false a [] [] [].
Definition sample : Element :=
  let l := [leaf (str "property") (str "a & b") [(str "name", str "x")]; leaf (str "property") [] [(str "name", str "y"); (str "value", str "1 / 2")];
            add_all [leaf (str "ref") (str "z") []] (leaf (str "bean") [] [])] in
  mkElement (str "bean") [] [] false [(str "class", str "A")] [] l (children_map l).

Lemma xml_roundtrip_witness :
  plain sample = true ∧ parse (S (length (render sample))) (str "Validator") (HEADER ++ render sample) Document_new = Ret (setRootElement sample Document_new).
Proof.
  split; [vm_compute; reflexivity|].
  apply (xml_roundtrip HEADER sample (str "Validator") (S (length (render sample))));
    [right; reflexivity|vm_compute; reflexivity|apply Z.ltb_lt; vm_compute; reflexivity|lia].
Defined.

(** [readXML] does not end on every text: for an element that is never closed and a "/>" after
    it, which needs no more than the text "<a>/>", the function calls itself with the same text and
    the same element, whatever the depth allowed; the process ends with its stack. *)
Theorem xml_parser_diverges (fuel : nat) (mode : bytes) (doc : Document) : parse fuel mode (str "<a>/>") doc = Out_of_fuel.
Proof.
  assert (∀ par, readXML fuel (str "<a>/>") [] par = Out_of_fuel) as H.
  { induction fuel as [|fuel IH]; intros par; [done|]. cbn [readXML].
    change (trim (str "<a>/>")) with (str "<a>/>"). change (bool_decide (str "<a>/>" = [])) with false. cbv iota.
    change (ifind (str "<![CDATA[") (str "<a>/>") =? 0) with false. change (without_comment (str "<a>/>")) with (Ret (str "<a>/>")). cbv iota.
    rewrite bind_Ret_l. assert (read_element (readXML fuel) (str "<a>/>") [] par = Ret (par, str "<a>/>")) as -> by reflexivity.
    rewrite bind_Ret_l. apply IH. }
  unfold parse. change (trim (str "<a>/>")) with (str "<a>/>"). cbv zeta.
  change (bool_decide (sfind (str "<") (str "<a>/>") = Some 0%nat) && found (str ">") (str "<a>/>")) with true.
  change (found (str "<?") (str "<a>/>") && found (str "?>") (str "<a>/>")) with false. cbv iota. rewrite bind_Ret_l, H. done.
Qed.

(** Text next to children is dropped. *)
Example mixed_text_is_lost : parse 10 [] (str "<a>x<b>y</b>z</a>") Document_new =
  parse 10 [] (str "<a><b>y</b></a>") Document_new.
Proof. vm_compute. reflexivity. Qed.
(** A second comment in a row is not cut out. *)
Example two_comments_throw : parse 10 [] (str "<!--x--><!--y--><a></a>") Document_new = Throw Runtime_error.
Proof. vm_compute. reflexivity. Qed.
(** Character references are left as they are. *)
Example references_stay : parse 10 [] (str "<a>&lt;</a>") Document_new = Ret (setRootElement (leaf (str "a") (str "&lt;") []) Document_new).
Proof. vm_compute. reflexivity. Qed.
(** The decoder that is never called decodes twice. *)
Example sanitizeXml_twice : sanitizeXml (flat_map escape_char (str "&lt;")) = Ret (str "<").
Proof. vm_compute. reflexivity. Qed.
