(* ===== verification/QueryBuilder.v ===== *)
(** * QueryBuilder

    Queries built from clauses ([sdorm/QueryBuilder.cpp], [sdorm/Query.cpp]), the mapping of classes
    to tables ([sdorm/DataSourceMapping.cpp]), and the SQL text with its positional
    parameters ([SQLDataSourceImpl::fromQueryBuilder] of [sdorm/sql/SQLDataSourceImpl.cpp]).
    The values of parameters, [GenericObject]s, are an argument. *)

From S2P Require Import Prelude StdMap StdString StringUtil.

(** ** Mappings

    The members queries use: generators of identifiers and relations are those of the data source. *)

Record DataSourceEntityMapping := mkEntity {
  em_className : bytes; em_tableName : bytes; embedded : bool;
  propertyColumnMapping : list (bytes * bytes); columnPropertyMapping : list (bytes * bytes);
  propertyColumnMappingCS : list (bytes * bytes); columnPropertyMappingCS : list (bytes * bytes) }.
Definition DataSourceEntityMapping_new : DataSourceEntityMapping := mkEntity [] [] false [] [] [] [].
Definition addPropertyColumnMapping (property column : bytes) (e : DataSourceEntityMapping) : DataSourceEntityMapping :=
  if negb (bool_decide (property = [])) && negb (bool_decide (column = [])) then
    let cn := toLower column in
    mkEntity (em_className e) (em_tableName e) (embedded e)
      (mset property cn (propertyColumnMapping e)) (mset cn property (columnPropertyMapping e))
      (mset property column (propertyColumnMappingCS e)) (mset column property (columnPropertyMappingCS e))
  else e.
Definition getColumnForProperty (property : bytes) (e : DataSourceEntityMapping) : bytes := default [] (mfind property (propertyColumnMapping e)).
(** [DataSourceEntityMapping::getPropertyForColumn]. *)
Definition property_of_column (column : bytes) (e : DataSourceEntityMapping) : bytes :=
  match mfind column (columnPropertyMappingCS e) with
  | Some p => p
  | None => default [] (mfind (toLower column) (columnPropertyMapping e))
  end.

Record Mapping := mkMapping { dseMap : list (bytes * DataSourceEntityMapping); tableClassMapping : list (bytes * bytes) }.
Definition addDataSourceEntityMapping (e : DataSourceEntityMapping) (m : Mapping) : Mapping :=
  if negb (bool_decide (em_className e = [])) && negb (mmem (em_className e) (dseMap m)) then
    mkMapping (mset (em_className e) e (dseMap m))
      (if negb (embedded e) then mset (em_tableName e) (em_className e) (tableClassMapping m) else tableClassMapping m)
  else m.
Definition getClassForTable (table : bytes) (m : Mapping) : bytes := default [] (mfind table (tableClassMapping m)).
Definition getTableForClass (clas : bytes) (m : Mapping) : bytes := default [] (em_tableName <$> mfind clas (dseMap m)).
Definition getDataSourceEntityMapping (clas : bytes) (m : Mapping) : DataSourceEntityMapping := default DataSourceEntityMapping_new (mfind clas (dseMap m)).
(** The entity of a table; [dseMap[...]] of a class that is not there makes an empty one. *)
Definition entity_of_table (table : bytes) (m : Mapping) : option DataSourceEntityMapping :=
  (λ c, getDataSourceEntityMapping c m) <$> mfind table (tableClassMapping m).
Definition getMappingForTable (table : bytes) (m : Mapping) : list (bytes * bytes) := default [] (columnPropertyMapping <$> entity_of_table table m).
Definition getPropertyForColumn (table column : bytes) (m : Mapping) : bytes := default [] (property_of_column column <$> entity_of_table table m).

(** ** Conditions *)

(** [QueryClause], [QueryOperator] and [JoinType], with the values [init] gives them. *)
Definition CLAUSE_NONE := 1.
Definition LOGICAL_GRP_OPEN := 2.
Definition LOGICAL_GRP_CLOSE := 3.
Definition AND := 4.
Definition OR := 5.
Definition OPER_NONE := 1.
Definition EQUALS := 2.
Definition NOT_EQUALS := 3.
Definition IN_ := 4.
Definition NOT_IN := 5.
Definition BETWEEN := 6.
Definition GREATER_THAN := 7.
Definition LESS_THAN := 8.
Definition GREATER_THAN_EQUALS := 9.
Definition LESS_THAN_EQUALS := 10.

Section builder.
Context {V : Type}.

(** [managed], whether the values are objects of their own, is not read here. *)
Record Condition := mkCondition { lhs : bytes; oper : Z; rhsVec : list V; clause : Z }.
Record LogicalGroup := mkGroup { conds : list Condition; lastClause : Z; condStarted : bool }.
Definition LogicalGroup_new : LogicalGroup := mkGroup [] CLAUSE_NONE false.
(** A clause without a condition. *)
Definition connective (c : Z) : Condition := mkCondition [] OPER_NONE [] c.
Definition logicalAnd (g : LogicalGroup) : LogicalGroup := mkGroup (conds g ++ [connective AND]) AND (condStarted g).
Definition logicalOr (g : LogicalGroup) : LogicalGroup := mkGroup (conds g ++ [connective OR]) OR (condStarted g).
Definition open (g : LogicalGroup) : LogicalGroup := mkGroup (conds g ++ [connective LOGICAL_GRP_OPEN]) (lastClause g) (condStarted g).
Definition close (g : LogicalGroup) : LogicalGroup := mkGroup (conds g ++ [connective LOGICAL_GRP_CLOSE]) (lastClause g) (condStarted g).
(** The overloads of [where], with one value, with two, and with a list. *)
Definition where_ (l : bytes) (op : Z) (vals : list V) (g : LogicalGroup) : LogicalGroup :=
  let cond := mkCondition l op vals CLAUSE_NONE in
  let g := if condStarted g && (negb (lastClause g =? AND) && negb (lastClause g =? OR)) then logicalAnd g else g in
  mkGroup (conds g ++ [cond]) (lastClause g) true.

(** ** The builder *)

Record JoinClause := mkJoin { jc_tableName : bytes; jc_className : bytes; jc_alias : bytes; jc_type : Z; jc_condition : LogicalGroup }.
(** [on] returns the group and adds nothing to it. *)
Definition on (l : bytes) (op : Z) (rhs : V) (j : JoinClause) : JoinClause := j.
Record GroupClause := mkGroupClause { gc_columns : list bytes; gc_conditions : LogicalGroup }.
Inductive QueryBuilder := mkQB {
  tableName : bytes; className : bytes; alias : bytes; columns : list (bytes * bytes); allCols : bool; unique : bool;
  start : Z; qcount : Z; joinClauses : list JoinClause; conditions : LogicalGroup; columnsAsc : list bytes; columnsDesc : list bytes;
  unions : list QueryBuilder; unionAlls : list QueryBuilder; group : GroupClause }.
Definition QueryBuilder_new : QueryBuilder :=
  mkQB [] [] [] [] false false 0 0 [] LogicalGroup_new [] [] [] [] (mkGroupClause [] LogicalGroup_new).

Definition set_from (t c a : bytes) (q : QueryBuilder) : QueryBuilder :=
  mkQB t c a (columns q) (allCols q) (unique q) (start q) (qcount q) (joinClauses q) (conditions q) (columnsAsc q) (columnsDesc q) (unions q) (unionAlls q) (group q).
Definition set_columns (cols : list (bytes * bytes)) (q : QueryBuilder) : QueryBuilder :=
  mkQB (tableName q) (className q) (alias q) cols (allCols q) (unique q) (start q) (qcount q) (joinClauses q) (conditions q) (columnsAsc q) (columnsDesc q) (unions q) (unionAlls q) (group q).
Definition columnNames (cols : list (bytes * bytes)) (q : QueryBuilder) : QueryBuilder := set_columns cols q.
Definition allColumns (q : QueryBuilder) : QueryBuilder :=
  mkQB (tableName q) (className q) (alias q) (columns q) true (unique q) (start q) (qcount q) (joinClauses q) (conditions q) (columnsAsc q) (columnsDesc q) (unions q) (unionAlls q) (group q).
Definition distinct (q : QueryBuilder) : QueryBuilder :=
  mkQB (tableName q) (className q) (alias q) (columns q) (allCols q) true (start q) (qcount q) (joinClauses q) (conditions q) (columnsAsc q) (columnsDesc q) (unions q) (unionAlls q) (group q).
Definition set_conditions (g : LogicalGroup) (q : QueryBuilder) : QueryBuilder :=
  mkQB (tableName q) (className q) (alias q) (columns q) (allCols q) (unique q) (start q) (qcount q) (joinClauses q) g (columnsAsc q) (columnsDesc q) (unions q) (unionAlls q) (group q).
Definition set_group (g : GroupClause) (q : QueryBuilder) : QueryBuilder :=
  mkQB (tableName q) (className q) (alias q) (columns q) (allCols q) (unique q) (start q) (qcount q) (joinClauses q) (conditions q) (columnsAsc q) (columnsDesc q) (unions q) (unionAlls q) g.
Definition orderByAsc (c : bytes) (q : QueryBuilder) : QueryBuilder :=
  mkQB (tableName q) (className q) (alias q) (columns q) (allCols q) (unique q) (start q) (qcount q) (joinClauses q) (conditions q) (columnsAsc q ++ [c]) (columnsDesc q) (unions q) (unionAlls q) (group q).
(** It adds to the ascending columns. *)
Definition orderByDesc (c : bytes) (q : QueryBuilder) : QueryBuilder := orderByAsc c q.
Definition paginate (s n : Z) (q : QueryBuilder) : QueryBuilder :=
  mkQB (tableName q) (className q) (alias q) (columns q) (allCols q) (unique q) s n (joinClauses q) (conditions q) (columnsAsc q) (columnsDesc q) (unions q) (unionAlls q) (group q).
Definition add_join (j : JoinClause) (q : QueryBuilder) : QueryBuilder :=
  mkQB (tableName q) (className q) (alias q) (columns q) (allCols q) (unique q) (start q) (qcount q) (joinClauses q ++ [j]) (conditions q) (columnsAsc q) (columnsDesc q) (unions q) (unionAlls q) (group q).
Definition joinTable (jt : Z) (name al : bytes) (q : QueryBuilder) : QueryBuilder := add_join (mkJoin name [] al jt LogicalGroup_new) q.
Definition joinClass (jt : Z) (name al : bytes) (q : QueryBuilder) : QueryBuilder := add_join (mkJoin [] name al jt LogicalGroup_new) q.
Definition unionQuery (u q : QueryBuilder) : QueryBuilder :=
  mkQB (tableName q) (className q) (alias q) (columns q) (allCols q) (unique q) (start q) (qcount q) (joinClauses q) (conditions q) (columnsAsc q) (columnsDesc q) (unions q ++ [u]) (unionAlls q) (group q).
Definition unionAllQuery (u q : QueryBuilder) : QueryBuilder :=
  mkQB (tableName q) (className q) (alias q) (columns q) (allCols q) (unique q) (start q) (qcount q) (joinClauses q) (conditions q) (columnsAsc q) (columnsDesc q) (unions q) (unionAlls q ++ [u]) (group q).
Definition fromTable (name a : bytes) (q : QueryBuilder) : QueryBuilder := set_from name (className q) a q.
Definition fromClass (name a : bytes) (q : QueryBuilder) : QueryBuilder := set_from (tableName q) name a q.
Definition columnName (name calias : bytes) (q : QueryBuilder) : QueryBuilder :=
  let name := trim name in let calias := trim calias in
  if bool_decide (className q = []) then set_columns (mset (alias q ++ str "." ++ name) calias (columns q)) q
  else set_columns (mset name [] (columns q)) q.
(** A column with a name of its own behind [sep]. *)
Definition named_column (sep col : bytes) (q : QueryBuilder) : outcome QueryBuilder :=
  match splitAndReturn col sep false with
  | p0 :: p1 :: _ =>
      let coln := trim p0 in
      let coln := if bool_decide (sfind (str ".") coln = None) then alias q ++ str "." ++ coln else coln in
      Ret (set_columns (mset coln (trim p1) (columns q)) q)
  | _ => Throw Out_of_range
  end.
Definition delimited_column (col : bytes) (q : QueryBuilder) : outcome QueryBuilder :=
  let col := trim col in
  if negb (bool_decide (className q = [])) then Ret (set_columns (mset col [] (columns q)) q)
  else if negb (bool_decide (sfind (str " as ") (toLower col) = None)) then named_column (str " as ") col q
  else if negb (bool_decide (sfind (str " ") (toLower col) = None)) then named_column (str " ") col q
  else Ret q.
Definition delimitedColumnNames (names : bytes) (q : QueryBuilder) : outcome QueryBuilder :=
  foldl (λ o c, o ≫= delimited_column c) (Ret q) (splitAndReturn names (str ",") false).
Definition groupBy (c : bytes) (q : QueryBuilder) : QueryBuilder := set_group (mkGroupClause (gc_columns (group q) ++ [c]) (gc_conditions (group q))) q.
Definition groupByAll (cs : list bytes) (q : QueryBuilder) : QueryBuilder := set_group (mkGroupClause cs (gc_conditions (group q))) q.
Definition delimitedGroupByColumns (names : bytes) (q : QueryBuilder) : QueryBuilder :=
  foldl (λ q c, groupBy (trim c) q) q (splitAndReturn names (str ",") false).

(** ** The text *)

(** What [fromQueryBuilder] fills in: column bindings and named parameters stay empty. *)
Record Query := mkQuery { query : bytes; q_className : bytes; propPosVaues : list (Z * V); aliasedColumns : list bytes; q_start : Z; q_count : Z }.
Definition isUpdate (q : Query) : bool := negb (bool_decide (sfind (str "select") (toLower (query q)) = Some 0%nat)).

(** Without a comma at the end. *)
Definition without_comma (qs : bytes) : bytes := match last qs with Some 44 => take (length qs - 1) qs | _ => qs end.

Definition clause_text (c : Z) : bytes :=
  if c =? LOGICAL_GRP_OPEN then str "(" else if c =? LOGICAL_GRP_CLOSE then str ")"
  else if c =? AND then str " AND " else if c =? OR then str " OR " else [].
(** The text of an operator and the values it takes; [getRhs] of a value that is not there throws. *)
Definition oper_text (c : Condition) : outcome (bytes * list V) :=
  let rhs := λ i : nat, match rhsVec c !! i with Some v => Ret v | None => Throw Out_of_range end in
  let simple := λ t, v ← rhs 0%nat; Ret (t, [v]) in
  if oper c =? EQUALS then simple (str " = ?") else if oper c =? NOT_EQUALS then simple (str " <> ?")
  else if oper c =? GREATER_THAN then simple (str " > ?") else if oper c =? LESS_THAN then simple (str " < ?")
  else if oper c =? GREATER_THAN_EQUALS then simple (str " >= ?") else if oper c =? LESS_THAN_EQUALS then simple (str " <= ?")
  else if oper c =? BETWEEN then v ← rhs 0%nat; w ← rhs 1%nat; Ret (str " BETWEEN ? AND ?", [v; w])
  else Ret ([], []).
(** [addParameter(paramPosition++, ...)]. *)
Definition add_parameters (vals : list V) (s : list (Z * V) * Z) : list (Z * V) * Z :=
  foldl (λ '(m, pos) v, (mset pos v m, pos + 1)) s vals.
Fixpoint conds_text (al : bytes) (cs : list Condition) (qs : bytes) (s : list (Z * V) * Z) : outcome (bytes * (list (Z * V) * Z)) :=
  match cs with
  | [] => Ret (qs, s)
  | c :: cs =>
      let qs := if negb (clause c =? CLAUSE_NONE) then qs ++ clause_text (clause c) else qs in
      if negb (oper c =? OPER_NONE) then
        '(t, vals) ← oper_text c;
        conds_text al cs (qs ++ al ++ str "." ++ lhs c ++ t) (add_parameters vals s)
      else conds_text al cs qs s
  end.

(** The columns: all those of the mapping of the table, or the given ones. *)
Definition all_columns_text (clas : bytes) (cols : list bytes) : bytes := join (str ",") (map (λ c, clas ++ str "." ++ c) cols).
Definition column_text (al : bytes) (props : option DataSourceEntityMapping) (p : bytes * bytes) : bytes :=
  match props with
  | None => al ++ str "." ++ p.1 ++ (if negb (bool_decide (p.2 = [])) then str " AS " ++ p.2 ++ str "," else [])
  | Some e => let c := getColumnForProperty p.1 e in if negb (bool_decide (c = [])) then al ++ str "." ++ c ++ str "," else []
  end.
Definition sorted_text (al word : bytes) (cs : list bytes) : bytes := concat (map (λ c, al ++ str "." ++ c ++ word ++ str ",") cs).

Definition fromQueryBuilder (m : Mapping) (qb : QueryBuilder) : outcome Query :=
  let isClassProps := negb (bool_decide (className qb = [])) in
  let dsemp := getDataSourceEntityMapping (className qb) m in
  let tableNm := if isClassProps then em_tableName dsemp else tableName qb in
  let al := if isClassProps then className qb else alias qb in
  let al := if bool_decide (al = []) then tableNm ++ str "_" else al in
  let qs := str "SELECT " ++ (if unique qb then str "DISTINCT " else []) in
  let all := allCols qb || bool_decide (columns qb = []) in
  let tabcols := map fst (getMappingForTable tableNm m) in
  let qs := qs ++ (if all then all_columns_text (className qb) tabcols
                   else concat (map (column_text al (if isClassProps then Some dsemp else None)) (columns qb))) in
  let qs := without_comma qs in
  let qs := qs ++ str " FROM " ++ tableNm ++ str " " ++ al in
  '(qs, s) ← (if negb (bool_decide (conds (conditions qb) = [])) then conds_text al (conds (conditions qb)) (qs ++ str " WHERE ") ([], 1) else Ret (qs, ([], 1)));
  let qs := if negb (bool_decide (columnsAsc qb = [])) || negb (bool_decide (columnsDesc qb = [])) then qs ++ str " ORDER BY " else qs in
  let qs := without_comma (qs ++ sorted_text al (str " ASC") (columnsAsc qb)) in
  let qs := without_comma (qs ++ sorted_text al (str " DESC") (columnsDesc qb)) in
  let qs := if negb (bool_decide (gc_columns (group qb) = [])) then qs ++ str " GROUP BY " ++ sorted_text al [] (gc_columns (group qb)) else qs in
  let qs := without_comma qs in
  let having := conds (gc_conditions (group qb)) in
  '(qs, s) ← (if negb (bool_decide (having = [])) then conds_text al having (qs ++ str " HAVING ") s else Ret (qs, s));
  Ret (mkQuery qs (className qb) (fst s) (if all then map (λ c, className qb ++ str "." ++ c) tabcols else []) (start qb) (qcount qb)).
End builder.
Arguments Condition : clear implicits.
Arguments LogicalGroup : clear implicits.
Arguments QueryBuilder : clear implicits.
Arguments Query : clear implicits.

(** ** Mappings answer both ways *)

(** A property that is added with its column is found by the column, in whatever case when no other
    property has that very name, and gives the column in lower case, the name that
    gets into the text; other properties keep theirs. *)
Theorem mapped_both_ways (property column other : bytes) (e : DataSourceEntityMapping) : property ≠ [] → column ≠ [] →
  let e' := addPropertyColumnMapping property column e in
  getColumnForProperty property e' = toLower column ∧
  property_of_column column e' = property ∧
  (∀ c, toLower c = toLower column → c = column ∨ mfind c (columnPropertyMappingCS e) = None → property_of_column c e' = property) ∧
  (other ≠ property → getColumnForProperty other e' = getColumnForProperty other e).
Proof.
  intros Hp Hc. unfold addPropertyColumnMapping, getColumnForProperty, property_of_column. rewrite !bool_decide_eq_false_2 by done. cbn.
  rewrite !mfind_mset_eq. split_and!; [done..| |].
  - intros c E [->|Hn]; [by rewrite mfind_mset_eq|]. rewrite mfind_mset, E, mfind_mset_eq. case_decide; [done|]. by rewrite Hn.
  - intros Hne. by rewrite mfind_mset_ne.
Qed.
Lemma mapped_both_ways_witness :
  property_of_column (str "City") (addPropertyColumnMapping (str "town") (str "CITY") DataSourceEntityMapping_new) = str "town".
Proof. apply (mapped_both_ways (str "town") (str "CITY") [] DataSourceEntityMapping_new); [done|done|reflexivity|right; reflexivity]. Defined.

(** A class is found by its table, unless its objects are embedded in others, and the table by its
    class; a second mapping of a class is ignored. *)
Theorem classes_and_tables (e : DataSourceEntityMapping) (m : Mapping) : em_className e ≠ [] → mfind (em_className e) (dseMap m) = None →
  let m' := addDataSourceEntityMapping e m in
  getTableForClass (em_className e) m' = em_tableName e ∧
  (embedded e = false → getClassForTable (em_tableName e) m' = em_className e ∧
   getMappingForTable (em_tableName e) m' = columnPropertyMapping e ∧
   ∀ column, getPropertyForColumn (em_tableName e) column m' = property_of_column column e) ∧
  ∀ e2, em_className e2 = em_className e → addDataSourceEntityMapping e2 m' = m'.
Proof.
  intros Hc Hm. unfold addDataSourceEntityMapping, mmem. rewrite Hm, (bool_decide_eq_false_2 (em_className e = [])) by done.
  rewrite bool_decide_eq_false_2 by by intros [? ?]. cbn. split_and!.
  - unfold getTableForClass. cbn. by rewrite mfind_mset_eq.
  - intros He. unfold getClassForTable, getMappingForTable, getPropertyForColumn, entity_of_table, getDataSourceEntityMapping. rewrite He. cbn.
    rewrite !mfind_mset_eq. cbn. rewrite mfind_mset_eq. done.
  - intros e2 ->. rewrite mfind_mset_eq, (bool_decide_eq_true_2 (is_Some _)) by eauto. by rewrite andb_false_r.
Qed.
Lemma classes_and_tables_witness :
  let e := addPropertyColumnMapping (str "id") (str "ID") (mkEntity (str "Person") (str "people") false [] [] [] []) in
  getPropertyForColumn (str "people") (str "Id") (addDataSourceEntityMapping e (mkMapping [] [])) = str "id".
Proof.
  cbv zeta. pose (e := addPropertyColumnMapping (str "id") (str "ID") (mkEntity (str "Person") (str "people") false [] [] [] [])).
  destruct (classes_and_tables e (mkMapping [] [])) as (_ & H & _); [done|done|].
  destruct (H eq_refl) as (_ & _ & Hp). exact (Hp (str "Id")).
Defined.

(** ** Parameters and their places *)

Section parameters.
Context {V : Type}.
Implicit Types (vs : list V) (c : Condition V) (cs : list (Condition V)).

(** The values, numbered from 1. *)
Definition numbered vs : list (Z * V) := imap (λ i v, (Z.of_nat i + 1, v)) vs.
Lemma numbered_snoc vs v : numbered (vs ++ [v]) = numbered vs ++ [(Z.of_nat (length vs) + 1, v)].
Proof. unfold numbered. rewrite imap_app. cbn. do 3 f_equal. lia. Qed.
Lemma mset_behind (k : Z) (v : V) m : Forall (λ p, p.1 < k) m → mset k v m = m ++ [(k, v)].
Proof. intros H. apply mset_snoc. eapply Forall_impl; [exact H|]. intros p Hp. by apply Z.ltb_lt. Qed.
Lemma add_parameters_spec vals vs :
  add_parameters vals (numbered vs, Z.of_nat (length vs) + 1) = (numbered (vs ++ vals), Z.of_nat (length (vs ++ vals)) + 1).
Proof.
  revert vs. induction vals as [|v vals IH]; intros vs; cbn [add_parameters foldl]; [by rewrite app_nil_r|].
  unfold add_parameters in IH. rewrite mset_behind.
  - rewrite <- numbered_snoc. specialize (IH (vs ++ [v])). rewrite length_app in IH. cbn in IH.
    replace (Z.of_nat (length vs) + 1 + 1) with (Z.of_nat (length vs + 1) + 1) by lia. rewrite IH. by rewrite <- app_assoc.
  - unfold numbered. apply Forall_forall. intros p Hp. apply elem_of_lookup_imap in Hp as (i & w & -> & Hi). cbn. apply lookup_lt_Some in Hi. lia.
Qed.

(** The number of places for parameters in a text. *)
Definition places (s : bytes) : nat := length (filter (λ b, b = 63) s).
Lemma places_app a b : places (a ++ b) = (places a + places b)%nat.
Proof. unfold places. by rewrite filter_app, length_app. Qed.
Lemma places_none s : 63 ∉ s → places s = 0%nat.
Proof. induction s as [|b s IH]; [done|]. intros H. unfold places in *. rewrite filter_cons_False by set_solver. apply IH. set_solver. Qed.
Lemma places_concat l : Forall (λ s, places s = 0%nat) l → places (concat l) = 0%nat.
Proof. induction 1 as [|s l Hs _ IH]; [done|]. cbn [concat]. by rewrite places_app, Hs, IH. Qed.
Lemma places_without_comma s : places (without_comma s) = places s.
Proof.
  unfold without_comma. destruct s as [|b s _] using rev_ind; [done|]. rewrite last_snoc.
  assert (take (length (s ++ [b]) - 1) (s ++ [b]) = s) as E by (rewrite length_app; cbn; replace (length s + 1 - 1)%nat with (length s) by lia; by rewrite take_app_length).
  destruct (decide (b = 44)) as [->|Hb]; [rewrite E, places_app; change (places [44]) with 0%nat; lia|].
  repeat case_match; try done; congruence.
Qed.
(** A name of a table, a column or an alias in SQL. *)
Definition sql_name (n : bytes) : Prop := (63 ∉ n) ∧ (44 ∉ n).
#[export] Instance sql_name_dec n : Decision (sql_name n).
Proof. unfold sql_name. apply _. Defined.

(** *** What a condition stands for *)

Definition connectives : list (Z * bytes) := [(LOGICAL_GRP_OPEN, str "("); (LOGICAL_GRP_CLOSE, str ")"); (AND, str " AND "); (OR, str " OR ")].
Definition comparisons : list (Z * bytes) :=
  [(EQUALS, str "="); (NOT_EQUALS, str "<>"); (GREATER_THAN, str ">"); (LESS_THAN, str "<"); (GREATER_THAN_EQUALS, str ">="); (LESS_THAN_EQUALS, str "<=")].
Definition operator_sql (op : Z) : bytes :=
  match mfind op comparisons with Some t => str " " ++ t ++ str " ?" | None => if decide (op = BETWEEN) then str " BETWEEN ? AND ?" else [] end.
(** The values a condition was given that the text has places for: one for a comparison, two for
    [BETWEEN], none for [IN] and [NOT IN]. *)
Definition taken c : list V :=
  match mfind (oper c) comparisons with Some _ => take 1 (rhsVec c) | None => if decide (oper c = BETWEEN) then take 2 (rhsVec c) else [] end.
Definition condition_sql al c : bytes :=
  default [] (mfind (clause c) connectives) ++ (if decide (oper c = OPER_NONE) then [] else al ++ str "." ++ lhs c ++ operator_sql (oper c)).
Definition clause_sql word al cs : bytes := if decide (cs = []) then [] else word ++ concat (map (condition_sql al) cs).

Lemma clause_text_spec k : (if negb (k =? CLAUSE_NONE) then clause_text k else []) = default [] (mfind k connectives).
Proof.
  unfold clause_text, connectives, CLAUSE_NONE, LOGICAL_GRP_OPEN, LOGICAL_GRP_CLOSE, AND, OR. cbn [mfind].
  destruct (Z.eqb_spec k 1) as [->|]; [done|]. destruct (Z.eqb_spec k 2) as [->|]; [done|]. destruct (Z.eqb_spec k 3) as [->|]; [done|].
  destruct (Z.eqb_spec k 4) as [->|]; [done|]. destruct (Z.eqb_spec k 5) as [->|]; [done|]. cbn [negb]. by rewrite !decide_False.
Qed.
Lemma oper_text_spec c t vals : oper_text c = Ret (t, vals) → t = operator_sql (oper c) ∧ vals = taken c ∧ places t = length vals.
Proof.
  unfold oper_text, operator_sql, taken, comparisons, EQUALS, NOT_EQUALS, GREATER_THAN, LESS_THAN, GREATER_THAN_EQUALS, LESS_THAN_EQUALS, BETWEEN.
  cbn [mfind]. destruct c as [l op vs k]. cbn [oper rhsVec].
  repeat match goal with |- (if op =? ?n then _ else _) = _ → _ =>
    destruct (Z.eqb_spec op n) as [->|]; [destruct vs as [|v [|w vs]]; cbn; try done; by intros [= <- <-]|] end.
  intros [= <- <-]. by rewrite !decide_False.
Qed.

Lemma conds_text_spec al cs : ∀ qs vs qs' s, conds_text al cs qs (numbered vs, Z.of_nat (length vs) + 1) = Ret (qs', s) →
  qs' = qs ++ concat (map (condition_sql al) cs) ∧ s = (numbered (vs ++ concat (map taken cs)), Z.of_nat (length (vs ++ concat (map taken cs))) + 1) ∧
  Forall (λ c, places (operator_sql (oper c)) = length (taken c)) cs.
Proof.
  induction cs as [|c cs IH]; intros qs vs qs' s; cbn [conds_text map concat]; [intros [= <- <-]; by rewrite !app_nil_r|].
  set (qs1 := if negb (clause c =? CLAUSE_NONE) then _ else _).
  assert (qs1 = qs ++ default [] (mfind (clause c) connectives)) as -> by (rewrite <- clause_text_spec; unfold qs1; case_match; by rewrite ?app_nil_r).
  unfold condition_sql at 1. destruct (Z.eqb_spec (oper c) OPER_NONE) as [E|E]; cbn [negb]; intros H.
  - rewrite decide_True, app_nil_r by done. apply IH in H as (-> & -> & H). assert (taken c = [] ∧ operator_sql (oper c) = []) as [Et Eo]
      by (unfold taken, operator_sql; rewrite E; done).
    rewrite Et, app_assoc. split_and!; [done|done|]. constructor; [by rewrite Eo, Et|done].
  - rewrite decide_False by done. apply bind_Ret_inv in H as ([t vals] & Ho & H). apply oper_text_spec in Ho as (-> & -> & Hp).
    rewrite add_parameters_spec in H. apply IH in H as (-> & -> & H). rewrite <- !app_assoc. split_and!; [done|done|]. by constructor.
Qed.

Lemma condition_places al c : 63 ∉ al → 63 ∉ lhs c → places (operator_sql (oper c)) = length (taken c) →
  places (condition_sql al c) = length (taken c).
Proof.
  intros Ha Hl Hp. unfold condition_sql. rewrite <- clause_text_spec, places_app.
  assert (places (if negb (clause c =? CLAUSE_NONE) then clause_text (clause c) else []) = 0%nat) as -> by (unfold clause_text; by repeat case_match).
  case_decide as E; [|by rewrite !places_app, (places_none al), (places_none (lhs c)), Hp].
  unfold taken. by rewrite E.
Qed.
Lemma no_comma al cs word : 44 ∉ word → 44 ∉ al → Forall (λ c, 44 ∉ lhs c) cs → 44 ∉ clause_sql word al cs.
Proof.
  intros Hw Ha Hl. unfold clause_sql. case_decide; [apply not_elem_of_nil|]. rewrite elem_of_app. intros [?|Hin]; [done|].
  apply list_elem_of_In, in_concat in Hin as (t & Hin & Ht). apply in_map_iff in Hin as (c & <- & Hc). apply list_elem_of_In in Ht, Hc. rewrite Forall_forall in Hl. specialize (Hl c Hc).
  revert Ht. unfold condition_sql. rewrite <- clause_text_spec, elem_of_app. intros [Ht|Ht].
  - revert Ht. unfold clause_text. repeat case_match; try apply not_elem_of_nil; by apply (bool_decide_unpack _); vm_compute.
  - case_decide; [by apply elem_of_nil in Ht|]. rewrite !elem_of_app in Ht. destruct Ht as [?|[Ht|[?|Ht]]]; [done| |done|].
    + revert Ht. by apply (bool_decide_unpack _); vm_compute.
    + revert Ht. unfold operator_sql, comparisons. cbn [mfind]. repeat case_decide; try apply not_elem_of_nil; by apply (bool_decide_unpack _); vm_compute.
Qed.

Lemma places_join d l : places d = 0%nat → Forall (λ s, places s = 0%nat) l → places (join d l) = 0%nat.
Proof.
  intros Hd. induction 1 as [|s l Hs Hl IH]; [done|]. destruct l as [|s' l]; [done|].
  change (join d (s :: s' :: l)) with (s ++ d ++ join d (s' :: l)). by rewrite !places_app, Hs, Hd, IH.
Qed.
Lemma places_sorted al word l : 63 ∉ al → places word = 0%nat → Forall (λ x, 63 ∉ x) l → places (sorted_text al word l) = 0%nat.
Proof.
  intros Ha Hw Hl. apply places_concat, Forall_map. eapply Forall_impl; [exact Hl|]. intros c Hc. cbn beta.
  by rewrite !places_app, (places_none al), (places_none c), Hw.
Qed.

(** The table of a query, and every name its text is made of. *)
Definition table_of (m : Mapping) (qb : QueryBuilder V) : bytes :=
  if negb (bool_decide (className qb = [])) then em_tableName (getDataSourceEntityMapping (className qb) m) else tableName qb.
Definition names (m : Mapping) (qb : QueryBuilder V) : list bytes :=
  [className qb; alias qb; table_of m qb] ++ map fst (columns qb) ++ map snd (columns qb) ++
  map (λ p, getColumnForProperty p.1 (getDataSourceEntityMapping (className qb) m)) (columns qb) ++
  map fst (getMappingForTable (table_of m qb) m) ++ columnsAsc qb ++ columnsDesc qb ++ gc_columns (group qb) ++
  map lhs (conds (conditions qb)) ++ map lhs (conds (gc_conditions (group qb))).

Lemma column_places al e p : 63 ∉ al → 63 ∉ p.1 → 63 ∉ p.2 → (∀ x, e = Some x → 63 ∉ getColumnForProperty p.1 x) → places (column_text al e p) = 0%nat.
Proof.
  intros Ha H1 H2 He. unfold column_text. destruct e as [x|].
  - case_match; [|done]. by rewrite !places_app, (places_none al), (places_none (getColumnForProperty p.1 x)) by eauto.
  - rewrite !places_app, (places_none al), (places_none p.1) by done. case_match; [|done]. by rewrite !places_app, (places_none p.2).
Qed.

Lemma clauses_spec al cs word qs vs qs' s :
  (if negb (bool_decide (cs = [])) then conds_text al cs (qs ++ word) (numbered vs, Z.of_nat (length vs) + 1)
   else Ret (qs, (numbered vs, Z.of_nat (length vs) + 1))) = Ret (qs', s) →
  qs' = qs ++ clause_sql word al cs ∧ s = (numbered (vs ++ concat (map taken cs)), Z.of_nat (length (vs ++ concat (map taken cs))) + 1) ∧
  Forall (λ c, places (operator_sql (oper c)) = length (taken c)) cs.
Proof.
  unfold clause_sql. case_bool_decide as E; cbn [negb].
  - subst cs. intros [= <- <-]. rewrite decide_True by done. cbn. by rewrite !app_nil_r.
  - rewrite decide_False by done. intros H. apply conds_text_spec in H as (-> & -> & H). by rewrite app_assoc.
Qed.
Lemma clause_places word al cs : 63 ∉ al → places word = 0%nat → Forall (λ c, 63 ∉ lhs c) cs →
  Forall (λ c, places (operator_sql (oper c)) = length (taken c)) cs → places (clause_sql word al cs) = length (concat (map taken cs)).
Proof.
  intros Ha Hw Hl Hp. unfold clause_sql. case_decide as E; [by subst cs|]. clear E. rewrite places_app, Hw. cbn [Nat.add].
  induction Hp as [|c cs Hc _ IH]; [done|]. apply Forall_cons in Hl as [Hc' Hl]. cbn [map concat]. by rewrite places_app, length_app, condition_places, IH.
Qed.

(** *** The rest of the text *)

(** Taking a comma off the end does not touch what does not end with one. *)
Lemma without_comma_behind a m : last a ≠ Some 44 → ∃ m', without_comma (a ++ m) = a ++ m' ∧ places m' = places m.
Proof.
  intros Ha. destruct m as [|x m _] using rev_ind.
  - exists []. rewrite app_nil_r. split; [|done]. unfold without_comma. repeat case_match; congruence.
  - exists (without_comma (m ++ [x])). split; [|apply places_without_comma]. rewrite app_assoc. unfold without_comma. rewrite !last_snoc.
    rewrite !length_app. cbn [length]. repeat case_match; try by rewrite <- app_assoc.
    rewrite <- app_assoc. replace (length a + length m + 1 - 1)%nat with (length a + (length m + 1 - 1))%nat by lia. by rewrite take_app_add.
Qed.
Lemma last_app_not a b (c : Z) : last a ≠ Some c → c ∉ b → last (a ++ b) ≠ Some c.
Proof.
  intros Ha Hb. destruct b as [|x b _] using rev_ind; [by rewrite app_nil_r|]. rewrite app_assoc, last_snoc. intros [= ->]. apply Hb.
  rewrite elem_of_app. right. by left.
Qed.

(** The alias the text uses. *)
Definition alias_of (m : Mapping) (qb : QueryBuilder V) : bytes :=
  let a := if negb (bool_decide (className qb = [])) then className qb else alias qb in
  if bool_decide (a = []) then table_of m qb ++ str "_" else a.
Lemma alias_of_name m qb : Forall sql_name (names m qb) → sql_name (alias_of m qb) ∧ alias_of m qb ≠ [].
Proof.
  unfold names. rewrite !Forall_app, !Forall_cons. intros ([Hc [Ha [Ht _]]] & _). unfold alias_of. cbv zeta. case_bool_decide as E.
  - split; [|by destruct (table_of m qb)]. split; rewrite not_elem_of_app; (split; [apply Ht|]); by apply (bool_decide_unpack _); vm_compute.
  - split; [|done]. by case_match.
Qed.

(** The text up to the conditions. *)
Lemma select_places m qb : Forall sql_name (names m qb) →
  places (without_comma (str "SELECT " ++ (if unique qb then str "DISTINCT " else []) ++
    (if allCols qb || bool_decide (columns qb = []) then all_columns_text (className qb) (map fst (getMappingForTable (table_of m qb) m))
     else concat (map (column_text (alias_of m qb) (if negb (bool_decide (className qb = [])) then Some (getDataSourceEntityMapping (className qb) m) else None)) (columns qb))))
    ++ str " FROM " ++ table_of m qb ++ str " " ++ alias_of m qb) = 0%nat.
Proof.
  intros Hn. destruct (alias_of_name m qb Hn) as [[Hal _] _]. unfold names in Hn. rewrite !Forall_app, !Forall_cons, !Forall_map in Hn.
  destruct Hn as ([[Hc _] [_ [[Ht _] _]]] & Hk & Hv & Hp & Hm & _).
  rewrite !places_app, places_without_comma, !places_app, (places_none (table_of m qb)), (places_none (alias_of m qb)) by done.
  assert (places (if unique qb then str "DISTINCT " else []) = 0%nat) as -> by by case_match.
  change (places (str "SELECT ")) with 0%nat. change (places (str " FROM ")) with 0%nat. change (places (str " ")) with 0%nat. cbn [Nat.add].
  rewrite !Nat.add_0_r. case_match.
  - apply places_join; [done|]. apply Forall_map. rewrite Forall_map in *. eapply Forall_impl; [exact Hm|]. intros c [Hx _]. cbn beta in *.
    by rewrite !places_app, (places_none (className qb)), (places_none c.1).
  - apply places_concat, Forall_map, Forall_forall. intros p Hin. rewrite Forall_forall in Hk, Hv, Hp.
    apply column_places; [done|by apply Hk|by apply Hv|]. intros x. case_match; [|done]. intros [= <-]. by apply Hp.
Qed.

(** The text between the conditions. *)
Lemma middle_places al asc desc grp qs : last qs ≠ Some 44 → 63 ∉ al → Forall sql_name (asc ++ desc ++ grp) →
  ∃ middle, places middle = 0%nat ∧ qs ++ middle =
    let qs := if negb (bool_decide (asc = [])) || negb (bool_decide (desc = [])) then qs ++ str " ORDER BY " else qs in
    let qs := without_comma (qs ++ sorted_text al (str " ASC") asc) in
    let qs := without_comma (qs ++ sorted_text al (str " DESC") desc) in
    let qs := if negb (bool_decide (grp = [])) then qs ++ str " GROUP BY " ++ sorted_text al [] grp else qs in
    without_comma qs.
Proof.
  intros Hq Ha Hn. rewrite !Forall_app in Hn. destruct Hn as (Hasc & Hdesc & Hg). cbv zeta.
  assert (∀ word l, places word = 0%nat → Forall sql_name l → places (sorted_text al word l) = 0%nat) as Hs.
  { intros word l Hw Hl. apply places_sorted; [done|done|]. eapply Forall_impl; [exact Hl|]. by intros ? []. }
  set (o := if negb (bool_decide (asc = [])) || negb (bool_decide (desc = [])) then str " ORDER BY " else []).
  assert ((if negb (bool_decide (asc = [])) || negb (bool_decide (desc = [])) then qs ++ str " ORDER BY " else qs) = qs ++ o) as ->
    by (unfold o; case_match; by rewrite ?app_nil_r).
  rewrite <- app_assoc. destruct (without_comma_behind qs (o ++ sorted_text al (str " ASC") asc) Hq) as (m1 & -> & H1).
  rewrite <- app_assoc. destruct (without_comma_behind qs (m1 ++ sorted_text al (str " DESC") desc) Hq) as (m2 & -> & H2).
  set (g := if negb (bool_decide (grp = [])) then str " GROUP BY " ++ sorted_text al [] grp else []).
  assert ((if negb (bool_decide (grp = [])) then (qs ++ m2) ++ str " GROUP BY " ++ sorted_text al [] grp else qs ++ m2) = qs ++ (m2 ++ g)) as ->
    by (unfold g; case_match; by rewrite ?app_nil_r, <- ?app_assoc).
  destruct (without_comma_behind qs (m2 ++ g) Hq) as (m3 & -> & H3). exists m3. split; [|done].
  rewrite H3, places_app, H2, places_app, H1, places_app, !Hs by done.
  assert (places o = 0%nat) as -> by (unfold o; by case_match). assert (places g = 0%nat) as -> by (unfold g; case_match; [by rewrite places_app, Hs|done]). done.
Qed.

(** C33: The text of a query and its parameters fit together.  For names without question marks and commas, the text
    is made of the conditions of [WHERE] and [HAVING], in order, each with its connective, its column and its
    operator, and of parts without a place for a value.  The parameters are numbered from 1, one for every place
    in the order of the places, and have the values the conditions were given: the one of a
    comparison, the two of [BETWEEN] in their order; those of [IN] and [NOT IN] get no place and no number. *)
Theorem parameters_match_places (m : Mapping) (qb : QueryBuilder V) (q : Query V) :
  Forall sql_name (names m qb) → fromQueryBuilder m qb = Ret q →
  let al := alias_of m qb in
  let wh := conds (conditions qb) in
  let hv := conds (gc_conditions (group qb)) in
  (∃ head middle, query q = head ++ clause_sql (str " WHERE ") al wh ++ middle ++ clause_sql (str " HAVING ") al hv ∧
     places head = 0%nat ∧ places middle = 0%nat) ∧
  Forall (λ c, places (condition_sql al c) = length (taken c)) (wh ++ hv) ∧
  propPosVaues q = numbered (concat (map taken (wh ++ hv))) ∧ places (query q) = length (propPosVaues q).
Proof.
  intros Hn. destruct (alias_of_name m qb Hn) as [[Hal Hal'] Hne]. pose proof (select_places m qb Hn) as Hsel. cbv zeta.
  unfold names in Hn. rewrite !Forall_app, !Forall_map in Hn. destruct Hn as (_ & _ & _ & _ & _ & Hasc & Hdesc & Hg & Hw & Hh).
  assert (∀ cs : list (Condition V), Forall (λ c, sql_name (lhs c)) cs → Forall (λ c, 63 ∉ lhs c) cs ∧ Forall (λ c, 44 ∉ lhs c) cs) as Hl
    by (intros cs H; split; (eapply Forall_impl; [exact H|]); by intros ? []).
  destruct (Hl _ Hw) as [Hw1 Hw2], (Hl _ Hh) as [Hh1 Hh2].
  unfold fromQueryBuilder. cbv zeta. fold (table_of m qb). fold (alias_of m qb). rewrite <- (app_assoc (str "SELECT ")).
  match goal with |- context [without_comma ?x ++ _] => set (qs0 := without_comma x ++ _) in * end. intros E.
  assert (last qs0 ≠ Some 44) as Hlast.
  { unfold qs0. rewrite !app_assoc. destruct (alias_of m qb) as [|x al _] eqn:Ea using rev_ind; [done|]. rewrite app_assoc, last_snoc. intros [= ->].
    apply Hal'. rewrite elem_of_app. right. by left. }
  clearbody qs0. change ([] : list (Z * V), 1) with (numbered ([] : list V), Z.of_nat (@length V []) + 1) in E.
  destruct (if negb (bool_decide (conds (conditions qb) = [])) then _ else _) as [[qs1 s1]| | |] eqn:E1 in E; try done.
  apply clauses_spec in E1 as (-> & -> & P1). rewrite bind_Ret_l in E. cbn [app] in E.
  destruct (middle_places (alias_of m qb) (columnsAsc qb) (columnsDesc qb) (gc_columns (group qb)) (qs0 ++ clause_sql (str " WHERE ") (alias_of m qb) (conds (conditions qb))))
    as (middle & Hm & Em); [apply last_app_not; [done|apply no_comma; [by apply (bool_decide_unpack _); vm_compute|done..]]|done|by rewrite !Forall_app|]. cbv zeta in Em. rewrite <- Em in E.
  destruct (if negb (bool_decide (conds (gc_conditions (group qb)) = [])) then _ else _) as [[qs2 s2]| | |] eqn:E2 in E; try done.
  apply clauses_spec in E2 as (-> & -> & P2). rewrite bind_Ret_l in E. injection E as <-. cbn [query propPosVaues fst].
  pose proof (proj2 (Forall_app _ _ _) (conj P1 P2)) as P. pose proof (proj2 (Forall_app _ _ _) (conj Hw1 Hh1)) as L.
  split; [exists qs0, middle; by rewrite <- !app_assoc|]. split; [|split; [by rewrite map_app, concat_app|]].
  - rewrite Forall_forall in P, L |- *. intros c Hc. apply condition_places; [done|by apply L|by apply P].
  - rewrite !places_app, Hsel, Hm, !clause_places by done. unfold numbered. rewrite length_imap, length_app. lia.
Qed.
End parameters.

(** A query for a table with three kinds of conditions. *)
Definition sample_query : QueryBuilder Z :=
  let c := where_ (str "age") BETWEEN [18; 65] (logicalOr (where_ (str "id") EQUALS [7] LogicalGroup_new)) in
  let h := where_ (str "total") GREATER_THAN [100] LogicalGroup_new in
  set_group (mkGroupClause [str "city"] h) (set_conditions c (columnName (str "name") (str "n") (fromTable (str "person") (str "p") QueryBuilder_new))).
Lemma parameters_match_places_witness :
  match fromQueryBuilder (mkMapping [] []) sample_query with
  | Ret q => query q = str "SELECT p.p.name AS n FROM person p WHERE p.id = ? OR p.age BETWEEN ? AND ? GROUP BY p.city HAVING p.total > ?" ∧
             propPosVaues q = [(1, 7); (2, 18); (3, 65); (4, 100)] ∧ places (query q) = length (propPosVaues q)
  | _ => False
  end.
Proof.
  destruct (fromQueryBuilder (mkMapping [] []) sample_query) as [q| | |] eqn:E; [|vm_compute in E; discriminate..].
  pose proof (parameters_match_places (mkMapping [] []) sample_query q) as H.
  assert (query q = str "SELECT p.p.name AS n FROM person p WHERE p.id = ? OR p.age BETWEEN ? AND ? GROUP BY p.city HAVING p.total > ?") as Hq
    by (vm_compute in E; injection E as <-; vm_compute; reflexivity).
  destruct H as (_ & _ & H1 & H2); [apply (bool_decide_unpack _); vm_compute; exact I|exact E|].
  split; [exact Hq|]. split; [|exact H2]. rewrite H1. vm_compute. reflexivity.
Defined.

(** ** Conditions in a row *)

Section chains.
Context {V : Type}.
Implicit Types (c : bytes * Z * list V).
Definition add_condition (g : LogicalGroup V) c : LogicalGroup V := where_ c.1.1 c.1.2 c.2 g.
Definition condition c : Condition V := mkCondition c.1.1 c.1.2 c.2 CLAUSE_NONE.
(** A connective named before the condition. *)
Definition add_linked (g : LogicalGroup V) (x : bool * (bytes * Z * list V)) : LogicalGroup V := add_condition (if x.1 then logicalOr g else logicalAnd g) x.2.
Definition linked (x : bool * (bytes * Z * list V)) : list (Condition V) := [connective (if x.1 then OR else AND); condition x.2].

(** Conditions are joined when the connectives are named: then each follows its connective and
    nothing else is added.  Without them [where] puts an AND in front of the second condition
    only: the test looks at the last connective of the group, which stays AND, so that a third
    condition and all behind it follow the one before with nothing in between. *)
Theorem conditions_in_a_row c1 c2 (cs : list (bytes * Z * list V)) (l : list (bool * (bytes * Z * list V))) :
  conds (foldl add_condition LogicalGroup_new (c1 :: c2 :: cs)) = condition c1 :: connective AND :: condition c2 :: map condition cs ∧
  conds (foldl add_linked (add_condition LogicalGroup_new c1) l) = condition c1 :: concat (map linked l).
Proof.
  split.
  - cbn [foldl]. set (g := add_condition (add_condition LogicalGroup_new c1) c2).
    change (condition c1 :: connective AND :: condition c2 :: map condition cs) with (conds g ++ map condition cs).
    assert (lastClause g = AND ∧ condStarted g = true) as [Hl Hs] by done. clearbody g. revert g Hl Hs.
    induction cs as [|c cs IH]; intros g Hl Hs; cbn [foldl map]; [by rewrite app_nil_r|].
    rewrite IH; unfold add_condition, where_; rewrite Hl, Hs; cbn; [by rewrite <- app_assoc|done..].
  - change (condition c1 :: concat (map linked l)) with (conds (add_condition LogicalGroup_new c1) ++ concat (map linked l)).
    assert (condStarted (add_condition LogicalGroup_new c1) = true) as Hs by done. generalize dependent (add_condition LogicalGroup_new c1).
    induction l as [|[b c] l IH]; intros g Hs; cbn [foldl map concat]; [by rewrite app_nil_r|].
    assert (condStarted (add_linked g (b, c)) = true) as Hs' by done.
    rewrite (IH _ Hs'). unfold add_linked, add_condition, where_. destruct b; cbn; rewrite Hs; cbn; by rewrite <- !app_assoc.
Qed.
End chains.

(** Conditions on sets have no operator and no value; columns without a name run together. *)
Example in_is_lost :
  query <$> match fromQueryBuilder (mkMapping [] []) (set_conditions (where_ (str "id") IN_ [1; 2] LogicalGroup_new)
    (columnName (str "b") [] (columnName (str "a") [] (fromTable (str "t") (str "x") QueryBuilder_new)))) with Ret q => Some q | _ => None end
  = Some (str "SELECT x.x.ax.x.b FROM t x WHERE x.id").
Proof. vm_compute. reflexivity. Qed.

(** [splitAndReturn] cuts at every character of [" as "], also at those of the names: [city as town]
    is asked for as [city] with an empty name, and runs into the next column; a plain name
    in a list of columns is left out. *)
Example names_are_cut :
  match delimitedColumnNames (str "p.city as town,p.name as n,p.id") (fromTable (str "person") (str "p") (QueryBuilder_new (V := Z))) with
  | Ret q => columns q = [(str "p.city", []); (str "p.n", str "me")]
  | _ => False
  end.
Proof. vm_compute. reflexivity. Qed.
