(* ===== verification/Amef.v ===== *)
(** * Amef

    AMEF, the binary encoding of the distributed cache and of the binary serializer
    ([serialization/binary/AMEFObject.cpp], [AMEFEncoder.cpp], [AMEFDecoder.cpp]): objects,
    their encoder, and their decoder. *)

From S2P Require Import Prelude ByteCodec StdString CastUtil.

(** ** Objects *)

(** [AMEFObject]; the position and length a decoder keeps in it are arguments of the decoder. *)
Inductive AMEFObject := mkAmef { type : Z; name : bytes; value : bytes; packets : list AMEFObject }.

Definition NULL_STRING : Z := 97.
Definition NULL_NUMBER : Z := 98.
Definition NULL_DATE : Z := 99.
Definition NULL_FPN : Z := 100.
Definition NULL_BOOL : Z := 101.
Definition NULL_CHAR : Z := 102.
Definition NULL_OBJECT : Z := 103.
Definition INT_TYPE : Z := 104.
Definition LONG_INT_TYPE : Z := 105.
Definition BOOLEAN_TYPE : Z := 106.
Definition CHAR_TYPE : Z := 107.
Definition DATE_TYPE : Z := 108.
Definition DOUBLE_FLOAT_TYPE : Z := 109.
Definition ASCII_STRING_TYPE : Z := 110.
Definition STRING_TYPE : Z := 111.
Definition OBJECT_TYPE : Z := 112.

Definition AMEFObject_new : AMEFObject := mkAmef OBJECT_TYPE [] [] [].
Definition addPacket (p o : AMEFObject) : AMEFObject := mkAmef (type o) (name o) (value o) (packets o ++ [p]).

(** The properties: nothing, text, a boolean, a character, a number. *)
Definition addNullPacket (t : Z) (n : bytes) : AMEFObject → AMEFObject := addPacket (mkAmef t n [] []).
Definition addString (s n : bytes) : AMEFObject → AMEFObject := addPacket (mkAmef STRING_TYPE n s []).
Definition addBool (b : bool) (n : bytes) : AMEFObject → AMEFObject := addPacket (mkAmef BOOLEAN_TYPE n (if b then [49] else [48]) []).
Definition addChar (c : Z) (n : bytes) : AMEFObject → AMEFObject := addPacket (mkAmef CHAR_TYPE n [c] []).
(** [addULLPacket], to which all integers are converted. *)
Definition ulonglongTocharArrayF (lon : Z) : bytes := if lon <? 4294967296 then ntb lon 4 else ntb lon 8.
Definition addULLPacket (lon : Z) (n : bytes) : AMEFObject → AMEFObject :=
  addPacket (mkAmef (if lon <? 4294967296 then INT_TYPE else LONG_INT_TYPE) n (ulonglongTocharArrayF lon) []).
Definition addNumber (x : Z) : bytes → AMEFObject → AMEFObject := addULLPacket (wrapu 64 x).

Definition isNull (o : AMEFObject) : bool := schar (type o) <? INT_TYPE.
Definition isNumber (o : AMEFObject) : bool := (type o =? INT_TYPE) || (type o =? LONG_INT_TYPE).
Definition getEqvNullType (t : Z) : Z :=
  if t =? STRING_TYPE then NULL_STRING
  else if (t =? INT_TYPE) || (t =? LONG_INT_TYPE) then NULL_NUMBER
  else if t =? DATE_TYPE then NULL_DATE
  else if t =? BOOLEAN_TYPE then NULL_BOOL
  else if t =? CHAR_TYPE then NULL_CHAR
  else 0.

(** The numbers: [getIntValue] and the like of a signed type of a width, [getNumericValue],
    and the others. *)
Definition getSigned (w : Z) (o : AMEFObject) : Z := if isNumber o then wraps w (charArrayToULongLong (value o)) else -1.
Definition getUnsigned (w : Z) (o : AMEFObject) : Z := if isNumber o then wrapu w (charArrayToULongLong (value o)) else wrapu w (-1).
Definition getIntValue : AMEFObject → Z := getSigned 32.
Definition getBoolValue (o : AMEFObject) : outcome bool :=
  if type o =? BOOLEAN_TYPE then c ← index_ (value o) 0; Ret (c =? 49) else Ret false.
Definition getCharValue (o : AMEFObject) : outcome Z := if type o =? CHAR_TYPE then index_ (value o) 0 else Ret 0.
(** [setValue] of a number, which appends to the value there is. *)
Definition setNumber (lon : Z) (o : AMEFObject) : AMEFObject :=
  mkAmef (if lon <? 4294967296 then INT_TYPE else LONG_INT_TYPE) (name o) (value o ++ ulonglongTocharArrayF lon) (packets o).

(** ** The encoder *)

Definition insert_at (n : nat) (x s : bytes) : bytes := take n s ++ x ++ drop n s.

(** [encodeSinglePacketBNew].  The table of the lengths of the packets is put in behind the
    first five bytes, which are the type and the length when there is no name. *)
Definition encode_one (o : AMEFObject) (ignoreName : bool) (vals : list bytes) : bytes :=
  let head := if ignoreName then [] else ntb (slen (name o)) 1 ++ name o in
  let obj := type o =? OBJECT_TYPE in
  let pbuffer := if obj then flat_map (λ v, ntb (slen v) 4) vals else [] in
  let vbuffer := concat vals ++ (if NULL_OBJECT <? schar (type o) then value o else []) in
  let len := if (DATE_TYPE <=? schar (type o)) && (schar (type o) <? OBJECT_TYPE) then ntb (slen vbuffer) 3
             else if obj then ntb (slen vbuffer + slen pbuffer + 4) 4 else [] in
  let buffer := [type o] ++ head ++ len ++ vbuffer in
  if obj then insert_at 9 pbuffer (insert_at 5 (ntb (slen pbuffer) 4) buffer) else buffer.
Fixpoint encodeSinglePacketBNew (o : AMEFObject) (ignoreName : bool) {struct o} : bytes :=
  encode_one o ignoreName (map (λ p, encodeSinglePacketBNew p false) (packets o)).

(** [encodeSinglePacketB], the encoder from before. *)
Definition encode_old (o : AMEFObject) (ignoreName : bool) (vals : list bytes) : bytes :=
  let head := if ignoreName then [] else ntb (slen (name o)) (ulonglong_width (slen (name o))) ++ name o in
  let vbuffer := concat vals ++ (if NULL_OBJECT <? schar (type o) then value o else []) in
  let len := if (DATE_TYPE <=? schar (type o)) && (schar (type o) <? OBJECT_TYPE) then ntb (slen vbuffer) 2
             else if type o =? OBJECT_TYPE then ntb (slen vbuffer) 4 else [] in
  [type o] ++ head ++ len ++ vbuffer.
Fixpoint encodeSinglePacketB (o : AMEFObject) (ignoreName : bool) {struct o} : bytes :=
  encode_old o ignoreName (map (λ p, encodeSinglePacketB p false) (packets o)).

(** [encodeB], with the length in front, and [encodeWL]. *)
Definition encodeWL (o : AMEFObject) : bytes := encodeSinglePacketBNew o true.
Definition encodeB (o : AMEFObject) : bytes := let enc := encodeWL o in ntb (wraps 32 (slen enc)) 4 ++ enc.

(** ** The decoder *)

(** [charArrayToInt]. *)
Fixpoint charArrayToInt_loop (l : bytes) (off : Z) (n : nat) (t : Z) : outcome Z :=
  match n with
  | O => Ret t
  | S n => c ← index_ l off; charArrayToInt_loop l (off + 1) n (wraps 32 (Z.shiftl t 8 + c))
  end.
Definition charArrayToInt (l : bytes) (off : Z) (ind : nat) : outcome Z := charArrayToInt_loop l off ind 0.

(** [substr] with [int] arguments. *)

(** [decodeObjectName]: the name and the position behind it.  The length is a signed [char]. *)
Definition decodeObjectName (buffer : bytes) (position : Z) : outcome (bytes * Z) :=
  c ← index_ buffer (position + 1);
  let lengthm := schar c in
  n ← (if 0 <? lengthm then substr_int buffer (position + 2) lengthm else Ret []);
  p ← checked_int (position + 2 + lengthm);
  Ret (n, p).

(** The head of an object: where its packets begin and where they end. *)
Definition object_head (buffer : bytes) (position : Z) : outcome (Z * Z) :=
  l ← charArrayToInt buffer position 4;
  blength ← checked_int (4 + position + l);
  poslen ← charArrayToInt buffer (position + 4) 4;
  p ← checked_int (position + 4 + (poslen + 4));
  Ret (p, blength).

(** [decodeSinglePacketBInternal] and its loop over the packets: an object and the position
    behind it.  A type behind [OBJECT_TYPE] leaves both as they are. *)
Fixpoint decodeSinglePacketBInternal (fuel : nat) (buffer : bytes) (position : Z) : outcome (AMEFObject * Z) :=
  match fuel with
  | O => Out_of_fuel
  | S fuel =>
      t ← index_ buffer position;
      let k := schar t in
      if k <? INT_TYPE then
        '(n, p) ← decodeObjectName buffer position; Ret (mkAmef t n [] [], p)
      else if k <? BOOLEAN_TYPE then
        '(n, p) ← decodeObjectName buffer position;
        let w := if k =? LONG_INT_TYPE then 8 else 4 in
        v ← substr_int buffer p w;
        p ← checked_int (p + w);
        Ret (mkAmef t n v [], p)
      else if k <? DATE_TYPE then
        '(n, p) ← decodeObjectName buffer position;
        c ← index_ buffer p;
        p ← checked_int (p + 1);
        Ret (mkAmef t n [c] [], p)
      else if k <? OBJECT_TYPE then
        '(n, p) ← decodeObjectName buffer position;
        l ← charArrayToInt buffer p 3;
        v ← substr_int buffer (p + 3) l;
        p ← checked_int (p + 3 + l);
        Ret (mkAmef t n v [], p)
      else if k =? OBJECT_TYPE then
        '(n, p) ← decodeObjectName buffer position;
        '(p, blength) ← object_head buffer p;
        '(ps, p) ← decode_packets fuel buffer p blength;
        Ret (mkAmef t n [] ps, p)
      else Ret (AMEFObject_new, position)
  end
with decode_packets (fuel : nat) (buffer : bytes) (position blength : Z) : outcome (list AMEFObject * Z) :=
  match fuel with
  | O => Out_of_fuel
  | S fuel =>
      if position <? blength then
        '(o, p) ← decodeSinglePacketBInternal fuel buffer position;
        '(ps, p) ← decode_packets fuel buffer p blength;
        Ret (o :: ps, p)
      else Ret ([], position)
  end.

(** [decodeSinglePacketB] and [decodeB]: the null pointer for an empty buffer. *)
Definition decodeSinglePacketB (fuel : nat) (buffer : bytes) (position : Z) : outcome AMEFObject :=
  t ← index_ buffer position;
  if schar t =? OBJECT_TYPE then
    '(p, blength) ← object_head buffer (position + 1);
    '(ps, _) ← decode_packets fuel buffer p blength;
    Ret (mkAmef t [] [] ps)
  else Ret AMEFObject_new.
Definition decodeB (fuel : nat) (buffer : bytes) (considerLength : bool) : outcome (option AMEFObject) :=
  if bool_decide (buffer = []) then Ret None
  else o ← decodeSinglePacketB fuel buffer (if considerLength then 4 else 0); Ret (Some o).

Example amef_1 :
  decodeB 100 (encodeB (addNumber 300 (str "n") (addString (str "hello") [] AMEFObject_new))) true =
  Ret (Some (addNumber 300 (str "n") (addString (str "hello") [] AMEFObject_new))).
Proof. vm_compute. reflexivity. Qed.

(** ** Reading what was written *)

Lemma index_app (pre s : bytes) c : index_ (pre ++ c :: s) (slen pre) = Ret c.
Proof.
  unfold index_. autorewrite with slen. pose proof (slen_nonneg pre). pose proof (slen_nonneg s).
  replace (_ && _) with true by lia. unfold slen. rewrite Nat2Z.id, app_nth2, Nat.sub_diag by lia. done.
Qed.

Lemma be_value_grows l1 l2 : bytes_ok l1 → bytes_ok l2 → be_value l1 ≤ be_value (l1 ++ l2).
Proof.
  intros H1 H2. induction l2 as [|d l2 IH] using rev_ind; [rewrite app_nil_r; lia|].
  apply bytes_ok_app in H2 as [H2 Hd]. apply bytes_ok_cons in Hd as [Hd _]. unfold byte_ok in Hd.
  specialize (IH H2). pose proof (be_value_bound l1 H1). rewrite app_assoc, be_value_snoc. lia.
Qed.

Lemma charArrayToInt_app (pre l post : bytes) :
  bytes_ok l → be_value l < 2 ^ 31 → charArrayToInt (pre ++ l ++ post) (slen pre) (length l) = Ret (be_value l).
Proof.
  intros Hok Hlt. unfold charArrayToInt.
  assert (∀ l2 l1 pre, bytes_ok (l1 ++ l2) → be_value (l1 ++ l2) < 2 ^ 31 →
    charArrayToInt_loop (pre ++ l2 ++ post) (slen pre) (length l2) (be_value l1) = Ret (be_value (l1 ++ l2))) as H;
    [|by apply (H l [] pre)].
  clear pre l Hok Hlt. induction l2 as [|c l2 IH]; intros l1 pre Hok Hlt; [by rewrite app_nil_r|].
  cbn [length charArrayToInt_loop Datatypes.app]. rewrite index_app, bind_Ret_l.
  replace (pre ++ c :: l2 ++ post) with ((pre ++ [c]) ++ l2 ++ post) by by rewrite <- app_assoc.
  replace (slen pre + 1) with (slen (pre ++ [c])) by solve_slen.
  replace (l1 ++ c :: l2) with ((l1 ++ [c]) ++ l2) in * by by rewrite <- app_assoc.
  rewrite <- (IH _ (pre ++ [c])) by done. f_equal. rewrite be_value_snoc, Z.shiftl_mul_pow2 by lia.
  apply bytes_ok_app in Hok as [Ho1 Ho2]. pose proof (be_value_grows _ _ Ho1 Ho2). pose proof (be_value_bound _ Ho1).
  rewrite be_value_snoc in *. apply wraps_small; lia.
Qed.

Lemma charArrayToInt_be pre n x post :
  0 ≤ x < 256 ^ Z.of_nat n → x < 2 ^ 31 → charArrayToInt (pre ++ be_bytes n x ++ post) (slen pre) n = Ret x.
Proof.
  intros Hx Hlt. rewrite <- (be_bytes_length n x) at 2.
  rewrite charArrayToInt_app; [|auto with ffead|]; by rewrite be_value_be_bytes, Z.mod_small by lia.
Qed.

Lemma substr_int_app (pre v post : bytes) :
  slen (pre ++ v ++ post) < 2 ^ 31 → substr_int (pre ++ v ++ post) (slen pre) (slen v) = Ret v.
Proof.
  intros H. unfold substr_int, size_t. autorewrite with slen in H.
  pose proof (slen_nonneg pre). pose proof (slen_nonneg v). pose proof (slen_nonneg post).
  rewrite !wrapu_small by lia. by apply substr_app_mid.
Qed.

(** ** Objects that are encoded *)

(** The length of the value of a type, for types without packets. *)
Definition value_ok (t : Z) (v : bytes) : Prop :=
  let k := schar t in
  if k <? INT_TYPE then v = []
  else if k <? BOOLEAN_TYPE then slen v = (if k =? LONG_INT_TYPE then 8 else 4)
  else if k <? DATE_TYPE then slen v = 1
  else slen v < 2 ^ 24.
#[export] Instance value_ok_dec t v : Decision (value_ok t v).
Proof. unfold value_ok. repeat case_match; apply _. Defined.

(** A property: no packets, a type in front of [OBJECT_TYPE], a name of at most 127 bytes,
    and a value of the length its type has. *)
Definition property_ok (p : AMEFObject) : Prop :=
  packets p = [] ∧ 0 ≤ type p < 256 ∧ schar (type p) < OBJECT_TYPE ∧ slen (name p) < 128 ∧ value_ok (type p) (value p).

#[export] Instance property_ok_dec p : Decision (property_ok p).
Proof.
  unfold property_ok. apply and_dec; [|apply _].
  destruct (packets p) as [|q ps]; [by left|by right].
Defined.

Definition property_len (p : AMEFObject) : bytes :=
  if DATE_TYPE <=? schar (type p) then be_bytes 3 (slen (value p)) else [].
Definition property_bytes (p : AMEFObject) : bytes := type p :: slen (name p) :: name p ++ property_len p ++ value p.

Lemma encode_property p : property_ok p → encodeSinglePacketBNew p false = property_bytes p.
Proof.
  intros (Hp & Ht & Hk & Hn & Hv). destruct p as [t n v ps]. cbn [packets type name value] in *. subst ps.
  unfold property_bytes, property_len. cbn [encodeSinglePacketBNew packets type name value map]. unfold encode_one. cbn [packets type name value concat Datatypes.app].
  pose proof (slen_nonneg n). rewrite !ntb_be_bytes.
  replace (be_bytes 1 (slen n)) with [slen n]; [|cbn [be_bytes]; rewrite Z.div_1_r, Z.mod_small by lia; done].
  unfold OBJECT_TYPE in *. replace (t =? 112) with false by (unfold schar in Hk; destruct (t <? 128) eqn:?; lia).
  replace (schar t <? 112) with true by lia. rewrite andb_true_r.
  unfold value_ok, NULL_OBJECT, INT_TYPE in *. destruct (Z.ltb_spec (schar t) 104).
  - subst v. replace (103 <? schar t) with false by lia. done.
  - replace (103 <? schar t) with true by lia. by destruct (_ <=? _).
Qed.

Lemma index_at (pre s : bytes) c i : slen pre = i → index_ (pre ++ c :: s) i = Ret c.
Proof. intros <-. apply index_app. Qed.

Lemma decode_name pre t n rest :
  slen n < 128 → slen (pre ++ t :: slen n :: n ++ rest) < 2 ^ 31 →
  decodeObjectName (pre ++ t :: slen n :: n ++ rest) (slen pre) = Ret (n, slen pre + 2 + slen n).
Proof.
  intros Hn Hl. unfold decodeObjectName. pose proof (slen_nonneg n). pose proof (slen_nonneg pre). pose proof (slen_nonneg rest).
  replace (pre ++ t :: slen n :: n ++ rest) with ((pre ++ [t]) ++ slen n :: n ++ rest) at 1 by by rewrite <- app_assoc.
  rewrite index_at by solve_slen. rewrite bind_Ret_l.
  replace (schar (slen n)) with (slen n) by (unfold schar; by replace (slen n <? 128) with true by lia).
  assert ((if 0 <? slen n then substr_int (pre ++ t :: slen n :: n ++ rest) (slen pre + 2) (slen n) else Ret []) = Ret n) as ->.
  { destruct (Z.ltb_spec 0 (slen n)) as [Hp|Hp]; [|destruct n; [done|autorewrite with slen in Hp; pose proof (slen_nonneg n); lia]].
    replace (pre ++ t :: slen n :: n ++ rest) with ((pre ++ [t; slen n]) ++ n ++ rest) by by rewrite <- app_assoc.
    replace (slen pre + 2) with (slen (pre ++ [t; slen n])) by solve_slen.
    apply substr_int_app. autorewrite with slen in *. lia. }
  rewrite bind_Ret_l, checked_int_Ret; [done|]. autorewrite with slen in Hl. lia.
Qed.

Lemma decode_property fuel pre p post :
  property_ok p → slen (pre ++ property_bytes p ++ post) < 2 ^ 31 →
  decodeSinglePacketBInternal (S fuel) (pre ++ property_bytes p ++ post) (slen pre) = Ret (p, slen pre + slen (property_bytes p)).
Proof.
  intros (Hp & Ht & Hk & Hn & Hv) Hl. destruct p as [t n v ps]. cbn [packets type name value] in *. subst ps.
  assert (∃ q, property_bytes (mkAmef t n v []) = t :: slen n :: n ++ q ∧ q = property_len (mkAmef t n v []) ++ v) as (q & E & Hq) by by eexists.
  rewrite E in *. cbn [decodeSinglePacketBInternal].
  replace (pre ++ (t :: slen n :: n ++ q) ++ post) with (pre ++ t :: slen n :: n ++ q ++ post) in * by (cbn [Datatypes.app]; by rewrite <- app_assoc).
  rewrite index_app, bind_Ret_l, decode_name by done. rewrite !bind_Ret_l.
  unfold property_len, value_ok, INT_TYPE, BOOLEAN_TYPE, DATE_TYPE, OBJECT_TYPE, LONG_INT_TYPE in *. cbn [type value] in Hq.
  set (pos := slen pre + 2 + slen n).
  assert (∀ r, pre ++ t :: slen n :: n ++ r = (pre ++ [t; slen n] ++ n) ++ r) as Ea by (intros r; by rewrite <- !app_assoc).
  assert (pos = slen (pre ++ [t; slen n] ++ n)) as Epos by (unfold pos; solve_slen).
  rewrite Ea in *. set (head := pre ++ [t; slen n] ++ n) in *. rewrite Epos.
  replace (slen pre + slen (t :: slen n :: n ++ q)) with (slen head + slen q) by (unfold head; solve_slen).
  pose proof (slen_nonneg head). pose proof (slen_nonneg q). pose proof (slen_nonneg post).
  destruct (Z.ltb_spec (schar t) 104).
  { subst v q. replace (108 <=? schar t) with false by lia. cbn [Datatypes.app]. by rewrite slen_nil, Z.add_0_r. }
  destruct (Z.ltb_spec (schar t) 106).
  { replace (108 <=? schar t) with false in Hq by lia. cbn [Datatypes.app] in Hq. subst q.
    rewrite <- Hv, substr_int_app by done. rewrite bind_Ret_l, checked_int_Ret; [done|]. autorewrite with slen in Hl. lia. }
  destruct (Z.ltb_spec (schar t) 108).
  { replace (108 <=? schar t) with false in Hq by lia. cbn [Datatypes.app] in Hq. subst q.
    clear E. destruct v as [|c [|d v]]; autorewrite with slen in Hv; [lia| |pose proof (slen_nonneg v); lia]. cbn [Datatypes.app] in *.
    rewrite index_app, bind_Ret_l, checked_int_Ret; [done|]. autorewrite with slen in Hl. solve_slen. }
  replace (108 <=? schar t) with true in Hq by lia. replace (schar t <? 112) with true by lia. subst q.
  pose proof (slen_nonneg v). rewrite <- app_assoc, charArrayToInt_be by lia. rewrite bind_Ret_l.
  replace (head ++ be_bytes 3 (slen v) ++ v ++ post) with ((head ++ be_bytes 3 (slen v)) ++ v ++ post) in * by by rewrite <- app_assoc.
  replace (slen head + 3) with (slen (head ++ be_bytes 3 (slen v))) by solve_slen.
  rewrite substr_int_app by (autorewrite with slen in *; lia). rewrite bind_Ret_l, checked_int_Ret; autorewrite with slen in *; [|lia].
  rewrite bind_Ret_l. do 2 f_equal. lia.
Qed.

(** An object with its packets written out: the type, the length, the length of the table,
    the table, the packets. *)
Definition table (vals : list bytes) : bytes := flat_map (λ v, be_bytes 4 (slen v)) vals.
Definition frame (vals : list bytes) : bytes :=
  OBJECT_TYPE :: be_bytes 4 (slen (concat vals) + slen (table vals) + 4) ++ be_bytes 4 (slen (table vals)) ++ table vals ++ concat vals.

Lemma insert_at_app n x s t : length s = n → insert_at n x (s ++ t) = s ++ x ++ t.
Proof. intros <-. unfold insert_at. by rewrite take_app_length, drop_app_length. Qed.

Lemma encodeWL_frame n ps :
  Forall property_ok ps → encodeWL (mkAmef OBJECT_TYPE n [] ps) = frame (map property_bytes ps).
Proof.
  intros Hps. unfold encodeWL. cbn [encodeSinglePacketBNew packets].
  replace (map (λ p, encodeSinglePacketBNew p false) ps) with (map property_bytes ps).
  2:{ induction Hps as [|p ps Hp Hps IH]; [done|]. cbn [map]. by rewrite encode_property, IH. }
  generalize (map property_bytes ps) as vals. intros vals. unfold encode_one. cbn [type name value].
  change (OBJECT_TYPE =? OBJECT_TYPE) with true. change (schar OBJECT_TYPE <? OBJECT_TYPE) with false. rewrite andb_false_r, app_nil_r.
  assert (flat_map (λ v, ntb (slen v) 4) vals = table vals) as ->
    by (apply flat_map_ext; intros v; apply ntb_be_bytes).
  rewrite !ntb_be_bytes. cbn [Datatypes.app].
  change (OBJECT_TYPE :: be_bytes 4 ?a ++ ?b) with ((OBJECT_TYPE :: be_bytes 4 a) ++ b).
  rewrite insert_at_app by done. rewrite app_assoc, insert_at_app by done. unfold frame. by rewrite <- app_assoc.
Qed.

Lemma property_bytes_pos p : 0 < slen (property_bytes p).
Proof. unfold property_bytes. solve_slen. Qed.

Lemma decode_frame_packets fuel pre ps :
  Forall property_ok ps → (length ps < fuel)%nat → slen (pre ++ concat (map property_bytes ps)) < 2 ^ 31 →
  decode_packets fuel (pre ++ concat (map property_bytes ps)) (slen pre) (slen (pre ++ concat (map property_bytes ps))) =
  Ret (ps, slen (pre ++ concat (map property_bytes ps))).
Proof.
  intros Hps. revert fuel pre. induction Hps as [|p ps Hp Hps IH]; intros [|fuel] pre Hf Hl; cbn [length] in Hf; [lia| |lia|].
  - cbn [map concat decode_packets]. rewrite app_nil_r. by rewrite Z.ltb_irrefl.
  - cbn [map concat decode_packets] in *. pose proof (property_bytes_pos p). pose proof (slen_nonneg (concat (map property_bytes ps))).
    replace (slen pre <? _) with true by (autorewrite with slen; lia).
    destruct fuel as [|fuel]; [lia|]. rewrite decode_property by done. rewrite bind_Ret_l.
    replace (slen pre + slen (property_bytes p)) with (slen (pre ++ property_bytes p)) by solve_slen.
    rewrite (app_assoc pre) in *. by rewrite IH by (done || lia).
Qed.

Lemma concat_slen_table vals : slen (table vals) = 4 * Z.of_nat (length vals).
Proof. unfold table. induction vals; cbn [flat_map length]; [done|]. autorewrite with slen. lia. Qed.

Lemma object_head_frame (pre post : bytes) len tab :
  0 ≤ len → 0 ≤ tab → 4 + slen pre + len < 2 ^ 31 → slen pre + tab + 8 < 2 ^ 31 →
  object_head (pre ++ be_bytes 4 len ++ be_bytes 4 tab ++ post) (slen pre) = Ret (slen pre + 4 + (tab + 4), 4 + slen pre + len).
Proof.
  intros Hl Ht H1 H2. pose proof (slen_nonneg pre). unfold object_head. rewrite charArrayToInt_be by lia.
  rewrite bind_Ret_l, checked_int_Ret by lia. rewrite bind_Ret_l.
  replace (pre ++ be_bytes 4 len ++ be_bytes 4 tab ++ post) with ((pre ++ be_bytes 4 len) ++ be_bytes 4 tab ++ post) by by rewrite <- app_assoc.
  replace (slen pre + 4) with (slen (pre ++ be_bytes 4 len)) by solve_slen.
  rewrite charArrayToInt_be by lia. rewrite bind_Ret_l, checked_int_Ret by solve_slen. done.
Qed.

Lemma decode_frame fuel pre ps :
  Forall property_ok ps → (length ps < fuel)%nat → slen (pre ++ frame (map property_bytes ps)) < 2 ^ 31 →
  decodeSinglePacketB fuel (pre ++ frame (map property_bytes ps)) (slen pre) = Ret (mkAmef OBJECT_TYPE [] [] ps).
Proof.
  intros Hps Hf Hl. unfold decodeSinglePacketB, frame in *. set (vals := map property_bytes ps) in *.
  rewrite index_app, bind_Ret_l. change (schar OBJECT_TYPE =? OBJECT_TYPE) with true. cbv iota.
  autorewrite with slen in Hl. pose proof (slen_nonneg pre). pose proof (slen_nonneg (table vals)). pose proof (slen_nonneg (concat vals)).
  rewrite (cons_middle OBJECT_TYPE pre), app_assoc.
  replace (slen pre + 1) with (slen (pre ++ [OBJECT_TYPE])) by solve_slen.
  rewrite object_head_frame by (autorewrite with slen; lia). rewrite bind_Ret_l.
  rewrite !(app_assoc _ _ (concat vals)). set (head := (pre ++ [OBJECT_TYPE]) ++ _).
  replace (slen (pre ++ [OBJECT_TYPE]) + 4 + _) with (slen head) by (unfold head; solve_slen).
  replace (4 + slen (pre ++ [OBJECT_TYPE]) + _) with (slen (head ++ concat vals)) by (unfold head; solve_slen).
  unfold vals. rewrite decode_frame_packets; [done|done|done|]. fold vals. unfold head. solve_slen.
Qed.

Lemma decodeB_encodeB fuel n ps :
  Forall property_ok ps → (length ps < fuel)%nat → slen (encodeB (mkAmef OBJECT_TYPE n [] ps)) < 2 ^ 31 →
  decodeB fuel (encodeB (mkAmef OBJECT_TYPE n [] ps)) true = Ret (Some (mkAmef OBJECT_TYPE [] [] ps)).
Proof.
  intros Hps Hf. unfold encodeB. rewrite !encodeWL_frame by done. intros Hl.
  unfold decodeB. rewrite bool_decide_false by (rewrite ntb_be_bytes; done).
  revert Hl. rewrite ntb_be_bytes. set (pre := be_bytes 4 _). intros Hl. change 4 with (slen pre).
  by rewrite decode_frame.
Qed.

(** C32: Objects are read back.  An object of properties (texts, numbers, booleans, characters,
    dates and nulls, with names of up to 127 bytes) is decoded from what the encoder wrote,
    property by property, with the length in front or without it; only the name of the
    object itself is not sent. *)
Theorem amef_roundtrip fuel n ps :
  Forall property_ok ps → (length ps < fuel)%nat → slen (encodeB (mkAmef OBJECT_TYPE n [] ps)) < 2 ^ 31 →
  decodeB fuel (encodeB (mkAmef OBJECT_TYPE n [] ps)) true = Ret (Some (mkAmef OBJECT_TYPE [] [] ps)) ∧
  decodeB fuel (encodeWL (mkAmef OBJECT_TYPE n [] ps)) false = Ret (Some (mkAmef OBJECT_TYPE [] [] ps)).
Proof.
  intros Hps Hf Hl. split; [by apply decodeB_encodeB|]. revert Hl. unfold encodeB. rewrite !encodeWL_frame by done. intros Hl.
  unfold decodeB. rewrite bool_decide_false by done. pose proof (decode_frame fuel [] ps Hps Hf) as H. cbn [Datatypes.app] in H.
  change (slen []) with 0 in H. rewrite H; [done|]. autorewrite with slen in Hl. rewrite ntb_be_bytes in Hl. autorewrite with slen in Hl. lia.
Qed.

Definition sample_properties : list AMEFObject :=
  packets (addNullPacket NULL_DATE (str "d") (addChar 255 (str "c") (addBool true [] (addNumber (-5) (str "n") (addString (str "hello") [] AMEFObject_new))))).
Lemma amef_roundtrip_witness :
  decodeB 100 (encodeB (mkAmef OBJECT_TYPE (str "root") [] sample_properties)) true = Ret (Some (mkAmef OBJECT_TYPE [] [] sample_properties)).
Proof.
  assert (Forall property_ok sample_properties) as H by by apply (bool_decide_unpack _); vm_compute.
  refine (proj1 (amef_roundtrip 100 (str "root") sample_properties H _ _)); [cbn; lia|by vm_compute].
Defined.

(** Numbers survive in their type: what was added is what the accessor of the type returns. *)
Theorem amef_numbers w x n :
  w ∈ [16; 32; 64] →
  let p t := mkAmef (if t <? 4294967296 then INT_TYPE else LONG_INT_TYPE) n (ulonglongTocharArrayF t) [] in
  (- 2 ^ (w - 1) ≤ x < 2 ^ (w - 1) → getSigned w (p (wrapu 64 x)) = x) ∧
  (0 ≤ x < 2 ^ w → getUnsigned w (p (wrapu 64 x)) = x) ∧ value_ok (type (p (wrapu 64 x))) (value (p (wrapu 64 x))).
Proof.
  intros Hw p. assert (0 < w ≤ 64) as Hw' by (rewrite !elem_of_cons in Hw; set_solver by lia). clear Hw. pose proof (wrapu_bound 64 x ltac:(lia)) as Hb. set (t := wrapu 64 x) in *.
  assert (isNumber (p t) = true) as Hn by (unfold p, isNumber; cbn [type]; by case_match).
  assert (charArrayToULongLong (value (p t)) = t) as Hv.
  { unfold p, ulonglongTocharArrayF. cbn [value].
    destruct (Z.ltb_spec t 4294967296); rewrite ntb_be_bytes, charArrayToULongLong_be_bytes; [|lia| |lia]; by rewrite Z.mod_small by lia. }
  unfold getSigned, getUnsigned. rewrite Hn, Hv. split_and!.
  - intros Hx. unfold t, wraps, wrapu.
    assert (Hm : (x mod 2 ^ 64 + 2 ^ (w - 1)) mod 2 ^ w = (x + 2 ^ (w - 1)) mod 2 ^ w).
    { rewrite Zplus_mod, (Zplus_mod x). do 2 f_equal. apply Z.mod_mod_divide.
      exists (2 ^ (64 - w)). rewrite <- Z.pow_add_r by lia. f_equal. lia. }
    rewrite Hm. rewrite Z.mod_small; [lia|].
    assert (2 ^ w = 2 * 2 ^ (w - 1)) by (rewrite <- Z.pow_succ_r by lia; f_equal; lia). lia.
  - intros Hx. unfold t, wrapu. rewrite (Z.mod_small x (2 ^ 64)); [by apply Z.mod_small|].
    assert (2 ^ w ≤ 2 ^ 64) by (apply Z.pow_le_mono_r; lia). lia.
  - unfold p, ulonglongTocharArrayF, value_ok. cbn [type value]. destruct (Z.ltb_spec t 4294967296); by rewrite ntb_be_bytes, be_bytes_slen.
Qed.

Lemma decode_packets_S fuel buffer position blength :
  decode_packets (S fuel) buffer position blength =
  if position <? blength then
    '(o, p) ← decodeSinglePacketBInternal fuel buffer position; '(ps, p) ← decode_packets fuel buffer p blength; Ret (o :: ps, p)
  else Ret ([], position).
Proof. done. Qed.

(** Messages that keep the decoder going for ever.  Whatever an object claims to hold, if its
    first packet has a type behind the last one there is, or is a null with a name of length
    254, which is read as -2, the decoder adds packets without getting any further. *)
Theorem amef_decoder_diverges fuel pre len t body :
  (112 < t < 128 ∨ 0 ≤ t < 104 ∧ head body = Some 254) →
  4 < len → slen pre + len + 20 < 2 ^ 31 →
  decodeSinglePacketB fuel (pre ++ OBJECT_TYPE :: be_bytes 4 len ++ be_bytes 4 0 ++ t :: body) (slen pre) = Out_of_fuel.
Proof.
  intros Ht Hl0 Hl. unfold decodeSinglePacketB. rewrite index_app, bind_Ret_l. change (schar OBJECT_TYPE =? OBJECT_TYPE) with true.
  cbv iota. pose proof (slen_nonneg pre). pose proof (slen_nonneg body).
  rewrite (cons_middle OBJECT_TYPE pre), app_assoc. replace (slen pre + 1) with (slen (pre ++ [OBJECT_TYPE])) by solve_slen.
  rewrite object_head_frame by (autorewrite with slen; lia). rewrite bind_Ret_l. rewrite !(app_assoc _ _ (t :: body)).
  set (hd := (pre ++ [OBJECT_TYPE]) ++ _).
  replace (slen (pre ++ [OBJECT_TYPE]) + 4 + _) with (slen hd) by (unfold hd; solve_slen).
  set (blength := 4 + slen (pre ++ [OBJECT_TYPE]) + len).
  assert (slen hd < blength) as Hlt by (unfold hd, blength; autorewrite with slen; lia).
  assert (∀ fuel, decode_packets fuel (hd ++ t :: body) (slen hd) blength = Out_of_fuel) as ->; [|done].
  clear fuel. intros fuel. induction fuel as [fuel IH] using lt_wf_ind. destruct fuel as [|[|fuel]]; [done| |].
  { cbn. by replace (slen hd <? blength) with true by lia. }
  assert (∃ o, decodeSinglePacketBInternal (S fuel) (hd ++ t :: body) (slen hd) = Ret (o, slen hd)) as (o & E).
  { cbn [decodeSinglePacketBInternal]. rewrite index_app, bind_Ret_l. unfold INT_TYPE, BOOLEAN_TYPE, DATE_TYPE, OBJECT_TYPE in *.
    replace (schar t) with t by (unfold schar; by replace (t <? 128) with true by lia).
    destruct Ht as [Ht|[Ht Hn]].
    - replace (t <? 104) with false by lia. replace (t <? 106) with false by lia. replace (t <? 108) with false by lia.
      replace (t <? 112) with false by lia. replace (t =? 112) with false by lia. by eexists.
    - replace (t <? 104) with true by lia.
      destruct body as [|c body]; [done|]. cbn in Hn. injection Hn as ->.
      unfold decodeObjectName. rewrite (cons_middle t hd), app_assoc.
      rewrite index_at by solve_slen. rewrite bind_Ret_l. change (schar 254) with (-2). cbn [Z.ltb Z.compare]. rewrite bind_Ret_l.
      rewrite checked_int_Ret by (unfold hd in *; autorewrite with slen in *; lia). rewrite !bind_Ret_l. eexists. do 2 f_equal. lia. }
  rewrite decode_packets_S. replace (slen hd <? blength) with true by lia. rewrite E, bind_Ret_l. rewrite IH by lia. done.
Qed.
Lemma amef_decoder_diverges_witness :
  decodeSinglePacketB 1000 (be_bytes 4 10 ++ OBJECT_TYPE :: be_bytes 4 5 ++ be_bytes 4 0 ++ [120]) 4 = Out_of_fuel.
Proof. apply (amef_decoder_diverges 1000 (be_bytes 4 10) 5 120 []); [lia|done|done]. Defined.

(** An object inside an object comes back empty, and what stands behind it is gone: the table
    is put in behind the first five bytes also when a name stands there. *)
Definition inner_object : AMEFObject := addString (str "x") [] AMEFObject_new.
Theorem amef_nested_object_lost :
  let lost := Ret (Some (addPacket AMEFObject_new AMEFObject_new)) in
  decodeB 100 (encodeB (addPacket inner_object AMEFObject_new)) true = lost ∧
  decodeB 100 (encodeB (addBool true (str "b") (addPacket inner_object AMEFObject_new))) true = lost.
Proof. split_and!; vm_compute; done. Qed.
