(* ===== verification/TextCoding.v ===== *)
(** * TextCoding

    The text codings of [common/CryptoHandler.cpp]: URL and HTML escaping and
    their inverses, base 64 of the builds without OpenSSL, and the fast HTML
    escaper of [common/hescape.cpp]. *)

From S2P Require Import Prelude StdString StringUtil.

(** ** Escaping by a table

    A table gives the code of every character that has one, in the order in which
    the decoder replaces them. *)

Definition escape_table := list (Z * bytes).

Fixpoint code_of (table : escape_table) (c : Z) : bytes :=
  match table with
  | [] => [c]
  | (d, code) :: table => if c =? d then code else code_of table c
  end.
Definition escape (table : escape_table) (s : bytes) : bytes := flat_map (code_of table) s.
Fixpoint unescape (table : escape_table) (s : bytes) : outcome bytes :=
  match table with
  | [] => Ret s
  | (c, code) :: table => s ← replaceAll s code [c]; unescape table s
  end.

(** ** URLs *)

Definition url_table : escape_table :=
  [(37, str "%25"); (61, str "%3D"); (58, str "%3A"); (32, str "%20"); (94, str "%5E"); (38, str "%26"); (96, str "%60");
   (123, str "%7B"); (125, str "%7D"); (124, str "%7C"); (93, str "%5D"); (91, str "%5B"); (34, str "%22"); (60, str "%3C");
   (62, str "%3E"); (92, str "%5C"); (35, str "%23"); (63, str "%3F"); (47, str "%2F"); (43, str "%2B")].

Definition urlDecode (s : bytes) : outcome bytes := unescape url_table s.
(** [len] is an [int]: of a string of more than 2^31-1 bytes it is negative. *)
Definition urlEncode (s : bytes) : bytes := escape url_table (take (Z.to_nat (wraps 32 (slen s))) s).

(** ** HTML *)

Definition html_table : escape_table :=
  [(38, str "&amp;"); (34, str "&quot;"); (39, str "&apos;"); (60, str "&lt;"); (62, str "&gt;")].

Definition sanitizeHtml (data : bytes) : bytes := escape html_table data.
Definition deSanitizeHtml (s : bytes) : outcome bytes := unescape html_table s.

(** ** The fast escaper *)

(** [HTML_ESCAPE_TABLE] and [ESCAPED_STRING]. *)
Definition HTML_ESCAPE_TABLE (c : Z) : nat :=
  if c =? 34 then 1 else if c =? 38 then 2 else if c =? 39 then 3 else if c =? 60 then 4 else if c =? 62 then 5 else 0.
Definition ESCAPED_STRING (x : nat) : bytes :=
  match x with
  | 1 => str "&quot;" | 2 => str "&amp;" | 3 => str "&#39;" | 4 => str "&lt;" | 5 => str "&gt;" | _ => []
  end%nat.
Definition ESC_LEN (x : nat) : nat := ((13 - x) / 2)%nat.

(** The allocated buffer: its [asize] bytes. *)
Fixpoint grow (fuel new_size size : nat) : outcome nat :=
  match fuel with
  | O => Out_of_fuel
  | S fuel' => if (new_size <? size)%nat then grow fuel' (2 * new_size - new_size / 2) size else Ret new_size
  end.
Definition ensure_allocated (buf : bytes) (size : nat) : outcome bytes :=
  if (size <? length buf)%nat then Ret buf
  else
    n ← grow (S size) (if (length buf =? 0)%nat then size else length buf) size;
    Ret (buf ++ replicate (n - length buf) 0).

(** [memcpy(rbuf + at, src, length src)]. *)
Definition memcpy_at (rbuf : bytes) (at_ : nat) (src : bytes) : outcome bytes :=
  if (at_ + length src <=? length rbuf)%nat then Ret (take at_ rbuf ++ src ++ drop (at_ + length src) rbuf)
  else Undefined.

Definition append_pending_buf (rbuf : bytes) (rbuf_i : nat) (buf : bytes) (buf_i esize : nat) : outcome (bytes * nat) :=
  let from := (rbuf_i - esize)%nat in
  if (esize <=? rbuf_i)%nat && (from <=? buf_i)%nat then
    rbuf ← memcpy_at rbuf rbuf_i (take (buf_i - from) (drop from buf)); Ret (rbuf, (buf_i + esize)%nat)
  else Undefined.

Definition append_escaped_buf (rbuf : bytes) (rbuf_i esc_i esize : nat) : outcome (bytes * nat * nat) :=
  rbuf ← memcpy_at rbuf rbuf_i (take (ESC_LEN esc_i) (ESCAPED_STRING esc_i));
  Ret (rbuf, (rbuf_i + ESC_LEN esc_i)%nat, (esize + ESC_LEN esc_i - 1)%nat).

(** The loop, a character at a time; [rest] is what is left of [buf] from [i]. *)
Fixpoint escape_loop (buf rest : bytes) (i : nat) (rbuf : bytes) (rbuf_i esize : nat) : outcome (bytes * nat * nat) :=
  match rest with
  | [] => Ret (rbuf, rbuf_i, esize)
  | c :: rest =>
      let esc_i := HTML_ESCAPE_TABLE c in
      if (esc_i =? 0)%nat then escape_loop buf rest (S i) rbuf rbuf_i esize
      else
        rbuf ← ensure_allocated rbuf (length buf + esize + ESC_LEN esc_i + 1);
        '(rbuf, rbuf_i) ← append_pending_buf rbuf rbuf_i buf i esize;
        '(rbuf, rbuf_i, esize) ← append_escaped_buf rbuf rbuf_i esc_i esize;
        escape_loop buf rest (S i) rbuf rbuf_i esize
  end.

(** The view that is returned, [data], and [allocd]. *)
Definition hesc_escape_html (buf data : bytes) : outcome (bytes * bytes * bool) :=
  '(rbuf, rbuf_i, esize) ← escape_loop buf buf 0 [] 0 0;
  if (rbuf_i =? 0)%nat then Ret (data ++ buf, data ++ buf, false)
  else
    '(rbuf, _) ← append_pending_buf rbuf rbuf_i buf (length buf) esize;
    Ret (take (length buf + esize) rbuf, data, true).

(** ** Base 64 without OpenSSL *)

Definition base46_map : bytes := str "ABCDEFGHIJKLMNOPQRSTUVWXYZabcdefghijklmnopqrstuvwxyz0123456789+/".
Definition map_at (i : Z) : outcome Z := if (0 <=? i) && (i <? 64) then Ret (nth (Z.to_nat i) base46_map 0) else Undefined.

(** The encoder's loop by groups of three bytes, each a signed [char]. *)
Fixpoint encode_groups (s : bytes) : outcome bytes :=
  match s with
  | [] => Ret []
  | [a] =>
      let a := schar a in
      x ← map_at (Z.shiftr a 2); y ← map_at (Z.shiftl (Z.land a 3) 4); Ret [x; y; 61; 61]
  | [a; b] =>
      let '(a, b) := (schar a, schar b) in
      x ← map_at (Z.shiftr a 2); y ← map_at (Z.shiftl (Z.land a 3) 4 + Z.shiftr b 4);
      z ← map_at (Z.shiftl (Z.land b 15) 2); Ret [x; y; z; 61]
  | a :: b :: c :: s =>
      let '(a, b, c) := (schar a, schar b, schar c) in
      x ← map_at (Z.shiftr a 2); y ← map_at (Z.shiftl (Z.land a 3) 4 + Z.shiftr b 4);
      z ← map_at (Z.shiftl (Z.land b 15) 2 + Z.shiftr c 6); w ← map_at (Z.land c 63);
      t ← encode_groups s; Ret (x :: y :: z :: w :: t)
  end.

(** [base64encodeStr]: the output and its terminator must fit what is allocated. *)
Definition base64encodeStr (input : bytes) : outcome bytes :=
  n ← checked_int (slen input * 4);
  out ← encode_groups (c_string input);
  if slen out <? n / 3 + 4 then Ret out else Undefined.

(** The index of a character, 64 for one that is not in the map. *)
Definition map_index (c : Z) : Z := default 64 (Z.of_nat <$> find_first (Z.eqb c) base46_map).

Fixpoint decode_groups (s : bytes) : bytes :=
  match s with
  | a :: b :: c :: d :: s =>
      let '(a, b, c, d) := (map_index a, map_index b, map_index c, map_index d) in
      [wrapu 8 (Z.shiftl a 2 + Z.shiftr b 4)]
      ++ (if c =? 64 then [] else [wrapu 8 (Z.shiftl b 4 + Z.shiftr c 2)])
      ++ (if d =? 64 then [] else [wrapu 8 (Z.shiftl c 6 + d)]) ++ decode_groups s
  | _ => []
  end.

Definition base64decodeStr (input : bytes) : outcome bytes :=
  n ← checked_int (slen input * 3);
  let plain := decode_groups (c_string input) in
  if slen plain <? n / 4 then Ret (c_string plain) else Undefined.

Example url_1 : urlEncode (str "a b=c&d") = str "a%20b%3Dc%26d". Proof. reflexivity. Qed.
Example url_2 : urlDecode (str "a%20b%3Dc%26d") = Ret (str "a b=c&d"). Proof. reflexivity. Qed.
Example html_1 : hesc_escape_html (str "a<b & 'c'") [] = Ret (str "a&lt;b &amp; &#39;c&#39;", [], true). Proof. reflexivity. Qed.
Example html_2 : hesc_escape_html (str "plain") (str "x") = Ret (str "xplain", str "xplain", false). Proof. reflexivity. Qed.
Example b64_1 : base64encodeStr (str "Man!") = Ret (str "TWFuIQ=="). Proof. reflexivity. Qed.
Example b64_2 : base64decodeStr (str "TWFuIQ==") = Ret (str "Man!"). Proof. reflexivity. Qed.
Example b64_3 : base64decodeStr (str "TWFu") = Undefined. Proof. reflexivity. Qed.

(** ** Unescaping what was escaped *)

(** Every token is [p] or has no occurrence of [p] that starts in it. *)
Fixpoint tokens_of (p : bytes) (ts : list bytes) : Prop :=
  match ts with [] => True | t :: ts => (t = p ∨ absent p t (concat ts) = true) ∧ tokens_of p ts end.

Lemma replaced_prepend p w t s s' : absent p t s = true → replaced p w s s' → replaced p w (t ++ s) (t ++ s').
Proof.
  intros Ha H. destruct H as [s Hs|a b u Hab H].
  - constructor. by rewrite sfind_absent, Hs.
  - rewrite !app_assoc, <- !(app_assoc (t ++ a)). constructor; [|done]. by rewrite absent_app, Ha.
Qed.

Lemma absent_occurrence p k : p ≠ [] → absent p p k = false.
Proof. intros H. destruct p as [|c p]; [done|]. cbn [absent]. by rewrite prefixb_app. Qed.

Lemma replaced_tokens p w ts :
  p ≠ [] → tokens_of p ts → replaced p w (concat ts) (concat (map (λ t, if bool_decide (t = p) then w else t) ts)).
Proof.
  intros Hp. induction ts as [|t ts IH]; intros H; [constructor; by destruct p|]. destruct H as [[->|Ht] H]; cbn [concat map].
  - rewrite bool_decide_eq_true_2 by done. apply (replaced_one p w []); [done|auto].
  - rewrite bool_decide_eq_false_2 by (intros ->; by rewrite absent_occurrence in Ht). apply replaced_prepend; auto.
Qed.

(** What makes a table decodable: the codes start with the same character [e] and
    go on with characters that have no code, and no code begins another one. *)
Definition plain (table : escape_table) (e c : Z) : bool := negb (c =? e) && forallb (λ x, negb (c =? x.1)) table.
Definition code_ok (table : escape_table) (e : Z) (code : bytes) : bool :=
  match code with d :: body => (d =? e) && bool_decide (body ≠ []) && forallb (plain table e) body | [] => false end.
Definition no_prefix (p q : bytes) : bool := negb (prefixb p q) && negb (prefixb q p).
Fixpoint table_ok (e : Z) (table : escape_table) : bool :=
  match table with
  | [] => true
  | (c, code) :: rest =>
      code_ok table e code && forallb (λ x, negb (x.1 =? c) && no_prefix code x.2 && code_ok table e x.2) rest && table_ok e rest
  end.

Lemma code_of_cases table c :
  (code_of table c = [c] ∧ c ∉ table.*1) ∨ ∃ code, (c, code) ∈ table ∧ code_of table c = code.
Proof.
  induction table as [|[d code] table IH]; cbn [code_of]; [left; split; [done|apply not_elem_of_nil]|]. destruct (c =? d) eqn:E.
  - apply Z.eqb_eq in E as ->. right. exists code. split; [by left|done].
  - destruct IH as [[? ?]|(k & ? & ?)]; [left|right].
    + split; [done|]. apply not_elem_of_cons. split; [|done]. cbn. lia.
    + exists k. split; [by right|done].
Qed.

Lemma prefixb_long p q k : prefixb p (q ++ k) = true → prefixb p q = true ∨ prefixb q p = true.
Proof.
  revert q. induction p as [|a p IH]; intros q H; [by left|]. destruct q as [|b q]; [by right|].
  cbn in H |- *. apply andb_prop in H as [E H]. rewrite E. rewrite Z.eqb_sym, E. apply IH in H. by destruct H; [left|right].
Qed.

(** A plain text at the start of an escaped text was there before. *)
Lemma plain_prefix table e b s :
  forallb (plain table e) b = true → Forall (λ x, code_ok table e x.2 = true) table →
  prefixb b (escape table s) = true → prefixb b s = true.
Proof.
  intros Hb Ht. revert s. induction b as [|x b IH]; intros s H; [done|]. destruct s as [|c s]; [done|].
  cbn [forallb] in Hb. apply andb_prop in Hb as [Hx Hb]. unfold escape in H. cbn [flat_map] in H.
  unfold plain in Hx. apply andb_prop in Hx as [Hxe _].
  destruct (code_of_cases table c) as [[E _]|(code & Hin & E)]; rewrite E in H.
  - cbn in H |- *. apply andb_prop in H as [-> H]. cbn. by apply IH.
  - rewrite Forall_forall in Ht. apply Ht in Hin. cbn in Hin. destruct code as [|d code]; [done|].
    cbn in Hin, H. lia.
Qed.

Lemma absent_plain c p a t : Forall (λ x, (x =? c) = false) a → absent (c :: p) a t = true.
Proof. intros H. apply absent_first. eapply Forall_impl; [exact H|]. cbn. lia. Qed.

Lemma table_ok_cons e c code rest :
  table_ok e ((c, code) :: rest) = true →
  code_ok ((c, code) :: rest) e code = true ∧ table_ok e rest = true ∧
  Forall (λ x, x.1 ≠ c ∧ no_prefix code x.2 = true ∧ code_ok ((c, code) :: rest) e x.2 = true) rest.
Proof.
  cbn [table_ok]. intros H. apply andb_prop in H as [H H3]. apply andb_prop in H as [H1 H2]. split_and!; [done|done|].
  rewrite forallb_forall in H2. apply Forall_forall. intros x Hx. apply list_elem_of_In, H2 in Hx.
  apply andb_prop in Hx as [Hx ?]. apply andb_prop in Hx as [Hx ?]. split_and!; [|done|done]. intros E. by rewrite E, Z.eqb_refl in Hx.
Qed.
Lemma code_body table e code : code_ok table e code = true → ∃ body, code = e :: body ∧ body ≠ [] ∧ forallb (plain table e) body = true.
Proof.
  unfold code_ok. destruct code as [|d body]; [done|]. intros H. apply andb_prop in H as [H Hb]. apply andb_prop in H as [H1 H2].
  apply bool_decide_eq_true in H2. exists body. split_and!; [by replace d with e by lia|done|done].
Qed.

(** Escaping is by tokens; those of one code become its character again. *)
Lemma escape_tokens e c code rest s :
  table_ok e ((c, code) :: rest) = true → c = e ∨ absent code s [] = true →
  tokens_of code (map (code_of ((c, code) :: rest)) s).
Proof.
  intros Ht Hs. apply table_ok_cons in Ht as (Hc & _ & Hr). destruct (code_body _ _ _ Hc) as (body & -> & Hne & Hb).
  set (table := (c, e :: body) :: rest) in *.
  assert (Forall (λ x, code_ok table e x.2 = true) table) as Hall.
  { constructor; [done|]. eapply Forall_impl; [exact Hr|]. by intros x (_ & _ & ?). }
  induction s as [|x s IH]; [done|]. cbn [map tokens_of]. split; [|apply IH; destruct Hs as [?|Hs]; [by left|right]; cbn in Hs; by apply andb_prop in Hs as [_ Hs]].
  rewrite <- flat_map_concat_map. change (flat_map (code_of table) s) with (escape table s).
  destruct (x =? c) eqn:Exc; [left; unfold table; cbn [code_of]; by rewrite Exc|right].
  destruct (code_of_cases table x) as [[E _]|(k & Hin & E)]; rewrite E.
  - destruct (x =? e) eqn:Exe.
    + destruct Hs as [?|Hs]; [lia|]. cbn [absent] in Hs |- *. apply andb_prop in Hs as [Hs _].
      rewrite app_nil_r in Hs. rewrite andb_true_r. apply negb_true_iff, not_true_is_false. intros Hp.
      cbn [app prefixb] in Hs, Hp. apply andb_prop in Hp as [_ Hp]. apply plain_prefix with (e := e) in Hp; [|done|done].
      rewrite Hp in Hs. replace (e =? x) with true in Hs by lia. done.
    + apply absent_plain. by repeat constructor.
  - unfold table in Hin. apply elem_of_cons in Hin as [[= -> ->]|Hin]; [lia|].
    rewrite Forall_forall in Hr. apply Hr in Hin as (_ & Hnp & Hk). cbn [snd] in *.
    destruct (code_body _ _ _ Hk) as (kb & -> & _ & Hkb). cbn [absent]. apply andb_true_intro. split.
    + apply negb_true_iff, not_true_is_false. intros Hp. apply prefixb_long in Hp. unfold no_prefix in Hnp.
      destruct Hp as [Hp|Hp]; rewrite Hp in Hnp; cbn in Hnp; [done|]. by rewrite andb_false_r in Hnp.
    + apply absent_plain. rewrite forallb_forall in Hkb. apply Forall_forall. intros y Hy.
      apply list_elem_of_In, Hkb in Hy. unfold plain in Hy. lia.
Qed.

Lemma tokens_decoded e c code rest s :
  table_ok e ((c, code) :: rest) = true →
  concat (map (λ t, if bool_decide (t = code) then [c] else t) (map (code_of ((c, code) :: rest)) s)) = escape rest s.
Proof.
  intros Ht. apply table_ok_cons in Ht as (Hc & _ & Hr). destruct (code_body _ _ _ Hc) as (body & Ecode & Hne & _).
  induction s as [|x s IH]; [done|]. cbn [map concat]. unfold escape in *. cbn [flat_map]. f_equal; [|exact IH].
  cbn [code_of]. destruct (x =? c) eqn:E.
  - rewrite bool_decide_eq_true_2 by done. apply Z.eqb_eq in E as ->.
    destruct (code_of_cases rest c) as [[-> _]|(k & Hin & _)]; [done|]. rewrite Forall_forall in Hr. by apply Hr in Hin as (? & _).
  - rewrite bool_decide_eq_false_2; [done|]. destruct (code_of_cases rest x) as [[-> _]|(k & Hin & ->)].
    + rewrite Ecode. intros [= _ H]. by apply Hne.
    + rewrite Forall_forall in Hr. apply Hr in Hin as (_ & H & _). cbn in H. intros ->. unfold no_prefix in H.
      pose proof (prefixb_app code []) as Hp. rewrite app_nil_r in Hp. by rewrite Hp in H.
Qed.

Lemma unescape_escape e table s :
  table_ok e table = true → (∀ c code, (c, code) ∈ table → c = e ∨ absent code s [] = true) →
  unescape table (escape table s) = Ret s.
Proof.
  induction table as [|[c code] rest IH]; intros Ht Hs.
  - cbn [unescape]. unfold escape. f_equal. clear. induction s as [|x s IHs]; [done|]. cbn in *. by rewrite IHs.
  - cbn [unescape]. assert (code ≠ []) as Hne.
    { apply table_ok_cons in Ht as (Hc & _ & _). by destruct (code_body _ _ _ Hc) as (body & -> & _). }
    rewrite (replaceAll_det _ _ _ (escape rest s)); [|done|].
    + rewrite bind_Ret_l. apply IH; [by apply table_ok_cons in Ht as (_ & ? & _)|]. intros. apply Hs. by right.
    + rewrite <- (tokens_decoded e c code rest s) by done.
      unfold escape. rewrite flat_map_concat_map. apply replaced_tokens; [done|].
      apply (escape_tokens e); [done|]. apply Hs. by left.
Qed.

(** A string in which none of the codes but the first occurs. *)
Definition holds_no_code (table : escape_table) (s : bytes) : Prop :=
  Forall (λ x, sfind x.2 s = None) (tail table).

Lemma unescape_escape_free c code rest s :
  table_ok c ((c, code) :: rest) = true → holds_no_code ((c, code) :: rest) s →
  unescape ((c, code) :: rest) (escape ((c, code) :: rest) s) = Ret s.
Proof.
  intros Ht Hs. apply (unescape_escape c); [done|]. intros d k Hin.
  apply elem_of_cons in Hin as [[= -> ->]|Hin]; [by left|right].
  unfold holds_no_code in Hs. cbn [tail] in Hs. rewrite Forall_forall in Hs. apply Hs in Hin. by apply sfind_None in Hin as [? _].
Qed.

Lemma urlDecode_urlEncode s : slen s < 2 ^ 31 → holds_no_code url_table s → urlDecode (urlEncode s) = Ret s.
Proof.
  intros Hl Hs. unfold urlDecode, urlEncode. pose proof (slen_nonneg s).
  rewrite wraps_small by lia. unfold slen. rewrite Nat2Z.id, firstn_all. by apply unescape_escape_free.
Qed.

(** URL and HTML coding.  Decoding gives back what was encoded, for every
    string that does not itself contain one of the codes (that of the escape
    character, "%25" or "&amp;", may occur). *)
Theorem text_coding_roundtrip s :
  (slen s < 2 ^ 31 → holds_no_code url_table s → urlDecode (urlEncode s) = Ret s) ∧
  (holds_no_code html_table s → deSanitizeHtml (sanitizeHtml s) = Ret s).
Proof.
  split.
  - apply urlDecode_urlEncode.
  - intros Hs. by apply unescape_escape_free.
Qed.

(** Plain text in front of a text stays as it is. *)
Lemma unescape_prepend e table t s s' :
  Forall (λ x, ∃ body, x.2 = e :: body) table → e ∉ t → unescape table s = Ret s' → unescape table (t ++ s) = Ret (t ++ s').
Proof.
  intros Ht He. revert s. induction Ht as [|[c code] table [body Hc] Ht IH]; intros s Hs; cbn [unescape snd] in *; [by injection Hs as ->|].
  destruct (replaceAll_ok s code [c]) as (u & Eu & Hu); [by rewrite Hc|]. rewrite Eu, bind_Ret_l in Hs.
  rewrite (replaceAll_det _ _ _ (t ++ u)), bind_Ret_l; [by apply IH|by rewrite Hc|].
  apply replaced_prepend; [|done]. rewrite Hc. apply absent_first, Forall_forall. intros x Hx ->. done.
Qed.
Lemma unescape_nothing table : Forall (λ x, x.2 ≠ []) table → unescape table [] = Ret [].
Proof.
  induction 1 as [|[c code] table Hc Ht IH]; [done|]. cbn [unescape snd] in *.
  rewrite (replaceAll_det _ _ _ []), bind_Ret_l; [done|done|]. constructor. by destruct code.
Qed.
Lemma urlDecode_prepend t s s' : 37 ∉ t → urlDecode s = Ret s' → urlDecode (t ++ s) = Ret (t ++ s').
Proof. apply unescape_prepend. repeat constructor; by eexists. Qed.
Lemma urlDecode_plain t : 37 ∉ t → urlDecode t = Ret t.
Proof.
  intros Ht. rewrite <- (app_nil_r t). apply urlDecode_prepend; [done|]. apply unescape_nothing. by repeat constructor.
Qed.

(** Decoding decodes twice.  The escape character is decoded first, so a
    string that is one of the other codes does not survive: encoding keeps the
    percent sign or ampersand as a code, and decoding makes the code out of it
    and then the code's character. *)
Theorem codes_decode_twice :
  Forall (λ x, urlDecode (urlEncode x.2) = Ret [x.1]) (tail url_table) ∧
  Forall (λ x, deSanitizeHtml (sanitizeHtml x.2) = Ret [x.1]) (tail html_table).
Proof. split; repeat constructor. Qed.

(** ** What escaped text looks like *)

Lemma escape_chars table (P : Z → Prop) s :
  Forall (λ x, Forall P x.2) table → (∀ c, c ∉ table.*1 → P c) → Forall P (escape table s).
Proof.
  intros Ht HP. unfold escape. induction s as [|c s IH]; [constructor|]. cbn [flat_map]. apply Forall_app. split; [|exact IH].
  destruct (code_of_cases table c) as [[-> Hc]|(code & Hin & ->)]; [by constructor; auto|].
  rewrite Forall_forall in Ht. by apply Ht in Hin.
Qed.

Lemma app_first (e : Z) body a b k : e ∉ body → body ++ k = a ++ e :: b → ∃ a', a = body ++ a' ∧ k = a' ++ e :: b.
Proof.
  intros Hb. revert a. induction body as [|z body IH]; intros a H; [by exists a|].
  apply not_elem_of_cons in Hb as [Hz Hb]. destruct a as [|w a]; injection H as E H; [done|]. subst w.
  destruct (IH Hb a H) as (a' & -> & ->). by exists a'.
Qed.

(** The escape character only starts codes. *)
Lemma escape_starts e table s a b :
  Forall (λ x, ∃ body, x.2 = e :: body ∧ e ∉ body) table → e ∈ table.*1 → escape table s = a ++ e :: b →
  ∃ x k, x ∈ table ∧ e :: b = x.2 ++ k.
Proof.
  intros Ht He. unfold escape. revert a. induction s as [|c s IH]; intros a H; [by destruct a|]. cbn [flat_map] in H.
  destruct (code_of_cases table c) as [[E Hc]|(code & Hin & E)]; rewrite E in H.
  - destruct a as [|y a]; injection H as E2 H; [by subst|]. by apply (IH a).
  - pose proof Hin as Hin2. rewrite Forall_forall in Ht. apply Ht in Hin2 as (body & Eb & Hb). cbn in Eb. subst code. rewrite Eb in *.
    destruct a as [|y a]; [exists (c, e :: body), (flat_map (code_of table) s); split; [done|by symmetry]|].
    injection H as <- H. apply app_first in H as (a' & _ & H); [|done]. by apply (IH a').
Qed.

(** Sanitised text is safe.  It holds no quote, apostrophe or angle bracket, and
    every ampersand starts one of the five entities. *)
Theorem sanitized_is_safe s :
  Forall (λ c, c ∉ [34; 39; 60; 62]) (sanitizeHtml s) ∧
  (∀ a b, sanitizeHtml s = a ++ 38 :: b → ∃ x k, x ∈ html_table ∧ 38 :: b = x.2 ++ k).
Proof.
  split.
  - apply escape_chars; [by apply (bool_decide_eq_true_1 (Forall _ _))|].
    intros c Hc H. apply Hc. change (c ∈ 38 :: [34; 39; 60; 62]). by right.
  - intros a b. apply escape_starts; [|by left].
    repeat (constructor; [eexists; split; [reflexivity|by apply (bool_decide_eq_true_1 (_ ∉ _))]|]). constructor.
Qed.

(** ** The fast escaper against its specification *)

Definition hesc_entity (c : Z) : bytes := if (HTML_ESCAPE_TABLE c =? 0)%nat then [c] else ESCAPED_STRING (HTML_ESCAPE_TABLE c).
Definition hesc_spec (s : bytes) : bytes := flat_map hesc_entity s.

Lemma ESC_LEN_ok c : HTML_ESCAPE_TABLE c ≠ 0%nat → length (ESCAPED_STRING (HTML_ESCAPE_TABLE c)) = ESC_LEN (HTML_ESCAPE_TABLE c).
Proof. unfold HTML_ESCAPE_TABLE. intros H. repeat case_match; done. Qed.

Lemma grow_ok fuel n size :
  (0 < n)%nat → (size - n < fuel)%nat → ∃ m, grow fuel n size = Ret m ∧ (size ≤ m)%nat ∧ (n ≤ m)%nat.
Proof.
  revert n. induction fuel as [|fuel IH]; intros n Hn Hf; [lia|]. cbn [grow]. destruct (n <? size)%nat eqn:E.
  - apply Nat.ltb_lt in E. pose proof (Nat.div_lt n 2 Hn ltac:(lia)).
    destruct (IH (2 * n - n / 2)%nat) as (m & -> & ? & ?); [lia|lia|]. exists m. split_and!; [done|lia|lia].
  - apply Nat.ltb_ge in E. by exists n.
Qed.

Lemma ensure_allocated_ok buf size :
  (0 < size)%nat → ∃ k, ensure_allocated buf size = Ret (buf ++ k) ∧ (size ≤ length (buf ++ k))%nat.
Proof.
  intros Hs. unfold ensure_allocated. destruct (size <? length buf)%nat eqn:E.
  - apply Nat.ltb_lt in E. exists []. rewrite app_nil_r. split; [done|lia].
  - destruct (grow_ok (S size) (if (length buf =? 0)%nat then size else length buf) size) as (m & -> & H1 & H2);
      [destruct (length buf =? 0)%nat eqn:E0; [lia|apply Nat.eqb_neq in E0; lia]|lia|].
    exists (replicate (m - length buf) 0). split; [done|]. rewrite length_app, length_replicate. lia.
Qed.

Lemma memcpy_at_ok rbuf n src :
  (n + length src ≤ length rbuf)%nat →
  ∃ r, memcpy_at rbuf n src = Ret r ∧ length r = length rbuf ∧ take (n + length src) r = take n rbuf ++ src.
Proof.
  intros H. unfold memcpy_at. rewrite (proj2 (Nat.leb_le _ _) H). eexists. split; [done|]. split.
  - rewrite !length_app, length_take, length_drop. lia.
  - rewrite app_assoc. apply take_app_length'. rewrite length_app, length_take. lia.
Qed.

(** The first [j] bytes are escaped, at the start of [rbuf]; what follows up to [i]
    is pending. *)
Definition escaped_to (buf : bytes) (i j : nat) (rbuf : bytes) (rbuf_i esize : nat) : Prop :=
  (j ≤ i ≤ length buf)%nat ∧ rbuf_i = (j + esize)%nat ∧ take rbuf_i rbuf = hesc_spec (take j buf) ∧
  hesc_spec (take (i - j) (drop j buf)) = take (i - j) (drop j buf).
Definition escaping (buf : bytes) (i j : nat) (rbuf : bytes) (rbuf_i esize : nat) : Prop :=
  escaped_to buf i j rbuf rbuf_i esize ∧
  ((rbuf_i = 0%nat ∧ j = 0%nat ∧ rbuf = []) ∨ (0 < rbuf_i)%nat ∧ (length buf + esize < length rbuf)%nat).

Lemma append_pending_ok buf i j rbuf rbuf_i esize :
  escaped_to buf i j rbuf rbuf_i esize → (i + esize ≤ length rbuf)%nat →
  ∃ r, append_pending_buf rbuf rbuf_i buf i esize = Ret (r, (i + esize)%nat) ∧ length r = length rbuf ∧
       take (i + esize) r = hesc_spec (take i buf).
Proof.
  intros (Hj & -> & Hr & Hp) Hl. unfold append_pending_buf.
  rewrite (proj2 (Nat.leb_le esize (j + esize)) ltac:(lia)). replace (j + esize - esize)%nat with j by lia.
  rewrite (proj2 (Nat.leb_le j i) ltac:(lia)). cbn [andb].
  assert (length (take (i - j) (drop j buf)) = (i - j)%nat) as Hlen by (rewrite length_take, length_drop; lia).
  destruct (memcpy_at_ok rbuf (j + esize) (take (i - j) (drop j buf))) as (r & -> & Hlr & Htr); [lia|].
  exists r. split; [done|]. split; [done|]. rewrite Hlen in Htr. replace (i + esize)%nat with (j + esize + (i - j))%nat by lia.
  rewrite Htr, Hr, <- Hp at 1. unfold hesc_spec. rewrite <- flat_map_app. f_equal.
  rewrite <- (take_drop j (take i buf)), take_take, Nat.min_l by lia. f_equal. by rewrite skipn_firstn_comm.
Qed.

Lemma escape_loop_ok buf rest i j rbuf rbuf_i esize :
  rest = drop i buf → escaping buf i j rbuf rbuf_i esize →
  ∃ j' rbuf' rbuf_i' esize', escape_loop buf rest i rbuf rbuf_i esize = Ret (rbuf', rbuf_i', esize') ∧
    escaping buf (length buf) j' rbuf' rbuf_i' esize' ∧
    (rbuf_i' = 0%nat ↔ rbuf_i = 0%nat ∧ Forall (λ c, HTML_ESCAPE_TABLE c = 0%nat) rest).
Proof.
  revert i j rbuf rbuf_i esize. induction rest as [|c rest IH]; intros i j rbuf rbuf_i esize Hrest Hinv; cbn [escape_loop].
  - exists j, rbuf, rbuf_i, esize. split; [done|]. assert (i = length buf) as <-; [|naive_solver].
    apply (f_equal length) in Hrest. rewrite length_drop in Hrest. cbn in Hrest. destruct Hinv as [(? & _) _]. lia.
  - assert (buf !! i = Some c) as Hi by (rewrite <- (Nat.add_0_r i), <- lookup_drop, <- Hrest; done).
    assert (rest = drop (S i) buf) as Hrest' by (rewrite <- Nat.add_1_r, <- drop_drop, <- Hrest; done).
    destruct (HTML_ESCAPE_TABLE c =? 0)%nat eqn:Ec.
    + apply Nat.eqb_eq in Ec. pose proof (lookup_lt_Some _ _ _ Hi) as Hlt. destruct (IH (S i) j rbuf rbuf_i esize) as (j' & r' & ri' & e' & -> & Hinv' & Hz); [done| |].
      { destruct Hinv as ((Hj & H2 & H3 & H4) & H5). repeat split; [lia|lia|done|done| |done].
        replace (S i - j)%nat with (S (i - j)) by lia.
        rewrite (take_S_r _ _ c) by (rewrite lookup_drop; by replace (j + (i - j))%nat with i by lia).
        unfold hesc_spec in *. rewrite flat_map_app, H4. cbn. unfold hesc_entity. by rewrite Ec. }
      exists j', r', ri', e'. split; [done|]. split; [done|]. rewrite Hz, Forall_cons. tauto.
    + apply Nat.eqb_neq in Ec. pose proof Hinv as ((Hj & H2 & H3 & H4) & H5). pose proof (lookup_lt_Some _ _ _ Hi) as Hlt.
      destruct (ensure_allocated_ok rbuf (length buf + esize + ESC_LEN (HTML_ESCAPE_TABLE c) + 1)) as (k & -> & Hlen); [lia|].
      rewrite bind_Ret_l. destruct (append_pending_ok buf i j (rbuf ++ k) rbuf_i esize) as (r & -> & Hlr & Htr); [|lia|].
      { repeat split; [lia|lia|done| |done].
        destruct H5 as [(-> & -> & ->)|[? ?]]; [done|]. rewrite take_app_le; [done|lia]. }
      rewrite bind_Ret_l. unfold append_escaped_buf. rewrite <- (ESC_LEN_ok c Ec), firstn_all.
      pose proof (ESC_LEN_ok c Ec) as HL.
      destruct (memcpy_at_ok r (i + esize) (ESCAPED_STRING (HTML_ESCAPE_TABLE c))) as (r2 & -> & Hlr2 & Htr2); [lia|].
      rewrite !bind_Ret_l.
      assert (0 < length (ESCAPED_STRING (HTML_ESCAPE_TABLE c)))%nat as HLpos.
      { unfold HTML_ESCAPE_TABLE in *. repeat case_match; cbn; lia. }
      destruct (IH (S i) (S i) r2 (i + esize + length (ESCAPED_STRING (HTML_ESCAPE_TABLE c)))%nat
                  (esize + length (ESCAPED_STRING (HTML_ESCAPE_TABLE c)) - 1)%nat) as (j' & r' & ri' & e' & -> & Hinv' & Hz); [done| |].
      { repeat split; [lia|lia|lia| |by rewrite Nat.sub_diag|right; split; lia].
        rewrite Htr2, Htr, (take_S_r _ _ c) by done. unfold hesc_spec. rewrite flat_map_app. cbn. unfold hesc_entity.
        rewrite (proj2 (Nat.eqb_neq _ _) Ec). by rewrite app_nil_r. }
      exists j', r', ri', e'. split; [done|]. split; [done|]. rewrite Hz, Forall_cons. split; [lia|]. by intros [_ [? _]].
Qed.

(** The fast HTML escaper.  With its own buffer management, every copy inside
    the memory it allocated, it returns what replacing every special character by
    its entity gives, and copies the text only when it has none; for a text without
    an apostrophe that is what the plain sanitiser gives. *)
Theorem hesc_is_reference buf data :
  let special := existsb (λ c, negb (HTML_ESCAPE_TABLE c =? 0)%nat) buf in
  hesc_escape_html buf data =
    Ret (if special then (hesc_spec buf, data, true) else (data ++ buf, data ++ buf, false)) ∧
  (39 ∉ buf → hesc_spec buf = sanitizeHtml buf).
Proof.
  intros special. split.
  - unfold hesc_escape_html.
    destruct (escape_loop_ok buf buf 0 0 [] 0 0) as (j & r & ri & e & -> & [Hinv Hal] & Hz); [done|by repeat split; [lia|lia|left]|].
    rewrite bind_Ret_l. cbn [fst snd]. destruct (ri =? 0)%nat eqn:E.
    + apply Nat.eqb_eq in E. apply Hz in E as [_ E]. replace special with false; [done|].
      symmetry. apply not_true_is_false. unfold special. rewrite existsb_exists. intros (c & Hin & Hc).
      rewrite Forall_forall in E. by rewrite E in Hc by (by apply list_elem_of_In).
    + apply Nat.eqb_neq in E. destruct Hal as [(? & _)|[_ Hl]]; [done|].
      destruct (append_pending_ok _ _ _ _ _ _ Hinv) as (r' & -> & Hlr & Htr); [lia|]. rewrite bind_Ret_l, Htr, firstn_all.
      replace special with true; [done|]. symmetry. apply not_false_is_true. intros Hs. apply E, Hz. split; [done|].
      apply Forall_forall. intros c Hc. apply dec_stable. intros Hn. apply not_true_iff_false in Hs. apply Hs.
      apply existsb_exists. exists c. split; [by apply list_elem_of_In|]. by apply negb_true_iff, Nat.eqb_neq.
  - intros H. unfold hesc_spec, sanitizeHtml, escape. induction buf as [|c s IH]; [done|]. cbn [flat_map].
    apply not_elem_of_cons in H as [Hc H]. rewrite IH by done. f_equal. unfold hesc_entity, HTML_ESCAPE_TABLE, html_table. cbn [code_of].
    repeat case_match; (done || lia || (subst; done)).
Qed.

(** ** Base 64 *)

Lemma map_at_index i : 0 ≤ i < 64 → ∃ c, map_at i = Ret c ∧ map_index c = i ∧ c ≠ 0.
Proof.
  intros Hi. unfold map_at. replace (_ && _) with true by lia. eexists. split; [done|].
  assert (forallb (λ i, (map_index (nth i base46_map 0) =? Z.of_nat i) && negb (nth i base46_map 0 =? 0)) (seq 0 64) = true) as H
    by (vm_compute; reflexivity).
  rewrite forallb_forall in H. specialize (H (Z.to_nat i) ltac:(apply in_seq; lia)). apply andb_prop in H as [H1 H2].
  rewrite Z2Nat.id in H1 by lia. split; [by apply Z.eqb_eq in H1|]. intros E. by rewrite E in H2.
Qed.

Definition ascii_char (c : Z) : Prop := 1 ≤ c < 128.
Lemma schar_ascii c : ascii_char c → schar c = c.
Proof. unfold ascii_char, schar. intros. by replace (c <? 128) with true by lia. Qed.

Ltac bits :=
  unfold wrapu; change 3 with (Z.ones 2); change 15 with (Z.ones 4); change 63 with (Z.ones 6); rewrite ?Z.land_ones by lia;
  rewrite ?Z.shiftr_div_pow2, ?Z.shiftl_mul_pow2 by lia; change (2 ^ 2) with 4; change (2 ^ 4) with 16; change (2 ^ 6) with 64; change (2 ^ 8) with 256.

Lemma group_1 a b : 0 ≤ a < 128 → 0 ≤ b < 128 →
  0 ≤ Z.shiftr a 2 < 64 ∧ 0 ≤ Z.shiftl (Z.land a 3) 4 + Z.shiftr b 4 < 64 ∧
  wrapu 8 (Z.shiftl (Z.shiftr a 2) 2 + Z.shiftr (Z.shiftl (Z.land a 3) 4 + Z.shiftr b 4) 4) = a.
Proof. intros. bits. Z.div_mod_to_equations. lia. Qed.
Lemma group_2 a b c : 0 ≤ a < 128 → 0 ≤ b < 128 → 0 ≤ c < 128 →
  0 ≤ Z.shiftl (Z.land b 15) 2 + Z.shiftr c 6 < 64 ∧
  wrapu 8 (Z.shiftl (Z.shiftl (Z.land a 3) 4 + Z.shiftr b 4) 4 + Z.shiftr (Z.shiftl (Z.land b 15) 2 + Z.shiftr c 6) 2) = b.
Proof. intros. bits. Z.div_mod_to_equations. lia. Qed.
Lemma group_3 b c : 0 ≤ b < 128 → 0 ≤ c < 128 →
  0 ≤ Z.land c 63 < 64 ∧
  wrapu 8 (Z.shiftl (Z.shiftl (Z.land b 15) 2 + Z.shiftr c 6) 6 + Z.land c 63) = c.
Proof. intros. bits. Z.div_mod_to_equations. lia. Qed.

Lemma groups_ok s :
  Forall ascii_char s →
  ∃ e, encode_groups s = Ret e ∧ decode_groups e = s ∧ slen e = 4 * ((slen s + 2) / 3) ∧ Forall (λ c, c ≠ 0) e.
Proof.
  remember (length s) as n eqn:En. revert s En. induction (lt_wf n) as [n _ IH]. intros s En Hs.
  destruct s as [|a [|b [|c s]]].
  - by exists [].
  - apply Forall_cons in Hs as [Ha _]. cbn [encode_groups]. rewrite schar_ascii by done. unfold ascii_char in Ha.
    destruct (group_1 a 0) as (Hx & Hy & H1); [lia|lia|]. change (Z.shiftr 0 4) with 0 in *. rewrite Z.add_0_r in *.
    destruct (map_at_index _ Hx) as (x & -> & Ex & ?). destruct (map_at_index _ Hy) as (y & -> & Ey & ?). rewrite !bind_Ret_l.
    exists [x; y; 61; 61]. split; [done|]. split; [|split; [done|by repeat constructor]].
    cbn [decode_groups]. rewrite Ex, Ey. change (map_index 61) with 64. cbn [Z.eqb app]. by rewrite H1.
  - apply Forall_cons in Hs as [Ha Hs]. apply Forall_cons in Hs as [Hb _]. cbn [encode_groups]. rewrite !schar_ascii by done. unfold ascii_char in *.
    destruct (group_1 a b) as (Hx & Hy & H1); [lia|lia|]. destruct (group_2 a b 0) as (Hz & H2); [lia|lia|lia|].
    change (Z.shiftr 0 6) with 0 in *. rewrite Z.add_0_r in Hz, H2.
    destruct (map_at_index _ Hx) as (x & -> & Ex & ?). destruct (map_at_index _ Hy) as (y & -> & Ey & ?).
    destruct (map_at_index _ Hz) as (z & -> & Ez & ?). rewrite !bind_Ret_l.
    exists [x; y; z; 61]. split; [done|]. split; [|split; [done|by repeat constructor]].
    cbn [decode_groups]. rewrite Ex, Ey, Ez. change (map_index 61) with 64. cbn [app].
    replace (_ =? 64) with false by lia. cbn [Z.eqb app]. by rewrite H1, H2.
  - apply Forall_cons in Hs as [Ha Hs]. apply Forall_cons in Hs as [Hb Hs]. apply Forall_cons in Hs as [Hc Hs].
    cbn [encode_groups]. rewrite !schar_ascii by done. unfold ascii_char in Ha, Hb, Hc.
    destruct (group_1 a b) as (Hx & Hy & H1); [lia|lia|]. destruct (group_2 a b c) as (Hz & H2); [lia|lia|lia|].
    destruct (group_3 b c) as (Hw & H3); [lia|lia|].
    destruct (map_at_index _ Hx) as (x & -> & Ex & ?). destruct (map_at_index _ Hy) as (y & -> & Ey & ?).
    destruct (map_at_index _ Hz) as (z & -> & Ez & ?). destruct (map_at_index _ Hw) as (w & -> & Ew & ?). rewrite !bind_Ret_l.
    destruct (IH (length s)) with (s := s) as (e & -> & Hd & Hl & Hn); [cbn in En; lia|done|done|]. rewrite bind_Ret_l.
    exists (x :: y :: z :: w :: e). split; [done|]. split; [|split; [rewrite !slen_cons, Hl; Z.div_mod_to_equations; lia|by repeat constructor]].
    cbn [decode_groups]. rewrite Ex, Ey, Ez, Ew, Hd, H1, H2, H3.
    do 2 replace (_ =? 64) with false by lia. done.
Qed.

(** Base 64 without OpenSSL.  A text of ASCII characters decodes to itself when
    its length is not a multiple of three; otherwise there is no padding and the
    decoder writes its terminator one byte past what it allocated. *)
Theorem base64_roundtrip s :
  Forall ascii_char s → slen s < 2 ^ 28 →
  ∃ e, base64encodeStr s = Ret e ∧ base64decodeStr e = if slen s mod 3 =? 0 then Undefined else Ret s.
Proof.
  intros Hs Hl. destruct (groups_ok s Hs) as (e & He & Hd & Hle & Hn). exists e. pose proof (slen_nonneg s).
  assert (Forall (λ c, c ≠ 0) s) as Hs0 by (eapply Forall_impl; [exact Hs|]; unfold ascii_char; cbn; lia).
  unfold base64encodeStr, base64decodeStr. rewrite !c_string_plain by done.
  rewrite checked_int_Ret by lia. rewrite bind_Ret_l, He, bind_Ret_l, Hle.
  replace (_ <? _) with true by (Z.div_mod_to_equations; lia). split; [done|].
  rewrite checked_int_Ret by (Z.div_mod_to_equations; lia). rewrite bind_Ret_l, Hd, c_string_plain by done.
  destruct (slen s mod 3 =? 0) eqn:E; [replace (_ <? _) with false by (Z.div_mod_to_equations; lia)|
    replace (_ <? _) with true by (Z.div_mod_to_equations; lia)]; done.
Qed.

Example base64_roundtrip_witness :
  ∃ e, base64encodeStr (str "user:pass1") = Ret e ∧ base64decodeStr e = Ret (str "user:pass1").
Proof. apply (base64_roundtrip (str "user:pass1")); [by apply (bool_decide_eq_true_1 (Forall (λ c, 1 ≤ c < 128) _))|done]. Defined.

(** Base 64 and other bytes.  The index of a byte above 127 is negative, so
    encoding any string that has one first in a group reads outside the map. *)
Theorem base64_high_byte_undefined c s : 128 ≤ c < 256 → base64encodeStr (c :: s) = Undefined.
Proof.
  intros Hc. unfold base64encodeStr. pose proof (checked_int_Ret (slen (c :: s) * 4)).
  destruct (checked_int _) eqn:E; [|unfold checked_int in E; by case_match|done|unfold checked_int in E; by case_match].
  rewrite bind_Ret_l. cbn [c_string]. replace (c =? 0) with false by lia.
  assert (map_at (Z.shiftr (schar c) 2) = Undefined) as Hm.
  { unfold map_at, schar. replace (c <? 128) with false by lia. rewrite Z.shiftr_div_pow2 by lia. change (2 ^ 2) with 4.
    replace (_ && _) with false; [done|]. symmetry. apply andb_false_intro1. Z.div_mod_to_equations. lia. }
  destruct (c_string s) as [|d [|e t]]; cbn [encode_groups]; by rewrite Hm.
Qed.

Example base64_high_byte_undefined_witness : base64encodeStr [233; 116] = Undefined.
Proof. by apply (base64_high_byte_undefined 233 [116]). Defined.
