(* ===== verification/Bigint.v ===== *)
(** * Bigint

    Big integers ([common/Bigint.cpp]): groups of eight decimal digits, the least
    significant group first, and a sign.  Construction from text, printing,
    comparison, addition, subtraction and multiplication.

    Division ([decompose]) and [decimalStartsAt], which only [Bigdecimal] reads, are
    not modelled. *)

From S2P Require Import Prelude StdString StringUtil.

Record Bigint := mkBig { parts : list Z; isPositive : bool }.

Definition NUM_LENGTH : nat := 8.
Definition NUM_MAX : Z := 99999999.
Definition NUM_MAX_THRESHOLD : Z := 100000000.

Definition Bigint_new : Bigint := mkBig [0] true.

(** [checkAndSetIfZero]. *)
Definition checkAndSetIfZero (b : Bigint) : Bigint := if existsb (λ p, 0 <? p) (parts b) then b else mkBig [0] true.

(** The loop of [create] on the digits: a group that does not convert is an error.  The length is
    cast to [int], which matters for 2^31 digits and more only and is left out. *)
Fixpoint groups (fuel : nat) (temp : bytes) : outcome (list Z) :=
  match fuel with
  | O => Out_of_fuel
  | S fuel' =>
      if (NUM_LENGTH <? length temp)%nat then
        x ← toInt (drop (length temp - NUM_LENGTH) temp);
        ps ← groups fuel' (take (length temp - NUM_LENGTH) temp);
        Ret (x :: ps)
      else if bool_decide (temp = []) then Ret []
      else x ← toInt temp; Ret [x]
  end.

(** A last group of zero is dropped. *)
Definition drop_last_zero (ps : list Z) : list Z :=
  match last ps with Some x => if x =? 0 then take (length ps - 1) ps else ps | None => ps end.

(** [create]. *)
Definition create (s : bytes) : outcome Bigint :=
  let temp := trim s in
  let minus := find_last_of [45] temp in
  match minus with
  | Some (S _) => Throw Runtime_error
  | _ =>
      let '(pos, temp) := match minus with Some O => (false, drop 1 temp) | _ => (true, temp) end in
      match find_first_not_of [48] temp with
      | None => Ret (mkBig [0] true)
      | Some i =>
          let temp := drop i temp in
          ps ← groups (S (length temp)) temp;
          Ret (checkAndSetIfZero (mkBig (drop_last_zero ps) pos))
      end
  end.

(** [compare]: by the sign, the number of groups, and the most significant group. *)
Definition compare (a b : Bigint) : Z :=
  if Bool.eqb (isPositive a) (isPositive b) then
    if (length (parts a) =? length (parts b))%nat then
      let x := default 0 (last (parts a)) in
      let y := default 0 (last (parts b)) in
      if x =? y then 0 else if y <? x then 1 else -1
    else if (length (parts b) <? length (parts a))%nat then 1 else -1
  else if isPositive a && negb (isPositive b) then 1 else -1.

(** The loops of [internalAdd] and [subtract]; the second stops where both end. *)
Fixpoint add_parts (n : nat) (carryOver : bool) (a b : list Z) : list Z :=
  match n with
  | O => []
  | S n' =>
      let res := hd 0 a + hd 0 b + (if carryOver then 1 else 0) in
      if NUM_MAX <? res then res - NUM_MAX_THRESHOLD :: add_parts n' true (tl a) (tl b)
      else res :: add_parts n' false (tl a) (tl b)
  end.
Fixpoint sub_parts (n : nat) (carryOver : bool) (f s : list Z) : list Z :=
  match n with
  | O => []
  | S n' =>
      let top := match f with x :: _ => x - (if carryOver then 1 else 0) | [] => 0 end in
      let res := top - hd 0 s in
      if res <? 0 then NUM_MAX_THRESHOLD - hd 0 s + top :: sub_parts n' true (tl f) (tl s)
      else res :: sub_parts n' false (tl f) (tl s)
  end.

Definition internalAdd (a b : Bigint) : Bigint :=
  if bool_decide (parts a = []) || bool_decide (parts b = []) then a
  else mkBig (add_parts (Nat.max (length (parts a)) (length (parts b))) false (parts a) (parts b)) (isPositive a).

(** The part of [subtract] for equal signs. *)
Definition internalSubtract (a b : Bigint) : Bigint :=
  if bool_decide (parts a = []) || bool_decide (parts b = []) then a
  else
    let n := Nat.max (length (parts a)) (length (parts b)) in
    let compValue := compare a b in
    let '(f, s) := if 0 <=? compValue then (parts a, parts b) else (parts b, parts a) in
    let r := checkAndSetIfZero (mkBig (sub_parts n false f s) (isPositive a)) in
    if compValue <? 0 then mkBig (parts r) false else r.

(** [add] and [subtract] call each other on different signs. *)
Fixpoint add (fuel : nat) (a b : Bigint) : outcome Bigint :=
  if Bool.eqb (isPositive a) (isPositive b) then Ret (internalAdd a b)
  else match fuel with O => Out_of_fuel | S fuel' => subtract fuel' a b end
with subtract (fuel : nat) (a b : Bigint) : outcome Bigint :=
  if Bool.eqb (isPositive a) (isPositive b) then Ret (internalSubtract a b)
  else match fuel with O => Out_of_fuel | S fuel' => add fuel' a b end.

(** [toString]: the groups after the first are padded. *)
Definition pad (s : bytes) : bytes := replicate (NUM_LENGTH - length s) 48 ++ s.
Definition toString (b : Bigint) : bytes :=
  match rev (parts b) with
  | [] => [48]
  | p :: ps => (if isPositive b then [] else [45]) ++ fromNumber p ++ flat_map (λ q, pad (fromNumber q)) ps
  end.

(** One digit of [multiply] times the groups of the other factor: the text of the
    product from [j] on, with the carry. *)
Fixpoint times_digit (mult : Z) (first : bool) (carryOver : Z) (mparts : list Z) (numstr : bytes) : outcome bytes :=
  match mparts with
  | [] => Ret numstr
  | p :: rest =>
      v ← checked_int (p * mult);
      let res := fromNumber v in
      if bool_decide (rest = []) then
        n ← toInt res; numm ← checked_int (n + carryOver); Ret (fromNumber numm ++ numstr)
      else
        let mrtn := fromNumber p in
        '(numstr, carryOver) ←
          (if (length mrtn <? length res)%nat then
             n ← toInt (drop 1 res); numm ← checked_int (n + carryOver);
             c ← at_ res 0; Ret (fromNumber numm ++ numstr, c - 48)
           else n ← toInt res; numm ← checked_int (n + carryOver); Ret (fromNumber numm ++ numstr, 0));
        times_digit mult false carryOver rest (if first then pad numstr else numstr)
  end.

(** The loop over the digits from the last one; a partial product that is not a
    [Bigint] is left out. *)
Fixpoint times_digits (digits : bytes) (position : nat) (mparts : list Z) (mulResult : Bigint) : outcome Bigint :=
  match digits with
  | [] => Ret mulResult
  | d :: digits =>
      numstr ← times_digit (schar d - 48) true 0 mparts [];
      times_digits digits (S position) mparts
        (match create (numstr ++ replicate position 48) with Ret num => internalAdd mulResult num | _ => mulResult end)
  end.

(** [multiply]. *)
Definition multiply (a b : Bigint) : outcome Bigint :=
  let '(fn, sn) := (toString a, toString b) in
  let '(m, mparts) := if (length sn <? length fn)%nat then (sn, parts a) else (fn, parts b) in
  let mstring := if isPositive b then m else drop 1 m in
  r ← (if bool_decide (mstring = []) || bool_decide (mparts = []) then Ret Bigint_new
       else times_digits (rev mstring) 0 mparts Bigint_new);
  Ret (mkBig (parts r) (Bool.eqb (isPositive a) (isPositive b))).

(** ** The number of a list of groups *)

Definition BASE : Z := 100000000.
Definition value (ps : list Z) : Z := foldr (λ p v, p + BASE * v) 0 ps.
Definition group_ok (p : Z) : Prop := 0 ≤ p < BASE.
Definition carry (c : bool) : Z := if c then 1 else 0.

Lemma value_cons p ps : value (p :: ps) = p + BASE * value ps.
Proof. done. Qed.
Lemma value_nonneg ps : Forall group_ok ps → 0 ≤ value ps.
Proof. induction 1 as [|p ps Hp _ IH]; [done|]. rewrite value_cons. unfold group_ok, BASE in *. lia. Qed.
Lemma value_bound ps : Forall group_ok ps → value ps < BASE ^ Z.of_nat (length ps).
Proof.
  induction 1 as [|p ps Hp _ IH]; [done|]. rewrite value_cons. cbn [length].
  rewrite Nat2Z.inj_succ, Z.pow_succ_r by lia. unfold group_ok, BASE in *. lia.
Qed.
Lemma value_hd_tl ps : value ps = hd 0 ps + BASE * value (tl ps).
Proof. by destruct ps. Qed.
Lemma hd_group_ok ps : Forall group_ok ps → group_ok (hd 0 ps) ∧ Forall group_ok (tl ps).
Proof. destruct 1; [by repeat constructor|done]. Qed.

Lemma add_parts_value n c a b :
  Forall group_ok a → Forall group_ok b → (length a ≤ n)%nat → (length b ≤ n)%nat →
  length (add_parts n c a b) = n ∧ Forall group_ok (add_parts n c a b) ∧
  ∃ d, value (add_parts n c a b) + BASE ^ Z.of_nat n * carry d = value a + value b + carry c.
Proof.
  revert c a b. induction n as [|n IH]; intros c a b Ha Hb Hla Hlb.
  { destruct a, b; try (cbn in *; lia). split_and!; [done|done|]. by exists c; destruct c. }
  apply hd_group_ok in Ha as [Ha Ha'], Hb as [Hb Hb'].
  assert (∀ l : list Z, length l ≤ S n → length (tl l) ≤ n)%nat as Hl by (intros [|]; cbn; lia).
  rewrite (value_hd_tl a), (value_hd_tl b), Nat2Z.inj_succ, Z.pow_succ_r by lia.
  cbn [add_parts]. fold (carry c). unfold NUM_MAX, NUM_MAX_THRESHOLD, group_ok, BASE in *.
  destruct (_ <? _) eqn:E.
  all: destruct (IH (99999999 <? hd 0 a + hd 0 b + carry c) (tl a) (tl b) Ha' Hb' (Hl _ Hla) (Hl _ Hlb)) as (H1 & H2 & d & Hd).
  all: rewrite E in *; split_and!; [by cbn; f_equal|constructor; [unfold carry in *; destruct c; lia|done]|].
  all: exists d; rewrite value_cons; unfold BASE; cbn [carry] in Hd; lia.
Qed.

Lemma sub_parts_value n c f s :
  Forall group_ok f → Forall group_ok s → (length f ≤ n)%nat → (length s ≤ n)%nat → value s + carry c ≤ value f →
  length (sub_parts n c f s) = n ∧ Forall group_ok (sub_parts n c f s) ∧
  value (sub_parts n c f s) = value f - value s - carry c.
Proof.
  revert c f s. induction n as [|n IH]; intros c f s Hf Hs Hlf Hls Hle.
  { destruct f, s; try (cbn in *; lia). split_and!; [done|done|]. destruct c; cbn in *; lia. }
  apply hd_group_ok in Hs as [Hs Hs']. pose proof (value_nonneg _ Hs') as Hs0.
  assert (∀ l : list Z, length l ≤ S n → length (tl l) ≤ n)%nat as Hl by (intros [|]; cbn; lia).
  rewrite (value_hd_tl s) in *. cbn [sub_parts].
  assert (match f with x :: _ => x - (if c then 1 else 0) | [] => 0 end = hd 0 f - carry c ∧
    group_ok (hd 0 f) ∧ Forall group_ok (tl f) ∧ value f = hd 0 f + BASE * value (tl f)) as (-> & Hf0 & Hf' & Hv).
  { destruct Hf as [|x f Hx Hf]; [|done]. destruct c; cbn in Hle |- *; unfold BASE, group_ok in *; [lia|done]. }
  rewrite Hv in *. unfold NUM_MAX_THRESHOLD, group_ok, BASE in *.
  destruct (_ <? 0) eqn:E.
  1: destruct (IH true (tl f) (tl s)) as (H1 & H2 & H3); try (done || apply Hl; done); [cbn [carry]; destruct c; cbn [carry] in *; lia|].
  2: destruct (IH false (tl f) (tl s)) as (H1 & H2 & H3); try (done || apply Hl; done); [cbn [carry]; destruct c; cbn [carry] in *; lia|].
  all: split_and!; [by cbn; f_equal|constructor; [destruct c; cbn [carry] in *; lia|done]|].
  all: rewrite value_cons, H3; unfold BASE; cbn [carry]; lia.
Qed.

Definition big_ok (b : Bigint) : Prop := parts b ≠ [] ∧ Forall group_ok (parts b).
#[export] Instance big_ok_dec b : Decision (big_ok b).
Proof. unfold big_ok, group_ok. apply _. Defined.

Lemma internalAdd_value a b :
  big_ok a → big_ok b →
  big_ok (internalAdd a b) ∧ isPositive (internalAdd a b) = isPositive a ∧
  value (parts (internalAdd a b)) =
    (value (parts a) + value (parts b)) mod BASE ^ Z.of_nat (Nat.max (length (parts a)) (length (parts b))).
Proof.
  intros [Ha0 Ha] [Hb0 Hb]. unfold internalAdd. rewrite !bool_decide_false by done. cbn [orb parts isPositive].
  set (n := Nat.max _ _). destruct (add_parts_value n false (parts a) (parts b)) as (H1 & H2 & d & Hd); [done|done|lia|lia|].
  cbn [carry] in Hd. split_and!; [split; [|done]|done|].
  - cbn [parts]. intros E. rewrite E in H1. cbn in H1. destruct (parts a); [done|cbn in *; lia].
  - pose proof (value_nonneg _ H2). pose proof (value_bound _ H2) as Hb'. rewrite H1 in Hb'.
    apply Z.mod_unique with (q := carry d); lia.
Qed.

Lemma existsb_value ps : Forall group_ok ps → existsb (λ p, 0 <? p) ps = (0 <? value ps).
Proof.
  induction 1 as [|p ps Hp Hps IH]; [done|]. rewrite value_cons. cbn [existsb]. rewrite IH.
  pose proof (value_nonneg _ Hps). unfold group_ok, BASE in *. lia.
Qed.

(** What [subtract] makes of two numbers of the same sign, when the comparison
    put the larger one first. *)
Lemma internalSubtract_value a b :
  big_ok a → big_ok b →
  let '(f, s) := if 0 <=? compare a b then (a, b) else (b, a) in
  value (parts s) ≤ value (parts f) →
  big_ok (internalSubtract a b) ∧ value (parts (internalSubtract a b)) = value (parts f) - value (parts s) ∧
  isPositive (internalSubtract a b) =
    if 0 <=? compare a b then isPositive a || (value (parts a) =? value (parts b)) else false.
Proof.
  intros [Ha0 Ha] [Hb0 Hb]. unfold internalSubtract. rewrite !bool_decide_false by done. cbn [orb].
  set (n := Nat.max _ _).
  assert (∀ f s : Bigint, Forall group_ok (parts f) → Forall group_ok (parts s) → (length (parts f) ≤ n)%nat → (length (parts s) ≤ n)%nat →
    value (parts s) ≤ value (parts f) →
    let r := checkAndSetIfZero (mkBig (sub_parts n false (parts f) (parts s)) (isPositive a)) in
    big_ok r ∧ value (parts r) = value (parts f) - value (parts s) ∧
    isPositive r = isPositive a || (value (parts f) =? value (parts s))) as H.
  { intros f s Hf Hs Hlf Hls Hle r. destruct (sub_parts_value n false (parts f) (parts s)) as (H1 & H2 & H3); try done; [cbn; lia|].
    subst r. unfold checkAndSetIfZero. cbn [parts]. rewrite (existsb_value _ H2). cbn [carry] in H3.
    destruct (0 <? _) eqn:E; cbn [parts isPositive].
    - split_and!; [split; [|done]; intros E'; cbn [parts] in E'; rewrite E' in E; done|lia|]. replace (_ =? _) with false by lia. by rewrite orb_false_r.
    - split_and!; [by apply (bool_decide_unpack _); vm_compute|cbn; lia|]. replace (_ =? _) with true by lia. by rewrite orb_true_r. }
  destruct (0 <=? compare a b) eqn:E; intros Hle.
  - replace (compare a b <? 0) with false by lia. apply (H a b); (done || lia).
  - replace (compare a b <? 0) with true by lia.
    destruct (H b a) as (H1 & H2 & _); try (done || lia).
Qed.

(** ** Decimal digits *)

Definition number (ds : bytes) : Z := foldl add_digit 0 ds.
Definition zeros (k : nat) : bytes := replicate k 48.

Lemma foldl_add_digit n ds : foldl add_digit n ds = n * 10 ^ Z.of_nat (length ds) + number ds.
Proof.
  unfold number. revert n. induction ds as [|c ds IH] using rev_ind; intros n; [cbn; lia|].
  rewrite !foldl_app, length_app, IH. cbn [foldl length]. rewrite Nat.add_comm, Nat2Z.inj_succ, Z.pow_succ_r by lia.
  unfold add_digit. lia.
Qed.
Lemma number_app a b : number (a ++ b) = number a * 10 ^ Z.of_nat (length b) + number b.
Proof. unfold number at 1. rewrite foldl_app. apply foldl_add_digit. Qed.
Lemma number_cons c ds : number (c :: ds) = (c - 48) * 10 ^ Z.of_nat (length ds) + number ds.
Proof. apply (number_app [c]). Qed.
Lemma number_snoc ds c : number (ds ++ [c]) = number ds * 10 + (c - 48).
Proof. apply number_app. Qed.
Lemma number_bound ds : Forall digit_ok ds → 0 ≤ number ds < 10 ^ Z.of_nat (length ds).
Proof.
  induction 1 as [|c ds Hc _ IH]; [cbn; lia|]. rewrite number_cons. cbn [length].
  rewrite Nat2Z.inj_succ, Z.pow_succ_r by lia. unfold digit_ok in Hc. nia.
Qed.
Lemma number_zeros k ds : number (zeros k ++ ds) = number ds.
Proof. induction k as [|k IH]; [done|]. change (zeros (S k) ++ ds) with (48 :: zeros k ++ ds). rewrite number_cons, IH. lia. Qed.
Lemma number_pos c ds : digit_ok c → c ≠ 48 → Forall digit_ok ds → 0 < number (c :: ds).
Proof. intros Hc Hc0 Hds. rewrite number_cons. pose proof (number_bound ds Hds). unfold digit_ok in Hc. nia. Qed.

(** Leading zeros. *)
Lemma leading_zeros ds : ∃ k r, ds = zeros k ++ r ∧ ∀ c, head r = Some c → c ≠ 48.
Proof.
  induction ds as [|c ds (k & r & -> & Hr)]; [by exists O, []|]. destruct (decide (c = 48)) as [->|Hc].
  - by exists (S k), r.
  - exists O, (c :: zeros k ++ r). by split; [|intros d [= <-]].
Qed.

(** A number without a leading zero is printed as it is written. *)
Lemma print_digits_number fuel ds acc :
  (length ds ≤ fuel)%nat → Forall digit_ok ds → ds ≠ [] → (∀ c, head ds = Some c → c ≠ 48) →
  print_digits fuel 10 (number ds) acc = ds ++ acc.
Proof.
  revert ds acc. induction fuel as [|fuel IH]; intros ds acc Hl Hds Hne Hhd; [destruct ds; [done|cbn in Hl; lia]|].
  destruct ds as [|c ds _] using rev_ind; [done|]. clear Hne. apply Forall_app in Hds as [Hds Hc].
  apply Forall_cons in Hc as [Hc _]. rewrite length_app in Hl. cbn in Hl. cbn [print_digits]. rewrite number_snoc.
  assert (digit_char (c - 48) = c) as Hd by (unfold digit_char, digit_ok in *; case_match; lia).
  destruct ds as [|d ds].
  - change (number []) with 0. rewrite Z.mul_0_l, Z.add_0_l, Hd. unfold digit_ok in Hc. by replace (c - 48 <? 10) with true by lia.
  - assert (0 < number (d :: ds)) by (apply Forall_cons in Hds as [? ?]; apply number_pos; auto).
    unfold digit_ok in Hc. replace (_ <? 10) with false by lia.
    rewrite Z.mul_comm, Z.add_comm.
    replace ((c - 48 + 10 * number (d :: ds)) / 10) with (number (d :: ds)) by (apply Z.div_unique with (r := c - 48); lia).
    replace ((c - 48 + 10 * number (d :: ds)) mod 10) with (c - 48) by (apply Z.mod_unique with (q := number (d :: ds)); lia).
    rewrite Hd, IH; [by rewrite <- app_assoc|cbn in *; lia|done|done|done].
Qed.
Lemma fromNumber_number ds :
  (length ds ≤ 19)%nat → Forall digit_ok ds → ds ≠ [] → (∀ c, head ds = Some c → c ≠ 48) → fromNumber (number ds) = ds.
Proof.
  intros Hl Hds Hne Hhd. unfold fromNumber. pose proof (number_bound ds Hds).
  assert (10 ^ Z.of_nat (length ds) ≤ 10 ^ 19) by (apply Z.pow_le_mono_r; lia).
  rewrite wrapu_small by lia. unfold print_number. rewrite print_digits_number by (done || lia). apply app_nil_r.
Qed.
Lemma toInt_number ds :
  (length ds ≤ 9)%nat → Forall digit_ok ds → ds ≠ [] →
  toInt ds = if (number ds =? 0) && negb (bool_decide (ds = [48])) then Throw Runtime_error else Ret (number ds).
Proof.
  intros Hl Hds Hne. unfold toInt. case_bool_decide as E; [by subst|]. rewrite andb_true_r.
  pose proof (number_bound ds Hds). assert (10 ^ Z.of_nat (length ds) ≤ 10 ^ 9) by (apply Z.pow_le_mono_r; lia).
  rewrite (strtol_digits (number ds)); [by rewrite wraps_small by lia| |lia].
  split; [done|]. split.
  - eapply Forall_impl; [exact Hds|]. unfold digit_ok, digit_value. intros c Hc. repeat case_match; lia.
  - unfold number. clear -Hds. revert Hds. generalize 0. intros z Hds. revert z. induction Hds as [|c ds Hc Hds IH]; intros z; [done|].
    cbn [foldl]. rewrite IH. f_equal. unfold add_digit, digit_ok, digit_value in *. repeat case_match; lia.
Qed.

(** ** Construction and printing *)

(** Some group of eight digits, counted from the right, is zero. *)
Definition zero_group (ds : bytes) : Prop :=
  ∃ a c, ds = a ++ zeros 8 ++ c ∧ a ≠ [] ∧ (length c mod 8 = 0)%nat.

Lemma zero_group_app h g : length g = 8%nat → h ≠ [] → zero_group (h ++ g) ↔ g = zeros 8 ∨ zero_group h.
Proof.
  intros Hg Hh. split.
  - intros (a & c & E & Ha & Hc). destruct c as [|c0 c'] eqn:Ec.
    { left. rewrite app_nil_r in E. by apply app_inj_2 in E as [_ ?]. }
    right. assert (8 ≤ length c)%nat as Hl by (rewrite Ec; destruct (decide (length (c0 :: c') < 8)%nat); [rewrite Nat.mod_small in Hc by done; done|lia]).
    rewrite <- Ec in *. exists a, (take (length c - 8) c).
    assert (length (drop (length c - 8) c) = 8)%nat as Hd by (rewrite length_drop; lia).
    rewrite <- (take_drop (length c - 8) c), !app_assoc in E. apply app_inj_2 in E as [E _]; [|congruence].
    split_and!; [by rewrite E, <- app_assoc|done|]. rewrite length_take, Nat.min_l by lia.
    replace (length c) with ((length c - 8) + 1 * 8)%nat in Hc by lia. by rewrite Nat.Div0.mod_add in Hc.
  - intros [->|(a & c & -> & Ha & Hc)]; [by exists h, []; rewrite app_nil_r|].
    exists a, (c ++ g). split_and!; [by rewrite <- !app_assoc|done|].
    rewrite length_app, Hg. change 8%nat with (1 * 8)%nat at 1. by rewrite Nat.Div0.mod_add.
Qed.
Lemma zero_group_short ds : (length ds ≤ 8)%nat → ¬ zero_group ds.
Proof. intros Hl (a & c & -> & Ha & _). rewrite !length_app in Hl. destruct a; [done|]. cbn in Hl. lia. Qed.

Lemma pad_number g : length g = 8%nat → Forall digit_ok g → g ≠ zeros 8 → pad (fromNumber (number g)) = g.
Proof.
  intros Hg Hd Hne. destruct (leading_zeros g) as (k & r & -> & Hr). rewrite number_zeros.
  assert (r ≠ []) as Hr0.
  { intros ->. apply Hne. rewrite app_nil_r in *. unfold zeros in *. rewrite length_replicate in Hg. by subst. }
  apply Forall_app in Hd as [_ Hd]. rewrite length_app in Hg. unfold zeros in Hg |- *. rewrite length_replicate in Hg.
  unfold pad, NUM_LENGTH. rewrite fromNumber_number by (done || lia). by replace (8 - length r)%nat with k by lia.
Qed.

Lemma toString_cons x ps : ps ≠ [] → toString (mkBig (x :: ps) true) = toString (mkBig ps true) ++ pad (fromNumber x).
Proof.
  intros Hne. unfold toString. cbn [parts isPositive rev]. destruct (rev ps) as [|p l] eqn:E.
  { destruct Hne. rewrite <- (rev_involutive ps), E. done. }
  cbn [app]. rewrite flat_map_app. cbn [flat_map]. by rewrite app_nil_r, app_assoc.
Qed.

Lemma groups_spec fuel ds :
  (length ds < fuel)%nat → Forall digit_ok ds → ds ≠ [] → (∀ c, head ds = Some c → c ≠ 48) →
  (groups fuel ds = Throw Runtime_error ∧ zero_group ds) ∨
  ∃ ps, groups fuel ds = Ret ps ∧ ¬ zero_group ds ∧ Forall group_ok ps ∧ value ps = number ds ∧
    toString (mkBig ps true) = ds ∧ ∃ x, last ps = Some x ∧ 0 < x.
Proof.
  revert ds. induction fuel as [|fuel IH]; intros ds Hf Hd Hne Hhd; [lia|].
  assert (0 < number ds) as Hpos.
  { destruct ds as [|c ds]; [done|]. apply Forall_cons in Hd as [? ?]. apply number_pos; auto. }
  cbn [groups]. unfold NUM_LENGTH. destruct (Nat.ltb_spec 8 (length ds)) as [El|El].
  - set (h := take (length ds - 8) ds). set (g := drop (length ds - 8) ds).
    assert (ds = h ++ g) as E by (symmetry; apply take_drop).
    assert (length g = 8)%nat as Hg by (subst g; rewrite length_drop; lia).
    assert (length h = length ds - 8)%nat as Hlh by (subst h; rewrite length_take; lia).
    assert (h ≠ []) as Hh by (intros E'; rewrite E' in Hlh; cbn in Hlh; lia).
    clearbody h g. subst ds. apply Forall_app in Hd as [Hdh Hdg].
    assert (∀ c, head h = Some c → c ≠ 48) as Hhh by (intros c Hc; apply Hhd; by destruct h).
    rewrite zero_group_app by done. pose proof (number_bound g Hdg) as Hgb. rewrite Hg in Hgb.
    rewrite toInt_number by (done || lia || (intros ->; done)). rewrite (bool_decide_false (g = [48])) by (intros ->; done).
    rewrite andb_true_r. destruct (decide (g = zeros 8)) as [->|Hgz]; [left; split; [done|by left]|].
    replace (number g =? 0) with false.
    2:{ destruct (leading_zeros g) as (k & r & -> & Hr). rewrite number_zeros. apply Forall_app in Hdg as [_ Hdr].
        destruct r as [|c r]; [|apply Forall_cons in Hdr as [? ?]; pose proof (number_pos c r ltac:(done) (Hr c eq_refl) ltac:(done)); lia].
        rewrite app_nil_r in *. unfold zeros in *. rewrite length_replicate in Hg. by subst. }
    rewrite bind_Ret_l. destruct (IH h) as [[-> Hz]|(ps & -> & Hz & Hps & Hv & Ht & x & Hx & Hx0)]; [lia|done|done|done|left; split; [done|by right]|right].
    rewrite bind_Ret_l. exists (number g :: ps). split_and!; [reflexivity|rewrite zero_group_app by done; by intros [?|?]|constructor; [unfold group_ok, BASE; change (10 ^ Z.of_nat 8) with 100000000 in Hgb; lia|exact Hps]| | |].
    + rewrite value_cons, Hv, number_app, Hg. unfold BASE. lia.
    + rewrite toString_cons by (intros ->; done). by rewrite Ht, pad_number.
    + exists x. split; [|done]. destruct ps; [done|]. by rewrite last_cons_cons.
  - rewrite bool_decide_false by done. right. rewrite toInt_number by (done || lia).
    replace (number ds =? 0) with false by lia. cbn [andb]. rewrite bind_Ret_l. exists [number ds].
    pose proof (number_bound ds Hd). assert (10 ^ Z.of_nat (length ds) ≤ 10 ^ 8) by (apply Z.pow_le_mono_r; lia).
    split_and!; [done|apply zero_group_short; lia|repeat constructor; unfold BASE; lia|cbn; lia| |by exists (number ds)].
    unfold toString. cbn. rewrite app_nil_r. apply fromNumber_number; (done || lia).
Qed.

Definition sign_of (pos : bool) : bytes := if pos then [] else [45].

Lemma toString_sign ps pos : ps ≠ [] → toString (mkBig ps pos) = sign_of pos ++ toString (mkBig ps true).
Proof.
  intros Hne. unfold toString. cbn [parts isPositive]. destruct (rev ps) eqn:E; [|done].
  destruct Hne. by rewrite <- (rev_involutive ps), E.
Qed.

Lemma digit_not_ws c : digit_ok c ∨ c = 45 → ¬ ws c.
Proof.
  intros Hc H. unfold ws, whitespaces in H. rewrite !elem_of_cons, elem_of_nil in H. unfold digit_ok in Hc. lia.
Qed.

Lemma create_digits pos ds :
  Forall digit_ok ds → ds ≠ [] → (∀ c, head ds = Some c → c ≠ 48) →
  create (sign_of pos ++ ds) =
    (ps ← groups (S (length ds)) ds; Ret (checkAndSetIfZero (mkBig (drop_last_zero ps) pos))).
Proof.
  intros Hd Hne Hhd. unfold create.
  assert (∃ d, last ds = Some d ∧ digit_ok d) as (d & Hl & Hdd).
  { destruct (last ds) as [d|] eqn:E; [|by apply last_None in E]. exists d. split; [done|].
    apply last_Some in E as (l & ->). apply Forall_app in Hd as [_ Hd]. by apply Forall_cons in Hd as [? _]. }
  assert (trim (sign_of pos ++ ds) = sign_of pos ++ ds) as ->.
  { destruct ds as [|c ds]; [done|]. apply Forall_cons in Hd as Hc. destruct Hc as [Hc _].
    destruct pos; cbn [sign_of app].
    - apply (trim_id c _ d); [done|done| |]; apply digit_not_ws; by left.
    - apply (trim_id 45 _ d); [done|by rewrite last_cons_cons| |]; apply digit_not_ws; [by right|by left]. }
  assert (Forall (λ c, memb c [45] = false) ds) as Hm.
  { eapply Forall_impl; [exact Hd|]. intros c Hc. rewrite memb_single. unfold digit_ok in Hc. lia. }
  assert (find_first_not_of [48] ds = Some 0%nat) as Hf.
  { unfold find_first_not_of. destruct ds as [|c ds]; [done|]. cbn. specialize (Hhd c eq_refl).
    by replace (c =? 48) with false by lia. }
  destruct pos; cbn [sign_of app].
  - unfold find_last_of. apply find_last_None in Hm. by rewrite Hm, Hf.
  - unfold find_last_of. rewrite (find_last_app _ [] 45 ds) by done.
    cbn [length]. cbv beta iota zeta. change (drop 1 (45 :: ds)) with ds. by rewrite Hf.
Qed.

(** C40: Text of a number, and back.  For every string of digits of any length with no leading
    zero, with or without a minus sign: unless one of its groups of eight digits, counted
    from the right, is all zeros, [create] makes well-formed groups whose number is the one
    written, with its sign, and [toString] prints the same string; with such a group,
    [create] throws. *)
Theorem bigint_text_roundtrip pos ds :
  Forall digit_ok ds → ds ≠ [] → (∀ c, head ds = Some c → c ≠ 48) →
  (zero_group ds ∧ create (sign_of pos ++ ds) = Throw Runtime_error) ∨
  (¬ zero_group ds ∧ ∃ b, create (sign_of pos ++ ds) = Ret b ∧ big_ok b ∧ isPositive b = pos ∧
    value (parts b) = number ds ∧ toString b = sign_of pos ++ ds).
Proof.
  intros Hd Hne Hhd. rewrite create_digits by done.
  destruct (groups_spec (S (length ds)) ds) as [[-> Hz]|(ps & -> & Hz & Hps & Hv & Ht & x & Hx & Hx0)]; [lia|done..|by left|right].
  split; [done|]. rewrite bind_Ret_l. unfold drop_last_zero. rewrite Hx. replace (x =? 0) with false by lia.
  assert (ps ≠ []) as Hne' by (intros ->; done).
  unfold checkAndSetIfZero. cbn [parts]. rewrite existsb_value, Hv by done.
  replace (0 <? number ds) with true.
  - exists (mkBig ps pos). split_and!; [done|done|done|done|]. by rewrite toString_sign, Ht.
  - destruct ds as [|c ds]; [done|]. apply Forall_cons in Hd as [? ?]. pose proof (number_pos c ds ltac:(done) (Hhd c eq_refl) ltac:(done)). lia.
Qed.

Lemma bigint_text_roundtrip_witness :
  ¬ zero_group (str "12345678900000001") ∧
  ∃ b, create (str "-12345678900000001") = Ret b ∧ parts b = [1; 23456789; 1] ∧ toString b = str "-12345678900000001".
Proof.
  destruct (bigint_text_roundtrip false (str "12345678900000001")) as [[_ H]|(H & b & E & _ & _ & _ & Ht)].
  - by apply (bool_decide_unpack _); vm_compute.
  - done.
  - by intros c [= <-].
  - by vm_compute in H.
  - split; [done|]. exists b. split_and!; [exact E| |exact Ht]. vm_compute in E. by injection E as <-.
Defined.

(** ** Order *)

(** No leading zero group. *)
Definition canonical (b : Bigint) : Prop := big_ok b ∧ (length (parts b) = 1%nat ∨ last (parts b) ≠ Some 0).
#[export] Instance canonical_dec b : Decision (canonical b).
Proof. unfold canonical. apply _. Defined.

Lemma value_snoc ps x : value (ps ++ [x]) = value ps + BASE ^ Z.of_nat (length ps) * x.
Proof.
  induction ps as [|p ps IH]; [cbn; lia|]. cbn [app length]. rewrite !value_cons, IH, Nat2Z.inj_succ, Z.pow_succ_r by lia. lia.
Qed.
Lemma big_ok_snoc b : big_ok b → ∃ ps x, parts b = ps ++ [x] ∧ Forall group_ok ps ∧ group_ok x.
Proof.
  intros [Hne Hb]. destruct (parts b) as [|x ps _] using rev_ind; [done|]. exists ps, x.
  apply Forall_app in Hb as [? Hb]. by apply Forall_cons in Hb as [? _].
Qed.

(** A number with more groups is larger. *)
Lemma canonical_longer a b : canonical a → canonical b → (length (parts b) < length (parts a))%nat → value (parts b) < value (parts a).
Proof.
  intros [Ha Htop] [[Hb0 Hb] _] Hl. pose proof (value_bound _ Hb) as Hvb.
  destruct (big_ok_snoc a Ha) as (ps & x & E & Hps & Hx). rewrite E in *. rewrite value_snoc, last_snoc, length_app in *. cbn [length] in *.
  assert (length (parts b) ≤ length ps)%nat by lia. assert (0 < x).
  { destruct Htop as [?|Htop]; [|unfold group_ok in Hx; assert (x ≠ 0) by congruence; lia].
    destruct ps; [|cbn in *; lia]. by destruct (parts b); [|cbn in *; lia]. }
  assert (BASE ^ Z.of_nat (length (parts b)) ≤ BASE ^ Z.of_nat (length ps)) by (apply Z.pow_le_mono_r; unfold BASE; lia).
  pose proof (value_nonneg _ Hps).
  assert (BASE ^ Z.of_nat (length ps) * 1 ≤ BASE ^ Z.of_nat (length ps) * x) by (apply Z.mul_le_mono_nonneg_l; unfold BASE; lia). lia.
Qed.

Lemma compare_value a b :
  canonical a → canonical b → isPositive a = isPositive b →
  (compare a b = 1 → value (parts b) < value (parts a)) ∧
  (compare a b = -1 → value (parts a) < value (parts b)) ∧
  (compare a b = 0 ↔ length (parts a) = length (parts b) ∧ last (parts a) = last (parts b)) ∧
  (compare a b = 1 ∨ compare a b = -1 ∨ compare a b = 0).
Proof.
  intros Ha Hb Hs. unfold compare. rewrite Hs, eqb_reflx.
  destruct (big_ok_snoc a (proj1 Ha)) as (ps & x & E & Hps & Hx), (big_ok_snoc b (proj1 Hb)) as (qs & y & E' & Hqs & Hy).
  destruct (Nat.eqb_spec (length (parts a)) (length (parts b))) as [El|El].
  - rewrite E, E', !last_snoc, !value_snoc. cbn [default].
    rewrite E, E', !length_app in El. cbn [length] in El. assert (length ps = length qs) as Hl by lia. rewrite Hl.
    pose proof (value_nonneg _ Hps). pose proof (value_nonneg _ Hqs). pose proof (value_bound _ Hps) as Hbp. pose proof (value_bound _ Hqs).
    rewrite Hl in Hbp. rewrite !length_app. unfold id.
    destruct (Z.eqb_spec x y) as [->|Hxy]; [split_and!; [done|done|by rewrite Hl|by right; right]|].
    destruct (Z.ltb_spec y x); (split_and!; [nia|nia|split; [done|by intros [_ [= ?]]]|tauto]).
  - destruct (Nat.ltb_spec (length (parts b)) (length (parts a))).
    + split_and!; [by intros; apply canonical_longer|done|split; [done|lia]|tauto].
    + split_and!; [done|intros; apply canonical_longer; (done || lia)|split; [done|lia]|tauto].
Qed.

(** Comparison, addition and subtraction of two numbers of the same sign, in groups
    without a leading zero.  [compare] is right about which is larger, but calls numbers
    with the same number of groups and the same first group equal, whatever the others
    are.  [add] is addition modulo [10 ^ (8 n)], [n] the number of groups of the longer
    operand: a carry out of the last group is lost.  [subtract] gives the difference of the
    magnitudes, always that of the larger minus the smaller one, whenever [compare] found
    the larger one; a result of zero is the canonical zero, and where the second operand is
    larger the sign is negative, also when both were negative. *)
Theorem bigint_same_sign fuel a b :
  canonical a → canonical b → isPositive a = isPositive b →
  (compare a b = 0 ↔ length (parts a) = length (parts b) ∧ last (parts a) = last (parts b)) ∧
  (compare a b = 1 → value (parts b) < value (parts a)) ∧
  (compare a b = -1 → value (parts a) < value (parts b)) ∧
  (∃ r, add fuel a b = Ret r ∧ big_ok r ∧ isPositive r = isPositive a ∧
     value (parts r) = (value (parts a) + value (parts b)) mod BASE ^ Z.of_nat (Nat.max (length (parts a)) (length (parts b)))) ∧
  (value (parts b) ≤ value (parts a) ∨ compare a b ≠ 0 →
   ∃ r, subtract fuel a b = Ret r ∧ big_ok r ∧ value (parts r) = Z.abs (value (parts a) - value (parts b)) ∧
     isPositive r = if value (parts a) <? value (parts b) then false else isPositive a || (value (parts a) =? value (parts b))).
Proof.
  intros Ha Hb Hs. destruct (compare_value a b Ha Hb Hs) as (H1 & H2 & H3 & H4).
  assert (add fuel a b = Ret (internalAdd a b) ∧ subtract fuel a b = Ret (internalSubtract a b)) as [-> ->]
    by (by destruct fuel; cbn [add subtract]; rewrite Hs, eqb_reflx).
  destruct (internalAdd_value a b (proj1 Ha) (proj1 Hb)) as (Ho & Hp & Hv).
  pose proof (internalSubtract_value a b (proj1 Ha) (proj1 Hb)) as Hsub.
  split_and!; [done|done|done|by exists (internalAdd a b)|]. intros Hc. exists (internalSubtract a b). split; [done|].
  destruct H4 as [E|[E|E]]; rewrite E in Hsub; cbn [Z.leb Z.compare] in Hsub.
  - specialize (H1 E). destruct Hsub as (? & -> & ->); [lia|]. replace (_ <? _) with false by lia. split_and!; [done|lia|done].
  - specialize (H2 E). destruct Hsub as (? & -> & ->); [lia|]. replace (_ <? _) with true by lia. split_and!; [done|lia|done].
  - destruct Hc as [Hc|]; [|done]. destruct Hsub as (? & -> & ->); [lia|]. replace (_ <? _) with false by lia. split_and!; [done|lia|done].
Qed.

(** Two groups each, with a carry between the groups. *)
Lemma bigint_same_sign_witness :
  let a := mkBig [99999999; 1] true in let b := mkBig [2; 3] true in
  (∃ r, add 0 a b = Ret r ∧ parts r = [1; 5]) ∧ (∃ r, subtract 0 a b = Ret r ∧ parts r = [3; 1] ∧ isPositive r = false).
Proof.
  intros a b. destruct (bigint_same_sign 0 a b) as (_ & _ & _ & (r & Er & _) & Hsub).
  1, 2: by apply (bool_decide_unpack _); vm_compute.
  - done.
  - destruct (Hsub ltac:(by right)) as (q & Eq & _). split; [exists r|exists q].
    + split; [done|]. vm_compute in Er. by injection Er as <-.
    + split; [done|]. vm_compute in Eq. by injection Eq as <-.
Defined.

(** On numbers of different signs [add] calls [subtract] and [subtract] calls [add]:
    neither returns, whatever the recursion is allowed. *)
Theorem bigint_mixed_signs_diverge fuel a b :
  isPositive a ≠ isPositive b → add fuel a b = Out_of_fuel ∧ subtract fuel a b = Out_of_fuel.
Proof.
  intros Hs. apply eqb_false_iff in Hs. induction fuel as [|fuel [IH1 IH2]]; cbn [add subtract]; rewrite Hs; done.
Qed.
Lemma bigint_mixed_signs_diverge_witness : subtract 1000 (mkBig [5] true) (mkBig [3] false) = Out_of_fuel.
Proof. apply (bigint_mixed_signs_diverge 1000 (mkBig [5] true) (mkBig [3] false)). done. Defined.

(** ** Multiplication *)

Lemma fromNumber_digits v : 0 < v < 2 ^ 64 →
  Forall digit_ok (fromNumber v) ∧ fromNumber v ≠ [] ∧ number (fromNumber v) = v ∧ ∀ c, head (fromNumber v) = Some c → c ≠ 48.
Proof.
  intros Hv. unfold fromNumber. rewrite wrapu_small by lia.
  destruct (print_decimal v ltac:(lia)) as (Hne & Hd & Hn). fold (number (print_number 10 v)) in Hn. split_and!; [done|done|done|].
  destruct (leading_zeros (print_number 10 v)) as (k & r & E & Hr). rewrite E, number_zeros in Hn.
  assert (r ≠ []) as Hr0 by (intros ->; cbn in Hn; lia).
  assert (length r ≤ 64)%nat as Hl.
  { destruct r as [|c r]; [done|]. rewrite E in Hd. apply Forall_app in Hd as [_ Hd]. apply Forall_cons in Hd as [Hc Hd].
    specialize (Hr c eq_refl). rewrite number_cons in Hn. pose proof (number_bound r Hd). cbn [length].
    assert (1 * 10 ^ Z.of_nat (length r) ≤ (c - 48) * 10 ^ Z.of_nat (length r)) by (apply Z.mul_le_mono_nonneg_r; unfold digit_ok in Hc; lia).
    assert (10 ^ Z.of_nat (length r) < 10 ^ 20) as Hlt by lia. apply Z.pow_lt_mono_r_iff in Hlt; lia. }
  assert (print_number 10 v = r) as ->; [|done]. rewrite <- Hn. unfold print_number.
  rewrite print_digits_number; [apply app_nil_r|done| |done|done]. rewrite E in Hd. by apply Forall_app in Hd as [_ ?].
Qed.

Lemma create_single ds :
  Forall digit_ok ds → ds ≠ [] → (∀ c, head ds = Some c → c ≠ 48) → number ds < BASE → create ds = Ret (mkBig [number ds] true).
Proof.
  intros Hd Hne Hhd Hlt. destruct ds as [|c ds]; [done|]. apply Forall_cons in Hd as Hd'. destruct Hd' as [Hc Hd'].
  specialize (Hhd c eq_refl) as Hc0. pose proof (number_pos c ds Hc Hc0 Hd') as Hpos.
  assert (length (c :: ds) ≤ 8)%nat as Hl.
  { rewrite number_cons in Hlt. pose proof (number_bound ds Hd'). cbn [length].
    assert (1 * 10 ^ Z.of_nat (length ds) ≤ (c - 48) * 10 ^ Z.of_nat (length ds)) by (apply Z.mul_le_mono_nonneg_r; unfold digit_ok in Hc; lia).
    assert (10 ^ Z.of_nat (length ds) < 10 ^ 8) as Hp by (unfold BASE in Hlt; lia). apply Z.pow_lt_mono_r_iff in Hp; lia. }
  pose proof (create_digits true (c :: ds) Hd Hne Hhd) as E. cbn [sign_of app] in E. rewrite E. cbn [groups]. unfold NUM_LENGTH.
  destruct (Nat.ltb_spec 8 (length (c :: ds))) as [?|_]; [lia|]. rewrite bool_decide_false by done.
  rewrite toInt_number by (done || lia). replace (number (c :: ds) =? 0) with false by lia. cbn [andb]. rewrite !bind_Ret_l.
  unfold drop_last_zero, checkAndSetIfZero. cbn [last]. replace (number (c :: ds) =? 0) with false by lia. cbn [parts existsb].
  by replace (0 <? number (c :: ds)) with true by lia.
Qed.

Lemma create_zeros k : create (zeros (S k)) = Ret (mkBig [0] true).
Proof.
  unfold create. assert (trim (zeros (S k)) = zeros (S k)) as ->.
  { apply (trim_id 48 _ 48); [done| |by apply digit_not_ws; left..].
    unfold zeros. by rewrite replicate_S_end, last_snoc. }
  assert (∀ P : Z → Prop, P 48 → Forall P (zeros (S k))) as H by (intros P HP; by apply Forall_replicate).
  unfold find_last_of. rewrite (proj2 (find_last_None _ _)) by (by apply H).
  unfold find_first_not_of. by rewrite (proj2 (find_first_None _ _)) by (by apply H).
Qed.

Lemma times_digits_single l k p v :
  0 ≤ p < BASE → 0 ≤ v → Forall digit_ok l → v + p * 10 ^ Z.of_nat k * number (rev l) < BASE →
  times_digits l k [p] (mkBig [v] true) = Ret (mkBig [v + p * 10 ^ Z.of_nat k * number (rev l)] true).
Proof.
  intros Hp. revert k v. induction l as [|d l IH]; intros k v Hv Hl Hlt.
  { cbn [times_digits rev]. change (number []) with 0. by rewrite Z.mul_0_r, Z.add_0_r. }
  apply Forall_cons in Hl as [Hd Hl]. cbn [rev] in *. rewrite number_snoc in *.
  assert (0 ≤ number (rev l)) as Hn by (by apply number_bound, List.Forall_rev).
  set (P := 10 ^ Z.of_nat k) in *. assert (1 ≤ P) as HP by (subst P; lia).
  set (w := p * (d - 48)). assert (0 ≤ w) as Hw by (unfold digit_ok in Hd; subst w; nia).
  assert (v + p * (P * 10) * number (rev l) + w * P = v + p * P * (number (rev l) * 10 + (d - 48))) as Ew by (subst w; lia).
  assert (0 ≤ p * (P * 10) * number (rev l)) by (apply Z.mul_nonneg_nonneg; [apply Z.mul_nonneg_nonneg|]; lia).
  assert (w ≤ w * P) by nia. cbn [times_digits times_digit].
  replace (schar d - 48) with (d - 48) by (unfold schar, digit_ok in *; by replace (d <? 128) with true by lia).
  fold w. unfold BASE in *. rewrite checked_int_Ret, bind_Ret_l by lia. cbv zeta. rewrite (bool_decide_true ([] = [])) by done.
  assert (toInt (fromNumber w) = Ret w) as -> by (unfold fromNumber; rewrite wrapu_small by lia; apply toInt_print; lia).
  rewrite bind_Ret_l, Z.add_0_r, checked_int_Ret, !bind_Ret_l, app_nil_r by lia.
  assert (create (fromNumber w ++ replicate k 48) = Ret (mkBig [w * P] true)) as ->.
  { destruct (decide (w = 0)) as [->|Hw0]; [exact (create_zeros k)|].
    destruct (fromNumber_digits w ltac:(lia)) as (H1 & H2 & H3 & H4).
    assert (number (fromNumber w ++ zeros k) = w * P) as <-.
    { rewrite number_app, H3. replace (number (zeros k)) with 0; [unfold zeros; rewrite length_replicate; subst P; lia|].
      pose proof (number_zeros k []) as E. rewrite app_nil_r in E. by rewrite E. }
    apply create_single.
    - apply Forall_app. split; [done|]. by apply Forall_replicate.
    - by destruct (fromNumber w).
    - intros c Hc. apply H4. by destruct (fromNumber w).
    - rewrite number_app, H3. replace (number (zeros k)) with 0; [unfold zeros, BASE; rewrite length_replicate; fold P; lia|].
      pose proof (number_zeros k []) as E. rewrite app_nil_r in E. by rewrite E. }
  assert (internalAdd (mkBig [v] true) (mkBig [w * P] true) = mkBig [v + w * P] true) as ->.
  { unfold internalAdd. cbn [parts isPositive length Nat.max add_parts hd tl bool_decide]. rewrite !bool_decide_false by done. cbn [orb].
    rewrite Z.add_0_r. unfold NUM_MAX. by replace (99999999 <? v + w * P) with false by lia. }
  rewrite IH; rewrite ?Nat2Z.inj_succ, ?Z.pow_succ_r by lia; fold P.
  - do 3 f_equal. lia.
  - lia.
  - done.
  - lia.
Qed.

Lemma fromNumber_value x : 0 ≤ x < BASE → Forall digit_ok (fromNumber x) ∧ fromNumber x ≠ [] ∧ number (fromNumber x) = x.
Proof.
  intros Hx. destruct (decide (x = 0)) as [->|]; [split_and!; [by apply (bool_decide_unpack _); vm_compute|done|done]|].
  destruct (fromNumber_digits x) as (? & ? & ? & _); [unfold BASE in Hx; lia|done].
Qed.

(** Multiplication.  [multiply] is exact on two positive numbers whose product fits one
    group.  Beyond that it is not: a partial product that holds a zero group does not parse
    and is dropped, a carry out of the last group is lost, and the text of the shorter
    factor is cut or not by the sign of the argument, whichever of the two it is. *)
Theorem bigint_multiply x y :
  0 ≤ x < BASE → 0 ≤ y < BASE → x * y < BASE →
  multiply (mkBig [x] true) (mkBig [y] true) = Ret (mkBig [x * y] true).
Proof.
  intros Hx Hy Hxy. unfold multiply, toString. cbn [parts isPositive rev app flat_map]. rewrite !app_nil_r.
  destruct (fromNumber_value x Hx) as (Hdx & Hnx & Hvx), (fromNumber_value y Hy) as (Hdy & Hny & Hvy).
  assert (∀ ds p, Forall digit_ok ds → ds ≠ [] → 0 ≤ p < BASE → p * number ds < BASE →
    (r ← (if bool_decide (ds = []) || bool_decide ([p] = []) then Ret Bigint_new else times_digits (rev ds) 0 [p] Bigint_new);
     Ret (mkBig (parts r) true)) = Ret (mkBig [p * number ds] true)) as H.
  { intros ds p Hd Hne Hp Hlt. rewrite !bool_decide_false by done. cbn [orb].
    unfold Bigint_new. rewrite times_digits_single; rewrite ?rev_involutive; change (10 ^ Z.of_nat 0) with 1; rewrite ?Z.mul_1_r; try (done || lia).
    by apply List.Forall_rev. }
  destruct (_ <? _)%nat.
  - rewrite H by (done || lia). by rewrite Hvy.
  - rewrite H by (done || (rewrite ?Hvx; lia)). by rewrite Hvx, Z.mul_comm.
Qed.
Lemma bigint_multiply_witness : multiply (mkBig [1234] true) (mkBig [5678] true) = Ret (mkBig [7006652] true).
Proof. apply (bigint_multiply 1234 5678); unfold BASE; lia. Defined.

(** Products that come out wrong. *)
Theorem bigint_multiply_errs :
  multiply (mkBig [10] true) (mkBig [10000000] true) = Ret (mkBig [0] true) ∧
  multiply (mkBig [9000001] true) (mkBig [19] true) = Ret (mkBig [71000019] true) ∧
  multiply (mkBig [3] true) (mkBig [15] false) = Ret (mkBig [0] false) ∧
  (∃ r, multiply (mkBig [3] false) (mkBig [15] true) = Ret r ∧ parts r ≠ [45]).
Proof. split_and!; [by vm_compute..|]. eexists. split; [by vm_compute|]. by vm_compute. Qed.
