(* ===== verification/Json.v ===== *)
(** * Json

    JSON documents ([common/JSONElement.cpp] and [common/JSONUtil.cpp]): the tree, its
    text, and the parser, which cuts the text at the first bracket or comma. *)

From S2P Require Import Prelude StdMap StdString StringUtil CastUtil.

(** ** The tree *)

Definition JSON_OBJECT : Z := 0.
Definition JSON_ARRAY : Z := 1.
Definition JSON_STRING : Z := 2.
Definition JSON_NUMBER : Z := 3.
Definition JSON_BOOL : Z := 4.
Definition JSON_FLOAT : Z := 5.

#[warnings="-register-all"]
Inductive JSONElement :=
  mkJ { type : Z; name : bytes; value : bytes; children : list JSONElement; allnodes : list (bytes * Z) }.

Definition JSONElement_new : JSONElement := mkJ (-1) [] [] [] [].
Definition setType (t : Z) (e : JSONElement) : JSONElement := mkJ t (name e) (value e) (children e) (allnodes e).
Definition setName (n : bytes) (e : JSONElement) : JSONElement := mkJ (type e) n (value e) (children e) (allnodes e).
Definition setValue (v : bytes) (e : JSONElement) : JSONElement := mkJ (type e) (name e) v (children e) (allnodes e).
(** [addChild]: a later child hides an earlier one of the same name. *)
Definition addChild (par e : JSONElement) : JSONElement :=
  mkJ (type par) (name par) (value par) (children par ++ [e])
    (if negb (type par =? JSON_ARRAY) then mset (name e) (Z.of_nat (length (children par))) (allnodes par) else allnodes par).
Definition getNodeP (n : bytes) (e : JSONElement) : option JSONElement :=
  i ← mfind n (allnodes e); children e !! Z.to_nat i.

Definition is_container (t : Z) : bool := (t =? JSON_OBJECT) || (t =? JSON_ARRAY).
Definition quoted (s : bytes) : bytes := [34] ++ s ++ [34].
Fixpoint toString (e : JSONElement) : bytes :=
  let isobj := type e =? JSON_OBJECT in
  (if isobj then [123] else [91]) ++
  (fix items (l : list JSONElement) : bytes :=
     match l with
     | [] => []
     | c :: l =>
         (if isobj then quoted (name c) ++ [58] else []) ++
         (if is_container (type c) then toString c else if type c =? JSON_STRING then quoted (value c) else value c) ++
         match l with [] => [] | _ => str ", " ++ items l end
     end) (children e) ++
  (if isobj then [125] else [93]).

(** ** Cutting the text *)

(** The brackets of a container. *)
Definition open_of (isarray : bool) : Z := if isarray then 91 else 123.
Definition close_of (isarray : bool) : Z := if isarray then 93 else 125.

(** [readBalancedJSON]: the closing bracket up to which there are as many opening as closing
    ones of the kind. *)
Fixpoint balance (fuel : nat) (isarray : bool) (json : bytes) (obs eee : nat) : outcome nat :=
  match fuel with
  | O => Out_of_fuel
  | S fuel =>
      test ← substr json (Z.of_nat obs) (Z.of_nat eee - Z.of_nat obs + 1);
      stcnt ← countOccurrences test [open_of isarray];
      encnt ← countOccurrences test [close_of isarray];
      if stcnt =? encnt then Ret eee
      else match sfind_from [close_of isarray] json (S eee) with
           | None => Throw Runtime_error
           | Some e => balance fuel isarray json obs e
           end
  end.
Definition readBalancedJSON (isarray : bool) (obs : nat) (json : bytes) : outcome (bytes * bytes) :=
  match sfind_from [close_of isarray] json obs with
  | None => Throw Runtime_error
  | Some e =>
      eee ← balance (S (length json)) isarray json obs e;
      value ← substr json (Z.of_nat obs) (Z.of_nat eee - Z.of_nat obs + 1);
      Ret (value, drop (S eee) json)
  end.

(** The first quote without a backslash in front of it; [prev] is what is in front. *)
Fixpoint quote_at (prev : Z) (s : bytes) : option nat :=
  match s with
  | [] => None
  | c :: s => if (c =? 34) && negb (prev =? 92) then Some 0%nat else S <$> quote_at c s
  end.

(** The name of a member, and what is behind its colon. *)
Definition read_name (json : bytes) : outcome (bytes * bytes) :=
  match quote_at 0 json with
  | None => Throw Literal_text
  | Some stn =>
      let json := drop (S stn) json in
      match quote_at 34 json with
      | None => Throw Literal_text
      | Some n =>
          let rest := trim (drop (S n) json) in
          match sfind [58] rest with
          | Some 0%nat => Ret (take n json, drop 1 rest)
          | _ => Throw Literal_text
          end
      end
  end.

(** Where the next value ends: its text, what is left, and a first type. *)
Definition earlier (a b : option nat) : bool :=
  match a, b with Some a, Some b => (a <? b)%nat | Some _, None => true | None, _ => false end.
Definition cut_value (json : bytes) : outcome (bytes * bytes * Z) :=
  let env := sfind [44] json in
  let obs := sfind [123] json in
  let ars := sfind [91] json in
  let balanced (isarray : bool) (at_ : nat) :=
    '(v, json) ← readBalancedJSON isarray at_ json; Ret (v, json, if isarray then JSON_ARRAY else JSON_OBJECT) in
  match obs, ars with
  | Some 0%nat, _ => balanced false 0%nat
  | _, Some 0%nat => balanced true 0%nat
  | _, _ =>
      match env with
      | None => Ret (json, [], JSON_STRING)
      | Some env =>
          let before (p : option nat) := match p with Some i => (env =? 0)%nat || (i <? env)%nat | None => false end in
          if before obs && earlier obs ars then balanced false (default 0%nat obs)
          else if before ars && earlier ars obs then balanced true (default 0%nat ars)
          else Ret (take env json, drop (S env) json, JSON_STRING)
      end
  end.

(** ** Values *)

Section parser.
(** The [strtod] of the C library. *)
Variable strtod : bytes → Z.

(** An exception of the standard library becomes a [runtime_error]. *)
Definition checked {A} (o : outcome A) (t : Z) : outcome Z :=
  match o with
  | Ret _ => Ret t
  | Throw e => if is_std e then Throw Runtime_error else Throw e
  | Undefined => Undefined
  | Out_of_fuel => Out_of_fuel
  end.

(** [validateSetValue]. *)
Definition validateSetValue (v : bytes) (e : JSONElement) : outcome JSONElement :=
  let v := trim v in
  if memb 34 v then
    match quote_at 0 v with
    | None => Throw Runtime_error
    | Some stn =>
        match quote_at 34 (drop (S stn) v) with
        | None => Throw Runtime_error
        | Some n =>
            if (S stn + n =? length v - 1)%nat then Ret (setValue (take n (drop (S stn) v)) (setType JSON_STRING e))
            else Throw Runtime_error
        end
    end
  else if bool_decide (toLower v = str "true") || bool_decide (toLower v = str "false") then
    Ret (setValue (toLower v) (setType JSON_BOOL e))
  else if memb 46 v then t ← checked (toFloat strtod v) JSON_FLOAT; Ret (setValue v (setType t e))
  else t ← checked (toULonglong v) JSON_NUMBER; Ret (setValue v (setType t e)).

(** ** The parser *)

Definition has_brackets (isarray : bool) (json : bytes) : bool := memb (open_of isarray) json && memb (close_of isarray) json.
(** Without the first opening and the last closing bracket. *)
Definition strip (isarray : bool) (json : bytes) : bytes :=
  replaceLast (replaceFirst json [open_of isarray] []) [close_of isarray] [].

(** [readJSON], with [object] and [array] ([contents]): what is left of the text, which is
    nothing, and the parent with its children. *)
Fixpoint readJSON (fuel : nat) (json : bytes) (isarray : bool) (par : JSONElement) : outcome (bytes * JSONElement) :=
  match fuel with
  | O => Out_of_fuel
  | S fuel =>
      if bool_decide (json = []) then Ret ([], par)
      else
        '(n, json) ← (if isarray then Ret ([], json) else read_name json);
        '(v, json, t) ← cut_value (trim json);
        if bool_decide (v = []) then Throw Runtime_error
        else
          let e := mkJ t n [] [] [] in
          e ← (if is_container t then contents fuel (t =? JSON_ARRAY) v e else validateSetValue v e);
          readJSON fuel json isarray (addChild par e)
  end
with contents (fuel : nat) (isarray : bool) (json : bytes) (e : JSONElement) : outcome JSONElement :=
  match fuel with
  | O => Out_of_fuel
  | S fuel =>
      if has_brackets isarray json then
        '(json, e) ← readJSON fuel (strip isarray json) isarray (setType (if isarray then JSON_ARRAY else JSON_OBJECT) e);
        contents fuel isarray json e
      else Ret e
  end.

(** [getDocument], into a new element; positions are compared as [int]. *)
Definition JSON_ROOT : bytes := str "_JSON_ROOT".
Definition find_int (c : Z) (s : bytes) : Z := wraps 32 (match sfind [c] s with Some i => Z.of_nat i | None => npos end).
Definition parse_fuel (json : bytes) : nat := (2 * length json + 2)%nat.
Definition getDocument (json : bytes) : outcome JSONElement :=
  let root := mkJ JSON_OBJECT JSON_ROOT [] [] [] in
  let read (isarray : bool) :=
    '(_, e) ← readJSON (parse_fuel json) (strip isarray json) isarray (setType (if isarray then JSON_ARRAY else JSON_OBJECT) root); Ret e in
  let arrst := find_int 91 json in
  let objst := find_int 123 json in
  if has_brackets false json && ((objst <? arrst) || (arrst =? -1)) then read false
  else if has_brackets true json then read true
  else Ret root.
End parser.

(** ** On small texts *)

Definition no_strtod (v : bytes) : Z := 1.
Definition leaf (t : Z) (n v : string) : JSONElement := mkJ t (str n) (str v) [] [].
Example json_1 : (x ← getDocument no_strtod (str "{'a':1, 'b':[true, 'x']}" ); Ret (children x)) = Throw Literal_text.
Proof. reflexivity. Qed.
Definition dq (s : bytes) : bytes := map (λ c, if c =? 39 then 34 else c) s.
Example json_2 : (x ← getDocument no_strtod (dq (str "{'a':1, 'b':[true, 'x']}")); Ret (toString x)) = Ret (dq (str "{'a':1, 'b':[true, 'x']}")).
Proof. reflexivity. Qed.
(** A value between two arrays is lost. *)
Example json_3 : (x ← getDocument no_strtod (str "[[1], 2, [3]]"); Ret (toString x)) = Ret (str "[[1], [3]]").
Proof. reflexivity. Qed.
Example json_4 : getDocument no_strtod (str "[[1], 2]") = Throw Runtime_error.
Proof. reflexivity. Qed.
Example json_5 : getDocument no_strtod (dq (str "{'a':'x,y'}")) = Throw Runtime_error.
Proof. reflexivity. Qed.

(** ** The parser ends *)

Lemma countOccurrences_terminates s c : terminates (countOccurrences s [c]).
Proof.
  unfold countOccurrences. assert (∀ fuel n i, (length s - i < fuel)%nat → (i ≤ length s)%nat → terminates (countOccurrences_loop fuel s [c] n i)) as H;
    [|apply H; lia].
  induction fuel as [|fuel IH]; intros n i Hf Hi; [lia|]. cbn [countOccurrences_loop]. unfold sfind_from.
  rewrite (proj2 (Nat.leb_le _ _) Hi). destruct (sfind [c] (drop i s)) as [j|] eqn:E; [|done]. cbn [fmap option_fmap option_map].
  apply sfind_bound in E. rewrite length_drop in E. cbn [length] in E. apply terminates_bind; [unfold checked_int; by case_match|].
  intros m _. apply IH; lia.
Qed.
#[local] Hint Resolve countOccurrences_terminates : ffead.

Lemma sfind_from_bound c s pos i : sfind_from [c] s pos = Some i → (pos ≤ i < length s)%nat.
Proof.
  unfold sfind_from. case_match; [|done]. destruct (sfind [c] (drop pos s)) as [j|] eqn:E; [|done]. intros [= <-].
  apply sfind_bound in E. rewrite length_drop in E. cbn [length] in E. lia.
Qed.

Lemma balance_terminates fuel isarray json obs e :
  (length json - e < fuel)%nat → (e < length json)%nat → terminates (balance fuel isarray json obs e).
Proof.
  revert e. induction fuel as [|fuel IH]; intros e Hf He; [lia|]. cbn [balance].
  apply terminates_bind; [auto with ffead|]. intros t _. do 2 (apply terminates_bind; [auto with ffead|]; intros ? _).
  case_match; [done|]. destruct (sfind_from _ _ _) as [e'|] eqn:E; [|done]. apply sfind_from_bound in E. apply IH; lia.
Qed.
Lemma readBalancedJSON_terminates isarray obs json : terminates (readBalancedJSON isarray obs json).
Proof.
  unfold readBalancedJSON. destruct (sfind_from _ _ _) as [e|] eqn:E; [|done]. apply sfind_from_bound in E.
  apply terminates_bind; [apply balance_terminates; lia|]. intros ? _. apply terminates_bind; [auto with ffead|done].
Qed.
Lemma cut_value_terminates json : terminates (cut_value json).
Proof.
  unfold cut_value. assert (∀ a i, terminates ('(v, json) ← readBalancedJSON a i json; Ret (v, json, if a : bool then JSON_ARRAY else JSON_OBJECT))) as H.
  { intros a i. apply terminates_bind; [apply readBalancedJSON_terminates|]. by intros [??] _. }
  repeat case_match; (apply H || done).
Qed.

Lemma readBalancedJSON_shrinks isarray obs json v json' :
  readBalancedJSON isarray obs json = Ret (v, json') → (length json' < length json ∧ length v ≤ length json)%nat.
Proof.
  unfold readBalancedJSON. destruct (sfind_from _ _ _) as [e|] eqn:E; [|done]. apply sfind_from_bound in E. intros H.
  apply bind_Ret_inv in H as (eee & _ & H). apply bind_Ret_inv in H as (w & Hw & [= <- <-]). rewrite length_drop. split; [lia|].
  unfold substr in Hw. case_match; [done|]. injection Hw as <-. rewrite length_take, length_drop. lia.
Qed.
Lemma cut_value_shrinks json v json' t :
  cut_value json = Ret (v, json', t) → json ≠ [] → (length json' < length json ∧ length v ≤ length json)%nat.
Proof.
  unfold cut_value. intros H Hne.
  assert (∀ a i, ('(v, json) ← readBalancedJSON a i json; Ret (v, json, if a : bool then JSON_ARRAY else JSON_OBJECT)) = Ret (v, json', t) →
            (length json' < length json ∧ length v ≤ length json)%nat) as Hb.
  { intros a i E. apply bind_Ret_inv in E as ([??] & E & [= <- <- _]). by eapply readBalancedJSON_shrinks. }
  assert ((0 < length json)%nat) by (destruct json; [done|cbn; lia]).
  assert (∀ env, Ret (take env json, drop (S env) json, JSON_STRING) = Ret (v, json', t) → (length json' < length json ∧ length v ≤ length json)%nat) as Ht.
  { intros env [= <- <- _]. rewrite length_take, length_drop. lia. }
  assert (Ret (json, [], JSON_STRING) = Ret (v, json', t) → (length json' < length json ∧ length v ≤ length json)%nat) as Hn.
  { intros [= <- <- _]. cbn. lia. }
  repeat case_match; first [by apply Hn|by eapply Ht|by eapply (Hb false)|by eapply (Hb true)].
Qed.

Lemma trim_length s : (length (trim s) ≤ length s)%nat.
Proof. unfold trim. repeat case_match; rewrite ?length_take, ?length_drop; cbn; lia. Qed.
Lemma read_name_shrinks json n json' : read_name json = Ret (n, json') → (length json' ≤ length json)%nat.
Proof.
  unfold read_name. destruct (quote_at 0 json); [|done]. destruct (quote_at 34 _); [|done]. repeat case_match; try done.
  intros [= <- <-]. rewrite length_drop. pose proof (trim_length (drop (S n1) (drop (S n0) json))). rewrite !length_drop in *. lia.
Qed.

(** Taking off the brackets. *)
Lemma strip_first isarray json : open_of isarray ∈ json →
  ∃ a b, json = a ++ open_of isarray :: b ∧ replaceFirst json [open_of isarray] [] = a ++ b ∧ open_of isarray ∉ a.
Proof.
  intros H. unfold replaceFirst. destruct (sfind [open_of isarray] json) as [i|] eqn:E; [|by apply sfind_char_None in E].
  destruct (sfind_char_Some _ _ _ E) as [Es Hn]. exists (take i json), (drop (S i) json). split_and!; [done| |done].
  unfold sreplace. cbn [length app]. by rewrite Nat.add_1_r.
Qed.
Lemma strip_last isarray s : close_of isarray ∈ s →
  ∃ a b, s = a ++ close_of isarray :: b ∧ replaceLast s [close_of isarray] [] = a ++ b ∧ close_of isarray ∉ b.
Proof.
  intros H. apply list_elem_of_split_r in H as (a & b & -> & Hb). exists a, b. split_and!; [done| |done].
  unfold replaceLast, find_last_of. rewrite (find_last_app _ a (close_of isarray) b); [|by apply memb_not_in|by rewrite memb_single, Z.eqb_refl].
  unfold sreplace. cbn [length]. rewrite take_app_length. rewrite Nat.add_1_r. f_equal. by rewrite drop_app_ge, Nat.sub_succ_l, Nat.sub_diag by lia.
Qed.
Lemma strip_length isarray json : has_brackets isarray json = true → (length (strip isarray json) + 2 = length json)%nat.
Proof.
  unfold has_brackets, strip. intros [Ho Hc]%andb_prop. rewrite memb_spec in Ho, Hc.
  destruct (strip_first isarray json Ho) as (a & b & -> & -> & _).
  assert (close_of isarray ∈ a ++ b) as H.
  { apply elem_of_app in Hc as [H|[H|H]%elem_of_cons]; [apply elem_of_app; by left|by destruct isarray|apply elem_of_app; by right]. }
  destruct (strip_last isarray _ H) as (a' & b' & E & -> & _). apply (f_equal length) in E. rewrite !length_app in *. cbn [length] in *. lia.
Qed.

Section ends.
Variable strtod : bytes → Z.

Lemma readJSON_rest fuel json isarray par json' e : readJSON strtod fuel json isarray par = Ret (json', e) → json' = [].
Proof.
  revert json par. induction fuel as [|fuel IH]; intros json par H; [done|]. cbn [readJSON] in H. case_bool_decide; [by injection H as <- _|].
  apply bind_Ret_inv in H as ([n j] & _ & H). apply bind_Ret_inv in H as ([[v j2] t] & _ & H). case_bool_decide; [done|].
  apply bind_Ret_inv in H as (e' & _ & H). by apply IH in H.
Qed.

Lemma validateSetValue_terminates v e : terminates (validateSetValue strtod v e).
Proof.
  unfold validateSetValue. assert (∀ {A} (o : outcome A) t, terminates o → terminates (checked o t)) as Hc.
  { intros A o t. unfold checked, terminates. by repeat case_match. }
  case_match; [repeat case_match; done|]. case_match; [done|]. case_match; (apply terminates_bind; [apply Hc|done]).
  - unfold toFloat. apply terminates_bind; [auto with ffead|]. intros c _. assert (∀ w, terminates (nonzero_float strtod w)) as Hf by (intros w; unfold nonzero_float; by case_match).
    case_match; [|apply Hf]. apply terminates_bind; [auto with ffead|]. intros d _. repeat case_match; (apply Hf || done).
  - unfold toULonglong, scan_number. apply terminates_bind; [|done]. cbv zeta. repeat case_match; done.
Qed.

Lemma parser_terminates fuel :
  (∀ json isarray par, (2 * length json + 2 ≤ fuel)%nat → terminates (readJSON strtod fuel json isarray par)) ∧
  (∀ json isarray e, (2 * length json + 1 ≤ fuel)%nat → terminates (contents strtod fuel isarray json e)).
Proof.
  induction fuel as [|fuel [IH1 IH2]]; [split; intros; lia|]. split.
  - intros json isarray par Hf. cbn [readJSON]. case_bool_decide as Hne; [done|].
    apply terminates_bind; [destruct isarray; [done|unfold read_name; repeat case_match; done]|]. intros [n j] Hn.
    assert ((length j ≤ length json)%nat) as Hj by (destruct isarray; [by injection Hn as _ <-|by eapply read_name_shrinks]).
    apply terminates_bind; [apply cut_value_terminates|]. intros [[v j2] t] Hc. case_bool_decide; [done|].
    pose proof (trim_length j) as Ht. destruct (decide (trim j = [])) as [E|Hne2].
    { rewrite E in Hc. by injection Hc as <- <- <-. }
    destruct (cut_value_shrinks _ _ _ _ Hc Hne2). apply terminates_bind.
    + destruct (is_container t); [apply IH2; lia|apply validateSetValue_terminates].
    + intros e _. apply IH1. lia.
  - intros json isarray e Hf. cbn [contents]. destruct (has_brackets isarray json) eqn:E; [|done]. apply strip_length in E.
    apply terminates_bind; [apply IH1; lia|]. intros [j e'] H. apply readJSON_rest in H as ->. apply IH2. cbn [length]. lia.
Qed.

Lemma getDocument_terminates json : terminates (getDocument strtod json).
Proof.
  unfold getDocument, parse_fuel. assert (∀ a r, has_brackets a json = true → terminates (readJSON strtod (2 * length json + 2) (strip a json) a r)) as H.
  { intros a r E%strip_length. apply parser_terminates. lia. }
  destruct (_ && _) eqn:E1; [apply andb_prop in E1 as [E1 _]; apply terminates_bind; [by apply H|by intros [??] _]|].
  destruct (has_brackets true json) eqn:E2; [|done]. apply terminates_bind; [by apply H|by intros [??] _].
Qed.
End ends.

(** ** The parser is defined *)

(** How many digits a text starts with, and whether no twenty digits stand in a row anywhere: a number of
    nineteen digits fits 64 bits. *)
Fixpoint digit_run (s : bytes) : nat := match s with c :: s => if digit_value c <? 10 then S (digit_run s) else 0 | [] => 0 end.
Fixpoint short_numbers (s : bytes) : bool := match s with [] => true | _ :: s' => (digit_run s <? 20)%nat && short_numbers s' end.
(** The text without its brackets: taking some off can bring digits together. *)
Definition unbracketed (s : bytes) : bytes := filter (λ c, c ∉ [91; 93; 123; 125]) s.
Definition plain (s : bytes) : Prop := slen s < 2 ^ 31 ∧ short_numbers (unbracketed s) = true.
(** A text that is cut out of another one, but for brackets. *)
Definition part (t s : bytes) : Prop := (length t ≤ length s)%nat ∧ ∃ a b, unbracketed s = a ++ unbracketed t ++ b.

Lemma digit_run_app s t : (digit_run s ≤ digit_run (s ++ t))%nat.
Proof. induction s as [|c s IH]; cbn [app digit_run]; [lia|]. case_match; lia. Qed.
Lemma short_numbers_infix a t b : short_numbers (a ++ t ++ b) = true → short_numbers t = true.
Proof.
  intros H. assert (short_numbers (t ++ b) = true) as Ht.
  { induction a as [|c a IH]; [done|]. cbn [app short_numbers] in H. apply andb_prop in H as [_ H]. by apply IH. }
  clear H. induction t as [|c t IH]; [done|]. change ((c :: t) ++ b) with (c :: t ++ b) in Ht. cbn [short_numbers] in *.
  apply andb_prop in Ht as [H1%Nat.ltb_lt H2]. rewrite (IH H2), andb_true_r. apply Nat.ltb_lt.
  pose proof (digit_run_app (c :: t) b). cbn [app] in *. lia.
Qed.
Lemma digit_run_unbracketed s : (digit_run s ≤ digit_run (unbracketed s))%nat.
Proof.
  induction s as [|c s IH]; [done|]. unfold unbracketed in *. cbn [digit_run]. case_match eqn:E; [|lia].
  rewrite filter_cons_True; [cbn [digit_run]; rewrite E; lia|]. rewrite !elem_of_cons, elem_of_nil. intros [->|[->|[->|[->|[]]]]]; done.
Qed.
Lemma short_numbers_unbracketed s : short_numbers (unbracketed s) = true → short_numbers s = true.
Proof.
  induction s as [|c s IH]; [done|]. intros H. pose proof (digit_run_unbracketed (c :: s)) as Hr. unfold unbracketed in *.
  cbn [short_numbers]. rewrite filter_cons in *. case_decide as Hc.
  - cbn [short_numbers] in H. apply andb_prop in H as [H1%Nat.ltb_lt H2]. rewrite (IH H2), andb_true_r. apply Nat.ltb_lt. lia.
  - rewrite (IH H), andb_true_r. apply Nat.ltb_lt. destruct (digit_value c <? 10) eqn:E; [|cbn [digit_run]; rewrite E; lia].
    exfalso. revert Hc. rewrite !elem_of_cons, elem_of_nil. intros [->|[->|[->|[->|[]]]]]; done.
Qed.

Lemma part_trans r s t : part r s → part s t → part r t.
Proof.
  intros (H1 & a & b & E) (H2 & a' & b' & E'). split; [lia|]. exists (a' ++ a), (b ++ b'). rewrite E', E. by rewrite <- !app_assoc.
Qed.
Lemma plain_part t s : part t s → plain s → plain t.
Proof. intros (Hl & a & b & E) [H1 H2]. rewrite E in H2. split; [unfold slen in *; lia|]. by apply short_numbers_infix in H2. Qed.
Lemma part_infix a t b : part t (a ++ t ++ b).
Proof. split; [rewrite !length_app; lia|]. exists (unbracketed a), (unbracketed b). unfold unbracketed. by rewrite !filter_app. Qed.
Lemma part_refl s : part s s.
Proof. pose proof (part_infix [] s []) as H. by rewrite app_nil_r in H. Qed.
Lemma part_drop n s : part (drop n s) s.
Proof. pose proof (part_infix (take n s) (drop n s) []) as H. by rewrite app_nil_r, take_drop in H. Qed.
Lemma part_take n s : part (take n s) s.
Proof. pose proof (part_infix [] (take n s) (drop n s)) as H. by rewrite app_nil_l, take_drop in H. Qed.
Lemma part_trim s : part (trim s) s.
Proof.
  unfold trim. repeat case_match; try apply part_drop; try apply part_take.
  - eapply part_trans; [apply part_take|apply part_drop].
  - split; [cbn; lia|]. exists [], (unbracketed s). done.
Qed.
Lemma part_substr s i n t : substr s i n = Ret t → part t s.
Proof. unfold substr. case_match; [done|]. intros [= <-]. eapply part_trans; [apply part_take|apply part_drop]. Qed.
Lemma part_strip isarray json : has_brackets isarray json = true → part (strip isarray json) json.
Proof.
  intros H. pose proof (strip_length _ _ H) as Hl. split; [lia|]. exists [], []. rewrite app_nil_r. cbn [app]. revert H.
  unfold has_brackets, strip. intros [Ho Hc]%andb_prop. rewrite memb_spec in Ho, Hc.
  destruct (strip_first isarray json Ho) as (a & b & -> & -> & _).
  assert (close_of isarray ∈ a ++ b) as Hin.
  { apply elem_of_app in Hc as [H|[H|H]%elem_of_cons]; [apply elem_of_app; by left|by destruct isarray|apply elem_of_app; by right]. }
  destruct (strip_last isarray _ Hin) as (a' & b' & E & -> & _).
  assert (∀ c x y, c ∈ [91; 93; 123; 125] → unbracketed (x ++ c :: y) = unbracketed (x ++ y)) as Hu.
  { intros c x y Hx. unfold unbracketed. by rewrite !filter_app, filter_cons_False by naive_solver. }
  rewrite Hu by (destruct isarray; set_solver). rewrite E, Hu by (destruct isarray; set_solver). done.
Qed.

Lemma countOccurrences_defined s c : slen s < 2 ^ 31 → defined (countOccurrences s [c]).
Proof. intros Hl. by rewrite countOccurrences_char. Qed.
Lemma substr_defined s i n : defined (substr s i n).
Proof. unfold substr. by case_match. Qed.
Lemma balance_defined fuel isarray json obs e : plain json → defined (balance fuel isarray json obs e).
Proof.
  intros Hp. revert e. induction fuel as [|fuel IH]; intros e; [done|]. cbn [balance].
  apply defined_bind; [apply substr_defined|]. intros t Ht%part_substr. pose proof (plain_part _ _ Ht Hp) as [Hl _].
  do 2 (apply defined_bind; [by apply countOccurrences_defined|]; intros ? _). case_match; [done|]. by case_match.
Qed.
Lemma readBalancedJSON_defined isarray obs json : plain json → defined (readBalancedJSON isarray obs json).
Proof.
  intros Hp. unfold readBalancedJSON. case_match; [|done]. apply defined_bind; [by apply balance_defined|].
  intros ? _. by apply defined_bind; [apply substr_defined|].
Qed.
Lemma readBalancedJSON_parts isarray obs json v json' : readBalancedJSON isarray obs json = Ret (v, json') → part v json ∧ part json' json.
Proof.
  unfold readBalancedJSON. case_match; [|done]. intros Hr. apply bind_Ret_inv in Hr as (e & _ & Hr). apply bind_Ret_inv in Hr as (w & Hw & [= <- <-]).
  split; [by eapply part_substr|apply part_drop].
Qed.
Lemma cut_value_defined json : plain json → defined (cut_value json).
Proof.
  intros Hp. unfold cut_value. assert (∀ a i, defined ('(v, json) ← readBalancedJSON a i json; Ret (v, json, if a : bool then JSON_ARRAY else JSON_OBJECT))) as H.
  { intros a i. apply defined_bind; [by apply readBalancedJSON_defined|]. by intros [??] _. }
  repeat case_match; (apply H || done).
Qed.
Lemma cut_value_parts json v json' t : cut_value json = Ret (v, json', t) → part v json ∧ part json' json.
Proof.
  unfold cut_value. intros H.
  assert (∀ a i, ('(v, json) ← readBalancedJSON a i json; Ret (v, json, if a : bool then JSON_ARRAY else JSON_OBJECT)) = Ret (v, json', t) →
            part v json ∧ part json' json) as Hb.
  { intros a i E. apply bind_Ret_inv in E as ([??] & E & [= <- <- _]). by eapply readBalancedJSON_parts. }
  assert (part [] json) as Hn by exact (part_take 0 json).
  repeat case_match; first [exact (Hb false _ H)|exact (Hb true _ H)|injection H as <- <- <-;
    split; first [apply part_take|apply part_drop|apply part_refl|exact Hn]].
Qed.
Lemma read_name_part json n json' : read_name json = Ret (n, json') → part json' json.
Proof.
  unfold read_name. destruct (quote_at 0 json); [|done]. destruct (quote_at 34 _); [|done]. repeat case_match; try done.
  intros [= <- <-]. eapply part_trans; [apply part_drop|]. eapply part_trans; [apply part_trim|]. eapply part_trans; apply part_drop.
Qed.

(** *** Numbers *)

Lemma read_digits_run s n : 0 ≤ n → 0 ≤ read_digits 10 s n < (n + 1) * 10 ^ Z.of_nat (digit_run s).
Proof.
  revert n. induction s as [|c s IH]; intros n Hn; cbn [read_digits digit_run]; [lia|]. destruct (digit_value c <? 10) eqn:E; [|lia].
  assert (0 ≤ digit_value c) by (unfold digit_value; repeat case_match; lia).
  pose proof (IH (n * 10 + digit_value c) ltac:(lia)) as Hr. rewrite Nat2Z.inj_succ, Z.pow_succ_r by lia.
  assert (0 < 10 ^ Z.of_nat (digit_run s)) by (apply Z.pow_pos_nonneg; lia). nia.
Qed.
Lemma skip_while_drop f s : ∃ n, skip_while f s = drop n s.
Proof. induction s as [|c s [n IH]]; [by exists 0%nat|]. cbn [skip_while]. case_match; [by exists (S n)|by exists 0%nat]. Qed.
Lemma c_string_take s : ∃ n, c_string s = take n s.
Proof. induction s as [|c s [n IH]]; [by exists 0%nat|]. cbn [c_string]. case_match; [by exists 0%nat|exists (S n)]. cbn. by rewrite IH. Qed.
Lemma short_numbers_part s t : part t s → short_numbers (unbracketed s) = true → (digit_run t < 20)%nat.
Proof.
  intros (_ & a & b & E) H. rewrite E in H. apply short_numbers_infix, short_numbers_unbracketed in H.
  destruct t as [|c t]; [cbn; lia|]. cbn [short_numbers] in H. by apply andb_prop in H as [H%Nat.ltb_lt _].
Qed.
Lemma toULonglong_defined v : plain v → defined (toULonglong v).
Proof.
  intros [_ Hp]. unfold toULonglong, scan_number. apply defined_bind; [|done]. cbv zeta.
  destruct (skip_while_drop isspace (c_string v)) as [n ->].
  destruct (c_string_take v) as [m ->].
  assert (part (drop n (take m v)) v) as H0 by (eapply part_trans; [apply part_drop|apply part_take]). set (s := drop n (take m v)) in *. clearbody s.
  assert (∀ (neg : bool) t, part t s → defined (match t with
    | [] => Throw Runtime_error
    | c :: _ => if digit_value c <? 10 then let n := read_digits 10 t 0 in let n := if neg then - n else n in
                  if (- (2 ^ 64 - 1) <=? n) && (n <=? 2 ^ 64 - 1) then Ret n else Undefined else Throw Runtime_error end)) as H.
  { intros neg t Ht. pose proof (short_numbers_part _ _ (part_trans _ _ _ Ht H0) Hp) as Hr. destruct t as [|c t]; [done|]. case_match; [|done]. cbv zeta.
    pose proof (read_digits_run (c :: t) 0 ltac:(lia)) as Hd. assert (10 ^ Z.of_nat (digit_run (c :: t)) ≤ 10 ^ 19) by (apply Z.pow_le_mono_r; lia).
    change (10 ^ 19) with 10000000000000000000 in *. change (2 ^ 64 - 1) with 18446744073709551615.
    rewrite (proj2 (andb_true_iff _ _)); [done|]. destruct neg; lia. }
  destruct s as [|c s]; [done|]. destruct (c =? 45); [exact (H true s (part_drop 1 (c :: s)))|].
  destruct (c =? 43); [exact (H false s (part_drop 1 (c :: s)))|exact (H false (c :: s) (part_refl _))].
Qed.

Section definedness.
Variable strtod : bytes → Z.

Lemma toFloat_defined v : plain v → defined (toFloat strtod v).
Proof.
  intros [Hl _]. unfold toFloat. apply defined_bind; [unfold at_; by case_match|]. intros c _.
  assert (∀ w, defined (nonzero_float strtod w)) as Hf by (intros w; unfold nonzero_float; by case_match).
  case_match; [|apply Hf]. apply defined_bind; [by apply countOccurrences_defined|]. intros d _. repeat case_match; (apply Hf || done).
Qed.
Lemma validateSetValue_defined v e : plain v → defined (validateSetValue strtod v e).
Proof.
  intros Hp. pose proof (plain_part _ _ (part_trim v) Hp) as Ht. unfold validateSetValue.
  assert (∀ {A} (o : outcome A) t, defined o → defined (checked o t)) as Hc by (intros A o t; unfold checked, defined; by repeat case_match).
  case_match; [repeat case_match; done|]. case_match; [done|].
  case_match; (apply defined_bind; [apply Hc|done]); [by apply toFloat_defined|by apply toULonglong_defined].
Qed.
Lemma parser_defined fuel :
  (∀ json isarray par, plain json → defined (readJSON strtod fuel json isarray par)) ∧
  (∀ json isarray e, plain json → defined (contents strtod fuel isarray json e)).
Proof.
  induction fuel as [|fuel [IH1 IH2]]; [done|]. split.
  - intros json isarray par Hp. cbn [readJSON]. case_bool_decide; [done|].
    apply defined_bind; [destruct isarray; [done|unfold read_name; repeat case_match; done]|]. intros [n j] Hn.
    assert (part j json) as Hj by (destruct isarray; [injection Hn as _ <-; apply part_refl|by eapply read_name_part]).
    assert (part (trim j) json) as Ht by (eapply part_trans; [apply part_trim|done]). pose proof (plain_part _ _ Ht Hp) as Hpt.
    apply defined_bind; [by apply cut_value_defined|]. intros [[v j2] t] [Hv Hj2]%cut_value_parts. case_bool_decide; [done|].
    apply defined_bind; [destruct (is_container t); [apply IH2|apply validateSetValue_defined]; by eapply plain_part|].
    intros e _. apply IH1. by eapply plain_part.
  - intros json isarray e Hp. cbn [contents]. destruct (has_brackets isarray json) eqn:E; [|done].
    apply defined_bind; [apply IH1; eapply plain_part; [by apply part_strip|done]|]. intros [j e'] H. apply readJSON_rest in H as ->. by apply IH2.
Qed.
Lemma getDocument_defined json : plain json → defined (getDocument strtod json).
Proof.
  intros Hp. unfold getDocument. assert (∀ a r, has_brackets a json = true → defined (readJSON strtod (parse_fuel json) (strip a json) a r)) as H.
  { intros a r E. apply parser_defined. eapply plain_part; [by apply part_strip|done]. }
  destruct (_ && _) eqn:E1; [apply andb_prop in E1 as [E1 _]; apply defined_bind; [by apply H|by intros [??] _]|].
  destruct (has_brackets true json) eqn:E2; [|done]. apply defined_bind; [by apply H|by intros [??] _].
Qed.
End definedness.

(** ** Documents and their text *)

(** A document without floating point numbers. *)
#[warnings="-register-all"]
Inductive json :=
| Text (s : bytes)
| Number (n : Z)
| Truth (b : bool)
| Array (l : list json)
| Object (l : list (bytes * json)).

Definition scalar (d : json) : bool := match d with Array _ | Object _ => false | _ => true end.

Section json_ind.
Variable P : json → Prop.
Hypothesis Htext : ∀ s, P (Text s).
Hypothesis Hnumber : ∀ n, P (Number n).
Hypothesis Htruth : ∀ b, P (Truth b).
Hypothesis Harray : ∀ l, Forall P l → P (Array l).
Hypothesis Hobject : ∀ l, Forall (λ nd, P nd.2) l → P (Object l).
Fixpoint json_nested_ind (d : json) : P d :=
  match d with
  | Text s => Htext s
  | Number n => Hnumber n
  | Truth b => Htruth b
  | Array l => Harray l ((fix all (l : list json) : Forall P l :=
      match l with [] => List.Forall_nil _ | d :: l => List.Forall_cons _ _ _ (json_nested_ind d) (all l) end) l)
  | Object l => Hobject l ((fix all (l : list (bytes * json)) : Forall (λ nd, P nd.2) l :=
      match l with [] => List.Forall_nil _ | nd :: l => List.Forall_cons _ _ _ (json_nested_ind nd.2) (all l) end) l)
  end.
End json_ind.

(** The element of a document, and its text. *)
Fixpoint element (n : bytes) (d : json) : JSONElement :=
  match d with
  | Text s => mkJ JSON_STRING n s [] []
  | Number x => mkJ JSON_NUMBER n (fromNumber x) [] []
  | Truth b => mkJ JSON_BOOL n (if b then str "true" else str "false") [] []
  | Array l => foldl addChild (mkJ JSON_ARRAY n [] [] []) (map (element []) l)
  | Object l => foldl addChild (mkJ JSON_OBJECT n [] [] []) (map (λ nd, element nd.1 nd.2) l)
  end.
Fixpoint print (d : json) : bytes :=
  match d with
  | Text s => quoted s
  | Number x => fromNumber x
  | Truth b => if b then str "true" else str "false"
  | Array l => [91] ++ join (str ", ") (map print l) ++ [93]
  | Object l => [123] ++ join (str ", ") (map (λ nd, quoted nd.1 ++ [58] ++ print nd.2) l) ++ [125]
  end.

(** What the parser reads back: texts without quotes, backslashes, commas and brackets;
    numbers of 64 bits; in an array no scalar behind a container. *)
Definition plain_char (c : Z) : Prop := c ∉ [34; 92; 44; 123; 125; 91; 93].
#[export] Instance plain_char_dec c : Decision (plain_char c).
Proof. unfold plain_char. apply _. Defined.
Fixpoint scalars_first (l : list json) : bool :=
  match l with [] => true | d :: l => if scalar d then scalars_first l else forallb (λ d, negb (scalar d)) l end.
Fixpoint readable (d : json) : Prop :=
  match d with
  | Text s => Forall plain_char s
  | Number n => 0 ≤ n < 2 ^ 64
  | Truth _ => True
  | Array l => scalars_first l = true ∧ (fix all l := match l with [] => True | d :: l => readable d ∧ all l end) l
  | Object l => (fix all l := match l with [] => True | (n, d) :: l => Forall plain_char n ∧ readable d ∧ all l end) l
  end.
Lemma readable_array l : readable (Array l) ↔ scalars_first l = true ∧ Forall readable l.
Proof.
  cbn. apply and_iff_compat_l. induction l as [|d l IH]; [by split|]. rewrite Forall_cons. by rewrite <- IH.
Qed.
Lemma readable_object l : readable (Object l) ↔ Forall (λ nd, Forall plain_char nd.1 ∧ readable nd.2) l.
Proof.
  cbn. induction l as [|[n d] l IH]; [by split|]. rewrite Forall_cons, <- IH. cbn. tauto.
Qed.

Lemma children_foldl par l : children (foldl addChild par l) = children par ++ l.
Proof.
  revert par. induction l as [|e l IH]; intros par; cbn [foldl]; [by rewrite app_nil_r|]. rewrite IH. cbn. by rewrite <- app_assoc.
Qed.
Lemma type_foldl par l : type (foldl addChild par l) = type par.
Proof. revert par. induction l as [|e l IH]; intros par; [done|]. cbn [foldl]. by rewrite IH. Qed.
Lemma type_element n d : type (element n d) = match d with Text _ => JSON_STRING | Number _ => JSON_NUMBER | Truth _ => JSON_BOOL | Array _ => JSON_ARRAY | Object _ => JSON_OBJECT end.
Proof. destruct d; cbn [element]; rewrite ?type_foldl; done. Qed.
Lemma name_foldl par l : name (foldl addChild par l) = name par.
Proof. revert par. induction l as [|e l IH]; intros par; [done|]. cbn [foldl]. by rewrite IH. Qed.
Lemma name_element n d : name (element n d) = n.
Proof. destruct d; cbn [element]; rewrite ?name_foldl; done. Qed.

(** The text of a child. *)
Definition child_text (c : JSONElement) : bytes :=
  if is_container (type c) then toString c else if type c =? JSON_STRING then quoted (value c) else value c.
Lemma toString_items e :
  toString e =
  (if type e =? JSON_OBJECT then [123] else [91]) ++
  join (str ", ") (map (λ c, (if type e =? JSON_OBJECT then quoted (name c) ++ [58] else []) ++ child_text c) (children e)) ++
  (if type e =? JSON_OBJECT then [125] else [93]).
Proof.
  destruct e as [t n v l m]. cbn [toString type children]. f_equal. f_equal.
  induction l as [|c l IH]; [done|]. cbn [map]. fold (child_text c).
  destruct l as [|c' l]; [cbn [map join]; by rewrite app_nil_r|]. rewrite join_cons by done. rewrite IH. by rewrite <- app_assoc.
Qed.

Lemma print_element n d : child_text (element n d) = print d.
Proof.
  revert n. induction d as [s|x|b|l IH|l IH] using json_nested_ind; intros n; try done.
  - unfold child_text. rewrite type_element. cbn [is_container]. rewrite toString_items, type_element.
    change (is_container JSON_ARRAY) with true. change (JSON_ARRAY =? JSON_OBJECT) with false. cbn [print]. f_equal. f_equal. f_equal.
    cbn [element]. rewrite children_foldl. cbn [children app]. rewrite map_map. apply map_ext_Forall. eapply Forall_impl; [exact IH|]. cbn. auto.
  - unfold child_text. rewrite type_element. rewrite toString_items, type_element.
    change (is_container JSON_OBJECT) with true. change (JSON_OBJECT =? JSON_OBJECT) with true. cbn [print]. f_equal. f_equal. f_equal.
    cbn [element]. rewrite children_foldl. cbn [children app]. rewrite map_map. apply map_ext_Forall. eapply Forall_impl; [exact IH|].
    intros [m d] H. cbn in *. rewrite name_element, H. by rewrite <- app_assoc.
Qed.
Lemma print_container n d : scalar d = false → toString (element n d) = print d.
Proof. intros H. rewrite <- (print_element n). unfold child_text. rewrite type_element. by destruct d. Qed.

(** ** Brackets *)

Section brackets.
Variables o c : Z.
Hypothesis Hoc : o ≠ c.

Definition height (s : bytes) : Z := occ o s - occ c s.
Definition nested (s : bytes) : Prop := height s = 0 ∧ ∀ p q, s = p ++ q → 0 ≤ height p.

Lemma height_app a b : height (a ++ b) = height a + height b.
Proof. unfold height. rewrite !occ_app. lia. Qed.
Lemma height_plain s : o ∉ s → c ∉ s → height s = 0.
Proof. intros Ho Hc. unfold height. by rewrite !occ_absent. Qed.
Lemma nested_plain s : o ∉ s → c ∉ s → nested s.
Proof.
  intros Ho Hc. split; [by apply height_plain|]. intros p q ->. rewrite not_elem_of_app in Ho, Hc. by rewrite height_plain by tauto.
Qed.
Lemma nested_app a b : nested a → nested b → nested (a ++ b).
Proof.
  intros [Ha Pa] [Hb Pb]. split; [rewrite height_app; lia|]. intros p q E.
  apply app_eq_app in E as [k [[-> ->]|[-> ->]]]; [by apply (Pa p k)|]. rewrite height_app, Ha. by apply (Pb k q).
Qed.
Lemma nested_join d l : nested d → Forall nested l → nested (join d l).
Proof.
  intros Hd H. induction H as [|a l Ha H IH]; [by apply nested_plain; apply not_elem_of_nil|]. destruct l as [|b l]; [done|].
  rewrite join_cons by done. by repeat apply nested_app.
Qed.
Lemma height_open : height [o] = 1.
Proof. unfold height. cbn [occ]. rewrite Z.eqb_refl. by destruct (Z.eqb_spec o c). Qed.
Lemma height_close : height [c] = -1.
Proof. unfold height. cbn [occ]. rewrite Z.eqb_refl. by destruct (Z.eqb_spec c o). Qed.
Lemma wrap_prefix s p q : nested s → [o] ++ s ++ [c] = p ++ q → p ≠ [] → q ≠ [] → 0 < height p.
Proof.
  intros [Hs Ps] E Hp Hq. destruct p as [|x p]; [done|]. injection E as Ex E. subst x.
  destruct (exists_last Hq) as (q' & y & ->). rewrite app_assoc in E. apply app_inj_2 in E as [-> _]; [|done].
  change (o :: p) with ([o] ++ p). rewrite height_app, height_open. specialize (Ps p q' eq_refl). lia.
Qed.
Lemma height_wrap s : nested s → height ([o] ++ s ++ [c]) = 0.
Proof. intros [Hs _]. rewrite !height_app, height_open, height_close, Hs. lia. Qed.
Lemma nested_wrap s : nested s → nested ([o] ++ s ++ [c]).
Proof.
  intros Hs. split; [by apply height_wrap|]. intros p q E.
  destruct (decide (p = [])) as [->|Hp]; [done|]. destruct (decide (q = [])) as [->|Hq].
  - rewrite app_nil_r in E. subst p. by rewrite height_wrap.
  - pose proof (wrap_prefix s p q Hs E Hp Hq). lia.
Qed.
End brackets.

(** The text of a document is nested for both kinds of brackets. *)
Abbreviation nested_for a := (nested (open_of a) (close_of a)).
Lemma open_close a : open_of a ≠ close_of a.
Proof. by destruct a. Qed.

Lemma plain_not a s : Forall plain_char s → (open_of a ∉ s) ∧ (close_of a ∉ s).
Proof.
  intros H. rewrite Forall_forall in H. split; intros E; apply H in E; apply E; destruct a; by apply (bool_decide_unpack _); vm_compute.
Qed.
Lemma nested_text a s : Forall plain_char s → nested_for a s.
Proof. intros H. destruct (plain_not a s H). by apply nested_plain. Qed.
Lemma nested_quoted a s : Forall plain_char s → nested_for a (quoted s).
Proof.
  intros H. unfold quoted. apply nested_app; [|apply nested_app; [by apply nested_text|]];
    apply nested_plain; destruct a; by apply (bool_decide_unpack _); vm_compute.
Qed.

Lemma number_digits n : 0 ≤ n < 2 ^ 64 → fromNumber n ≠ [] ∧ Forall digit_ok (fromNumber n) ∧ fromNumber n = print_number 10 n.
Proof. intros H. unfold fromNumber. rewrite wrapu_small by done. by destruct (print_decimal n H) as (? & ? & _). Qed.
Lemma digits_not c s : Forall digit_ok s → ¬ digit_ok c → c ∉ s.
Proof. intros H Hc E. rewrite Forall_forall in H. by apply Hc, H. Qed.

Lemma print_nested a d : readable d → nested_for a (print d).
Proof.
  pose proof (open_close a) as Hoc.
  induction d as [s|n|b|l IH|l IH] using json_nested_ind; intros Hd; cbn [print].
  - by apply nested_quoted.
  - destruct (number_digits n Hd) as (_ & H & _). apply nested_plain; apply digits_not; try done; unfold digit_ok; destruct a; cbn; lia.
  - apply nested_plain; destruct a, b; by apply (bool_decide_unpack _); vm_compute.
  - apply readable_array in Hd as [_ Hd].
    assert (nested_for a (join (str ", ") (map print l))) as Hj.
    { apply nested_join; [apply nested_plain; destruct a; by apply (bool_decide_unpack _); vm_compute|].
      apply Forall_fmap. unfold compose. rewrite Forall_forall in *. auto. }
    destruct a; [by apply nested_wrap|].
    repeat apply nested_app; try done; apply nested_plain; by apply (bool_decide_unpack _); vm_compute.
  - apply readable_object in Hd.
    assert (nested_for a (join (str ", ") (map (λ nd, quoted nd.1 ++ [58] ++ print nd.2) l))) as Hj.
    { apply nested_join; [apply nested_plain; destruct a; by apply (bool_decide_unpack _); vm_compute|].
      apply Forall_fmap. unfold compose. rewrite Forall_forall in *. intros [m d] Hin. destruct (Hd _ Hin) as [Hm Hr].
      apply nested_app; [by apply nested_quoted|]. apply nested_app; [|by apply (IH (m, d))].
      apply nested_plain; destruct a; by apply (bool_decide_unpack _); vm_compute. }
    destruct a; [|by apply nested_wrap].
    repeat apply nested_app; try done; apply nested_plain; by apply (bool_decide_unpack _); vm_compute.
Qed.

Lemma substr_window (pre t rest : bytes) (n : nat) z :
  (n ≤ length t)%nat → z = Z.of_nat n → substr (pre ++ t ++ rest) (Z.of_nat (length pre)) z = Ret (take n t).
Proof.
  intros Hn ->. unfold substr, slen. rewrite !length_app. destruct (Z.ltb_spec (Z.of_nat (length pre + (length t + length rest))) (Z.of_nat (length pre))); [lia|].
  rewrite Nat2Z.id, drop_app_length.
  rewrite take_app_le by lia. do 2 f_equal. lia.
Qed.

Lemma sfind_from_char c s pos k :
  (pos ≤ k)%nat → s !! k = Some c → ∃ i, sfind_from [c] s pos = Some i ∧ (pos ≤ i ≤ k)%nat ∧ s !! i = Some c.
Proof.
  intros Hp Hk. unfold sfind_from. pose proof (lookup_lt_Some _ _ _ Hk). destruct (Nat.leb_spec pos (length s)); [|lia].
  assert (drop pos s !! (k - pos)%nat = Some c) as Hd by (rewrite lookup_drop; by replace (pos + (k - pos))%nat with k by lia).
  destruct (sfind [c] (drop pos s)) as [i|] eqn:E.
  - destruct (sfind_char_Some _ _ _ E) as [Es Hn]. exists (pos + i)%nat. split; [done|].
    pose proof (sfind_bound _ _ _ E) as Hb. cbn [length] in Hb. assert (length (take i (drop pos s)) = i) as Hi by (rewrite length_take; lia).
    split.
    + split; [lia|]. destruct (decide (k - pos < i)%nat) as [Hlt|]; [|lia]. exfalso. apply Hn.
      apply (list_elem_of_lookup_2 _ (k - pos)). by rewrite lookup_take_lt.
    + rewrite <- lookup_drop, Es. rewrite lookup_app_r by lia. by rewrite Hi, Nat.sub_diag.
  - apply sfind_char_None in E. exfalso. apply E. by eapply list_elem_of_lookup_2.
Qed.

(** Finding the bracket that closes a container. *)
Lemma balance_closes a fuel pre s rest e :
  nested_for a s → let t := [open_of a] ++ s ++ [close_of a] in
  (length pre ≤ e < length pre + length t)%nat → (pre ++ t ++ rest) !! e = Some (close_of a) →
  (length pre + length t - e < fuel)%nat → slen (pre ++ t ++ rest) < 2 ^ 31 →
  balance fuel a (pre ++ t ++ rest) (length pre) e = Ret (length pre + length t - 1)%nat.
Proof.
  intros Hs t. revert e. induction fuel as [|fuel IH]; intros e He Hat Hf Hlen; [lia|]. cbn [balance].
  rewrite (substr_window pre t rest (S e - length pre)) by lia.
  rewrite bind_Ret_l.
  assert (slen (take (S e - length pre) t) < 2 ^ 31) as Hl2.
  { unfold slen in *. rewrite !length_app in *. rewrite length_take. lia. }
  rewrite !countOccurrences_char, !bind_Ret_l by done. set (p := take (S e - length pre) t).
  destruct (decide (S e - length pre = length t)%nat) as [El|El].
  - assert (p = t) as -> by (unfold p; by rewrite El, firstn_all). pose proof (height_wrap _ _ (open_close a) s Hs) as Hh. fold t in Hh.
    unfold height in Hh. replace (_ =? _) with true by lia. f_equal. lia.
  - assert (0 < height (open_of a) (close_of a) p) as Hh.
    { apply (wrap_prefix _ _ (open_close a) s p (drop (S e - length pre) t) Hs); [fold t; unfold p; by rewrite take_drop| |];
        intros E; apply (f_equal length) in E; unfold p in E; rewrite ?length_take, ?length_drop in E; cbn [length] in E; lia. }
    unfold height in Hh. replace (_ =? _) with false by lia.
    destruct (sfind_from_char (close_of a) (pre ++ t ++ rest) (S e) (length pre + length t - 1)) as (e' & -> & He' & Hat'); [lia| |].
    + unfold t. rewrite !length_app. cbn [length]. rewrite lookup_app_r by lia. rewrite <- !app_assoc, lookup_app_r by (cbn; lia).
      cbn [length]. rewrite lookup_app_r by lia. replace (_ - _)%nat with 0%nat by lia. done.
    + apply IH; [lia|done|lia|done].
Qed.

(** A container at some position is cut out. *)
Lemma cut_container a pre s rest :
  nested_for a s → close_of a ∉ pre → slen (pre ++ ([open_of a] ++ s ++ [close_of a]) ++ rest) < 2 ^ 31 →
  readBalancedJSON a (length pre) (pre ++ ([open_of a] ++ s ++ [close_of a]) ++ rest) = Ret ([open_of a] ++ s ++ [close_of a], rest).
Proof.
  intros Hs Hp Hlen. unfold readBalancedJSON. set (t := [open_of a] ++ s ++ [close_of a]) in *.
  assert ((pre ++ t ++ rest) !! (length pre + length t - 1)%nat = Some (close_of a)) as Hat.
  { unfold t. rewrite !length_app. cbn [length]. rewrite lookup_app_r by lia. rewrite <- !app_assoc, lookup_app_r by (cbn; lia).
    cbn [length]. rewrite lookup_app_r by lia. replace (_ - _)%nat with 0%nat by lia. done. }
  assert ((2 ≤ length t)%nat) as Ht by (unfold t; rewrite !length_app; cbn; lia).
  destruct (sfind_from_char (close_of a) (pre ++ t ++ rest) (length pre) (length pre + length t - 1)) as (e & -> & He & Hate); [lia|done|].
  rewrite (balance_closes a _ pre s rest e Hs), bind_Ret_l by (fold t; rewrite ?length_app in *; done || lia).
  fold t. rewrite (substr_window pre t rest (length t)) by lia. rewrite bind_Ret_l, firstn_all. do 2 f_equal.
  replace (S (length pre + length t - 1)) with (length pre + length t)%nat by lia. rewrite <- drop_drop, !drop_app_length. done.
Qed.

(** ** Texts without white space at their ends *)

Definition tight (s : bytes) : Prop := (∃ c, head s = Some c ∧ ¬ ws c) ∧ ∃ d, last s = Some d ∧ ¬ ws d.

Lemma tight_nonempty s : tight s → s ≠ [].
Proof. by intros ((c & H & _) & _) ->. Qed.
Lemma trim_tight s : tight s → trim s = s.
Proof. intros ((c & Hc & Hw) & d & Hd & Hw'). destruct s as [|x s]; [done|]. injection Hc as ->. by apply (trim_id c _ d). Qed.
Lemma tight_app a m b : tight a → tight b → tight (a ++ m ++ b).
Proof.
  intros ((c & Hc & Hw) & _) (_ & d & Hd & Hw'). split.
  - exists c. split; [|done]. by destruct a.
  - exists d. split; [|done]. rewrite app_assoc, last_app. by rewrite Hd.
Qed.
Lemma trim_space s : tight s → trim ([32] ++ s) = s.
Proof.
  intros ((c & Hc & Hw) & d & Hd & Hw'). unfold trim, find_first_not_of, find_last_not_of. set (f := λ c, negb (memb c whitespaces)).
  assert (∀ x, ¬ ws x → f x = true) as Hf by (intros x Hx; unfold f; apply negb_true_iff, not_true_is_false; by rewrite memb_spec).
  destruct s as [|x s]; [done|]. injection Hc as ->. assert (find_first f ([32] ++ c :: s) = Some 1%nat) as ->.
  { cbn [app find_first]. change (f 32) with false. cbn [fmap option_fmap option_map]. by rewrite Hf. }
  apply last_Some in Hd as [m E]. rewrite E, app_assoc, (find_last_app f _ d []) by (constructor || auto).
  rewrite <- app_assoc. cbn [app drop]. rewrite take_ge by (rewrite drop_0, !length_app; cbn [length]; lia). done.
Qed.
Lemma tight_join l : l ≠ [] → Forall tight l → tight (join (str ", ") l).
Proof.
  intros Hl H. induction H as [|t l Ht H IH]; [done|]. destruct l as [|u l]; [done|]. rewrite join_cons by done. by apply tight_app, IH.
Qed.
Lemma tight_all s : s ≠ [] → Forall (λ c, ¬ ws c) s → tight s.
Proof.
  intros Hs H. rewrite Forall_forall in H. split.
  - destruct s as [|c s]; [done|]. exists c. split; [done|]. apply H. by left.
  - destruct (last s) as [d|] eqn:E; [|by apply last_None in E]. exists d. split; [done|]. apply H. apply last_Some in E as [m ->].
    rewrite elem_of_app. right. by left.
Qed.
Lemma tight_single_l c m d : ¬ ws c → ¬ ws d → tight ([c] ++ m ++ [d]).
Proof. intros Hc Hd. apply tight_app; (apply tight_all; [done|by constructor]). Qed.

Lemma digit_not_space c : digit_ok c → ¬ ws c.
Proof. unfold digit_ok, ws, whitespaces. intros H. rewrite !elem_of_cons, elem_of_nil. intros E. repeat destruct E as [->|E]; lia. Qed.

Lemma print_tight d : readable d → tight (print d).
Proof.
  intros Hd. destruct d as [s|n|b|l|l]; cbn [print].
  - apply tight_single_l; by apply (bool_decide_unpack _); vm_compute.
  - destruct (number_digits n Hd) as (Hne & H & _). apply tight_all; [done|]. eapply Forall_impl; [exact H|]. apply digit_not_space.
  - destruct b; (split; eexists; (split; [reflexivity|]); by apply (bool_decide_unpack _); vm_compute).
  - apply tight_single_l; by apply (bool_decide_unpack _); vm_compute.
  - apply tight_single_l; by apply (bool_decide_unpack _); vm_compute.
Qed.
Lemma member_tight n d : readable d → tight (quoted n ++ [58] ++ print d).
Proof. intros Hd. apply tight_app; [|by apply print_tight]. apply tight_single_l; by apply (bool_decide_unpack _); vm_compute. Qed.

(** ** What is cut off *)

Definition kind (d : json) : bool := match d with Array _ => true | _ => false end.
Lemma print_shape d : readable d → scalar d = false → ∃ s, print d = [open_of (kind d)] ++ s ++ [close_of (kind d)] ∧ nested_for (kind d) s.
Proof.
  intros Hd Hs. destruct d as [| | |l|l]; try done; cbn [print kind open_of close_of]; eexists; (split; [reflexivity|]).
  - apply readable_array in Hd as [_ Hd]. apply nested_join; [apply nested_plain; by apply (bool_decide_unpack _); vm_compute|].
    apply Forall_fmap. eapply Forall_impl; [exact Hd|]. intros d. apply (print_nested true).
  - apply readable_object in Hd. apply nested_join; [apply nested_plain; by apply (bool_decide_unpack _); vm_compute|].
    apply Forall_fmap. eapply Forall_impl; [exact Hd|]. intros [n d] [Hn Hr]. apply nested_app; [by apply (nested_quoted false)|].
    apply nested_app; [apply nested_plain; by apply (bool_decide_unpack _); vm_compute|by apply (print_nested false)].
Qed.

Definition type_of (d : json) : Z := if kind d then JSON_ARRAY else JSON_OBJECT.

Lemma cut_first d rest : readable d → scalar d = false → slen (print d ++ rest) < 2 ^ 31 →
  cut_value (print d ++ rest) = Ret (print d, rest, type_of d).
Proof.
  intros Hd Hs Hl. destruct (print_shape d Hd Hs) as (s & E & Hn). unfold type_of.
  pose proof (cut_container (kind d) [] s rest Hn) as Hc. rewrite <- E in Hc. cbn [app length] in Hc. specialize (Hc (not_elem_of_nil _) Hl).
  unfold cut_value. destruct (kind d) eqn:Ek.
  - assert (sfind [91] (print d ++ rest) = Some 0%nat) as -> by (by rewrite E).
    assert (sfind [123] (print d ++ rest) ≠ Some 0%nat) as Ho.
    { rewrite E. cbn [open_of app sfind prefixb]. change ((123 =? 91) && true) with false. cbn iota. by destruct (sfind _ _). }
    destruct (sfind [123] (print d ++ rest)) as [[|k]|]; [done| |]; by rewrite Hc, bind_Ret_l.
  - assert (sfind [123] (print d ++ rest) = Some 0%nat) as -> by (by rewrite E). by rewrite Hc, bind_Ret_l.
Qed.

Lemma sfind_skip c pre x s : c ∉ pre → c ≠ x → sfind [c] (pre ++ x :: s) = (λ i, S (length pre + i)) <$> sfind [c] s.
Proof.
  intros Hp Hx. replace (pre ++ x :: s) with ((pre ++ [x]) ++ s) by (by rewrite <- app_assoc).
  rewrite sfind_absent.
  - rewrite length_app. cbn [length]. destruct (sfind [c] s); [|done]. cbn. f_equal. lia.
  - apply absent_first, Forall_forall. intros y Hy ->. apply elem_of_app in Hy as [?|[?|[]%elem_of_nil]%elem_of_cons]; done.
Qed.

Lemma cut_next d rest : readable d → scalar d = false → slen (str ", " ++ print d ++ rest) < 2 ^ 31 →
  cut_value (str ", " ++ print d ++ rest) = Ret (print d, rest, type_of d).
Proof.
  intros Hd Hs Hl. destruct (print_shape d Hd Hs) as (s & E & Hn). unfold type_of.
  assert (close_of (kind d) ∉ str ", ") as Hp by (destruct (kind d); by apply (bool_decide_unpack _); vm_compute).
  pose proof (cut_container (kind d) (str ", ") s rest Hn Hp) as Hc. rewrite <- E in Hc. specialize (Hc Hl).
  change (length (str ", ")) with 2%nat in Hc.
  unfold cut_value. change (sfind [44] (str ", " ++ print d ++ rest)) with (Some 0%nat).
  assert (∀ c o, print d = o :: tail (print d) → c ≠ o → c ∉ str ", " →
            sfind [c] (str ", " ++ print d ++ rest) = (λ i, S (2 + i)) <$> sfind [c] (tail (print d) ++ rest)) as Hskip.
  { intros c o Eo Hco Hcs. rewrite Eo at 1. change ((o :: tail (print d)) ++ rest) with (o :: tail (print d) ++ rest). by rewrite sfind_skip. }
  destruct (kind d) eqn:Ek.
  - assert (sfind [91] (str ", " ++ print d ++ rest) = Some 2%nat) as -> by (by rewrite E).
    rewrite (Hskip 123 91); [|by rewrite E|done|by apply (bool_decide_unpack _); vm_compute].
    revert Hc. generalize (str ", " ++ print d ++ rest). intros J Hc. destruct (sfind [123] _) as [k|]; cbn; by rewrite Hc, bind_Ret_l.
  - assert (sfind [123] (str ", " ++ print d ++ rest) = Some 2%nat) as -> by (by rewrite E).
    rewrite (Hskip 91 123); [|by rewrite E|done|by apply (bool_decide_unpack _); vm_compute].
    revert Hc. generalize (str ", " ++ print d ++ rest). intros J Hc. destruct (sfind [91] _) as [k|]; cbn; by rewrite Hc, bind_Ret_l.
Qed.

(** A text of a scalar. *)
Definition simple (v : bytes) : Prop := v ≠ [] ∧ (44 ∉ v) ∧ (123 ∉ v) ∧ (91 ∉ v).
Lemma cut_scalar v rest : simple v → cut_value (v ++ [44] ++ rest) = Ret (v, rest, JSON_STRING).
Proof.
  intros (Hne & H1 & H2 & H3). unfold cut_value. change ([44] ++ rest) with (44 :: rest).
  rewrite sfind_char_app, !sfind_skip by done. rewrite take_app_length.
  replace (drop (S (length v)) (v ++ 44 :: rest)) with rest.
  2:{ rewrite <- Nat.add_1_r, <- drop_drop, drop_app_length. done. }
  assert (length v ≠ 0%nat) by (by destruct v).
  assert ((length v =? 0)%nat = false) as E0 by (by apply Nat.eqb_neq).
  assert (∀ i, (S (length v + i) <? length v)%nat = false) as El by (intros i; apply Nat.ltb_ge; lia).
  destruct (sfind [123] rest) as [i|], (sfind [91] rest) as [j|]; cbn [fmap option_fmap option_map]; rewrite ?E0, ?El; done.
Qed.
Lemma cut_last v : simple v → cut_value v = Ret (v, [], JSON_STRING).
Proof.
  intros (Hne & H1 & H2 & H3). unfold cut_value. by rewrite !(proj2 (sfind_char_None _ _)) by done.
Qed.

(** ** Scalars *)

Lemma quote_at_plain prev s rest : 34 ∉ s → 92 ∉ s → prev ≠ 92 → quote_at prev (s ++ 34 :: rest) = Some (length s).
Proof.
  revert prev. induction s as [|c s IH]; intros prev H1 H2 Hp; cbn [app quote_at length].
  - change (34 =? 34) with true. by destruct (Z.eqb_spec prev 92).
  - apply not_elem_of_cons in H1 as [H1 H1'], H2 as [H2 H2']. destruct (Z.eqb_spec c 34); [done|]. cbn [andb]. by rewrite IH.
Qed.

Lemma plain_text s : Forall plain_char s → (34 ∉ s) ∧ (92 ∉ s) ∧ (44 ∉ s) ∧ (123 ∉ s) ∧ (91 ∉ s).
Proof.
  intros H. rewrite Forall_forall in H. split_and!; intros E; apply H in E; apply E; by apply (bool_decide_unpack _); vm_compute.
Qed.

Lemma toULonglong_print n : 0 ≤ n < 2 ^ 64 → toULonglong (fromNumber n) = Ret n.
Proof.
  intros Hn. destruct (number_digits n Hn) as (Hne & Hd & E). unfold toULonglong, scan_number. rewrite E in *.
  destruct (print_number_digits 10 n ltac:(lia) Hn) as (_ & Hds & Hv).
  assert (c_string (print_number 10 n) = print_number 10 n) as ->.
  { clear -Hd. induction Hd as [|c s Hc Hs IH]; [done|]. cbn [c_string]. unfold digit_ok in Hc. replace (c =? 0) with false by lia. by rewrite IH. }
  destruct (print_number 10 n) as [|c ds] eqn:Ep; [done|]. apply Forall_inv in Hd as Hc. apply Forall_inv in Hds as [Hcv _]. unfold digit_ok in Hc.
  cbn [skip_while]. unfold isspace. replace ((c =? 32) || ((9 <=? c) && (c <=? 13))) with false by lia.
  replace (c =? 45) with false by lia. replace (c =? 43) with false by lia. cbv zeta. rewrite Hcv.
  assert (read_digits 10 (c :: ds) 0 = n) as ->.
  { apply (digits_of_read 10 n). split; [done|]. rewrite <- Ep. destruct (print_number_digits 10 n ltac:(lia) Hn) as (_ & ? & ?). by split. }
  replace ((- (2 ^ 64 - 1) <=? n) && (n <=? 2 ^ 64 - 1)) with true by lia. rewrite bind_Ret_l. by rewrite wrapu_small.
Qed.

Lemma simple_scalar d : readable d → scalar d = true → simple (print d).
Proof.
  intros Hd Hs. unfold simple. destruct d as [s|n|b|l|l]; try done; cbn [print].
  - destruct (plain_text s Hd) as (_ & _ & H1 & H2 & H3). unfold quoted. rewrite !elem_of_app, !elem_of_cons, !elem_of_nil. naive_solver.
  - destruct (number_digits n Hd) as (Hne & H & _). split_and!; [done|..]; apply digits_not; try done; unfold digit_ok; lia.
  - destruct b; by apply (bool_decide_unpack _); vm_compute.
Qed.

Section roundtrip.
Variable strtod : bytes → Z.

Lemma validate_scalar n d : readable d → scalar d = true → validateSetValue strtod (print d) (mkJ JSON_STRING n [] [] []) = Ret (element n d).
Proof.
  intros Hd Hs. unfold validateSetValue. rewrite trim_tight by (by apply print_tight). destruct d as [s|x|b|l|l]; try done; cbn [print element].
  - destruct (plain_text s Hd) as (H1 & H2 & _). unfold quoted. change (memb 34 ([34] ++ s ++ [34])) with true. cbn iota.
    change (quote_at 0 ([34] ++ s ++ [34])) with (Some 0%nat). cbn iota. change (drop 1 ([34] ++ s ++ [34])) with (s ++ 34 :: []).
    rewrite quote_at_plain by done. rewrite take_app_length. rewrite !length_app. cbn [length].
    destruct (Nat.eqb_spec (1 + length s) (1 + (length s + 1) - 1)); [done|lia].
  - destruct (number_digits x Hd) as (Hne & Hdig & _).
    assert (∀ c, ¬ digit_ok c → memb c (fromNumber x) = false) as Hm.
    { intros c Hc. apply not_true_iff_false. rewrite memb_spec. by apply digits_not. }
    rewrite !Hm by (unfold digit_ok; lia).
    assert (∀ w c, head w = Some c → ¬ digit_ok c → toLower (fromNumber x) ≠ w) as Hl.
    { intros w c Hw Hc E. apply Hc. destruct (fromNumber x) as [|y t]; [done|]. subst w. cbn in Hw. injection Hw as <-.
      apply Forall_inv in Hdig. unfold lower, digit_ok in *. case_match; lia. }
    rewrite !bool_decide_false; [|by apply (Hl _ 102); [done|unfold digit_ok; lia]|by apply (Hl _ 116); [done|unfold digit_ok; lia]].
    cbn [orb]. rewrite toULonglong_print by done. reflexivity.
  - by destruct b.
Qed.
(** What is left of a list of items, and what is in front of it: nothing at first, a space
    behind a scalar, a comma and a space behind a container. *)
Definition left_of (pre : bytes) (l : list bytes) : bytes := match l with [] => [] | _ => pre ++ join (str ", ") l end.
Inductive lead : bytes → Prop := lead_none : lead [] | lead_space : lead [32] | lead_comma : lead (str ", ").

Lemma left_of_nil pre l : left_of pre l = [] → l = [] ∨ pre = [].
Proof. destruct l as [|t l]; [by left|]. destruct pre; [by right|done]. Qed.
Lemma join_left t l : join (str ", ") (t :: l) = t ++ left_of (str ", ") l.
Proof. destruct l as [|u l]; [cbn; by rewrite app_nil_r|]. by rewrite join_cons. Qed.
Lemma left_comma l : left_of (str ", ") l = match l with [] => [] | _ => [44] ++ left_of [32] l end.
Proof. by destruct l. Qed.

(** The step of the parser on one item, given what its two first lines do. *)
Lemma readJSON_item fuel (json : bytes) (isarray : bool) par (n j v j2 : bytes) t e :
  json ≠ [] → (if isarray then Ret ([], json) else read_name json) = Ret (n, j) →
  cut_value (trim j) = Ret (v, j2, t) → v ≠ [] →
  (if is_container t then contents strtod fuel (t =? JSON_ARRAY) v (mkJ t n [] [] []) else validateSetValue strtod v (mkJ t n [] [] [])) = Ret e →
  readJSON strtod (S fuel) json isarray par = readJSON strtod fuel j2 isarray (addChild par e).
Proof.
  intros Hne Hn Hc Hv He. cbn [readJSON]. rewrite bool_decide_false by done. rewrite Hn, bind_Ret_l, Hc, bind_Ret_l.
  rewrite bool_decide_false by done. by rewrite He, bind_Ret_l.
Qed.

(** The value of an item: cut off in front of what is left, and read. *)
Definition reads (d : json) : Prop := readable d → ∀ fuel n, scalar d = false → (2 * length (print d) + 1 ≤ fuel)%nat → slen (print d) < 2 ^ 31 →
  contents strtod fuel (kind d) (print d) (mkJ (type_of d) n [] [] []) = Ret (element n d).
Lemma left_tight d l : readable d → Forall readable l → tight (print d ++ left_of (str ", ") (map print l)).
Proof.
  intros Hd Hl. rewrite <- join_left. apply (tight_join (map print (d :: l))); [done|]. apply Forall_fmap.
  eapply Forall_impl; [by constructor|]. apply print_tight.
Qed.
Lemma trim_lead pre s : lead pre → tight s → trim (pre ++ s) = (if bool_decide (pre = [32]) then s else pre ++ s).
Proof.
  intros [] Hs; [by apply trim_tight|by apply trim_space|]. rewrite trim_tight; [done|]. destruct Hs as [_ (x & Hx & Hw)]. split.
  - exists 44. split; [done|]. by apply (bool_decide_unpack _); vm_compute.
  - exists x. split; [|done]. by rewrite last_app, Hx.
Qed.

Lemma item_value d n fuel pre l :
  reads d → readable d → lead pre → (pre = str ", " → scalar d = false) → tight (print d ++ left_of (str ", ") l) →
  slen (pre ++ print d ++ left_of (str ", ") l) < 2 ^ 31 → (2 * length (print d) + 1 ≤ fuel)%nat →
  ∃ t, cut_value (trim (pre ++ print d ++ left_of (str ", ") l)) = Ret (print d, left_of (if scalar d then [32] else str ", ") l, t) ∧
    (if is_container t then contents strtod fuel (t =? JSON_ARRAY) (print d) (mkJ t n [] [] []) else validateSetValue strtod (print d) (mkJ t n [] [] [])) = Ret (element n d).
Proof.
  intros Hr Hd Hpre Hs Ht Hl Hf. rewrite trim_lead by done.
  assert (slen (print d ++ left_of (str ", ") l) < 2 ^ 31) as Hl2 by (rewrite slen_app in Hl; pose proof (slen_nonneg pre); lia).
  destruct (scalar d) eqn:Es.
  - assert ((if bool_decide (pre = [32]) then print d ++ left_of (str ", ") l else pre ++ print d ++ left_of (str ", ") l) = print d ++ left_of (str ", ") l) as ->.
    { destruct Hpre; [done|done|]. by specialize (Hs eq_refl). }
    exists JSON_STRING. split; [|by apply validate_scalar]. pose proof (simple_scalar d Hd Es) as Hsim. rewrite left_comma.
    destruct l as [|t l]; [rewrite app_nil_r; by apply cut_last|by apply cut_scalar].
  - exists (type_of d). split; [destruct Hpre; [by apply cut_first|by apply cut_first|by apply cut_next]|].
    assert (slen (print d) < 2 ^ 31) as Hl3 by (rewrite slen_app in Hl2; pose proof (slen_nonneg (left_of (str ", ") l)); lia).
    specialize (Hr Hd fuel n Es Hf Hl3). unfold type_of in *. by destruct (kind d).
Qed.

Lemma left_shorter (b : bool) l : le (length (left_of (if b then [32] else str ", ") l)) (length (left_of (str ", ") l)).
Proof. destruct l as [|t l]; [done|]. cbn [left_of]. rewrite !length_app. destruct b; cbn; lia. Qed.

(** The items of an array. *)
Lemma array_items l : Forall reads l → Forall readable l → ∀ fuel pre par,
  lead pre → (if bool_decide (pre = str ", ") then forallb (λ d, negb (scalar d)) l else scalars_first l) = true →
  (2 * length (left_of pre (map print l)) + 2 ≤ fuel)%nat → slen (left_of pre (map print l)) < 2 ^ 31 →
  readJSON strtod fuel (left_of pre (map print l)) true par = Ret ([], foldl addChild par (map (element []) l)).
Proof.
  intros Hr Hd. induction l as [|d l IH]; intros fuel pre par Hpre Hs Hf Hlen; (destruct fuel as [|fuel]; [lia|]); [done|].
  apply Forall_cons in Hr as [Hr1 Hr2], Hd as [Hd1 Hd2]. cbn [map left_of] in *. rewrite join_left in *.
  pose proof (left_shorter (scalar d) (map print l)) as Hsh. pose proof (tight_nonempty _ (print_tight d Hd1)) as Hne.
  assert (0 < length (print d))%nat by (destruct (print d); [done|cbn; lia]).
  assert (pre = str ", " → scalar d = false) as Hps.
  { intros ->. rewrite bool_decide_true in Hs by done. apply andb_prop in Hs as [Hs _]. by apply negb_true_iff in Hs. }
  destruct (item_value d [] fuel pre (map print l) Hr1 Hd1 Hpre Hps (left_tight d l Hd1 Hd2) Hlen) as (t & Hc & Hv); [rewrite !length_app in Hf; lia|].
  rewrite (readJSON_item fuel _ true par [] _ _ _ t (element [] d) ltac:(by intros [_ [? _]%app_nil]%app_nil) eq_refl Hc Hne Hv).
  cbn [foldl map]. unfold slen in *. rewrite !length_app in Hf, Hlen.
  apply IH; [done|done|destruct (scalar d); constructor| |lia|lia].
  destruct Hpre; cbn [scalars_first forallb] in Hs; (destruct (scalar d) eqn:Es; [rewrite bool_decide_false in Hs |- *|]); done.
Qed.

(** The members of an object. *)
Definition member (nd : bytes * json) : bytes := quoted nd.1 ++ [58] ++ print nd.2.
Lemma read_member pre n rest : lead pre → Forall plain_char n → tight rest → read_name (pre ++ quoted n ++ [58] ++ rest) = Ret (n, rest).
Proof.
  intros Hpre Hn Ht. destruct (plain_text n Hn) as (H1 & H2 & _). unfold read_name.
  assert (quote_at 0 (pre ++ quoted n ++ [58] ++ rest) = Some (length pre)) as -> by (by destruct Hpre).
  assert (drop (S (length pre)) (pre ++ quoted n ++ [58] ++ rest) = n ++ 34 :: [58] ++ rest) as ->.
  { unfold quoted. rewrite <- Nat.add_1_r, <- drop_drop, drop_app_length. rewrite <- !app_assoc. done. }
  rewrite quote_at_plain by done. rewrite take_app_length.
  assert (drop (S (length n)) (n ++ 34 :: [58] ++ rest) = [58] ++ rest) as -> by (by rewrite <- Nat.add_1_r, <- drop_drop, drop_app_length).
  rewrite trim_tight; [done|]. destruct Ht as [_ (x & Hx & Hw)]. split; [exists 58; split; [done|by apply (bool_decide_unpack _); vm_compute]|].
  exists x. split; [|done]. by rewrite last_app, Hx.
Qed.

Lemma member_left_tight d l : readable d → Forall (λ nd, Forall plain_char nd.1 ∧ readable nd.2) l → tight (print d ++ left_of (str ", ") (map member l)).
Proof.
  intros Hd Hl. rewrite <- join_left. apply tight_join; [done|]. constructor; [by apply print_tight|]. apply Forall_fmap.
  eapply Forall_impl; [exact Hl|]. intros [n x] [_ Hx]. by apply member_tight.
Qed.

Lemma object_members l : Forall (λ nd, reads nd.2) l → Forall (λ nd, Forall plain_char nd.1 ∧ readable nd.2) l → ∀ fuel pre par,
  lead pre → (2 * length (left_of pre (map member l)) + 2 ≤ fuel)%nat → slen (left_of pre (map member l)) < 2 ^ 31 →
  readJSON strtod fuel (left_of pre (map member l)) false par = Ret ([], foldl addChild par (map (λ nd, element nd.1 nd.2) l)).
Proof.
  intros Hr Hd. induction l as [|[n d] l IH]; intros fuel pre par Hpre Hf Hlen; (destruct fuel as [|fuel]; [lia|]); [done|].
  apply Forall_cons in Hr as [Hr1 Hr2], Hd as [[Hn Hd1] Hd2]. cbn [map left_of fst snd] in *. rewrite join_left in *.
  change (member (n, d)) with (quoted n ++ [58] ++ print d) in *. rewrite <- !app_assoc in *.
  pose proof (left_shorter (scalar d) (map member l)) as Hsh. pose proof (tight_nonempty _ (print_tight d Hd1)) as Hne.
  pose proof (member_left_tight d l Hd1 Hd2) as Ht. unfold slen in Hlen. rewrite !length_app in Hf, Hlen. cbn [length] in Hf, Hlen.
  destruct (item_value d n fuel [] (map member l) Hr1 Hd1 lead_none ltac:(done) Ht) as (t & Hc & Hv); [unfold slen; cbn [Datatypes.app]; rewrite !length_app; lia|lia|].
  rewrite (readJSON_item fuel (pre ++ quoted n ++ [58] ++ print d ++ left_of (str ", ") (map member l)) false par n _ _ _ t (element n d) ltac:(by destruct pre) (read_member pre n _ Hpre Hn Ht) Hc Hne Hv).
  cbn [foldl map]. apply IH; [done|done|destruct (scalar d); constructor|lia|unfold slen; lia].
Qed.
End roundtrip.

Lemma strip_wrapped a s : strip a ([open_of a] ++ s ++ [close_of a]) = s.
Proof.
  unfold strip, replaceFirst. assert (sfind [open_of a] ([open_of a] ++ s ++ [close_of a]) = Some 0%nat) as -> by apply sfind_here.
  assert (sreplace ([open_of a] ++ s ++ [close_of a]) 0 (length [open_of a]) [] = s ++ [close_of a]) as -> by done.
  unfold replaceLast, find_last_of. rewrite (find_last_app _ s (close_of a) []); [|done|by rewrite memb_single, Z.eqb_refl].
  unfold sreplace. rewrite take_app_length. cbn [length]. rewrite drop_ge by (rewrite length_app; cbn; lia). by rewrite !app_nil_r.
Qed.
Lemma has_brackets_wrapped a s : has_brackets a ([open_of a] ++ s ++ [close_of a]) = true.
Proof. unfold has_brackets. rewrite andb_true_iff, !memb_spec, !elem_of_app, !elem_of_cons. naive_solver. Qed.

Lemma left_none l : left_of [] l = join (str ", ") l.
Proof. by destruct l. Qed.

Section documents.
Variable strtod : bytes → Z.

(** A container is read back. *)
Lemma container_reads d par fuel :
  readable d → scalar d = false → (match d with Array l => Forall (reads strtod) l | Object l => Forall (λ nd, reads strtod nd.2) l | _ => True end) →
  type par = type_of d → slen (print d) < 2 ^ 31 → (2 * length (print d) ≤ fuel)%nat →
  readJSON strtod fuel (strip (kind d) (print d)) (kind d) par =
    Ret ([], match d with
             | Array l => foldl addChild par (map (element []) l)
             | Object l => foldl addChild par (map (λ nd, element nd.1 nd.2) l)
             | _ => par
             end).
Proof.
  intros Hd Hs Hr Hp Hl Hf. destruct d as [| | |l|l]; try done; cbn [kind print] in *.
  - apply readable_array in Hd as [Hsc Hd]. rewrite (strip_wrapped true). rewrite <- left_none.
    rewrite <- left_none in Hl, Hf. rewrite !length_app in Hf. cbn [length] in Hf.
    apply array_items; [done|done|constructor|done|lia|]. rewrite !slen_app in Hl. change (slen [91]) with 1 in Hl. change (slen [93]) with 1 in Hl. lia.
  - apply readable_object in Hd. rewrite (strip_wrapped false). change (map (λ nd, quoted nd.1 ++ [58] ++ print nd.2) l) with (map member l) in *. rewrite <- left_none.
    rewrite <- left_none in Hl, Hf. rewrite !length_app in Hf. cbn [length] in Hf.
    apply object_members; [done|done|constructor|lia|]. rewrite !slen_app in Hl. change (slen [123]) with 1 in Hl. change (slen [125]) with 1 in Hl. lia.
Qed.

Lemma container_brackets d : readable d → scalar d = false → has_brackets (kind d) (print d) = true ∧ le 2 (length (print d)).
Proof.
  intros Hd Hs. destruct (print_shape d Hd Hs) as (s & -> & _). split; [apply has_brackets_wrapped|]. rewrite !length_app. cbn. lia.
Qed.

Lemma all_reads d : reads strtod d.
Proof.
  assert (∀ d, match d with Array l => Forall (reads strtod) l | Object l => Forall (λ nd, reads strtod nd.2) l | _ => True end → reads strtod d) as H.
  { intros x Hx Hd fuel n Hs Hf Hl. destruct fuel as [|fuel]; [lia|]. cbn [contents].
    destruct (container_brackets x Hd Hs) as [-> H2]. rewrite (container_reads x _ fuel Hd Hs Hx); [|by destruct x|done|lia].
    rewrite bind_Ret_l. destruct fuel as [|fuel]; [lia|]. by destruct x. }
  induction d as [s|n|b|l IH|l IH] using json_nested_ind; by apply H.
Qed.

Lemma find_int_sfind c s : slen s < 2 ^ 31 → find_int c s = match sfind [c] s with Some i => Z.of_nat i | None => -1 end.
Proof.
  intros H. unfold find_int. destruct (sfind [c] s) as [i|] eqn:E; [|done]. apply sfind_bound in E. cbn [length] in E.
  apply wraps_small; unfold slen in H; lia.
Qed.

Lemma document_roundtrip d :
  readable d → scalar d = false → slen (print d) < 2 ^ 31 → getDocument strtod (print d) = Ret (element JSON_ROOT d).
Proof.
  intros Hd Hs Hl. unfold getDocument. rewrite !find_int_sfind by done.
  destruct (container_brackets d Hd Hs) as [Hb _].
  pose proof (container_reads d (setType (if kind d then JSON_ARRAY else JSON_OBJECT) (mkJ JSON_OBJECT JSON_ROOT [] [] [])) (parse_fuel (print d)) Hd Hs) as Hr.
  assert (match d with Array l => Forall (reads strtod) l | Object l => Forall (λ nd, reads strtod nd.2) l | _ => True end) as Ha
    by (destruct d; try done; apply Forall_forall; intros; apply all_reads).
  specialize (Hr Ha ltac:(by destruct d) Hl ltac:(unfold parse_fuel; lia)).
  destruct d as [| | |l|l]; try done; cbn [kind] in *.
  - assert (sfind [91] (print (Array l)) = Some 0%nat) as -> by done.
    assert (has_brackets false (print (Array l)) &&
      (((match sfind [123] (print (Array l)) with Some i => Z.of_nat i | None => -1 end) <? Z.of_nat 0) || (Z.of_nat 0 =? -1)) = false) as ->.
    { destruct (sfind [123] (print (Array l))) as [i|] eqn:E.
      - apply andb_false_intro2. rewrite orb_false_r. apply Z.ltb_ge. lia.
      - apply sfind_char_None in E. apply andb_false_intro1. unfold has_brackets. apply andb_false_intro1, not_true_iff_false. by rewrite memb_spec. }
    rewrite Hb, Hr. done.
  - assert (sfind [123] (print (Object l)) = Some 0%nat) as -> by done. rewrite Hb. cbn [andb].
    assert (sfind [91] (print (Object l)) ≠ Some 0%nat) as Hn by (cbn [print Datatypes.app sfind prefixb]; change ((91 =? 123) && true) with false; cbn iota; by destruct (sfind _ _)).
    replace (_ || _) with true; [by rewrite Hr, bind_Ret_l|]. symmetry. destruct (sfind [91] _) as [[|k]|]; [done| |done].
    apply orb_true_iff. left. apply Z.ltb_lt. lia.
Qed.
End documents.

(** C26: JSON documents survive.  The text of a document of texts, whole numbers, booleans, arrays
    and objects, however deep, is parsed back to the same tree, when texts and names have no
    quotes, backslashes, commas and brackets in them, and no array has a scalar behind a
    container. *)
Theorem json_roundtrip strtod d :
  readable d → scalar d = false → slen (print d) < 2 ^ 31 →
  getDocument strtod (toString (element JSON_ROOT d)) = Ret (element JSON_ROOT d).
Proof. intros Hd Hs Hl. rewrite print_container by done. by apply document_roundtrip. Qed.

Definition sample_document : json :=
  Object [(str "name", Text (str "Alice")); (str "age", Number 42); (str "tags", Array [Text (str "a b"); Number 0; Array []; Object [(str "x", Truth false)]]);
          (str "last", Truth true)].
Lemma json_roundtrip_witness :
  readable sample_document ∧ getDocument no_strtod (toString (element JSON_ROOT sample_document)) = Ret (element JSON_ROOT sample_document).
Proof.
  assert (readable sample_document) as H.
  { cbn. repeat split; try lia; by apply (bool_decide_unpack _); vm_compute. }
  split; [exact H|]. apply json_roundtrip; [exact H|done|]. by vm_compute.
Defined.

(** C28: The parser ends on every text.  For a text below 2 GiB in which no twenty digits stand in a
    row, brackets not counted, it ends with a tree or an exception; a longer number may not
    fit 64 bits, and then the conversion of the C library is undefined. *)
Theorem json_parser_terminates strtod json :
  terminates (getDocument strtod json) ∧
  (slen json < 2 ^ 31 → short_numbers (unbracketed json) = true →
   (∃ e, getDocument strtod json = Ret e) ∨ ∃ x, getDocument strtod json = Throw x).
Proof.
  pose proof (getDocument_terminates strtod json) as H. split; [done|]. intros H1 H2. apply answers; [done|]. by apply getDocument_defined.
Qed.
Lemma json_parser_terminates_witness :
  ((∃ e, getDocument no_strtod (str "[1234567890123456789, {]}") = Ret e) ∨ ∃ x, getDocument no_strtod (str "[1234567890123456789, {]}") = Throw x) ∧
  getDocument no_strtod (str "[123456789012345678901]") = Undefined.
Proof.
  split; [|by vm_compute]. apply (proj2 (json_parser_terminates no_strtod (str "[1234567890123456789, {]}"))); by vm_compute.
Defined.

(** A value between two arrays in an array is skipped: the parser looks for the next bracket. *)
Definition between_arrays (v : bytes) : bytes := str "[[1], " ++ v ++ str ", [3]]".

Section lost.
Variable strtod : bytes → Z.

Definition arrays_1_3 : JSONElement := element JSON_ROOT (Array [Array [Number 1]; Array [Number 3]]).
Lemma lost_value v fuel :
  Forall plain_char v → slen (between_arrays v) < 2 ^ 31 → le 20 fuel →
  readJSON strtod fuel (str "[1], " ++ v ++ str ", [3]") true (mkJ JSON_ARRAY JSON_ROOT [] [] []) = Ret ([], arrays_1_3).
Proof.
  intros Hv Hl Hf. destruct fuel as [|[|[|fuel]]]; [lia..|]. destruct (plain_not true v Hv) as [Ho Hc], (plain_not false v Hv) as [Ho' _].
  assert (slen (str "[1], " ++ v ++ str ", [3]") < 2 ^ 31) as Hl2.
  { unfold between_arrays in Hl. rewrite !slen_app in *. change (slen (str "[[1], ")) with 6 in Hl. change (slen (str ", [3]]")) with 6 in Hl.
    change (slen (str "[1], ")) with 5. change (slen (str ", [3]")) with 5. lia. }
  assert (∀ n, readable (Array [Number n]) ↔ 0 ≤ n < 2 ^ 64) as Hr by (intros n; cbn; tauto).
  assert (∀ t : bytes, ∃ d, last (t ++ str ", [3]") = Some d ∧ ¬ ws d) as Hlast.
  { intros t. exists 93. split; [by rewrite last_app|]. by apply (bool_decide_unpack _); vm_compute. }
  rewrite (readJSON_item strtod _ _ true _ [] (str "[1], " ++ v ++ str ", [3]") (str "[1]") (str ", " ++ v ++ str ", [3]") JSON_ARRAY (element [] (Array [Number 1])));
    [|done|done| |done|].
  2:{ rewrite trim_tight.
      - change (str "[1], " ++ ?x) with (print (Array [Number 1]) ++ str ", " ++ x). apply cut_first; [apply Hr; lia|done|done].
      - split; [exists 91; split; [done|]; by apply (bool_decide_unpack _); vm_compute|]. rewrite app_assoc. apply Hlast. }
  2:{ apply (all_reads strtod (Array [Number 1])); [apply Hr; lia|done|change (length (print (Array [Number 1]))) with 3%nat; lia|by vm_compute]. }
  rewrite (readJSON_item strtod _ _ true _ [] (str ", " ++ v ++ str ", [3]") (str "[3]") [] JSON_ARRAY (element [] (Array [Number 3])));
    [done|done|done| |done|].
  - rewrite trim_tight.
    2:{ split; [exists 44; split; [done|]; by apply (bool_decide_unpack _); vm_compute|]. rewrite app_assoc. apply Hlast. }
    pose proof (cut_container true (str ", " ++ v ++ str ", ") (str "3") []) as Hcut. rewrite app_nil_r in Hcut.
    replace ((str ", " ++ v ++ str ", ") ++ [open_of true] ++ str "3" ++ [close_of true]) with (str ", " ++ v ++ str ", [3]") in Hcut by (by rewrite <- !app_assoc).
    assert (readBalancedJSON true (length (str ", " ++ v ++ str ", ")) (str ", " ++ v ++ str ", [3]") = Ret (str "[3]", [])) as Hb.
    { apply Hcut; [apply nested_plain; by apply (bool_decide_unpack _); vm_compute| |].
      - rewrite !elem_of_app. intros [E|[E|E]]; [|done|]; revert E; by apply (bool_decide_unpack _); vm_compute.
      - change (str "[1], ") with (str "[1]" ++ str ", ") in Hl2. rewrite <- app_assoc, slen_app in Hl2. change (slen (str "[1]")) with 3 in Hl2. lia. }
    assert (sfind [123] (str ", " ++ v ++ str ", [3]") = None) as Eo.
    { apply sfind_char_None. rewrite !elem_of_app. intros [E|[E|E]]; [|done|]; revert E; by apply (bool_decide_unpack _); vm_compute. }
    assert (sfind [91] (str ", " ++ v ++ str ", [3]") = Some (length (str ", " ++ v ++ str ", "))) as Ea.
    { replace (str ", " ++ v ++ str ", [3]") with ((str ", " ++ v ++ str ", ") ++ 91 :: str "3]") by (by rewrite <- !app_assoc).
      apply sfind_char_app. rewrite !elem_of_app. intros [E|[E|E]]; [|done|]; revert E; by apply (bool_decide_unpack _); vm_compute. }
    assert (sfind [44] (str ", " ++ v ++ str ", [3]") = Some 0%nat) as Ec by done.
    assert (length (str ", " ++ v ++ str ", ") ≠ 0%nat) as Hk by done.
    revert Hb Eo Ea Ec Hk. generalize (length (str ", " ++ v ++ str ", ")) as k. generalize (str ", " ++ v ++ str ", [3]") as J.
    intros J [|k] Hb Eo Ea Ec Hk; [done|]. unfold cut_value. rewrite Eo, Ea, Ec. cbn. by rewrite Hb.
  - apply (all_reads strtod (Array [Number 3])); [apply Hr; lia|done|change (length (print (Array [Number 3]))) with 3%nat; lia|by vm_compute].
Qed.

(** A value between two arrays is lost.  In an array, what stands between two inner arrays is
    skipped without an error, whatever text it is: the parser looks for the next bracket
    behind the comma. *)
Theorem json_loses_values v :
  Forall plain_char v → slen (between_arrays v) < 2 ^ 31 → getDocument strtod (between_arrays v) = Ret arrays_1_3.
Proof.
  intros Hv Hl. unfold getDocument. rewrite !find_int_sfind by done.
  assert (has_brackets false (between_arrays v) = false) as ->.
  { unfold has_brackets. apply andb_false_intro1, not_true_iff_false. rewrite memb_spec. unfold between_arrays. rewrite !elem_of_app.
    destruct (plain_not false v Hv) as [Ho _]. intros [E|[E|E]]; [|done|]; revert E; by apply (bool_decide_unpack _); vm_compute. }
  assert (between_arrays v = [open_of true] ++ (str "[1], " ++ v ++ str ", [3]") ++ [close_of true]) as E by (unfold between_arrays; by rewrite <- !app_assoc).
  assert (has_brackets true (between_arrays v) = true) as -> by (rewrite E; apply (has_brackets_wrapped true)).
  assert (strip true (between_arrays v) = str "[1], " ++ v ++ str ", [3]") as -> by (rewrite E; apply (strip_wrapped true)).
  cbn [andb]. unfold setType. cbn [type name value children allnodes].
  rewrite lost_value; [done|done|done|]. unfold parse_fuel, between_arrays. rewrite !length_app. change (length (str "[[1], ")) with 6%nat.
  change (length (str ", [3]]")) with 6%nat. lia.
Qed.
End lost.

Lemma json_loses_values_witness : getDocument no_strtod (str "[[1], 2, [3]]") = Ret arrays_1_3.
Proof. apply (json_loses_values no_strtod (str "2")); [by apply (bool_decide_unpack _); vm_compute|by vm_compute]. Defined.
