(* ===== verification/Http2Frames.v ===== *)
(** * Http2Frames

    The frame classes of [http20/Http2*Frame.{h,cpp}]: for each frame type a
    record with the members of the class, the constructor that parses a payload
    and [getFrameData] that writes it.  A member that a constructor leaves
    uninitialised is [None]; reading it is undefined behaviour. *)

From S2P Require Import Prelude ByteCodec StdMap.

(** ** Frame header ([Http2FrameHeader]) *)

Record Http2FrameHeader := mkHeader {
  payloadLength : Z;      (* int *)
  type_ : Z;              (* unsigned char *)
  flags : Z;              (* bitset<8>, as its to_ulong() *)
  reserved : bool;
  streamIdentifier : Z    (* int *)
}.

Definition Http2FrameHeader_default : Http2FrameHeader := mkHeader 0 0 0 false 0.

Definition isEndOfStream (h : Http2FrameHeader) : bool := Z.testbit (flags h) 0.
Definition isPadded (h : Http2FrameHeader) : bool := Z.testbit (flags h) 3.
Definition isEndHeaders (h : Http2FrameHeader) : bool := Z.testbit (flags h) 2.
Definition isPriority (h : Http2FrameHeader) : bool := Z.testbit (flags h) 5.
Definition isSettingsAck (h : Http2FrameHeader) : bool := (type_ h =? 4) && Z.testbit (flags h) 0.
Definition isPingAck (h : Http2FrameHeader) : bool := (type_ h =? 6) && Z.testbit (flags h) 0.
Definition isWsEndSegment (h : Http2FrameHeader) : bool := Z.testbit (flags h) 6.

Definition with_type (t : Z) (h : Http2FrameHeader) : Http2FrameHeader :=
  mkHeader (payloadLength h) t (flags h) (reserved h) (streamIdentifier h).
Definition with_streamIdentifier (i : Z) (h : Http2FrameHeader) : Http2FrameHeader :=
  mkHeader (payloadLength h) (type_ h) (flags h) (reserved h) i.
Definition with_payloadLength (n : Z) (h : Http2FrameHeader) : Http2FrameHeader :=
  mkHeader n (type_ h) (flags h) (reserved h) (streamIdentifier h).
(** [header.flags.set(n)] *)
Definition set_flag (n : Z) (h : Http2FrameHeader) : Http2FrameHeader :=
  mkHeader (payloadLength h) (type_ h) (Z.lor (flags h) (Z.shiftl 1 n)) (reserved h)
    (streamIdentifier h).

(** [((c >> 7) & 0x01)] on a [char]. *)
Definition top_bit (b : Z) : bool := negb (Z.land (Z.shiftr (schar b) 7) 1 =? 0).
(** [data[i] = data[i] & 0x7F]. *)
Definition clear_top (i : nat) (s : bytes) : bytes := upd i (λ b, Z.land b 127) s.
(** [if(bit) data[0] |= 0x01 << k; else data[0] &= ~(0x01 << k);] *)
Definition put_bit (k : Z) (bit : bool) (s : bytes) : bytes :=
  upd 0 (λ b, if bit then Z.lor b (Z.shiftl 1 k) else Z.land b (Z.lnot (Z.shiftl 1 k))) s.
(** An [int] argument converted to [unsigned long long], on [n] bytes. *)
Definition int_bytes (x n : Z) : bytes := ulonglongTocharArray (wrapu 64 x) n.
(** [(int)CommonUtils::charArrayToULongLong(s)]. *)
Definition bytes_int (s : bytes) : Z := wraps 32 (charArrayToULongLong s).

(** ** DATA *)

Record Http2DataFrame := mkData {
  df_header : Http2FrameHeader;
  df_padLength : option Z;  (* unsigned char *)
  df_data : bytes;
  df_padding : bytes
}.

Definition Http2DataFrame_default : Http2DataFrame :=
  mkData (with_type 0 Http2FrameHeader_default) (Some 0) [] [].

Definition Http2DataFrame_parse (data : bytes) (aheader : Http2FrameHeader) : outcome Http2DataFrame :=
  let header := with_type 0 aheader in
  if isPadded header then
    padLength ← at_ data 0;
    d ← substr data 1 (size_t (slen data - padLength - 1));
    padding ← substr data (size_t (slen data - padLength)) npos;
    mret (mkData header (Some padLength) d padding)
  else mret (mkData header None data []).

Definition Http2DataFrame_getFrameData (f : Http2DataFrame) : outcome bytes :=
  if isPadded (df_header f) then
    match df_padLength f with
    | Some p => mret ([p] ++ df_data f ++ df_padding f)
    | None => Undefined
    end
  else mret (df_data f).

(** ** HEADERS *)

Record Http2HeadersFrame := mkHeaders {
  hf_header : Http2FrameHeader;
  hf_padLength : Z;
  hf_exclusive : option bool;
  hf_streamDependency : option Z;  (* int *)
  hf_weight : option Z;            (* unsigned char *)
  hf_headerBlockFragment : bytes;
  hf_padding : bytes
}.

Definition Http2HeadersFrame_default : Http2HeadersFrame :=
  mkHeaders (with_type 1 Http2FrameHeader_default) 0 (Some false) (Some 0) (Some 0) [] [].

Definition Http2HeadersFrame_parse (data : bytes) (aheader : Http2FrameHeader) : outcome Http2HeadersFrame :=
  let header := with_type 1 aheader in
  '(padLength, stind) ←
    (if isPadded header then p ← at_ data 0; mret (p, 1) else mret (0, 0));
  '(data, excl, dep, weight, stind) ←
    (if isPriority header then
       b ← at_ data stind;
       let data := clear_top (Z.to_nat stind) data in
       d ← substr data stind 4;
       w ← at_ data (stind + 4);
       mret (data, Some (top_bit b), Some (bytes_int d), Some w, stind + 5)
     else mret (data, None, None, None, stind));
  if isPadded header then
    frag ← substr data stind (size_t (slen data - padLength - stind));
    padding ← substr data (size_t (slen data - padLength)) npos;
    mret (mkHeaders header padLength excl dep weight frag padding)
  else
    frag ← substr data stind npos;
    mret (mkHeaders header padLength excl dep weight frag []).

Definition Http2HeadersFrame_getFrameData (f : Http2HeadersFrame) : outcome bytes :=
  let pad := isPadded (hf_header f) in
  prio ← (if isPriority (hf_header f) then
            match hf_exclusive f, hf_streamDependency f, hf_weight f with
            | Some e, Some d, Some w => mret (put_bit 7 e (int_bytes d 4) ++ [w])
            | _, _, _ => Undefined
            end
          else mret []);
  mret ((if pad then [hf_padLength f] else []) ++ prio ++ hf_headerBlockFragment f
        ++ (if pad then hf_padding f else [])).

(** ** PRIORITY *)

Record Http2PriorityFrame := mkPriority {
  pf_header : Http2FrameHeader;
  pf_exclusive : bool;
  pf_streamDependency : Z;
  pf_weight : Z
}.

Definition Http2PriorityFrame_parse (data : bytes) (aheader : Http2FrameHeader) : outcome Http2PriorityFrame :=
  b ← at_ data 0;
  let data := clear_top 0 data in
  d ← substr data 0 4;
  w ← at_ data 4;
  mret (mkPriority (with_type 2 aheader) (top_bit b) (bytes_int d) w).

Definition Http2PriorityFrame_getFrameData (f : Http2PriorityFrame) : outcome bytes :=
  mret (put_bit 7 (pf_exclusive f) (int_bytes (pf_streamDependency f) 4) ++ [pf_weight f]).

(** ** RST_STREAM *)

Record Http2ResetStreamFrame := mkReset {
  rf_header : Http2FrameHeader;
  rf_errorCode : Z  (* unsigned int *)
}.

Definition Http2ResetStreamFrame_parse (data : bytes) (aheader : Http2FrameHeader) : outcome Http2ResetStreamFrame :=
  d ← substr data 0 4;
  mret (mkReset (with_type 3 aheader) (wrapu 32 (charArrayToULongLong d))).

Definition Http2ResetStreamFrame_getFrameData (f : Http2ResetStreamFrame) : outcome bytes :=
  mret (ulonglongTocharArray (rf_errorCode f) 4).

(** ** SETTINGS *)

Definition SETTINGS_HEADER_TABLE_SIZE : Z := 1.
Definition SETTINGS_ENABLE_PUSH : Z := 2.
Definition SETTINGS_MAX_CONCURRENT_STREAMS : Z := 3.
Definition SETTINGS_INITIAL_WINDOW_SIZE : Z := 4.
Definition SETTINGS_MAX_FRAME_SIZE : Z := 5.
Definition SETTINGS_MAX_HEADER_LIST_SIZE : Z := 6.
Definition SETTINGS_WEBSOCKET_CAPABLE : Z := 7.

Record Http2SettingsFrame := mkSettings {
  sf_header : Http2FrameHeader;
  sf_settings : list (Z * Z)  (* std::map<uint16_t, uint32_t> *)
}.

Definition Http2SettingsFrame_default : Http2SettingsFrame :=
  mkSettings (with_streamIdentifier 0 (with_type 4 Http2FrameHeader_default)) [].

(** The loop [while((indx+6)<=data.length())]: the rest of the payload from
    [indx] on is the argument; a trailing fragment shorter than six bytes is
    ignored.  [fuel] bounds the number of iterations. *)
Fixpoint settings_loop (fuel : nat) (rest : bytes) (settings : list (Z * Z)) : list (Z * Z) :=
  match fuel with
  | O => settings
  | S fuel' =>
      if 6 <=? slen rest then
        let sk := wrapu 16 (charArrayToULongLong (take 2 rest)) in
        let sv := wrapu 32 (charArrayToULongLong (take 4 (drop 2 rest))) in
        settings_loop fuel' (drop 6 rest) (mset sk sv settings)
      else settings
  end.

Definition Http2SettingsFrame_parse (data : bytes) (aheader : Http2FrameHeader) : outcome Http2SettingsFrame :=
  mret (mkSettings (with_streamIdentifier 0 (with_type 4 aheader))
          (settings_loop (length data) data [])).

Definition Http2SettingsFrame_getFrameData (f : Http2SettingsFrame) : outcome bytes :=
  mret (flat_map (λ '(k, v), ulonglongTocharArray k 2 ++ ulonglongTocharArray v 4) (sf_settings f)).

(** ** PUSH_PROMISE *)

Record Http2PushPromiseFrame := mkPushPromise {
  ppf_header : Http2FrameHeader;
  ppf_padLength : Z;
  ppf_reserved : bool;
  ppf_promisedStreamId : Z;
  ppf_headerBlockFragment : bytes;
  ppf_padding : bytes;
  ppf_headers : list (bytes * bytes)
}.

Definition Http2PushPromiseFrame_default : Http2PushPromiseFrame :=
  mkPushPromise (with_type 5 Http2FrameHeader_default) 0 false (-1) [] [] [].

(** The pad length is read (and written) whether or not the frame is padded. *)
Definition Http2PushPromiseFrame_parse (data : bytes) (aheader : Http2FrameHeader) : outcome Http2PushPromiseFrame :=
  let header := with_type 5 aheader in
  padLength ← at_ data 0;
  b ← at_ data 1;
  let data := clear_top 1 data in
  d ← substr data 1 4;
  if isPadded header then
    frag ← substr data 5 (size_t (slen data - padLength - 5));
    padding ← substr data (size_t (slen data - padLength)) npos;
    mret (mkPushPromise header padLength (top_bit b) (bytes_int d) frag padding [])
  else
    frag ← substr data 5 npos;
    mret (mkPushPromise header padLength (top_bit b) (bytes_int d) frag [] []).

(** The writer puts the reserved bit at position 0 of the first byte. *)
Definition Http2PushPromiseFrame_getFrameData (f : Http2PushPromiseFrame) : outcome bytes :=
  mret ([ppf_padLength f] ++ put_bit 0 (ppf_reserved f) (int_bytes (ppf_promisedStreamId f) 4)
        ++ ppf_headerBlockFragment f
        ++ (if isPadded (ppf_header f) then ppf_padding f else [])).

(** ** PING *)

Record Http2PingFrame := mkPing {
  pgf_header : Http2FrameHeader;
  pgf_opaqueData : Z  (* uint64_t *)
}.

Definition Http2PingFrame_default : Http2PingFrame :=
  mkPing (with_type 6 Http2FrameHeader_default) (wrapu 64 (-1)).

Definition Http2PingFrame_parse (data : bytes) (aheader : Http2FrameHeader) : outcome Http2PingFrame :=
  d ← substr data 0 8;
  mret (mkPing (with_type 6 aheader) (charArrayToULongLong d)).

Definition Http2PingFrame_getFrameData (f : Http2PingFrame) : outcome bytes :=
  mret (ulonglongTocharArray (pgf_opaqueData f) 8).

(** ** GOAWAY *)

Record Http2GoAwayFrame := mkGoAway {
  gf_header : Http2FrameHeader;
  gf_reserved : bool;
  gf_lastStreamId : Z;
  gf_errorCode : Z;  (* uint32_t *)
  gf_additionalDebugData : bytes
}.

Definition Http2GoAwayFrame_default : Http2GoAwayFrame :=
  mkGoAway (with_type 7 Http2FrameHeader_default) false (-1) (wrapu 32 (-1)) [].

Definition Http2GoAwayFrame_parse (data : bytes) (aheader : Http2FrameHeader) : outcome Http2GoAwayFrame :=
  b ← at_ data 0;
  let data := clear_top 0 data in
  d ← substr data 0 4;
  e ← substr data 4 4;
  dbg ← substr data 8 npos;
  mret (mkGoAway (with_type 7 aheader) (top_bit b) (bytes_int d)
          (wrapu 32 (charArrayToULongLong e)) dbg).

(** As for PUSH_PROMISE, the writer uses bit 0 for the reserved bit. *)
Definition Http2GoAwayFrame_getFrameData (f : Http2GoAwayFrame) : outcome bytes :=
  mret (put_bit 0 (gf_reserved f) (int_bytes (gf_lastStreamId f) 4)
        ++ ulonglongTocharArray (gf_errorCode f) 4 ++ gf_additionalDebugData f).

(** ** WINDOW_UPDATE *)

Record Http2WindowUpdateFrame := mkWindowUpdate {
  wf_header : Http2FrameHeader;
  wf_reserved : bool;
  wf_windowSizeIncrement : Z
}.

Definition Http2WindowUpdateFrame_default : Http2WindowUpdateFrame :=
  mkWindowUpdate (with_type 8 Http2FrameHeader_default) false 0.

(** [data[0]] without [at]: on an empty payload it is the terminating zero. *)
Definition Http2WindowUpdateFrame_parse (data : bytes) (aheader : Http2FrameHeader) : outcome Http2WindowUpdateFrame :=
  b ← index_ data 0;
  let data := clear_top 0 data in
  d ← substr data 0 4;
  mret (mkWindowUpdate (with_type 8 aheader) (top_bit b) (bytes_int d)).

Definition Http2WindowUpdateFrame_getFrameData (f : Http2WindowUpdateFrame) : outcome bytes :=
  mret (put_bit 7 (wf_reserved f) (int_bytes (wf_windowSizeIncrement f) 4)).

(** ** CONTINUATION *)

Record Http2ContinuationFrame := mkContinuation {
  cf_header : Http2FrameHeader;
  cf_headerBlockFragment : bytes
}.

Definition Http2ContinuationFrame_parse (data : bytes) (aheader : Http2FrameHeader) : outcome Http2ContinuationFrame :=
  mret (mkContinuation (with_type 9 aheader) data).

Definition Http2ContinuationFrame_getFrameData (f : Http2ContinuationFrame) : outcome bytes :=
  mret (cf_headerBlockFragment f).

(** ** ALTSVC *)

Record Http2AlternativeServicesFrame := mkAltSvc {
  asf_header : Http2FrameHeader;
  asf_maxAge : Z;       (* unsigned int *)
  asf_port : Z;         (* uint16_t *)
  asf_protoLength : Z;  (* unsigned char *)
  asf_protocolId : bytes;
  asf_hostLength : Z;   (* unsigned char *)
  asf_host : bytes;
  asf_origin : bytes
}.

Definition Http2AlternativeServicesFrame_parse (data : bytes) (aheader : Http2FrameHeader)
    : outcome Http2AlternativeServicesFrame :=
  a ← substr data 0 4;
  p ← substr data 4 2;
  protoLength ← at_ data 6;
  protocolId ← substr data 7 protoLength;
  let index := 7 + protoLength in
  hostLength ← at_ data index;
  let index := index + 1 in
  host ← substr data index hostLength;
  let index := index + hostLength in
  origin ← substr data index npos;
  mret (mkAltSvc (with_type 10 aheader) (wrapu 32 (charArrayToULongLong a))
          (wrapu 16 (charArrayToULongLong p)) protoLength protocolId hostLength host origin).

Definition Http2AlternativeServicesFrame_getFrameData (f : Http2AlternativeServicesFrame) : outcome bytes :=
  mret (ulonglongTocharArray (asf_maxAge f) 4 ++ ulonglongTocharArray (asf_port f) 2
        ++ [asf_protoLength f] ++ asf_protocolId f ++ [asf_hostLength f] ++ asf_host f
        ++ asf_origin f).

(** ** The frame hierarchy *)

(** [Http2Frame*]: the dynamic type of the object. *)
Inductive Http2Frame :=
| DataFrame (f : Http2DataFrame)
| HeadersFrame (f : Http2HeadersFrame)
| PriorityFrame (f : Http2PriorityFrame)
| ResetStreamFrame (f : Http2ResetStreamFrame)
| SettingsFrame (f : Http2SettingsFrame)
| PushPromiseFrame (f : Http2PushPromiseFrame)
| PingFrame (f : Http2PingFrame)
| GoAwayFrame (f : Http2GoAwayFrame)
| WindowUpdateFrame (f : Http2WindowUpdateFrame)
| ContinuationFrame (f : Http2ContinuationFrame)
| AlternativeServicesFrame (f : Http2AlternativeServicesFrame).

(** [Http2Frame::getHeader]. *)
Definition getHeader (fr : Http2Frame) : Http2FrameHeader :=
  match fr with
  | DataFrame f => df_header f
  | HeadersFrame f => hf_header f
  | PriorityFrame f => pf_header f
  | ResetStreamFrame f => rf_header f
  | SettingsFrame f => sf_header f
  | PushPromiseFrame f => ppf_header f
  | PingFrame f => pgf_header f
  | GoAwayFrame f => gf_header f
  | WindowUpdateFrame f => wf_header f
  | ContinuationFrame f => cf_header f
  | AlternativeServicesFrame f => asf_header f
  end.

(** The type byte of each class ([header.type = <n>] in its constructors). *)
Definition frame_type (fr : Http2Frame) : Z :=
  match fr with
  | DataFrame _ => 0
  | HeadersFrame _ => 1
  | PriorityFrame _ => 2
  | ResetStreamFrame _ => 3
  | SettingsFrame _ => 4
  | PushPromiseFrame _ => 5
  | PingFrame _ => 6
  | GoAwayFrame _ => 7
  | WindowUpdateFrame _ => 8
  | ContinuationFrame _ => 9
  | AlternativeServicesFrame _ => 10
  end.

(** Assignment to the [header] member of a frame. *)
Definition map_header (g : Http2FrameHeader → Http2FrameHeader) (fr : Http2Frame) : Http2Frame :=
  match fr with
  | DataFrame f => DataFrame (mkData (g (df_header f)) (df_padLength f) (df_data f) (df_padding f))
  | HeadersFrame f => HeadersFrame (mkHeaders (g (hf_header f)) (hf_padLength f) (hf_exclusive f)
      (hf_streamDependency f) (hf_weight f) (hf_headerBlockFragment f) (hf_padding f))
  | PriorityFrame f => PriorityFrame (mkPriority (g (pf_header f)) (pf_exclusive f)
      (pf_streamDependency f) (pf_weight f))
  | ResetStreamFrame f => ResetStreamFrame (mkReset (g (rf_header f)) (rf_errorCode f))
  | SettingsFrame f => SettingsFrame (mkSettings (g (sf_header f)) (sf_settings f))
  | PushPromiseFrame f => PushPromiseFrame (mkPushPromise (g (ppf_header f)) (ppf_padLength f)
      (ppf_reserved f) (ppf_promisedStreamId f) (ppf_headerBlockFragment f) (ppf_padding f) (ppf_headers f))
  | PingFrame f => PingFrame (mkPing (g (pgf_header f)) (pgf_opaqueData f))
  | GoAwayFrame f => GoAwayFrame (mkGoAway (g (gf_header f)) (gf_reserved f) (gf_lastStreamId f)
      (gf_errorCode f) (gf_additionalDebugData f))
  | WindowUpdateFrame f => WindowUpdateFrame (mkWindowUpdate (g (wf_header f)) (wf_reserved f)
      (wf_windowSizeIncrement f))
  | ContinuationFrame f => ContinuationFrame (mkContinuation (g (cf_header f)) (cf_headerBlockFragment f))
  | AlternativeServicesFrame f => AlternativeServicesFrame (mkAltSvc (g (asf_header f)) (asf_maxAge f)
      (asf_port f) (asf_protoLength f) (asf_protocolId f) (asf_hostLength f) (asf_host f) (asf_origin f))
  end.

(** The virtual [getFrameData]. *)
Definition getFrameData (fr : Http2Frame) : outcome bytes :=
  match fr with
  | DataFrame f => Http2DataFrame_getFrameData f
  | HeadersFrame f => Http2HeadersFrame_getFrameData f
  | PriorityFrame f => Http2PriorityFrame_getFrameData f
  | ResetStreamFrame f => Http2ResetStreamFrame_getFrameData f
  | SettingsFrame f => Http2SettingsFrame_getFrameData f
  | PushPromiseFrame f => Http2PushPromiseFrame_getFrameData f
  | PingFrame f => Http2PingFrame_getFrameData f
  | GoAwayFrame f => Http2GoAwayFrame_getFrameData f
  | WindowUpdateFrame f => Http2WindowUpdateFrame_getFrameData f
  | ContinuationFrame f => Http2ContinuationFrame_getFrameData f
  | AlternativeServicesFrame f => Http2AlternativeServicesFrame_getFrameData f
  end.

(** [Http2Handler::getFrameByType]: [None] is the null pointer returned for a
    type the server does not know. *)
Definition getFrameByType (data : bytes) (header : Http2FrameHeader) : outcome (option Http2Frame) :=
  let t := type_ header in
  if t =? 0 then f ← Http2DataFrame_parse data header; mret (Some (DataFrame f))
  else if t =? 1 then f ← Http2HeadersFrame_parse data header; mret (Some (HeadersFrame f))
  else if t =? 2 then f ← Http2PriorityFrame_parse data header; mret (Some (PriorityFrame f))
  else if t =? 3 then f ← Http2ResetStreamFrame_parse data header; mret (Some (ResetStreamFrame f))
  else if t =? 4 then f ← Http2SettingsFrame_parse data header; mret (Some (SettingsFrame f))
  else if t =? 5 then f ← Http2PushPromiseFrame_parse data header; mret (Some (PushPromiseFrame f))
  else if t =? 6 then f ← Http2PingFrame_parse data header; mret (Some (PingFrame f))
  else if t =? 7 then f ← Http2GoAwayFrame_parse data header; mret (Some (GoAwayFrame f))
  else if t =? 8 then f ← Http2WindowUpdateFrame_parse data header; mret (Some (WindowUpdateFrame f))
  else if t =? 9 then f ← Http2ContinuationFrame_parse data header; mret (Some (ContinuationFrame f))
  else if t =? 10 then f ← Http2AlternativeServicesFrame_parse data header;
                       mret (Some (AlternativeServicesFrame f))
  else mret None.

(** ** Lemmas on the shared helpers *)

Lemma top_bit_byte b : byte_ok b → top_bit b = (128 <=? b).
Proof.
  intros Hb. apply eqb_prop.
  exact (forall_bytes (λ b, Bool.eqb (top_bit b) (128 <=? b)) eq_refl b Hb).
Qed.

(** What [put_bit 7] does to a first byte without top bit. *)
Lemma put_top_byte (e : bool) b :
  0 ≤ b < 128 →
  let b' := if e then Z.lor b (Z.shiftl 1 7) else Z.land b (Z.lnot (Z.shiftl 1 7)) in
  byte_ok b' ∧ top_bit b' = e ∧ Z.land b' 127 = b.
Proof.
  intros Hb.
  set (b' := λ b, if e then Z.lor b (Z.shiftl 1 7) else Z.land b (Z.lnot (Z.shiftl 1 7))).
  change (byte_ok (b' b) ∧ top_bit (b' b) = e ∧ Z.land (b' b) 127 = b).
  assert (forallb (λ b, implb (b <? 128)
    ((0 <=? b' b) && (b' b <? 256) && Bool.eqb (top_bit (b' b)) e
     && (Z.land (b' b) 127 =? b))) (seqZ 0 256) = true) as Hall.
  { subst b'. destruct e; vm_compute; reflexivity. }
  pose proof (forall_bytes _ Hall b ltac:(unfold byte_ok; lia)) as H. simpl in H.
  replace (b <? 128) with true in H by lia. simpl in H.
  rewrite !andb_true_iff in H. destruct H as [[[??]?%eqb_prop]?%Z.eqb_eq].
  split; [unfold byte_ok; lia | done].
Qed.

(** Bit 0 cleared is the identity on an even byte. *)
Lemma clear_bit0_byte b :
  byte_ok b → Z.testbit b 0 = false → Z.land b (Z.lnot (Z.shiftl 1 0)) = b.
Proof.
  intros Hb Hz.
  assert (forallb (λ b, implb (negb (Z.testbit b 0))
    (Z.land b (Z.lnot (Z.shiftl 1 0)) =? b)) (seqZ 0 256) = true) as Hall
    by (vm_compute; reflexivity).
  pose proof (forall_bytes _ Hall b Hb) as H. cbv beta in H. rewrite Hz in H. cbn in H. lia.
Qed.

Lemma int_bytes_be x n :
  (1 ≤ n)%nat → 0 ≤ x < 256 ^ Z.of_nat n → x < 2 ^ 64 →
  int_bytes x (Z.of_nat n) = be_bytes n x.
Proof.
  intros. unfold int_bytes. rewrite wrapu_small by lia.
  by apply ulonglongTocharArray_be_bytes.
Qed.

Lemma bytes_int_be4 x : 0 ≤ x < 2 ^ 31 → bytes_int (be_bytes 4 x) = x.
Proof.
  intros. unfold bytes_int. rewrite charArrayToULongLong_be_bytes by lia.
  rewrite Z.mod_small by lia. apply wraps_small; lia.
Qed.

Lemma be_bytes4_cons x :
  0 ≤ x < 2 ^ 31 → ∃ b r, be_bytes 4 x = b :: r ∧ 0 ≤ b < 128 ∧ slen r = 3 ∧
    bytes_ok r ∧ Z.testbit b 0 = Z.testbit x 24.
Proof.
  intros Hx. eexists _, _. split; [reflexivity|]. repeat split.
  - apply Z.mod_pos_bound. lia.
  - change (256 ^ Z.of_nat 3) with 16777216.
    rewrite Z.mod_small; [apply Z.div_lt_upper_bound; lia|].
    split; [apply Z.div_pos; lia | apply Z.div_lt_upper_bound; lia].
  - repeat constructor; unfold byte_ok; apply Z.mod_pos_bound; lia.
  - change (256 ^ Z.of_nat 3) with (2 ^ 24). change 256 with (2 ^ 8).
    rewrite Z.mod_pow2_bits_low, Z.div_pow2_bits by lia. done.
Qed.

(** Four bytes of a 31-bit number with a flag in the top bit: what the writer
    produces is what the reader takes apart. *)
Lemma put_top_int x e :
  0 ≤ x < 2 ^ 31 →
  ∃ b r, put_bit 7 e (int_bytes x 4) = b :: r ∧ slen r = 3 ∧ top_bit b = e ∧
    byte_ok b ∧ bytes_ok r ∧ bytes_int (Z.land b 127 :: r) = x.
Proof.
  intros Hx. change 4 with (Z.of_nat 4). rewrite int_bytes_be by lia.
  destruct (be_bytes4_cons x Hx) as (b & r & E & Hb & Hr & Hok & _). rewrite E.
  destruct (put_top_byte e b Hb) as (? & ? & Hland).
  eexists _, r. split; [reflexivity|]. cbv zeta in *. rewrite Hland, <- E.
  repeat split; try done; try (by apply bytes_int_be4).
  all: unfold byte_ok in *; lia.
Qed.

(** The GOAWAY and PUSH_PROMISE writers, when the reserved bit is unset and bit
    24 of the stream identifier is clear. *)
Lemma put_bit0_int x :
  0 ≤ x < 2 ^ 31 → Z.testbit x 24 = false →
  ∃ b r, put_bit 0 false (int_bytes x 4) = b :: r ∧ slen r = 3 ∧ top_bit b = false ∧
    bytes_int (Z.land b 127 :: r) = x.
Proof.
  intros Hx H24. change 4 with (Z.of_nat 4). rewrite int_bytes_be by lia.
  destruct (be_bytes4_cons x Hx) as (b & r & E & Hb & Hr & Hok & Hbit). rewrite E.
  exists b, r.
  assert (put_bit 0 false (b :: r) = b :: r) as ->.
  { unfold put_bit, upd. simpl. rewrite clear_bit0_byte; [done| |congruence].
    unfold byte_ok. lia. }
  assert (Z.land b 127 = b) as ->.
  { change 127 with (Z.ones 7). rewrite Z.land_ones by lia. apply Z.mod_small. lia. }
  rewrite <- E. repeat split; [done| |by apply bytes_int_be4].
  rewrite top_bit_byte by (unfold byte_ok; lia). lia.
Qed.

Lemma size_t_small x : 0 ≤ x < 2 ^ 64 → size_t x = x.
Proof. apply wrapu_small. Qed.

(** ** Well-formed frames

    The values a frame object may hold so that writing it loses nothing.  For
    GOAWAY and PUSH_PROMISE the reserved bit and bit 24 of the stream identifier
    must be clear, because the writers use the wrong bit position. *)

Definition long_ok (s : bytes) : Prop := slen s < 2 ^ 31.

Definition padding_wf (padded : bool) (padLength : Z) (padding : bytes) : Prop :=
  if padded then byte_ok padLength ∧ slen padding = padLength else padding = [].

Definition header_wf (t : Z) (h : Http2FrameHeader) : Prop :=
  type_ h = t ∧ byte_ok (flags h) ∧ 0 ≤ streamIdentifier h < 2 ^ 31.

Definition stream31 (x : Z) : Prop := 0 ≤ x < 2 ^ 31.

Definition frame_wf (fr : Http2Frame) : Prop :=
  match fr with
  | DataFrame f => header_wf 0 (df_header f) ∧ long_ok (df_data f) ∧
      (if isPadded (df_header f)
       then ∃ p, df_padLength f = Some p ∧ padding_wf true p (df_padding f)
       else df_padLength f = None ∧ df_padding f = [])
  | HeadersFrame f => header_wf 1 (hf_header f) ∧ long_ok (hf_headerBlockFragment f) ∧
      padding_wf (isPadded (hf_header f)) (hf_padLength f) (hf_padding f) ∧
      (isPadded (hf_header f) = false → hf_padLength f = 0) ∧
      (if isPriority (hf_header f)
       then ∃ e d w, hf_exclusive f = Some e ∧ hf_streamDependency f = Some d ∧
              hf_weight f = Some w ∧ stream31 d
       else hf_exclusive f = None ∧ hf_streamDependency f = None ∧ hf_weight f = None)
  | PriorityFrame f => header_wf 2 (pf_header f) ∧ stream31 (pf_streamDependency f)
  | ResetStreamFrame f => header_wf 3 (rf_header f) ∧ 0 ≤ rf_errorCode f < 2 ^ 32
  | SettingsFrame f => header_wf 4 (sf_header f) ∧ streamIdentifier (sf_header f) = 0 ∧
      sorted (sf_settings f) ∧
      Forall (λ kv, 0 ≤ kv.1 < 2 ^ 16 ∧ 0 ≤ kv.2 < 2 ^ 32) (sf_settings f)
  | PushPromiseFrame f => header_wf 5 (ppf_header f) ∧ long_ok (ppf_headerBlockFragment f) ∧
      stream31 (ppf_promisedStreamId f) ∧ Z.testbit (ppf_promisedStreamId f) 24 = false ∧
      ppf_reserved f = false ∧ ppf_headers f = [] ∧
      padding_wf (isPadded (ppf_header f)) (ppf_padLength f) (ppf_padding f)
  | PingFrame f => header_wf 6 (pgf_header f) ∧ 0 ≤ pgf_opaqueData f < 2 ^ 64
  | GoAwayFrame f => header_wf 7 (gf_header f) ∧ stream31 (gf_lastStreamId f) ∧
      Z.testbit (gf_lastStreamId f) 24 = false ∧ gf_reserved f = false ∧
      0 ≤ gf_errorCode f < 2 ^ 32 ∧ long_ok (gf_additionalDebugData f)
  | WindowUpdateFrame f => header_wf 8 (wf_header f) ∧ stream31 (wf_windowSizeIncrement f)
  | ContinuationFrame f => header_wf 9 (cf_header f)
  | AlternativeServicesFrame f => header_wf 10 (asf_header f) ∧
      0 ≤ asf_maxAge f < 2 ^ 32 ∧ 0 ≤ asf_port f < 2 ^ 16 ∧
      asf_protoLength f = slen (asf_protocolId f) ∧
      asf_hostLength f = slen (asf_host f) ∧ long_ok (asf_origin f)
  end.

Lemma with_type_id t h : type_ h = t → with_type t h = h.
Proof. destruct h; simpl; intros <-; done. Qed.
Lemma with_streamIdentifier_id i h : streamIdentifier h = i → with_streamIdentifier i h = h.
Proof. destruct h; simpl; intros <-; done. Qed.

(** ** Round trips, one frame type at a time *)

Lemma padded_substr (p : Z) (d pad : bytes) :
  byte_ok p → slen pad = p → long_ok d →
  substr ([p] ++ d ++ pad) 1 (size_t (slen ([p] ++ d ++ pad) - p - 1)) = Ret d ∧
  substr ([p] ++ d ++ pad) (size_t (slen ([p] ++ d ++ pad) - p)) npos = Ret pad.
Proof.
  unfold byte_ok, long_ok, npos. intros Hp Hpad Hd.
  pose proof (slen_nonneg d).
  rewrite !slen_app, slen_cons, slen_nil.
  split.
  - apply substr_app_mid; [done|]. rewrite size_t_small; lia.
  - rewrite app_assoc. apply substr_app_r; [|lia].
    rewrite slen_app, slen_cons, slen_nil, size_t_small; lia.
Qed.

Lemma Data_roundtrip f :
  frame_wf (DataFrame f) →
  ∃ s, Http2DataFrame_getFrameData f = Ret s ∧ Http2DataFrame_parse s (df_header f) = Ret f.
Proof.
  destruct f as [h pl d pad]. unfold frame_wf, header_wf. cbn [df_header df_padLength df_data df_padding].
  intros ((Ht & _) & Hd & Hp). unfold Http2DataFrame_getFrameData, Http2DataFrame_parse.
  cbn [df_header df_padLength df_data df_padding]. rewrite with_type_id by done.
  destruct (isPadded h).
  - destruct Hp as (p & -> & Hp & Hlen). eexists. split; [reflexivity|].
    destruct (padded_substr p d pad Hp Hlen Hd) as [H1 H2].
    cbn [app] in *. rewrite at_0. cbn. by rewrite H1, H2.
  - destruct Hp as [-> ->]. eexists. split; reflexivity.
Qed.

(** The optional priority block of a HEADERS frame. *)
Lemma clear_top_0 b r : clear_top 0 (b :: r) = Z.land b 127 :: r.
Proof. done. Qed.
Lemma clear_top_1 a b r : clear_top 1 (a :: b :: r) = a :: Z.land b 127 :: r.
Proof. done. Qed.
Lemma clear_top_app s b r : clear_top (length s) (s ++ b :: r) = s ++ Z.land b 127 :: r.
Proof.
  unfold clear_top, upd. induction s as [|a s IH]; [done|].
  simpl. f_equal. exact IH.
Qed.

(** The end of the parse, after the pad length and the priority block: the
    header block fragment and the padding. *)
Lemma Headers_tail (padded : bool) pl (blk frag pad pre data : bytes) stind
    (mk : bytes → bytes → Http2HeadersFrame) :
  pre = (if padded then [pl] else []) → padding_wf padded pl pad → long_ok frag →
  data = pre ++ blk ++ frag ++ (if padded then pad else []) →
  stind = slen pre + slen blk → slen blk ≤ 5 →
  (if padded
   then frag ← substr data stind (size_t (slen data - pl - stind));
        padding ← substr data (size_t (slen data - pl)) npos;
        mret (mk frag padding)
   else frag ← substr data stind npos; mret (mk frag []))
  = Ret (mk frag pad).
Proof.
  intros -> Hpad Hd -> -> Hblk. unfold long_ok in Hd.
  pose proof (slen_nonneg blk). pose proof (slen_nonneg frag).
  destruct padded; cbn [padding_wf] in Hpad.
  - destruct Hpad as [Hp Hlen]. unfold byte_ok in Hp.
    rewrite !slen_app, slen_cons, slen_nil.
    replace (substr _ (0 + 1 + slen blk) _) with (Ret (A := bytes) frag).
    2: { rewrite app_assoc, substr_app_mid; try done;
         rewrite ?slen_app, ?slen_cons, ?slen_nil, ?size_t_small; lia. }
    cbn [mbind outcome_bind].
    replace (substr _ (size_t (_ - pl)) npos) with (Ret (A := bytes) pad); [done|].
    rewrite (app_assoc blk), (app_assoc [pl]), substr_app_r; try done;
      rewrite ?slen_app, ?slen_cons, ?slen_nil, ?size_t_small; unfold npos; lia.
  - subst pad. rewrite !app_nil_r. simpl app. rewrite substr_app_r; [done|by rewrite slen_nil|].
    unfold npos. lia.
Qed.

Lemma Headers_roundtrip f :
  frame_wf (HeadersFrame f) →
  ∃ s, Http2HeadersFrame_getFrameData f = Ret s ∧ Http2HeadersFrame_parse s (hf_header f) = Ret f.
Proof.
  destruct f as [h pl e d w frag pad]. unfold frame_wf, header_wf.
  cbn [hf_header hf_padLength hf_exclusive hf_streamDependency hf_weight hf_headerBlockFragment hf_padding].
  intros ((Ht & _) & Hd & Hpad & Hpl & Hprio).
  unfold Http2HeadersFrame_getFrameData, Http2HeadersFrame_parse.
  cbn [hf_header hf_padLength hf_exclusive hf_streamDependency hf_weight hf_headerBlockFragment hf_padding].
  rewrite with_type_id by done.
  remember (if isPadded h then [pl] else []) as pre eqn:Epre.
  assert (∀ s, (if isPadded h then p ← at_ (pre ++ s) 0; mret (p, 1) else mret (0, 0))
          = Ret (pl, slen pre)) as Hpre.
  { intros s. subst pre. destruct (isPadded h); [|by rewrite (Hpl eq_refl)].
    cbn [app]. by rewrite at_0. }
  destruct (isPriority h).
  - destruct Hprio as (e' & d' & w' & -> & -> & -> & Hd').
    destruct (put_top_int d' e' Hd') as (b & r & E & Hr & Hb & _ & _ & Hint).
    eexists. split; [reflexivity|]. rewrite E, Hpre. cbn [mbind outcome_bind].
    rewrite <- !app_assoc. cbn [app].
    rewrite at_app_r, at_0 by done. cbn [mbind outcome_bind].
    assert (Z.to_nat (slen pre) = length pre) as -> by (unfold slen; lia).
    rewrite clear_top_app.
    change (Z.land b 127 :: r ++ w' :: ?t) with ((Z.land b 127 :: r) ++ w' :: t).
    rewrite substr_app_mid; [|done|rewrite slen_cons, Hr; done]. cbn [mbind outcome_bind].
    rewrite app_assoc, at_app_r, at_0; [|rewrite slen_app, slen_cons, Hr; lia].
    cbn [mbind outcome_bind]. rewrite Hb, Hint.
    eapply (Headers_tail _ _ ((Z.land b 127 :: r) ++ [w'])); try done;
      rewrite <- ?app_assoc, ?slen_app, ?slen_cons, ?Hr, ?slen_nil; done || lia.
  - destruct Hprio as (-> & -> & ->). eexists. split; [reflexivity|].
    rewrite Hpre. cbn [mbind outcome_bind].
    eapply (Headers_tail _ _ []); try done. rewrite slen_nil. lia.
Qed.

Lemma Priority_roundtrip f :
  frame_wf (PriorityFrame f) →
  ∃ s, Http2PriorityFrame_getFrameData f = Ret s ∧ Http2PriorityFrame_parse s (pf_header f) = Ret f.
Proof.
  destruct f as [h e d w].
  unfold frame_wf, header_wf, Http2PriorityFrame_getFrameData, Http2PriorityFrame_parse. cbn [pf_header pf_exclusive pf_streamDependency pf_weight].
  intros ((Ht & _) & Hd).
  destruct (put_top_int d e Hd) as (b & r & E & Hr & Hb & _ & _ & Hint).
  eexists. split; [reflexivity|]. rewrite E.
  rewrite <- app_comm_cons, at_0. cbn [mbind outcome_bind].
  rewrite clear_top_0.
  change (Z.land b 127 :: r ++ [w]) with ([] ++ (Z.land b 127 :: r) ++ [w]).
  rewrite substr_app_mid; [|done|rewrite slen_cons, Hr; done]. cbn [mbind outcome_bind].
  cbn [app]. rewrite app_comm_cons, at_app_r, at_0; [|rewrite slen_cons, Hr; done].
  cbn. by rewrite Hb, Hint, with_type_id.
Qed.

Lemma WindowUpdate_roundtrip f :
  frame_wf (WindowUpdateFrame f) →
  ∃ s, Http2WindowUpdateFrame_getFrameData f = Ret s ∧ Http2WindowUpdateFrame_parse s (wf_header f) = Ret f.
Proof.
  destruct f as [h e d].
  unfold frame_wf, header_wf, Http2WindowUpdateFrame_getFrameData, Http2WindowUpdateFrame_parse. cbn [wf_header wf_reserved wf_windowSizeIncrement].
  intros ((Ht & _) & Hd).
  destruct (put_top_int d e Hd) as (b & r & E & Hr & Hb & _ & _ & Hint).
  eexists. split; [reflexivity|]. rewrite E.
  assert (index_ (b :: r) 0 = Ret b) as ->.
  { unfold index_. by replace (0 <=? slen (b :: r)) with true by solve_slen. }
  cbn [mbind outcome_bind]. rewrite clear_top_0.
  rewrite substr_all by (rewrite slen_cons, Hr; done).
  cbn. by rewrite Hb, Hint, with_type_id.
Qed.

(** Unsigned fields of [n] bytes. *)
Lemma uint_bytes_slen n x :
  (1 ≤ n)%nat → 0 ≤ x < 256 ^ Z.of_nat n → slen (ulonglongTocharArray x (Z.of_nat n)) = Z.of_nat n.
Proof. intros. rewrite ulonglongTocharArray_be_bytes by done. by rewrite be_bytes_slen. Qed.

Lemma uint_bytes_read n x :
  (1 ≤ n ≤ 8)%nat → 0 ≤ x < 256 ^ Z.of_nat n →
  charArrayToULongLong (ulonglongTocharArray x (Z.of_nat n)) = x.
Proof.
  intros. rewrite ulonglongTocharArray_be_bytes by (done || lia).
  rewrite charArrayToULongLong_be_bytes by lia. by apply Z.mod_small.
Qed.

Lemma ResetStream_roundtrip f :
  frame_wf (ResetStreamFrame f) →
  ∃ s, Http2ResetStreamFrame_getFrameData f = Ret s ∧ Http2ResetStreamFrame_parse s (rf_header f) = Ret f.
Proof.
  destruct f as [h e].
  unfold frame_wf, header_wf, Http2ResetStreamFrame_getFrameData, Http2ResetStreamFrame_parse. cbn [rf_header rf_errorCode].
  intros ((Ht & _) & He).
  eexists. split; [reflexivity|]. change 4 with (Z.of_nat 4).
  rewrite substr_all by (rewrite uint_bytes_slen; done || lia). cbn [mbind outcome_bind].
  rewrite uint_bytes_read, wrapu_small, with_type_id by (done || lia). done.
Qed.

Lemma Ping_roundtrip f :
  frame_wf (PingFrame f) →
  ∃ s, Http2PingFrame_getFrameData f = Ret s ∧ Http2PingFrame_parse s (pgf_header f) = Ret f.
Proof.
  destruct f as [h e].
  unfold frame_wf, header_wf, Http2PingFrame_getFrameData, Http2PingFrame_parse. cbn [pgf_header pgf_opaqueData].
  intros ((Ht & _) & He).
  eexists. split; [reflexivity|]. change 8 with (Z.of_nat 8).
  rewrite substr_all by (rewrite uint_bytes_slen; done || lia). cbn [mbind outcome_bind].
  rewrite uint_bytes_read, with_type_id by (done || lia). done.
Qed.

(** One setting is six bytes. *)
Lemma settings_loop_step k v rest m n :
  0 ≤ k < 2 ^ 16 → 0 ≤ v < 2 ^ 32 →
  settings_loop (S n) ((ulonglongTocharArray k 2 ++ ulonglongTocharArray v 4) ++ rest) m
  = settings_loop n rest (mset k v m).
Proof.
  intros Hk Hv. change 2 with (Z.of_nat 2). change 4 with (Z.of_nat 4).
  pose proof (uint_bytes_slen 2 k ltac:(lia) ltac:(lia)) as Hlk.
  pose proof (uint_bytes_slen 4 v ltac:(lia) ltac:(lia)) as Hlv.
  pose proof (uint_bytes_read 2 k ltac:(lia) ltac:(lia)) as Hrk.
  pose proof (uint_bytes_read 4 v ltac:(lia) ltac:(lia)) as Hrv.
  revert Hlk Hlv Hrk Hrv.
  generalize (ulonglongTocharArray k (Z.of_nat 2)) as a, (ulonglongTocharArray v (Z.of_nat 4)) as b.
  intros a b Ha Hb Hra Hrb. cbn [settings_loop].
  replace (6 <=? slen ((a ++ b) ++ rest)) with true.
  2: { rewrite !slen_app. pose proof (slen_nonneg rest). lia. }
  unfold slen in Ha, Hb.
  destruct a as [|a1 [|a2 [|]]], b as [|b1 [|b2 [|b3 [|b4 [|]]]]]; simpl in Ha, Hb; try lia.
  change (settings_loop n rest (mset (wrapu 16 (charArrayToULongLong [a1; a2]))
    (wrapu 32 (charArrayToULongLong [b1; b2; b3; b4])) m) = settings_loop n rest (mset k v m)).
  by rewrite Hra, Hrb, !wrapu_small by lia.
Qed.

Lemma settings_loop_nil n m : settings_loop n [] m = m.
Proof. by destruct n. Qed.

Lemma settings_loop_all l m n :
  Forall (λ kv, 0 ≤ kv.1 < 2 ^ 16 ∧ 0 ≤ kv.2 < 2 ^ 32) l → (length l ≤ n)%nat →
  settings_loop n (flat_map (λ '(k, v), ulonglongTocharArray k 2 ++ ulonglongTocharArray v 4) l) m
  = foldl (λ acc '(k, v), mset k v acc) m l.
Proof.
  revert m n. induction l as [|[k v] l IH]; intros m n Hl Hn; [apply settings_loop_nil|].
  apply Forall_cons in Hl as [[Hk Hv] Hl]. destruct n as [|n]; simpl in Hn; [lia|].
  cbn [flat_map]. rewrite settings_loop_step by done. apply IH; [done|lia].
Qed.

Lemma Settings_roundtrip f :
  frame_wf (SettingsFrame f) →
  ∃ s, Http2SettingsFrame_getFrameData f = Ret s ∧ Http2SettingsFrame_parse s (sf_header f) = Ret f.
Proof.
  destruct f as [h m]. unfold frame_wf, header_wf, Http2SettingsFrame_getFrameData, Http2SettingsFrame_parse.
  cbn [sf_header sf_settings]. intros ((Ht & _) & Hid & Hs & Hall).
  eexists. split; [reflexivity|].
  rewrite with_type_id, with_streamIdentifier_id, settings_loop_all, foldl_mset_sorted; try done.
  clear -Hall. induction m as [|[k v] m IH]; [done|].
  apply Forall_cons in Hall as [[Hk Hv] Hall]. specialize (IH Hall). cbn [fst snd flat_map length] in *.
  pose proof (uint_bytes_slen 2 k ltac:(lia) ltac:(lia)) as Hlk. unfold slen in Hlk.
  change (Z.of_nat 2) with 2 in Hlk. rewrite !length_app. lia.
Qed.

Lemma PushPromise_roundtrip f :
  frame_wf (PushPromiseFrame f) →
  ∃ s, Http2PushPromiseFrame_getFrameData f = Ret s ∧ Http2PushPromiseFrame_parse s (ppf_header f) = Ret f.
Proof.
  destruct f as [h pl res id frag pad hdrs].
  unfold frame_wf, header_wf, Http2PushPromiseFrame_getFrameData, Http2PushPromiseFrame_parse.
  cbn [ppf_header ppf_padLength ppf_reserved ppf_promisedStreamId ppf_headerBlockFragment ppf_padding ppf_headers].
  intros ((Ht & _) & Hd & Hid & H24 & -> & -> & Hpad). unfold long_ok in Hd.
  destruct (put_bit0_int id Hid H24) as (b & r & E & Hr & Hb & Hint).
  eexists. split; [reflexivity|]. rewrite E, with_type_id by done. cbn [app].
  rewrite at_0. cbn [mbind outcome_bind].
  rewrite at_1. cbn [mbind outcome_bind].
  rewrite clear_top_1.
  change (pl :: Z.land b 127 :: r ++ ?t) with ([pl] ++ (Z.land b 127 :: r) ++ t).
  rewrite (substr_app_mid [pl] _ _ 1 4); [|done|rewrite slen_cons, Hr; done]. cbn [mbind outcome_bind].
  rewrite Hb, Hint. rewrite app_assoc. set (pre := [pl] ++ Z.land b 127 :: r).
  assert (slen pre = 5) as Hpre by (subst pre; rewrite slen_app, !slen_cons, Hr; done).
  pose proof (slen_nonneg frag).
  destruct (isPadded h); cbn [padding_wf] in Hpad.
  - destruct Hpad as [Hp Hlen]. unfold byte_ok in Hp.
    rewrite (substr_app_mid pre frag pad 5); [|done|rewrite !slen_app, size_t_small; lia].
    cbn [mbind outcome_bind]. rewrite app_assoc, substr_app_r; [done| |unfold npos; lia].
    rewrite !slen_app, size_t_small; lia.
  - subst pad. rewrite app_nil_r, substr_app_r; [done..|unfold npos; lia].
Qed.

Lemma GoAway_roundtrip f :
  frame_wf (GoAwayFrame f) →
  ∃ s, Http2GoAwayFrame_getFrameData f = Ret s ∧ Http2GoAwayFrame_parse s (gf_header f) = Ret f.
Proof.
  destruct f as [h res id err dbg].
  unfold frame_wf, header_wf, Http2GoAwayFrame_getFrameData, Http2GoAwayFrame_parse.
  cbn [gf_header gf_reserved gf_lastStreamId gf_errorCode gf_additionalDebugData].
  intros ((Ht & _) & Hid & H24 & -> & He & Hd). unfold long_ok in Hd.
  destruct (put_bit0_int id Hid H24) as (b & r & E & Hr & Hb & Hint).
  eexists. split; [reflexivity|]. rewrite E, with_type_id by done. cbn [app].
  rewrite at_0. cbn [mbind outcome_bind]. rewrite clear_top_0.
  pose proof (uint_bytes_slen 4 err ltac:(lia) ltac:(lia)) as Hle.
  pose proof (uint_bytes_read 4 err ltac:(lia) ltac:(lia)) as Hre. change (Z.of_nat 4) with 4 in *.
  rewrite app_comm_cons. set (pre := Z.land b 127 :: r) in *.
  assert (slen pre = 4) as Hpre by (subst pre; rewrite slen_cons, Hr; done).
  rewrite (substr_app_l pre _ 4) by done.
  cbn [mbind outcome_bind]. rewrite (substr_app_mid pre _ dbg 4) by done. cbn [mbind outcome_bind].
  rewrite app_assoc, substr_app_r; [|by rewrite slen_app, Hpre, Hle|unfold npos; lia].
  cbn [mbind outcome_bind]. by rewrite Hb, Hint, Hre, wrapu_small by lia.
Qed.

Lemma Continuation_roundtrip f :
  frame_wf (ContinuationFrame f) →
  ∃ s, Http2ContinuationFrame_getFrameData f = Ret s ∧ Http2ContinuationFrame_parse s (cf_header f) = Ret f.
Proof.
  destruct f as [h frag]. unfold frame_wf, header_wf. cbn [cf_header].
  intros (Ht & _). eexists. split; [reflexivity|].
  unfold Http2ContinuationFrame_parse. cbn. by rewrite with_type_id.
Qed.

Lemma AlternativeServices_roundtrip f :
  frame_wf (AlternativeServicesFrame f) →
  ∃ s, Http2AlternativeServicesFrame_getFrameData f = Ret s ∧
       Http2AlternativeServicesFrame_parse s (asf_header f) = Ret f.
Proof.
  destruct f as [h age port pl proto hl host origin].
  unfold frame_wf, header_wf, Http2AlternativeServicesFrame_getFrameData,
    Http2AlternativeServicesFrame_parse.
  cbn [asf_header asf_maxAge asf_port asf_protoLength asf_protocolId asf_hostLength asf_host asf_origin].
  intros ((Ht & _) & Hage & Hport & -> & -> & Ho). unfold long_ok in Ho.
  pose proof (uint_bytes_slen 4 age ltac:(lia) ltac:(lia)) as Hla.
  pose proof (uint_bytes_read 4 age ltac:(lia) ltac:(lia)) as Hra.
  pose proof (uint_bytes_slen 2 port ltac:(lia) ltac:(lia)) as Hlp.
  pose proof (uint_bytes_read 2 port ltac:(lia) ltac:(lia)) as Hrp.
  change (Z.of_nat 4) with 4 in *. change (Z.of_nat 2) with 2 in *.
  eexists. split; [reflexivity|]. revert Hla Hra Hlp Hrp.
  generalize (ulonglongTocharArray age 4) as a, (ulonglongTocharArray port 2) as p.
  intros a p Hla Hra Hlp Hrp.
  rewrite with_type_id by done. rewrite (substr_app_l a _ 4) by done. cbn [mbind outcome_bind].
  rewrite (substr_app_mid a p _ 4 2) by done. cbn [mbind outcome_bind].
  rewrite (app_assoc a p). set (ap := a ++ p).
  assert (slen ap = 6) as Hap by (subst ap; rewrite slen_app; lia).
  rewrite (at_app_r ap _ 6) by done. cbn [app]. rewrite at_0. cbn [mbind outcome_bind].
  rewrite (cons_app _ (proto ++ _)).
  rewrite (app_assoc ap). set (ap1 := ap ++ [_]).
  assert (slen ap1 = 7) as Hap1 by (subst ap1; rewrite slen_app, Hap; done).
  rewrite (substr_app_mid ap1 proto _ 7 (slen proto)) by done. cbn [mbind outcome_bind].
  rewrite (app_assoc ap1). set (ap2 := ap1 ++ proto).
  assert (slen ap2 = 7 + slen proto) as Hap2 by (subst ap2; rewrite slen_app, Hap1; done).
  rewrite (at_app_r ap2 _ (7 + slen proto)) by done. cbn [app]. rewrite at_0. cbn [mbind outcome_bind].
  rewrite (cons_app _ (host ++ _)).
  rewrite (app_assoc ap2). set (ap3 := ap2 ++ [_]).
  assert (slen ap3 = 7 + slen proto + 1) as Hap3 by (subst ap3; rewrite slen_app, Hap2; done).
  rewrite (substr_app_mid ap3 host _ (7 + slen proto + 1) (slen host)) by done. cbn [mbind outcome_bind].
  rewrite app_assoc, substr_app_r; [|by rewrite slen_app, Hap3|unfold npos; lia].
  cbn [mbind outcome_bind]. by rewrite Hra, Hrp, !wrapu_small by lia.
Qed.

Lemma getFrameByType_terminates data h : terminates (getFrameByType data h).
Proof.
  unfold getFrameByType, Http2DataFrame_parse, Http2HeadersFrame_parse, Http2PriorityFrame_parse,
    Http2ResetStreamFrame_parse, Http2SettingsFrame_parse, Http2PushPromiseFrame_parse,
    Http2PingFrame_parse, Http2GoAwayFrame_parse, Http2WindowUpdateFrame_parse,
    Http2ContinuationFrame_parse, Http2AlternativeServicesFrame_parse, mret, outcome_ret.
  solve_terminates.
Qed.

(** ** Properties *)

(** [getFrameByType] runs the parser of the type it is given. *)
Definition parse_as (fr : Http2Frame) (data : bytes) : outcome Http2Frame :=
  let h := getHeader fr in
  match fr with
  | DataFrame _ => f ← Http2DataFrame_parse data h; mret (DataFrame f)
  | HeadersFrame _ => f ← Http2HeadersFrame_parse data h; mret (HeadersFrame f)
  | PriorityFrame _ => f ← Http2PriorityFrame_parse data h; mret (PriorityFrame f)
  | ResetStreamFrame _ => f ← Http2ResetStreamFrame_parse data h; mret (ResetStreamFrame f)
  | SettingsFrame _ => f ← Http2SettingsFrame_parse data h; mret (SettingsFrame f)
  | PushPromiseFrame _ => f ← Http2PushPromiseFrame_parse data h; mret (PushPromiseFrame f)
  | PingFrame _ => f ← Http2PingFrame_parse data h; mret (PingFrame f)
  | GoAwayFrame _ => f ← Http2GoAwayFrame_parse data h; mret (GoAwayFrame f)
  | WindowUpdateFrame _ => f ← Http2WindowUpdateFrame_parse data h; mret (WindowUpdateFrame f)
  | ContinuationFrame _ => f ← Http2ContinuationFrame_parse data h; mret (ContinuationFrame f)
  | AlternativeServicesFrame _ =>
      f ← Http2AlternativeServicesFrame_parse data h; mret (AlternativeServicesFrame f)
  end.

Lemma frame_wf_type fr : frame_wf fr → header_wf (frame_type fr) (getHeader fr).
Proof. by destruct fr; intros Hwf; apply Hwf. Qed.

Lemma getFrameByType_parse_as fr data :
  frame_wf fr →
  getFrameByType data (getHeader fr) = (f ← parse_as fr data; mret (Some f)).
Proof.
  intros (Ht & _)%frame_wf_type. unfold getFrameByType. rewrite Ht.
  by destruct fr; cbn [frame_type Z.eqb Pos.eqb parse_as getHeader];
    rewrite bind_assoc.
Qed.

Lemma parse_as_roundtrip fr :
  frame_wf fr → ∃ s, getFrameData fr = Ret s ∧ parse_as fr s = Ret fr.
Proof.
  assert (∀ {A} (o : outcome A) (x : A) (g : A → Http2Frame), o = Ret x →
    (f ← o; mret (g f)) = Ret (g x)) as Hbind by (by intros A o x g ->).
  destruct fr as [f|f|f|f|f|f|f|f|f|f|f]; intros Hwf;
    [ destruct (Data_roundtrip f Hwf) as (s & Hs & Hp)
    | destruct (Headers_roundtrip f Hwf) as (s & Hs & Hp)
    | destruct (Priority_roundtrip f Hwf) as (s & Hs & Hp)
    | destruct (ResetStream_roundtrip f Hwf) as (s & Hs & Hp)
    | destruct (Settings_roundtrip f Hwf) as (s & Hs & Hp)
    | destruct (PushPromise_roundtrip f Hwf) as (s & Hs & Hp)
    | destruct (Ping_roundtrip f Hwf) as (s & Hs & Hp)
    | destruct (GoAway_roundtrip f Hwf) as (s & Hs & Hp)
    | destruct (WindowUpdate_roundtrip f Hwf) as (s & Hs & Hp)
    | destruct (Continuation_roundtrip f Hwf) as (s & Hs & Hp)
    | destruct (AlternativeServices_roundtrip f Hwf) as (s & Hs & Hp) ];
    exists s; (split; [exact Hs | by apply Hbind]).
Qed.

Lemma frame_roundtrip_aux fr :
  frame_wf fr →
  ∃ payload, getFrameData fr = Ret payload ∧
    getFrameByType payload (getHeader fr) = Ret (Some fr).
Proof.
  intros Hwf. destruct (parse_as_roundtrip fr Hwf) as (s & Hs & Hp).
  exists s. split; [done|]. by rewrite getFrameByType_parse_as, Hp.
Qed.

(** C14: for each of the eleven frame types, the payload that [getFrameData]
    writes for a well-formed frame is parsed back by [getFrameByType] to the
    same frame, fields, padding and priority block included. *)
Theorem frame_payload_roundtrip fr :
  frame_wf fr →
  ∃ payload, getFrameData fr = Ret payload ∧
    getFrameByType payload (getHeader fr) = Ret (Some fr).
Proof. apply frame_roundtrip_aux. Qed.

(** A padded HEADERS frame with a priority block, END_HEADERS set. *)
Definition sample_headers : Http2Frame :=
  HeadersFrame (mkHeaders (mkHeader 0 1 44 false 3) 2 (Some true) (Some 1) (Some 16)
    [130; 132] [0; 0]).

Example frame_payload_roundtrip_witness :
  getFrameData sample_headers = Ret [2; 128; 0; 0; 1; 16; 130; 132; 0; 0] ∧
  ∃ payload, getFrameData sample_headers = Ret payload ∧
    getFrameByType payload (getHeader sample_headers) = Ret (Some sample_headers).
Proof.
  split; [reflexivity|]. apply (frame_payload_roundtrip sample_headers).
  cbn. unfold header_wf, long_ok, padding_wf, byte_ok, stream31. cbn.
  repeat split; try lia; try done. exists true, 1, 16. repeat split; lia.
Defined.

(** Bit 24 of the identifier is bit 0 of the first byte, which the writer
    clears. *)
Lemma clear_bit0_odd b :
  byte_ok b → Z.testbit b 0 = true →
  Z.land b (Z.lnot (Z.shiftl 1 0)) = Z.land (b - 1) (Z.lnot (Z.shiftl 1 0)).
Proof.
  intros Hb Hz.
  pose proof (forall_bytes (λ b, implb (Z.testbit b 0)
    (Z.land b (Z.lnot (Z.shiftl 1 0)) =? Z.land (b - 1) (Z.lnot (Z.shiftl 1 0)))) eq_refl b Hb) as H.
  cbv beta in H. rewrite Hz in H. cbn [implb] in H. lia.
Qed.

Lemma be_bytes4_sub x :
  2 ^ 24 ≤ x < 2 ^ 31 →
  ∃ b r, be_bytes 4 x = b :: r ∧ be_bytes 4 (x - 2 ^ 24) = b - 1 :: r ∧ byte_ok b ∧
    b = x / 2 ^ 24.
Proof.
  intros Hx. set (q := x / 2 ^ 24). assert (1 ≤ q < 128 ∧ x = q * 2 ^ 24 + x mod 2 ^ 24) as [Hq Eq].
  { subst q. pose proof (Z.div_mod x (2 ^ 24) ltac:(lia)). pose proof (Z.mod_pos_bound x (2 ^ 24) ltac:(lia)).
    split; [nia|lia]. }
  pose proof (Z.mod_pos_bound x (2 ^ 24) ltac:(lia)) as Hm.
  assert (∀ k, be_bytes 3 (k * 2 ^ 24 + x mod 2 ^ 24) = be_bytes 3 (x mod 2 ^ 24)) as H3.
  { intros k. set (m := x mod 2 ^ 24). cbn [be_bytes].
    change (256 ^ Z.of_nat 2) with 65536. change (256 ^ Z.of_nat 1) with 256.
    change (256 ^ Z.of_nat 0) with 1. change (2 ^ 24) with 16777216.
    replace (k * 16777216 + m) with (m + (k * 256) * 65536) at 1 by lia.
    replace (k * 16777216 + m) with (m + (k * 65536) * 256) at 1 by lia.
    replace (k * 16777216 + m) with (m + (k * 16777216) * 1) at 1 by lia.
    rewrite !Z.div_add by lia.
    rewrite !Z.div_1_r.
    replace (k * 65536) with (k * 256 * 256) by lia.
    replace (k * 16777216) with (k * 65536 * 256) by lia. by rewrite !Z.mod_add by lia. }
  assert (∀ k, 0 ≤ k < 128 → be_bytes 4 (k * 2 ^ 24 + x mod 2 ^ 24) = k :: be_bytes 3 (x mod 2 ^ 24)) as H4.
  { intros k Hk. rewrite <- (H3 k). cbn [be_bytes]. f_equal.
    change (256 ^ Z.of_nat 3) with (2 ^ 24). rewrite Z.div_add_l, Z.div_small, Z.add_0_r by lia.
    apply Z.mod_small. lia. }
  exists q, (be_bytes 3 (x mod 2 ^ 24)). repeat split; try lia.
  - rewrite Eq at 1. apply H4. lia.
  - replace (x - 2 ^ 24) with ((q - 1) * 2 ^ 24 + x mod 2 ^ 24) by lia. apply H4. lia.
Qed.

Lemma put_bit0_drop x :
  0 ≤ x < 2 ^ 31 → Z.testbit x 24 = true →
  2 ^ 24 ≤ x ∧ Z.testbit (x - 2 ^ 24) 24 = false ∧
  put_bit 0 false (int_bytes x 4) = put_bit 0 false (int_bytes (x - 2 ^ 24) 4).
Proof.
  intros Hx H24.
  assert (2 ^ 24 ≤ x) as Hge.
  { destruct (Z.le_gt_cases (2 ^ 24) x); [done|]. destruct (decide (x = 0)) as [->|]; [done|].
    rewrite Z.bits_above_log2 in H24; [done|lia|]. apply Z.log2_lt_pow2; lia. }
  split; [done|].
  destruct (be_bytes4_sub x ltac:(lia)) as (b & r & E1 & E2 & Hb & Eb).
  assert (Z.testbit b 0 = true) as Hodd by (rewrite Eb, Z.div_pow2_bits by lia; exact H24).
  split.
  - change (Z.testbit (x - 2 ^ 24) 24) with (Z.testbit (x - 2 ^ 24) (0 + 24)).
    rewrite <- Z.div_pow2_bits by lia.
    replace (x - 2 ^ 24) with (x + (-1) * 2 ^ 24) by lia. rewrite Z.div_add, <- Eb by lia.
    change (Z.odd (b + -1) = false). rewrite Z.odd_add.
    change (Z.odd b = true) in Hodd. by rewrite Hodd.
  - change 4 with (Z.of_nat 4). rewrite !int_bytes_be by lia. rewrite E1, E2.
    unfold put_bit, upd. simpl. f_equal. by apply clear_bit0_odd.
Qed.

(** A GOAWAY frame whose last stream identifier has bit 24 set does not
    survive the round trip: the writer clears bit 0 of the first byte (the
    reader looks for the reserved bit at position 7), so the identifier comes
    back smaller by 2^24. *)
Theorem GoAway_loses_bit24 h id err dbg :
  header_wf 7 h → stream31 id → Z.testbit id 24 = true → 0 ≤ err < 2 ^ 32 → long_ok dbg →
  ∃ payload, getFrameData (GoAwayFrame (mkGoAway h false id err dbg)) = Ret payload ∧
    getFrameByType payload h = Ret (Some (GoAwayFrame (mkGoAway h false (id - 2 ^ 24) err dbg))).
Proof.
  unfold stream31. intros Hh Hid H24 Herr Hdbg.
  destruct (put_bit0_drop id Hid H24) as (Hge & H24' & E).
  destruct (frame_roundtrip_aux (GoAwayFrame (mkGoAway h false (id - 2 ^ 24) err dbg))) as (s & Hs & Hp).
  { cbn. unfold stream31. repeat split; done || lia || apply Hh. }
  exists s. split; [|done]. rewrite <- Hs. cbn [getFrameData].
  unfold Http2GoAwayFrame_getFrameData.
  cbn [gf_reserved gf_lastStreamId gf_errorCode gf_additionalDebugData]. by rewrite E.
Qed.

Example GoAway_loses_bit24_witness :
  let h := mkHeader 8 7 0 false 0 in
  ∃ payload, getFrameData (GoAwayFrame (mkGoAway h false (2 ^ 24 + 5) 0 [])) = Ret payload ∧
    getFrameByType payload h = Ret (Some (GoAwayFrame (mkGoAway h false 5 0 []))).
Proof.
  apply (GoAway_loses_bit24 (mkHeader 8 7 0 false 0) (2 ^ 24 + 5) 0 []);
    unfold header_wf, stream31, byte_ok, long_ok; cbn; repeat split; done || lia.
Defined.
