(* ===== verification/Http2Wire.v ===== *)
(** * Http2Wire

    The framing layer of [Http2Handler.cpp]: [serialize] writes a frame with its
    nine-byte header, [readFrame] and [nextFrame] take frames off a byte string.
    [nextFrame] is the only reader of the connection buffer, which grows by
    whatever the socket delivers; the last part of the file shows that the
    frames that come out do not depend on how the bytes were cut. *)

From S2P Require Import Prelude ByteCodec StdMap Http2Frames.

(** ** The code *)

(** The nine bytes of a header, with the payload length read before. *)
Definition read_header (payloadlength : Z) (data : bytes) : outcome (Http2FrameHeader * bytes) :=
  t ← at_ data 3;
  f ← at_ data 4;
  r ← at_ data 5;
  let data := clear_top 5 data in
  s ← substr data 5 4;
  mret (mkHeader payloadlength t f (top_bit r) (bytes_int s), data).

Definition readFrame (data : bytes) : outcome (option Http2Frame) :=
  n ← substr data 0 3;
  '(header, data) ← read_header (bytes_int n) data;
  payload ← (if 9 <? slen data then substr data 9 npos else mret []);
  getFrameByType payload header.

(** [nextFrame] on the member [buffer]: the frame (or the null pointer) and the
    new buffer. *)
Definition nextFrame (buffer : bytes) : outcome (option Http2Frame * bytes) :=
  if 9 <=? slen buffer then
    n ← substr buffer 0 3;
    let payloadlength := bytes_int n in
    if 9 + payloadlength <=? wraps 32 (slen buffer) then
      '(header, buffer) ← read_header payloadlength buffer;
      payload ← substr buffer 9 payloadlength;
      buffer ← substr buffer (payloadlength + 9) npos;
      fr ← getFrameByType payload header;
      mret (fr, buffer)
    else mret (None, buffer)
  else mret (None, buffer).

(** [serialize] also stores the payload length in the frame. *)
Definition serialize (fr : Http2Frame) : outcome (bytes * Http2Frame) :=
  payload ← getFrameData fr;
  let fr := map_header (with_payloadLength (wraps 32 (slen payload))) fr in
  let h := getHeader fr in
  mret (int_bytes (payloadLength h) 3 ++ [type_ h] ++ [flags h]
        ++ put_bit 7 (reserved h) (int_bytes (streamIdentifier h) 4) ++ payload, fr).

(** The loop [while((frame=nextFrame())!=NULL)] of [readRequest], when no frame ends it early:
    every frame the buffer holds, and the bytes left over.  What [processFrame] does with a frame and
    the two ways it ends the loop are in [read_frames] of [Http2Handler]. *)
Fixpoint drain (fuel : nat) (buffer : bytes) : outcome (list Http2Frame * bytes) :=
  match fuel with
  | O => Out_of_fuel
  | S fuel' =>
      '(fr, buffer) ← nextFrame buffer;
      match fr with
      | None => mret ([], buffer)
      | Some fr => '(frs, buffer) ← drain fuel' buffer; mret (fr :: frs, buffer)
      end
  end.
Definition drain_buffer (buffer : bytes) := drain (S (length buffer)) buffer.

(** The socket delivers [chunks] one after the other; after each the buffer is
    drained. *)
Fixpoint receive (chunks : list bytes) (buffer : bytes) : outcome (list Http2Frame * bytes) :=
  match chunks with
  | [] => mret ([], buffer)
  | c :: chunks =>
      '(frs, buffer) ← drain_buffer (buffer ++ c);
      '(frs', buffer) ← receive chunks buffer;
      mret (frs ++ frs', buffer)
  end.

(** ** Framing of one frame *)

Lemma frame_wf_payloadLength n fr :
  frame_wf fr → frame_wf (map_header (with_payloadLength n) fr).
Proof. destruct fr as [f|f|f|f|f|f|f|f|f|f|f]; destruct f; intros Hwf; exact Hwf. Qed.
Lemma getFrameData_payloadLength n fr :
  getFrameData (map_header (with_payloadLength n) fr) = getFrameData fr.
Proof. destruct fr as [f|f|f|f|f|f|f|f|f|f|f]; destruct f; reflexivity. Qed.
Lemma getHeader_map_header g fr : getHeader (map_header g fr) = g (getHeader fr).
Proof. by destruct fr. Qed.

Lemma wraps32_le x : 0 ≤ x → wraps 32 x ≤ x.
Proof.
  intros. unfold wraps. change (2 ^ (32 - 1)) with 2147483648. change (2 ^ 32) with 4294967296.
  destruct (Z.le_gt_cases (x + 2147483648) 4294967295).
  - rewrite Z.mod_small; lia.
  - pose proof (Z.mod_pos_bound (x + 2147483648) 4294967296). lia.
Qed.

Lemma bytes_int_be3 n : 0 ≤ n < 2 ^ 24 → bytes_int (be_bytes 3 n) = n.
Proof.
  intros. unfold bytes_int. rewrite charArrayToULongLong_be_bytes by lia.
  rewrite Z.mod_small by lia. apply wraps_small; lia.
Qed.

(** The header read off nine bytes and more. *)
Lemma read_header_nine n a3 t fl b rs payload : slen a3 = 3 → slen rs = 3 →
  read_header n (a3 ++ t :: fl :: b :: rs ++ payload) =
  Ret (mkHeader n t fl (top_bit b) (bytes_int (Z.land b 127 :: rs)), a3 ++ t :: fl :: Z.land b 127 :: rs ++ payload).
Proof.
  intros H3 Hr. unfold read_header. rewrite (at_app_r a3 _ 3), at_0 by done. cbn [mbind outcome_bind].
  change (a3 ++ t :: fl :: b :: rs ++ payload) with (a3 ++ [t] ++ fl :: b :: rs ++ payload). rewrite (app_assoc a3 [t]).
  rewrite (at_app_r (a3 ++ [t]) _ 4), at_0 by (by rewrite slen_app, H3). cbn [mbind outcome_bind].
  rewrite <- (app_assoc a3 [t]). change ([t] ++ fl :: b :: rs ++ payload) with ([t; fl] ++ b :: rs ++ payload). rewrite (app_assoc a3 [t; fl]).
  rewrite (at_app_r (a3 ++ [t; fl]) _ 5), at_0 by (by rewrite slen_app, H3). cbn [mbind outcome_bind].
  assert (length (a3 ++ [t; fl]) = 5%nat) as H5 by (rewrite length_app; unfold slen in H3; cbn; lia).
  pose proof (clear_top_app (a3 ++ [t; fl]) b (rs ++ payload)) as Hc. rewrite H5 in Hc. rewrite Hc.
  change (Z.land b 127 :: rs ++ payload) with ((Z.land b 127 :: rs) ++ payload).
  rewrite (substr_app_mid (a3 ++ [t; fl]) (Z.land b 127 :: rs) payload 5 4); [|by rewrite slen_app, H3|by rewrite slen_cons, Hr].
  cbn [mbind outcome_bind mret outcome_ret]. by rewrite <- !app_assoc.
Qed.

(** The header bytes of a frame, in a form the reader takes apart. *)
Lemma read_header_bytes n t fl res sid :
  0 ≤ n < 2 ^ 24 → 0 ≤ sid < 2 ^ 31 →
  ∃ hd hd', slen hd = 9 ∧ slen hd' = 9 ∧ take 3 hd = be_bytes 3 n ∧
    (∀ payload, int_bytes n 3 ++ [t] ++ [fl] ++ put_bit 7 res (int_bytes sid 4) ++ payload = hd ++ payload) ∧
    (∀ payload, read_header n (hd ++ payload) = Ret (mkHeader n t fl res sid, hd' ++ payload)).
Proof.
  intros Hn Hs. change 3 with (Z.of_nat 3) at 1. rewrite int_bytes_be by lia.
  destruct (put_top_int sid res Hs) as (b & r & E & Hr & Hb & _ & _ & Hint). rewrite E.
  pose proof (be_bytes_length 3 n) as Hlen. revert Hlen.
  generalize (be_bytes 3 n) as l. intros [|l1 [|l2 [|l3 [|]]]] Hlen; try done.
  unfold slen in Hr. destruct r as [|r1 [|r2 [|r3 [|]]]]; simpl in Hr; try lia.
  exists [l1; l2; l3; t; fl; b; r1; r2; r3], [l1; l2; l3; t; fl; Z.land b 127; r1; r2; r3].
  repeat split; try done. intros payload. change ([l1; l2; l3; t; fl; b; r1; r2; r3] ++ payload) with ([l1; l2; l3] ++ t :: fl :: b :: [r1; r2; r3] ++ payload).
  rewrite read_header_nine by done. by rewrite Hb, Hint.
Qed.

(** The bytes written depend on the header and the payload only. *)
Lemma serialize_same fr1 fr2 s fr1' :
  getFrameData fr1 = getFrameData fr2 → getHeader fr1 = getHeader fr2 →
  serialize fr1 = Ret (s, fr1') → ∃ fr2', serialize fr2 = Ret (s, fr2').
Proof.
  intros Hd Hh Hs. unfold serialize in *. rewrite <- Hd.
  apply bind_Ret_inv in Hs as (p & -> & Hs). cbn [mbind outcome_bind].
  rewrite getHeader_map_header in *. rewrite <- Hh. injection Hs as <- _. by eexists.
Qed.

(** A frame that can be sent: well formed, payload within the 24-bit length. *)
Definition sendable (fr : Http2Frame) : Prop :=
  frame_wf fr ∧ ∃ payload, getFrameData fr = Ret payload ∧ slen payload < 2 ^ 24.

(** The bytes of a sendable frame: header and payload. *)
Lemma serialize_spec fr :
  sendable fr →
  ∃ hd hd' payload fr', serialize fr = Ret (hd ++ payload, fr') ∧
    slen hd = 9 ∧ slen hd' = 9 ∧ slen payload < 2 ^ 24 ∧
    fr' = map_header (with_payloadLength (slen payload)) fr ∧
    take 3 hd = be_bytes 3 (slen payload) ∧
    getFrameByType payload (getHeader fr') = Ret (Some fr') ∧
    ∀ rest, read_header (slen payload) (hd ++ rest) = Ret (getHeader fr', hd' ++ rest).
Proof.
  intros (Hwf & payload & Hd & Hlen). pose proof (slen_nonneg payload).
  set (fr' := map_header (with_payloadLength (slen payload)) fr).
  assert (frame_wf fr') as Hwf' by by apply frame_wf_payloadLength.
  destruct (frame_roundtrip_aux fr' Hwf') as (p & Hp & Hget).
  unfold fr' in Hp. rewrite getFrameData_payloadLength, Hd in Hp. injection Hp as <-.
  pose proof (frame_wf_type _ Hwf') as (_ & _ & Hsid).
  assert (payloadLength (getHeader fr') = slen payload) as Hpl
    by (unfold fr'; by rewrite getHeader_map_header).
  assert (serialize fr = Ret (int_bytes (payloadLength (getHeader fr')) 3 ++ [type_ (getHeader fr')]
    ++ [flags (getHeader fr')]
    ++ put_bit 7 (reserved (getHeader fr')) (int_bytes (streamIdentifier (getHeader fr')) 4) ++ payload, fr'))
    as Hser.
  { unfold serialize. rewrite Hd. cbn [mbind outcome_bind]. by rewrite wraps_small by lia. }
  rewrite Hser. assert (fr' = map_header (with_payloadLength (slen payload)) fr) as Hfr' by done.
  clearbody fr'.
  destruct (getHeader fr') as [n t fl res sid] eqn:Eh. cbn [payloadLength type_ flags reserved streamIdentifier] in *.
  subst n. destruct (read_header_bytes (slen payload) t fl res sid ltac:(lia) Hsid)
    as (hd & hd' & Hhd & Hhd' & Htake & E & Hread).
  exists hd, hd', payload, fr'. by rewrite E, Eh.
Qed.

Lemma substr_0_3 s : 3 ≤ slen s → substr s 0 3 = Ret (take 3 s).
Proof.
  intros. unfold substr. replace (slen s <? 0) with false by lia.
  by rewrite Z.min_l, drop_0 by lia.
Qed.

Lemma take_app_3 (s1 s2 : bytes) : 3 ≤ slen s1 → take 3 (s1 ++ s2) = take 3 s1.
Proof. intros. rewrite take_app_le; [done|]. unfold slen in *. lia. Qed.

(** The next frame is read off the front of the buffer, whatever follows. *)
Lemma nextFrame_serialize fr rest :
  sendable fr → slen rest < 2 ^ 30 →
  ∃ s fr', serialize fr = Ret (s, fr') ∧ 9 ≤ slen s < 2 ^ 25 ∧
    nextFrame (s ++ rest) = Ret (Some fr', rest).
Proof.
  intros Hs Hrest.
  destruct (serialize_spec fr Hs) as (hd & hd' & p & fr' & Hser & Hhd & Hhd' & Hp & _ & Htake & Hget & Hread).
  pose proof (slen_nonneg p). pose proof (slen_nonneg rest).
  exists (hd ++ p), fr'. split; [done|]. rewrite slen_app. split; [lia|].
  unfold nextFrame. rewrite <- app_assoc.
  assert (slen (hd ++ p ++ rest) = 9 + slen p + slen rest) as Hlen by (rewrite !slen_app; lia).
  rewrite Hlen. replace (9 <=? 9 + slen p + slen rest) with true by lia.
  rewrite substr_0_3, take_app_3, Htake by lia. cbn [mbind outcome_bind].
  rewrite bytes_int_be3, wraps_small by lia.
  replace (9 + slen p <=? 9 + slen p + slen rest) with true by lia.
  rewrite Hread. cbn [mbind outcome_bind].
  rewrite (substr_app_mid hd' p rest 9 (slen p)) by done. cbn [mbind outcome_bind].
  rewrite app_assoc, substr_app_r by (rewrite ?slen_app; unfold npos; lia).
  cbn [mbind outcome_bind]. by rewrite Hget.
Qed.

(** The same with the payload named. *)
Lemma nextFrame_payload fr payload rest :
  sendable fr → getFrameData fr = Ret payload → slen rest < 2 ^ 30 →
  ∃ s, serialize fr = Ret (s, map_header (with_payloadLength (slen payload)) fr) ∧
    9 ≤ slen s < 2 ^ 25 ∧
    nextFrame (s ++ rest) = Ret (Some (map_header (with_payloadLength (slen payload)) fr), rest).
Proof.
  intros Hs Hp Hrest.
  destruct (nextFrame_serialize fr rest Hs Hrest) as (s & fr' & Hser & Hl & Hnext).
  assert (fr' = map_header (with_payloadLength (slen payload)) fr) as ->.
  { destruct Hs as (_ & p & Hp' & Hlen). rewrite Hp in Hp'. injection Hp' as <-. pose proof (slen_nonneg payload).
    unfold serialize in Hser. rewrite Hp in Hser. cbn [mbind outcome_bind] in Hser.
    injection Hser as _ <-. by rewrite wraps_small by lia. }
  by exists s.
Qed.

(** A proper prefix of a frame yields nothing and stays in the buffer. *)
Lemma nextFrame_prefix fr s fr' p q :
  sendable fr → serialize fr = Ret (s, fr') → s = p ++ q → q ≠ [] →
  nextFrame p = Ret (None, p).
Proof.
  intros Hs Hser E Hq.
  destruct (serialize_spec fr Hs) as (hd & hd' & pl & fr'' & Hser' & Hhd & _ & Hpl & _ & Htake & _).
  rewrite Hser in Hser'. injection Hser' as E' _. rewrite E in E'.
  assert (1 ≤ slen q) by (destruct q; [done|]; rewrite slen_cons; pose proof (slen_nonneg q); lia).
  assert (slen p + slen q = 9 + slen pl) as Hlen by (rewrite <- Hhd, <- !slen_app; congruence).
  pose proof (slen_nonneg pl). unfold nextFrame.
  destruct (Z.leb_spec 9 (slen p)); [|done].
  assert (take 3 p = be_bytes 3 (slen pl)) as Htp.
  { rewrite <- Htake, <- (take_app_3 p q), <- (take_app_3 hd pl) by lia. by rewrite E'. }
  rewrite substr_0_3, Htp by lia. cbn [mbind outcome_bind].
  rewrite bytes_int_be3, wraps_small by lia.
  by replace (9 + slen pl <=? slen p) with false by lia.
Qed.

(** ** Reassembly *)

(** A run of frames on the wire: their serializations, one after the other, and
    the frames as the peer will see them. *)
Inductive on_wire : list Http2Frame → bytes → list Http2Frame → Prop :=
| on_wire_nil : on_wire [] [] []
| on_wire_cons fr frs s fr' t frs' :
    sendable fr → serialize fr = Ret (s, fr') → on_wire frs t frs' →
    on_wire (fr :: frs) (s ++ t) (fr' :: frs').

Lemma sendable_slen fr s fr' : sendable fr → serialize fr = Ret (s, fr') → 9 ≤ slen s.
Proof.
  intros Hs Hser. destruct (nextFrame_serialize fr [] Hs) as (s' & fr'' & Hser' & ? & _); [done|].
  rewrite Hser in Hser'. injection Hser' as <- <-. lia.
Qed.

Lemma on_wire_nil_inv frs w frs' : on_wire frs w frs' → w = [] → frs' = [].
Proof.
  destruct 1 as [|fr frs s fr' t frs' Hs Hser _]; [done|]. intros E.
  pose proof (sendable_slen _ _ _ Hs Hser). apply app_eq_nil in E as [-> _].
  by rewrite slen_nil in *.
Qed.

(** Draining a prefix of the wire: the complete frames come out, and what stays
    is the beginning of the next one. *)
Lemma drain_prefix frs w frs' buffer later fuel :
  on_wire frs w frs' → w = buffer ++ later → slen w < 2 ^ 30 → slen buffer < Z.of_nat fuel →
  ∃ out rest w' frs'', drain fuel buffer = Ret (out, rest) ∧
    on_wire frs'' w' (drop (length out) frs') ∧ w' = rest ++ later ∧ slen rest ≤ slen buffer ∧
    out = take (length out) frs' ∧ (later = [] → rest = [] ∧ out = frs').
Proof.
  intros Hw. revert buffer fuel. induction Hw as [|fr frs s fr' t frs' Hs Hser Hw IH]; intros buffer fuel E Hlt Hfuel.
  - symmetry in E. apply app_eq_nil in E as [-> ->]. destruct fuel as [|fuel]; [rewrite slen_nil in Hfuel; lia|].
    exists [], [], [], []. by repeat split; try constructor.
  - pose proof (sendable_slen _ _ _ Hs Hser) as H9. rewrite slen_app in Hlt.
    pose proof (slen_nonneg t). pose proof (slen_nonneg buffer).
    destruct fuel as [|fuel]; [lia|]. cbn [drain].
    destruct (decide (slen s ≤ slen buffer)) as [Hle|Hgt].
    + assert (∃ b2, buffer = s ++ b2 ∧ t = b2 ++ later) as (b2 & -> & Et).
      { exists (drop (length s) buffer).
        assert (take (length s) buffer = s) as Htk.
        { rewrite <- (take_app_le buffer later) by (unfold slen in *; lia).
          rewrite <- E. apply take_app_length. }
        split; [by rewrite <- Htk at 1; rewrite take_drop|].
        rewrite <- (take_drop (length s) buffer), Htk, <- app_assoc in E.
        by apply app_inv_head in E. }
      destruct (nextFrame_serialize fr b2 Hs) as (s' & fr'' & Hser' & _ & Hnext).
      { rewrite Et, slen_app in Hlt. pose proof (slen_nonneg later). lia. }
      rewrite Hser in Hser'. injection Hser' as <- <-. rewrite Hnext. cbn [mbind outcome_bind].
      rewrite slen_app in Hfuel.
      destruct (IH b2 fuel Et ltac:(lia) ltac:(lia)) as (out & rest & w' & frs'' & -> & ? & ? & ? & Hout & Hfin).
      exists (fr' :: out), rest, w', frs''. rewrite slen_app. cbn. repeat (split; [done || lia|]).
      split; [by rewrite <- Hout|]. intros Hl. destruct (Hfin Hl) as [-> ->]. done.
    + assert (∃ q, s = buffer ++ q ∧ q ≠ []) as (q & Es & Hq).
      { exists (drop (length buffer) s). split.
        - rewrite <- (take_drop (length buffer) s) at 1. f_equal.
          rewrite <- (take_app_le s t) by (unfold slen in *; lia). rewrite E. apply take_app_length.
        - intros Hnil. apply (f_equal length) in Hnil. rewrite length_drop in Hnil.
          unfold slen in *. cbn in Hnil. lia. }
      rewrite (nextFrame_prefix fr s fr' buffer q) by done. cbn [mbind outcome_bind].
      exists [], buffer, (s ++ t), (fr :: frs). split; [done|]. split; [by econstructor|].
      split; [done|]. split; [lia|]. split; [done|].
      intros ->. exfalso. rewrite app_nil_r in E. apply (f_equal slen) in E.
      rewrite slen_app in E. lia.
Qed.

(** Reading chunk by chunk yields the frames on the wire. *)
Lemma receive_frames frs w frs' chunks :
  on_wire frs w frs' → concat chunks = w → slen w < 2 ^ 30 →
  receive chunks [] = Ret (frs', []).
Proof.
  intros Hw Hc Hlt.
  assert (∀ chunks frs w frs' buffer, on_wire frs w frs' → buffer ++ concat chunks = w →
    slen w < 2 ^ 30 → (chunks = [] → w = []) →
    receive chunks buffer = Ret (frs', [])) as H.
  { clear. induction chunks as [|c chunks IH]; intros frs w frs' buffer Hw E Hlt Hnil.
    - specialize (Hnil eq_refl). rewrite Hnil in Hw, E. clear w Hnil Hlt. cbn in E. rewrite app_nil_r in E. subst buffer.
      by rewrite (on_wire_nil_inv _ _ _ Hw).
    - cbn [receive]. unfold drain_buffer. cbn [concat] in E. rewrite app_assoc in E.
      destruct (drain_prefix frs w frs' (buffer ++ c) (concat chunks) (S (length (buffer ++ c))) Hw
        ltac:(done) Hlt ltac:(unfold slen; lia)) as (out & rest & w' & frs'' & -> & Hw' & Ew' & Hrest & Hout & Hfin).
      cbn [mbind outcome_bind]. rewrite (IH frs'' w' (drop (length out) frs') rest Hw' ltac:(done)).
      + cbn [mbind outcome_bind]. rewrite Hout at 1. by rewrite take_drop.
      + rewrite Ew', slen_app. rewrite <- E, slen_app in Hlt. lia.
      + intros ->. destruct (Hfin eq_refl) as [-> _]. by rewrite Ew'. }
  apply (H chunks frs w frs' []); try done. by intros ->.
Qed.

(** Every sendable frame written by [serialize] is what [nextFrame] reads
    from the front of the connection buffer, and the bytes behind it stay. *)
Theorem serialize_nextFrame fr rest :
  sendable fr → slen rest < 2 ^ 30 →
  ∃ s fr', serialize fr = Ret (s, fr') ∧ fr' = map_header (with_payloadLength (slen s - 9)) fr ∧
    nextFrame (s ++ rest) = Ret (Some fr', rest).
Proof.
  intros Hs Hrest.
  destruct (nextFrame_serialize fr rest Hs Hrest) as (s & fr' & Hser & _ & Hnext).
  destruct (serialize_spec fr Hs) as (hd & hd' & p & fr'' & Hser' & Hhd & _ & _ & Hfr & _).
  rewrite Hser in Hser'. injection Hser' as -> ->.
  exists (hd ++ p), fr''. split; [done|]. split; [|done].
  rewrite slen_app, Hhd. by replace (9 + slen p - 9) with (slen p) by lia.
Qed.

(** C3: reassembly.  However the bytes of a run of frames are cut into chunks by
    the transport, reading chunk by chunk yields exactly those frames, in order,
    and leaves the buffer empty. *)
Theorem receive_reassembles frs w frs' chunks :
  on_wire frs w frs' → concat chunks = w → slen w < 2 ^ 30 →
  receive chunks [] = Ret (frs', []).
Proof. apply receive_frames. Qed.

(** ** Every buffer *)

Lemma bytes_int_3 s : slen s ≤ 3 → 0 ≤ bytes_int s < 2 ^ 24.
Proof.
  intros. pose proof (charArrayToULongLong_lt s ltac:(lia)).
  assert (256 ^ slen s ≤ 256 ^ 3) by (apply Z.pow_le_mono_r; lia).
  unfold bytes_int. rewrite wraps_small; lia.
Qed.

Lemma substr_slen s pos n t : substr s pos n = Ret t → 0 ≤ n → slen t ≤ n ∧ (0 ≤ pos → slen t ≤ slen s - pos).
Proof.
  unfold substr, slen. case_match; [done|]. intros [= <-] Hn.
  rewrite length_take, length_drop. unfold slen in *. lia.
Qed.

Lemma read_header_terminates n data : terminates (read_header n data).
Proof. unfold read_header, mret, outcome_ret. solve_terminates. Qed.

Lemma nextFrame_terminates buffer : terminates (nextFrame buffer).
Proof.
  pose proof getFrameByType_terminates. pose proof read_header_terminates.
  unfold nextFrame, mret, outcome_ret. solve_terminates.
Qed.

Lemma clear_top_slen i s : slen (clear_top i s) = slen s.
Proof. unfold slen, clear_top, upd. by rewrite length_alter. Qed.

(** A frame takes at least its header off the buffer. *)
Lemma nextFrame_progress buffer fr buffer' :
  nextFrame buffer = Ret (Some fr, buffer') → slen buffer' + 9 ≤ slen buffer.
Proof.
  unfold nextFrame, read_header, mret, outcome_ret. intros H.
  destruct (9 <=? slen buffer) eqn:H9; [|done].
  apply bind_Ret_inv in H as (n & Hn & H).
  destruct (substr_slen _ _ _ _ Hn ltac:(lia)) as [Hn3 _].
  pose proof (bytes_int_3 n Hn3) as Hpl.
  destruct (9 + bytes_int n <=? _); [|done].
  apply bind_Ret_inv in H as ([h b] & Hh & H). inv_ret.
  match goal with H : substr (clear_top _ _) (_ + 9) npos = Ret _ |- _ =>
    apply substr_slen in H as [_ H]; [|unfold npos; lia]; rewrite clear_top_slen in H end.
  simplify_eq. lia.
Qed.

(** Draining ends on every buffer, whatever bytes it holds: the budget of
    one step per byte is never exhausted. *)
Theorem drain_terminates buffer : terminates (drain_buffer buffer).
Proof.
  unfold drain_buffer.
  assert (∀ fuel buffer, slen buffer < Z.of_nat fuel → terminates (drain fuel buffer)) as H.
  { clear. induction fuel as [|fuel IH]; intros buffer Hf.
    - pose proof (slen_nonneg buffer). lia.
    - cbn [drain]. apply terminates_bind; [apply nextFrame_terminates|].
      intros [[fr|] b] Hn; [|done]. apply terminates_bind; [|by intros []].
      apply nextFrame_progress in Hn. apply IH. lia. }
  apply H. unfold slen. lia.
Qed.

(** A frame of a type the server does not know is taken off the buffer, but
    the null pointer it yields also ends the read loop: the frames behind it
    stay unread until the socket delivers more bytes. *)
Theorem unknown_frame_ends_drain t fl res sid payload rest :
  10 < t < 256 → 0 ≤ sid < 2 ^ 31 → slen payload < 2 ^ 24 → slen rest < 2 ^ 30 →
  drain_buffer (int_bytes (slen payload) 3 ++ [t] ++ [fl] ++ put_bit 7 res (int_bytes sid 4)
                ++ payload ++ rest) = Ret ([], rest).
Proof.
  intros Ht Hs Hp Hr. pose proof (slen_nonneg payload). pose proof (slen_nonneg rest).
  destruct (read_header_bytes (slen payload) t fl res sid ltac:(lia) Hs)
    as (hd & hd' & Hhd & Hhd' & Htake & E & Hread).
  rewrite E. unfold drain_buffer. cbn [drain].
  assert (slen (hd ++ payload ++ rest) = 9 + slen payload + slen rest) as Hlen by (rewrite !slen_app; lia).
  unfold nextFrame. rewrite Hlen. replace (9 <=? 9 + slen payload + slen rest) with true by lia.
  rewrite substr_0_3, take_app_3, Htake by lia. cbn [mbind outcome_bind].
  rewrite bytes_int_be3, wraps_small by lia.
  replace (9 + slen payload <=? 9 + slen payload + slen rest) with true by lia.
  rewrite Hread. cbn [mbind outcome_bind].
  rewrite (substr_app_mid hd' payload rest 9 (slen payload)) by done. cbn [mbind outcome_bind].
  rewrite (app_assoc hd'), substr_app_r by (rewrite ?slen_app; unfold npos; lia).
  cbn [mbind outcome_bind]. unfold getFrameByType. cbn [type_].
  rewrite !(proj2 (Z.eqb_neq t _)) by lia. done.
Qed.

(** ** Concrete runs *)

Definition sample_ping : Http2Frame := PingFrame (mkPing (mkHeader 0 6 0 false 0) 258).
Definition sample_data : Http2Frame := DataFrame (mkData (mkHeader 0 0 1 false 3) None (str "hi") []).

Lemma sample_ping_sendable : sendable sample_ping.
Proof.
  split; [|by exists [0; 0; 0; 0; 0; 0; 1; 2]].
  repeat split; cbn; lia.
Defined.
Lemma sample_data_sendable : sendable sample_data.
Proof.
  split; [|by exists (str "hi")].
  unfold sample_data, frame_wf, header_wf, long_ok, byte_ok. cbn. repeat split; done || lia.
Defined.

Example serialize_nextFrame_witness :
  slen [1; 2] < 2 ^ 30 ∧
  ∃ s fr', serialize sample_ping = Ret (s, fr') ∧
    fr' = map_header (with_payloadLength (slen s - 9)) sample_ping ∧
    nextFrame (s ++ [1; 2]) = Ret (Some fr', [1; 2]).
Proof.
  split; [done|]. apply (serialize_nextFrame sample_ping [1; 2]); [apply sample_ping_sendable|done].
Defined.

Definition sample_wire : bytes :=
  [0; 0; 8; 6; 0; 0; 0; 0; 0; 0; 0; 0; 0; 0; 0; 1; 2;  0; 0; 2; 0; 1; 0; 0; 0; 3; 104; 105].

Example receive_reassembles_witness :
  receive [take 5 sample_wire; take 14 (drop 5 sample_wire); drop 19 sample_wire] []
  = Ret ([map_header (with_payloadLength 8) sample_ping; map_header (with_payloadLength 2) sample_data], []).
Proof.
  apply (receive_reassembles [sample_ping; sample_data] sample_wire); [|done|done].
  apply (on_wire_cons sample_ping [sample_data] (take 17 sample_wire) _ (drop 17 sample_wire));
    [apply sample_ping_sendable|reflexivity|].
  apply (on_wire_cons sample_data [] (drop 17 sample_wire) _ []);
    [apply sample_data_sendable|reflexivity|constructor].
Defined.

Example unknown_frame_ends_drain_witness :
  drain_buffer ([0; 0; 1; 99; 0; 0; 0; 0; 5; 7] ++ sample_wire) = Ret ([], sample_wire).
Proof. apply (unknown_frame_ends_drain 99 0 false 5 [7] sample_wire); done || lia. Defined.
