(* ===== verification/Http2Types.v ===== *)
(** * Http2Types

    The types of the frames a peer can make the server build: whatever bytes
    arrive, the members of a parsed frame are in the range of their C++ types, its
    class is the one its type byte says, and its settings are a map from 16-bit
    to 32-bit numbers. *)

From S2P Require Import Prelude ByteCodec StdMap Http2Frames Http2Wire.

(** ** Typed frames *)

Definition header_typed (h : Http2FrameHeader) : Prop :=
  0 ≤ payloadLength h < 2 ^ 24 ∧ byte_ok (type_ h) ∧ byte_ok (flags h) ∧ stream31 (streamIdentifier h).

Definition frame_typed (fr : Http2Frame) : Prop :=
  header_typed (getHeader fr) ∧ type_ (getHeader fr) = frame_type fr ∧
  match fr with
  | DataFrame f => (∀ p, df_padLength f = Some p → byte_ok p) ∧ bytes_ok (df_data f) ∧ bytes_ok (df_padding f)
  | HeadersFrame f => byte_ok (hf_padLength f) ∧ (∀ d, hf_streamDependency f = Some d → stream31 d) ∧
      (∀ w, hf_weight f = Some w → byte_ok w) ∧ bytes_ok (hf_headerBlockFragment f) ∧ bytes_ok (hf_padding f)
  | PriorityFrame f => stream31 (pf_streamDependency f) ∧ byte_ok (pf_weight f)
  | ResetStreamFrame f => 0 ≤ rf_errorCode f < 2 ^ 32
  | SettingsFrame f => streamIdentifier (sf_header f) = 0 ∧ sorted (sf_settings f) ∧
      Forall (λ kv, 0 ≤ kv.1 < 2 ^ 16 ∧ 0 ≤ kv.2 < 2 ^ 32) (sf_settings f)
  | PushPromiseFrame f => byte_ok (ppf_padLength f) ∧ stream31 (ppf_promisedStreamId f) ∧
      bytes_ok (ppf_headerBlockFragment f) ∧ bytes_ok (ppf_padding f) ∧ ppf_headers f = []
  | PingFrame f => 0 ≤ pgf_opaqueData f < 2 ^ 64
  | GoAwayFrame f => stream31 (gf_lastStreamId f) ∧ 0 ≤ gf_errorCode f < 2 ^ 32 ∧ bytes_ok (gf_additionalDebugData f)
  | WindowUpdateFrame f => stream31 (wf_windowSizeIncrement f)
  | ContinuationFrame f => bytes_ok (cf_headerBlockFragment f)
  | AlternativeServicesFrame f => 0 ≤ asf_maxAge f < 2 ^ 32 ∧ 0 ≤ asf_port f < 2 ^ 16 ∧ byte_ok (asf_protoLength f) ∧
      byte_ok (asf_hostLength f) ∧ bytes_ok (asf_protocolId f) ∧ bytes_ok (asf_host f) ∧ bytes_ok (asf_origin f)
  end.

(** ** Parts *)

Lemma wrapu_range w x : 0 < w → 0 ≤ wrapu w x < 2 ^ w.
Proof. intros. apply wrapu_bound. lia. Qed.

Lemma land_127_byte b : byte_ok b → 0 ≤ Z.land b 127 < 128.
Proof. intros _. change 127 with (Z.ones 7). rewrite Z.land_ones by lia. apply Z.mod_pos_bound. lia. Qed.

Lemma clear_top_ok i s : bytes_ok s → bytes_ok (clear_top i s).
Proof.
  intros Hs. unfold clear_top, upd. apply Forall_alter; [done|]. intros b _ Hb. pose proof (land_127_byte b Hb). unfold byte_ok. lia.
Qed.

(** At most four bytes, the first without its top bit, are a 31-bit number. *)
Lemma bytes_int_31 b l : 0 ≤ b < 128 → bytes_ok l → slen l ≤ 3 → stream31 (bytes_int (b :: l)).
Proof.
  intros Hb Hl Hlen. unfold bytes_int, stream31.
  assert (be_value (b :: l) = b * 256 ^ slen l + be_value l) as E.
  { clear Hlen. induction l as [|c l IH] using rev_ind; [change (b = b * 1 + 0); lia|].
    apply bytes_ok_app in Hl as [Hl _]. change (b :: l ++ [c]) with ((b :: l) ++ [c]).
    rewrite !be_value_snoc, IH, slen_app by done. change (slen [c]) with 1. rewrite Z.pow_add_r by (unfold slen; lia). change (256 ^ 1) with 256. ring. }
  rewrite charArrayToULongLong_value; [|constructor; [unfold byte_ok; lia|done]|rewrite slen_cons; lia].
  pose proof (be_value_bound l Hl) as Hv. pose proof (slen_nonneg l).
  assert (256 ^ slen l ≤ 256 ^ 3) by (apply Z.pow_le_mono_r; lia). change (256 ^ 3) with 16777216 in *.
  rewrite E. rewrite wraps_small; nia.
Qed.

Lemma drop_alter (f : Z → Z) i s : drop i (alter f i s) = match drop i s with [] => [] | b :: l => f b :: l end.
Proof.
  revert s. induction i as [|i IH]; intros [|b s]; try done. cbn. apply IH.
Qed.

Lemma ensures_stream31 i s : bytes_ok s → ensures (λ d, stream31 (bytes_int d)) (substr (clear_top i s) (Z.of_nat i) 4).
Proof.
  intros Hs d. unfold substr. case_match; [done|]. intros [= <-]. rewrite Nat2Z.id. unfold clear_top, upd. rewrite drop_alter.
  assert (bytes_ok (drop i s)) as Hd by by apply Forall_drop.
  destruct (drop i s) as [|b l]; [by rewrite take_nil|]. apply Forall_cons in Hd as [Hb Hl].
  set (n := Z.to_nat (Z.min 4 (slen (alter _ i s)))). assert (n ≤ 4)%nat as Hn by (unfold n; lia). clearbody n.
  destruct n as [|n]; [change (stream31 0); unfold stream31; lia|].
  cbn [take]. apply bytes_int_31; [by apply land_127_byte|by apply Forall_take|]. unfold slen. rewrite length_take. lia.
Qed.

Lemma settings_loop_typed fuel : ∀ rest m,
  sorted m → Forall (λ kv, 0 ≤ kv.1 < 2 ^ 16 ∧ 0 ≤ kv.2 < 2 ^ 32) m →
  sorted (settings_loop fuel rest m) ∧ Forall (λ kv, 0 ≤ kv.1 < 2 ^ 16 ∧ 0 ≤ kv.2 < 2 ^ 32) (settings_loop fuel rest m).
Proof.
  induction fuel as [|fuel IH]; intros rest m Hs Hf; [done|]. cbn [settings_loop]. destruct (6 <=? slen rest); [|done].
  apply IH; [by apply sorted_mset|]. revert Hf. generalize (wrapu_range 16 (charArrayToULongLong (take 2 rest)) ltac:(lia)).
  generalize (wrapu_range 32 (charArrayToULongLong (take 4 (drop 2 rest))) ltac:(lia)).
  generalize (wrapu 16 (charArrayToULongLong (take 2 rest))) (wrapu 32 (charArrayToULongLong (take 4 (drop 2 rest)))).
  intros k v Hv Hk Hf. clear -Hv Hk Hf. induction Hf as [|[k' v'] m Hkv Hf IH]; cbn [mset]; [by apply Forall_singleton|].
  repeat case_match; repeat (apply Forall_cons; split; [done|]); done.
Qed.

(** ** Frames *)

(** One step of a parser: the bound variable gets the type of what it binds. *)
Ltac typed_step :=
  match goal with
  | |- ensures _ (substr (clear_top ?i _) ?j 4 ≫= _) =>
      apply (ensures_bind (λ d, stream31 (bytes_int d))); [by apply (ensures_stream31 i)|intros ? ?]
  | |- ensures _ (substr _ _ _ ≫= _) =>
      apply (ensures_bind bytes_ok); [apply ensures_substr; try apply clear_top_ok; done|intros ? ?]
  | |- ensures _ (at_ _ _ ≫= _) =>
      apply (ensures_bind byte_ok); [apply ensures_at; try apply clear_top_ok; done|intros ? ?]
  | |- ensures _ (index_ _ _ ≫= _) =>
      apply (ensures_bind byte_ok); [apply ensures_index; try apply clear_top_ok; done|intros ? ?]
  | |- ensures _ (mret _) => apply ensures_Ret
  | |- ensures _ (if _ then _ else _) => case_match
  end.

Ltac typed_done := split_and!; first [done | apply bytes_ok_nil | by intros ? [= <-] | by apply wrapu_range].

(** A header with the type of a class. *)
Lemma header_typed_with t h : header_typed h → byte_ok t → header_typed (with_type t h).
Proof. by intros (? & _ & ? & ?) ?. Qed.

Section parsers.
Context (data : bytes) (h : Http2FrameHeader) (Hd : bytes_ok data) (Hh : header_typed h).

Lemma byte_ok_0 : byte_ok 0.
Proof. unfold byte_ok. lia. Qed.

Lemma Headers_typed : ensures (λ f, frame_typed (HeadersFrame f)) (Http2HeadersFrame_parse data h).
Proof.
  unfold Http2HeadersFrame_parse.
  apply (ensures_bind (λ x, byte_ok x.1 ∧ (x.2 = 0 ∨ x.2 = 1))).
  { repeat typed_step; split; try done; [by right|by left]. }
  intros [padLength stind] [Hp Hst]. cbn [fst snd] in *.
  apply (ensures_bind (λ x : bytes * option bool * option Z * option Z * Z, let '(d, _, dep, w, _) := x in
    bytes_ok d ∧ (∀ v, dep = Some v → stream31 v) ∧ (∀ v, w = Some v → byte_ok v))).
  { destruct (isPriority _).
    - typed_step. apply (ensures_bind (λ d, stream31 (bytes_int d))).
      { destruct Hst as [-> | ->]; [by apply (ensures_stream31 0)|by apply (ensures_stream31 1)]. }
      intros d Hdep. typed_step. typed_step. split_and!; [by apply clear_top_ok|by intros v [= <-]|by intros v [= <-]].
    - by typed_step. }
  intros [[[[d e] dep] w] s] (Hd' & Hdep & Hw).
  repeat typed_step; (split; [by apply header_typed_with|]; split; [done|]; typed_done).
Qed.

Lemma parsed_typed fr : getFrameByType data h = Ret (Some fr) → frame_typed fr.
Proof.
  revert fr. cut (ensures (λ o, ∀ fr, o = Some fr → frame_typed fr) (getFrameByType data h)).
  { intros H fr E. by apply (H _ E). }
  assert (∀ {A} (o : outcome A) (c : A → Http2Frame),
    ensures (λ a, frame_typed (c a)) o → ensures (λ o, ∀ fr, o = Some fr → frame_typed fr) (a ← o; mret (Some (c a)))) as Hwrap.
  { intros A o c Ho. eapply ensures_bind; [exact Ho|]. intros a Ha. apply ensures_Ret. by intros fr [= <-]. }
  assert (∀ t, t ∈ seqZ 0 11 → header_typed (with_type t h)) as Ht.
  { intros t [? ?]%elem_of_seqZ. apply header_typed_with; [done|]. unfold byte_ok. lia. }
  unfold getFrameByType. repeat case_match; (apply Hwrap || (by apply ensures_Ret)).
  - unfold Http2DataFrame_parse. repeat typed_step; (split; [by apply Ht, elem_of_seqZ|]; split; [done|]; typed_done).
  - apply Headers_typed.
  - unfold Http2PriorityFrame_parse. repeat typed_step. split; [by apply Ht, elem_of_seqZ|]. done.
  - unfold Http2ResetStreamFrame_parse. repeat typed_step. split; [by apply Ht, elem_of_seqZ|]. split; [done|]. by apply wrapu_range.
  - unfold Http2SettingsFrame_parse. typed_step. split.
    { destruct Hh as (? & ? & ? & ?). split_and!; try done; cbn; unfold stream31; lia. }
    split; [done|]. split; [done|]. by apply settings_loop_typed.
  - unfold Http2PushPromiseFrame_parse. repeat typed_step; (split; [by apply Ht, elem_of_seqZ|]; split; [done|]; typed_done).
  - unfold Http2PingFrame_parse. repeat typed_step. split; [by apply Ht, elem_of_seqZ|]. split; [done|]. apply charArrayToULongLong_bound.
  - unfold Http2GoAwayFrame_parse. repeat typed_step. split; [by apply Ht, elem_of_seqZ|]. split; [done|]. typed_done.
  - unfold Http2WindowUpdateFrame_parse. repeat typed_step. split; [by apply Ht, elem_of_seqZ|]. done.
  - unfold Http2ContinuationFrame_parse. repeat typed_step. split; [by apply Ht, elem_of_seqZ|]. done.
  - unfold Http2AlternativeServicesFrame_parse. repeat typed_step. split; [by apply Ht, elem_of_seqZ|]. split; [done|]. typed_done.
Qed.
End parsers.

(** ** The connection *)

(** A parsed frame is of the class of the type in the header, and has that header, but that
    settings are for the connection. *)
Lemma parsed_class data h fr : getFrameByType data h = Ret (Some fr) →
  frame_type fr = type_ h ∧
  getHeader fr = match fr with SettingsFrame _ => with_streamIdentifier 0 h | _ => h end.
Proof.
  intros H. unfold getFrameByType in H.
  assert (∀ t, (type_ h =? t) = true → t = type_ h ∧ with_type t h = h) as Ht by (intros t Et; split; [|apply with_type_id]; lia).
  repeat match type of H with (if ?b then _ else _) = _ => destruct b eqn:? end; try done;
    (match goal with E : (type_ h =? _) = true |- _ => destruct (Ht _ E) as [Et Ew] end);
    apply bind_Ret_inv in H as (f & Hp & [= <-]);
    unfold Http2DataFrame_parse, Http2HeadersFrame_parse, Http2PriorityFrame_parse, Http2ResetStreamFrame_parse, Http2SettingsFrame_parse,
      Http2PushPromiseFrame_parse, Http2PingFrame_parse, Http2GoAwayFrame_parse, Http2WindowUpdateFrame_parse, Http2ContinuationFrame_parse,
      Http2AlternativeServicesFrame_parse in Hp; rewrite ?Ew in Hp; (split; [exact Et|]);
    repeat first [progress inv_ret | case_match]; try done; by match goal with E : mret _ = Ret f |- _ => injection E as <- end.
Qed.
Lemma unknown_type data h : byte_ok (type_ h) → getFrameByType data h = Ret None → 10 < type_ h.
Proof.
  intros [H0 _] H. unfold getFrameByType in H.
  repeat match type of H with (if ?b then _ else _) = _ => destruct b eqn:? end; try (by apply bind_Ret_inv in H as (f & _ & [=])). lia.
Qed.

(** Bytes on the wire and what becomes of them: a length, a type, flags, a stream and as many
    bytes of payload as the length says; and a frame of that very type, with that header, or
    none if there is no class for the type. *)
Definition frame_of (w : bytes) (o : option Http2Frame) : Prop :=
  ∃ len t fl b rs payload, w = len ++ t :: fl :: b :: rs ++ payload ∧ slen len = 3 ∧ slen rs = 3 ∧ slen payload = bytes_int len ∧
    match o with
    | Some fr =>
        frame_typed fr ∧ frame_type fr = t ∧
        getHeader fr = mkHeader (bytes_int len) t fl (top_bit b)
          (match fr with SettingsFrame _ => 0 | _ => bytes_int (Z.land b 127 :: rs) end)
    | None => 10 < t
    end.

Lemma bytes_int_24 s : bytes_ok s → slen s = 3 → 0 ≤ bytes_int s < 2 ^ 24.
Proof.
  intros Hok Hl. pose proof (be_value_bound s Hok) as Hv. rewrite Hl in Hv.
  unfold bytes_int. rewrite charArrayToULongLong_value, wraps_small; lia || done.
Qed.
Lemma nine_bytes (s : bytes) : 9 ≤ slen s → ∃ len t fl b rs tl, s = len ++ t :: fl :: b :: rs ++ tl ∧ slen len = 3 ∧ slen rs = 3.
Proof.
  intros H. do 9 (destruct s as [|? s]; [unfold slen in H; cbn in H; lia|]).
  by exists [z; z0; z1], z2, z3, z4, [z5; z6; z7], s.
Qed.
Lemma take_sized (n : Z) (s : bytes) : 0 ≤ n ≤ slen s → ∃ p q, s = p ++ q ∧ slen p = n.
Proof.
  intros H. exists (take (Z.to_nat n) s), (drop (Z.to_nat n) s). split; [by rewrite take_drop|].
  unfold slen in *. rewrite length_take. lia.
Qed.

(** [nextFrame] leaves the buffer alone, or takes one frame off it. *)
Lemma nextFrame_typed buffer o b' : bytes_ok buffer → slen buffer ≤ npos → nextFrame buffer = Ret (o, b') →
  o = None ∧ b' = buffer ∨ ∃ w, buffer = w ++ b' ∧ frame_of w o.
Proof.
  intros Hb Hmax. unfold nextFrame. destruct (9 <=? slen buffer) eqn:E9; [|intros [= <- <-]; by left].
  destruct (nine_bytes buffer ltac:(lia)) as (len & t & fl & b & rs & tl & E & H3 & Hr).
  assert (9 + slen tl = slen buffer) as Hl by (rewrite E, !slen_app, !slen_cons, slen_app; lia).
  assert (substr buffer 0 3 = Ret len) as -> by (rewrite substr_0_3, E, take_app_3, take_ge by (unfold slen in *; lia); done).
  rewrite bind_Ret_l. cbv zeta. destruct (9 + bytes_int len <=? wraps 32 (slen buffer)) eqn:Ew; [|intros [= <- <-]; by left].
  pose proof (wraps32_le (slen buffer) (slen_nonneg _)) as Hwr. subst buffer.
  apply bytes_ok_app in Hb as [Hlen Hb]. pose proof (bytes_int_24 len Hlen H3) as Hn.
  repeat (apply Forall_cons in Hb as [? Hb]). apply bytes_ok_app in Hb as [Hrs Htl].
  rewrite read_header_nine, bind_Ret_l by done.
  destruct (take_sized (bytes_int len) tl ltac:(lia)) as (p & q & -> & Hp). apply bytes_ok_app in Htl as [Hpok Hq].
  pose proof (slen_nonneg q). rewrite slen_app in Hl. set (hd := len ++ [t; fl; Z.land b 127] ++ rs).
  assert (len ++ t :: fl :: Z.land b 127 :: rs ++ p ++ q = hd ++ p ++ q) as -> by (unfold hd; by rewrite <- !app_assoc).
  assert (slen hd = 9) as Hhd by (unfold hd; rewrite !slen_app; change (slen [t; fl; Z.land b 127]) with 3; lia).
  rewrite (substr_app_mid hd p q 9 (bytes_int len)), bind_Ret_l by done.
  rewrite app_assoc, (substr_app_r (hd ++ p) q) by (rewrite ?slen_app; lia). rewrite bind_Ret_l.
  intros Hg. apply bind_Ret_inv in Hg as (fr & Hg & [= <- <-]). right. exists (len ++ t :: fl :: b :: rs ++ p).
  split; [by rewrite <- !app_assoc; cbn; rewrite <- !app_assoc|]. exists len, t, fl, b, rs, p. split_and!; [done..|].
  destruct fr as [fr|]; [|by apply unknown_type in Hg].
  pose proof (parsed_class _ _ _ Hg) as [Hc Hh]. split; [|split; [exact Hc|rewrite Hh; by destruct fr]].
  eapply parsed_typed; [exact Hpok| |exact Hg]. split_and!; try done; [apply Hn..|].
  apply bytes_int_31; [by apply land_127_byte|done|lia].
Qed.

(** The frames of a buffer, with the bytes they were made of. *)
Definition made_of (us : list (bytes * option Http2Frame)) (wire : bytes) (frs : list Http2Frame) (rest : bytes) : Prop :=
  wire = concat (map fst us) ++ rest ∧ Forall (λ u, frame_of u.1 u.2) us ∧ frs = omap snd us.

Lemma made_of_app us1 us2 w1 w2 frs1 frs2 rest1 rest2 :
  made_of us1 w1 frs1 rest1 → made_of us2 (rest1 ++ w2) frs2 rest2 → made_of (us1 ++ us2) (w1 ++ w2) (frs1 ++ frs2) rest2.
Proof.
  intros (-> & H1 & ->) (E & H2 & ->). split_and!.
  - by rewrite map_app, concat_app, <- !app_assoc, E.
  - by apply Forall_app.
  - by rewrite omap_app.
Qed.

Lemma drain_typed fuel : ∀ buffer frs rest, bytes_ok buffer → slen buffer ≤ npos → drain fuel buffer = Ret (frs, rest) →
  ∃ us, made_of us buffer frs rest.
Proof.
  induction fuel as [|fuel IH]; intros buffer frs rest Hb Hl; [done|]. cbn [drain]. intros H.
  apply bind_Ret_inv in H as ([o b'] & Hn & H). destruct (nextFrame_typed _ _ _ Hb Hl Hn) as [[-> ->]|(w & -> & Hw)].
  { injection H as <- <-. by exists []. }
  apply bytes_ok_app in Hb as [_ Hb']. rewrite slen_app in Hl. pose proof (slen_nonneg w).
  destruct o as [fr|]; [|injection H as <- <-; exists [(w, None)]; split_and!; [by cbn; rewrite app_nil_r|by apply Forall_singleton|done]].
  apply bind_Ret_inv in H as ([frs' b2] & H & [= <- <-]). apply IH in H as (us & -> & Hus & ->); [|done|lia].
  exists ((w, Some fr) :: us). split_and!; [by cbn; rewrite <- app_assoc|by constructor|done].
Qed.

(** C20: the types of what a peer sends.  However the bytes of a connection arrive, what is taken off
    them is a sequence of frames as they stand on the wire, a header of nine bytes and as many
    bytes of payload as its length says: the type byte of each decides its class, and none is
    built just for the types above 10; its header is the one on the wire, but that settings are
    for stream 0; and its members, lengths, weights, codes and texts, are in the range of their
    C++ types, its settings a sorted map from 16-bit keys to 32-bit values. *)
Theorem received_frames_typed chunks frs rest :
  Forall bytes_ok chunks → slen (concat chunks) ≤ npos → receive chunks [] = Ret (frs, rest) →
  ∃ us, concat chunks = concat (map fst us) ++ rest ∧ Forall (λ u, frame_of u.1 u.2) us ∧ frs = omap snd us.
Proof.
  intros Hc Hl H. change (∃ us, made_of us ([] ++ concat chunks) frs rest). revert Hl H. change (concat chunks) with ([] ++ concat chunks) at 1.
  generalize bytes_ok_nil. generalize (@nil Z). revert frs. induction Hc as [|c chunks Hc Hcs IH]; intros frs buffer Hb Hl; cbn [receive concat] in *.
  { intros [= <- <-]. exists []. split_and!; [by rewrite app_nil_r|done..]. }
  intros H. apply bind_Ret_inv in H as ([frs1 b1] & Hd & H). apply bind_Ret_inv in H as ([frs2 b2] & Hr & [= <- <-]).
  rewrite app_assoc in Hl. pose proof (slen_nonneg (concat chunks)). apply drain_typed in Hd as (us1 & Hu);
    [|by apply bytes_ok_app|rewrite slen_app in Hl; lia]. destruct Hu as (E & Hus & ->). rewrite E in Hl.
  rewrite <- app_assoc, slen_app in Hl. pose proof (slen_nonneg (concat (map fst us1))).
  destruct (IH frs2 b1) as (us2 & Hu2); [|lia|exact Hr|].
  { assert (bytes_ok (buffer ++ c)) as Hok by (by apply bytes_ok_app). rewrite E in Hok. by apply bytes_ok_app in Hok as [_ ?]. }
  exists (us1 ++ us2). rewrite app_assoc. by eapply made_of_app.
Qed.

Lemma received_frames_typed_witness :
  ∃ frs us, receive [take 5 sample_wire; drop 5 sample_wire] [] = Ret (frs, []) ∧ length frs = 2%nat ∧
    sample_wire = concat (map fst us) ++ [] ∧ Forall (λ u, frame_of u.1 u.2) us ∧ frs = omap snd us.
Proof.
  assert (∃ frs, receive [take 5 sample_wire; drop 5 sample_wire] [] = Ret (frs, []) ∧ length frs = 2%nat) as (frs & E & El)
    by (eexists; split; [vm_compute; reflexivity|reflexivity]).
  destruct (received_frames_typed [take 5 sample_wire; drop 5 sample_wire] frs []) as (us & H1 & H2 & H3); [|by vm_compute|exact E|].
  - apply (bool_decide_unpack _). by vm_compute.
  - exists frs, us. split_and!; [exact E|exact El|exact H1|exact H2|exact H3].
Defined.
