(* ===== verification/HpackNumber.v ===== *)
(** * HpackNumber

    The prefixed integers of [Http2HPACKContext.cpp]: [encodeNumber] and
    [decodeNumber].  Numbers below [2^(8-p) - 1] share the first byte with the
    prefix; the remainder of larger ones follows in base 128.  The decoder reads
    one continuation byte only, which bounds the numbers that survive a round
    trip and makes every longer encoding undefined behaviour. *)

From S2P Require Import Prelude.

(** ** The code *)

(** [pow(2, (8-prefixSize)) - 1]. *)
Definition suffixMaxValue (prefixSize : Z) : Z := 2 ^ (8 - prefixSize) - 1.

(** [for(var = 7; var >= 8-prefixSize; var--) bits.set(var, prefixBits.at(7-var))]. *)
Definition set_prefix (prefixBits : list bool) (bits : Z) : Z :=
  foldl (λ b (iv : nat * bool), let '(i, v) := iv in
           let var := 7 - Z.of_nat i in if v then Z.setbit b var else Z.clearbit b var)
    bits (imap pair prefixBits).

(** [for(var = 7; var >= 8-prefixSize; var--) bits.set(var, false)]. *)
Definition clear_prefix (prefixSize : Z) (bits : Z) : Z :=
  foldl Z.clearbit bits (map (λ i, 7 - i) (seqZ 0 prefixSize)).

(** The loop [while(number>=128)] and the byte after it. *)
Fixpoint encodeNumber_loop (fuel : nat) (number : Z) (ecval : bytes) : outcome bytes :=
  match fuel with
  | O => Out_of_fuel
  | S fuel' =>
      if 128 <=? number
      then encodeNumber_loop fuel' (number / 128) (ecval ++ [wrapu 8 (number mod 128 + 128)])
      else mret (ecval ++ [wrapu 8 number])
  end.

(** [number] is a [long]; ten steps of seven bits cover its 63 bits. *)
Definition encodeNumber (number : Z) (prefixBits : list bool) : outcome bytes :=
  let maxv := suffixMaxValue (Z.of_nat (length prefixBits)) in
  if number <? maxv then mret [set_prefix prefixBits (wrapu 8 number)]
  else encodeNumber_loop 10 (number - maxv) [set_prefix prefixBits 255].

(** [do { num += (b & 127) * pow(2, m); m += 7; } while((b & 128) == 128)], where
    [b] is read once before the loop.  The sum is computed in [double] and
    converted back to [long]: past [LONG_MAX], or once [pow] has overflowed to
    infinity, the conversion is undefined. *)
Fixpoint decodeNumber_loop (fuel : nat) (b num m : Z) : outcome Z :=
  match fuel with
  | O => Out_of_fuel
  | S fuel' =>
      if 1023 <? m then Undefined
      else
        let num := num + Z.land b 127 * 2 ^ m in
        if 2 ^ 63 <=? num then Undefined
        else if Z.land b 128 =? 128 then decodeNumber_loop fuel' b num (m + 7)
        else mret num
  end.

(** The number and the new value of [index]. *)
Definition decodeNumber (data : bytes) (prefixSize bits index : Z) : outcome (Z * Z) :=
  let maxv := suffixMaxValue prefixSize in
  let num := clear_prefix prefixSize bits in
  let index := index + 1 in
  if num <? maxv then mret (num, index)
  else
    b ← at_ data index;
    num ← decodeNumber_loop 200 b num 0;
    mret (num, index + 1).

(** ** Prefix bits *)

Fixpoint bools (n : nat) : list (list bool) :=
  match n with
  | O => [[]]
  | S n' => flat_map (λ l, [true :: l; false :: l]) (bools n')
  end.

Lemma bools_complete l : l ∈ bools (length l).
Proof.
  induction l as [|b l IH]; simpl; [by left|].
  apply list_elem_of_In, in_flat_map. apply list_elem_of_In in IH.
  exists l. split; [done|]. destruct b; simpl; auto.
Qed.

(** All prefixes of one to seven bits. *)
Definition prefixes : list (list bool) := flat_map bools (seq 1 7).

Lemma prefixes_complete l : (1 ≤ length l ≤ 7)%nat → l ∈ prefixes.
Proof.
  intros Hl. apply list_elem_of_In, in_flat_map. exists (length l). split.
  - apply in_seq. lia.
  - apply list_elem_of_In, bools_complete.
Qed.

Definition prefix_test (l : list bool) (b : Z) : bool :=
  let p := Z.of_nat (length l) in
  let b' := set_prefix l b in
  implb (b <? 2 ^ (8 - p)) (clear_prefix p b' =? b) && (0 <=? b') && (b' <? 256)
  && (clear_prefix p (set_prefix l 255) =? suffixMaxValue p).

Lemma prefix_tests : forallb (λ l, forallb (prefix_test l) (seqZ 0 256)) prefixes = true.
Proof. vm_compute. reflexivity. Qed.

(** What the decoder clears is what the encoder set. *)
Lemma prefix_facts l b :
  (1 ≤ length l ≤ 7)%nat → byte_ok b →
  let p := Z.of_nat (length l) in
  byte_ok (set_prefix l b) ∧
  (b < 2 ^ (8 - p) → clear_prefix p (set_prefix l b) = b) ∧
  clear_prefix p (set_prefix l 255) = suffixMaxValue p.
Proof.
  intros Hl Hb p. pose proof prefix_tests as H. rewrite forallb_forall in H.
  specialize (H l). pose proof (prefixes_complete l Hl) as Hin. apply list_elem_of_In in Hin.
  pose proof (forall_bytes _ (H Hin) b Hb) as Ht. unfold prefix_test in Ht. fold p in Ht.
  rewrite !andb_true_iff in Ht. destruct Ht as [[[H1 H2] H3] H4].
  split; [unfold byte_ok; lia|]. split; [|lia].
  intros Hlt. replace (b <? 2 ^ (8 - p)) with true in H1 by lia. simpl in H1. lia.
Qed.

Lemma suffixMaxValue_bound p : 1 ≤ p ≤ 7 → 1 ≤ suffixMaxValue p ≤ 127.
Proof.
  intros. unfold suffixMaxValue.
  assert (2 ^ 1 ≤ 2 ^ (8 - p)) by (apply Z.pow_le_mono_r; lia).
  assert (2 ^ (8 - p) ≤ 2 ^ 7) by (apply Z.pow_le_mono_r; lia). lia.
Qed.

(** ** What the encoder writes *)

(** Base 128, least significant group first: the reference representation. *)
Fixpoint groups128 (fuel : nat) (n : Z) : bytes :=
  match fuel with
  | O => []
  | S f => if 128 <=? n then n mod 128 + 128 :: groups128 f (n / 128) else [n]
  end.

Lemma encodeNumber_loop_spec fuel n acc :
  0 ≤ n < 128 ^ Z.of_nat fuel → (1 ≤ fuel)%nat →
  encodeNumber_loop fuel n acc = Ret (acc ++ groups128 fuel n).
Proof.
  revert n acc. induction fuel as [|fuel IH]; intros n acc Hn Hf; [lia|].
  cbn [encodeNumber_loop groups128]. destruct (Z.leb_spec 128 n).
  - rewrite Nat2Z.inj_succ, Z.pow_succ_r in Hn by lia.
    pose proof (Z.mod_pos_bound n 128 ltac:(lia)).
    rewrite wrapu_small by lia.
    assert (1 ≤ fuel)%nat by (destruct fuel; [simpl in Hn; lia|lia]).
    rewrite IH, <- app_assoc; [done| |done].
    split; [apply Z.div_pos; lia | apply Z.div_lt_upper_bound; lia].
  - by rewrite wrapu_small by lia.
Qed.

Lemma encodeNumber_small n l :
  n < suffixMaxValue (Z.of_nat (length l)) → encodeNumber n l = Ret [set_prefix l (wrapu 8 n)].
Proof. intros. unfold encodeNumber. by replace (_ <? _) with true by lia. Qed.
Lemma encodeNumber_large n l :
  suffixMaxValue (Z.of_nat (length l)) ≤ n < 2 ^ 63 → (1 ≤ length l ≤ 7)%nat →
  encodeNumber n l
  = Ret (set_prefix l 255 :: groups128 10 (n - suffixMaxValue (Z.of_nat (length l)))).
Proof.
  intros Hn Hl. unfold encodeNumber. replace (_ <? _) with false by lia.
  pose proof (suffixMaxValue_bound (Z.of_nat (length l)) ltac:(lia)).
  rewrite encodeNumber_loop_spec; [done| |lia].
  change (128 ^ Z.of_nat 10) with (2 ^ 70). lia.
Qed.

(** The first byte always carries the prefix; every byte is a byte. *)
Lemma groups128_ok fuel n : 0 ≤ n → bytes_ok (groups128 fuel n).
Proof.
  revert n. induction fuel as [|fuel IH]; intros n Hn; simpl; [constructor|].
  destruct (Z.leb_spec 128 n).
  - constructor; [|apply IH, Z.div_pos; lia].
    pose proof (Z.mod_pos_bound n 128 ltac:(lia)). unfold byte_ok. lia.
  - repeat constructor; unfold byte_ok; lia.
Qed.

(** The decoder on a number that takes one continuation byte. *)
Lemma decodeNumber_loop_stop fuel b num :
  0 ≤ b < 128 → 0 ≤ num < 2 ^ 62 → decodeNumber_loop (S fuel) b num 0 = Ret (num + b).
Proof.
  intros Hb Hn. cbn [decodeNumber_loop].
  assert (Z.land b 127 = b) as ->.
  { change 127 with (Z.ones 7). rewrite Z.land_ones by lia. apply Z.mod_small. lia. }
  assert (Z.land b 128 = 0) as ->.
  { apply Z.bits_inj'. intros i Hi. rewrite Z.land_spec, Z.bits_0.
    change 128 with (2 ^ 7). destruct (decide (i = 7)) as [->|].
    - rewrite (proj2 (Z.testbit_false b 7 ltac:(lia))); [done|].
      rewrite Z.div_small by lia. done.
    - rewrite Z.pow2_bits_false by lia. apply andb_false_r. }
  rewrite Z.pow_0_r, Z.mul_1_r. by replace (2 ^ 63 <=? num + b) with false by lia.
Qed.

(** A byte with the continuation bit is never left: the loop ends in an
    undefined conversion. *)
Lemma decodeNumber_loop_continue fuel b num m :
  Z.land b 128 = 128 → 1023 < m + 7 * (Z.of_nat fuel - 1) →
  (1 ≤ fuel)%nat → decodeNumber_loop fuel b num m = Undefined.
Proof.
  intros Hb. revert num m. induction fuel as [|fuel IH]; intros num m Hm Hf; [lia|].
  cbn [decodeNumber_loop]. rewrite Hb, Z.eqb_refl.
  destruct (Z.ltb_spec 1023 m); [done|]. case_match; [done|]. apply IH; lia.
Qed.

Lemma land_128_continue r : 0 ≤ r < 128 → Z.land (r + 128) 128 = 128.
Proof.
  intros Hr. pose proof (forall_bytes (λ b, implb (128 <=? b) (Z.land b 128 =? 128)) eq_refl (r + 128)) as H.
  cbv beta in H. replace (128 <=? r + 128) with true in H by lia. cbn [implb] in H.
  specialize (H ltac:(unfold byte_ok; lia)). lia.
Qed.

Lemma decodeNumber_encoded l n pre rest :
  (1 ≤ length l ≤ 7)%nat →
  let p := Z.of_nat (length l) in
  0 ≤ n < suffixMaxValue p + 128 →
  ∃ st e, encodeNumber n l = Ret (st :: e) ∧ bytes_ok (st :: e) ∧
    (st = set_prefix l n ∧ n < suffixMaxValue p ∨ st = set_prefix l 255) ∧
    decodeNumber (pre ++ (st :: e) ++ rest) p st (slen pre) = Ret (n, slen pre + slen (st :: e)).
Proof.
  intros Hl p Hn. pose proof (suffixMaxValue_bound p ltac:(lia)).
  unfold decodeNumber. destruct (Z.lt_ge_cases n (suffixMaxValue p)) as [Hlt|Hge].
  - exists (set_prefix l n), []. assert (byte_ok n) as Hbn by (unfold byte_ok; lia).
    destruct (prefix_facts l n Hl Hbn) as (Hok & Hclear & _). fold p in Hclear.
    rewrite encodeNumber_small, wrapu_small by (done || unfold byte_ok in Hbn; lia).
    split; [done|]. split; [by apply bytes_ok_cons; split; [|apply bytes_ok_nil]|]. split; [by left|].
    rewrite Hclear by (unfold suffixMaxValue in *; lia).
    by replace (n <? suffixMaxValue p) with true by lia.
  - exists (set_prefix l 255), [n - suffixMaxValue p].
    destruct (prefix_facts l 255 Hl ltac:(done)) as (Hok & _ & Hmax). fold p in Hmax.
    rewrite encodeNumber_large by (done || fold p; lia). fold p. cbn [groups128].
    replace (128 <=? n - suffixMaxValue p) with false by lia.
    split; [done|]. split; [repeat constructor; unfold byte_ok in *; lia|]. split; [by right|].
    rewrite Hmax, Z.ltb_irrefl. cbn [app].
    rewrite (cons_app (set_prefix l 255)), app_assoc.
    rewrite at_app_r, at_0 by (rewrite slen_app; done). cbn [mbind outcome_bind].
    rewrite decodeNumber_loop_stop by lia. cbn [mbind outcome_bind].
    unfold mret, outcome_ret. do 2 f_equal; [lia|]. rewrite !slen_cons, slen_nil. lia.
Qed.

(** ** Properties *)

(** Prefixed integers.  With any prefix of one to seven bits, every number
    below [2^(8-p) - 1 + 128] is decoded to itself from wherever it stands in
    the data, and the index advances past it. *)
Theorem number_roundtrip l n pre rest :
  (1 ≤ length l ≤ 7)%nat → 0 ≤ n < suffixMaxValue (Z.of_nat (length l)) + 128 →
  ∃ st e, encodeNumber n l = Ret (st :: e) ∧
    decodeNumber (pre ++ (st :: e) ++ rest) (Z.of_nat (length l)) st (slen pre)
    = Ret (n, slen pre + slen (st :: e)).
Proof.
  intros Hl Hn. destruct (decodeNumber_encoded l n pre rest Hl Hn) as (st & e & ? & _ & _ & ?).
  by exists st, e.
Qed.

Example number_roundtrip_witness :
  encodeNumber 190 [false; true] = Ret [127; 127] ∧
  ∃ st e, encodeNumber 190 [false; true] = Ret (st :: e) ∧
    decodeNumber ([9] ++ (st :: e) ++ [3]) 2 st 1 = Ret (190, 1 + slen (st :: e)).
Proof.
  split; [reflexivity|]. apply (number_roundtrip [false; true] 190 [9] [3]); [cbn; lia | vm_compute; split; congruence].
Defined.

(** The bound is sharp.  For every larger [long] the encoder writes two or
    more continuation bytes, and decoding them is undefined behaviour: the loop
    tests the same byte again and again until the accumulator overflows. *)
Theorem number_overlong_undefined l n pre rest :
  (1 ≤ length l ≤ 7)%nat → suffixMaxValue (Z.of_nat (length l)) + 128 ≤ n < 2 ^ 63 →
  ∃ st e, encodeNumber n l = Ret (st :: e) ∧ (2 ≤ length e)%nat ∧
    decodeNumber (pre ++ (st :: e) ++ rest) (Z.of_nat (length l)) st (slen pre) = Undefined.
Proof.
  intros Hl Hn. set (p := Z.of_nat (length l)) in *. pose proof (suffixMaxValue_bound p ltac:(lia)).
  destruct (prefix_facts l 255 Hl ltac:(done)) as (_ & _ & Hmax). fold p in Hmax.
  rewrite encodeNumber_large by (done || (fold p; lia)). fold p.
  set (k := n - suffixMaxValue p). change 10%nat with (S (S 8)). cbn [groups128].
  replace (128 <=? k) with true by lia. do 2 eexists. split; [reflexivity|].
  split; [simpl; case_match; simpl; lia|].
  unfold decodeNumber. rewrite Hmax, Z.ltb_irrefl. cbn [app].
  rewrite (cons_app (set_prefix l 255)), app_assoc.
  rewrite at_app_r, at_0 by (rewrite slen_app; done). cbn [mbind outcome_bind].
  rewrite decodeNumber_loop_continue; [done| |lia|lia].
  apply land_128_continue. apply Z.mod_pos_bound. lia.
Qed.

Example number_overlong_undefined_witness :
  suffixMaxValue 1 + 128 ≤ 1337 < 2 ^ 63 ∧
  ∃ st e, encodeNumber 1337 [true] = Ret (st :: e) ∧ (2 ≤ length e)%nat ∧
    decodeNumber ([] ++ (st :: e) ++ []) 1 st 0 = Undefined.
Proof. split; [vm_compute; split; congruence|]. apply (number_overlong_undefined [true] 1337 [] []); [cbn; lia | vm_compute; split; congruence]. Defined.
