(* ===== verification/Huffman.v ===== *)
(** * Huffman

    The Huffman coder of [Http2HPACKContext.cpp]: the code table, the class
    [Bits] that appends a code to a byte string, [encodeHuffman], and
    [decodeHuffman], which slides a 38-bit window over the input.

    A code is its bits, most significant first.  The encoder is shown to write
    the codes of the symbols one after the other, padded with ones; the decoder
    inverts it on strings whose codes have at most eight bits, except on strings
    of a single byte, where it never returns, and goes wrong beyond. *)

From S2P Require Import Prelude ByteCodec StdMap.

(** ** The code table *)

(** [HUFFMAN_TABLE], the code and its length for the symbols 0 to 127. *)
Definition HUFFMAN_TABLE_0 : list (Z * Z) :=
  [ (0x1ff8, 13); (0x7fffd8, 23); (0xfffffe2, 28); (0xfffffe3, 28); (0xfffffe4, 28);
    (0xfffffe5, 28); (0xfffffe6, 28); (0xfffffe7, 28); (0xfffffe8, 28); (0xffffea, 24);
    (0x3ffffffc, 30); (0xfffffe9, 28); (0xfffffea, 28); (0x3ffffffd, 30); (0xfffffeb, 28);
    (0xfffffec, 28); (0xfffffed, 28); (0xfffffee, 28); (0xfffffef, 28); (0xffffff0, 28);
    (0xffffff1, 28); (0xffffff2, 28); (0x3ffffffe, 30); (0xffffff3, 28); (0xffffff4, 28);
    (0xffffff5, 28); (0xffffff6, 28); (0xffffff7, 28); (0xffffff8, 28); (0xffffff9, 28);
    (0xffffffa, 28); (0xffffffb, 28); (0x14, 6); (0x3f8, 10); (0x3f9, 10); (0xffa, 12);
    (0x1ff9, 13); (0x15, 6); (0xf8, 8); (0x7fa, 11); (0x3fa, 10); (0x3fb, 10); (0xf9, 8);
    (0x7fb, 11); (0xfa, 8); (0x16, 6); (0x17, 6); (0x18, 6); (0x0, 5); (0x1, 5); (0x2, 5);
    (0x19, 6); (0x1a, 6); (0x1b, 6); (0x1c, 6); (0x1d, 6); (0x1e, 6); (0x1f, 6); (0x5c, 7);
    (0xfb, 8); (0x7ffc, 15); (0x20, 6); (0xffb, 12); (0x3fc, 10); (0x1ffa, 13); (0x21, 6);
    (0x5d, 7); (0x5e, 7); (0x5f, 7); (0x60, 7); (0x61, 7); (0x62, 7); (0x63, 7); (0x64, 7);
    (0x65, 7); (0x66, 7); (0x67, 7); (0x68, 7); (0x69, 7); (0x6a, 7); (0x6b, 7); (0x6c, 7);
    (0x6d, 7); (0x6e, 7); (0x6f, 7); (0x70, 7); (0x71, 7); (0x72, 7); (0xfc, 8); (0x73, 7);
    (0xfd, 8); (0x1ffb, 13); (0x7fff0, 19); (0x1ffc, 13); (0x3ffc, 14); (0x22, 6);
    (0x7ffd, 15); (0x3, 5); (0x23, 6); (0x4, 5); (0x24, 6); (0x5, 5); (0x25, 6); (0x26, 6);
    (0x27, 6); (0x6, 5); (0x74, 7); (0x75, 7); (0x28, 6); (0x29, 6); (0x2a, 6); (0x7, 5);
    (0x2b, 6); (0x76, 7); (0x2c, 6); (0x8, 5); (0x9, 5); (0x2d, 6); (0x77, 7); (0x78, 7);
    (0x79, 7); (0x7a, 7); (0x7b, 7); (0x7ffe, 15); (0x7fc, 11); (0x3ffd, 14); (0x1ffd, 13);
    (0xffffffc, 28) ].

(** The symbols 128 to 255. *)
Definition HUFFMAN_TABLE_1 : list (Z * Z) :=
  [ (0xfffe6, 20); (0x3fffd2, 22); (0xfffe7, 20); (0xfffe8, 20); (0x3fffd3, 22);
    (0x3fffd4, 22); (0x3fffd5, 22); (0x7fffd9, 23); (0x3fffd6, 22); (0x7fffda, 23);
    (0x7fffdb, 23); (0x7fffdc, 23); (0x7fffdd, 23); (0x7fffde, 23); (0xffffeb, 24);
    (0x7fffdf, 23); (0xffffec, 24); (0xffffed, 24); (0x3fffd7, 22); (0x7fffe0, 23);
    (0xffffee, 24); (0x7fffe1, 23); (0x7fffe2, 23); (0x7fffe3, 23); (0x7fffe4, 23);
    (0x1fffdc, 21); (0x3fffd8, 22); (0x7fffe5, 23); (0x3fffd9, 22); (0x7fffe6, 23);
    (0x7fffe7, 23); (0xffffef, 24); (0x3fffda, 22); (0x1fffdd, 21); (0xfffe9, 20);
    (0x3fffdb, 22); (0x3fffdc, 22); (0x7fffe8, 23); (0x7fffe9, 23); (0x1fffde, 21);
    (0x7fffea, 23); (0x3fffdd, 22); (0x3fffde, 22); (0xfffff0, 24); (0x1fffdf, 21);
    (0x3fffdf, 22); (0x7fffeb, 23); (0x7fffec, 23); (0x1fffe0, 21); (0x1fffe1, 21);
    (0x3fffe0, 22); (0x1fffe2, 21); (0x7fffed, 23); (0x3fffe1, 22); (0x7fffee, 23);
    (0x7fffef, 23); (0xfffea, 20); (0x3fffe2, 22); (0x3fffe3, 22); (0x3fffe4, 22);
    (0x7ffff0, 23); (0x3fffe5, 22); (0x3fffe6, 22); (0x7ffff1, 23); (0x3ffffe0, 26);
    (0x3ffffe1, 26); (0xfffeb, 20); (0x7fff1, 19); (0x3fffe7, 22); (0x7ffff2, 23);
    (0x3fffe8, 22); (0x1ffffec, 25); (0x3ffffe2, 26); (0x3ffffe3, 26); (0x3ffffe4, 26);
    (0x7ffffde, 27); (0x7ffffdf, 27); (0x3ffffe5, 26); (0xfffff1, 24); (0x1ffffed, 25);
    (0x7fff2, 19); (0x1fffe3, 21); (0x3ffffe6, 26); (0x7ffffe0, 27); (0x7ffffe1, 27);
    (0x3ffffe7, 26); (0x7ffffe2, 27); (0xfffff2, 24); (0x1fffe4, 21); (0x1fffe5, 21);
    (0x3ffffe8, 26); (0x3ffffe9, 26); (0xffffffd, 28); (0x7ffffe3, 27); (0x7ffffe4, 27);
    (0x7ffffe5, 27); (0xfffec, 20); (0xfffff3, 24); (0xfffed, 20); (0x1fffe6, 21);
    (0x3fffe9, 22); (0x1fffe7, 21); (0x1fffe8, 21); (0x7ffff3, 23); (0x3fffea, 22);
    (0x3fffeb, 22); (0x1ffffee, 25); (0x1ffffef, 25); (0xfffff4, 24); (0xfffff5, 24);
    (0x3ffffea, 26); (0x7ffff4, 23); (0x3ffffeb, 26); (0x7ffffe6, 27); (0x3ffffec, 26);
    (0x3ffffed, 26); (0x7ffffe7, 27); (0x7ffffe8, 27); (0x7ffffe9, 27); (0x7ffffea, 27);
    (0x7ffffeb, 27); (0xffffffe, 28); (0x7ffffec, 27); (0x7ffffed, 27); (0x7ffffee, 27);
    (0x7ffffef, 27); (0x7fffff0, 27); (0x3ffffee, 26) ].

(** The class [Bits]. *)
Record Bits := mkBits {
  code : Z;          (* uint32_t *)
  numbits : Z;
  lastbssize : Z;
  symbol : Z;        (* unsigned char *)
  bitv : list Z;     (* vector<bitset<8>>, each as its to_ulong() *)
  bits30v : Z        (* bitset<30> *)
}.

Definition Bits_new (code rembits sym : Z) : Bits :=
  let lastbssize := rembits mod 8 in
  let ind := rembits / 8 in
  let lon := Z.shiftl code (8 - lastbssize) in
  let c := ind + (if 0 <? lastbssize then 1 else 0) in
  mkBits code rembits lastbssize sym
    (map (λ i, Z.land (Z.shiftr lon ((ind - i) * 8)) 255) (seqZ 0 c))
    (wrapu 30 (Z.shiftl code (30 - rembits))).

Definition HUFFMAN_TABLE : list Bits :=
  imap (λ i (cn : Z * Z), Bits_new cn.1 cn.2 (Z.of_nat i)) (HUFFMAN_TABLE_0 ++ HUFFMAN_TABLE_1).

(** The [n] low bits of [x], most significant first: [to_string()] of a
    [bitset<n>]. *)
Definition to_bits (n : nat) (x : Z) : list bool :=
  map (λ i, Z.testbit x (Z.of_nat n - 1 - Z.of_nat i)) (seq 0 n).

(** [bits30v.to_string().substr(0, numbits)]. *)
Definition cib_key (b : Bits) : list bool := take (Z.to_nat (numbits b)) (to_bits 30 (bits30v b)).

(** [cib], and [masks] with its iteration order. *)
Definition cib : gmap (list bool) Bits :=
  foldl (λ m b, <[cib_key b := b]> m) ∅ HUFFMAN_TABLE.

Definition mask_of (numbits : Z) : list bool :=
  map (λ j, Z.of_nat j <? numbits) (seq 0 38).

Definition masks : list (Z * list bool) :=
  foldl (λ m b, if mmem (numbits b) m then m else mset (numbits b) (mask_of (numbits b)) m)
    [] HUFFMAN_TABLE.

(** ** The encoder *)

(** [out[out.length()-1] |= x]. *)
Definition or_last (out : bytes) (x : Z) : outcome bytes :=
  match out with
  | [] => Undefined
  | _ => mret (alter (λ b, Z.lor b x) (length out - 1)%nat out)
  end.

(** [Bits::appendBits]: [last] is the number of free bits of the last byte of
    [out]. *)
Fixpoint appendBits_loop (lastbssize : Z) (bitv : list Z) (out : bytes) (last : Z) : outcome bytes :=
  match bitv with
  | [] => mret out
  | v :: bitv' =>
      '(out, v) ←
        (if last =? 0 then mret (out, v)
         else
           let lon := Z.shiftl v last in
           out ← foldl (λ acc si, out ← acc;
                          if Z.testbit lon si then or_last out (Z.shiftl 1 (si - 8)) else mret out)
                   (Ret out) (seqZ 8 last);
           mret (out, Z.land lon 255));
      let lstbs := match bitv' with [] => lastbssize | _ => 8 end in
      let lstbs := if (lastbssize =? lstbs) && (lastbssize =? 0) then 8 else lstbs in
      appendBits_loop lastbssize bitv' (if last <? lstbs then out ++ [v] else out) last
  end.
Definition appendBits (b : Bits) (out : bytes) (last : Z) : outcome bytes :=
  appendBits_loop (lastbssize b) (bitv b) out last.

(** The loop over the characters; [totbits] is an [int]. *)
Fixpoint encodeHuffman_loop (value : bytes) (out : bytes) (last totbits : Z) : outcome (bytes * Z) :=
  match value with
  | [] => mret (out, totbits)
  | c :: value' =>
      match HUFFMAN_TABLE !! Z.to_nat c with
      | None => Throw Out_of_range
      | Some b =>
          totbits ← checked_int (totbits + numbits b);
          out ← appendBits b out last;
          encodeHuffman_loop value' out ((last + (8 - lastbssize b)) mod 8) totbits
      end
  end.

(** The last character also fills the last byte up with ones. *)
Definition encodeHuffman (value : bytes) : outcome bytes :=
  '(out, totbits) ← encodeHuffman_loop value [] 0 0;
  let totbits := totbits mod 8 in
  if (slen value =? 0) || (totbits =? 0) then mret out
  else or_last out (Z.ones (8 - totbits)).

(** ** The decoder *)

(** [for(i = 7; i >= 0; i--) if(stbind>=0) k.set(stbind--, b.test(i))]; the
    window [k] is listed from bit 37 down, and [set] throws past it. *)
Fixpoint load_bits (bits : list bool) (k : list bool) (stbind : Z) : outcome (list bool * Z) :=
  match bits with
  | [] => mret (k, stbind)
  | b :: bits' =>
      if 0 <=? stbind then
        if stbind <? 38 then load_bits bits' (alter (λ _, b) (Z.to_nat (37 - stbind)) k) (stbind - 1)
        else Throw Out_of_range
      else load_bits bits' k stbind
  end.

(** The loop over [masks], from the longest code down. *)
Fixpoint match_mask (ms : list (Z * list bool)) (k : list bool) (stbind : Z) : option Bits :=
  match ms with
  | [] => None
  | (n, mask) :: ms' =>
      if n <=? 38 - stbind then
        match cib !! take (Z.to_nat n) (zip_with andb k mask) with
        | Some b => Some b
        | None => match_mask ms' k stbind
        end
      else match_mask ms' k stbind
  end.

(** The local variables of [decodeHuffman]. *)
Record decoder := mkDecoder {
  d_dval : bytes;
  d_indx : Z;
  d_k : list bool;
  d_stbind : Z;
  d_currbits : Z;
  d_last : bool
}.

(** One round of [while(indx<=(int)value.length())]: the string it returns, or
    the variables for the next round. *)
Definition decodeHuffman_step (value : bytes) (totbits : Z) (d : decoder) : outcome (bytes + decoder) :=
  let len := slen value in
  if negb (d_indx d <=? len) then mret (inl (d_dval d))
  else
    let '(dval, k, stbind, currbits) :=
      match match_mask (rev masks) (d_k d) (d_stbind d) with
      | Some b => (d_dval d ++ [symbol b],
                   drop (Z.to_nat (numbits b)) (d_k d) ++ repeat false (Z.to_nat (numbits b)),
                   d_stbind d + numbits b, d_currbits d + numbits b)
      | None => (d_dval d, d_k d, d_stbind d, d_currbits d)
      end in
    if d_last d then mret (inl dval)
    else if (totbits - currbits <=? 7) && forallb id (take (Z.to_nat (totbits - currbits)) k)
    then mret (inl dval)
    else
      let last := totbits - currbits <=? 7 in
      let indx := d_indx d in
      if (indx <? len) && (8 <=? stbind) then
        let indx := indx + 1 in
        if indx <=? len - 1 then
          c ← at_ value indx;
          '(k, stbind) ← load_bits (byte_bits c) k stbind;
          mret (inr (mkDecoder dval indx k stbind currbits last))
        else mret (inr (mkDecoder dval indx k stbind currbits last))
      else mret (inr (mkDecoder dval indx k stbind currbits last)).

Fixpoint decodeHuffman_loop (fuel : nat) (value : bytes) (totbits : Z) (d : decoder) : outcome bytes :=
  match fuel with
  | O => Out_of_fuel
  | S fuel' =>
      r ← decodeHuffman_step value totbits d;
      match r with
      | inl dval => mret dval
      | inr d => decodeHuffman_loop fuel' value totbits d
      end
  end.

(** The variables before the loop: the first byte is in the window when there
    are at least two. *)
Definition decodeHuffman_init (value : bytes) (totbits : Z) : outcome decoder :=
  let k := repeat false 38 in
  if 8 <? totbits then
    c ← at_ value 0;
    '(k, stbind) ← load_bits (byte_bits c) k 37;
    mret (mkDecoder [] 0 k stbind 0 false)
  else mret (mkDecoder [] 0 k 37 0 false).

(** A round that neither decodes a symbol nor reads a byte repeats for ever;
    every other round consumes at least five of the bits or one of the bytes, so
    the budget is only exhausted by a loop that does not end. *)
Definition decodeHuffman (value : bytes) : outcome bytes :=
  totbits ← checked_int (slen value * 8);
  d ← decodeHuffman_init value totbits;
  decodeHuffman_loop (4 * length value + 8) value totbits d.

(** ** Facts about the table, by computation *)

(** The bits of a code. *)
Definition code_bits (c : Z) : list bool :=
  match HUFFMAN_TABLE !! Z.to_nat c with Some b => cib_key b | None => [] end.
Definition code_len (c : Z) : Z := Z.of_nat (length (code_bits c)).

Fixpoint is_prefix (s t : list bool) : bool :=
  match s, t with
  | [], _ => true
  | _ :: _, [] => false
  | a :: s', b :: t' => Bool.eqb a b && is_prefix s' t'
  end.

Lemma is_prefix_app s t : is_prefix s (s ++ t) = true.
Proof. induction s as [|a s IH]; simpl; [done|]. by rewrite eqb_reflx. Qed.

Lemma is_prefix_refl s : is_prefix s s = true.
Proof. rewrite <- (app_nil_r s) at 2. apply is_prefix_app. Qed.

(** No code is a prefix of another. *)
Definition codes : list (Z * list bool) := map (λ b, (symbol b, cib_key b)) HUFFMAN_TABLE.
Definition prefix_free : bool :=
  forallb (λ a : Z * list bool,
    forallb (λ b : Z * list bool, implb (is_prefix a.2 b.2) (a.1 =? b.1)) codes) codes.

Lemma prefix_free_true : prefix_free = true.
Proof. vm_compute. reflexivity. Qed.

(** The bits that the bytes of [bitv] stand for. *)
Fixpoint piece_bits (lb : Z) (bitv : list Z) : list bool :=
  match bitv with
  | [] => []
  | v :: bitv' =>
      match bitv' with
      | [] => take (Z.to_nat (if lb =? 0 then 8 else lb)) (byte_bits v)
      | _ => byte_bits v ++ piece_bits lb bitv'
      end
  end.

Definition pad_ok (lb v : Z) : bool :=
  forallb negb (drop (Z.to_nat (if lb =? 0 then 8 else lb)) (byte_bits v)).

Fixpoint bitv_ok (lb : Z) (bitv : list Z) : bool :=
  match bitv with
  | [] => false
  | v :: bitv' =>
      (0 <=? v) && (v <? 256) &&
      match bitv' with [] => pad_ok lb v | _ => bitv_ok lb bitv' end
  end.

(** What the proofs need to know of an entry. *)
Record entry_ok (c : Z) (b : Bits) : Prop := {
  eo_symbol : symbol b = c;
  eo_numbits : numbits b = Z.of_nat (length (cib_key b));
  eo_range : 5 ≤ numbits b ≤ 30;
  eo_last : lastbssize b = numbits b mod 8;
  eo_bitv : bitv_ok (lastbssize b) (bitv b) = true;
  eo_pieces : piece_bits (lastbssize b) (bitv b) = cib_key b;
  eo_zero : forallb id (cib_key b) = false;
  eo_mask : (numbits b, mask_of (numbits b)) ∈ masks
}.

Definition entry_test (c : Z) : bool :=
  match HUFFMAN_TABLE !! Z.to_nat c with
  | None => false
  | Some b =>
      (symbol b =? c) && (numbits b =? Z.of_nat (length (cib_key b))) && (5 <=? numbits b)
      && (numbits b <=? 30) && (lastbssize b =? numbits b mod 8)
      && bitv_ok (lastbssize b) (bitv b)
      && bool_decide (piece_bits (lastbssize b) (bitv b) = cib_key b)
      && negb (forallb id (cib_key b))
      && bool_decide ((numbits b, mask_of (numbits b)) ∈ masks)
  end.

Lemma entry_tests : forallb entry_test (seqZ 0 256) = true.
Proof. vm_compute. reflexivity. Qed.

Lemma table_entry c :
  byte_ok c → ∃ b, HUFFMAN_TABLE !! Z.to_nat c = Some b ∧ entry_ok c b.
Proof.
  intros Hc. pose proof (forall_bytes _ entry_tests c Hc) as H. unfold entry_test in H.
  destruct (HUFFMAN_TABLE !! Z.to_nat c) as [b|]; [|done]. exists b. split; [done|].
  rewrite !andb_true_iff in H.
  destruct H as [[[[[[[[H1 H2] H3] H4] H5] H6] H7] H8] H9].
  apply bool_decide_eq_true in H7, H9. apply negb_true_iff in H8.
  split; try done; lia.
Qed.

Lemma HUFFMAN_TABLE_length : length HUFFMAN_TABLE = 256%nat.
Proof. vm_compute. reflexivity. Qed.

Lemma table_lookup_inv i b : HUFFMAN_TABLE !! i = Some b → ∃ c, byte_ok c ∧ i = Z.to_nat c ∧ entry_ok c b.
Proof.
  intros Hi. pose proof (lookup_lt_Some _ _ _ Hi) as Hlt. rewrite HUFFMAN_TABLE_length in Hlt.
  destruct (table_entry (Z.of_nat i)) as (b' & Hb' & Hok); [unfold byte_ok; lia|].
  rewrite Nat2Z.id, Hi in Hb'. injection Hb' as <-.
  exists (Z.of_nat i). rewrite Nat2Z.id. split; [unfold byte_ok; lia|done].
Qed.

Lemma code_bits_entry c b : HUFFMAN_TABLE !! Z.to_nat c = Some b → code_bits c = cib_key b.
Proof. unfold code_bits. by intros ->. Qed.

(** The codes of two symbols are comparable only when the symbols agree. *)
Lemma code_prefix_eq b b' :
  b ∈ HUFFMAN_TABLE → b' ∈ HUFFMAN_TABLE → is_prefix (cib_key b) (cib_key b') = true → b = b'.
Proof.
  intros Hb Hb' Hp. pose proof prefix_free_true as Hf. unfold prefix_free in Hf.
  rewrite forallb_forall in Hf.
  assert (∀ x, x ∈ HUFFMAN_TABLE → In (symbol x, cib_key x) codes) as Hin.
  { intros x Hx. unfold codes. apply in_map_iff. exists x. split; [done|]. by apply list_elem_of_In. }
  specialize (Hf _ (Hin _ Hb)). rewrite forallb_forall in Hf. specialize (Hf _ (Hin _ Hb')).
  simpl in Hf. rewrite Hp in Hf. simpl in Hf.
  apply list_elem_of_lookup in Hb as [i Hi], Hb' as [j Hj].
  destruct (table_lookup_inv _ _ Hi) as (c & _ & -> & Hok).
  destruct (table_lookup_inv _ _ Hj) as (c' & _ & -> & Hok').
  rewrite (eo_symbol _ _ Hok), (eo_symbol _ _ Hok') in Hf.
  assert (c = c') as <- by lia. congruence.
Qed.

(** The entries of [cib] are those of the table, under their codes. *)
Lemma foldl_insert_lookup (l : list Bits) (m : gmap (list bool) Bits) k b :
  foldl (λ m b, <[cib_key b := b]> m) m l !! k = Some b → (b ∈ l ∧ k = cib_key b) ∨ m !! k = Some b.
Proof.
  revert m. induction l as [|x l IH]; intros m; simpl; [by right|].
  intros [[Hin ->]|Hm]%IH; [left; split; [by right|done]|].
  destruct (decide (cib_key x = k)) as [<-|Hne].
  - rewrite lookup_insert_eq in Hm. injection Hm as ->. left. split; [by left|done].
  - rewrite lookup_insert_ne in Hm by done. by right.
Qed.

Lemma cib_Some k b : cib !! k = Some b → b ∈ HUFFMAN_TABLE ∧ k = cib_key b.
Proof. unfold cib. by intros [?|H]%foldl_insert_lookup. Qed.

Lemma cib_tests :
  forallb (λ b, match cib !! cib_key b with Some _ => true | None => false end) HUFFMAN_TABLE = true.
Proof. vm_compute. reflexivity. Qed.

Lemma cib_table b : b ∈ HUFFMAN_TABLE → cib !! cib_key b = Some b.
Proof.
  intros Hb. pose proof cib_tests as Ht. rewrite forallb_forall in Ht.
  specialize (Ht b). cbv beta in Ht. destruct (cib !! cib_key b) as [b'|] eqn:E.
  - apply cib_Some in E as [Hb' Hk]. f_equal. symmetry.
    apply code_prefix_eq; [done..|]. rewrite Hk. apply is_prefix_refl.
  - apply list_elem_of_In in Hb. by specialize (Ht Hb).
Qed.

Lemma masks_masks n m : (n, m) ∈ masks → m = mask_of n ∧ 5 ≤ n ≤ 30.
Proof.
  intros Hin. assert (forallb (λ nm : Z * list bool, bool_decide (nm.2 = mask_of nm.1)
    && (5 <=? nm.1) && (nm.1 <=? 30)) masks = true) as Ht by (vm_compute; reflexivity).
  rewrite forallb_forall in Ht. apply list_elem_of_In in Hin. specialize (Ht _ Hin). simpl in Ht.
  rewrite !andb_true_iff in Ht. destruct Ht as [[Ht%bool_decide_eq_true ?] ?]. split; [done|lia].
Qed.

(** From here on the tables are used through these facts only. *)
#[global] Opaque HUFFMAN_TABLE cib masks.

(** ** The encoder writes the codes one after the other *)

Lemma byte_bits_length b : length (byte_bits b) = 8%nat.
Proof. done. Qed.

Lemma toBinary_app s t : toBinary (s ++ t) = toBinary s ++ toBinary t.
Proof. apply flat_map_app. Qed.
Lemma toBinary_single b : toBinary [b] = byte_bits b.
Proof. unfold toBinary. cbn [flat_map]. apply app_nil_r. Qed.
Lemma toBinary_length s : length (toBinary s) = (8 * length s)%nat.
Proof.
  induction s as [|b s IH]; [done|]. change (toBinary (b :: s)) with (byte_bits b ++ toBinary s).
  rewrite length_app, IH, byte_bits_length. simpl. lia.
Qed.

Lemma byte_bits_lor a b : byte_bits (Z.lor a b) = zip_with orb (byte_bits a) (byte_bits b).
Proof. unfold byte_bits. cbn [map zip_with]. by rewrite !Z.lor_spec. Qed.

Lemma zip_with_orb_false_r s n : length s = n → zip_with orb s (repeat false n) = s.
Proof. intros <-. induction s as [|a s IH]; simpl; [done|]. by rewrite orb_false_r, IH. Qed.
Lemma zip_with_orb_false_l s n : length s = n → zip_with orb (repeat false n) s = s.
Proof. intros <-. induction s as [|a s IH]; simpl; [done|]. by rewrite IH. Qed.

(** The two halves of a byte shifted by [last]. *)
Definition shift_test (last v : Z) : bool :=
  let n := Z.to_nat last in
  bool_decide (byte_bits (Z.shiftr (Z.shiftl v last) 8) = repeat false (8 - n) ++ take n (byte_bits v))
  && bool_decide (byte_bits (Z.land (Z.shiftl v last) 255) = drop n (byte_bits v) ++ repeat false n)
  && (foldl (λ x si, if Z.testbit (Z.shiftl v last) si then Z.lor x (Z.shiftl 1 (si - 8)) else x) 0
        (seqZ 8 last) =? Z.shiftr (Z.shiftl v last) 8).

Lemma shift_tests : forallb (λ last, forallb (shift_test last) (seqZ 0 256)) (seqZ 1 7) = true.
Proof. vm_compute. reflexivity. Qed.

Lemma shift_facts last v :
  1 ≤ last < 8 → byte_ok v →
  let n := Z.to_nat last in
  byte_bits (Z.shiftr (Z.shiftl v last) 8) = repeat false (8 - n) ++ take n (byte_bits v) ∧
  byte_bits (Z.land (Z.shiftl v last) 255) = drop n (byte_bits v) ++ repeat false n ∧
  foldl (λ x si, if Z.testbit (Z.shiftl v last) si then Z.lor x (Z.shiftl 1 (si - 8)) else x) 0
    (seqZ 8 last) = Z.shiftr (Z.shiftl v last) 8.
Proof.
  intros Hl Hv. pose proof shift_tests as H. rewrite forallb_forall in H.
  assert (In last (seqZ 1 7)) as Hin by (apply list_elem_of_In, elem_of_seqZ; lia).
  pose proof (forall_bytes _ (H _ Hin) v Hv) as Ht. unfold shift_test in Ht.
  rewrite !andb_true_iff in Ht. destruct Ht as [[H1%bool_decide_eq_true H2%bool_decide_eq_true] H3].
  cbv zeta. split; [done|]. split; [done|]. lia.
Qed.

(** OR-ing bit after bit into the last byte is OR-ing their sum. *)
Lemma or_last_snoc out b x : or_last (out ++ [b]) x = Ret (out ++ [Z.lor b x]).
Proof.
  unfold or_last. destruct (out ++ [b]) as [|? ?] eqn:E; [by destruct out|]. rewrite <- E.
  unfold mret, outcome_ret. f_equal. rewrite length_app. cbn [length].
  replace (length out + 1 - 1)%nat with (length out + 0)%nat by lia.
  by rewrite alter_app_r.
Qed.

Lemma or_last_fold (P : Z → bool) (g : Z → Z) out b l x :
  foldl (λ acc si, out ← acc; if P si then or_last out (g si) else mret out) (Ret (out ++ [Z.lor b x])) l
  = Ret (out ++ [Z.lor b (foldl (λ x si, if P si then Z.lor x (g si) else x) x l)]).
Proof.
  revert x. induction l as [|si l IH]; intros x; [done|]. cbn [foldl mbind outcome_bind].
  destruct (P si); [|apply IH]. by rewrite or_last_snoc, <- Z.lor_assoc, IH.
Qed.

Lemma snoc_inv {A} (l : list A) : l ≠ [] → ∃ l' x, l = l' ++ [x].
Proof. destruct l using rev_ind; [done|]. eauto. Qed.

Lemma take_repeat {A} (x : A) n m : (n ≤ m)%nat → take n (repeat x m) = repeat x n.
Proof. revert m. induction n as [|n IH]; intros [|m] H; simpl; try done; [lia|]. f_equal. apply IH. lia. Qed.

(** [out] holds the bits [B] and has [last] bits free. *)
Definition holds (out : bytes) (B : list bool) (last : Z) : Prop :=
  toBinary out = B ++ repeat false (Z.to_nat last) ∧ 0 ≤ last < 8.

Lemma holds_snoc out B last :
  holds out B last → 1 ≤ last →
  ∃ out0 b X, out = out0 ++ [b] ∧ B = toBinary out0 ++ X ∧
    byte_bits b = X ++ repeat false (Z.to_nat last).
Proof.
  intros [Hb Hl] H1.
  destruct (snoc_inv out) as (out0 & b & ->).
  { intros ->. apply (f_equal length) in Hb. rewrite length_app, repeat_length in Hb. simpl in Hb. lia. }
  rewrite toBinary_app, toBinary_single in Hb.
  exists out0, b, (take (8 - Z.to_nat last) (byte_bits b)). split; [done|].
  assert (length B = (length (toBinary out0) + (8 - Z.to_nat last))%nat) as HB.
  { apply (f_equal length) in Hb. rewrite !length_app, repeat_length, byte_bits_length in Hb. lia. }
  assert (drop (8 - Z.to_nat last) (byte_bits b) = repeat false (Z.to_nat last)) as Hdrop.
  { apply (f_equal (drop (length B))) in Hb. rewrite drop_app_length, HB, <- drop_drop, drop_app_length in Hb.
    done. }
  split.
  - apply (f_equal (take (length B))) in Hb. rewrite take_app_length, HB in Hb.
    by rewrite take_app_add in Hb.
  - by rewrite <- Hdrop, take_drop.
Qed.

(** One byte of a code. *)
Lemma append_piece out B last v P p :
  holds out B last → byte_ok v → byte_bits v = P ++ repeat false (8 - p) →
  length P = p → (1 ≤ p ≤ 8)%nat →
  ∃ out' v',
    (if last =? 0 then mret (out, v)
     else
       let lon := Z.shiftl v last in
       out ← foldl (λ acc si, out ← acc;
                      if Z.testbit lon si then or_last out (Z.shiftl 1 (si - 8)) else mret out)
               (Ret out) (seqZ 8 last);
       mret (out, Z.land lon 255)) = Ret (out', v') ∧
    holds (if last <? Z.of_nat p then out' ++ [v'] else out') (B ++ P) ((last + (8 - Z.of_nat p)) mod 8).
Proof.
  intros Hh Hv HP HlP Hp. pose proof Hh as [Hb Hl].
  assert (∀ x y : Z, 0 ≤ y < 8 → (x = y ∨ x = y + 8) → x mod 8 = y) as Hmod.
  { intros x y Hy Hx; destruct Hx as [-> | ->]; [by apply Z.mod_small|].
    rewrite Z.add_mod, Z.mod_same, Z.add_0_r, Z.mod_mod by lia. by apply Z.mod_small. }
  destruct (Z.eqb_spec last 0) as [->|Hne].
  - exists out, v. split; [done|]. replace (0 <? Z.of_nat p) with true by lia.
    rewrite (Hmod _ (8 - Z.of_nat p)) by lia. split; [|lia].
    rewrite toBinary_app, toBinary_single, Hb, HP. cbn [repeat Z.to_nat]. rewrite app_nil_r, <- app_assoc.
    do 3 f_equal. lia.
  - destruct (holds_snoc out B last Hh ltac:(lia)) as (out0 & b & X & -> & -> & HX).
    destruct (shift_facts last v ltac:(lia) Hv) as (Hhi & Hlo & Hfold).
    set (lon := Z.shiftl v last) in *. set (n := Z.to_nat last) in *.
    exists (out0 ++ [Z.lor b (Z.shiftr lon 8)]), (Z.land lon 255). split.
    { cbv zeta. pose proof (or_last_fold (Z.testbit lon) (λ si, Z.shiftl 1 (si - 8)) out0 b (seqZ 8 last) 0) as E.
      rewrite Z.lor_0_r in E. rewrite E. cbn [mbind outcome_bind]. by rewrite Hfold. }
    assert (length X = (8 - n)%nat) as HlX.
    { apply (f_equal length) in HX. rewrite length_app, repeat_length, byte_bits_length in HX. lia. }
    assert (toBinary (out0 ++ [Z.lor b (Z.shiftr lon 8)])
            = toBinary out0 ++ X ++ take n (byte_bits v)) as Hor.
    { rewrite toBinary_app, toBinary_single, byte_bits_lor, HX, Hhi. f_equal.
      rewrite zip_with_app by (by rewrite repeat_length).
      rewrite zip_with_orb_false_r, zip_with_orb_false_l; [done| |done].
      rewrite length_take, byte_bits_length. lia. }
    destruct (Z.ltb_spec last (Z.of_nat p)).
    + rewrite (Hmod _ (last + (8 - Z.of_nat p))) by lia. split; [|lia].
      rewrite toBinary_app, toBinary_single, Hor, Hlo, <- !app_assoc.
      do 2 f_equal. rewrite app_assoc, take_drop, HP, <- app_assoc. f_equal.
      rewrite <- repeat_app. f_equal. lia.
    + rewrite (Hmod _ (last - Z.of_nat p)) by lia. split; [|lia].
      rewrite Hor, <- !app_assoc. do 2 f_equal.
      rewrite HP, take_app, take_ge by lia. f_equal.
      rewrite take_repeat by lia. f_equal. lia.
Qed.

(** The bytes of one code. *)
Lemma pad_ok_bits lb v :
  pad_ok lb v = true → 0 ≤ lb < 8 →
  let p := Z.to_nat (if lb =? 0 then 8 else lb) in
  byte_bits v = take p (byte_bits v) ++ repeat false (8 - p).
Proof.
  intros Hpad Hlb p. rewrite <- (take_drop p (byte_bits v)) at 1. f_equal.
  unfold pad_ok in Hpad. fold p in Hpad.
  assert (length (drop p (byte_bits v)) = (8 - p)%nat) as Hlen by by rewrite length_drop.
  revert Hpad Hlen. generalize (drop p (byte_bits v)) as l, (8 - p)%nat as n.
  induction l as [|[] l IH]; intros [|n]; simpl; try done. intros H [= Hn]. f_equal. by apply IH.
Qed.

Lemma appendBits_loop_spec lb bitv out B last :
  holds out B last → 0 ≤ lb < 8 → bitv_ok lb bitv = true →
  ∃ out', appendBits_loop lb bitv out last = Ret out' ∧
    holds out' (B ++ piece_bits lb bitv) ((last + (8 - lb)) mod 8).
Proof.
  revert out B. induction bitv as [|v bitv IH]; intros out B Hh Hlb Hok; [done|].
  pose proof Hh as [_ Hl]. cbn [bitv_ok] in Hok. rewrite !andb_true_iff in Hok. destruct Hok as [[Hv0 Hv1] Hok].
  assert (byte_ok v) as Hv by (unfold byte_ok; lia). cbn [appendBits_loop piece_bits].
  destruct bitv as [|v2 bitv].
  - set (p := if lb =? 0 then 8 else lb). assert (1 ≤ p ≤ 8) as Hp by (subst p; case_match; lia).
    destruct (append_piece out B last v (take (Z.to_nat p) (byte_bits v)) (Z.to_nat p) Hh Hv)
      as (out' & v' & E & Hh').
    { by apply pad_ok_bits. }
    { rewrite length_take, byte_bits_length. lia. }
    { lia. }
    cbv zeta in E |- *. rewrite E. cbn [mbind outcome_bind appendBits_loop].
    replace (if (lb =? lb) && (lb =? 0) then 8 else lb) with p
      by (subst p; rewrite Z.eqb_refl; done).
    rewrite Z2Nat.id in Hh' by lia. eexists. split; [reflexivity|].
    assert ((last + (8 - lb)) mod 8 = (last + (8 - p)) mod 8) as Emod; [|rewrite Emod].
    { subst p. destruct (Z.eqb_spec lb 0) as [->|]; [|done].
      replace (last + (8 - 0)) with (last + (8 - 8) + 1 * 8) by lia. by apply Z.mod_add. }
    exact Hh'.
  - destruct (append_piece out B last v (byte_bits v) 8 Hh Hv) as (out' & v' & E & Hh').
    { change (repeat false (8 - 8)) with (@nil bool). by rewrite app_nil_r. }
    { done. } { lia. }
    cbv zeta in E |- *. rewrite E. cbn [mbind outcome_bind].
    replace (if (lb =? 8) && (lb =? 0) then 8 else 8) with 8 by (by destruct (_ && _)).
    replace ((last + (8 - Z.of_nat 8)) mod 8) with last in Hh' by (rewrite Z.mod_small; lia).
    destruct (IH _ _ Hh' Hlb Hok) as (out2 & E2 & Hh2).
    exists out2. change (Z.of_nat 8) with 8 in E2. rewrite E2. by rewrite <- app_assoc in Hh2.
Qed.

Lemma appendBits_spec c b out B last :
  entry_ok c b → holds out B last →
  ∃ out', appendBits b out last = Ret out' ∧
    holds out' (B ++ cib_key b) ((last + (8 - lastbssize b)) mod 8).
Proof.
  intros Hok Hh. destruct (appendBits_loop_spec (lastbssize b) (bitv b) out B last Hh) as (out' & ? & ?).
  - rewrite (eo_last _ _ Hok). apply Z.mod_pos_bound. lia.
  - apply (eo_bitv _ _ Hok).
  - exists out'. by rewrite <- (eo_pieces _ _ Hok).
Qed.

(** The bits of a string: the codes of its characters. *)
Definition string_bits (value : bytes) : list bool := flat_map code_bits value.

Lemma code_len_bound c : byte_ok c → 5 ≤ code_len c ≤ 30.
Proof.
  intros Hc. destruct (table_entry c Hc) as (b & Hb & Hok).
  unfold code_len. rewrite (code_bits_entry _ _ Hb), <- (eo_numbits _ _ Hok). apply (eo_range _ _ Hok).
Qed.

Lemma string_bits_bound value :
  bytes_ok value → 5 * slen value ≤ Z.of_nat (length (string_bits value)) ≤ 30 * slen value.
Proof.
  induction value as [|c value IH]; [done|]. intros [Hc Hv]%bytes_ok_cons. specialize (IH Hv).
  pose proof (code_len_bound c Hc). unfold code_len in *. rewrite slen_cons.
  cbn [string_bits flat_map]. rewrite length_app. fold (string_bits value). lia.
Qed.

Lemma encodeHuffman_loop_spec value out B last totbits :
  bytes_ok value → holds out B last → totbits = Z.of_nat (length B) →
  totbits + 30 * slen value < 2 ^ 31 → last = (- totbits) mod 8 →
  ∃ out' totbits', encodeHuffman_loop value out last totbits = Ret (out', totbits') ∧
    totbits' = Z.of_nat (length (B ++ string_bits value)) ∧
    holds out' (B ++ string_bits value) ((- totbits') mod 8).
Proof.
  revert out B last totbits. induction value as [|c value IH]; intros out B last totbits Hv Hh Ht Hlt Hlast.
  - exists out, totbits. cbn [encodeHuffman_loop string_bits flat_map]. rewrite app_nil_r, <- Hlast. done.
  - apply bytes_ok_cons in Hv as [Hc Hv]. rewrite slen_cons in Hlt. pose proof (slen_nonneg value).
    destruct (table_entry c Hc) as (b & Hb & Hok). cbn [encodeHuffman_loop]. rewrite Hb.
    pose proof (eo_range _ _ Hok). unfold checked_int, fits_int.
    replace (_ && _) with true by lia. cbn [mbind outcome_bind].
    destruct (appendBits_spec c b out B last Hok Hh) as (out' & -> & Hh'). cbn [mbind outcome_bind].
    destruct (IH out' (B ++ cib_key b) ((last + (8 - lastbssize b)) mod 8) (totbits + numbits b)) as (out2 & t2 & E & Ht2 & Hh2);
      try done.
    + rewrite length_app, (eo_numbits _ _ Hok). lia.
    + lia.
    + rewrite (eo_last _ _ Hok), Hlast. rewrite Zplus_mod_idemp_l, Zplus_mod.
      rewrite Zminus_mod_idemp_r, <- Zplus_mod.
      replace (- totbits + (8 - numbits b)) with (- (totbits + numbits b) + 1 * 8) by lia.
      by rewrite Z.mod_add.
    + exists out2, t2. cbn [string_bits flat_map]. rewrite (code_bits_entry _ _ Hb). fold (string_bits value).
      by rewrite app_assoc.
Qed.

Lemma byte_bits_ones n : (n ≤ 8)%nat → byte_bits (Z.ones (Z.of_nat n)) = repeat false (8 - n) ++ repeat true n.
Proof. do 9 (destruct n as [|n]; [done|]). lia. Qed.

(** The reference semantics of the encoder: the codes one after the other,
    padded to a byte boundary with ones. *)
Lemma encodeHuffman_spec value :
  bytes_ok value → slen value < 2 ^ 26 →
  ∃ out pad, encodeHuffman value = Ret out ∧ (pad < 8)%nat ∧
    toBinary out = string_bits value ++ repeat true pad.
Proof.
  intros Hv Hlen.
  destruct (encodeHuffman_loop_spec value [] [] 0 0) as (out & t & E & Ht & Hh); try done; [lia|].
  cbn [app] in Ht, Hh. destruct Hh as [Hb Hr].
  unfold encodeHuffman. rewrite E. cbn [mbind outcome_bind].
  assert (t mod 8 = 0 ∧ (- t) mod 8 = 0 ∨ t mod 8 ≠ 0 ∧ (- t) mod 8 = 8 - t mod 8) as Hmod.
  { destruct (Z.eq_dec (t mod 8) 0) as [E0|E0]; [left; split; [done|by apply Z.mod_opp_l_z]|right].
    split; [done|]. by apply Z.mod_opp_l_nz. }
  destruct (Z.eqb_spec (slen value) 0) as [Hz|Hz].
  { destruct value; [|rewrite slen_cons in Hz; pose proof (slen_nonneg value); lia].
    cbn in E. injection E as <- <-. exists [], 0%nat. split; [done|]. split; [lia|done]. }
  cbn [orb]. destruct Hmod as [[E0 E1]|[E0 E1]].
  - rewrite E0. exists out, 0%nat. rewrite E1 in Hb. split; [done|]. split; [lia|done].
  - destruct (Z.eqb_spec (t mod 8) 0) as [|_]; [done|]. pose proof (Z.mod_pos_bound t 8 ltac:(lia)).
    rewrite E1 in Hb, Hr.
    destruct (holds_snoc out (string_bits value) (8 - t mod 8)) as (out0 & b & X & -> & -> & HX);
      [done|lia|].
    set (n := Z.to_nat (8 - t mod 8)) in *.
    rewrite or_last_snoc. exists (out0 ++ [Z.lor b (Z.ones (8 - t mod 8))]), n.
    split; [done|]. split; [lia|].
    replace (8 - t mod 8) with (Z.of_nat n) by lia.
    rewrite toBinary_app, toBinary_single, byte_bits_lor, HX, byte_bits_ones by lia.
    assert (length X = (8 - n)%nat) as HlX.
    { apply (f_equal length) in HX. rewrite length_app, repeat_length, byte_bits_length in HX. lia. }
    rewrite zip_with_app by (by rewrite repeat_length).
    rewrite zip_with_orb_false_r, zip_with_orb_false_l by (done || by rewrite repeat_length).
    by rewrite app_assoc.
Qed.

(** ** The decoder's window *)

(** The window when [L] of the bits [R] are loaded. *)
Definition window (L : nat) (R : list bool) : list bool := take L R ++ repeat false (38 - L).

Lemma window_length L R : (L ≤ length R)%nat → (L ≤ 38)%nat → length (window L R) = 38%nat.
Proof. intros. unfold window. rewrite length_app, length_take, repeat_length. lia. Qed.

Lemma take_window m L R : (m ≤ L)%nat → (L ≤ length R)%nat → take m (window L R) = take m R.
Proof.
  intros. unfold window. rewrite take_app_le by (rewrite length_take; lia).
  rewrite take_take. f_equal. lia.
Qed.

Lemma window_shift n L c R :
  length c = n → (n ≤ L ≤ 38)%nat →
  drop n (window L (c ++ R)) ++ repeat false n = window (L - n) R.
Proof.
  intros <- HL. unfold window. rewrite take_app, take_ge by lia.
  rewrite <- app_assoc, drop_app_length, <- app_assoc, <- repeat_app. f_equal. f_equal. lia.
Qed.

Lemma alter_repeat (b : bool) n : (0 < n)%nat → alter (λ _, b) 0%nat (repeat false n) = b :: repeat false (n - 1).
Proof. destruct n as [|n]; [lia|]. intros _. simpl. by rewrite Nat.sub_0_r. Qed.

Lemma window_load b L R :
  R !! L = Some b → (L < 38)%nat → alter (λ _, b) L (window L R) = window (S L) R.
Proof.
  intros Hb HL. pose proof (lookup_lt_Some _ _ _ Hb). unfold window.
  replace L with (length (take L R) + 0)%nat at 1 by (rewrite length_take; lia).
  rewrite alter_app_r, alter_repeat, (take_S_r _ _ _ Hb), <- app_assoc by lia.
  cbn [app]. do 3 f_equal. lia.
Qed.

Lemma load_bits_window bs L R :
  take (length bs) (drop L R) = bs → (L + length bs ≤ 38)%nat →
  load_bits bs (window L R) (37 - Z.of_nat L)
  = Ret (window (L + length bs) R, 37 - Z.of_nat (L + length bs)).
Proof.
  revert L. induction bs as [|b bs IH]; intros L Hbs HL; cbn [load_bits length] in *.
  - by rewrite Nat.add_0_r.
  - destruct (drop L R) as [|b' R'] eqn:E; [done|]. simpl in Hbs. injection Hbs as -> Hbs.
    assert (R !! L = Some b) as Hb by (rewrite <- (Nat.add_0_r L), <- lookup_drop, E; done).
    replace (0 <=? 37 - Z.of_nat L) with true by lia.
    replace (37 - Z.of_nat L <? 38) with true by lia.
    replace (Z.to_nat (37 - (37 - Z.of_nat L))) with L by lia.
    rewrite window_load by (done || lia).
    replace (37 - Z.of_nat L - 1) with (37 - Z.of_nat (S L)) by lia.
    rewrite IH; [f_equal; f_equal; [f_equal|]; lia| |lia].
    assert (drop (S L) R = R') as ->; [|done].
    replace (S L) with (L + 1)%nat by lia. by rewrite <- drop_drop, E.
Qed.

(** ** Recognising the next code *)

Lemma mask_of_spec n : 5 ≤ n ≤ 30 → mask_of n = repeat true (Z.to_nat n) ++ repeat false (38 - Z.to_nat n).
Proof.
  intros Hn. assert (forallb (λ n, bool_decide (mask_of n
    = repeat true (Z.to_nat n) ++ repeat false (38 - Z.to_nat n))) (seqZ 5 26) = true) as H
    by (vm_compute; reflexivity).
  rewrite forallb_forall in H. eapply bool_decide_eq_true, H.
  apply list_elem_of_In, elem_of_seqZ. lia.
Qed.

Lemma zip_with_andb_true s n : length s = n → zip_with andb s (repeat true n) = s.
Proof. intros <-. induction s as [|a s IH]; simpl; [done|]. by rewrite andb_true_r, IH. Qed.

Lemma take_masked n k :
  5 ≤ n ≤ 30 → length k = 38%nat →
  take (Z.to_nat n) (zip_with andb k (mask_of n)) = take (Z.to_nat n) k.
Proof.
  intros Hn Hk. rewrite mask_of_spec by done. rewrite <- (take_drop (Z.to_nat n) k) at 1.
  rewrite zip_with_app by (rewrite length_take, repeat_length; lia).
  rewrite take_app_le by (rewrite length_zip_with, repeat_length, length_take; lia).
  rewrite zip_with_andb_true by (rewrite length_take; lia).
  rewrite take_take. f_equal. lia.
Qed.

Lemma match_mask_unique ms k stbind b :
  (∀ n mask b', (n, mask) ∈ ms → n ≤ 38 - stbind →
     cib !! take (Z.to_nat n) (zip_with andb k mask) = Some b' → b' = b) →
  (∃ n mask, (n, mask) ∈ ms ∧ n ≤ 38 - stbind ∧
     cib !! take (Z.to_nat n) (zip_with andb k mask) = Some b) →
  match_mask ms k stbind = Some b.
Proof.
  induction ms as [|[n mask] ms IH]; intros Huniq (n' & mask' & Hin & Hle & Hb); [inversion Hin|].
  cbn [match_mask]. apply elem_of_cons in Hin as [Heq|Hin].
  - injection Heq as -> ->. replace (n <=? 38 - stbind) with true by lia. rewrite Hb. exact eq_refl.
  - assert (match_mask ms k stbind = Some b) as Hrec.
    { apply IH; [|exists n', mask'; exact (conj Hin (conj Hle Hb))].
      intros n0 m0 b0 Hin0 Hle0 Hb0. exact (Huniq n0 m0 b0 (list_elem_of_further _ _ _ Hin0) Hle0 Hb0). }
    destruct (Z.leb_spec n (38 - stbind)) as [Hn|_]; [|exact Hrec].
    destruct (cib !! take (Z.to_nat n) (zip_with andb k mask)) as [b'|] eqn:E; [|exact Hrec].
    f_equal. exact (Huniq n mask b' (list_elem_of_here _ _) Hn E).
Qed.

Lemma elem_of_rev {A} (x : A) l : x ∈ l ↔ x ∈ rev l.
Proof. rewrite !list_elem_of_In. apply in_rev. Qed.

Lemma is_prefix_take n s : is_prefix (take n s) s = true.
Proof. rewrite <- (take_drop n s) at 2. apply is_prefix_app. Qed.

Lemma take_take_le {A} (k : list A) n m : (n ≤ m)%nat → take n (take m k) = take n k.
Proof. intros. rewrite take_take. f_equal. lia. Qed.

(** With the whole code in the window, the loop over the masks finds it. *)
Lemma match_mask_code c b L R :
  HUFFMAN_TABLE !! Z.to_nat c = Some b → entry_ok c b → (length (cib_key b) ≤ L ≤ 37)%nat →
  (L ≤ length (cib_key b ++ R))%nat →
  match_mask (rev masks) (window L (cib_key b ++ R)) (37 - Z.of_nat L) = Some b.
Proof.
  intros Hb Hok HL HR. set (k := window L (cib_key b ++ R)).
  assert (length k = 38%nat) as Hk by (apply window_length; lia).
  pose proof (eo_numbits _ _ Hok) as Hn. pose proof (list_elem_of_lookup_2 _ _ _ Hb) as Hbin.
  assert (take (length (cib_key b)) k = cib_key b) as Hkey
    by (unfold k; rewrite take_window, take_app_length; done || lia).
  apply match_mask_unique.
  - intros n mask b' Hin Hle Hcib. apply (elem_of_rev _ masks) in Hin.
    apply masks_masks in Hin as [-> Hrange]. rewrite take_masked in Hcib by done.
    apply cib_Some in Hcib as [Hin' Hk'].
    destruct (Nat.le_gt_cases (length (cib_key b)) (Z.to_nat n)) as [Hc|Hc].
    + symmetry. apply code_prefix_eq; [done..|]. rewrite <- Hk', <- Hkey at 1.
      rewrite <- (take_take_le k _ _ Hc) . apply is_prefix_take.
    + apply code_prefix_eq; [done..|]. rewrite <- Hk', <- Hkey.
      rewrite <- (take_take_le k _ _ (Nat.lt_le_incl _ _ Hc)). apply is_prefix_take.
  - exists (numbits b), (mask_of (numbits b)).
    split; [exact (proj1 (elem_of_rev _ _) (eo_mask _ _ Hok))|].
    split; [lia|]. rewrite take_masked by (done || apply (eo_range _ _ Hok)).
    rewrite Hn, Nat2Z.id, Hkey. by apply cib_table.
Qed.

(** ** One round of the decoder *)

(** A string all of whose codes have at most eight bits. *)
Definition short (c : Z) : Prop := byte_ok c ∧ code_len c ≤ 8.
Definition short_string (s : bytes) : Prop := Forall short s.
#[export] Instance short_dec c : Decision (short c).
Proof. unfold short. apply _. Defined.
#[export] Instance short_string_dec s : Decision (short_string s).
Proof. unfold short_string. apply _. Defined.

Lemma toBinary_byte value j c :
  value !! j = Some c → take 8 (drop (8 * j) (toBinary value)) = byte_bits c.
Proof.
  intros Hj. rewrite <- (take_drop_middle _ _ _ Hj), toBinary_app.
  pose proof (lookup_lt_Some _ _ _ Hj).
  replace (8 * j)%nat with (length (toBinary (take j value))).
  2: { rewrite toBinary_length, length_take. lia. }
  rewrite drop_app_length. change (toBinary (c :: ?r)) with (byte_bits c ++ toBinary r).
  by rewrite take_app_le, take_ge by (rewrite byte_bits_length; lia).
Qed.

(** The state of the loop: [s1] has been decoded and the bits [R] are left, of
    which the first [L] are in the window; [j] bytes have been read. *)
Record dec_inv (value : bytes) (d : decoder) (s1 : bytes) (R : list bool) (L j : nat) : Prop := {
  di_dval : d_dval d = s1;
  di_stbind : d_stbind d = 37 - Z.of_nat L;
  di_k : d_k d = window L R;
  di_L : (L ≤ 37)%nat;
  di_LR : (L ≤ length R)%nat;
  di_rest : R = drop (Z.to_nat (d_currbits d)) (toBinary value);
  di_curr : d_currbits d + Z.of_nat (length R) = 8 * slen value;
  di_curr0 : 0 ≤ d_currbits d;
  di_loaded : d_currbits d + Z.of_nat L = 8 * Z.of_nat j;
  di_indx : 0 ≤ d_indx d ≤ slen value;
  di_j : Z.of_nat j = Z.min (d_indx d + 1) (slen value)
}.

(** The variables after a code of length [n] was taken off the window. *)
Definition taken (d : decoder) (c : Z) (n : nat) : decoder :=
  mkDecoder (d_dval d ++ [c]) (d_indx d) (drop n (d_k d) ++ repeat false n)
    (d_stbind d + Z.of_nat n) (d_currbits d + Z.of_nat n) (d_last d).

(** What the round does after the search for a code. *)
Definition after_match (value : bytes) (totbits : Z) (d : decoder) : outcome (bytes + decoder) :=
  let len := slen value in
  if d_last d then mret (inl (d_dval d))
  else if (totbits - d_currbits d <=? 7) && forallb id (take (Z.to_nat (totbits - d_currbits d)) (d_k d))
  then mret (inl (d_dval d))
  else
    let last := totbits - d_currbits d <=? 7 in
    let indx := d_indx d in
    if (indx <? len) && (8 <=? d_stbind d) then
      let indx := indx + 1 in
      if indx <=? len - 1 then
        c ← at_ value indx;
        '(k, stbind) ← load_bits (byte_bits c) (d_k d) (d_stbind d);
        mret (inr (mkDecoder (d_dval d) indx k stbind (d_currbits d) last))
      else mret (inr (mkDecoder (d_dval d) indx (d_k d) (d_stbind d) (d_currbits d) last))
    else mret (inr (mkDecoder (d_dval d) indx (d_k d) (d_stbind d) (d_currbits d) last)).

Lemma decodeHuffman_step_match value totbits d b :
  d_indx d ≤ slen value → match_mask (rev masks) (d_k d) (d_stbind d) = Some b →
  0 ≤ numbits b →
  decodeHuffman_step value totbits d
  = after_match value totbits (taken d (symbol b) (Z.to_nat (numbits b))).
Proof.
  intros Hi Hm Hn. unfold decodeHuffman_step. rewrite Hm.
  replace (d_indx d <=? slen value) with true by lia. cbn [negb].
  unfold after_match, taken.
  cbn [d_dval d_indx d_k d_stbind d_currbits d_last]. rewrite Z2Nat.id by exact Hn. reflexivity.
Qed.

(** The rest of the bits after a code. *)
Lemma dec_inv_taken value d s1 c key R L j :
  dec_inv value d s1 (key ++ R) L j → (length key ≤ L)%nat →
  dec_inv value (taken d c (length key)) (s1 ++ [c]) R (L - length key) j.
Proof.
  intros [] Hle. pose proof (length_app key R) as HlR.
  split; unfold taken; cbn [d_dval d_stbind d_k d_currbits d_indx].
  - by rewrite di_dval0.
  - lia.
  - rewrite di_k0. apply window_shift; lia.
  - lia.
  - lia.
  - rewrite Z2Nat.inj_add, Nat2Z.id, <- drop_drop, <- di_rest0 by lia. by rewrite drop_app_length.
  - lia.
  - lia.
  - lia.
  - done.
  - done.
Qed.

(** Bits that are not in the window come in whole bytes. *)
Lemma dec_inv_unloaded value d s1 R L j :
  dec_inv value d s1 R L j →
  Z.of_nat (length R) = Z.of_nat L + 8 * (slen value - Z.of_nat j) ∧ Z.of_nat j ≤ slen value.
Proof. intros []. lia. Qed.

Lemma forallb_repeat_true n : forallb id (repeat true n) = true.
Proof. induction n; simpl; done. Qed.

(** Nothing but the padding is left: the loop ends. *)
Lemma after_match_done value d s1 pad L j :
  (pad < 8)%nat → dec_inv value d s1 (repeat true pad) L j →
  after_match value (8 * slen value) d = Ret (inl s1).
Proof.
  intros Hpad Hd. pose proof (dec_inv_unloaded _ _ _ _ _ _ Hd) as [Hu Hj]. destruct Hd.
  rewrite repeat_length in *. unfold after_match. rewrite di_dval0.
  destruct (d_last d); [done|].
  replace (8 * slen value - d_currbits d) with (Z.of_nat pad) by lia. rewrite Nat2Z.id.
  replace (Z.of_nat pad <=? 7) with true by lia.
  rewrite di_k0, take_window by (rewrite ?repeat_length; lia).
  rewrite take_repeat, forallb_repeat_true by lia. done.
Qed.

(** Another code is left: the loop goes on, with one more byte in the window
    when there is one and it fits. *)
Lemma after_match_more value d s1 key R L j :
  forallb id key = false → (5 ≤ length key)%nat → d_last d = false →
  dec_inv value d s1 (key ++ R) L j →
  ∃ d' L' j', after_match value (8 * slen value) d = Ret (inr d') ∧
    dec_inv value d' s1 (key ++ R) L' j' ∧ ((8 ≤ L')%nat ∨ L' = length (key ++ R)) ∧
    d_last d' = (Z.of_nat (length (key ++ R)) <=? 7).
Proof.
  intros Hz H5 Hlast Hd. pose proof (dec_inv_unloaded _ _ _ _ _ _ Hd) as [Hu Hj].
  pose proof (length_app key R) as HlR. pose proof Hd as [].
  unfold after_match. rewrite Hlast.
  replace (8 * slen value - d_currbits d) with (Z.of_nat (length (key ++ R))) by lia.
  rewrite Nat2Z.id.
  assert ((Z.of_nat (length (key ++ R)) <=? 7) && forallb id (take (length (key ++ R)) (d_k d)) = false) as ->.
  { destruct (Z.leb_spec (Z.of_nat (length (key ++ R))) 7); [|done].
    rewrite di_k0, take_window, take_ge, forallb_app, Hz by lia. done. }
  set (last := Z.of_nat (length (key ++ R)) <=? 7).
  assert (∀ d', d_dval d' = d_dval d → d_stbind d' = d_stbind d → d_k d' = d_k d →
    d_currbits d' = d_currbits d → d_indx d ≤ d_indx d' ≤ slen value →
    Z.of_nat j = Z.min (d_indx d' + 1) (slen value) → dec_inv value d' s1 (key ++ R) L j) as Hsame.
  { intros d' E1 E2 E3 E4 Hi Hj'. split; rewrite ?E1, ?E2, ?E3, ?E4; done || lia. }
  destruct (Z.ltb_spec (d_indx d) (slen value)) as [Hi|Hi]; cbn [andb].
  2: { eexists _, L, j. split; [reflexivity|]. split; [apply Hsame; done || (cbn [d_indx]; lia)|].
       split; [right; lia|done]. }
  destruct (Z.leb_spec 8 (d_stbind d)) as [Hb|Hb].
  2: { eexists _, L, j. split; [reflexivity|]. split; [apply Hsame; done || (cbn [d_indx]; lia)|].
       split; [left; lia|done]. }
  destruct (Z.leb_spec (d_indx d + 1) (slen value - 1)) as [Hn|Hn].
  2: { eexists _, L, j. split; [reflexivity|]. split; [apply Hsame; done || (cbn [d_indx]; lia)|].
       split; [right; lia|done]. }
  assert (Z.of_nat j = d_indx d + 1) as Ej by lia.
  destruct (lookup_lt_is_Some_2 value j) as [c Hc]; [unfold slen in *; lia|].
  assert (at_ value (d_indx d + 1) = Ret c) as ->.
  { unfold at_. replace (_ && _) with true by lia. rewrite <- Ej, Nat2Z.id.
    by rewrite (nth_lookup_Some _ _ _ _ Hc). }
  cbn [mbind outcome_bind].
  assert (take 8 (drop L (key ++ R)) = byte_bits c) as Hbits.
  { rewrite di_rest0, drop_drop, <- (toBinary_byte value j c Hc). do 2 f_equal. lia. }
  rewrite di_k0, di_stbind0, load_bits_window by (rewrite ?byte_bits_length; done || lia).
  cbn [mbind outcome_bind]. rewrite byte_bits_length.
  eexists _, (L + 8)%nat, (S j). split; [reflexivity|].
  split; [|split; [left; lia|done]].
  apply (f_equal length) in Hbits. rewrite length_take, length_drop, byte_bits_length in Hbits.
  split; cbn [d_dval d_stbind d_k d_currbits d_indx]; done || lia.
Qed.

Lemma code_bits_facts c :
  byte_ok c → forallb id (code_bits c) = false ∧ (5 ≤ length (code_bits c))%nat.
Proof.
  intros Hc. pose proof (code_len_bound c Hc) as H5. unfold code_len in H5.
  destruct (table_entry c Hc) as (b & Hb & Hok).
  rewrite (code_bits_entry _ _ Hb) in *. split; [exact (eo_zero _ _ Hok)|lia].
Qed.

(** A round that finds a short code. *)
Lemma decode_round value d s1 c R L j :
  short c → dec_inv value d s1 (code_bits c ++ R) L j →
  (8 ≤ L)%nat ∨ L = length (code_bits c ++ R) →
  dec_inv value (taken d c (length (code_bits c))) (s1 ++ [c]) R (L - length (code_bits c)) j ∧
  decodeHuffman_step value (8 * slen value) d
  = after_match value (8 * slen value) (taken d c (length (code_bits c))).
Proof.
  intros [Hc H8] Hd HL. unfold code_len in H8.
  assert (length (code_bits c) ≤ L)%nat as Hle by (rewrite length_app in HL; lia).
  split; [by apply dec_inv_taken|].
  destruct (table_entry c Hc) as (b & Hb & Hok). rewrite (code_bits_entry _ _ Hb) in *.
  pose proof (eo_numbits _ _ Hok) as Hn.
  rewrite (decodeHuffman_step_match value _ d b), (eo_symbol _ _ Hok), Hn, Nat2Z.id; [reflexivity| | |lia].
  - apply (di_indx _ _ _ _ _ _ Hd).
  - rewrite (di_k _ _ _ _ _ _ Hd), (di_stbind _ _ _ _ _ _ Hd).
    eapply match_mask_code; [exact Hb|exact Hok| |exact (di_LR _ _ _ _ _ _ Hd)].
    pose proof (di_L _ _ _ _ _ _ Hd). lia.
Qed.

(** The loop decodes the rest of a string of short codes. *)
Lemma decodeHuffman_loop_spec value s2 fuel d s1 pad L j c :
  (pad < 8)%nat → short_string (c :: s2) → (length s2 < fuel)%nat →
  dec_inv value d s1 (string_bits (c :: s2) ++ repeat true pad) L j →
  (8 ≤ L)%nat ∨ L = length (string_bits (c :: s2) ++ repeat true pad) →
  (d_last d = true → s2 = []) →
  decodeHuffman_loop fuel value (8 * slen value) d = Ret (s1 ++ c :: s2).
Proof.
  revert c fuel d s1 L j. induction s2 as [|c2 s2 IH]; intros c fuel d s1 L j Hpad Hs Hf Hd HL Hlast;
    (destruct fuel as [|fuel]; [simpl in Hf; lia|]); apply Forall_cons in Hs as [Hc Hs];
    cbn [string_bits flat_map] in Hd, HL; rewrite <- app_assoc in Hd, HL;
    destruct (decode_round _ _ _ _ _ _ _ Hc Hd HL) as [Hd' Hstep];
    cbn [decodeHuffman_loop]; rewrite Hstep.
  - cbn [app] in Hd'. by rewrite (after_match_done _ _ _ _ _ _ Hpad Hd').
  - pose proof Hs as [[Hc2 _] _]%Forall_cons.
    destruct (code_bits_facts c2 Hc2) as [Hz H5].
    change (code_bits c2 ++ flat_map code_bits s2) with (string_bits (c2 :: s2)) in Hd'.
    assert (string_bits (c2 :: s2) ++ repeat true pad
            = code_bits c2 ++ string_bits s2 ++ repeat true pad) as Esplit by (by rewrite app_assoc).
    rewrite Esplit in Hd'.
    assert (d_last (taken d c (length (code_bits c))) = false) as Hl0
      by (cbn [taken d_last]; destruct (d_last d); [discriminate (Hlast eq_refl)|reflexivity]).
    destruct (after_match_more value _ _ _ _ _ _ Hz H5 Hl0 Hd')
      as (d2 & L2 & j2 & E & Hd2 & HL2 & Hlast2).
    rewrite E. cbn [mbind outcome_bind]. rewrite <- Esplit in *.
    rewrite (IH c2 fuel d2 (s1 ++ [c]) L2 j2); try done.
    + by rewrite <- app_assoc.
    + simpl in Hf. lia.
    + rewrite Hlast2. intros H7. destruct s2 as [|c3 s2]; [done|].
      apply Forall_cons in Hs as [_ [[Hc3 _] _]%Forall_cons].
      destruct (code_bits_facts c3 Hc3) as [_ H53].
      exfalso. cbn [string_bits flat_map] in H7. rewrite !length_app in H7. apply Z.leb_le in H7. lia.
Qed.

Lemma slen_map_bits out : Z.of_nat (length (toBinary out)) = 8 * slen out.
Proof. rewrite toBinary_length. unfold slen. lia. Qed.

(** Strings of short codes, but for those of length one. *)
Definition huffman_safe (s : bytes) : Prop := short_string s ∧ length s ≠ 1%nat.
#[export] Instance huffman_safe_dec s : Decision (huffman_safe s).
Proof. unfold huffman_safe. apply _. Defined.

Lemma short_string_ok s : short_string s → bytes_ok s.
Proof. intros H. eapply Forall_impl; [exact H|]. by intros c []. Qed.

Lemma decodeHuffman_encoded s :
  huffman_safe s → slen s < 2 ^ 26 →
  ∃ out, encodeHuffman s = Ret out ∧ decodeHuffman out = Ret s ∧ slen out ≤ slen s.
Proof.
  intros [Hs H1] Hlen. pose proof (short_string_ok s Hs) as Hok.
  destruct (encodeHuffman_spec s Hok Hlen) as (out & pad & E & Hpad & Hbits).
  pose proof (string_bits_bound s Hok) as Hbound.
  assert (Z.of_nat (length (string_bits s)) + Z.of_nat pad = 8 * slen out) as Hl.
  { rewrite <- slen_map_bits, Hbits, length_app, repeat_length. lia. }
  assert (Z.of_nat (length (string_bits s)) ≤ 8 * slen s) as H8.
  { clear -Hs. induction s as [|c s IH]; [done|]. apply Forall_cons in Hs as [[Hc H8] Hs].
    specialize (IH Hs). cbn [string_bits flat_map]. rewrite length_app, slen_cons.
    unfold code_len in H8. fold (string_bits s). lia. }
  exists out. split; [done|]. split; [|lia].
  unfold decodeHuffman, checked_int, fits_int.
  pose proof (slen_nonneg out). replace (_ && _) with true by lia. cbn [mbind outcome_bind].
  destruct s as [|c s].
  - cbn in Hl. assert (slen out = 0) as Hz by lia. destruct out; [reflexivity|].
    rewrite slen_cons in Hz. pose proof (slen_nonneg out). lia.
  - assert (2 ≤ slen (c :: s)) as H2 by (unfold slen; simpl in *; destruct s; simpl in *; lia).
    unfold decodeHuffman_init. replace (8 <? slen out * 8) with true by lia.
    destruct out as [|b0 out0] eqn:Eout; [rewrite slen_nil in Hl; lia|]. rewrite <- Eout in *.
    rewrite Eout, at_0, <- Eout. cbn [mbind outcome_bind].
    assert (take (length (byte_bits b0)) (drop 0 (toBinary out)) = byte_bits b0) as Hb0
      by (by rewrite byte_bits_length, <- (toBinary_byte out 0 b0 ltac:(by rewrite Eout))).
    pose proof (load_bits_window (byte_bits b0) 0 (toBinary out) Hb0 ltac:(rewrite byte_bits_length; lia)) as Hload.
    change (window 0 (toBinary out)) with (repeat false 38) in Hload. change (37 - Z.of_nat 0) with 37 in Hload.
    rewrite Hload. cbn [mbind outcome_bind]. rewrite byte_bits_length.
    replace (slen out * 8) with (8 * slen out) by lia.
    apply (decodeHuffman_loop_spec out s _ _ [] pad 8 1 c); try done.
    + unfold slen in *. simpl in *. lia.
    + rewrite <- Hbits. split; cbn [d_dval d_stbind d_k d_currbits d_indx]; try done; try lia.
      * rewrite toBinary_length. unfold slen in *. lia.
      * apply slen_map_bits.
    + left. lia.
Qed.

(** ** Properties *)

(** The encoder.  The bits of [encodeHuffman s] are the codes of the
    characters of [s], one after the other, followed by fewer than eight ones. *)
Theorem encodeHuffman_bits s :
  bytes_ok s → slen s < 2 ^ 26 →
  ∃ out pad, encodeHuffman s = Ret out ∧ (pad < 8)%nat ∧
    toBinary out = string_bits s ++ repeat true pad.
Proof. apply encodeHuffman_spec. Qed.

Example encodeHuffman_bits_witness :
  encodeHuffman (str "a>") = Ret [31; 253; 255] ∧
  ∃ out pad, encodeHuffman (str "a>") = Ret out ∧ (pad < 8)%nat ∧
    toBinary out = string_bits (str "a>") ++ repeat true pad.
Proof. split; [reflexivity|]. apply (encodeHuffman_bits (str "a>")); [apply str_ok | done]. Defined.

(** C7: the Huffman round trip.  [decodeHuffman] inverts [encodeHuffman] on
    every string of codes of at most eight bits (letters, digits and most of the
    punctuation of header fields) that is not a single character. *)
Theorem huffman_roundtrip s :
  huffman_safe s → slen s < 2 ^ 26 →
  ∃ out, encodeHuffman s = Ret out ∧ decodeHuffman out = Ret s.
Proof.
  intros Hs Hl. destruct (decodeHuffman_encoded s Hs Hl) as (out & ? & ? & _). by exists out.
Qed.

Example huffman_roundtrip_witness :
  ∃ out, encodeHuffman (str "www.example.com") = Ret out ∧ decodeHuffman out = Ret (str "www.example.com").
Proof.
  apply (huffman_roundtrip (str "www.example.com"));
    [apply (bool_decide_eq_true_1 _); vm_compute; reflexivity | done].
Defined.

(** A Huffman string of a single byte is never decoded.  Its byte is not
    loaded into the window, so the loop makes no progress, whatever the number of
    rounds. *)
Theorem decodeHuffman_one_byte_diverges b fuel :
  ∃ d, decodeHuffman_init [b] 8 = Ret d ∧ decodeHuffman_loop fuel [b] 8 d = Out_of_fuel.
Proof.
  exists (mkDecoder [] 0 (repeat false 38) 37 0 false). split; [reflexivity|].
  assert (∀ indx, 0 ≤ indx ≤ 1 →
    decodeHuffman_step [b] 8 (mkDecoder [] indx (repeat false 38) 37 0 false)
    = Ret (inr (mkDecoder [] 1 (repeat false 38) 37 0 false))) as Hstep.
  { intros indx Hi. assert (indx = 0 ∨ indx = 1) as [-> | ->] by lia; vm_compute; reflexivity. }
  assert (∀ indx, 0 ≤ indx ≤ 1 → decodeHuffman_loop fuel [b] 8
    (mkDecoder [] indx (repeat false 38) 37 0 false) = Out_of_fuel) as H; [|apply H; lia].
  induction fuel as [|fuel IH]; intros indx Hi; [done|].
  cbn [decodeHuffman_loop]. rewrite Hstep by done. cbn [mbind outcome_bind]. apply IH. lia.
Qed.

(** Codes of more than eight bits are not safe.  The window counts one bit
    more than it holds, so a code can be taken whose last bit has not been read:
    decoding the encoding of [a>] ends in [std::out_of_range]. *)
Theorem decodeHuffman_long_code_throws :
  ∃ out, encodeHuffman (str "a>") = Ret out ∧ decodeHuffman out = Throw Out_of_range.
Proof. exists [31; 253; 255]. split; vm_compute; reflexivity. Qed.
