(* ===== verification/Hpack.v ===== *)
(** * Hpack

    The header compression context of [Http2HPACKContext.cpp]: the static table,
    the request and response header tables with their two indices, and
    [encode]/[decode] of a header map.  The encoder works on the response table,
    the decoder on the request table; the main theorem is the round trip between
    an encoder and a decoder whose tables agree, and that they still agree
    afterwards.  Dynamic entries get the next free index. *)

From S2P Require Import Prelude ByteCodec StdMap HpackNumber Huffman.

(** ** The header tables *)

(** [HPACK_TABLE], whose keys are 1 to 61. *)
Definition HPACK_TABLE : list (bytes * bytes) :=
  [ (str ":authority", str "");
    (str ":method", str "GET");
    (str ":method", str "POST");
    (str ":path", str "/");
    (str ":path", str "/index.html");
    (str ":scheme", str "http");
    (str ":scheme", str "https");
    (str ":status", str "200");
    (str ":status", str "204");
    (str ":status", str "206");
    (str ":status", str "304");
    (str ":status", str "400");
    (str ":status", str "404");
    (str ":status", str "500");
    (str "accept-charset", str "");
    (str "accept-encoding", str "gzip, deflate");
    (str "accept-language", str "");
    (str "accept-ranges", str "");
    (str "accept", str "");
    (str "access-control-allow-origin", str "");
    (str "age", str "");
    (str "allow", str "");
    (str "authorization", str "");
    (str "cache-control", str "");
    (str "content-disposition", str "");
    (str "content-encoding", str "");
    (str "content-language", str "");
    (str "content-length", str "");
    (str "content-location", str "");
    (str "content-range", str "");
    (str "content-type", str "");
    (str "cookie", str "");
    (str "date", str "");
    (str "etag", str "");
    (str "expect", str "");
    (str "expires", str "");
    (str "from", str "");
    (str "host", str "");
    (str "if-match", str "");
    (str "if-modified-since", str "");
    (str "if-none-match", str "");
    (str "if-range", str "");
    (str "if-unmodified-since", str "");
    (str "last-modified", str "");
    (str "link", str "");
    (str "location", str "");
    (str "max-forwards", str "");
    (str "proxy-authenticate", str "");
    (str "proxy-authorization", str "");
    (str "range", str "");
    (str "referer", str "");
    (str "refresh", str "");
    (str "retry-after", str "");
    (str "server", str "");
    (str "set-cookie", str "");
    (str "strict-transport-security", str "");
    (str "transfer-encoding", str "");
    (str "user-agent", str "");
    (str "vary", str "");
    (str "via", str "");
    (str "www-authenticate", str "") ].

(** The tables of one direction.  Every entry of the context table is a map with
    a single binding. *)
Record DirTable := mkDir {
  contextTable : gmap Z (bytes * bytes);
  hnIndexTable : gmap bytes Z;
  hnvIndexTable : gmap bytes Z;
  currentSize : Z
}.

(** One round of the loops of the constructor, at index [i]. *)
Definition index_entry (i : Z) (nv : bytes * bytes) (t : DirTable) : DirTable :=
  let hnv := if bool_decide (nv.2 = []) then hnvIndexTable t
             else <[nv.1 ++ nv.2 := i]> (hnvIndexTable t) in
  let hn := match hnIndexTable t !! nv.1 with
            | Some _ => hnIndexTable t
            | None => <[nv.1 := i]> (hnIndexTable t)
            end in
  mkDir (contextTable t) hn hnv (currentSize t).

Definition DirTable_new : DirTable :=
  let ctx := list_to_map (imap (λ i nv, (Z.of_nat i + 1, nv)) HPACK_TABLE) in
  foldl (λ t (inv : Z * (bytes * bytes)), index_entry inv.1 inv.2 t)
    (mkDir ctx ∅ ∅ (Z.of_nat (length HPACK_TABLE)))
    (imap (λ i nv, (Z.of_nat i + 1, nv)) HPACK_TABLE).

Record Http2HPACKHeaderTable := mkTable {
  reqTable : DirTable;
  resTable : DirTable
}.
Definition Http2HPACKHeaderTable_new : Http2HPACKHeaderTable := mkTable DirTable_new DirTable_new.

Definition side (isRequest : bool) (t : Http2HPACKHeaderTable) : DirTable :=
  if isRequest then reqTable t else resTable t.

Definition getIndexByNameAndValue (name value : bytes) (isRequest : bool) (t : Http2HPACKHeaderTable) : Z :=
  match hnvIndexTable (side isRequest t) !! (name ++ value) with Some i => i | None => -1 end.

Definition getIndexByName (name : bytes) (isRequest : bool) (t : Http2HPACKHeaderTable) : Z :=
  match hnIndexTable (side isRequest t) !! name with Some i => i | None => -1 end.

(** [None] is the empty map. *)
Definition getNameAndValueByIndex (index : Z) (isRequest : bool) (t : Http2HPACKHeaderTable)
    : option (bytes * bytes) :=
  contextTable (side isRequest t) !! index.

Definition getNameByIndex (index : Z) (isRequest : bool) (t : Http2HPACKHeaderTable) : bytes :=
  match contextTable (side isRequest t) !! index with Some nv => nv.1 | None => [] end.

(** Both branches of [addHeader], on the table of one direction. *)
Definition addHeader_dir (name value : bytes) (t : DirTable) : DirTable :=
  match hnvIndexTable t !! (name ++ value) with
  | Some _ => t
  | None =>
      let n := currentSize t + 1 in
      mkDir (<[n := (name, value)]> (contextTable t)) (hnIndexTable t)
        (if bool_decide (value = []) then hnvIndexTable t
         else <[name ++ value := n]> (hnvIndexTable t)) n
  end.

Definition addHeader (name value : bytes) (isRequest : bool) (t : Http2HPACKHeaderTable)
    : Http2HPACKHeaderTable :=
  if isRequest then mkTable (addHeader_dir name value (reqTable t)) (resTable t)
  else mkTable (reqTable t) (addHeader_dir name value (resTable t)).

(** ** The codec *)

Record Http2HPACKContext := mkContext {
  table : Http2HPACKHeaderTable;
  huffmanEncoding : bool
}.
Definition Http2HPACKContext_new : Http2HPACKContext := mkContext Http2HPACKHeaderTable_new true.

Definition with_table (t : Http2HPACKHeaderTable) (c : Http2HPACKContext) : Http2HPACKContext :=
  mkContext t (huffmanEncoding c).

Abbreviation headers := (list (bytes * bytes)).

Definition encodeString (c : Http2HPACKContext) (value : bytes) : outcome bytes :=
  value ← (if huffmanEncoding c then encodeHuffman value else mret value);
  n ← encodeNumber (slen value) [huffmanEncoding c];
  mret (n ++ value).

(** One round of the loop of [encode]. *)
Definition encode_header (c : Http2HPACKContext) (name value : bytes) : outcome (bytes * Http2HPACKContext) :=
  let index := getIndexByNameAndValue name value false (table c) in
  if negb (index =? -1) then
    e ← encodeNumber index [true];
    mret (e, c)
  else
    let index := getIndexByName name false (table c) in
    e ← (if negb (index =? -1) then
           n ← encodeNumber index [false; true];
           v ← encodeString c value;
           mret (n ++ v)
         else
           n ← encodeString c name;
           v ← encodeString c value;
           mret ([64] ++ n ++ v));
    mret (e, with_table (addHeader name value false (table c)) c).

Fixpoint encode (c : Http2HPACKContext) (hs : headers) : outcome (bytes * Http2HPACKContext) :=
  match hs with
  | [] => mret ([], c)
  | (name, value) :: hs =>
      '(e, c) ← encode_header c name value;
      '(es, c) ← encode c hs;
      mret (e ++ es, c)
  end.

Definition decodeString (data : bytes) (indx : Z) : outcome (bytes * Z) :=
  st ← at_ data indx;
  '(len, indx) ← decodeNumber data 1 st indx;
  value ← substr data indx (size_t len);
  value ← (if Z.testbit st 7 then decodeHuffman value else mret value);
  mret (value, indx + len).

(** A literal header: a new name when the byte is exactly the representation's
    pattern, else a name by index; then the value. *)
Definition decode_literal (data : bytes) (c : Http2HPACKContext) (st pattern prefixSize indx : Z)
    : outcome (bytes * bytes * Z) :=
  '(name, indx) ←
    (if st =? pattern then decodeString data (indx + 1)
     else
       '(nmindx, indx) ← decodeNumber data prefixSize st indx;
       mret (getNameByIndex (wraps 32 nmindx) true (table c), indx));
  '(value, indx) ← decodeString data indx;
  mret (name, value, indx).

(** One round of the loop of [decode].  An index without an entry dereferences
    the end of an empty map; the last branch changes nothing, not even [indx]. *)
Definition decode_step (data : bytes) (c : Http2HPACKContext) (hs : headers) (indx : Z)
    : outcome (Http2HPACKContext * headers * Z) :=
  st ← at_ data indx;
  if Z.testbit st 7 then
    '(index, indx) ← decodeNumber data 1 st indx;
    match getNameAndValueByIndex (wraps 32 index) true (table c) with
    | Some nv => mret (c, mset nv.1 nv.2 hs, indx)
    | None => Undefined
    end
  else if Z.testbit st 6 then
    '(name, value, indx) ← decode_literal data c st 64 2 indx;
    mret (with_table (addHeader name value true (table c)) c, mset name value hs, indx)
  else if st <=? 15 then
    '(name, value, indx) ← decode_literal data c st 0 4 indx;
    mret (c, mset name value hs, indx)
  else if Z.testbit st 3 then
    '(name, value, indx) ← decode_literal data c st 16 4 indx;
    mret (c, mset name value hs, indx)
  else mret (c, hs, indx).

Fixpoint decode_loop (fuel : nat) (data : bytes) (c : Http2HPACKContext) (hs : headers) (indx : Z)
    : outcome (headers * Http2HPACKContext) :=
  match fuel with
  | O => Out_of_fuel
  | S fuel' =>
      if indx <? slen data then
        '(c, hs, indx) ← decode_step data c hs indx;
        decode_loop fuel' data c hs indx
      else mret (hs, c)
  end.

(** Every round but the one that changes nothing reads at least one byte. *)
Definition decode (c : Http2HPACKContext) (data : bytes) : outcome (headers * Http2HPACKContext) :=
  decode_loop (S (length data)) data c [] 0.

(** ** Strings *)

(** What [decodeString] recovers from [encodeString]. *)
Definition string_ok (huff : bool) (s : bytes) : Prop :=
  slen s < 255 ∧ (huff = true → huffman_safe s).

Lemma set_prefix_top (h : bool) b : byte_ok b → Z.testbit (set_prefix [h] b) 7 = h.
Proof.
  intros Hb. apply eqb_prop.
  destruct h; [exact (forall_bytes (λ b, Bool.eqb (Z.testbit (set_prefix [true] b) 7) true) eq_refl b Hb)
              |exact (forall_bytes (λ b, Bool.eqb (Z.testbit (set_prefix [false] b) 7) false) eq_refl b Hb)].
Qed.

(** The number lemma in the form used here: the first byte is at the index. *)
Lemma decodeNumber_at l n pre rest :
  (1 ≤ length l ≤ 7)%nat → 0 ≤ n < suffixMaxValue (Z.of_nat (length l)) + 128 →
  ∃ st e, encodeNumber n l = Ret (st :: e) ∧
    at_ (pre ++ (st :: e) ++ rest) (slen pre) = Ret st ∧
    decodeNumber (pre ++ (st :: e) ++ rest) (Z.of_nat (length l)) st (slen pre)
      = Ret (n, slen pre + slen (st :: e)) ∧
    (byte_ok n ∧ st = set_prefix l n ∨ st = set_prefix l 255).
Proof.
  intros Hl Hn. destruct (decodeNumber_encoded l n pre rest Hl Hn) as (st & e & He & _ & Hst & Hd).
  pose proof (suffixMaxValue_bound (Z.of_nat (length l)) ltac:(lia)).
  exists st, e. split; [done|]. split; [by rewrite at_app_r, <- app_comm_cons, at_0|]. split; [done|].
  destruct Hst as [[-> ?]| ->]; [left; split; [unfold byte_ok; lia|done]|by right].
Qed.

Lemma decodeString_encoded c s :
  string_ok (huffmanEncoding c) s →
  ∃ e, encodeString c s = Ret e ∧ 1 ≤ slen e ∧
    ∀ pre rest, decodeString (pre ++ e ++ rest) (slen pre) = Ret (s, slen pre + slen e).
Proof.
  intros [Hlen Hsafe]. destruct c as [t huff]. cbn [huffmanEncoding] in *.
  assert (∃ w, (if huff then encodeHuffman s else mret s) = Ret w ∧
    (if huff then decodeHuffman w else mret w) = Ret s ∧ slen w ≤ slen s) as (w & Hw & Hdw & Hl).
  { destruct huff; [|by exists s].
    destruct (decodeHuffman_encoded s (Hsafe eq_refl) ltac:(lia)) as (w & ? & ? & ?). by exists w. }
  pose proof (slen_nonneg w). unfold encodeString. cbn [huffmanEncoding]. rewrite Hw. cbn [mbind outcome_bind].
  assert (∀ pre rest, ∃ st e, encodeNumber (slen w) [huff] = Ret (st :: e) ∧
    decodeString (pre ++ ((st :: e) ++ w) ++ rest) (slen pre) = Ret (s, slen pre + slen ((st :: e) ++ w))) as H0.
  { intros pre rest.
    destruct (decodeNumber_at [huff] (slen w) pre (w ++ rest)) as (st & e & He & Hat & Hd & Hst).
    { cbn; lia. }
    { change (suffixMaxValue (Z.of_nat (length [huff]))) with 127. lia. }
    exists st, e. split; [done|]. unfold decodeString. rewrite <- app_assoc, Hat. cbn [mbind outcome_bind].
    change (Z.of_nat (length [huff])) with 1 in Hd. rewrite Hd. cbn [mbind outcome_bind].
    rewrite app_assoc, (substr_app_mid (pre ++ st :: e) w rest _ (size_t (slen w))).
    2: { by rewrite slen_app. }
    2: { unfold size_t. rewrite wrapu_small by lia. done. }
    cbn [mbind outcome_bind].
    assert (Z.testbit st 7 = huff) as ->.
    { destruct Hst as [[Hb ->]| ->]; by apply set_prefix_top. }
    rewrite Hdw. cbn [mbind outcome_bind]. unfold mret, outcome_ret. do 2 f_equal.
    rewrite !slen_app. lia. }
  destruct (H0 [] []) as (st & e & He & _). rewrite He. cbn [mbind outcome_bind].
  eexists. split; [reflexivity|].
  split; [rewrite slen_app, slen_cons; pose proof (slen_nonneg e); lia|].
  intros pre rest. destruct (H0 pre rest) as (st' & e' & He' & Hd).
  rewrite He in He'. injection He' as <- <-. exact Hd.
Qed.

(** ** The invariant of a direction *)

(** Both indices point into the context table, entries are numbered up to
    [currentSize], and names are indexed in the static part only. *)
Record dir_ok (t : DirTable) : Prop := {
  do_hnv : ∀ s i, hnvIndexTable t !! s = Some i →
    1 ≤ i ≤ currentSize t ∧ ∃ nv, contextTable t !! i = Some nv ∧ nv.1 ++ nv.2 = s;
  do_hn : ∀ n i, hnIndexTable t !! n = Some i →
    1 ≤ i ≤ 61 ∧ ∃ v, contextTable t !! i = Some (n, v);
  do_size : 61 ≤ currentSize t
}.

(** A boolean form, to establish the invariant of the static tables. *)
Definition dir_test (t : DirTable) : bool :=
  forallb (λ si : bytes * Z, (1 <=? si.2) && (si.2 <=? currentSize t) &&
    match contextTable t !! si.2 with Some nv => bool_decide (nv.1 ++ nv.2 = si.1) | None => false end)
    (map_to_list (hnvIndexTable t))
  && forallb (λ ni : bytes * Z, (1 <=? ni.2) && (ni.2 <=? 61) &&
    match contextTable t !! ni.2 with Some nv => bool_decide (nv.1 = ni.1) | None => false end)
    (map_to_list (hnIndexTable t))
  && (61 <=? currentSize t).

Lemma dir_test_ok t : dir_test t = true → dir_ok t.
Proof.
  unfold dir_test. rewrite !andb_true_iff, !forallb_forall. intros [[H1 H2] H3]. split; [| |lia].
  - intros s i Hs. apply elem_of_map_to_list, list_elem_of_In in Hs. specialize (H1 _ Hs).
    cbn [fst snd] in H1. rewrite !andb_true_iff in H1. destruct H1 as [[??] H1]. split; [lia|].
    destruct (contextTable t !! i) as [nv|]; [|done]. exists nv. split; [done|].
    by apply bool_decide_eq_true in H1.
  - intros n i Hn. apply elem_of_map_to_list, list_elem_of_In in Hn. specialize (H2 _ Hn).
    cbn [fst snd] in H2. rewrite !andb_true_iff in H2. destruct H2 as [[??] H2]. split; [lia|].
    destruct (contextTable t !! i) as [[n' v]|]; [|done]. exists v.
    apply bool_decide_eq_true in H2. simpl in H2. by subst.
Qed.

Lemma DirTable_new_ok : dir_ok DirTable_new.
Proof. apply dir_test_ok. vm_compute. reflexivity. Qed.

Lemma addHeader_dir_ok n v t : dir_ok t → dir_ok (addHeader_dir n v t).
Proof.
  intros Hok. pose proof Hok as [Hhnv Hhn Hsz]. unfold addHeader_dir.
  destruct (hnvIndexTable t !! (n ++ v)) eqn:E; [done|].
  split; cbn [hnvIndexTable hnIndexTable contextTable currentSize]; [| |lia].
  - intros s i Hs.
    assert (i = currentSize t + 1 ∧ s = n ++ v ∨ hnvIndexTable t !! s = Some i) as [[-> ->]|Hold].
    { case_bool_decide; [by right|]. destruct (decide (n ++ v = s)) as [<-|Hne].
      - rewrite lookup_insert_eq in Hs. injection Hs as <-. by left.
      - rewrite lookup_insert_ne in Hs by done. by right. }
    + split; [lia|]. exists (n, v). by rewrite lookup_insert_eq.
    + destruct (Hhnv _ _ Hold) as (? & nv & Hc & ?). split; [lia|]. exists nv.
      rewrite lookup_insert_ne by lia. done.
  - intros n' i Hn. destruct (Hhn _ _ Hn) as (? & v' & ?). split; [lia|]. exists v'.
    by rewrite lookup_insert_ne by lia.
Qed.

(** The header fields of a table, and a set of fields in which a name and a value
    are told apart by their concatenation: the key of the name/value index. *)
Definition entries (t : DirTable) : list (bytes * bytes) := (map_to_list (contextTable t)).*2.

Definition unambiguous (l : list (bytes * bytes)) : Prop :=
  ∀ p q, p ∈ l → q ∈ l → p.1 ++ p.2 = q.1 ++ q.2 → p = q.

Lemma elem_of_entries t nv : nv ∈ entries t ↔ ∃ i, contextTable t !! i = Some nv.
Proof.
  unfold entries. rewrite list_elem_of_fmap. split.
  - intros ([i nv'] & -> & Hin). apply elem_of_map_to_list in Hin. by exists i.
  - intros [i Hi]. exists (i, nv). split; [done|]. by apply elem_of_map_to_list.
Qed.

Lemma entries_addHeader n v t nv : nv ∈ entries (addHeader_dir n v t) → nv ∈ entries t ∨ nv = (n, v).
Proof.
  rewrite !elem_of_entries. unfold addHeader_dir. case_match; [by left|].
  intros [i Hi]. cbn [contextTable] in Hi. destruct (decide (currentSize t + 1 = i)) as [<-|].
  - rewrite lookup_insert_eq in Hi. injection Hi as <-. by right.
  - rewrite lookup_insert_ne in Hi by done. left. by exists i.
Qed.

Lemma addHeader_dir_size n v t : currentSize (addHeader_dir n v t) ≤ currentSize t + 1.
Proof. unfold addHeader_dir. case_match; simpl; lia. Qed.

(** ** Round trip of one field *)

(** The first byte of an index with the prefix [01]. *)
Lemma set_prefix_01 i :
  1 ≤ i < 63 → let st := set_prefix [false; true] i in
  Z.testbit st 7 = false ∧ Z.testbit st 6 = true ∧ (st =? 64) = false.
Proof.
  intros Hi st.
  pose proof (forall_bytes (λ i, implb ((1 <=? i) && (i <? 63))
    (let st := set_prefix [false; true] i in negb (Z.testbit st 7) && Z.testbit st 6 && negb (st =? 64)))
    eq_refl i ltac:(unfold byte_ok; lia)) as H.
  cbv beta in H. replace ((1 <=? i) && (i <? 63)) with true in H by lia. cbn [implb] in H.
  cbv zeta in H. fold st in H. rewrite !andb_true_iff, !negb_true_iff in H. tauto.
Qed.

(** Encoder and decoder agree: the response table of one is the request table of
    the other. *)
Definition synced (c d : Http2HPACKContext) : Prop :=
  reqTable (table d) = resTable (table c) ∧ dir_ok (resTable (table c)).

Lemma synced_addHeader c d n v :
  synced c d →
  synced (with_table (addHeader n v false (table c)) c) (with_table (addHeader n v true (table d)) d).
Proof.
  intros [E Hok]. split; cbn [with_table table addHeader reqTable resTable].
  - by rewrite E.
  - by apply addHeader_dir_ok.
Qed.

Definition field_ok (huff : bool) (nv : bytes * bytes) : Prop :=
  string_ok huff nv.1 ∧ string_ok huff nv.2.

#[export] Instance field_ok_dec huff nv : Decision (field_ok huff nv).
Proof. unfold field_ok, string_ok. apply _. Defined.

Lemma encode_header_indexed c d n v i :
  synced c d → unambiguous ((n, v) :: entries (resTable (table c))) →
  hnvIndexTable (resTable (table c)) !! (n ++ v) = Some i → currentSize (resTable (table c)) < 255 →
  ∃ e, encode_header c n v = Ret (e, c) ∧ 1 ≤ slen e ∧
    ∀ pre rest hs, decode_step (pre ++ e ++ rest) d hs (slen pre) = Ret (d, mset n v hs, slen pre + slen e).
Proof.
  intros [E Hok] Hun Hi Hsz. destruct (do_hnv _ Hok _ _ Hi) as (Hr & [n' v'] & Hc & Heq).
  assert ((n', v') = (n, v)) as Hnv.
  { apply Hun; [right; apply elem_of_entries; by exists i|by left|done]. }
  injection Hnv as -> ->. unfold encode_header, getIndexByNameAndValue. cbn [side]. rewrite Hi.
  replace (i =? -1) with false by lia. cbn [negb].
  assert (∀ pre rest hs, ∃ st e, encodeNumber i [true] = Ret (st :: e) ∧
    decode_step (pre ++ (st :: e) ++ rest) d hs (slen pre) = Ret (d, mset n v hs, slen pre + slen (st :: e))) as H0.
  { intros pre rest hs. destruct (decodeNumber_at [true] i pre rest) as (st & e & He & Hat & Hd & Hst).
    { cbn; lia. } { change (suffixMaxValue (Z.of_nat (length [true]))) with 127. lia. }
    exists st, e. split; [done|]. unfold decode_step. rewrite Hat. cbn [mbind outcome_bind].
    assert (Z.testbit st 7 = true) as -> by (destruct Hst as [[Hb ->]| ->]; by apply set_prefix_top).
    change (Z.of_nat (length [true])) with 1 in Hd. rewrite Hd. cbn [mbind outcome_bind].
    unfold getNameAndValueByIndex. cbn [side]. rewrite E, wraps_small, Hc by lia. done. }
  destruct (H0 [] [] []) as (st & e & He & _). rewrite He. cbn [mbind outcome_bind].
  eexists. split; [reflexivity|]. split; [rewrite slen_cons; pose proof (slen_nonneg e); lia|].
  intros pre rest hs. destruct (H0 pre rest hs) as (st' & e' & He' & Hd).
  rewrite He in He'. injection He' as <- <-. exact Hd.
Qed.

Lemma encode_header_named c d n v i :
  synced c d → field_ok (huffmanEncoding c) (n, v) →
  hnvIndexTable (resTable (table c)) !! (n ++ v) = None →
  hnIndexTable (resTable (table c)) !! n = Some i →
  ∃ e, encode_header c n v = Ret (e, with_table (addHeader n v false (table c)) c) ∧ 1 ≤ slen e ∧
    ∀ pre rest hs, decode_step (pre ++ e ++ rest) d hs (slen pre)
      = Ret (with_table (addHeader n v true (table d)) d, mset n v hs, slen pre + slen e).
Proof.
  intros [E Hok] [_ Hv] Hnone Hi. destruct (do_hn _ Hok _ _ Hi) as (Hr & v' & Hc).
  unfold encode_header, getIndexByNameAndValue, getIndexByName. cbn [side]. rewrite Hnone, Hi.
  replace (i =? -1) with false by lia. cbn [negb Z.eqb Pos.eqb].
  destruct (decodeString_encoded c v Hv) as (ev & Hev & Hlv & Hdv).
  rewrite encodeNumber_small by (change (suffixMaxValue (Z.of_nat (length [false; true]))) with 63; lia).
  rewrite wrapu_small by lia. cbn [mbind outcome_bind]. rewrite Hev. cbn [mbind outcome_bind].
  eexists. split; [reflexivity|]. split; [rewrite slen_app, slen_cons, slen_nil; lia|].
  intros pre rest hs. destruct (set_prefix_01 i ltac:(lia)) as (H7 & H6 & H64).
  destruct (decodeNumber_at [false; true] i pre (ev ++ rest)) as (st & e & He & Hat & Hd & _).
  { cbn; lia. } { change (suffixMaxValue (Z.of_nat (length [false; true]))) with 63. lia. }
  rewrite encodeNumber_small in He by (change (suffixMaxValue (Z.of_nat (length [false; true]))) with 63; lia).
  rewrite wrapu_small in He by lia. injection He as <- <-.
  change (Z.of_nat (length [false; true])) with 2 in Hd.
  set (st := set_prefix [false; true] i) in *.
  rewrite <- app_assoc. unfold decode_step. rewrite Hat. cbn [mbind outcome_bind]. rewrite H7, H6.
  unfold decode_literal. rewrite H64, Hd. cbn [mbind outcome_bind].
  unfold getNameByIndex. cbn [side]. rewrite E, wraps_small, Hc by lia.
  unfold mret, outcome_ret. cbn [mbind outcome_bind fst].
  pose proof (Hdv (pre ++ [st]) rest) as Hds. rewrite slen_app, <- app_assoc in Hds.
  rewrite Hds. cbn [mbind outcome_bind]. do 2 f_equal. rewrite slen_app. lia.
Qed.

Lemma encode_header_literal c d n v :
  field_ok (huffmanEncoding c) (n, v) →
  hnvIndexTable (resTable (table c)) !! (n ++ v) = None →
  hnIndexTable (resTable (table c)) !! n = None →
  ∃ e, encode_header c n v = Ret (e, with_table (addHeader n v false (table c)) c) ∧ 1 ≤ slen e ∧
    ∀ pre rest hs, decode_step (pre ++ e ++ rest) d hs (slen pre)
      = Ret (with_table (addHeader n v true (table d)) d, mset n v hs, slen pre + slen e).
Proof.
  intros [Hn Hv] Hnone Hi.
  unfold encode_header, getIndexByNameAndValue, getIndexByName. cbn [side]. rewrite Hnone, Hi.
  cbn [negb Z.eqb Pos.eqb].
  destruct (decodeString_encoded c n Hn) as (en & Hen & Hln & Hdn).
  destruct (decodeString_encoded c v Hv) as (ev & Hev & Hlv & Hdv).
  cbn [fst snd] in Hen, Hev. rewrite Hen. cbn [mbind outcome_bind]. rewrite Hev. cbn [mbind outcome_bind].
  eexists. split; [reflexivity|]. split; [rewrite !slen_app, slen_cons, slen_nil; lia|].
  intros pre rest hs. rewrite <- !app_assoc. unfold decode_step. cbn [app]. rewrite at_app_r, at_0 by done.
  cbn [mbind outcome_bind]. change (Z.testbit 64 7) with false. change (Z.testbit 64 6) with true.
  unfold decode_literal. change (64 =? 64) with true. cbv iota.
  pose proof (Hdn (pre ++ [64]) (ev ++ rest)) as Hds. rewrite slen_app, <- app_assoc in Hds. cbn [app] in Hds.
  change (slen [64]) with 1 in Hds. rewrite Hds. cbn [mbind outcome_bind].
  pose proof (Hdv (pre ++ 64 :: en) rest) as Hds2. rewrite slen_app, <- app_assoc, slen_cons in Hds2.
  cbn [app] in Hds2. replace (slen pre + (slen en + 1)) with (slen pre + 1 + slen en) in Hds2 by lia.
  rewrite Hds2. unfold mret, outcome_ret. cbn [mbind outcome_bind]. do 2 f_equal.
  rewrite slen_cons, slen_app. lia.
Qed.

(** ** Round trip of a header map *)

Lemma unambiguous_sub l1 l2 : (∀ p, p ∈ l1 → p ∈ l2) → unambiguous l2 → unambiguous l1.
Proof. intros Hsub H p q Hp Hq. apply H; auto. Qed.

Lemma encode_header_step c d n v hs :
  synced c d → field_ok (huffmanEncoding c) (n, v) →
  unambiguous (((n, v) :: hs) ++ entries (resTable (table c))) →
  currentSize (resTable (table c)) < 255 →
  ∃ e c' d', encode_header c n v = Ret (e, c') ∧ 1 ≤ slen e ∧ synced c' d' ∧
    huffmanEncoding c' = huffmanEncoding c ∧
    unambiguous (hs ++ entries (resTable (table c'))) ∧
    currentSize (resTable (table c')) ≤ currentSize (resTable (table c)) + 1 ∧
    ∀ pre rest acc, decode_step (pre ++ e ++ rest) d acc (slen pre) = Ret (d', mset n v acc, slen pre + slen e).
Proof.
  intros Hsync Hf Hun Hsz.
  assert (unambiguous ((n, v) :: entries (resTable (table c)))) as Hun1.
  { eapply unambiguous_sub; [|exact Hun]. intros p. rewrite elem_of_app, !elem_of_cons. tauto. }
  assert (unambiguous (hs ++ entries (resTable (table c)))) as Hun2.
  { eapply unambiguous_sub; [|exact Hun]. intros p. rewrite !elem_of_app, elem_of_cons. tauto. }
  assert (unambiguous (hs ++ entries (addHeader_dir n v (resTable (table c))))) as Hun3.
  { eapply unambiguous_sub; [|exact Hun]. intros p. rewrite !elem_of_app, elem_of_cons.
    intros [?|[?| ->]%entries_addHeader]; auto. }
  destruct (hnvIndexTable (resTable (table c)) !! (n ++ v)) as [i|] eqn:Hnv.
  - destruct (encode_header_indexed c d n v i Hsync Hun1 Hnv Hsz) as (e & He & Hl & Hd).
    exists e, c, d. repeat (split; [done|]). split; [lia|exact Hd].
  - assert (∃ e, encode_header c n v = Ret (e, with_table (addHeader n v false (table c)) c) ∧ 1 ≤ slen e ∧
      ∀ pre rest hs, decode_step (pre ++ e ++ rest) d hs (slen pre)
        = Ret (with_table (addHeader n v true (table d)) d, mset n v hs, slen pre + slen e)) as (e & He & Hl & Hd).
    { destruct (hnIndexTable (resTable (table c)) !! n) as [i|] eqn:Hn.
      - by eapply encode_header_named.
      - by apply encode_header_literal. }
    exists e, (with_table (addHeader n v false (table c)) c), (with_table (addHeader n v true (table d)) d).
    split; [done|]. split; [done|]. split; [by apply synced_addHeader|]. split; [done|]. split; [done|].
    split; [apply addHeader_dir_size|exact Hd].
Qed.

Lemma encode_decode_loop hs c d :
  synced c d → Forall (field_ok (huffmanEncoding c)) hs →
  unambiguous (hs ++ entries (resTable (table c))) →
  currentSize (resTable (table c)) + Z.of_nat (length hs) ≤ 255 →
  ∃ data c' d', encode c hs = Ret (data, c') ∧ synced c' d' ∧ Z.of_nat (length hs) ≤ slen data ∧
    ∀ pre acc fuel, (length hs < fuel)%nat →
      decode_loop fuel (pre ++ data) d acc (slen pre)
      = Ret (foldl (λ acc '(n, v), mset n v acc) acc hs, d').
Proof.
  revert c d. induction hs as [|[n v] hs IH]; intros c d Hsync Hf Hun Hsz.
  - exists [], c, d. split; [done|]. split; [done|]. split; [done|].
    intros pre acc [|fuel] Hfuel; [lia|]. cbn [decode_loop]. by rewrite app_nil_r, Z.ltb_irrefl.
  - apply Forall_cons in Hf as [Hnv Hf]. rewrite length_cons in Hsz.
    destruct (encode_header_step c d n v hs Hsync Hnv Hun ltac:(lia))
      as (e & c1 & d1 & He & Hl & Hs1 & Hh1 & Hun1 & Hsz1 & Hd).
    destruct (IH c1 d1 Hs1 ltac:(by rewrite Hh1) Hun1 ltac:(lia)) as (es & c2 & d2 & Hes & Hs2 & Hl2 & Hd2).
    exists (e ++ es), c2, d2. cbn [encode]. rewrite He. cbn [mbind outcome_bind].
    rewrite Hes. cbn [mbind outcome_bind]. split; [done|]. split; [done|].
    split; [rewrite slen_app, length_cons; lia|].
    intros pre acc [|fuel] Hfuel; [lia|]. cbn [decode_loop].
    rewrite !slen_app. pose proof (slen_nonneg es).
    replace (slen pre <? slen pre + (slen e + slen es)) with true by lia.
    rewrite Hd. cbn [mbind outcome_bind]. rewrite app_assoc, <- slen_app.
    rewrite Hd2 by (simpl in Hfuel; lia). done.
Qed.

(** Encoder and decoder with tables that agree. *)
Lemma encode_decode c d hs :
  synced c d → sorted hs → Forall (field_ok (huffmanEncoding c)) hs →
  unambiguous (hs ++ entries (resTable (table c))) →
  currentSize (resTable (table c)) + Z.of_nat (length hs) ≤ 255 →
  ∃ data c' d', encode c hs = Ret (data, c') ∧ decode d data = Ret (hs, d') ∧ synced c' d'.
Proof.
  intros Hsync Hs Hf Hun Hsz.
  destruct (encode_decode_loop hs c d Hsync Hf Hun Hsz) as (data & c' & d' & He & Hs' & Hl & Hd).
  exists data, c', d'. split; [done|]. split; [|done].
  unfold decode. specialize (Hd [] [] (S (length data))). cbn [app] in Hd.
  rewrite slen_nil in Hd. rewrite Hd by (unfold slen in Hl; lia).
  by rewrite foldl_mset_sorted.
Qed.

(** C1: header compression.  When the request table of a decoder mirrors the
    response table of an encoder, decoding what the encoder wrote for a header map
    gives the map back, and the tables mirror each other again, so that the next
    block can be decoded.  Names and values must be short strings the Huffman coder
    can invert, no two fields may share the concatenation of name and value, and
    the indices must stay below 255. *)
Theorem hpack_roundtrip c d hs :
  synced c d → sorted hs → Forall (field_ok (huffmanEncoding c)) hs →
  unambiguous (hs ++ entries (resTable (table c))) →
  currentSize (resTable (table c)) + Z.of_nat (length hs) ≤ 255 →
  ∃ data c' d', encode c hs = Ret (data, c') ∧ decode d data = Ret (hs, d') ∧ synced c' d'.
Proof. apply encode_decode. Qed.

(** The hypotheses as tests, for concrete header maps. *)
Definition unambiguous_test (l : list (bytes * bytes)) : bool :=
  forallb (λ p, forallb (λ q, implb (bool_decide (p.1 ++ p.2 = q.1 ++ q.2)) (bool_decide (p = q))) l) l.

Lemma unambiguous_test_ok l : unambiguous_test l = true → unambiguous l.
Proof.
  unfold unambiguous_test. intros H p q Hp Hq E. rewrite forallb_forall in H.
  apply list_elem_of_In in Hp, Hq. specialize (H p Hp). rewrite forallb_forall in H. specialize (H q Hq).
  rewrite bool_decide_eq_true_2 in H by done. by apply bool_decide_eq_true in H.
Qed.

Definition sample_response : headers :=
  [(str ":status", str "200"); (str "content-length", str "1024");
   (str "content-type", str "text/html"); (str "x-request-id", str "a7f3-99")].

Lemma synced_new : synced Http2HPACKContext_new Http2HPACKContext_new.
Proof. split; [reflexivity|apply DirTable_new_ok]. Defined.

Example hpack_roundtrip_witness :
  ∃ data c' d', encode Http2HPACKContext_new sample_response = Ret (data, c') ∧
    decode Http2HPACKContext_new data = Ret (sample_response, d') ∧ synced c' d'.
Proof.
  apply (hpack_roundtrip Http2HPACKContext_new Http2HPACKContext_new sample_response).
  - apply synced_new.
  - repeat split; repeat constructor.
  - apply (bool_decide_eq_true_1 _). vm_compute. reflexivity.
  - apply unambiguous_test_ok. vm_compute. reflexivity.
  - vm_compute. congruence.
Defined.

(** The condition on concatenations is needed.  The name/value index is keyed
    by the concatenation of name and value, so a second field with the same
    concatenation is encoded as a reference to the first: it is lost. *)
Theorem hpack_concatenation_collision :
  let hs := [(str "x-a", str "bcd"); (str "x-ab", str "cd")] in
  sorted hs ∧
  (r ← encode Http2HPACKContext_new hs; r ← decode Http2HPACKContext_new r.1; mret r.1)
  = Ret [(str "x-a", str "bcd")].
Proof. split; [repeat constructor|vm_compute; reflexivity]. Qed.

(** A field representation the decoder does not know (a dynamic table size
    update, or a never-indexed literal with a new name or an index below eight)
    does not advance the index: decoding the block never ends, whatever its
    other bytes and whatever the budget. *)
Theorem decode_unknown_representation_diverges st rest c hs fuel :
  16 ≤ st < 64 → Z.testbit st 3 = false →
  decode_loop fuel (st :: rest) c hs 0 = Out_of_fuel.
Proof.
  intros Hst H3. assert (Z.testbit st 7 = false ∧ Z.testbit st 6 = false) as [H7 H6].
  { pose proof (forall_bytes (λ b, implb (b <? 64) (negb (Z.testbit b 7) && negb (Z.testbit b 6))) eq_refl st
      ltac:(unfold byte_ok; lia)) as H. cbv beta in H. replace (st <? 64) with true in H by lia.
    cbn [implb] in H. rewrite andb_true_iff, !negb_true_iff in H. done. }
  assert (decode_step (st :: rest) c hs 0 = Ret (c, hs, 0)) as Hstep.
  { unfold decode_step. rewrite at_0. cbn [mbind outcome_bind]. rewrite H7, H6, H3.
    by replace (st <=? 15) with false by lia. }
  induction fuel as [|fuel IH]; [done|]. cbn [decode_loop].
  rewrite slen_cons. pose proof (slen_nonneg rest). replace (0 <? slen rest + 1) with true by lia.
  rewrite Hstep. cbn [mbind outcome_bind]. exact IH.
Qed.

Example decode_unknown_representation_diverges_witness :
  decode Http2HPACKContext_new [16; 131; 1; 2; 3] = Out_of_fuel.
Proof.
  apply (decode_unknown_representation_diverges 16 [131; 1; 2; 3] Http2HPACKContext_new [] 6);
    [lia | reflexivity].
Defined.
