(* ===== verification/Http2Stream.v ===== *)
(** * Http2Stream

    One HTTP/2 stream: the state machine of [Http2StreamHandler.cpp] with the
    services of the connection it uses ([Http2ReadWriteUtil], implemented by
    [Http2Handler]).  [handle] is the transition function of the machine on
    frames; what it writes to the peer is appended to the connection's output.

    Requests are used through the class [HttpRequestOps]; a request pointer that
    may be null is an [option], and dereferencing null is undefined behaviour. *)

From S2P Require Import Prelude ByteCodec StdMap Http2Frames Http2Wire HpackNumber Huffman Hpack.

(** ** Interfaces *)

(** The operations of [HttpRequest] that the HTTP/2 code calls. *)
Class HttpRequestOps (Req : Type) := {
  req_new : bytes → Req;                           (* HttpRequest(webpath) *)
  setHttp2Headers : headers → Req → outcome Req;
  req_hasHeader : bytes → Req → bool;
  req_getHeader : bytes → Req → bytes;
  appendContent : bytes → Req → Req;               (* request->content += data *)
  getUrl : Req → bytes
}.

(** ** Data *)

Inductive StreamState := Idle | Reserved_L | Reserved_R | Open | Half_Closed_L | Half_Closed_R | Closed.
#[export] Instance StreamState_eq_dec : EqDecision StreamState.
Proof. solve_decision. Defined.

(** [Http2RequestResponseData]; [incompleteResponse] is a response or null. *)
Record Http2RequestResponseData (Res : Type) := mkRRData {
  rr_preHeaders : headers;
  rr_postHeaders : headers;
  rr_data : bytes;
  rr_url : bytes;
  rr_isWebSocket : bool;
  rr_incompleteResponse : option Res;
  rr_headerBlock : bytes;
  rr_streamIdentifier : Z;
  rr_endStream : bool
}.
Arguments mkRRData {Res}.
Arguments rr_preHeaders {Res}.
Arguments rr_postHeaders {Res}.
Arguments rr_data {Res}.
Arguments rr_url {Res}.
Arguments rr_isWebSocket {Res}.
Arguments rr_incompleteResponse {Res}.
Arguments rr_headerBlock {Res}.
Arguments rr_streamIdentifier {Res}.
Arguments rr_endStream {Res}.

Definition Http2RequestResponseData_default {Res} : Http2RequestResponseData Res :=
  mkRRData [] [] [] [] false None [] (-1) false.

(** [Http2RequestResponseData::reset]. *)
Definition rr_reset {Res} (d : Http2RequestResponseData Res) : Http2RequestResponseData Res :=
  mkRRData [] (rr_postHeaders d) [] (rr_url d) (rr_isWebSocket d) None [] (rr_streamIdentifier d) false.

(** The object handed to the server through [requestObj]. *)
Inductive RequestObj (Req : Type) :=
| HttpObj (r : Req)
| WsObj.            (* the stream's WebSocketData, which nothing fills *)
Arguments HttpObj {Req} r.
Arguments WsObj {Req}.

Section stream.
Context {Req Res : Type} `{!HttpRequestOps Req}.
(** [CommonUtils::getMimeType], a lookup in a table read from a resource file. *)
Variable getMimeType : bytes → bytes.

Record Http2StreamHandler := mkStream {
  s_state : StreamState;
  s_streamIdentifier : Z;
  s_request : option Req;
  s_headerBlockFragment : bytes;
  s_endofstream : bool;
  s_endofsegment : bool;
  s_pendingSendData : Http2RequestResponseData Res;
  s_lastFrameType : Z;
  s_isWebSocket : bool;
  s_senderFlowControlWindow : Z;
  s_receiverFlowControlWindow : Z
}.

(** The part of the connection a stream uses: the fields of [Http2Handler]
    other than its streams, the read buffer and the output written by
    [writeInitData]. *)
Record Connection := mkConn {
  c_highestPushPromiseStreamIdentifier : Z;
  c_context : Http2HPACKContext;
  c_relatedEntitiesForPP : gmap bytes (list bytes);
  c_senderFlowControlWindow : Z;
  c_receiverFlowControlWindow : Z;
  c_frameAcks : gmap Z bool;
  c_settings : list (Z * Z);
  c_precedingstreamId : Z;
  c_isConnInit : bool;
  c_maxDataFrameSize : Z;
  c_webpath : bytes;
  c_updateRxFCWS : option Z;
  c_pushPromisedRequestQ : list (Http2RequestResponseData Res);
  c_out : bytes
}.

(** Member assignments. *)
Definition s_set (st : StreamState) (req : option Req) (frag : bytes) (eos eoseg : bool)
    (s : Http2StreamHandler) : Http2StreamHandler :=
  mkStream st (s_streamIdentifier s) req frag eos eoseg (s_pendingSendData s) (s_lastFrameType s)
    (s_isWebSocket s) (s_senderFlowControlWindow s) (s_receiverFlowControlWindow s).
Definition s_set_state (st : StreamState) (s : Http2StreamHandler) :=
  s_set st (s_request s) (s_headerBlockFragment s) (s_endofstream s) (s_endofsegment s) s.
Definition s_set_request (r : option Req) (s : Http2StreamHandler) :=
  s_set (s_state s) r (s_headerBlockFragment s) (s_endofstream s) (s_endofsegment s) s.
Definition s_append_fragment (f : bytes) (s : Http2StreamHandler) :=
  s_set (s_state s) (s_request s) (s_headerBlockFragment s ++ f) (s_endofstream s) (s_endofsegment s) s.
Definition s_set_end (eos eoseg : bool) (s : Http2StreamHandler) :=
  s_set (s_state s) (s_request s) (s_headerBlockFragment s) eos eoseg s.
Definition s_set_lastFrameType (t : Z) (s : Http2StreamHandler) : Http2StreamHandler :=
  mkStream (s_state s) (s_streamIdentifier s) (s_request s) (s_headerBlockFragment s) (s_endofstream s)
    (s_endofsegment s) (s_pendingSendData s) t (s_isWebSocket s) (s_senderFlowControlWindow s)
    (s_receiverFlowControlWindow s).
Definition s_set_isWebSocket (b : bool) (s : Http2StreamHandler) : Http2StreamHandler :=
  mkStream (s_state s) (s_streamIdentifier s) (s_request s) (s_headerBlockFragment s) (s_endofstream s)
    (s_endofsegment s) (s_pendingSendData s) (s_lastFrameType s) b (s_senderFlowControlWindow s)
    (s_receiverFlowControlWindow s).
Definition s_set_windows (snd rcv : Z) (s : Http2StreamHandler) : Http2StreamHandler :=
  mkStream (s_state s) (s_streamIdentifier s) (s_request s) (s_headerBlockFragment s) (s_endofstream s)
    (s_endofsegment s) (s_pendingSendData s) (s_lastFrameType s) (s_isWebSocket s) snd rcv.
Definition s_set_pending (d : Http2RequestResponseData Res) (s : Http2StreamHandler) : Http2StreamHandler :=
  mkStream (s_state s) (s_streamIdentifier s) (s_request s) (s_headerBlockFragment s) (s_endofstream s)
    (s_endofsegment s) d (s_lastFrameType s) (s_isWebSocket s) (s_senderFlowControlWindow s)
    (s_receiverFlowControlWindow s).

Definition c_set (ctx : Http2HPACKContext) (acks : gmap Z bool) (settings : list (Z * Z)) (snd max : Z)
    (out : bytes) (c : Connection) : Connection :=
  mkConn (c_highestPushPromiseStreamIdentifier c) ctx (c_relatedEntitiesForPP c) snd
    (c_receiverFlowControlWindow c) acks settings (c_precedingstreamId c) (c_isConnInit c) max
    (c_webpath c) (c_updateRxFCWS c) (c_pushPromisedRequestQ c) out.
Definition c_set_context (ctx : Http2HPACKContext) (c : Connection) :=
  c_set ctx (c_frameAcks c) (c_settings c) (c_senderFlowControlWindow c) (c_maxDataFrameSize c) (c_out c) c.
Definition c_set_frameAcks (acks : gmap Z bool) (c : Connection) :=
  c_set (c_context c) acks (c_settings c) (c_senderFlowControlWindow c) (c_maxDataFrameSize c) (c_out c) c.
Definition c_set_settings (m : list (Z * Z)) (c : Connection) :=
  c_set (c_context c) (c_frameAcks c) m (c_senderFlowControlWindow c) (c_maxDataFrameSize c) (c_out c) c.
Definition c_set_sender (w : Z) (c : Connection) :=
  c_set (c_context c) (c_frameAcks c) (c_settings c) w (c_maxDataFrameSize c) (c_out c) c.
(** [Http2Handler::updateMaxFrameSize]. *)
Definition updateMaxFrameSize (val : Z) (c : Connection) :=
  c_set (c_context c) (c_frameAcks c) (c_settings c) (c_senderFlowControlWindow c) val (c_out c) c.
Definition c_write (d : bytes) (c : Connection) :=
  c_set (c_context c) (c_frameAcks c) (c_settings c) (c_senderFlowControlWindow c) (c_maxDataFrameSize c)
    (c_out c ++ d) c.
Definition c_push (next : Z) (q : list (Http2RequestResponseData Res)) (c : Connection) : Connection :=
  mkConn next (c_context c) (c_relatedEntitiesForPP c) (c_senderFlowControlWindow c)
    (c_receiverFlowControlWindow c) (c_frameAcks c) (c_settings c) (c_precedingstreamId c) (c_isConnInit c)
    (c_maxDataFrameSize c) (c_webpath c) (c_updateRxFCWS c) q (c_out c).

(** ** Services of the connection *)

(** [Http2Handler::writeInitData]. *)
Definition writeInitData (fr : Http2Frame) (c : Connection) : outcome Connection :=
  '(s, _) ← serialize fr; mret (c_write s c).

(** [Http2Handler::updateSenderWindowSize]. *)
Definition updateSenderWindowSize (windowSize : Z) (c : Connection) : outcome Connection :=
  w ← checked_int (c_senderFlowControlWindow c + windowSize); mret (c_set_sender w c).

(** [Http2Handler::getHighestPushPromiseStreamIdentifier]. *)
Definition getHighestPushPromiseStreamIdentifier (c : Connection) : outcome (Z * Connection) :=
  let val := c_highestPushPromiseStreamIdentifier c in
  n ← checked_int (val + 2);
  mret (val, c_push n (c_pushPromisedRequestQ c) c).

(** [Http2Handler::addPushPromisedRequestToQ]. *)
Definition addPushPromisedRequestToQ (d : Http2RequestResponseData Res) (c : Connection) : Connection :=
  c_push (c_highestPushPromiseStreamIdentifier c) (c_pushPromisedRequestQ c ++ [d]) c.

(** [Http2Handler::getRelatedEntitiesForPP]. *)
Definition getRelatedEntitiesForPP (request : bytes) (c : Connection) : list bytes :=
  match c_relatedEntitiesForPP c !! request with Some ents => ents | None => [] end.

(** ** The stream *)

(** The GOAWAY frame of [closeConnection]. *)
Definition closing_frame : Http2Frame :=
  GoAwayFrame (mkGoAway (gf_header Http2GoAwayFrame_default) false 0 1 []).
Definition closeConnection (c : Connection) : outcome Connection := writeInitData closing_frame c.

(** The result of [handle]: whether the connection must be closed, the request
    to serve if there is one, the stream and the connection. *)
Record handled := mkHandled {
  h_closed : bool;
  h_request : option (RequestObj Req);
  h_stream : Http2StreamHandler;
  h_conn : Connection
}.

(** [closeConnection(...); return true;] *)
Definition refuse (s : Http2StreamHandler) (c : Connection) : outcome handled :=
  c ← closeConnection c; mret (mkHandled true None s c).

(** The end of [handle]: [lastFrameType = frame->getHeader().type; return false;] *)
Definition finish (t : Z) (obj : option (RequestObj Req)) (s : Http2StreamHandler) (c : Connection)
    : outcome handled :=
  mret (mkHandled false obj (s_set_lastFrameType t s) c).

Definition deref (s : Http2StreamHandler) : outcome Req :=
  match s_request s with Some r => mret r | None => Undefined end.

Definition isWebSocketRequest (r : Req) : bool :=
  req_hasHeader (str ":path") r && req_hasHeader (str ":authority") r && req_hasHeader (str ":scheme") r
  && req_hasHeader (str "websocket-version") r && req_hasHeader (str "websocket-origin") r.

(** The pointer returned may be null. *)
Definition getRequestAndReInit (s : Http2StreamHandler) : option (RequestObj Req) * Http2StreamHandler :=
  (HttpObj <$> s_request s, s_set (s_state s) None [] false (s_endofsegment s) s).

Definition getWsRequestAndReInit (s : Http2StreamHandler) : option (RequestObj Req) * Http2StreamHandler :=
  (Some WsObj, s_set (s_state s) (s_request s) [] (s_endofstream s) false s).

(** [request->setHttp2Headers(context->decode(block))]. *)
Definition set_request_headers (block : bytes) (s : Http2StreamHandler) (c : Connection)
    : outcome (Http2StreamHandler * Connection) :=
  '(hs, ctx) ← decode (c_context c) block;
  r ← deref s;
  r ← setHttp2Headers hs r;
  mret (s_set_request (Some r) s, c_set_context ctx c).

(** [handleWebSocketRequest]: the request of a stream that becomes a websocket,
    or the null pointer. *)
Definition handleWebSocketRequest (streamIdentifier : Z) (s : Http2StreamHandler) (c : Connection)
    : outcome (option (RequestObj Req) * Http2StreamHandler * Connection) :=
  if mmem SETTINGS_WEBSOCKET_CAPABLE (c_settings c) then
    r ← deref s;
    if isWebSocketRequest r then
      '(block, ctx) ← encode (c_context c) [(str ":status", str "101"); (str "sec-websocket-protocol", str "13")];
      let h := set_flag 2 (with_streamIdentifier streamIdentifier (hf_header Http2HeadersFrame_default)) in
      let hframe := mkHeaders h 0 (Some false) (Some 0) (Some 0) block [] in
      c ← writeInitData (HeadersFrame hframe) (c_set_context ctx c);
      let '(obj, s) := getRequestAndReInit (s_set_isWebSocket true s) in
      mret (obj, s, c)
    else mret (None, s, c)
  else mret (None, s, c).

(** [s.substr(s.find(".")+1)]; [npos + 1] is zero. *)
Definition after_dot (s : bytes) : bytes :=
  match list_find (λ b, b = 46) s with Some (i, _) => drop (S i) s | None => s end.

(** One round of the loop of [sendPushPromiseFrames]. *)
Definition push_entity (streamIdentifier : Z) (host ent : bytes) (c : Connection) : outcome Connection :=
  let hs := mset (str "accept") (getMimeType (after_dot ent))
              (mset (str "host") host (mset (str ":path") ent (mset (str ":method") (str "GET") []))) in
  '(block, ctx) ← encode (c_context c) hs;
  '(promised, c) ← getHighestPushPromiseStreamIdentifier (c_set_context ctx c);
  let h := with_streamIdentifier streamIdentifier (set_flag 2 (ppf_header Http2PushPromiseFrame_default)) in
  c ← writeInitData (PushPromiseFrame (mkPushPromise h 0 false promised block [] hs)) c;
  mret (addPushPromisedRequestToQ
          (mkRRData hs [] [] [] false None [] (-1) false) c).

Fixpoint push_entities (streamIdentifier : Z) (host : bytes) (ents : list bytes) (c : Connection)
    : outcome Connection :=
  match ents with
  | [] => mret c
  | ent :: ents => c ← push_entity streamIdentifier host ent c; push_entities streamIdentifier host ents c
  end.

Definition sendPushPromiseFrames (streamIdentifier : Z) (s : Http2StreamHandler) (c : Connection)
    : outcome Connection :=
  if negb (s_isWebSocket s)
     && (negb (mmem SETTINGS_ENABLE_PUSH (c_settings c))
         || bool_decide (mfind SETTINGS_ENABLE_PUSH (c_settings c) ≠ Some 0))
  then
    r ← deref s;
    push_entities streamIdentifier (req_getHeader (str "host") r)
      (getRelatedEntitiesForPP (req_getHeader (str ":path") r) c) c
  else mret c.

(** [state = Half_Closed_R; sendPushPromiseFrames(...); requestObj = getRequestAndReInit();] *)
Definition dispatch (streamIdentifier : Z) (s : Http2StreamHandler) (c : Connection)
    : outcome (option (RequestObj Req) * Http2StreamHandler * Connection) :=
  let s := s_set_state Half_Closed_R s in
  c ← sendPushPromiseFrames streamIdentifier s c;
  let '(obj, s) := getRequestAndReInit s in
  mret (obj, s, c).

(** The header block of a websocket message must have an [:opcode]. *)
Definition ws_header_block (block : bytes) (c : Connection) : outcome (bool * Connection) :=
  '(hs, ctx) ← decode (c_context c) block;
  mret (mmem (str ":opcode") hs, c_set_context ctx c).

(** ** [handle], one branch per frame type *)

(** The second half of the HEADERS branch, after the header block. *)
Definition headers_end (h : Http2FrameHeader) (s : Http2StreamHandler) (c : Connection) : outcome handled :=
  let s := s_set_end (isEndOfStream h || s_endofstream s) (isWsEndSegment h || s_endofsegment s) s in
  if negb (s_isWebSocket s) && isEndHeaders h && s_endofstream s then
    '(obj, s, c) ← dispatch (streamIdentifier h) s c;
    finish 1 obj s c
  else finish 1 None s c.

Definition handle_headers (f : Http2HeadersFrame) (s : Http2StreamHandler) (c : Connection) : outcome handled :=
  let h := hf_header f in
  let id := streamIdentifier h in
  if bool_decide (s_state s = Idle) || bool_decide (s_state s = Open) then
    let s := s_set_state Open s in
    if negb (s_isWebSocket s) && isEndHeaders h then
      '(s, c) ← set_request_headers (hf_headerBlockFragment f) s c;
      '(ws, s, c) ← handleWebSocketRequest id s c;
      match ws with
      | Some obj => mret (mkHandled false (Some obj) s c)
      | None => headers_end h s c
      end
    else if isEndHeaders h then
      '(ok, c) ← ws_header_block (hf_headerBlockFragment f) c;
      if (ok : bool) then headers_end h s c else refuse s c
    else headers_end h (s_append_fragment (hf_headerBlockFragment f) s) c
  else refuse s c.

Definition handle_continuation (f : Http2ContinuationFrame) (precedingStreamId : Z)
    (s : Http2StreamHandler) (c : Connection) : outcome handled :=
  let h := cf_header f in
  let id := streamIdentifier h in
  if bool_decide (s_state s = Open) && (precedingStreamId =? id)
     && ((s_lastFrameType s =? 1) || (s_lastFrameType s =? 5) || (s_lastFrameType s =? 9)) then
    if negb (s_isWebSocket s) && isEndHeaders h then
      let s := s_append_fragment (cf_headerBlockFragment f) s in
      '(s, c) ← set_request_headers (s_headerBlockFragment s) s c;
      '(ws, s, c) ← handleWebSocketRequest id s c;
      match ws with
      | Some obj => mret (mkHandled false (Some obj) s c)
      | None =>
          if s_endofstream s then
            '(obj, s, c) ← dispatch id s c;
            finish 9 obj s c
          else finish 9 None s c
      end
    else if isEndHeaders h then
      '(ok, c) ← ws_header_block (cf_headerBlockFragment f) c;
      if (ok : bool) then finish 9 None s c else refuse s c
    else finish 9 None (s_append_fragment (cf_headerBlockFragment f) s) c
  else refuse s c.

(** An acknowledgement is accepted when one is outstanding. *)
Definition take_ack (t : Z) (s : Http2StreamHandler) (c : Connection) : outcome handled :=
  match c_frameAcks c !! t with
  | Some true => finish t None s (c_set_frameAcks (delete t (c_frameAcks c)) c)
  | _ => refuse s c
  end.

Definition handle_settings (f : Http2SettingsFrame) (s : Http2StreamHandler) (c : Connection) : outcome handled :=
  if s_streamIdentifier s =? 0 then
    let c := c_set_settings (minsert_all (sf_settings f) (c_settings c)) c in
    if negb (Z.testbit (flags (sf_header f)) 0) then
      c ← writeInitData (SettingsFrame (mkSettings (set_flag 0 (sf_header Http2SettingsFrame_default)) [])) c;
      finish 4 None s
        (match mfind SETTINGS_MAX_FRAME_SIZE (c_settings c) with
         | Some v => updateMaxFrameSize v c
         | None => c
         end)
    else take_ack 4 s c
  else refuse s c.

Definition handle_ping (f : Http2PingFrame) (s : Http2StreamHandler) (c : Connection) : outcome handled :=
  if s_streamIdentifier s =? 0 then
    if negb (Z.testbit (flags (pgf_header f)) 0) then
      c ← writeInitData (PingFrame (mkPing (set_flag 0 (pgf_header Http2PingFrame_default)) (pgf_opaqueData f))) c;
      finish 6 None s c
    else take_ack 6 s c
  else refuse s c.

Definition handle_window_update (f : Http2WindowUpdateFrame) (s : Http2StreamHandler) (c : Connection)
    : outcome handled :=
  if 0 <=? s_streamIdentifier s then
    if s_streamIdentifier s =? 0 then
      c ← updateSenderWindowSize (wf_windowSizeIncrement f) c;
      finish 8 None s c
    else
      w ← checked_int (s_senderFlowControlWindow s + wf_windowSizeIncrement f);
      finish 8 None (s_set_windows w (s_receiverFlowControlWindow s) s) c
  else refuse s c.

Definition handle_altsvc (s : Http2StreamHandler) (c : Connection) : outcome handled :=
  if 0 <=? s_streamIdentifier s then finish 10 None s c else refuse s c.

(** The window update sent when the receive window is used up. *)
Definition replenish (payloadLength id : Z) (s : Http2StreamHandler) (c : Connection) : outcome Connection :=
  if s_receiverFlowControlWindow s <=? payloadLength then
    inc ← checked_int (65535 + payloadLength);
    writeInitData (WindowUpdateFrame
      (mkWindowUpdate (with_streamIdentifier id (wf_header Http2WindowUpdateFrame_default)) false inc)) c
  else mret c.

Definition handle_data (f : Http2DataFrame) (s : Http2StreamHandler) (c : Connection) : outcome handled :=
  let h := df_header f in
  c ← replenish (payloadLength h) (streamIdentifier h) s c;
  w ← checked_int (s_receiverFlowControlWindow s - payloadLength h);
  let s := s_set_windows (s_senderFlowControlWindow s) w s in
  if bool_decide (s_state s = Open) || bool_decide (s_state s = Half_Closed_L) then
    if negb (s_isWebSocket s) && isEndOfStream h then
      r ← deref s;
      let s := s_set_state Half_Closed_R (s_set_request (Some (appendContent (df_data f) r)) s) in
      let '(obj, s) := getRequestAndReInit s in
      finish 0 obj s c
    else if isEndOfStream h then finish 0 None s c
    else if s_isWebSocket s && isWsEndSegment h then
      let '(obj, s) := getWsRequestAndReInit s in
      finish 0 obj s c
    else if negb (s_isWebSocket s) then
      r ← deref s;
      finish 0 None (s_set_request (Some (appendContent (df_data f) r)) s) c
    else finish 0 None s c
  else refuse s c.

Definition handle_reset (f : Http2ResetStreamFrame) (s : Http2StreamHandler) (c : Connection) : outcome handled :=
  if negb (s_lastFrameType s =? 9) && negb (streamIdentifier (rf_header f) =? 0)
  then finish 3 None (s_set_state Closed s) c
  else refuse s c.

(** [Http2StreamHandler::handle].  The class of a frame and the type byte of its
    header are set together by the constructors, so the tests on the type are
    the match on the class; the last three are below [else if(state!=Idle)]. *)
Definition handle (fr : Http2Frame) (precedingStreamId : Z) (s : Http2StreamHandler) (c : Connection)
    : outcome handled :=
  match fr with
  | HeadersFrame f => handle_headers f s c
  | ContinuationFrame f => handle_continuation f precedingStreamId s c
  | PushPromiseFrame _ => refuse s c
  | SettingsFrame f => handle_settings f s c
  | PingFrame f => handle_ping f s c
  | GoAwayFrame _ => refuse s c
  | WindowUpdateFrame f => handle_window_update f s c
  | AlternativeServicesFrame _ => handle_altsvc s c
  | DataFrame f => if bool_decide (s_state s = Idle) then refuse s c else handle_data f s c
  | ResetStreamFrame f => if bool_decide (s_state s = Idle) then refuse s c else handle_reset f s c
  | PriorityFrame _ => if bool_decide (s_state s = Idle) then refuse s c else finish 2 None s c
  end.

(** Frames of one stream, one after the other: the output of each is the input
    of the next, until one closes the connection. *)
Fixpoint handle_run (frs : list Http2Frame) (precedingStreamId : Z) (s : Http2StreamHandler) (c : Connection)
    : outcome handled :=
  match frs with
  | [] => mret (mkHandled false None s c)
  | fr :: frs' =>
      r ← handle fr precedingStreamId s c;
      match frs' with
      | [] => mret r
      | _ => if h_closed r then mret r
             else handle_run frs' (streamIdentifier (getHeader fr)) (h_stream r) (h_conn r)
      end
  end.

(** ** What is written is only ever appended *)

Definition extends (c c' : Connection) : Prop := ∃ d, c_out c' = c_out c ++ d.
Lemma extends_refl c : extends c c.
Proof. exists []. by rewrite app_nil_r. Qed.
Lemma extends_same c c' : c_out c' = c_out c → extends c c'.
Proof. intros E. exists []. by rewrite app_nil_r. Qed.
Lemma extends_trans c1 c2 c3 : extends c1 c2 → extends c2 c3 → extends c1 c3.
Proof. intros [d Hd] [e He]. exists (d ++ e). by rewrite He, Hd, app_assoc. Qed.

Lemma writeInitData_extends fr c c' : writeInitData fr c = Ret c' → extends c c'.
Proof.
  unfold writeInitData. intros ([d f] & _ & H)%bind_Ret_inv. injection H as <-. by exists d.
Qed.

Lemma push_entity_extends id host ent c c' : push_entity id host ent c = Ret c' → extends c c'.
Proof.
  unfold push_entity, getHighestPushPromiseStreamIdentifier.
  intros ([block ctx] & _ & H)%bind_Ret_inv.
  apply bind_Ret_inv in H as ([val c1] & Hc1 & H). apply bind_Ret_inv in Hc1 as (n & _ & Hc1).
  injection Hc1 as _ <-. apply bind_Ret_inv in H as (c2 & Hw & H). injection H as <-.
  destruct (writeInitData_extends _ _ _ Hw) as [d Hd]. by exists d.
Qed.

Lemma push_entities_extends id host ents c c' : push_entities id host ents c = Ret c' → extends c c'.
Proof.
  revert c. induction ents as [|ent ents IH]; intros c; cbn [push_entities].
  - intros [= <-]. apply extends_refl.
  - intros (c1 & H1 & H2)%bind_Ret_inv.
    eapply extends_trans; [by eapply push_entity_extends|by apply IH].
Qed.

Lemma dispatch_extends id s c obj s' c' : dispatch id s c = Ret (obj, s', c') → extends c c'.
Proof.
  unfold dispatch, sendPushPromiseFrames. intros (c1 & H1 & H2)%bind_Ret_inv.
  cbn in H2. injection H2 as _ _ <-. case_match; [|injection H1 as <-; apply extends_refl].
  apply bind_Ret_inv in H1 as (r & _ & H1). by eapply push_entities_extends.
Qed.

Lemma set_request_headers_extends block s c s' c' :
  set_request_headers block s c = Ret (s', c') → extends c c'.
Proof.
  unfold set_request_headers. intros ([hs ctx] & _ & H)%bind_Ret_inv.
  apply bind_Ret_inv in H as (r & _ & H). apply bind_Ret_inv in H as (r' & _ & H).
  injection H as _ <-. by apply extends_same.
Qed.

Lemma ws_header_block_extends block c ok c' : ws_header_block block c = Ret (ok, c') → extends c c'.
Proof.
  unfold ws_header_block. intros ([hs ctx] & _ & [= _ <-])%bind_Ret_inv. by apply extends_same.
Qed.

Lemma handleWebSocketRequest_extends id s c ws s' c' :
  handleWebSocketRequest id s c = Ret (ws, s', c') → extends c c'.
Proof.
  unfold handleWebSocketRequest. intros H. case_match; [|injection H as _ _ <-; apply extends_refl].
  apply bind_Ret_inv in H as (r & _ & H). case_match; [|injection H as _ _ <-; apply extends_refl].
  apply bind_Ret_inv in H as ([block ctx] & _ & H). apply bind_Ret_inv in H as (c1 & Hw & H).
  cbn in H. injection H as _ _ <-. by destruct (writeInitData_extends _ _ _ Hw) as [d Hd]; exists d.
Qed.

Lemma replenish_extends n id s c c' : replenish n id s c = Ret c' → extends c c'.
Proof.
  unfold replenish. intros H. case_match; [|injection H as <-; apply extends_refl].
  apply bind_Ret_inv in H as (inc & _ & H). by eapply writeInitData_extends.
Qed.

(** ** Refusals *)

(** The bytes of the GOAWAY frame: protocol error, last stream 0. *)
Definition goaway_bytes : bytes := [0; 0; 8; 7; 0; 0; 0; 0; 0; 0; 0; 0; 0; 0; 0; 0; 1].

Lemma refuse_spec s c : refuse s c = Ret (mkHandled true None s (c_write goaway_bytes c)).
Proof. reflexivity. Qed.

(** Either the frame was accepted, or the last thing written is GOAWAY. *)
Definition closes_with_goaway (c : Connection) (r : handled) : Prop :=
  h_closed r = true → ∃ d, c_out (h_conn r) = c_out c ++ d ++ goaway_bytes.

Lemma refuse_closes c0 s c r : extends c0 c → refuse s c = Ret r → closes_with_goaway c0 r.
Proof.
  rewrite refuse_spec. intros [d Hd] [= <-] _. exists d. cbn. by rewrite Hd, app_assoc.
Qed.
Lemma finish_closes c0 t obj s c r : finish t obj s c = Ret r → closes_with_goaway c0 r.
Proof. by intros [= <-]. Qed.

Lemma headers_end_closes c0 h s c r : headers_end h s c = Ret r → closes_with_goaway c0 r.
Proof.
  unfold headers_end. case_match; [|apply finish_closes].
  intros ([[obj s1] c1] & _ & Hr)%bind_Ret_inv. by eapply finish_closes.
Qed.

Lemma handle_headers_closes f s c r : handle_headers f s c = Ret r → closes_with_goaway c r.
Proof.
  unfold handle_headers.
  case_match; [|apply refuse_closes, extends_refl]. case_match.
  - intros ([s1 c1] & _ & Hr)%bind_Ret_inv. apply bind_Ret_inv in Hr as ([[ws s2] c2] & _ & Hr).
    destruct ws; [by injection Hr as <-|]. by eapply headers_end_closes.
  - case_match; [|apply headers_end_closes]. intros ([ok c1] & Hb & Hr)%bind_Ret_inv.
    destruct ok; [by eapply headers_end_closes|]. eapply refuse_closes; [|exact Hr]. by eapply ws_header_block_extends.
Qed.

Lemma handle_continuation_closes f p s c r : handle_continuation f p s c = Ret r → closes_with_goaway c r.
Proof.
  unfold handle_continuation. case_match; [|apply refuse_closes, extends_refl]. case_match.
  - intros ([s1 c1] & _ & Hr)%bind_Ret_inv. apply bind_Ret_inv in Hr as ([[ws s2] c2] & _ & Hr).
    destruct ws; [by injection Hr as <-|]. destruct (s_endofstream s2); [|by eapply finish_closes].
    apply bind_Ret_inv in Hr as ([[obj s3] c3] & _ & Hr). by eapply finish_closes.
  - case_match; [|apply finish_closes]. intros ([ok c1] & Hb & Hr)%bind_Ret_inv.
    destruct ok; [by eapply finish_closes|]. eapply refuse_closes; [|exact Hr]. by eapply ws_header_block_extends.
Qed.

Lemma take_ack_closes c0 t s c r : extends c0 c → take_ack t s c = Ret r → closes_with_goaway c0 r.
Proof.
  unfold take_ack. intros He.
  destruct (c_frameAcks c !! t) as [[]|]; [apply finish_closes|by apply refuse_closes..].
Qed.

Lemma handle_settings_closes f s c r : handle_settings f s c = Ret r → closes_with_goaway c r.
Proof.
  unfold handle_settings. case_match; [|apply refuse_closes, extends_refl]. case_match.
  - intros (c1 & _ & Hr)%bind_Ret_inv. by eapply finish_closes.
  - apply take_ack_closes. exists []. by rewrite app_nil_r.
Qed.

Lemma handle_ping_closes f s c r : handle_ping f s c = Ret r → closes_with_goaway c r.
Proof.
  unfold handle_ping. case_match; [|apply refuse_closes, extends_refl]. case_match.
  - intros (c1 & _ & Hr)%bind_Ret_inv. by eapply finish_closes.
  - apply take_ack_closes, extends_refl.
Qed.

Lemma handle_window_update_closes f s c r : handle_window_update f s c = Ret r → closes_with_goaway c r.
Proof.
  unfold handle_window_update. case_match; [|apply refuse_closes, extends_refl].
  case_match; intros (x & _ & Hr)%bind_Ret_inv; by eapply finish_closes.
Qed.

Lemma handle_data_closes f s c r : handle_data f s c = Ret r → closes_with_goaway c r.
Proof.
  unfold handle_data. intros (c1 & Hb%replenish_extends & Hr)%bind_Ret_inv.
  apply bind_Ret_inv in Hr as (w & _ & Hr). case_match; [|by eapply refuse_closes].
  repeat (case_match; try (apply bind_Ret_inv in Hr as (? & _ & Hr)));
    simplify_eq; by eapply finish_closes.
Qed.

Lemma handle_closes fr p s c r : handle fr p s c = Ret r → closes_with_goaway c r.
Proof.
  pose proof (extends_refl c) as He.
  destruct fr as [f|f|f|f|f|f|f|f|f|f|f]; cbn [handle];
    [| apply handle_headers_closes | | | apply handle_settings_closes | by apply refuse_closes
     | apply handle_ping_closes | by apply refuse_closes | apply handle_window_update_closes
     | apply handle_continuation_closes | ].
  - case_match; [by apply refuse_closes|apply handle_data_closes].
  - case_match; [by apply refuse_closes|apply finish_closes].
  - case_match; [by apply refuse_closes|]. unfold handle_reset.
    case_match; [apply finish_closes|by apply refuse_closes].
  - unfold handle_altsvc. case_match; [apply finish_closes|by apply refuse_closes].
Qed.

(** ** The invariant of a stream *)

(** A stream keeps its identifier, and while it can still receive a request it
    has one to receive it: the request pointer is not null. *)
Definition stream_ok (id : Z) (s : Http2StreamHandler) : Prop :=
  s_streamIdentifier s = id ∧
  (s_isWebSocket s = false → s_state s = Idle ∨ s_state s = Open ∨ s_state s = Half_Closed_L →
   s_request s ≠ None).

Lemma stream_ok_request id s r f st eos eoseg :
  stream_ok id s → stream_ok id (s_set st (Some r) f eos eoseg s).
Proof. by intros [? _]. Qed.
Lemma stream_ok_state id s st :
  stream_ok id s → s_state s = Idle ∨ s_state s = Open ∨ s_state s = Half_Closed_L →
  stream_ok id (s_set_state st s).
Proof. intros [? H] Hst. split; [done|]. intros Hw _. by apply H. Qed.
Lemma stream_ok_closed id s st req f eos eoseg :
  stream_ok id s → st = Half_Closed_R ∨ st = Closed → stream_ok id (s_set st req f eos eoseg s).
Proof. intros [? _] Hst. split; [done|]. intros _ Hs. cbn in Hs. destruct Hst as [-> | ->], Hs as [?|[?|?]]; discriminate. Qed.

Lemma dispatch_ok id i s c obj s' c' :
  stream_ok id s → dispatch i s c = Ret (obj, s', c') → stream_ok id s'.
Proof.
  intros Hs. unfold dispatch. intros (c1 & _ & Hr)%bind_Ret_inv. cbn in Hr. injection Hr as _ <- _.
  apply stream_ok_closed; [by apply (stream_ok_closed _ _ Half_Closed_R); [|left]|by left].
Qed.

Lemma set_request_headers_ok id block s c s' c' :
  stream_ok id s → set_request_headers block s c = Ret (s', c') →
  stream_ok id s' ∧ s_state s' = s_state s ∧ s_isWebSocket s' = s_isWebSocket s ∧ s_request s' ≠ None ∧
  s_endofstream s' = s_endofstream s.
Proof.
  intros [Hid _]. unfold set_request_headers. intros ([hs ctx] & _ & Hr)%bind_Ret_inv.
  apply bind_Ret_inv in Hr as (r & _ & Hr). apply bind_Ret_inv in Hr as (r' & _ & Hr).
  by injection Hr as <- _.
Qed.

Lemma handleWebSocketRequest_ok id i s c ws s' c' :
  stream_ok id s → handleWebSocketRequest i s c = Ret (ws, s', c') → stream_ok id s'.
Proof.
  intros Hs. unfold handleWebSocketRequest. case_match; [|by intros [= _ <- _]].
  intros (r & _ & Hr)%bind_Ret_inv. case_match; [|by injection Hr as _ <- _].
  apply bind_Ret_inv in Hr as ([block ctx] & _ & Hr). apply bind_Ret_inv in Hr as (c1 & _ & Hr).
  cbn in Hr. injection Hr as _ <- _. destruct Hs as [? _]. split; [done|]. intros Hws. done.
Qed.

Lemma finish_ok id t obj s c r : stream_ok id s → finish t obj s c = Ret r → stream_ok id (h_stream r).
Proof. intros [? ?] [= <-]. by split. Qed.
Lemma refuse_ok id s c r : stream_ok id s → refuse s c = Ret r → stream_ok id (h_stream r).
Proof. rewrite refuse_spec. by intros ? [= <-]. Qed.

Lemma headers_end_ok id h s c r : stream_ok id s → headers_end h s c = Ret r → stream_ok id (h_stream r).
Proof.
  intros Hs. unfold headers_end.
  set (s1 := s_set_end _ _ s). assert (stream_ok id s1) as Hs1 by (destruct Hs; by split).
  case_match; [|by apply finish_ok]. intros ([[obj s2] c1] & Hd & Hr)%bind_Ret_inv.
  eapply finish_ok; [|exact Hr]. eapply dispatch_ok; [exact Hs1|exact Hd].
Qed.

Lemma handle_headers_ok id f s c r : stream_ok id s → handle_headers f s c = Ret r → stream_ok id (h_stream r).
Proof.
  intros Hs. unfold handle_headers. case_match eqn:Hst; [|by apply refuse_ok].
  apply orb_true_iff in Hst. rewrite !bool_decide_eq_true in Hst.
  assert (stream_ok id (s_set_state Open s)) as Hs1 by (apply stream_ok_state; tauto).
  case_match.
  - intros ([s1 c1] & H1 & Hr)%bind_Ret_inv. destruct (set_request_headers_ok id _ _ _ _ _ Hs1 H1) as [Hs2 _].
    apply bind_Ret_inv in Hr as ([[ws s2] c2] & Hw & Hr).
    pose proof (handleWebSocketRequest_ok _ _ _ _ _ _ _ Hs2 Hw) as Hs3.
    destruct ws; [by injection Hr as <-|]. exact (headers_end_ok _ _ _ _ _ Hs3 Hr).
  - case_match.
    + intros ([ok c1] & _ & Hr)%bind_Ret_inv. destruct ok; [exact (headers_end_ok _ _ _ _ _ Hs1 Hr)|exact (refuse_ok _ _ _ _ Hs1 Hr)].
    + apply headers_end_ok. destruct Hs1. by split.
Qed.

Lemma handle_continuation_ok id f p s c r :
  stream_ok id s → handle_continuation f p s c = Ret r → stream_ok id (h_stream r).
Proof.
  intros Hs. unfold handle_continuation. case_match; [|by apply refuse_ok].
  assert (stream_ok id (s_append_fragment (cf_headerBlockFragment f) s)) as Hs1 by (destruct Hs; by split).
  case_match.
  - intros ([s1 c1] & Hq & Hr)%bind_Ret_inv. destruct (set_request_headers_ok id _ _ _ _ _ Hs1 Hq) as [Hs2 _].
    apply bind_Ret_inv in Hr as ([[ws s2] c2] & Hw & Hr).
    pose proof (handleWebSocketRequest_ok _ _ _ _ _ _ _ Hs2 Hw) as Hs3.
    destruct ws; [by injection Hr as <-|]. destruct (s_endofstream s2); [|exact (finish_ok _ _ _ _ _ _ Hs3 Hr)].
    apply bind_Ret_inv in Hr as ([[obj s3] c3] & Hd & Hr).
    eapply finish_ok; [|exact Hr]. exact (dispatch_ok _ _ _ _ _ _ _ Hs3 Hd).
  - case_match; [|by apply finish_ok].
    intros ([ok c1] & _ & Hr)%bind_Ret_inv. destruct ok; [exact (finish_ok _ _ _ _ _ _ Hs Hr)|exact (refuse_ok _ _ _ _ Hs Hr)].
Qed.

Lemma take_ack_ok id t s c r : stream_ok id s → take_ack t s c = Ret r → stream_ok id (h_stream r).
Proof.
  intros Hs. unfold take_ack.
  destruct (c_frameAcks c !! t) as [[]|]; [by apply finish_ok|by apply refuse_ok..].
Qed.

Lemma handle_data_ok id f s c r : stream_ok id s → handle_data f s c = Ret r → stream_ok id (h_stream r).
Proof.
  intros Hs. unfold handle_data. intros (c1 & _ & Hr)%bind_Ret_inv.
  apply bind_Ret_inv in Hr as (w & _ & Hr).
  set (s1 := s_set_windows _ _ s) in Hr. assert (stream_ok id s1) as Hs1 by (destruct Hs; by split).
  case_match; [|by eapply refuse_ok]. case_match.
  { apply bind_Ret_inv in Hr as (q & _ & Hr). cbn in Hr. eapply finish_ok; [|exact Hr].
    apply stream_ok_closed; [|by left]. by apply stream_ok_closed; [apply stream_ok_request|left]. }
  case_match; [by eapply finish_ok|]. case_match eqn:Hws.
  { cbn in Hr. eapply finish_ok; [|exact Hr]. apply andb_true_iff in Hws as [Hws _].
    destruct Hs1 as [? _]. split; [done|]. cbn. cbn in Hws. rewrite Hws. done. }
  case_match; [|by eapply finish_ok].
  apply bind_Ret_inv in Hr as (q & _ & Hr). eapply finish_ok; [|exact Hr]. by apply stream_ok_request.
Qed.

Lemma handle_ok id fr p s c r : stream_ok id s → handle fr p s c = Ret r → stream_ok id (h_stream r).
Proof.
  intros Hs. destruct fr as [f|f|f|f|f|f|f|f|f|f|f]; cbn [handle];
    [| by apply handle_headers_ok | | | | by apply refuse_ok | | by apply refuse_ok | | by apply handle_continuation_ok | ].
  - case_match; [by apply refuse_ok|by apply handle_data_ok].
  - case_match; [by apply refuse_ok|by apply finish_ok].
  - case_match; [by apply refuse_ok|]. unfold handle_reset.
    case_match; [apply finish_ok; apply stream_ok_closed; [done|by right]|by apply refuse_ok].
  - unfold handle_settings. case_match; [|by apply refuse_ok]. case_match; [|by apply take_ack_ok].
    intros (c1 & _ & Hr)%bind_Ret_inv. by eapply finish_ok.
  - unfold handle_ping. case_match; [|by apply refuse_ok]. case_match; [|by apply take_ack_ok].
    intros (c1 & _ & Hr)%bind_Ret_inv. by eapply finish_ok.
  - unfold handle_window_update. case_match; [|by apply refuse_ok].
    case_match; intros (x & _ & Hr)%bind_Ret_inv; (eapply finish_ok; [|exact Hr]); [done|].
    destruct Hs; by split.
  - unfold handle_altsvc. case_match; [by apply finish_ok|by apply refuse_ok].
Qed.

(** ** Properties *)

(** Whenever a stream asks for the connection to be closed, the last thing
    written to the peer is a GOAWAY frame with a protocol error, after what had
    been written before. *)
Theorem refusal_writes_goaway fr p s c r :
  handle fr p s c = Ret r → h_closed r = true →
  ∃ d, c_out (h_conn r) = c_out c ++ d ++ goaway_bytes.
Proof. intros Hr. exact (handle_closes fr p s c r Hr). Qed.

(** A CONTINUATION frame is accepted only in the middle of a header block:
    the stream is open, the preceding frame of the connection was on the same
    stream, and it was HEADERS, PUSH_PROMISE or CONTINUATION. *)
Theorem continuation_needs_open_block f p s c r :
  handle (ContinuationFrame f) p s c = Ret r → h_closed r = false →
  s_state s = Open ∧ p = streamIdentifier (cf_header f) ∧ s_lastFrameType s ∈ [1; 5; 9].
Proof.
  cbn [handle]. unfold handle_continuation. case_match eqn:E; [|by intros [= <-]].
  intros _ _. rewrite !andb_true_iff, !orb_true_iff, bool_decide_eq_true in E.
  destruct E as [[-> ?] ?]. split; [done|]. split; [lia|].
  rewrite !elem_of_cons. assert (s_lastFrameType s = 1 ∨ s_lastFrameType s = 5 ∨ s_lastFrameType s = 9) by lia.
  tauto.
Qed.

(** A PING that is not an acknowledgement is answered, on the connection's
    stream, with exactly one frame: a PING with the acknowledgement flag and the
    same opaque data, as the peer will read it. *)
Theorem ping_is_echoed f p s c :
  s_streamIdentifier s = 0 → isEndOfStream (pgf_header f) = false → 0 ≤ pgf_opaqueData f < 2 ^ 64 →
  ∃ r d, handle (PingFrame f) p s c = Ret r ∧ h_closed r = false ∧ h_request r = None ∧
    c_out (h_conn r) = c_out c ++ d ∧
    nextFrame d = Ret (Some (PingFrame (mkPing (mkHeader 8 6 1 false 0) (pgf_opaqueData f))), []).
Proof.
  intros Hid Hack Hop. cbn [handle]. unfold handle_ping. rewrite Hid. cbn [Z.eqb].
  unfold isEndOfStream in Hack. rewrite Hack. cbn [negb].
  set (fr := PingFrame (mkPing _ _)).
  pose proof (uint_bytes_slen 8 (pgf_opaqueData f) ltac:(lia) ltac:(cbn; lia)) as Hl.
  change (Z.of_nat 8) with 8 in Hl.
  assert (sendable fr) as Hs.
  { split; [split; [repeat split; done|exact Hop]|]. eexists. split; [reflexivity|]. cbn [pgf_opaqueData]. lia. }
  destruct (nextFrame_payload fr _ [] Hs eq_refl ltac:(done)) as (d & Hser & _ & Hnext).
  cbn [pgf_opaqueData] in Hser, Hnext. rewrite Hl in Hser, Hnext. rewrite app_nil_r in Hnext.
  unfold writeInitData. rewrite Hser. cbn [mbind outcome_bind].
  eexists _, d. split; [reflexivity|]. split; [done|]. split; [done|]. split; [done|exact Hnext].
Qed.

Lemma settings_ack_bytes :
  serialize (SettingsFrame (mkSettings (set_flag 0 (sf_header Http2SettingsFrame_default)) []))
  = Ret ([0; 0; 0; 4; 1; 0; 0; 0; 0],
         SettingsFrame (mkSettings (set_flag 0 (sf_header Http2SettingsFrame_default)) [])).
Proof. reflexivity. Qed.

(** SETTINGS on the connection's stream.  A frame that is not an
    acknowledgement is acknowledged and merged into the settings, where a value
    that is already set stays: the peer can set each parameter once. *)
Theorem settings_first_value_stays f p s c :
  s_streamIdentifier s = 0 → isEndOfStream (sf_header f) = false → sorted (sf_settings f) →
  ∃ r, handle (SettingsFrame f) p s c = Ret r ∧ h_closed r = false ∧
    c_out (h_conn r) = c_out c ++ [0; 0; 0; 4; 1; 0; 0; 0; 0] ∧
    ∀ k, mfind k (c_settings (h_conn r))
         = match mfind k (c_settings c) with Some v => Some v | None => mfind k (sf_settings f) end.
Proof.
  intros Hid Hack Hs. cbn [handle]. unfold handle_settings. rewrite Hid. cbn [Z.eqb].
  unfold isEndOfStream in Hack. rewrite Hack. cbn [negb].
  unfold writeInitData. rewrite settings_ack_bytes. cbn [mbind outcome_bind].
  eexists. split; [reflexivity|]. split; [done|]. cbn [h_conn].
  split; [by case_match|]. intros k. rewrite <- mfind_minsert_all by done. by case_match.
Qed.

(** ** Header blocks in several frames *)

Definition with_fragment (h : Http2FrameHeader) (block : bytes) (f : Http2HeadersFrame) : Http2HeadersFrame :=
  mkHeaders h (hf_padLength f) (hf_exclusive f) (hf_streamDependency f) (hf_weight f) block (hf_padding f).

Definition continuation (h : Http2FrameHeader) (block : bytes) : Http2Frame :=
  ContinuationFrame (mkContinuation h block).

Lemma set_flag_2_end h : isEndHeaders (set_flag 2 h) = true.
Proof. unfold isEndHeaders, set_flag. cbn [flags]. rewrite Z.lor_spec. apply orb_true_r. Qed.
Lemma set_flag_2_other h n : 0 ≤ n → n ≠ 2 → Z.testbit (flags (set_flag 2 h)) n = Z.testbit (flags h) n.
Proof.
  intros ? ?. unfold set_flag. cbn [flags]. rewrite Z.lor_spec, Z.shiftl_spec by done.
  destruct (decide (n < 2)).
  - rewrite (Z.testbit_neg_r 1) by lia. apply orb_false_r.
  - change 1 with (2 ^ 0). rewrite Z.pow2_bits_false by lia. apply orb_false_r.
Qed.

(** The end of a header block, whoever carried its last fragment. *)
Definition block_end (id t : Z) (block : bytes) (s : Http2StreamHandler) (c : Connection) : outcome handled :=
  '(s, c) ← set_request_headers block s c;
  '(obj, s, c) ← dispatch id s c;
  finish t obj s c.

Lemma handleWebSocketRequest_off id s c :
  mmem SETTINGS_WEBSOCKET_CAPABLE (c_settings c) = false → handleWebSocketRequest id s c = Ret (None, s, c).
Proof. unfold handleWebSocketRequest. by intros ->. Qed.

Lemma set_request_headers_settings block s c s' c' :
  set_request_headers block s c = Ret (s', c') → c_settings c' = c_settings c.
Proof.
  unfold set_request_headers. intros ([hs ctx] & _ & Hr)%bind_Ret_inv.
  apply bind_Ret_inv in Hr as (r & _ & Hr). apply bind_Ret_inv in Hr as (r' & _ & Hr).
  by injection Hr as _ <-.
Qed.

Lemma bind_cong {A B} (o : outcome A) (f g : A → outcome B) :
  (∀ a, o = Ret a → f a = g a) → (o ≫= f) = (o ≫= g).
Proof. destruct o; cbn; auto. Qed.

Lemma handle_run_cons fr frs p s c obj s1 c1 :
  frs ≠ [] → handle fr p s c = Ret (mkHandled false obj s1 c1) →
  handle_run (fr :: frs) p s c = handle_run frs (streamIdentifier (getHeader fr)) s1 c1.
Proof. intros Hne E. destruct frs as [|f2 frs]; [done|]. cbn [handle_run]. by rewrite E. Qed.
Lemma snoc_ne {A} (l : list A) x : l ++ [x] ≠ [].
Proof. by destruct l. Qed.

(** Only these members of the stream matter to it. *)
Definition same_core (s s' : Http2StreamHandler) : Prop :=
  s_streamIdentifier s = s_streamIdentifier s' ∧ s_request s = s_request s' ∧
  s_endofsegment s = s_endofsegment s' ∧ s_pendingSendData s = s_pendingSendData s' ∧
  s_isWebSocket s = s_isWebSocket s' ∧ s_senderFlowControlWindow s = s_senderFlowControlWindow s' ∧
  s_receiverFlowControlWindow s = s_receiverFlowControlWindow s'.

Lemma block_end_core id t block s s' c :
  same_core s s' → block_end id t block s c = block_end id t block s' c.
Proof.
  destruct s, s'. unfold same_core. cbn. intros (-> & -> & -> & -> & -> & -> & ->).
  unfold block_end, set_request_headers. rewrite !bind_assoc. apply bind_cong. intros [hs ctx] _.
  cbv beta iota. rewrite !bind_assoc. apply bind_cong. intros r _. rewrite !bind_assoc.
  apply bind_cong. intros r' _. cbn [mbind outcome_bind mret outcome_ret].
  unfold dispatch. rewrite !bind_assoc. apply bind_cong. intros c' _. reflexivity.
Qed.

(** A continuation that ends the block on a stream whose HEADERS frame was read. *)
Lemma continuation_end h frag s c :
  s_state s = Open → s_isWebSocket s = false → (s_lastFrameType s = 1 ∨ s_lastFrameType s = 9) →
  s_endofstream s = true → isEndHeaders h = true → mmem SETTINGS_WEBSOCKET_CAPABLE (c_settings c) = false →
  handle (continuation h frag) (streamIdentifier h) s c
  = block_end (streamIdentifier h) 9 (s_headerBlockFragment s ++ frag) s c.
Proof.
  intros Hst Hws Hl Heos He Hcap. cbn [handle continuation]. unfold handle_continuation.
  cbn [cf_header cf_headerBlockFragment]. rewrite Hst, bool_decide_eq_true_2, Z.eqb_refl, Hws, He by done.
  replace ((s_lastFrameType s =? 1) || (s_lastFrameType s =? 5) || (s_lastFrameType s =? 9)) with true by lia.
  cbn [andb negb]. rewrite <- (block_end_core _ _ _ (s_append_fragment frag s)) by done.
  unfold block_end. apply bind_cong. intros [s1 c1] H1. cbv beta iota.
  rewrite handleWebSocketRequest_off by (by rewrite (set_request_headers_settings _ _ _ _ _ H1)).
  cbn [mbind outcome_bind].
  assert (s_endofstream s1 = true) as ->; [|reflexivity].
  unfold set_request_headers in H1. apply bind_Ret_inv in H1 as ([hs ctx] & _ & H1).
  apply bind_Ret_inv in H1 as (r & _ & H1). apply bind_Ret_inv in H1 as (r' & _ & H1).
  injection H1 as <- _. exact Heos.
Qed.

Lemma continuations_run hm mids hl frag s c :
  s_state s = Open → s_isWebSocket s = false → (s_lastFrameType s = 1 ∨ s_lastFrameType s = 9) →
  s_endofstream s = true → streamIdentifier hm = streamIdentifier hl → isEndHeaders hm = false →
  isEndHeaders hl = true → mmem SETTINGS_WEBSOCKET_CAPABLE (c_settings c) = false →
  handle_run (map (continuation hm) mids ++ [continuation hl frag]) (streamIdentifier hl) s c
  = block_end (streamIdentifier hl) 9 (s_headerBlockFragment s ++ concat mids ++ frag) s c.
Proof.
  revert s. induction mids as [|m mids IH]; intros s Hst Hws Hl Heos Hid Hm He Hcap.
  - cbn [map app handle_run concat]. rewrite continuation_end by done.
    by destruct (block_end _ _ _ _ _).
  - cbn [map app]. 
    set (s1 := s_set_lastFrameType 9 (s_append_fragment m s)).
    assert (handle (continuation hm m) (streamIdentifier hl) s c = Ret (mkHandled false None s1 c)) as E.
    { cbn [handle continuation]. unfold handle_continuation. cbn [cf_header cf_headerBlockFragment].
      rewrite Hst, bool_decide_eq_true_2, Hid, Z.eqb_refl, Hws, Hm by done.
      by replace ((s_lastFrameType s =? 1) || (s_lastFrameType s =? 5) || (s_lastFrameType s =? 9)) with true by lia. }
    rewrite (handle_run_cons _ _ _ _ _ _ _ _ (snoc_ne _ _) E).
    cbn [getHeader continuation cf_header]. rewrite Hid.
    rewrite IH by (done || by right). cbn [s1 s_set_lastFrameType s_headerBlockFragment s_append_fragment s_set].
    cbn [concat]. rewrite <- !app_assoc. by apply block_end_core.
Qed.

(** C15: Cutting a header block into a HEADERS frame and any number of CONTINUATION frames of
    the stream makes no difference: the run of frames has the outcome of the one HEADERS frame
    that carries the whole block, apart from the type of the last frame. The stream is idle or
    open, is not a websocket stream (there [handle] decodes the last fragment alone), has no
    fragment left over from before and has its end-of-stream member set, as the constructor sets
    it; and the connection has no websocket setting. *)
Theorem header_block_fragmentation h hm hl f block0 mids frag p s c :
  s_state s = Idle ∨ s_state s = Open → s_isWebSocket s = false → s_headerBlockFragment s = [] →
  s_endofstream s = true → mmem SETTINGS_WEBSOCKET_CAPABLE (c_settings c) = false →
  isEndHeaders h = false → isEndHeaders hm = false → isEndHeaders hl = true →
  streamIdentifier hm = streamIdentifier h → streamIdentifier hl = streamIdentifier h →
  handle_run (HeadersFrame (with_fragment h block0 f)
              :: map (continuation hm) mids ++ [continuation hl frag]) p s c
  = (r ← handle (HeadersFrame (with_fragment (set_flag 2 h) (block0 ++ concat mids ++ frag) f)) p s c;
     mret (mkHandled (h_closed r) (h_request r) (s_set_lastFrameType 9 (h_stream r)) (h_conn r))).
Proof.
  intros Hst Hws Hfrag Heos Hcap H0 Hm He Hid1 Hid2.
  assert (bool_decide (s_state s = Idle) || bool_decide (s_state s = Open) = true) as Hst'.
  { apply orb_true_iff. rewrite !bool_decide_eq_true. exact Hst. }
  set (s1 := s_set_lastFrameType 1 (s_set_end true (isWsEndSegment h || s_endofsegment s)
               (s_append_fragment block0 (s_set_state Open s)))).
  assert (handle (HeadersFrame (with_fragment h block0 f)) p s c = Ret (mkHandled false None s1 c)) as E1.
  { cbn [handle]. unfold handle_headers, headers_end. cbn [with_fragment hf_header hf_headerBlockFragment].
    rewrite Hst', H0, !andb_false_r. cbn [andb s_endofstream s_append_fragment s_set_state s_set].
    by rewrite Heos, orb_true_r. }
  rewrite (handle_run_cons _ _ _ _ _ _ _ _ (snoc_ne _ _) E1).
  cbn [getHeader with_fragment hf_header]. rewrite <- Hid2.
  rewrite (continuations_run hm mids hl frag s1 c) by (done || by left || congruence).
  cbn [s1 s_set_lastFrameType s_headerBlockFragment s_append_fragment s_set s_set_end s_set_state].
  rewrite Hfrag. cbn [app].
  cbn [handle]. unfold handle_headers. cbn [with_fragment hf_header hf_headerBlockFragment].
  rewrite Hst', set_flag_2_end. cbn [s_isWebSocket s_set_state s_set]. rewrite Hws. cbn [andb negb].
  (* both sides: decode, store the headers, dispatch *)
  unfold block_end, set_request_headers. rewrite !bind_assoc. apply bind_cong. intros [hs ctx] _.
  cbv beta iota. rewrite !bind_assoc. apply bind_cong. intros r Hr. rewrite !bind_assoc.
  apply bind_cong. intros r' _. cbn [mbind outcome_bind mret outcome_ret].
  rewrite handleWebSocketRequest_off by done. cbn [mbind outcome_bind]. unfold headers_end.
  cbn [s_set_request s_isWebSocket s_set s_set_state s_endofstream s_set_end].
  rewrite set_flag_2_end, Hws, Heos, orb_true_r. cbn [negb andb].
  assert (isWsEndSegment (set_flag 2 h) = isWsEndSegment h) as -> by (apply set_flag_2_other; lia).
  change (streamIdentifier (set_flag 2 h)) with (streamIdentifier h). rewrite Hid2.
  unfold dispatch. rewrite !bind_assoc. apply bind_cong. intros c' _. reflexivity.
Qed.

Lemma handle_data_half_closed d p s c :
  s_state s = Half_Closed_R → s_receiverFlowControlWindow s = 65535 → 0 ≤ payloadLength (df_header d) < 2 ^ 24 →
  ∃ r, handle (DataFrame d) p s c = Ret r ∧ h_closed r = true.
Proof.
  intros Hst Hw Hn. cbn [handle]. rewrite Hst, bool_decide_eq_false_2 by done. unfold handle_data.
  assert (∃ c', replenish (payloadLength (df_header d)) (streamIdentifier (df_header d)) s c = Ret c') as [c' ->].
  { unfold replenish. rewrite Hw. case_match; [|by eexists].
    unfold checked_int, fits_int. replace (_ && _) with true by lia. cbn [mbind outcome_bind].
    eexists. reflexivity. }
  cbn [mbind outcome_bind]. rewrite Hw. unfold checked_int, fits_int. replace (_ && _) with true by lia.
  cbn [mbind outcome_bind s_state s_set_windows]. rewrite Hst, !bool_decide_eq_false_2 by done. cbn [orb].
  rewrite refuse_spec. by eexists.
Qed.

(** [endofstream] starts out true, so a HEADERS frame that ends its block but
    not the stream (a request with a body) is dispatched at once, without its
    body, and every DATA frame that follows closes the connection. *)
Theorem request_with_body_is_cut f p s c hs ctx req req' :
  s_state s = Idle → s_isWebSocket s = false → s_endofstream s = true → s_request s = Some req →
  s_receiverFlowControlWindow s = 65535 →
  isEndHeaders (hf_header f) = true → isEndOfStream (hf_header f) = false →
  decode (c_context c) (hf_headerBlockFragment f) = Ret (hs, ctx) → setHttp2Headers hs req = Ret req' →
  mmem SETTINGS_WEBSOCKET_CAPABLE (c_settings c) = false →
  mfind SETTINGS_ENABLE_PUSH (c_settings c) = Some 0 →
  ∃ r, handle (HeadersFrame f) p s c = Ret r ∧ h_closed r = false ∧ h_request r = Some (HttpObj req') ∧
    ∀ d p', 0 ≤ payloadLength (df_header d) < 2 ^ 24 →
      ∃ r', handle (DataFrame d) p' (h_stream r) (h_conn r) = Ret r' ∧ h_closed r' = true.
Proof.
  intros Hst Hws Heos Hreq Hw He Hes Hdec Hset Hcap Hpush.
  cbn [handle]. unfold handle_headers. rewrite Hst, bool_decide_eq_true_2, He by done. cbn [orb].
  cbn [s_isWebSocket s_set_state s_set]. rewrite Hws. cbn [negb andb].
  unfold set_request_headers. rewrite Hdec. cbn [mbind outcome_bind]. unfold deref.
  cbn [s_request s_set_state s_set]. rewrite Hreq. cbn [mbind outcome_bind mret outcome_ret].
  rewrite Hset. cbn [mbind outcome_bind mret outcome_ret]. rewrite handleWebSocketRequest_off by done.
  cbn [mbind outcome_bind mret outcome_ret].
  unfold headers_end. cbn [s_set_request s_isWebSocket s_set s_set_state s_endofstream s_set_end].
  rewrite Hws, He, Heos, orb_true_r. cbn [negb andb]. unfold dispatch, sendPushPromiseFrames.
  cbn [s_set_request s_isWebSocket s_set s_set_state s_endofstream s_set_end c_settings c_set_context c_set].
  rewrite Hws, Hpush. unfold mmem. rewrite Hpush, bool_decide_eq_true_2 by by eexists.
  rewrite bool_decide_eq_false_2 by (intros H; by apply H). cbn [negb andb orb mbind outcome_bind].
  eexists. split; [reflexivity|]. split; [done|]. split; [reflexivity|].
  intros d p' Hn. by apply (handle_data_half_closed d p').
Qed.

End stream.

Arguments Http2StreamHandler : clear implicits.
Arguments Connection : clear implicits.
Arguments handled : clear implicits.

(** ** Concrete runs *)

(** The smallest request: it keeps the header map and the content it is given. *)
Record KeptRequest := mkKept {
  kr_headers : headers;
  kr_content : bytes
}.
#[export] Instance KeptRequest_ops : HttpRequestOps KeptRequest := {|
  req_new _ := mkKept [] [];
  setHttp2Headers hs r := Ret (mkKept hs (kr_content r));
  req_hasHeader k r := mmem k (kr_headers r);
  req_getHeader k r := match mfind k (kr_headers r) with Some v => v | None => [] end;
  appendContent d r := mkKept (kr_headers r) (kr_content r ++ d);
  getUrl r := match mfind (str ":path") (kr_headers r) with Some v => v | None => [] end
|}.

Definition sample_stream (id : Z) : Http2StreamHandler KeptRequest unit :=
  mkStream Idle id (Some (mkKept [] [])) [] true false Http2RequestResponseData_default (-1) false 65535 65535.

Definition sample_conn : Connection unit :=
  mkConn 2 Http2HPACKContext_new ∅ 65535 20971520 ∅ [(2, 0)] (-1) true 16384 [] None [] [].

Abbreviation no_mime := (λ _ : bytes, str "text/plain").

(** [:method GET, :path /], both indexed. *)
Definition get_root : bytes := [130; 132].

Example refusal_writes_goaway_witness :
  let c := sample_conn in
  ∃ r, handle no_mime (PushPromiseFrame Http2PushPromiseFrame_default) 1 (sample_stream 1) c = Ret r ∧
    ∃ d, c_out (h_conn r) = c_out c ++ d ++ goaway_bytes.
Proof.
  eexists. split; [reflexivity|].
  apply (refusal_writes_goaway no_mime (PushPromiseFrame Http2PushPromiseFrame_default) 1 (sample_stream 1) sample_conn);
    reflexivity.
Defined.

Example continuation_needs_open_block_witness :
  let s := s_set_lastFrameType 1 (s_set_state Open (sample_stream 3)) in
  let f := mkContinuation (mkHeader 2 9 0 false 3) get_root in
  s_state s = Open ∧ 3 = streamIdentifier (cf_header f) ∧ s_lastFrameType s ∈ [1; 5; 9].
Proof.
  intros s f. eapply (continuation_needs_open_block no_mime f 3 s sample_conn); reflexivity.
Defined.

Example ping_is_echoed_witness :
  let f := mkPing (mkHeader 8 6 0 false 0) 7 in
  ∃ r d, handle no_mime (PingFrame f) 0 (sample_stream 0) sample_conn = Ret r ∧
    h_closed r = false ∧ h_request r = None ∧ c_out (h_conn r) = c_out sample_conn ++ d ∧
    nextFrame d = Ret (Some (PingFrame (mkPing (mkHeader 8 6 1 false 0) 7)), []).
Proof.
  intros f. apply (ping_is_echoed no_mime f 0 (sample_stream 0) sample_conn); [done|done|cbn; lia].
Defined.

Example settings_first_value_stays_witness :
  let f := mkSettings (mkHeader 12 4 0 false 0) [(2, 1); (4, 70000)] in
  ∃ r, handle no_mime (SettingsFrame f) 0 (sample_stream 0) sample_conn = Ret r ∧ h_closed r = false ∧
    c_out (h_conn r) = c_out sample_conn ++ [0; 0; 0; 4; 1; 0; 0; 0; 0] ∧
    ∀ k, mfind k (c_settings (h_conn r))
         = match mfind k (c_settings sample_conn) with Some v => Some v | None => mfind k (sf_settings f) end.
Proof.
  intros f. apply (settings_first_value_stays no_mime f 0 (sample_stream 0) sample_conn); [done|done|].
  repeat constructor.
Defined.

Example header_block_fragmentation_witness :
  let h := mkHeader 1 1 1 false 3 in
  let f := mkHeaders h 0 None None None [] [] in
  handle_run no_mime (HeadersFrame (with_fragment h [130] f)
      :: map (continuation (mkHeader 0 9 0 false 3)) [[]] ++ [continuation (mkHeader 1 9 4 false 3) [132]])
    (-1) (sample_stream 3) sample_conn
  = (r ← handle no_mime (HeadersFrame (with_fragment (set_flag 2 h) ([130] ++ concat [[]] ++ [132]) f)) (-1)
           (sample_stream 3) sample_conn;
     mret (mkHandled (h_closed r) (h_request r) (s_set_lastFrameType 9 (h_stream r)) (h_conn r))).
Proof.
  intros h f.
  apply (header_block_fragmentation no_mime h (mkHeader 0 9 0 false 3) (mkHeader 1 9 4 false 3) f [130] [[]] [132]
    (-1) (sample_stream 3) sample_conn); try reflexivity. by left.
Defined.

Example request_with_body_is_cut_witness :
  let f := mkHeaders (mkHeader 2 1 4 false 3) 0 None None None get_root [] in
  ∃ r, handle no_mime (HeadersFrame f) (-1) (sample_stream 3) sample_conn = Ret r ∧ h_closed r = false ∧
    h_request r = Some (HttpObj (mkKept [(str ":method", str "GET"); (str ":path", str "/")] [])) ∧
    ∀ d p', 0 ≤ payloadLength (df_header d) < 2 ^ 24 →
      ∃ r', handle no_mime (DataFrame d) p' (h_stream r) (h_conn r) = Ret r' ∧ h_closed r' = true.
Proof.
  intros f.
  apply (request_with_body_is_cut no_mime f (-1) (sample_stream 3) sample_conn
    [(str ":method", str "GET"); (str ":path", str "/")] Http2HPACKContext_new (mkKept [] []));
    reflexivity.
Defined.
