(* ===== verification/Http2Handler.v ===== *)
(** * Http2Handler

    The HTTP/2 connection of [Http2Handler.cpp]: the streams and the connection
    state they share, [processFrame], the read loop of [readRequest], and the
    writers of responses with their flow control.

    The socket is outside the model: the bytes and the result of [readFrom] are
    arguments of [readRequest].  Responses are used through [HttpResponseOps]. *)

From S2P Require Import Prelude ByteCodec StdMap Http2Frames Http2Wire HpackNumber Huffman Hpack Http2Stream.

(** The operations of [HttpResponse] that the HTTP/2 code calls. *)
Class HttpResponseOps (Req Res : Type) := {
  isDone : Res → bool;
  updateContent : Req → Z → Res → Res;
  setStatusHeader : Res → Res;                  (* headers[":status"] = getStatusCode() *)
  response_headers : Res → headers;
  hasContent : Res → bool;
  isContentRemains : Res → bool;
  getContent : Res → bytes;
  (* getRemainingContent(fname, isFirst, rem): its result, the new [rem] and the response *)
  getRemainingContent : bytes → bool → bytes → Res → bool * bytes * Res
}.

Section handler.
Context {Req Res : Type} `{!HttpRequestOps Req, !HttpResponseOps Req Res}.
Variable getMimeType : bytes → bytes.

Record Http2Handler := mkHandler {
  hd_conn : Connection Res;
  hd_streams : gmap Z (Http2StreamHandler Req Res);
  hd_buffer : bytes;
  hd_closed : bool
}.

Definition with_conn (c : Connection Res) (h : Http2Handler) : Http2Handler :=
  mkHandler c (hd_streams h) (hd_buffer h) (hd_closed h).
Definition with_stream (id : Z) (s : Http2StreamHandler Req Res) (h : Http2Handler) : Http2Handler :=
  mkHandler (hd_conn h) (<[id := s]> (hd_streams h)) (hd_buffer h) (hd_closed h).
Definition with_buffer (b : bytes) (h : Http2Handler) : Http2Handler :=
  mkHandler (hd_conn h) (hd_streams h) b (hd_closed h).

(** [Http2StreamHandler()]: [endofstream] starts out true. *)
Definition Http2StreamHandler_default : Http2StreamHandler Req Res :=
  mkStream Idle (-1) None [] true false Http2RequestResponseData_default (-1) false 65535 65535.

(** The constructor without a settings frame. *)
Definition Http2Handler_new (webpath : bytes) : Http2Handler :=
  mkHandler (mkConn 2 Http2HPACKContext_new ∅ 65535 20971520 ∅ [] (-1) false 16384 webpath None [] [])
    ∅ [] false.

(** ** Reading *)

Definition set_conn_windows (snd rcv : Z) (upd : option Z) (c : Connection Res) : Connection Res :=
  mkConn (c_highestPushPromiseStreamIdentifier c) (c_context c) (c_relatedEntitiesForPP c) snd rcv
    (c_frameAcks c) (c_settings c) (c_precedingstreamId c) (c_isConnInit c) (c_maxDataFrameSize c)
    (c_webpath c) upd (c_pushPromisedRequestQ c) (c_out c).
Definition set_preceding (id : Z) (c : Connection Res) : Connection Res :=
  mkConn (c_highestPushPromiseStreamIdentifier c) (c_context c) (c_relatedEntitiesForPP c)
    (c_senderFlowControlWindow c) (c_receiverFlowControlWindow c)
    (c_frameAcks c) (c_settings c) id (c_isConnInit c) (c_maxDataFrameSize c)
    (c_webpath c) (c_updateRxFCWS c) (c_pushPromisedRequestQ c) (c_out c).
Definition set_init (acks : gmap Z bool) (c : Connection Res) : Connection Res :=
  mkConn (c_highestPushPromiseStreamIdentifier c) (c_context c) (c_relatedEntitiesForPP c)
    (c_senderFlowControlWindow c) (c_receiverFlowControlWindow c)
    acks (c_settings c) (c_precedingstreamId c) true (c_maxDataFrameSize c)
    (c_webpath c) (c_updateRxFCWS c) (c_pushPromisedRequestQ c) (c_out c).

(** The accounting of DATA frames at the start of [processFrame]. *)
Definition account_data (fr : Http2Frame) (c : Connection Res) : outcome (Connection Res) :=
  match fr with
  | DataFrame f =>
      let n := payloadLength (df_header f) in
      let upd := if c_receiverFlowControlWindow c <=? n then Some n else c_updateRxFCWS c in
      w ← checked_int (c_receiverFlowControlWindow c - n);
      mret (set_conn_windows (c_senderFlowControlWindow c) w upd c)
  | _ => mret c
  end.

(** The stream of a frame, created when it is not there yet. *)
Definition find_stream (id : Z) (webpath : bytes) (m : gmap Z (Http2StreamHandler Req Res))
    : Http2StreamHandler Req Res :=
  match m !! id with
  | Some s => s
  | None => mkStream Idle id (Some (req_new webpath)) [] true false Http2RequestResponseData_default (-1)
              false 65535 65535
  end.

(** [processFrame]: the flag to close, the request object if one was set, and
    the connection. *)
Definition processFrame (fr : Http2Frame) (h : Http2Handler)
    : outcome (bool * option (RequestObj Req) * Http2Handler) :=
  c ← account_data fr (hd_conn h);
  let id := streamIdentifier (getHeader fr) in
  let c := if c_precedingstreamId c =? -1 then set_preceding id c else c in
  let s := find_stream id (c_webpath c) (hd_streams h) in
  r ← handle getMimeType fr (c_precedingstreamId c) s c;
  mret (h_closed r, h_request r,
        with_conn (set_preceding id (h_conn r)) (with_stream id (h_stream r) h)).

Definition initial_settings : Http2SettingsFrame :=
  mkSettings (sf_header Http2SettingsFrame_default)
    (mset SETTINGS_INITIAL_WINDOW_SIZE 20971520 (mset SETTINGS_MAX_CONCURRENT_STREAMS 100 [])).

(** The settings frame of a new connection. *)
Definition send_settings (c : Connection Res) : outcome (Connection Res) :=
  c ← writeInitData (SettingsFrame initial_settings) c;
  mret (set_init (<[4 := true]> (c_frameAcks c)) c).

Definition client_preface : bytes :=
  str "PRI * HTTP/2.0" ++ [13; 10; 13; 10] ++ str "SM" ++ [13; 10; 13; 10].

(** [s.find(t) != npos]. *)
Fixpoint contains (t s : bytes) : bool :=
  bool_decide (take (length t) s = t) || match s with [] => false | _ :: s' => contains t s' end.

(** [if(!isConnInit) {...}]: the preface is cut off by length, wherever it was
    found. *)
Definition init_connection (h : Http2Handler) : outcome Http2Handler :=
  if c_isConnInit (hd_conn h) then mret h
  else
    b ← (if contains client_preface (hd_buffer h)
         then substr (hd_buffer h) (slen client_preface) npos else mret (hd_buffer h));
    c ← send_settings (hd_conn h);
    mret (with_conn c (with_buffer b h)).

(** The constructor with the decoded [HTTP2-Settings] header. *)
Definition Http2Handler_new_settings (webpath settingsFrameData : bytes) : outcome Http2Handler :=
  let h := Http2Handler_new webpath in
  let h := with_conn (set_conn_windows 65535 65535 None (hd_conn h)) h in
  sframe ← readFrame settingsFrameData;
  match sframe with
  | None => mret h
  | Some fr =>
      '(_, _, h) ← processFrame fr h;
      if c_isConnInit (hd_conn h) then mret h
      else c ← send_settings (hd_conn h); mret (with_conn c h)
  end.

(** The loop over the frames of the buffer.  [request] is the parameter of
    [readRequest], passed by value: it starts as the caller's pointer, and the
    loop ends as soon as it is not null.  The result is the context set for the
    request that ends the loop. *)
Fixpoint read_frames (fuel : nat) (request : option (RequestObj Req)) (h : Http2Handler)
    : outcome (option (RequestObj Req) * option Z * Http2Handler) :=
  match fuel with
  | O => Out_of_fuel
  | S fuel' =>
      '(fr, buffer) ← nextFrame (hd_buffer h);
      let h := with_buffer buffer h in
      match fr with
      | None => mret (request, None, h)
      | Some fr =>
          '(closed, obj, h) ← processFrame fr h;
          if (closed : bool) then
            mret (request, None, mkHandler (hd_conn h) (hd_streams h) (hd_buffer h) true)
          else
            let request := match obj with Some o => Some o | None => request end in
            match request with
            | Some _ => mret (request, Some (streamIdentifier (getHeader fr)), h)
            | None => read_frames fuel' request h
            end
      end
  end.

(** What a call of [readRequest] tells its caller; the request it read is not
    part of it. *)
Record read_result := mkRead {
  rd_ok : bool;
  rd_context : option Z;
  rd_pending : Z
}.

(** [readRequest]; [received] and [er] are what [readFrom] appends to the buffer
    and returns. *)
Definition readRequest (request : option (RequestObj Req)) (pending : Z) (received : bytes) (er : Z)
    (h : Http2Handler) : outcome (read_result * Http2Handler) :=
  match c_pushPromisedRequestQ (hd_conn h) with
  | pp :: q =>
      _ ← setHttp2Headers (rr_preHeaders pp) (req_new []);
      let c := c_push (c_highestPushPromiseStreamIdentifier (hd_conn h)) q (hd_conn h) in
      mret (mkRead true (Some (rr_streamIdentifier pp)) (if bool_decide (q = []) then 0 else 1), with_conn c h)
  | [] =>
      let h := with_buffer (hd_buffer h ++ received) h in
      if negb (er =? 0) then mret (mkRead false None pending, h)
      else
        h ← init_connection h;
        '(_, ctx, h) ← read_frames (S (length (hd_buffer h))) request h;
        let len := wraps 32 (slen (hd_buffer h)) in
        mret (mkRead true ctx (if pending =? len then 0 else len), h)
  end.

(** ** Writing *)

(** [streams[id]], which creates the stream. *)
Definition stream_at (id : Z) (h : Http2Handler) : Http2StreamHandler Req Res :=
  match hd_streams h !! id with Some s => s | None => Http2StreamHandler_default end.

Definition fits (len : Z) (id : Z) (h : Http2Handler) : bool :=
  (wraps 32 len <=? c_senderFlowControlWindow (hd_conn h))
  && (wraps 32 len <=? s_senderFlowControlWindow (stream_at id h)).

(** Both send windows are charged with the payload of a DATA frame. *)
Definition charge (id n : Z) (h : Http2Handler) : outcome Http2Handler :=
  let c := hd_conn h in
  w ← checked_int (c_senderFlowControlWindow c - n);
  let s := stream_at id h in
  v ← checked_int (s_senderFlowControlWindow s - n);
  mret (with_conn (c_set_sender w c)
          (with_stream id (s_set_windows v (s_receiverFlowControlWindow s) s) h)).

(** [minreslen], the smaller window. *)
Definition minreslen (id : Z) (h : Http2Handler) : outcome Z :=
  let w := c_senderFlowControlWindow (hd_conn h) in
  let v := s_senderFlowControlWindow (stream_at id h) in
  d ← checked_int (w - v);
  mret (if 0 <? d then v else w).

Definition data_frame (id : Z) (payload : bytes) (fl : option Z) : Http2Frame :=
  let hd := with_streamIdentifier id (df_header Http2DataFrame_default) in
  DataFrame (mkData (match fl with Some n => set_flag n hd | None => hd end) (Some 0) payload []).

(** A whole DATA frame that fits both windows. *)
Definition send_data (id : Z) (payload : bytes) (fl : option Z) (data : bytes) (h : Http2Handler)
    : outcome (bytes * Http2Handler) :=
  '(s, fr) ← serialize (data_frame id payload fl);
  h ← charge id (payloadLength (getHeader fr)) h;
  mret (data ++ s, h).

(** A DATA frame with the part of [content] that fits; the windows are not
    charged.  The length of the part is returned too. *)
Definition send_partial (id : Z) (content data : bytes) (h : Http2Handler) : outcome (bytes * Z) :=
  n ← minreslen id h;
  part ← substr content 0 (size_t n);
  '(s, _) ← serialize (data_frame id part None);
  mret (data ++ s, n).

(** [Http2RequestResponseData::isDataPending] and [updateContent]. *)
Definition isDataPending (d : Http2RequestResponseData Res) : bool :=
  if negb (rr_isWebSocket d) then
    (0 <? slen (rr_data d))
    || match rr_incompleteResponse d with Some res => isContentRemains res | None => false end
  else 0 <? slen (rr_data d).

Definition rr_updateContent (d : Http2RequestResponseData Res) : Http2RequestResponseData Res :=
  if negb (rr_isWebSocket d) then
    match rr_incompleteResponse d with
    | Some res =>
        if (slen (rr_data d) =? 0) && isContentRemains res then
          let '(_, rem, res) := getRemainingContent (rr_url d) false (rr_data d) res in
          mkRRData (rr_preHeaders d) (rr_postHeaders d) rem (rr_url d) (rr_isWebSocket d) (Some res)
            (rr_headerBlock d) (rr_streamIdentifier d) (rr_endStream d)
        else d
    | None => d
    end
  else d.

Definition rr_set_data (b : bytes) (d : Http2RequestResponseData Res) : Http2RequestResponseData Res :=
  mkRRData (rr_preHeaders d) (rr_postHeaders d) b (rr_url d) (rr_isWebSocket d) (rr_incompleteResponse d)
    (rr_headerBlock d) (rr_streamIdentifier d) (rr_endStream d).

(** [writePendingDataFrame]: the loop ends when nothing is pending or after the
    partial frame; a whole frame leaves the pending data as it was. *)
Fixpoint writePendingDataFrame (fuel : nat) (d : Http2RequestResponseData Res) (data : bytes) (h : Http2Handler)
    : outcome (Http2RequestResponseData Res * bytes * Http2Handler) :=
  match fuel with
  | O => Out_of_fuel
  | S fuel' =>
      if isDataPending d then
        let d := rr_updateContent d in
        let id := rr_streamIdentifier d in
        if fits (slen (rr_data d)) id h then
          '(data, h) ← send_data id (rr_data d) (Some 0) data h;
          writePendingDataFrame fuel' d data h
        else
          '(data, n) ← send_partial id (rr_data d) data h;
          rest ← substr (rr_data d) (size_t n) npos;
          mret (rr_set_data rest d, data, h)
      else mret (d, data, h)
  end.

(** The fields of [pendingSendData] set when a response is cut short. *)
Definition hold (id : Z) (url : bytes) (rest : bytes) (res : Res) (h : Http2Handler) : Http2Handler :=
  let s := stream_at id h in
  let p := s_pendingSendData s in
  with_stream id (s_set_pending
    (mkRRData (rr_preHeaders p) (rr_postHeaders p) rest url (s_isWebSocket s) (Some res)
       (rr_headerBlock p) id (rr_endStream p)) s) h.

(** [while(response->hasContent && response->getRemainingContent(url, isFirst, data))]:
    the content goes to [data], and [tmd], which is never assigned, to the frame. *)
Fixpoint write_remaining (fuel : nat) (id : Z) (url : bytes) (isFirst : bool) (res : Res) (data : bytes)
    (h : Http2Handler) : outcome (Res * bytes * Http2Handler) :=
  match fuel with
  | O => Out_of_fuel
  | S fuel' =>
      let '(more, data', res') :=
        if hasContent res then getRemainingContent url isFirst data res else (false, data, res) in
      if (more : bool) then
        if fits 0 id h then
          '(data, h) ← send_data id [] (if isContentRemains res' then None else Some 0) data' h;
          write_remaining fuel' id url false res' data h
        else
          '(data, n) ← send_partial id [] data' h;
          rest ← substr [] (size_t n) npos;
          mret (res', data, hold id url rest res' h)
      else mret (res', data', h)
  end.

(** [writeHttpResponse]; [fuel] bounds the number of content chunks. *)
Definition writeHttpResponse (fuel : nat) (req : Req) (res : Res) (id : Z) (data : bytes) (h : Http2Handler)
    : outcome (Res * bytes * Http2Handler) :=
  let c := hd_conn h in
  let res := if isDone res then res else updateContent req (c_maxDataFrameSize c) res in
  let res := setStatusHeader res in
  '(block, ctx) ← encode (c_context c) (response_headers res);
  let hd := set_flag 2 (with_streamIdentifier id (hf_header Http2HeadersFrame_default)) in
  let hd := if negb (hasContent res) then set_flag 0 hd else hd in
  '(s, _) ← serialize (HeadersFrame (mkHeaders hd 0 (Some false) (Some 0) (Some 0) block []));
  let data := data ++ s in
  let h := with_conn (c_set_context ctx c) h in
  if negb (isContentRemains res) then
    if fits (slen (getContent res)) id h then
      '(data, h) ← send_data id (getContent res) (Some 0) data h;
      mret (res, data, h)
    else
      (* the part is cut from the output [data], not from the content *)
      '(data, n) ← send_partial id data data h;
      rest ← substr data (size_t n) npos;
      mret (res, data, hold id (getUrl req) rest res h)
  else write_remaining fuel id (getUrl req) true res data h.

(** [writeWebSocketResponse]: an empty HEADERS frame with END_HEADERS and the
    end-of-segment flag. *)
Definition writeWebSocketResponse (id : Z) (data : bytes) (h : Http2Handler) : outcome (bytes * Http2Handler) :=
  '(block, ctx) ← encode (c_context (hd_conn h)) [];
  let hd := set_flag 6 (set_flag 2 (with_streamIdentifier id (hf_header Http2HeadersFrame_default))) in
  '(s, _) ← serialize (HeadersFrame (mkHeaders hd 0 (Some false) (Some 0) (Some 0) block []));
  mret (data ++ s, with_conn (c_set_context ctx (hd_conn h)) h).

(** [writeResponse]: a window update for the connection, then the response.
    [updateRxFCWS] is only assigned by [processFrame]. *)
Definition writeResponse (fuel : nat) (req : Req) (res : Res) (id : Z) (data : bytes) (h : Http2Handler)
    : outcome (bool * Res * bytes * Http2Handler) :=
  if hd_closed h then mret (true, res, data, h)
  else
    match c_updateRxFCWS (hd_conn h) with
    | None => Undefined
    | Some n =>
        inc ← checked_int (65535 + n);
        '(s, _) ← serialize (WindowUpdateFrame
          (mkWindowUpdate (with_streamIdentifier 0 (wf_header Http2WindowUpdateFrame_default)) false inc));
        let data := data ++ s in
        if s_isWebSocket (stream_at id h) then
          '(data, h) ← writeWebSocketResponse id data h;
          mret (false, res, data, h)
        else
          '(res, data, h) ← writeHttpResponse fuel req res id data h;
          mret (false, res, data, h)
    end.

(** [writeData2]: the headers, then the data if it fits, else it is added to the
    pending data. *)
Definition writeData2 (d pending : Http2RequestResponseData Res) (streamWindow : Z) (respd : bytes)
    (h : Http2Handler)
    : outcome (Http2RequestResponseData Res * Http2RequestResponseData Res * Z * bytes * Http2Handler) :=
  let id := rr_streamIdentifier d in
  '(block, ctx) ← encode (c_context (hd_conn h)) (rr_preHeaders d);
  let h := with_conn (c_set_context ctx (hd_conn h)) h in
  let hd := set_flag 2 (with_streamIdentifier id (hf_header Http2HeadersFrame_default)) in
  '(s, _) ← serialize (HeadersFrame (mkHeaders hd 0 (Some false) (Some 0) (Some 0) block []));
  let respd := respd ++ s in
  '(dfdata, fr) ← serialize (data_frame id (rr_data d) (Some 0));
  let n := payloadLength (getHeader fr) in
  let w := c_senderFlowControlWindow (hd_conn h) in
  if (n <=? w) && (n <=? streamWindow) then
    w ← checked_int (w - n);
    v ← checked_int (streamWindow - n);
    mret (rr_reset d, pending, v, respd ++ dfdata, with_conn (c_set_sender w (hd_conn h)) h)
  else
    let pending := mkRRData (rr_preHeaders pending) (rr_postHeaders pending) (rr_data pending ++ rr_data d)
      (rr_url pending) (rr_isWebSocket pending) (rr_incompleteResponse pending) (rr_headerBlock pending)
      id (rr_endStream pending) in
    mret (rr_reset d, pending, streamWindow, respd, h).

Definition getProtocol (context : Z) (h : Http2Handler) : bytes :=
  match hd_streams h !! context with
  | Some s => if s_isWebSocket s then str "WS2.0" else str "HTTP2.0"
  | None => str "HTTP2.0"
  end.

Definition getType (context : Z) (h : Http2Handler) : Z :=
  match hd_streams h !! context with
  | Some s => if s_isWebSocket s then 4 else 3
  | None => 3
  end.
(** ** Reachable connections *)

(** One frame processed. *)
Inductive frame_step : Http2Handler → Http2Handler → Prop :=
| frame_step_intro fr closed obj h h' : processFrame fr h = Ret (closed, obj, h') → frame_step h h'.

Definition handler_ok (h : Http2Handler) : Prop :=
  ∀ id s, hd_streams h !! id = Some s → stream_ok id s.

Lemma find_stream_ok id w m :
  (∀ id s, m !! id = Some s → stream_ok id s) → stream_ok id (find_stream id w m).
Proof.
  intros Hm. unfold find_stream. destruct (m !! id) as [s|] eqn:E; [by apply Hm|]. by split.
Qed.

Lemma processFrame_ok fr h closed obj h' :
  handler_ok h → processFrame fr h = Ret (closed, obj, h') → handler_ok h'.
Proof.
  intros Hok. unfold processFrame. intros (c & _ & Hr)%bind_Ret_inv.
  apply bind_Ret_inv in Hr as (r & Hh & Hr). injection Hr as _ _ <-.
  intros id s. cbn [hd_streams with_conn with_stream].
  destruct (decide (streamIdentifier (getHeader fr) = id)) as [<-|Hne].
  - rewrite lookup_insert_eq. intros [= <-]. eapply handle_ok; [|exact Hh]. by apply find_stream_ok.
  - rewrite lookup_insert_ne by done. apply Hok.
Qed.

(** C19: on every connection that frames can lead to, a stream sits under its own
    identifier, and a stream that can still receive a request (idle, open or
    half closed on our side, not a websocket) has a request object to receive
    it: the null pointer left by a dispatch is never used. *)
Theorem reachable_streams_ok webpath h id s :
  rtc frame_step (Http2Handler_new webpath) h → hd_streams h !! id = Some s → stream_ok id s.
Proof.
  intros Hr. revert id s. change (handler_ok h).
  assert (handler_ok (Http2Handler_new webpath)) as H0 
    by (intros i x Hx; cbn [Http2Handler_new hd_streams] in Hx; by rewrite lookup_empty in Hx).
  revert H0. induction Hr as [|h1 h2 h3 [fr closed obj h h' Hp] _ IH]; [done|].
  intros H1. by eapply IH, processFrame_ok.
Qed.

(** ** Reading *)

(** [readRequest] gives up whenever [readFrom] reports anything but a closed
    socket: the bytes are appended to the buffer and no frame is read. *)
Theorem readRequest_gives_up_on_data request pending received er h :
  er ≠ 0 → c_pushPromisedRequestQ (hd_conn h) = [] →
  readRequest request pending received er h
  = Ret (mkRead false None pending, with_buffer (hd_buffer h ++ received) h).
Proof.
  intros Her Hq. unfold readRequest. rewrite Hq.
  by replace (er =? 0) with false by lia.
Qed.

Lemma read_frames_next fuel request h fr rest closed obj h' :
  nextFrame (hd_buffer h) = Ret (Some fr, rest) →
  processFrame fr (with_buffer rest h) = Ret (closed, obj, h') →
  read_frames (S fuel) request h
  = (if (closed : bool) then
       mret (request, None, mkHandler (hd_conn h') (hd_streams h') (hd_buffer h') true)
     else
       let request := match obj with Some o => Some o | None => request end in
       match request with
       | Some _ => mret (request, Some (streamIdentifier (getHeader fr)), h')
       | None => read_frames fuel request h'
       end).
Proof. intros Hn Hp. cbn [read_frames]. rewrite Hn. cbn [mbind outcome_bind]. rewrite Hp. done. Qed.

(** The request pointer is passed by value, and the server passes one that is
    not null: any frame that does not close the connection, a PING as well as a
    request, ends the call and is reported with its stream as a request to
    serve; the frames behind it stay in the buffer. *)
Theorem readRequest_reports_every_frame r0 pending received h fr rest obj h' :
  c_pushPromisedRequestQ (hd_conn h) = [] → c_isConnInit (hd_conn h) = true →
  nextFrame (hd_buffer h ++ received) = Ret (Some fr, rest) →
  processFrame fr (with_buffer rest h) = Ret (false, obj, h') →
  readRequest (Some r0) pending received 0 h
  = Ret (mkRead true (Some (streamIdentifier (getHeader fr)))
           (if pending =? wraps 32 (slen rest) then 0 else wraps 32 (slen rest)), h') ∧
  hd_buffer h' = rest.
Proof.
  intros Hq Hinit Hn Hp. assert (hd_buffer h' = rest) as Hb.
  { unfold processFrame in Hp. apply bind_Ret_inv in Hp as (c & _ & Hp).
    apply bind_Ret_inv in Hp as (r & _ & Hp). by injection Hp as _ _ <-. }
  split; [|done]. unfold readRequest. rewrite Hq. cbn [Z.eqb negb]. unfold init_connection.
  cbn [hd_conn with_buffer]. rewrite Hinit. cbn [mbind outcome_bind mret outcome_ret].
  rewrite (read_frames_next _ _ _ fr rest false obj h') by done. cbn zeta.
  destruct obj; cbn [mbind outcome_bind mret outcome_ret]; by rewrite Hb.
Qed.

(** ** Writing *)

Lemma charge_ok id n h :
  0 ≤ n ≤ c_senderFlowControlWindow (hd_conn h) → n ≤ s_senderFlowControlWindow (stream_at id h) →
  c_senderFlowControlWindow (hd_conn h) < 2 ^ 31 → s_senderFlowControlWindow (stream_at id h) < 2 ^ 31 →
  ∃ h', charge id n h = Ret h' ∧
    c_senderFlowControlWindow (hd_conn h') = c_senderFlowControlWindow (hd_conn h) - n ∧
    s_senderFlowControlWindow (stream_at id h') = s_senderFlowControlWindow (stream_at id h) - n.
Proof.
  intros Hn Hv Hw31 Hv31. unfold charge, checked_int, fits_int.
  replace (_ && _) with true by lia. cbn [mbind outcome_bind].
  replace (_ && _) with true by lia. cbn [mbind outcome_bind].
  eexists. split; [reflexivity|]. split; [done|].
  unfold stream_at at 1. cbn [hd_streams with_conn with_stream]. by rewrite lookup_insert_eq.
Qed.

(** The frame the peer reads for [data_frame]. *)
Definition read_data_frame (id : Z) (payload : bytes) (fl : Z) : Http2Frame :=
  DataFrame (mkData (mkHeader (slen payload) 0 fl false id) None payload []).

Lemma serialize_wire fr fr0 payload :
  getFrameData fr = getFrameData fr0 → getHeader fr = getHeader fr0 →
  sendable fr0 → getFrameData fr0 = Ret payload → slen payload < 2 ^ 24 →
  ∃ s fr', serialize fr = Ret (s, fr') ∧ payloadLength (getHeader fr') = slen payload ∧
    9 ≤ slen s < 2 ^ 25 ∧
    on_wire [fr0] s [map_header (with_payloadLength (slen payload)) fr0].
Proof.
  intros Hd Hh Hs Hp Hlen. pose proof (slen_nonneg payload).
  destruct (nextFrame_payload fr0 payload [] Hs Hp ltac:(done)) as (s & Hser & Hl & _).
  destruct (serialize_same fr0 fr s _ (eq_sym Hd) (eq_sym Hh) Hser) as [fr' Hser'].
  exists s, fr'. split; [done|]. split; [|split; [done|]].
  - unfold serialize in Hser'. rewrite Hd, Hp in Hser'. cbn [mbind outcome_bind] in Hser'.
    injection Hser' as _ <-. rewrite getHeader_map_header. cbn. by rewrite wraps_small by lia.
  - rewrite <- (app_nil_r s). econstructor; [done|exact Hser|constructor].
Qed.

Lemma data_frame_wire id payload fl :
  0 ≤ id < 2 ^ 31 → slen payload < 2 ^ 24 → fl = Some 0 ∨ fl = None →
  ∃ s fr' fr0, serialize (data_frame id payload fl) = Ret (s, fr') ∧
    payloadLength (getHeader fr') = slen payload ∧ 9 ≤ slen s < 2 ^ 25 ∧
    on_wire [fr0] s [read_data_frame id payload (if fl is Some _ then 1 else 0)].
Proof.
  intros Hid Hp Hfl. set (f := if fl is Some _ then 1 else 0).
  set (fr0 := DataFrame (mkData (mkHeader 0 0 f false id) None payload [])).
  destruct (serialize_wire (data_frame id payload fl) fr0 payload) as (s & fr' & ? & ? & ? & ?);
    [by destruct Hfl as [-> | ->]..| | by destruct Hfl as [-> | ->] | done |].
  - split; [|exists payload; by destruct Hfl as [-> | ->]].
    unfold fr0, frame_wf, header_wf, byte_ok, long_ok.
    destruct Hfl as [-> | ->]; cbn; repeat split; done || lia.
  - by exists s, fr', fr0.
Qed.

(** The HEADERS frame as [writeHttpResponse] fills it in. *)
Definition written_headers (id : Z) (block : bytes) (fin : bool) : Http2Frame :=
  HeadersFrame (mkHeaders
    (let hd := set_flag 2 (with_streamIdentifier id (hf_header Http2HeadersFrame_default)) in
     if fin then set_flag 0 hd else hd) 0 (Some false) (Some 0) (Some 0) block []).

Lemma headers_frame_wire id block (fin : bool) :
  0 ≤ id < 2 ^ 31 → slen block < 2 ^ 24 →
  ∃ s fr' fr0, serialize (written_headers id block fin) = Ret (s, fr') ∧
    9 ≤ slen s < 2 ^ 25 ∧
    on_wire [fr0] s
      [HeadersFrame (mkHeaders (mkHeader (slen block) 1 (if fin then 5 else 4) false id) 0 None None None block [])].
Proof.
  intros Hid Hb. set (f := if fin then 5 else 4).
  set (fr0 := HeadersFrame (mkHeaders (mkHeader 0 1 f false id) 0 None None None block [])).
  destruct (serialize_wire (written_headers id block fin) fr0 block) as (s & fr' & Hs & _ & Hl & Hw);
    [| | | |done| exists s, fr', fr0; split; [exact Hs|split; [exact Hl|exact Hw]] ].
  - unfold fr0, f. destruct fin; reflexivity.
  - unfold fr0, f. destruct fin; reflexivity.
  - split; [|exists block; unfold fr0, f; destruct fin; cbn; by rewrite app_nil_r].
    unfold fr0, frame_wf, header_wf, byte_ok, long_ok, padding_wf.
    destruct fin; cbn; repeat split; done || lia.
  - unfold fr0, f. destruct fin; cbn; by rewrite app_nil_r.
Qed.

Lemma on_wire_app frs s frs' gs t gs' :
  on_wire frs s frs' → on_wire gs t gs' → on_wire (frs ++ gs) (s ++ t) (frs' ++ gs').
Proof.
  induction 1 as [|fr frs s fr' t' frs' Hs Hser _ IH]; [done|]. intros Hg. rewrite <- app_assoc. cbn.
  econstructor; [done|exact Hser|by apply IH].
Qed.

(** The response [writeHttpResponse] writes: the status header set, the content
    complete. *)
Definition final_response (req : Req) (res : Res) (h : Http2Handler) : Res :=
  setStatusHeader (if isDone res then res else updateContent req (c_maxDataFrameSize (hd_conn h)) res).

(** C8: A response whose content is complete and fits both windows is read by the peer, however
    the transport cuts it, as a HEADERS frame whose block decodes to the response headers and a
    DATA frame with the content and END_STREAM; both windows are charged with the content and
    the header tables stay synchronised. This is under the conditions of the header compression:
    the tables are synchronised before; names and values are below 255 bytes and, with Huffman
    coding, strings the decoder can read (so no value of one character, such as a content length
    of one digit, which [decodeHuffman] never finishes); no two fields, of the response or the
    table, share the concatenation of name and value; at most 255 indices are used; block and
    content are below 16 MiB. A response without content ends the stream in both frames. *)
Theorem response_reaches_peer fuel req res id data h d :
  let r := final_response req res h in
  let n := slen (getContent r) in
  isContentRemains r = false → 0 ≤ id < 2 ^ 31 →
  synced (c_context (hd_conn h)) d → sorted (response_headers r) →
  Forall (field_ok (huffmanEncoding (c_context (hd_conn h)))) (response_headers r) →
  unambiguous (response_headers r ++ entries (resTable (table (c_context (hd_conn h))))) →
  currentSize (resTable (table (c_context (hd_conn h)))) + Z.of_nat (length (response_headers r)) ≤ 255 →
  (∀ block ctx, encode (c_context (hd_conn h)) (response_headers r) = Ret (block, ctx) → slen block < 2 ^ 24) →
  n < 2 ^ 24 → n ≤ c_senderFlowControlWindow (hd_conn h) < 2 ^ 31 →
  n ≤ s_senderFlowControlWindow (stream_at id h) < 2 ^ 31 →
  ∃ wire block d' h', writeHttpResponse fuel req res id data h = Ret (r, data ++ wire, h') ∧
    (∀ chunks, concat chunks = wire → receive chunks [] =
       Ret ([HeadersFrame (mkHeaders (mkHeader (slen block) 1 (if negb (hasContent r) then 5 else 4) false id)
               0 None None None block []);
             read_data_frame id (getContent r) 1], [])) ∧
    decode d block = Ret (response_headers r, d') ∧ synced (c_context (hd_conn h')) d' ∧
    c_senderFlowControlWindow (hd_conn h') = c_senderFlowControlWindow (hd_conn h) - n ∧
    s_senderFlowControlWindow (stream_at id h') = s_senderFlowControlWindow (stream_at id h) - n.
Proof.
  intros r n Hrem Hid Hsync Hsort Hf Hun Hsz Hblock Hn Hw Hv.
  destruct (encode_decode _ d (response_headers r) Hsync Hsort Hf Hun Hsz) as (block & ctx & d' & He & Hd & Hs').
  specialize (Hblock _ _ He). pose proof (slen_nonneg (getContent r)) as Hn0. fold n in Hn0.
  destruct (headers_frame_wire id block (negb (hasContent r)) Hid Hblock) as (s1 & fr1' & fr1 & Hs1 & Hl1 & Hw1).
  destruct (data_frame_wire id (getContent r) (Some 0) Hid Hn ltac:(by left))
    as (s2 & fr2' & fr2 & Hs2 & Hp2 & Hl2 & Hw2).
  set (h1 := with_conn (c_set_context ctx (hd_conn h)) h).
  destruct (charge_ok id n h1) as (h' & Hc & Hcw & Hcv);
    [split; [exact Hn0|exact (proj1 Hw)]|exact (proj1 Hv)|exact (proj2 Hw)|exact (proj2 Hv)|].
  assert (c_context (hd_conn h') = ctx) as Hctx.
  { unfold charge in Hc. apply bind_Ret_inv in Hc as (w & _ & Hc). apply bind_Ret_inv in Hc as (v & _ & Hc).
    by injection Hc as <-. }
  exists (s1 ++ s2), block, d', h'. rewrite Hctx. split; [|split; [|done]].
  - unfold writeHttpResponse. fold (final_response req res h). fold r. rewrite He.
    unfold written_headers in Hs1. cbn [mbind outcome_bind]. cbv zeta in Hs1 |- *. rewrite Hs1. cbn [mbind outcome_bind]. rewrite Hrem. cbn [negb]. fold h1.
    replace (fits (slen (getContent r)) id h1) with true.
    + unfold send_data. rewrite Hs2. cbn [mbind outcome_bind]. rewrite Hp2. fold n. rewrite Hc.
      cbn [mbind outcome_bind mret outcome_ret]. by rewrite app_assoc.
    + symmetry. unfold fits. fold n. change (stream_at id h1) with (stream_at id h).
      change (c_senderFlowControlWindow (hd_conn h1)) with (c_senderFlowControlWindow (hd_conn h)).
      rewrite wraps_small by lia. apply andb_true_intro.
      split; apply Z.leb_le; [exact (proj1 Hw)|exact (proj1 Hv)].
  - intros chunks Hchunks. eapply (receive_frames ([fr1] ++ [fr2])); [|exact Hchunks|].
    + by apply (on_wire_app [fr1] s1 [_] [fr2] s2 [_]).
    + rewrite slen_app. lia.
Qed.

Lemma serialize_slen fr s fr' payload :
  serialize fr = Ret (s, fr') → getFrameData fr = Ret payload → slen payload ≤ slen s.
Proof.
  unfold serialize. intros Hs Hp. rewrite Hp in Hs. cbn [mbind outcome_bind] in Hs. unfold mret, outcome_ret in Hs.
  apply (f_equal (λ o, match o with Ret p => slen p.1 | _ => 0 end)) in Hs.
  cbv beta iota in Hs. cbn [fst] in Hs. rewrite <- Hs, !app_assoc, slen_app.
  match goal with |- _ ≤ slen ?x + _ => pose proof (slen_nonneg x) end. lia.
Qed.

(** The smaller of the two send windows. *)
Definition window (id : Z) (h : Http2Handler) : Z :=
  Z.min (c_senderFlowControlWindow (hd_conn h)) (s_senderFlowControlWindow (stream_at id h)).

Definition windows_ok (id : Z) (h : Http2Handler) : Prop :=
  0 ≤ c_senderFlowControlWindow (hd_conn h) < 2 ^ 31 ∧ 0 ≤ s_senderFlowControlWindow (stream_at id h) < 2 ^ 31.

Lemma minreslen_window id h : windows_ok id h → minreslen id h = Ret (window id h).
Proof.
  unfold windows_ok, minreslen, window, checked_int, fits_int. intros [Hw Hv].
  replace (_ && _) with true by lia. cbn [mbind outcome_bind mret outcome_ret]. f_equal.
  destruct (Z.ltb_spec 0 (c_senderFlowControlWindow (hd_conn h) - s_senderFlowControlWindow (stream_at id h))); lia.
Qed.

Lemma substr_0_take s n : 0 ≤ n → substr s 0 n = Ret (take (Z.to_nat (Z.min n (slen s))) s).
Proof.
  intros. unfold substr. pose proof (slen_nonneg s). replace (slen s <? 0) with false by lia.
  rewrite drop_0. do 2 f_equal; lia.
Qed.

Lemma substr_npos_drop s n : 0 ≤ n ≤ slen s → slen s < npos → substr s n npos = Ret (drop (Z.to_nat n) s).
Proof.
  intros Hn Hs. unfold substr. replace (slen s <? n) with false by lia. f_equal.
  apply take_ge. rewrite length_drop. unfold slen in *. lia.
Qed.

Lemma fits_window len id h : 0 ≤ len < 2 ^ 31 → fits len id h = (len <=? window id h).
Proof. intros. unfold fits, window. rewrite wraps_small by lia. lia. Qed.

(** A frame cut to the windows. *)
Lemma send_partial_wire id content data h :
  0 ≤ id < 2 ^ 31 → windows_ok id h → window id h < slen content → window id h < 2 ^ 24 →
  ∃ s fr0, send_partial id content data h = Ret (data ++ s, window id h) ∧ 9 ≤ slen s < 2 ^ 25 ∧
    on_wire [fr0] s [read_data_frame id (take (Z.to_nat (window id h)) content) 0].
Proof.
  intros Hid Hok Hlt H24. assert (0 ≤ window id h < 2 ^ 31) as Hn
    by (unfold windows_ok, window in *; lia).
  set (part := take (Z.to_nat (window id h)) content).
  assert (slen part = window id h) as Hpart
    by (unfold part, slen in *; rewrite length_take; lia).
  destruct (data_frame_wire id part None Hid ltac:(lia) ltac:(by right)) as (s & fr' & fr0 & Hs & _ & Hl & Hw).
  exists s, fr0. split; [|done]. unfold send_partial. rewrite minreslen_window by done.
  cbn [mbind outcome_bind]. rewrite size_t_small, substr_0_take, Z.min_l by lia. fold part.
  cbn [mbind outcome_bind]. by rewrite Hs.
Qed.

(** A response whose content does not fit is cut in the wrong place: the DATA
    frame carries the beginning of the output written so far, which starts with
    the serialized HEADERS frame, and the rest of that output is kept as the
    pending data; the content is never sent. *)
Theorem oversized_response_cuts_output fuel req res id data h block ctx :
  let r := final_response req res h in
  isContentRemains r = false → 0 ≤ id < 2 ^ 31 →
  encode (c_context (hd_conn h)) (response_headers r) = Ret (block, ctx) → slen block < 2 ^ 24 →
  windows_ok id h → window id h < slen (getContent r) < 2 ^ 31 →
  window id h < slen data + slen block → slen data < 2 ^ 30 → window id h < 2 ^ 24 →
  ∃ s part fr0 h', writeHttpResponse fuel req res id data h = Ret (r, data ++ s ++ part, h') ∧
    (∃ fr1, serialize (written_headers id block (negb (hasContent r))) = Ret (s, fr1)) ∧
    on_wire [fr0] part [read_data_frame id (take (Z.to_nat (window id h)) (data ++ s)) 0] ∧
    rr_data (s_pendingSendData (stream_at id h')) = drop (Z.to_nat (window id h)) (data ++ s ++ part).
Proof.
  intros r Hrem Hid He Hblock Hok Hlen Hout Hdata H24.
  destruct (headers_frame_wire id block (negb (hasContent r)) Hid Hblock) as (s & fr1' & fr1 & Hs & Hl & Hws).
  set (h1 := with_conn (c_set_context ctx (hd_conn h)) h).
  assert (0 ≤ window id h) as Hn by (unfold windows_ok, window in *; lia).
  assert (slen block ≤ slen s) as Hbs.
  { eapply serialize_slen; [exact Hs|]. destruct (negb (hasContent r)); cbn; by rewrite app_nil_r. }
  pose proof (slen_nonneg data).
  destruct (send_partial_wire id (data ++ s) (data ++ s) h1) as (part & fr0 & Hp & Hpl & Hwp); [done|done| |done|].
  { change (window id h1) with (window id h). rewrite slen_app. lia. }
  change (window id h1) with (window id h) in Hp, Hwp.
  exists s, part, fr0. eexists. split; [|split; [by exists fr1'|split; [exact Hwp|]]].
  - unfold writeHttpResponse. fold (final_response req res h). fold r. rewrite He.
    unfold written_headers in Hs. cbn [mbind outcome_bind]. cbv zeta in Hs |- *. rewrite Hs.
    cbn [mbind outcome_bind]. rewrite Hrem. cbn [negb]. fold h1.
    rewrite fits_window by (split; [apply slen_nonneg|lia]).
    change (window id h1) with (window id h). replace (_ <=? window id h) with false by lia.
    rewrite Hp. cbn [mbind outcome_bind].
    rewrite size_t_small by lia. rewrite substr_npos_drop by (rewrite ?slen_app; unfold npos; lia).
    cbn [mbind outcome_bind mret outcome_ret]. by rewrite <- app_assoc.
  - unfold hold, stream_at at 1. cbn [hd_streams with_stream with_conn]. by rewrite lookup_insert_eq.
Qed.

Lemma pending_here (d : Http2RequestResponseData Res) : 0 < slen (rr_data d) → isDataPending d = true.
Proof. intros. unfold isDataPending. replace (0 <? _) with true by lia. by destruct (rr_isWebSocket d). Qed.

Lemma updateContent_here (d : Http2RequestResponseData Res) : 0 < slen (rr_data d) → rr_updateContent d = d.
Proof.
  intros. unfold rr_updateContent. replace (slen (rr_data d) =? 0) with false by lia.
  by destruct (rr_isWebSocket d), (rr_incompleteResponse d).
Qed.

(** What [writePendingDataFrame] does with data that is already there. *)
Lemma writePending_loop d whole n : ∀ data h,
  let id := rr_streamIdentifier d in
  let L := slen (rr_data d) in
  0 < L → L < 2 ^ 24 → 0 ≤ id < 2 ^ 31 → windows_ok id h →
  (∃ fr', serialize (data_frame id (rr_data d) (Some 0)) = Ret (whole, fr') ∧ payloadLength (getHeader fr') = L) →
  0 ≤ window id h - Z.of_nat n * L < L →
  ∃ part fr0 h', writePendingDataFrame (S n) d data h
    = Ret (rr_set_data (drop (Z.to_nat (window id h - Z.of_nat n * L)) (rr_data d)) d,
           data ++ concat (replicate n whole) ++ part, h') ∧
    on_wire [fr0] part [read_data_frame id (take (Z.to_nat (window id h - Z.of_nat n * L)) (rr_data d)) 0] ∧
    c_senderFlowControlWindow (hd_conn h') = c_senderFlowControlWindow (hd_conn h) - Z.of_nat n * L ∧
    s_senderFlowControlWindow (stream_at id h') = s_senderFlowControlWindow (stream_at id h) - Z.of_nat n * L.
Proof.
  induction n as [|n IH]; intros data h id L HL HL24 Hid Hok Hwhole Hn.
  - rewrite Z.sub_0_r in *. cbn [writePendingDataFrame].
    destruct (send_partial_wire id (rr_data d) data h Hid Hok ltac:(lia) ltac:(lia)) as (part & fr0 & Hp & Hl & Hw).
    exists part, fr0, h. split; [|split; [exact Hw|split; lia] ].
    rewrite pending_here, updateContent_here by done. fold id.
    rewrite fits_window by (fold L; lia). fold L. replace (L <=? window id h) with false by lia.
    rewrite Hp. cbn [mbind outcome_bind]. rewrite size_t_small by lia.
    rewrite substr_npos_drop by (fold L; unfold npos; lia). done.
  - assert (L ≤ window id h) as HLw by nia. unfold windows_ok, window in Hok, HLw.
    destruct (charge_ok id L h) as (h1 & Hc & Hcw & Hcv); [lia..|].
    assert (window id h1 = window id h - L) as Hwin by (unfold window; lia).
    destruct Hwhole as (fr' & Hser & Hpl).
    destruct (IH (data ++ whole) h1) as (part & fr0 & h' & Hrun & Hpart & Hw & Hv);
      [done|done|done|fold id; unfold windows_ok; lia|by exists fr'|fold id L; lia|].
    fold id L in Hrun, Hpart, Hw, Hv. rewrite Hwin in Hrun, Hpart.
    replace (window id h - L - Z.of_nat n * L) with (window id h - Z.of_nat (S n) * L) in Hrun, Hpart by lia.
    exists part, fr0, h'. split; [|split; [exact Hpart|split; lia] ].
    remember (S n) as n1 eqn:En in Hrun |- *. cbn [writePendingDataFrame]. rewrite pending_here, updateContent_here by done. fold id.
    rewrite fits_window by (fold L; lia). fold L. replace (L <=? window id h) with true by (unfold window; lia).
    unfold send_data. rewrite Hser. cbn [mbind outcome_bind]. rewrite Hpl, Hc.
    cbn [mbind outcome_bind mret outcome_ret]. rewrite Hrun, En. cbn [replicate concat]. by rewrite <- !app_assoc.
Qed.

(** Pending data is never consumed by the frames that carry it whole: as long
    as it fits the windows the same data is sent again, each time with
    END_STREAM, and what does not fit any more goes out as a frame that is cut
    short and not charged to the windows; only that part is taken off the
    pending data. *)
Theorem pending_data_is_resent d data h :
  let id := rr_streamIdentifier d in
  let L := slen (rr_data d) in
  let n := Z.to_nat (window id h / L) in
  let k := Z.to_nat (window id h mod L) in
  0 < L → L < 2 ^ 24 → 0 ≤ id < 2 ^ 31 → windows_ok id h →
  ∃ whole part fr0 fr1 h',
    writePendingDataFrame (S n) d data h
    = Ret (rr_set_data (drop k (rr_data d)) d, data ++ concat (replicate n whole) ++ part, h') ∧
    on_wire [fr0] whole [read_data_frame id (rr_data d) 1] ∧
    on_wire [fr1] part [read_data_frame id (take k (rr_data d)) 0] ∧
    c_senderFlowControlWindow (hd_conn h') = c_senderFlowControlWindow (hd_conn h) - Z.of_nat n * L.
Proof.
  intros id L n k HL HL24 Hid Hok.
  destruct (data_frame_wire id (rr_data d) (Some 0) Hid HL24 ltac:(by left)) as (whole & fr' & fr0 & Hs & Hpl & _ & Hw).
  assert (0 ≤ window id h) as Hnn by (unfold windows_ok, window in *; lia).
  pose proof (Z.div_mod (window id h) L ltac:(lia)) as Hdm.
  pose proof (Z.mod_pos_bound (window id h) L HL) as Hmod.
  pose proof (Z.div_pos (window id h) L Hnn HL) as Hdiv.
  assert (window id h - Z.of_nat n * L = window id h mod L) as Hk by (unfold n; rewrite Z2Nat.id by lia; lia).
  destruct (writePending_loop d whole n data h HL HL24 Hid Hok) as (part & fr1 & h' & Hrun & Hpart & Hcw & _);
    [by exists fr'|fold id L; lia|].
  fold id L in Hrun, Hpart, Hcw. rewrite Hk in Hrun, Hpart. fold k in Hrun, Hpart.
  by exists whole, part, fr0, fr1, h'.
Qed.

End handler.

Arguments Http2Handler : clear implicits.

(** ** Concrete runs *)

(** A response that holds its headers and its whole content. *)
Record KeptResponse := mkKeptResponse {
  ks_headers : headers;
  ks_content : bytes
}.
#[export] Instance KeptResponse_ops : HttpResponseOps KeptRequest KeptResponse := {|
  isDone _ := true;
  updateContent _ _ res := res;
  setStatusHeader res := mkKeptResponse (mset (str ":status") (str "200") (ks_headers res)) (ks_content res);
  response_headers := ks_headers;
  hasContent res := negb (bool_decide (ks_content res = []));
  isContentRemains _ := false;
  getContent := ks_content;
  getRemainingContent _ _ rem res := (false, rem, res)
|}.

Definition sample_handler : Http2Handler KeptRequest KeptResponse :=
  with_stream 3 (mkStream Open 3 (Some (mkKept [] [])) [] true false Http2RequestResponseData_default (-1) false
    12 20) (Http2Handler_new (str "/web/")).

Definition sample_answer : KeptResponse :=
  mkKeptResponse [(str "content-type", str "text/html")] (str "hello").

(** A connection whose first bytes were read. *)
Definition initialised_handler : Http2Handler KeptRequest KeptResponse :=
  with_conn (set_init ∅ (hd_conn sample_handler)) sample_handler.

Definition wire_ping : bytes := [0; 0; 8; 6; 0; 0; 0; 0; 0; 0; 0; 0; 0; 0; 0; 1; 2].

(** A new connection after an empty DATA frame on stream 7, and an initialised one
    after a PING. *)
Definition after_data : Http2Handler KeptRequest KeptResponse :=
  match processFrame no_mime (DataFrame (mkData (mkHeader 0 0 1 false 7) None [] [])) (Http2Handler_new (str "/web/"))
  with Ret (_, _, h) => h | _ => sample_handler end.
Definition after_ping : Http2Handler KeptRequest KeptResponse :=
  match processFrame no_mime (PingFrame (mkPing (mkHeader 8 6 0 false 0) 258))
          (with_buffer wire_ping initialised_handler)
  with Ret (_, _, h) => h | _ => sample_handler end.

Example reachable_streams_ok_witness :
  match hd_streams after_data !! 7 with Some s => stream_ok 7 s | None => False end.
Proof.
  destruct (hd_streams after_data !! 7) as [s|] eqn:Hs.
  - apply (reachable_streams_ok no_mime (str "/web/") after_data 7 s); [|exact Hs].
    apply rtc_once.
    apply (frame_step_intro no_mime (DataFrame (mkData (mkHeader 0 0 1 false 7) None [] [])) true None).
    vm_cast_no_check (@eq_refl (outcome (bool * option (RequestObj KeptRequest) * Http2Handler KeptRequest KeptResponse))
      (Ret (true, None, after_data))).
  - vm_compute in Hs. discriminate Hs.
Defined.

Example readRequest_gives_up_on_data_witness :
  readRequest no_mime None 0 [1; 2; 3] 1 sample_handler
  = Ret (mkRead false None 0, with_buffer [1; 2; 3] sample_handler).
Proof. apply (readRequest_gives_up_on_data no_mime None 0 [1; 2; 3] 1 sample_handler); [lia|reflexivity]. Defined.

Example readRequest_reports_every_frame_witness :
  readRequest no_mime (Some (HttpObj (mkKept [] []))) 0 (wire_ping ++ wire_ping) 0 initialised_handler
  = Ret (mkRead true (Some 0) 17, after_ping) ∧ hd_buffer after_ping = wire_ping.
Proof.
  apply (readRequest_reports_every_frame no_mime (HttpObj (mkKept [] [])) 0 (wire_ping ++ wire_ping)
    initialised_handler (PingFrame (mkPing (mkHeader 8 6 0 false 0) 258)) wire_ping None after_ping);
    [reflexivity|reflexivity|reflexivity|].
  vm_cast_no_check (@eq_refl (outcome (bool * option (RequestObj KeptRequest) * Http2Handler KeptRequest KeptResponse))
    (Ret (false, None, after_ping))).
Defined.

Example response_reaches_peer_witness :
  let h := sample_handler in
  let r := final_response (mkKept [] []) sample_answer h in
  ∃ wire block d' h', writeHttpResponse 1 (mkKept [] []) sample_answer 3 [] h = Ret (r, [] ++ wire, h') ∧
    (∀ chunks, concat chunks = wire → receive chunks [] =
      Ret ([HeadersFrame (mkHeaders (mkHeader (slen block) 1 (if negb (hasContent r) then 5 else 4) false 3)
              0 None None None block []);
            read_data_frame 3 (getContent r) 1], [])) ∧
    decode Http2HPACKContext_new block = Ret (response_headers r, d') ∧
    synced (c_context (hd_conn h')) d' ∧
    c_senderFlowControlWindow (hd_conn h') = c_senderFlowControlWindow (hd_conn h) - slen (getContent r) ∧
    s_senderFlowControlWindow (stream_at 3 h') = s_senderFlowControlWindow (stream_at 3 h) - slen (getContent r).
Proof.
  apply (response_reaches_peer 1 (mkKept [] []) sample_answer 3 [] sample_handler Http2HPACKContext_new).
  - reflexivity.
  - lia.
  - apply synced_new.
  - repeat split; repeat constructor.
  - apply (bool_decide_eq_true_1 _). vm_compute. reflexivity.
  - apply unambiguous_test_ok. vm_compute. reflexivity.
  - vm_compute. congruence.
  - intros block ctx He. apply Z.ltb_lt.
    change ((match Ret (block, ctx) with Ret (b, _) => slen b <? 2 ^ 24 | _ => true end) = true).
    rewrite <- He. vm_compute. reflexivity.
  - reflexivity.
  - vm_compute. split; [discriminate|reflexivity].
  - vm_compute. split; [discriminate|reflexivity].
Defined.

Example oversized_response_cuts_output_witness :
  let h := sample_handler in
  let res := mkKeptResponse [] (str "fourteen bytes") in
  let r := final_response (mkKept [] []) res h in
  let data := str "previous output" in
  windows_ok 3 h ∧
  ∃ s part fr0 h', writeHttpResponse 1 (mkKept [] []) res 3 data h = Ret (r, data ++ s ++ part, h') ∧
    (∃ fr1, serialize (written_headers 3 [136] (negb (hasContent r))) = Ret (s, fr1)) ∧
    on_wire [fr0] part [read_data_frame 3 (take (Z.to_nat (window 3 h)) (data ++ s)) 0] ∧
    rr_data (s_pendingSendData (stream_at 3 h')) = drop (Z.to_nat (window 3 h)) (data ++ s ++ part).
Proof.
  intros h res r data. assert (windows_ok 3 sample_handler) as Hok by (repeat split; vm_compute; congruence).
  split; [exact Hok|].
  apply (oversized_response_cuts_output 1 (mkKept [] []) res 3 data sample_handler [136]
    (c_context (hd_conn sample_handler))); [reflexivity|lia|
    vm_cast_no_check (@eq_refl (outcome (bytes * Http2HPACKContext)) (Ret ([136], c_context (hd_conn sample_handler))))
    |reflexivity|exact Hok|..];
    vm_compute; try split; congruence.
Defined.

Example pending_data_is_resent_witness :
  let h := sample_handler in
  let d := rr_set_data (str "hello") (mkRRData [] [] [] [] false None [] 3 false) in
  let n := Z.to_nat (window 3 h / slen (rr_data d)) in
  let k := Z.to_nat (window 3 h mod slen (rr_data d)) in
  (n, k) = (2, 2)%nat ∧
  ∃ whole part fr0 fr1 h',
    writePendingDataFrame (S n) d [] h
    = Ret (rr_set_data (drop k (rr_data d)) d, [] ++ concat (replicate n whole) ++ part, h') ∧
    on_wire [fr0] whole [read_data_frame 3 (rr_data d) 1] ∧
    on_wire [fr1] part [read_data_frame 3 (take k (rr_data d)) 0] ∧
    c_senderFlowControlWindow (hd_conn h')
    = c_senderFlowControlWindow (hd_conn h) - Z.of_nat n * slen (rr_data d).
Proof.
  intros h d n k. split; [vm_compute; reflexivity|].
  apply (pending_data_is_resent d [] sample_handler); [reflexivity|reflexivity|split; [discriminate|reflexivity] |].
  repeat split; vm_compute; congruence.
Defined.
