(* ===== verification/WebSocket.v ===== *)
(** * WebSocket

    The websocket side of the server: the frames of
    [Http11WebSocketDataFrame.cpp] and the connection of
    [Http11WebSocketHandler.cpp], which reassembles messages from frames.

    The socket's read buffer and its closing are part of the state; the answer to
    a ping is built but, as in the code, not sent. *)

From S2P Require Import Prelude ByteCodec StdMap.

(** ** Data *)

Record WebSocketData := mkWsData {
  textData : bytes;
  binaryData : bytes
}.

Definition hasData (d : WebSocketData) : bool := (0 <? slen (textData d)) || (0 <? slen (binaryData d)).
Definition collectText (s : bytes) (d : WebSocketData) : WebSocketData := mkWsData (textData d ++ s) (binaryData d).
Definition collectBinary (s : bytes) (d : WebSocketData) : WebSocketData := mkWsData (textData d) (binaryData d ++ s).

(** [WebSocketRespponseData], the list [more]. *)
Definition pushText (s : bytes) (more : list WebSocketData) : list WebSocketData := more ++ [mkWsData s []].
Definition pushBinary (s : bytes) (more : list WebSocketData) : list WebSocketData := more ++ [mkWsData [] s].

Record Http11WebSocketDataFrame := mkWsFrame {
  fin : bool;
  rsv1 : bool;
  rsv2 : bool;
  rsv3 : bool;
  opcode : Z;                  (* short *)
  mask : bool;
  payloadLength : Z;           (* uint8_t *)
  extendedPayloadLength : Z;   (* uint64_t *)
  maskingKey : Z;              (* uint32_t *)
  extensionData : bytes;
  applicationData : bytes
}.

Definition Http11WebSocketDataFrame_new : Http11WebSocketDataFrame :=
  mkWsFrame false false false false 0 false 0 0 0 [] [].

Definition getPayloadData (f : Http11WebSocketDataFrame) : bytes :=
  if slen (extensionData f) =? 0 then applicationData f else extensionData f ++ applicationData f.

Definition with_data (d : bytes) (f : Http11WebSocketDataFrame) : Http11WebSocketDataFrame :=
  mkWsFrame (fin f) (rsv1 f) (rsv2 f) (rsv3 f) (opcode f) (mask f) (payloadLength f)
    (extendedPayloadLength f) (maskingKey f) (extensionData f) d.

(** [std::bitset<8>::to_ulong], the bits from 7 down to 0. *)
Definition bits_ulong (l : list bool) : Z := foldl (λ t b, 2 * t + Z.b2z b) 0 l.

(** [getFrameData]: a masked frame keeps its data masked. *)
Definition getFrameData (f : Http11WebSocketDataFrame) (finaldata : bytes) : bytes * Http11WebSocketDataFrame :=
  let first := bits_ulong [fin f; rsv1 f; rsv2 f; rsv3 f; Z.testbit (opcode f) 3; Z.testbit (opcode f) 2;
                           Z.testbit (opcode f) 1; Z.testbit (opcode f) 0] in
  let second := bits_ulong (mask f :: map (Z.testbit (payloadLength f)) [6; 5; 4; 3; 2; 1; 0]) in
  let ext := if payloadLength f =? 126 then ulonglongTocharArray (extendedPayloadLength f) 2
             else if payloadLength f =? 127 then ulonglongTocharArray (extendedPayloadLength f) 8 else [] in
  let key := if mask f then ulonglongTocharArray (maskingKey f) 4 else [] in
  let f := if mask f then with_data (xorEncryptDecrypt (applicationData f) (maskingKey f)) f else f in
  (finaldata ++ [first] ++ [second] ++ ext ++ key ++ applicationData f, f).

(** The three length encodings of [getFramePdu] and [writeResponse]; [len] is the
    length as an [int]. *)
Definition with_length (len : Z) (f : Http11WebSocketDataFrame) : Http11WebSocketDataFrame :=
  let put p e := mkWsFrame (fin f) (rsv1 f) (rsv2 f) (rsv3 f) (opcode f) (mask f) p e (maskingKey f)
                   (extensionData f) (applicationData f) in
  if len <=? 125 then put (wrapu 8 len) 0
  else if len <? 65535 then put 126 (wrapu 64 len)
  else put 127 (wrapu 64 len).

Definition with_opcode (o : Z) (f : Http11WebSocketDataFrame) : Http11WebSocketDataFrame :=
  mkWsFrame (fin f) (rsv1 f) (rsv2 f) (rsv3 f) o (mask f) (payloadLength f)
    (extendedPayloadLength f) (maskingKey f) (extensionData f) (applicationData f).

Definition final_frame : Http11WebSocketDataFrame :=
  mkWsFrame true false false false 0 false 0 0 0 [] [].

(** [getFramePdu]: the opcode of the last frame written, and the output. *)
Definition getFramePdu (wres : WebSocketData) (data : bytes) (copyData : bool) : Z * bytes :=
  let frame := final_frame in
  let '(frame, data) :=
    if 0 <? slen (textData wres) then
      let '(data, frame) := getFrameData (with_length (wraps 32 (slen (textData wres))) (with_opcode 1 frame)) data in
      (frame, if negb copyData then data ++ textData wres else data)
    else (frame, data) in
  let '(frame, data) :=
    if 0 <? slen (binaryData wres) then
      let '(data, frame) := getFrameData (with_length (wraps 32 (slen (binaryData wres))) (with_opcode 2 frame)) data in
      (frame, if negb copyData then data ++ binaryData wres else data)
    else (frame, data) in
  (opcode frame, data).

(** ** The connection *)

Record Http11WebSocketHandler := mkWsHandler {
  buffer : bytes;
  dataframes : list (Z * bytes);
  dataframesComplete : list (Z * bool);
  lastOpCode : Z;              (* short *)
  closed : bool
}.

Definition Http11WebSocketHandler_new : Http11WebSocketHandler := mkWsHandler [] [] [] (-1) false.

Definition set_buffer (b : bytes) (h : Http11WebSocketHandler) : Http11WebSocketHandler :=
  mkWsHandler b (dataframes h) (dataframesComplete h) (lastOpCode h) (closed h).
Definition set_lastOpCode (o : Z) (h : Http11WebSocketHandler) : Http11WebSocketHandler :=
  mkWsHandler (buffer h) (dataframes h) (dataframesComplete h) o (closed h).
Definition set_frames (d : list (Z * bytes)) (c : list (Z * bool)) (h : Http11WebSocketHandler)
    : Http11WebSocketHandler :=
  mkWsHandler (buffer h) d c (lastOpCode h) (closed h).

(** [replyPong]: the frame is made and dropped. *)
Definition replyPong : bytes := (getFrameData (with_opcode 10 final_frame) []).1.

(** The length of the next frame: whether it can be told, the extended length, the
    length and where the header goes on. *)
Definition read_length (b : bytes) (plen ext : Z) : outcome (bool * Z * Z * Z) :=
  if (4 <? slen b) && (plen =? 126) then
    x ← substr b 2 2; mret (true, charArrayToULongLong x, charArrayToULongLong x, 4)
  else if (10 <? slen b) && (plen =? 127) then
    x ← substr b 2 8; mret (true, charArrayToULongLong x, charArrayToULongLong x, 10)
  else mret (negb (125 <? plen), ext, plen, 2).

(** [nextFrame]: the length arithmetic is on [unsigned long long]. *)
Definition nextFrame (frame : Http11WebSocketDataFrame) (h : Http11WebSocketHandler)
    : outcome (bool * Http11WebSocketDataFrame * Http11WebSocketHandler) :=
  let b := buffer h in
  if 2 <=? slen b then
    f ← at_ b 0;
    s ← at_ b 1;
    let op := Z.land f 15 in
    let h := if negb (lastOpCode h =? op) && negb (op =? 0) then set_lastOpCode op h else h in
    let msk := Z.testbit s 7 in
    let plen := Z.land s 127 in
    let put ext key data :=
      mkWsFrame (Z.testbit f 7) (Z.testbit f 6) (Z.testbit f 5) (Z.testbit f 4) op msk plen ext key
        (extensionData frame) data in
    '(known, ext, dataLength, count) ← read_length b plen (extendedPayloadLength frame);
    if (known : bool)
       && (msk && (wrapu 64 (dataLength + 4 + count) <=? slen b) || (wrapu 64 (dataLength + count) <=? slen b)) then
      '(key, count) ←
        (if msk then x ← substr b count 4; mret (charArrayToULongLong x, count + 4) else mret (0, count));
      data ← substr b count dataLength;
      let data := if msk then xorEncryptDecrypt data key else data in
      rest ← substr b (wrapu 64 (count + dataLength)) npos;
      mret (true, put ext key data, set_buffer rest h)
    else mret (false, put ext 0 [], h)
  else mret (false, frame, h).

(** [m[k]] as a value, and the loop [m[k].push_back(data.at(u))]: no byte, no
    entry. *)
Definition mget_bytes (k : Z) (m : list (Z * bytes)) : bytes := match mfind k m with Some s => s | None => [] end.
Definition collect (k : Z) (data : bytes) (m : list (Z * bytes)) : list (Z * bytes) :=
  foldl (λ m b, mset k (mget_bytes k m ++ [b]) m) m data.

(** The search of [processFrame] for a complete message; reading
    [dataframesComplete[k]] creates the entry. *)
Fixpoint find_complete (frames : list (Z * bytes)) (complete : list (Z * bool)) : option Z * list (Z * bool) :=
  match frames with
  | [] => (None, complete)
  | (k, _) :: frames' =>
      let complete := minsert k false complete in
      if bool_decide (mfind k complete = Some true) then (Some k, complete)
      else find_complete frames' complete
  end.

(** The end of [processFrame], reached by data frames only. *)
Definition deliver (frame : Http11WebSocketDataFrame) (request : WebSocketData) (isReq : bool)
    (h : Http11WebSocketHandler) : bool * WebSocketData * Http11WebSocketHandler :=
  let '(found, complete) := find_complete (dataframes h) (dataframesComplete h) in
  match found with
  | Some k =>
      let message := mget_bytes k (dataframes h) in
      let request := if opcode frame =? 1 then mkWsData message (binaryData request)
                     else mkWsData (textData request) message in
      (true, request, set_frames (mset k [] (dataframes h)) (mset k false complete) h)
  | None => (isReq, request, set_frames (dataframes h) complete h)
  end.

(** [processFrame]: whether to close, [isReq], the request and the connection. *)
Definition processFrame (frame : Http11WebSocketDataFrame) (request : WebSocketData) (isReq : bool)
    (h : Http11WebSocketHandler) : bool * bool * WebSocketData * Http11WebSocketHandler :=
  let data k :=
    let h := set_frames (collect k (applicationData frame) (dataframes h))
               (mset k (fin frame) (dataframesComplete h)) h in
    let '(isReq, request, h) := deliver frame request isReq h in (false, isReq, request, h) in
  if opcode frame =? 8 then (true, isReq, request, h)
  else if opcode frame =? 9 then let _ := replyPong in (false, isReq, request, h)
  else if opcode frame =? 10 then (false, isReq, request, h)
  else if opcode frame =? 0 then data (lastOpCode h)
  else if (opcode frame =? 1) || (opcode frame =? 2) then data (opcode frame)
  else (false, isReq, request, h).

(** The loop of [readRequest]. *)
Fixpoint read_loop (fuel : nat) (frame : Http11WebSocketDataFrame) (request : WebSocketData)
    (h : Http11WebSocketHandler) : outcome (bool * WebSocketData * Http11WebSocketHandler) :=
  match fuel with
  | O => Out_of_fuel
  | S fuel' =>
      '(got, frame, h) ← nextFrame frame h;
      if (got : bool) then
        let '(close, fl, request, h) := processFrame frame request false h in
        if (close : bool) then
          mret (fl, request,
            mkWsHandler (buffer h) (dataframes h) (dataframesComplete h) (lastOpCode h) true)
        else if (fl : bool) then mret (fl, request, h)
        else read_loop fuel' frame request h
      else mret (false, request, h)
  end.

(** [readRequest]: whether a message was read, [pending], the message, the
    connection. *)
Definition readRequest (fuel : nat) (request : WebSocketData) (h : Http11WebSocketHandler)
    : outcome (bool * Z * WebSocketData * Http11WebSocketHandler) :=
  '(fl, request, h) ← read_loop fuel Http11WebSocketDataFrame_new request h;
  mret (fl, wraps 32 (slen (buffer h)), request, h).

(** [writeResponse]: the same frames as [getFramePdu]. *)
Definition writeResponse (wsdata : WebSocketData) (data : bytes) : bool * bytes :=
  let frame := final_frame in
  let '(frame, data) :=
    if 0 <? slen (textData wsdata) then
      let '(data, frame) :=
        getFrameData (with_length (wraps 32 (slen (textData wsdata))) (with_opcode 1 frame)) data in
      (frame, data ++ textData wsdata)
    else (frame, data) in
  let data :=
    if 0 <? slen (binaryData wsdata) then
      (getFrameData (with_length (wraps 32 (slen (binaryData wsdata))) (with_opcode 2 frame)) data).1
        ++ binaryData wsdata
    else data in
  (true, data).

(** ** Frames on the wire *)

(** A frame that can be sent: a four-bit opcode, a length that says what the data
    is, and no data left over from an extension. *)
Definition frame_ok (f : Http11WebSocketDataFrame) : Prop :=
  let n := slen (applicationData f) in
  0 ≤ opcode f < 16 ∧ n < 2 ^ 62 ∧ extensionData f = [] ∧
  0 ≤ maskingKey f < 2 ^ 32 ∧ (mask f = false → maskingKey f = 0) ∧
  (payloadLength f = n ∧ n ≤ 125 ∧ extendedPayloadLength f = 0 ∨
   payloadLength f = 126 ∧ 125 < n < 2 ^ 16 ∧ extendedPayloadLength f = n ∨
   payloadLength f = 127 ∧ 125 < n ∧ extendedPayloadLength f = n).

Definition first_byte (f : Http11WebSocketDataFrame) : Z :=
  bits_ulong [fin f; rsv1 f; rsv2 f; rsv3 f; Z.testbit (opcode f) 3; Z.testbit (opcode f) 2;
              Z.testbit (opcode f) 1; Z.testbit (opcode f) 0].
Definition second_byte (f : Http11WebSocketDataFrame) : Z :=
  bits_ulong (mask f :: map (Z.testbit (payloadLength f)) [6; 5; 4; 3; 2; 1; 0]).
Definition length_bytes (f : Http11WebSocketDataFrame) : bytes :=
  if payloadLength f =? 126 then be_bytes 2 (slen (applicationData f))
  else if payloadLength f =? 127 then be_bytes 8 (slen (applicationData f)) else [].
Definition key_bytes (f : Http11WebSocketDataFrame) : bytes :=
  if mask f then be_bytes 4 (maskingKey f) else [].
Definition masked_data (f : Http11WebSocketDataFrame) : bytes :=
  if mask f then xorEncryptDecrypt (applicationData f) (maskingKey f) else applicationData f.

Lemma first_byte_bits f :
  0 ≤ opcode f < 16 →
  Z.testbit (first_byte f) 7 = fin f ∧ Z.testbit (first_byte f) 6 = rsv1 f ∧
  Z.testbit (first_byte f) 5 = rsv2 f ∧ Z.testbit (first_byte f) 4 = rsv3 f ∧
  Z.land (first_byte f) 15 = opcode f.
Proof.
  intros Ho. unfold first_byte. set (byte a b c d o := bits_ulong [a; b; c; d; Z.testbit o 3; Z.testbit o 2; Z.testbit o 1; Z.testbit o 0]).
  assert (∀ a b c d, forallb (λ o, Z.land (byte a b c d o) 15 =? o) (seqZ 0 16)
    && forallb (λ o, eqb (Z.testbit (byte a b c d o) 7) a && eqb (Z.testbit (byte a b c d o) 6) b
         && eqb (Z.testbit (byte a b c d o) 5) c && eqb (Z.testbit (byte a b c d o) 4) d) (seqZ 0 16) = true) as H
    by (intros [] [] [] []; vm_compute; reflexivity).
  specialize (H (fin f) (rsv1 f) (rsv2 f) (rsv3 f)). apply andb_true_iff in H as [H1 H2].
  apply (forall_range _ 0 _ H1) in Ho as Ho1. apply (forall_range _ 0 _ H2) in Ho. cbv beta in Ho, Ho1.
  rewrite !andb_true_iff, !eqb_true_iff in Ho. apply Z.eqb_eq in Ho1. tauto.
Qed.

Lemma second_byte_bits f :
  0 ≤ payloadLength f < 128 →
  Z.testbit (second_byte f) 7 = mask f ∧ Z.land (second_byte f) 127 = payloadLength f.
Proof.
  intros Hp. unfold second_byte. set (byte a p := bits_ulong (a :: map (Z.testbit p) [6; 5; 4; 3; 2; 1; 0])).
  assert (∀ a, forallb (λ p, eqb (Z.testbit (byte a p) 7) a && (Z.land (byte a p) 127 =? p)) (seqZ 0 128) = true) as H
    by (intros []; vm_compute; reflexivity).
  apply (forall_range _ 0 _ (H (mask f))) in Hp. cbv beta in Hp.
  rewrite andb_true_iff, eqb_true_iff, Z.eqb_eq in Hp. exact Hp.
Qed.

Lemma frame_ok_payloadLength f : frame_ok f → 0 ≤ payloadLength f < 128.
Proof. unfold frame_ok. pose proof (slen_nonneg (applicationData f)). lia. Qed.

(** [getFrameData] writes the header, the length, the key and the data. *)
Lemma getFrameData_bytes f out :
  frame_ok f →
  (getFrameData f out).1 = out ++ [first_byte f; second_byte f] ++ length_bytes f ++ key_bytes f ++ masked_data f.
Proof.
  intros (_ & Hn & _ & Hkey & _ & Hlen). pose proof (slen_nonneg (applicationData f)).
  assert (length_bytes f = if payloadLength f =? 126 then ulonglongTocharArray (extendedPayloadLength f) 2
             else if payloadLength f =? 127 then ulonglongTocharArray (extendedPayloadLength f) 8 else []) as ->.
  { unfold length_bytes. destruct Hlen as [(-> & ? & _)|[(-> & ? & ->)|(-> & ? & ->)]].
    - by replace (_ =? 126) with false by lia; replace (_ =? 127) with false by lia.
    - symmetry. apply (ulonglongTocharArray_be_bytes 2); [lia|]. change (256 ^ Z.of_nat 2) with (2 ^ 16). lia.
    - symmetry. apply (ulonglongTocharArray_be_bytes 8); [lia|]. change (256 ^ Z.of_nat 8) with (2 ^ 64). lia. }
  assert (key_bytes f = if mask f then ulonglongTocharArray (maskingKey f) 4 else []) as ->.
  { unfold key_bytes. destruct (mask f); [|done]. symmetry. apply (ulonglongTocharArray_be_bytes 4); [lia|].
    change (256 ^ Z.of_nat 4) with (2 ^ 32). lia. }
  unfold getFrameData, masked_data. fold (first_byte f) (second_byte f). by destruct (mask f).
Qed.

Lemma masked_data_slen f : slen (masked_data f) = slen (applicationData f).
Proof. unfold masked_data. destruct (mask f); [apply xorEncryptDecrypt_slen|done]. Qed.

(** The length of a frame's own encoding is read back, also when only the
    beginning of the data has arrived. *)
Lemma read_length_ok f ext tail :
  frame_ok f → (125 < payloadLength f → tail ≠ []) →
  ∃ e, read_length ([first_byte f; second_byte f] ++ length_bytes f ++ tail) (payloadLength f) ext
       = Ret (true, e, slen (applicationData f), 2 + slen (length_bytes f)) ∧
       e = if payloadLength f <=? 125 then ext else extendedPayloadLength f.
Proof.
  intros (_ & Hn & _ & _ & _ & Hlen) Htail. pose proof (slen_nonneg (applicationData f)) as H0.
  eexists. split; [|reflexivity]. unfold read_length, length_bytes.
  assert (125 < payloadLength f → 1 ≤ slen tail) as Ht
    by (intros H; destruct tail; [by destruct (Htail H)|]; rewrite slen_cons; pose proof (slen_nonneg tail); lia).
  assert (∀ n, slen ([first_byte f; second_byte f] ++ be_bytes n (slen (applicationData f)) ++ tail)
    = 2 + Z.of_nat n + slen tail) as El by (intros; rewrite !slen_app, be_bytes_slen; apply Z.add_assoc).
  destruct Hlen as [(-> & ? & _)|[(E & ? & ->)|(E & ? & ->)]].
  - replace (_ =? 126) with false by lia. replace (_ =? 127) with false by lia. rewrite !andb_false_r.
    replace (125 <? slen (applicationData f)) with false by lia.
    by replace (slen (applicationData f) <=? 125) with true by lia.
  - rewrite E in *. specialize (Ht eq_refl). cbn [Z.eqb Pos.eqb Z.leb Z.compare Pos.compare Pos.compare_cont].
    rewrite El. replace (4 <? 2 + Z.of_nat 2 + slen tail) with true by (symmetry; apply Z.ltb_lt; clear - Ht; lia).
    cbn [andb].
    rewrite (substr_app_mid [_; _] (be_bytes 2 _) tail 2 2) by (done || by rewrite be_bytes_slen).
    cbn [mbind outcome_bind]. rewrite charArrayToULongLong_be_bytes, be_bytes_slen by lia.
    change (256 ^ Z.of_nat 2) with (2 ^ 16). by rewrite Z.mod_small by lia.
  - rewrite E in *. specialize (Ht eq_refl). cbn [Z.eqb Pos.eqb Z.leb Z.compare Pos.compare Pos.compare_cont].
    rewrite andb_false_r.
    rewrite El. replace (10 <? 2 + Z.of_nat 8 + slen tail) with true by (symmetry; apply Z.ltb_lt; clear - Ht; lia).
    cbn [andb].
    rewrite (substr_app_mid [_; _] (be_bytes 8 _) tail 2 8) by (done || by rewrite be_bytes_slen).
    cbn [mbind outcome_bind]. rewrite charArrayToULongLong_be_bytes, be_bytes_slen by lia.
    change (256 ^ Z.of_nat 8) with (2 ^ 64). by rewrite Z.mod_small by lia.
Qed.

(** The connection after the header of a frame with opcode [o]. *)
Definition note_opcode (o : Z) (h : Http11WebSocketHandler) : Http11WebSocketHandler :=
  if negb (lastOpCode h =? o) && negb (o =? 0) then set_lastOpCode o h else h.

(** The frame as the reader reconstructs it. *)
Definition frame_of (fr f : Http11WebSocketDataFrame) (key : Z) (data : bytes) : Http11WebSocketDataFrame :=
  mkWsFrame (fin f) (rsv1 f) (rsv2 f) (rsv3 f) (opcode f) (mask f) (payloadLength f)
    (if payloadLength f <=? 125 then extendedPayloadLength fr else extendedPayloadLength f)
    key (extensionData fr) data.
Definition frame_read (fr f : Http11WebSocketDataFrame) : Http11WebSocketDataFrame :=
  frame_of fr f (maskingKey f) (applicationData f).

Lemma length_bytes_slen f : 0 ≤ slen (length_bytes f) ≤ 8.
Proof. unfold length_bytes. do 2 (case_match; [by rewrite be_bytes_slen|]). done. Qed.
Lemma key_bytes_slen f : slen (key_bytes f) = if mask f then 4 else 0.
Proof. unfold key_bytes. case_match; [apply be_bytes_slen|done]. Qed.

(** What [nextFrame] does once the header and the length of a frame are there. *)
Lemma nextFrame_header fr f body h :
  frame_ok f → (125 < payloadLength f → body ≠ []) → slen body < 2 ^ 62 →
  buffer h = [first_byte f; second_byte f] ++ length_bytes f ++ body →
  ∃ fr', nextFrame fr h
  = (let b := buffer h in
     let n := slen (applicationData f) in
     let count := 2 + slen (length_bytes f) in
     if (mask f && (n + 4 + count <=? slen b)) || (n + count <=? slen b) then
       '(key, count) ←
         (if mask f then x ← substr b count 4; mret (charArrayToULongLong x, count + 4) else mret (0, count));
       data ← substr b count n;
       rest ← substr b (wrapu 64 (count + n)) npos;
       mret (true, frame_of fr f key (if mask f then xorEncryptDecrypt data key else data),
             set_buffer rest (note_opcode (opcode f) h))
     else mret (false, fr', note_opcode (opcode f) h)).
Proof.
  intros Hok Hbody Hlt Hb. pose proof (frame_ok_payloadLength f Hok) as Hp.
  pose proof (slen_nonneg body). pose proof (slen_nonneg (applicationData f)).
  pose proof (length_bytes_slen f). destruct (read_length_ok f (extendedPayloadLength fr) body Hok Hbody) as (e & Hl & ->).
  destruct Hok as (Ho & Hn & _). destruct (first_byte_bits f Ho) as (B7 & B6 & B5 & B4 & Bo).
  destruct (second_byte_bits f Hp) as (S7 & Sp). eexists. unfold nextFrame. cbv zeta.
  assert (slen (buffer h) = 2 + slen (length_bytes f) + slen body) as Hlen by (rewrite Hb, !slen_app; apply Z.add_assoc).
  replace (2 <=? slen (buffer h)) with true by lia.
  assert (at_ (buffer h) 0 = Ret (first_byte f) ∧ at_ (buffer h) 1 = Ret (second_byte f)) as [-> ->]
    by (rewrite Hb; split; [apply at_0|apply at_1]).
  cbn [mbind outcome_bind]. rewrite B7, B6, B5, B4, Bo, S7, Sp. rewrite <- Hb in Hl. rewrite Hl.
  cbn [mbind outcome_bind andb]. fold (note_opcode (opcode f) h).
  rewrite (wrapu_small 64 (slen (applicationData f) + 4 + _)), (wrapu_small 64 (slen (applicationData f) + (2 + _)))
    by lia.
  destruct (_ || _); [|reflexivity].
  unfold frame_of. destruct (mask f); reflexivity.
Qed.

(** A complete frame is read, whatever follows it. *)
Lemma nextFrame_wire fr f rest h :
  frame_ok f → slen rest < 2 ^ 61 → slen (applicationData f) < 2 ^ 60 →
  buffer h = (getFrameData f []).1 ++ rest →
  nextFrame fr h = Ret (true, frame_read fr f, set_buffer rest (note_opcode (opcode f) h)).
Proof.
  intros Hok Hr Hd Hb. rewrite getFrameData_bytes in Hb by done. cbn [app] in Hb.
  rewrite <- !app_assoc in Hb. cbn [app] in Hb.
  pose proof (slen_nonneg (applicationData f)). pose proof (slen_nonneg rest).
  pose proof (length_bytes_slen f). pose proof (masked_data_slen f) as Hm. pose proof (key_bytes_slen f) as Hkl.
  assert (slen (key_bytes f ++ masked_data f ++ rest) = slen (key_bytes f) + slen (applicationData f) + slen rest)
    as Hl by (rewrite !slen_app; lia).
  destruct (nextFrame_header fr f (key_bytes f ++ masked_data f ++ rest) h Hok) as [fr' ->].
  { intros Hp Hnil. pose proof (f_equal slen Hnil) as E. rewrite Hl, slen_nil in E.
    destruct Hok as (_ & _ & _ & _ & _ & Hc). destruct (mask f); lia. }
  { rewrite Hl. destruct (mask f); lia. }
  { exact Hb. }
  destruct Hok as (_ & _ & _ & Hk & Hk0 & _). cbv zeta.
  set (b := buffer h) in *. set (lb := length_bytes f) in *.
  assert (slen b = 2 + slen lb + slen (key_bytes f) + slen (applicationData f) + slen rest) as Hbl
    by (rewrite Hb, !slen_cons, slen_app, Hl; lia).
  assert (slen (first_byte f :: second_byte f :: lb) = 2 + slen lb) as Hh by (rewrite !slen_cons; lia).
  change (first_byte f :: second_byte f :: lb ++ ?x) with ((first_byte f :: second_byte f :: lb) ++ x) in Hb.
  replace ((_ && _) || _) with true by (destruct (mask f); cbn [andb]; lia).
  unfold frame_read, key_bytes, masked_data in *. destruct (mask f) eqn:Emask.
  - rewrite Hb. rewrite (substr_app_mid _ (be_bytes 4 _)) by (done || apply be_bytes_slen).
    cbn [mbind outcome_bind]. rewrite charArrayToULongLong_be_bytes by lia.
    change (256 ^ Z.of_nat 4) with (2 ^ 32). rewrite Z.mod_small by lia.
    rewrite (app_assoc (first_byte f :: second_byte f :: lb)). cbn [mbind outcome_bind mret outcome_ret].
    rewrite (substr_app_mid _ (xorEncryptDecrypt _ _) rest (2 + slen lb + 4) (slen (applicationData f)))
      by (rewrite ?slen_app, ?be_bytes_slen, ?xorEncryptDecrypt_slen; lia).
    cbn [mbind outcome_bind]. rewrite wrapu_small by lia.
    rewrite (app_assoc (_ ++ be_bytes 4 _)).
    rewrite substr_app_r by (rewrite ?slen_app, ?be_bytes_slen, ?xorEncryptDecrypt_slen; unfold npos; lia).
    cbn [mbind outcome_bind]. by rewrite xorEncryptDecrypt_involutive.
  - rewrite (app_nil_l (applicationData f ++ rest)) in Hb. rewrite Hb. cbn [mbind outcome_bind mret outcome_ret].
    rewrite (substr_app_mid _ (applicationData f) rest (2 + slen lb) (slen (applicationData f))) by done. cbn [mbind outcome_bind].
    rewrite wrapu_small by lia. rewrite (app_assoc (first_byte f :: second_byte f :: lb)).
    rewrite substr_app_r by (rewrite ?slen_app, ?be_bytes_slen, ?xorEncryptDecrypt_slen; unfold npos; lia).
    cbn [mbind outcome_bind]. by rewrite Hk0.
Qed.

(** The bytes of a frame. *)
Definition wire (f : Http11WebSocketDataFrame) : bytes := (getFrameData f []).1.

Lemma wire_bytes f :
  frame_ok f → wire f = [first_byte f; second_byte f] ++ length_bytes f ++ key_bytes f ++ masked_data f.
Proof. apply getFrameData_bytes. Qed.

Lemma wire_slen f :
  frame_ok f → slen (wire f) = 2 + slen (length_bytes f) + slen (key_bytes f) + slen (applicationData f).
Proof. intros Hok. rewrite wire_bytes, !slen_app, masked_data_slen by done. change (slen [_; _]) with 2. lia. Qed.

Lemma frame_read_new f : frame_ok f → frame_read Http11WebSocketDataFrame_new f = f.
Proof.
  destruct f as [a b c d o m p e k x s]. intros (_ & _ & Hx & _ & _ & Hlen).
  unfold frame_read, frame_of. cbn in *. subst x.
  destruct Hlen as [(-> & ? & ->)|[(-> & _)|(-> & _)]]; [|done..].
  by replace (slen s <=? 125) with true by lia.
Qed.

(** A websocket frame written by [getFrameData], masked or not and with any of
    the three length encodings, is read back by [nextFrame] field by field, and
    the bytes behind it stay in the buffer. *)
Theorem websocket_frame_roundtrip f rest h :
  frame_ok f → slen rest < 2 ^ 61 → slen (applicationData f) < 2 ^ 60 →
  buffer h = (getFrameData f []).1 ++ rest →
  nextFrame Http11WebSocketDataFrame_new h = Ret (true, f, set_buffer rest (note_opcode (opcode f) h)).
Proof. intros Hok Hr Hd Hb. rewrite (nextFrame_wire _ f rest) by done. by rewrite frame_read_new. Qed.

(** Too few bytes to tell the length. *)
Lemma read_length_short f ext b :
  frame_ok f → 125 < payloadLength f → slen b ≤ 2 + slen (length_bytes f) →
  read_length b (payloadLength f) ext = Ret (false, ext, payloadLength f, 2).
Proof.
  intros (_ & _ & _ & _ & _ & Hlen) Hp. unfold read_length, length_bytes.
  destruct Hlen as [(E & ? & _)|[(-> & _)|(-> & _)]]; [lia|..]; cbn [Z.eqb Pos.eqb]; rewrite be_bytes_slen; intros Hb.
  - replace (4 <? slen b) with false by lia. by rewrite andb_false_r.
  - replace (10 <? slen b) with false by lia. by rewrite andb_false_r.
Qed.

(** A frame that has not arrived completely waits in the buffer: nothing is
    consumed by any proper prefix of it; for a masked frame the prefix must miss
    more than four bytes. *)
Theorem websocket_frame_waits fr f p q h :
  frame_ok f → wire f = p ++ q → (if mask f then 4 else 0) < slen q → buffer h = p →
  ∃ fr' h', nextFrame fr h = Ret (false, fr', h') ∧ buffer h' = buffer h ∧
    dataframes h' = dataframes h ∧ dataframesComplete h' = dataframesComplete h.
Proof.
  intros Hok E Hq Hb. pose proof (f_equal slen E) as El. rewrite wire_slen, slen_app, key_bytes_slen in El by done.
  pose proof (slen_nonneg p). pose proof (slen_nonneg q).
  assert (∀ o, buffer (note_opcode o h) = buffer h ∧ dataframes (note_opcode o h) = dataframes h ∧
    dataframesComplete (note_opcode o h) = dataframesComplete h) as Hnote
    by (intros o; unfold note_opcode; by destruct (_ && _)).
  rewrite wire_bytes in E by done.
  destruct (decide (slen p < 2)) as [H2|H2].
  { unfold nextFrame. rewrite Hb. replace (2 <=? slen p) with false by lia.
    exists fr, h. by rewrite Hb. }
  assert (∃ t, p = first_byte f :: second_byte f :: t) as [t ->].
  { destruct p as [|x [|y t] ]; rewrite ?slen_cons, ?slen_nil in *; try lia. injection E as -> -> _. by exists t. }
  cbn [app] in E. injection E as E. rewrite !slen_cons in *. pose proof (length_bytes_slen f).
  destruct (decide (125 < payloadLength f ∧ slen t ≤ slen (length_bytes f))) as [ [Hp Ht]|Hlong].
  - pose proof (frame_ok_payloadLength f Hok) as Hp128. pose proof Hok as (Ho & _).
    destruct (first_byte_bits f Ho) as (_ & _ & _ & _ & Bo). destruct (second_byte_bits f Hp128) as (_ & Sp).
    unfold nextFrame. rewrite Hb. replace (2 <=? _) with true by (rewrite !slen_cons; lia).
    rewrite at_0, at_1. cbn [mbind outcome_bind]. rewrite Bo, Sp.
    rewrite (read_length_short f) by (rewrite ?slen_cons; done || lia). cbn [mbind outcome_bind andb].
    do 2 eexists. split; [reflexivity|]. fold (note_opcode (opcode f) h). rewrite <- Hb. apply Hnote.
  - assert (slen (length_bytes f) ≤ slen t ∧ (125 < payloadLength f → slen (length_bytes f) < slen t)) as [Hle Hbody].
    { destruct (decide (125 < payloadLength f)); [lia|]. assert (length_bytes f = []) as ->; [|rewrite slen_nil; pose proof (slen_nonneg t); lia].
      unfold length_bytes. by replace (_ =? 126) with false by lia; replace (_ =? 127) with false by lia. }
    assert (∃ body, t = length_bytes f ++ body) as [body ->].
    { exists (drop (length (length_bytes f)) t). rewrite <- (take_drop (length (length_bytes f)) t) at 1. f_equal.
      rewrite <- (take_app_le t q), <- E by (unfold slen in *; lia). apply take_app_length. }
    rewrite slen_app in *. pose proof (slen_nonneg body).
    destruct (nextFrame_header fr f body h Hok) as [fr' ->]; [intros Hp ->; rewrite slen_nil in *; lia| |exact Hb|].
    { destruct Hok as (_ & Hn & _). destruct (mask f); lia. }
    cbv zeta. rewrite Hb, !slen_cons, slen_app.
    replace (_ || _) with false by (destruct (mask f); cbn [andb orb]; lia).
    exists fr', (note_opcode (opcode f) h). split; [done|]. rewrite <- Hb. apply Hnote.
Qed.

(** The wait above is wrong for masked frames, those every client must send:
    when all but the last one to four bytes have arrived, the frame is taken for
    complete and [nextFrame] throws out of range. *)
Theorem masked_frame_split_throws fr f p q h :
  frame_ok f → mask f = true → wire f = p ++ q → 1 ≤ slen q ≤ 4 →
  4 ≤ slen (applicationData f) < 2 ^ 60 → buffer h = p →
  nextFrame fr h = Throw Out_of_range.
Proof.
  intros Hok Hm E Hq Hn Hb. pose proof (f_equal slen E) as El. rewrite wire_slen, slen_app, key_bytes_slen, Hm in El by done.
  rewrite wire_bytes in E by done. pose proof (length_bytes_slen f). pose proof (masked_data_slen f) as Hmd.
  assert (slen (key_bytes f) = 4) as Hk by (rewrite key_bytes_slen, Hm; done).
  set (hd := [first_byte f; second_byte f] ++ length_bytes f ++ key_bytes f).
  assert (slen hd = 2 + slen (length_bytes f) + 4) as Hhd.
  { unfold hd. rewrite !slen_app. change (slen [_; _]) with 2. lia. }
  assert (p = hd ++ take (length p - length hd) (masked_data f)) as Hp.
  { rewrite <- (take_app_length p q) at 1. rewrite <- E. replace (_ ++ _) with (hd ++ masked_data f)
      by (unfold hd; by rewrite <- !app_assoc).
    rewrite take_app. f_equal. apply take_ge. unfold slen in *. lia. }
  set (part := take _ _) in Hp. assert (slen part = slen (applicationData f) - slen q) as Hpart.
  { pose proof (f_equal slen Hp) as E'. rewrite slen_app in E'. lia. }
  destruct (nextFrame_header fr f (key_bytes f ++ part) h Hok) as [fr' ->].
  { intros _ Hnil. apply (f_equal slen) in Hnil. rewrite slen_app, slen_nil in Hnil. pose proof (slen_nonneg part). lia. }
  { rewrite slen_app. lia. }
  { rewrite Hb, Hp. unfold hd. by rewrite <- !app_assoc. }
  cbv zeta. rewrite Hb. assert (slen p = slen hd + slen part) as Hpl by (rewrite Hp at 1; apply slen_app).
  rewrite Hm. replace (_ || _) with true by (cbn [andb]; lia).
  rewrite Hp. unfold hd. rewrite <- !app_assoc.
  rewrite (app_assoc [_; _]), (substr_app_mid _ (key_bytes f) part (2 + slen (length_bytes f)) 4)
    by (rewrite ?slen_app; done).
  cbn [mbind outcome_bind mret outcome_ret]. rewrite (app_assoc (_ ++ _)), <- (app_assoc [_; _]).
  fold hd. rewrite <- Hp. rewrite wrapu_small by lia.
  destruct (substr_cases p (2 + slen (length_bytes f) + 4) (slen (applicationData f))) as [-> | [d ->] ]; [done|].
  cbn [mbind outcome_bind]. by rewrite substr_past by lia.
Qed.

(** The 64-bit length is added to the header size without a check, so a length
    just below [2^64] wraps around: the frame is taken for complete and nothing
    is taken off the buffer.  The ten-byte header of a pong with such a length and
    one byte more keep [readRequest] busy for ever. *)
Theorem length_overflow_diverges fuel request rest h :
  rest ≠ [] → slen rest < 2 ^ 62 → lastOpCode h = 10 →
  buffer h = [138; 127] ++ be_bytes 8 (2 ^ 64 - 10) ++ rest →
  readRequest fuel request h = Out_of_fuel.
Proof.
  intros Hrest Hlt Ho Hb. unfold readRequest.
  assert (∀ fr, read_loop fuel fr request h = Out_of_fuel) as ->; [|done].
  assert (1 ≤ slen rest) by (destruct rest; [done|]; rewrite slen_cons; pose proof (slen_nonneg rest); lia).
  assert (slen (buffer h) = 10 + slen rest) as Hl
    by (rewrite Hb, !slen_app, be_bytes_slen; change (slen [_; _]) with 2; lia).
  assert (∀ fr, ∃ fr' , nextFrame fr h = Ret (true, fr', h) ∧ opcode fr' = 10) as Hnext.
  { intros fr. assert (∃ d, substr (buffer h) 10 (2 ^ 64 - 10) = Ret d) as [d Hd].
    { unfold substr. rewrite Hl. replace (10 + slen rest <? 10) with false by lia. by eexists. }
    eexists. unfold nextFrame. replace (2 <=? slen (buffer h)) with true by lia.
    assert (at_ (buffer h) 0 = Ret 138 ∧ at_ (buffer h) 1 = Ret 127) as [-> ->]
      by (rewrite Hb; split; [apply at_0|apply at_1]).
    cbn [mbind outcome_bind]. change (Z.land 127 127) with 127. change (Z.land 138 15) with 10. rewrite Ho.
    unfold read_length. rewrite andb_false_r. replace (10 <? slen (buffer h)) with true by lia.
    rewrite Hb, (substr_app_mid [138; 127] (be_bytes 8 _) rest 2 8) by (done || apply be_bytes_slen).
    cbn [mbind outcome_bind mret outcome_ret andb Z.eqb Pos.eqb negb]. rewrite charArrayToULongLong_be_bytes by lia.
    change (((2 ^ 64 - 10) mod 256 ^ Z.of_nat 8)) with (2 ^ 64 - 10). rewrite <- Hb, Hl.
    change (wrapu 64 (2 ^ 64 - 10 + 10)) with 0.
    replace (0 <=? 10 + slen rest) with true by lia. rewrite orb_true_r.
    change (Z.testbit 127 7) with false. cbn [mbind outcome_bind mret outcome_ret]. rewrite Hd.
    cbn [mbind outcome_bind]. change (wrapu 64 (10 + (2 ^ 64 - 10))) with 0.
    rewrite substr_all by (rewrite Hl; unfold npos; lia). cbn [mbind outcome_bind].
    assert (set_buffer (buffer h) h = h) as -> by (by destruct h). by split. }
  induction fuel as [|fuel IH]; intros fr; [done|]. destruct (Hnext fr) as (fr' & Hn & Hop).
  cbn [read_loop]. rewrite Hn. cbn [mbind outcome_bind]. unfold processFrame. rewrite Hop. cbn [Z.eqb Pos.eqb].
  apply IH.
Qed.

(** ** Messages *)

(** No message is complete: the state between two frames. *)
Definition settled (h : Http11WebSocketHandler) : Prop := ∀ k, mfind k (dataframesComplete h) ≠ Some true.

Lemma mget_mset k k' s m : mget_bytes k (mset k' s m) = if decide (k = k') then s else mget_bytes k m.
Proof. unfold mget_bytes. rewrite mfind_mset. by case_decide. Qed.

Lemma mget_collect k k' d m :
  mget_bytes k (collect k' d m) = if decide (k = k') then mget_bytes k m ++ d else mget_bytes k m.
Proof.
  unfold collect. revert m. induction d as [|b d IH]; intros m; cbn [foldl].
  - case_decide; [by rewrite app_nil_r|done].
  - rewrite IH, mget_mset. case_decide; [|done]. subst. by rewrite <- app_assoc.
Qed.

Lemma collect_Some k d m : is_Some (mfind k m) ∨ d ≠ [] → is_Some (mfind k (collect k d m)).
Proof.
  unfold collect. revert m. induction d as [|b d IH]; intros m H; cbn [foldl].
  - by destruct H.
  - apply IH. left. rewrite mfind_mset_eq. by eexists.
Qed.

Lemma insert_false_true (k j : Z) (c : list (Z * bool)) : mfind j (minsert k false c) = Some true ↔ mfind j c = Some true.
Proof.
  rewrite mfind_minsert. destruct (mfind j c); [done|]. by case_decide.
Qed.

Lemma find_complete_none (frames : list (Z * bytes)) (c : list (Z * bool)) :
  (∀ k, mfind k c ≠ Some true) →
  ∃ c', find_complete frames c = (None, c') ∧ ∀ k, mfind k c' ≠ Some true.
Proof.
  revert c. induction frames as [|[k s] frames IH]; intros c Hc; cbn [find_complete]; [by exists c|].
  rewrite bool_decide_eq_false_2 by (intros H%insert_false_true; by apply (Hc k)).
  apply IH. intros j H%insert_false_true. by apply (Hc j).
Qed.

Lemma find_complete_one (frames : list (Z * bytes)) (c : list (Z * bool)) (k : Z) :
  (∀ j, mfind j c = Some true ↔ j = k) → is_Some (mfind k frames) →
  ∃ c', find_complete frames c = (Some k, c') ∧ ∀ j, mfind j c' = Some true ↔ j = k.
Proof.
  revert c. induction frames as [|[k' s] frames IH]; intros c Hc [v Hk]; cbn [find_complete]; [done|].
  cbn [mfind] in Hk. case_decide.
  - subst k'. rewrite bool_decide_eq_true_2 by (apply insert_false_true; by apply Hc).
    eexists. split; [reflexivity|]. intros j. by rewrite insert_false_true.
  - rewrite bool_decide_eq_false_2 by (intros H1%insert_false_true%Hc; congruence).
    apply IH; [|by exists v]. intros j. by rewrite insert_false_true.
Qed.

(** The key a data frame goes to. *)
Definition target (f : Http11WebSocketDataFrame) (h : Http11WebSocketHandler) : Z :=
  if opcode f =? 0 then lastOpCode h else opcode f.

Lemma processFrame_data f request h :
  0 ≤ opcode f ≤ 2 →
  processFrame f request false h
  = (let h := set_frames (collect (target f h) (applicationData f) (dataframes h))
                (mset (target f h) (fin f) (dataframesComplete h)) h in
     let '(isReq, request, h) := deliver f request false h in (false, isReq, request, h)).
Proof.
  intros Ho. unfold processFrame, target.
  rewrite (proj2 (Z.eqb_neq (opcode f) 8)), (proj2 (Z.eqb_neq (opcode f) 9)), (proj2 (Z.eqb_neq (opcode f) 10)) by lia.
  destruct (opcode f =? 0) eqn:E; [done|]. replace ((opcode f =? 1) || (opcode f =? 2)) with true by lia. done.
Qed.

(** A fragment that does not end its message. *)
Lemma processFrame_fragment f request h :
  0 ≤ opcode f ≤ 2 → fin f = false → settled h →
  ∃ h', processFrame f request false h = (false, false, request, h') ∧ settled h' ∧
    buffer h' = buffer h ∧ lastOpCode h' = lastOpCode h ∧
    dataframes h' = collect (target f h) (applicationData f) (dataframes h).
Proof.
  intros Ho Hf Hs. rewrite processFrame_data, Hf by done. unfold deliver.
  cbn [set_frames dataframes dataframesComplete].
  destruct (find_complete_none (collect (target f h) (applicationData f) (dataframes h))
    (mset (target f h) false (dataframesComplete h))) as (c' & -> & Hc').
  { intros k. rewrite mfind_mset. case_decide; [done|apply Hs]. }
  eexists. split; [reflexivity|]. split; [exact Hc'|done].
Qed.

(** The frame that ends a message: everything collected under its key is handed
    over, as text only when this very frame has opcode 1. *)
Lemma processFrame_final f request h :
  0 ≤ opcode f ≤ 2 → fin f = true → settled h →
  is_Some (mfind (target f h) (dataframes h)) ∨ applicationData f ≠ [] →
  let message := mget_bytes (target f h) (dataframes h) ++ applicationData f in
  ∃ h', processFrame f request false h
    = (false, true, if opcode f =? 1 then mkWsData message (binaryData request)
                    else mkWsData (textData request) message, h') ∧ settled h' ∧
    buffer h' = buffer h ∧ lastOpCode h' = lastOpCode h ∧
    ∀ k, mget_bytes k (dataframes h') = if decide (k = target f h) then [] else mget_bytes k (dataframes h).
Proof.
  intros Ho Hf Hs Hne message. rewrite processFrame_data, Hf by done. unfold deliver.
  cbn [set_frames dataframes dataframesComplete]. set (k0 := target f h) in *.
  destruct (find_complete_one (collect k0 (applicationData f) (dataframes h))
    (mset k0 true (dataframesComplete h)) k0) as (c' & -> & Hc').
  { intros j. rewrite mfind_mset. case_decide; [done|]. split; [by intros ?%Hs|done]. }
  { by apply collect_Some. }
  rewrite mget_collect, decide_True by done. fold message.
  eexists. split; [reflexivity|]. cbn [set_frames dataframes buffer lastOpCode]. split; [|split; [done|split; [done|] ] ].
  - intros j. cbn [set_frames dataframesComplete]. rewrite mfind_mset. case_decide; [done|]. by rewrite Hc'.
  - intros k. rewrite mget_mset, mget_collect. by case_decide.
Qed.

Lemma mget_Some k m : mget_bytes k m ≠ [] → is_Some (mfind k m).
Proof. unfold mget_bytes. by destruct (mfind k m). Qed.

Lemma note_opcode_target f h :
  lastOpCode (note_opcode (opcode f) h) = target f h ∧ target f (note_opcode (opcode f) h) = target f h.
Proof.
  unfold target, note_opcode. destruct (Z.eqb_spec (opcode f) 0) as [E|E].
  - by rewrite andb_false_r.
  - split; [|done]. rewrite andb_true_r. by destruct (Z.eqb_spec (lastOpCode h) (opcode f)).
Qed.

Lemma note_opcode_rest o h :
  dataframes (note_opcode o h) = dataframes h ∧ dataframesComplete (note_opcode o h) = dataframesComplete h.
Proof. unfold note_opcode. by destruct (_ && _). Qed.

(** The read loop takes one frame off the buffer. *)
Lemma read_loop_frame n fr f rest request h :
  frame_ok f → buffer h = wire f ++ rest → slen (buffer h) < 2 ^ 60 →
  let h1 := set_buffer rest (note_opcode (opcode f) h) in
  read_loop (S n) fr request h
  = (let '(close, fl, request, h) := processFrame f request false h1 in
     if (close : bool) then
       mret (fl, request, mkWsHandler (buffer h) (dataframes h) (dataframesComplete h) (lastOpCode h) true)
     else if (fl : bool) then mret (fl, request, h)
     else read_loop n (frame_read fr f) request h).
Proof.
  intros Hok Hb Hlt h1. rewrite Hb, slen_app, wire_slen in Hlt by done.
  pose proof (length_bytes_slen f). pose proof (slen_nonneg (key_bytes f)). pose proof (slen_nonneg rest).
  pose proof (slen_nonneg (applicationData f)).
  cbn [read_loop]. rewrite (nextFrame_wire fr f rest h) by (done || lia). reflexivity.
Qed.

Lemma read_loop_fragment n fr f rest request h :
  frame_ok f → 0 ≤ opcode f ≤ 2 → fin f = false → settled h →
  buffer h = wire f ++ rest → slen (buffer h) < 2 ^ 60 →
  ∃ h', read_loop (S n) fr request h = read_loop n (frame_read fr f) request h' ∧ settled h' ∧
    buffer h' = rest ∧ lastOpCode h' = target f h ∧
    ∀ k, mget_bytes k (dataframes h')
         = mget_bytes k (dataframes h) ++ (if decide (k = target f h) then applicationData f else []).
Proof.
  intros Hok Ho Hf Hs Hb Hlt. rewrite (read_loop_frame n fr f rest) by done. cbv zeta.
  destruct (note_opcode_target f h) as [El Et]. destruct (note_opcode_rest (opcode f) h) as [Ed Ec].
  set (h1 := set_buffer rest (note_opcode (opcode f) h)).
  assert (settled h1) as Hs1 by (intros k; cbn [h1 set_buffer dataframesComplete]; rewrite Ec; apply Hs).
  destruct (processFrame_fragment f request h1 Ho Hf Hs1) as (h' & -> & Hs' & Hb' & Hl' & Hd').
  exists h'. split; [done|]. split; [done|]. split; [done|]. split; [by rewrite Hl', <- El|].
  intros k. change (target f h1) with (target f (note_opcode (opcode f) h)) in Hd'.
  rewrite Hd', Et. cbn [h1 set_buffer dataframes]. rewrite Ed, mget_collect. case_decide; [done|]. by rewrite app_nil_r.
Qed.

Lemma read_loop_final n fr f rest request h :
  let message := mget_bytes (target f h) (dataframes h) ++ applicationData f in
  frame_ok f → 0 ≤ opcode f ≤ 2 → fin f = true → settled h → message ≠ [] →
  buffer h = wire f ++ rest → slen (buffer h) < 2 ^ 60 →
  ∃ h', read_loop (S n) fr request h
    = Ret (true, if opcode f =? 1 then mkWsData message (binaryData request)
                 else mkWsData (textData request) message, h') ∧ settled h' ∧ buffer h' = rest ∧
    ∀ k, mget_bytes k (dataframes h') = if decide (k = target f h) then [] else mget_bytes k (dataframes h).
Proof.
  intros message Hok Ho Hf Hs Hm Hb Hlt. rewrite (read_loop_frame n fr f rest) by done. cbv zeta.
  destruct (note_opcode_target f h) as [El Et]. destruct (note_opcode_rest (opcode f) h) as [Ed Ec].
  set (h1 := set_buffer rest (note_opcode (opcode f) h)).
  assert (settled h1) as Hs1 by (intros k; cbn [h1 set_buffer dataframesComplete]; rewrite Ec; apply Hs).
  assert (target f h1 = target f h ∧ dataframes h1 = dataframes h) as [Et1 Ed1] by done.
  destruct (processFrame_final f request h1 Ho Hf Hs1) as (h' & -> & Hs' & Hb' & Hl' & Hd').
  { rewrite Et1, Ed1. destruct (decide (applicationData f = [])) as [E|]; [left|by right].
    apply mget_Some. intros E'. apply Hm. unfold message. by rewrite E, E'. }
  rewrite Et1, Ed1 in *. exists h'. by split.
Qed.

(** The frame of a message of the server. *)
Definition message_frame (o : Z) (t : bytes) : Http11WebSocketDataFrame :=
  with_data t (with_length (wraps 32 (slen t)) (with_opcode o final_frame)).

Lemma message_frame_ok o t : 0 ≤ o < 16 → slen t < 2 ^ 31 → frame_ok (message_frame o t).
Proof.
  intros Ho Ht. pose proof (slen_nonneg t). unfold message_frame, with_length. rewrite wraps_small by lia.
  destruct (Z.leb_spec (slen t) 125); [|destruct (Z.ltb_spec (slen t) 65535)];
    unfold frame_ok, with_data, with_opcode; cbn [opcode mask payloadLength extendedPayloadLength maskingKey
      extensionData applicationData final_frame]; rewrite !wrapu_small by lia; repeat split; done || lia.
Qed.

Lemma message_frame_wire o t out :
  (getFrameData (with_length (wraps 32 (slen t)) (with_opcode o final_frame)) out).1 ++ t = out ++ wire (message_frame o t).
Proof.
  assert (∀ f, mask f = false → applicationData f = [] → (getFrameData f out).1 ++ t = out ++ wire (with_data t f)) as H.
  { intros [] Hm Hd. cbn in Hm, Hd. subst. unfold wire, getFrameData. cbn. rewrite <- !app_assoc. cbn.
    by rewrite <- !app_assoc. }
  apply H; unfold with_length; by repeat case_match.
Qed.

Lemma getFrameData_snd f out : mask f = false → (getFrameData f out).2 = f.
Proof. unfold getFrameData. by intros ->. Qed.

Lemma with_length_fields n f : mask (with_length n f) = mask f ∧ opcode (with_length n f) = opcode f.
Proof. unfold with_length. by repeat case_match. Qed.

Lemma written_text t out :
  0 < slen t →
  getFramePdu (mkWsData t []) out false = (1, out ++ wire (message_frame 1 t)) ∧
  writeResponse (mkWsData t []) out = (true, out ++ wire (message_frame 1 t)).
Proof.
  intros Ht. rewrite <- (message_frame_wire 1 t out). unfold getFramePdu, writeResponse. cbn [textData binaryData].
  replace (0 <? slen t) with true by lia. cbn [negb].
  set (f := with_length _ _). assert (mask f = false ∧ opcode f = 1) as [Hm Ho]
    by (destruct (with_length_fields (wraps 32 (slen t)) (with_opcode 1 final_frame)); by split).
  pose proof (getFrameData_snd f out Hm) as Hf. destruct (getFrameData f out) as [d f']. cbn [fst snd] in *. subst f'.
  split; [by rewrite <- Ho|done].
Qed.

Lemma written_binary t out :
  0 < slen t →
  getFramePdu (mkWsData [] t) out false = (2, out ++ wire (message_frame 2 t)) ∧
  writeResponse (mkWsData [] t) out = (true, out ++ wire (message_frame 2 t)).
Proof.
  intros Ht. rewrite <- (message_frame_wire 2 t out). unfold getFramePdu, writeResponse. cbn [textData binaryData].
  replace (0 <? slen t) with true by lia. replace (0 <? slen []) with false by done. cbn [negb].
  set (f := with_length _ _). assert (mask f = false ∧ opcode f = 2) as [Hm Ho]
    by (destruct (with_length_fields (wraps 32 (slen t)) (with_opcode 2 final_frame)); by split).
  pose proof (getFrameData_snd f out Hm) as Hf. destruct (getFrameData f out) as [d f']. cbn [fst snd] in *. subst f'.
  split; [by rewrite <- Ho|done].
Qed.

(** C24: A text or binary message that is not empty and of less than 2 GiB, written by
    [getFramePdu], is what the reader's [readRequest] hands over when no fragments of an earlier
    message wait, in the matching field and after one frame; the bytes behind it stay.
    [writeResponse] writes the same bytes. *)
Theorem websocket_message_roundtrip t out rest req h :
  0 < slen t < 2 ^ 31 → slen rest < 2 ^ 31 → settled h →
  mget_bytes 1 (dataframes h) = [] → mget_bytes 2 (dataframes h) = [] →
  (∃ w, getFramePdu (mkWsData t []) out false = (1, out ++ w) ∧ writeResponse (mkWsData t []) out = (true, out ++ w) ∧
    ∃ h', readRequest 1 req (set_buffer (w ++ rest) h)
          = Ret (true, slen rest, mkWsData t (binaryData req), h') ∧ buffer h' = rest) ∧
  (∃ w, getFramePdu (mkWsData [] t) out false = (2, out ++ w) ∧ writeResponse (mkWsData [] t) out = (true, out ++ w) ∧
    ∃ h', readRequest 1 req (set_buffer (w ++ rest) h)
          = Ret (true, slen rest, mkWsData (textData req) t, h') ∧ buffer h' = rest).
Proof.
  intros Ht Hr Hs H1 H2. pose proof (slen_nonneg rest).
  assert (∀ o, 1 ≤ o ≤ 2 → ∃ h', readRequest 1 req (set_buffer (wire (message_frame o t) ++ rest) h)
    = Ret (true, slen rest, if o =? 1 then mkWsData t (binaryData req) else mkWsData (textData req) t, h') ∧
      buffer h' = rest) as Hread.
  { intros o Ho. pose proof (message_frame_ok o t ltac:(lia) ltac:(lia)) as Hok.
    assert (opcode (message_frame o t) = o ∧ fin (message_frame o t) = true ∧ applicationData (message_frame o t) = t)
      as (Eo & Ef & Ed) by (unfold message_frame, with_length; by repeat case_match).
    assert (target (message_frame o t) (set_buffer (wire (message_frame o t) ++ rest) h) = o) as Et
      by (unfold target; rewrite Eo; by replace (o =? 0) with false by lia).
    pose proof (length_bytes_slen (message_frame o t)). pose proof (key_bytes_slen (message_frame o t)) as Hk.
    assert (mget_bytes o (dataframes h) = []) as E0 by (by assert (o = 1 ∨ o = 2) as [-> | ->] by lia).
    destruct (read_loop_final 0 Http11WebSocketDataFrame_new (message_frame o t) rest req
      (set_buffer (wire (message_frame o t) ++ rest) h)) as (h' & Hrun & _ & Hb & _);
      rewrite ?Eo, ?Et, ?Ed; try done; cbn [set_buffer dataframes buffer].
    - lia.
    - rewrite E0. intros E. cbn [app] in E. rewrite E, slen_nil in Ht. lia.
    - rewrite slen_app, wire_slen, Ed by done. rewrite Hk. case_match; lia.
    - exists h'. split; [|done]. unfold readRequest. rewrite Hrun, Eo, Et, Ed. cbn [set_buffer dataframes].
      rewrite E0. cbn [app mbind outcome_bind mret outcome_ret]. by rewrite Hb, wraps_small by lia. }
  destruct (written_text t out ltac:(lia)) as [Et Et']. destruct (written_binary t out ltac:(lia)) as [Eb Eb'].
  split; [exists (wire (message_frame 1 t))|exists (wire (message_frame 2 t))];
    (split; [done|split; [done|] ]); [exact (Hread 1 ltac:(lia))|exact (Hread 2 ltac:(lia))].
Qed.

Lemma read_loop_middle n fs : ∀ fr rest request h k,
  Forall frame_ok fs → Forall (λ f, opcode f = 0 ∧ fin f = false) fs → settled h → lastOpCode h = k →
  buffer h = concat (map wire fs) ++ rest → slen (buffer h) < 2 ^ 60 →
  ∃ fr' h', read_loop (length fs + n) fr request h = read_loop n fr' request h' ∧ settled h' ∧
    buffer h' = rest ∧ lastOpCode h' = k ∧
    mget_bytes k (dataframes h') = mget_bytes k (dataframes h) ++ concat (map applicationData fs).
Proof.
  induction fs as [|f fs IH]; intros fr rest request h k Hok Hfs Hs Hk Hb Hlt.
  { exists fr, h. rewrite app_nil_r. cbn in Hb. done. }
  apply Forall_cons in Hok as [Hf Hok]. apply Forall_cons in Hfs as [ [Ho Hfin] Hfs].
  cbn [map concat] in Hb. rewrite <- app_assoc in Hb.
  destruct (read_loop_fragment (length fs + n) fr f (concat (map wire fs) ++ rest) request h)
    as (h1 & Hrun & Hs1 & Hb1 & Hl1 & Hd1); [done|lia|done..|].
  assert (target f h = k) as Et by (unfold target; by rewrite Ho). rewrite Et in *.
  destruct (IH (frame_read fr f) rest request h1 k Hok Hfs Hs1 Hl1 Hb1) as (fr' & h' & Hrun' & ? & ? & ? & Hd').
  { rewrite Hb1. rewrite Hb, slen_app in Hlt. pose proof (slen_nonneg (wire f)). lia. }
  exists fr', h'. cbn [length Nat.add]. rewrite Hrun, Hrun'. repeat (split; [done|]).
  rewrite Hd', Hd1, decide_True by done. cbn [map concat]. by rewrite <- app_assoc.
Qed.

(** A text message in fragments is put together in order and handed over with
    its last frame, but as binary data: the opcode that decides is that of the
    last frame, a continuation. *)
Theorem fragmented_text_is_binary f1 fs fl req rest h :
  let message := applicationData f1 ++ concat (map applicationData fs) ++ applicationData fl in
  Forall frame_ok (f1 :: fl :: fs) → opcode f1 = 1 → fin f1 = false →
  Forall (λ f, opcode f = 0 ∧ fin f = false) fs → opcode fl = 0 → fin fl = true →
  settled h → mget_bytes 1 (dataframes h) = [] → message ≠ [] →
  buffer h = wire f1 ++ concat (map wire fs) ++ wire fl ++ rest → slen (buffer h) < 2 ^ 60 →
  ∃ pending h', readRequest (S (length fs + 1)) req h = Ret (true, pending, mkWsData (textData req) message, h') ∧
    buffer h' = rest.
Proof.
  intros message Hok Ho1 Hf1 Hfs Hol Hfl Hs H1 Hm Hb Hlt.
  apply Forall_cons in Hok as [Hok1 Hok]. apply Forall_cons in Hok as [Hokl Hoks].
  assert (∀ a b, slen (a ++ b) < 2 ^ 60 → slen b < 2 ^ 60) as Htail
    by (intros a b; rewrite slen_app; pose proof (slen_nonneg a); lia).
  destruct (read_loop_fragment (length fs + 1) Http11WebSocketDataFrame_new f1 _ req h Hok1 ltac:(lia) Hf1 Hs Hb Hlt)
    as (h1 & Hrun1 & Hs1 & Hb1 & Hl1 & Hd1).
  assert (target f1 h = 1) as Et1 by (unfold target; by rewrite Ho1). rewrite Et1 in *.
  pose proof Hlt as Hlt1. rewrite Hb in Hlt1. apply Htail in Hlt1. rewrite <- Hb1 in Hlt1.
  destruct (read_loop_middle 1 fs (frame_read Http11WebSocketDataFrame_new f1) (wire fl ++ rest) req h1 1 Hoks Hfs Hs1 Hl1 Hb1 Hlt1)
    as (fr' & h2 & Hrun2 & Hs2 & Hb2 & Hl2 & Hd2).
  rewrite Hb1 in Hlt1. apply Htail in Hlt1. rewrite <- Hb2 in Hlt1.
  assert (target fl h2 = 1) as Etl by (unfold target; by rewrite Hol).
  assert (mget_bytes 1 (dataframes h2) ++ applicationData fl = message) as Em
    by (rewrite Hd2, Hd1, decide_True, H1 by done; cbn [app]; unfold message; by rewrite <- !app_assoc).
  destruct (read_loop_final 0 fr' fl rest req h2) as (h3 & Hrun3 & _ & Hb3 & _); rewrite ?Etl, ?Em; try done; [lia|].
  exists (wraps 32 (slen (buffer h3))), h3. split; [|done]. unfold readRequest.
  rewrite Hrun1, Hrun2, Hrun3, Hol, Etl, Em. done.
Qed.

(** A ping between the fragments of a message redirects the rest of the
    message: the reader remembers the ping's opcode, collects the continuation
    under it and hands it over alone, while the beginning stays behind. *)
Theorem ping_splits_message f1 p fl req rest h :
  Forall frame_ok [f1; p; fl] → opcode f1 = 1 → fin f1 = false → opcode p = 9 → opcode fl = 0 → fin fl = true →
  settled h → mget_bytes 1 (dataframes h) = [] → mget_bytes 9 (dataframes h) = [] → applicationData fl ≠ [] →
  buffer h = wire f1 ++ wire p ++ wire fl ++ rest → slen (buffer h) < 2 ^ 60 →
  ∃ pending h', readRequest 3 req h = Ret (true, pending, mkWsData (textData req) (applicationData fl), h') ∧
    buffer h' = rest ∧ mget_bytes 1 (dataframes h') = applicationData f1.
Proof.
  intros Hok Ho1 Hf1 Hop Hol Hfl Hs H1 H9 Hm Hb Hlt.
  apply Forall_cons in Hok as [Hok1 Hok]. apply Forall_cons in Hok as [Hokp Hok]. apply Forall_cons in Hok as [Hokl _].
  assert (∀ a b, slen (a ++ b) < 2 ^ 60 → slen b < 2 ^ 60) as Htail
    by (intros a b; rewrite slen_app; pose proof (slen_nonneg a); lia).
  destruct (read_loop_fragment 2 Http11WebSocketDataFrame_new f1 _ req h Hok1 ltac:(lia) Hf1 Hs Hb Hlt)
    as (h1 & Hrun1 & Hs1 & Hb1 & Hl1 & Hd1).
  assert (target f1 h = 1) as Et1 by (unfold target; by rewrite Ho1). rewrite Et1 in *.
  rewrite Hb in Hlt. apply Htail in Hlt. rewrite <- Hb1 in Hlt.
  pose proof (read_loop_frame 1 (frame_read Http11WebSocketDataFrame_new f1) p _ req h1 Hokp Hb1 Hlt) as Hrun2.
  cbv zeta in Hrun2. unfold processFrame in Hrun2. rewrite Hop in Hrun2. cbn [Z.eqb Pos.eqb] in Hrun2.
  set (h2 := set_buffer (wire fl ++ rest) (note_opcode 9 h1)) in *.
  destruct (note_opcode_rest 9 h1) as [Ed Ec].
  assert (settled h2) as Hs2 by (intros k; cbn [h2 set_buffer dataframesComplete]; rewrite Ec; apply Hs1).
  assert (target fl h2 = 9) as Etl.
  { unfold target. rewrite Hol. cbn [Z.eqb h2 set_buffer lastOpCode]. unfold note_opcode. by rewrite Hl1. }
  assert (∀ k, mget_bytes k (dataframes h2) = mget_bytes k (dataframes h1)) as Edf
    by (intros k; cbn [h2 set_buffer dataframes]; by rewrite Ed).
  rewrite Hb1 in Hlt. apply Htail in Hlt.
  destruct (read_loop_final 0 (frame_read (frame_read Http11WebSocketDataFrame_new f1) p) fl rest req h2)
    as (h3 & Hrun3 & _ & Hb3 & Hd3); rewrite ?Etl, ?Edf, ?Hd1, ?H9; try done; [lia|].
  exists (wraps 32 (slen (buffer h3))), h3. split; [|split; [done|] ].
  - unfold readRequest. rewrite Hrun1, Hrun2, Hrun3, Hol, Etl, Edf, Hd1, H9. done.
  - rewrite Hd3, decide_False, Edf, Hd1, decide_True, H1 by (rewrite ?Etl; done). done.
Qed.

(** ** Concrete runs *)

Definition sample_text (o : Z) (final : bool) (s : bytes) : Http11WebSocketDataFrame :=
  mkWsFrame final false false false o false (slen s) 0 0 [] s.
Definition sample_masked : Http11WebSocketDataFrame :=
  mkWsFrame true false false false 1 true 5 0 305419896 [] (str "Hello").

Lemma sample_text_ok o final s : 0 ≤ o < 16 → slen s ≤ 125 → frame_ok (sample_text o final s).
Proof.
  intros Ho Hs. pose proof (slen_nonneg s). repeat split; cbn; try lia; try done; left; lia.
Defined.
Lemma sample_masked_ok : frame_ok sample_masked.
Proof. repeat split; try (vm_compute; congruence); left; by repeat split. Defined.

Lemma new_settled : settled Http11WebSocketHandler_new.
Proof. intros k. done. Defined.

Example websocket_frame_roundtrip_witness :
  nextFrame Http11WebSocketDataFrame_new
    (set_buffer ((getFrameData sample_masked []).1 ++ [1; 2]) Http11WebSocketHandler_new)
  = Ret (true, sample_masked,
         set_buffer [1; 2] (note_opcode 1 (set_buffer ((getFrameData sample_masked []).1 ++ [1; 2]) Http11WebSocketHandler_new))).
Proof. apply (websocket_frame_roundtrip sample_masked [1; 2]); [apply sample_masked_ok|done..]. Defined.

Example websocket_frame_waits_witness :
  let h := set_buffer (take 6 (wire sample_masked)) Http11WebSocketHandler_new in
  ∃ fr' h', nextFrame Http11WebSocketDataFrame_new h = Ret (false, fr', h') ∧ buffer h' = buffer h ∧
    dataframes h' = dataframes h ∧ dataframesComplete h' = dataframesComplete h.
Proof.
  intros h. apply (websocket_frame_waits _ sample_masked (take 6 (wire sample_masked)) (drop 6 (wire sample_masked)));
    [apply sample_masked_ok|reflexivity..].
Defined.

Example masked_frame_split_throws_witness :
  nextFrame Http11WebSocketDataFrame_new (set_buffer (take 10 (wire sample_masked)) Http11WebSocketHandler_new)
  = Throw Out_of_range.
Proof.
  apply (masked_frame_split_throws _ sample_masked (take 10 (wire sample_masked)) (drop 10 (wire sample_masked)));
    [apply sample_masked_ok|reflexivity|reflexivity|split; discriminate|split; [discriminate|reflexivity] |reflexivity].
Defined.

Example length_overflow_diverges_witness :
  readRequest 1000 (mkWsData [] [])
    (mkWsHandler ([138; 127] ++ be_bytes 8 (2 ^ 64 - 10) ++ [7]) [] [] 10 false) = Out_of_fuel.
Proof. apply (length_overflow_diverges 1000 _ [7]); [discriminate|reflexivity..]. Defined.

Example websocket_message_roundtrip_witness :
  (∃ w, getFramePdu (mkWsData (str "hi") []) [9] false = (1, [9] ++ w) ∧
    writeResponse (mkWsData (str "hi") []) [9] = (true, [9] ++ w) ∧
    ∃ h', readRequest 1 (mkWsData [] []) (set_buffer (w ++ [5]) Http11WebSocketHandler_new)
          = Ret (true, 1, mkWsData (str "hi") [], h') ∧ buffer h' = [5]) ∧
  (∃ w, getFramePdu (mkWsData [] (str "hi")) [9] false = (2, [9] ++ w) ∧
    writeResponse (mkWsData [] (str "hi")) [9] = (true, [9] ++ w) ∧
    ∃ h', readRequest 1 (mkWsData [] []) (set_buffer (w ++ [5]) Http11WebSocketHandler_new)
          = Ret (true, 1, mkWsData [] (str "hi"), h') ∧ buffer h' = [5]).
Proof.
  apply (websocket_message_roundtrip (str "hi") [9] [5] (mkWsData [] []) Http11WebSocketHandler_new);
    [split; reflexivity|reflexivity|apply new_settled|reflexivity|reflexivity].
Defined.

Example fragmented_text_is_binary_witness :
  let h := set_buffer (wire (sample_text 1 false (str "Hel")) ++ concat (map wire [sample_text 0 false (str "l")])
                       ++ wire (sample_text 0 true (str "o")) ++ []) Http11WebSocketHandler_new in
  ∃ pending h', readRequest 3 (mkWsData [] []) h = Ret (true, pending, mkWsData [] (str "Hello"), h') ∧ buffer h' = [].
Proof.
  intros h. apply (fragmented_text_is_binary (sample_text 1 false (str "Hel")) [sample_text 0 false (str "l")]
    (sample_text 0 true (str "o")) (mkWsData [] []) [] h); try reflexivity; try discriminate.
  - repeat (apply Forall_cons_2; [apply sample_text_ok; [lia|discriminate]|]). apply Forall_nil_2.
  - by repeat constructor.
Defined.

Example ping_splits_message_witness :
  let h := set_buffer (wire (sample_text 1 false (str "Hel")) ++ wire (sample_text 9 true [])
                       ++ wire (sample_text 0 true (str "lo")) ++ []) Http11WebSocketHandler_new in
  ∃ pending h', readRequest 3 (mkWsData [] []) h = Ret (true, pending, mkWsData [] (str "lo"), h') ∧
    buffer h' = [] ∧ mget_bytes 1 (dataframes h') = str "Hel".
Proof.
  intros h. apply (ping_splits_message (sample_text 1 false (str "Hel")) (sample_text 9 true [])
    (sample_text 0 true (str "lo")) (mkWsData [] []) [] h); try reflexivity; try discriminate.
  - repeat (apply Forall_cons_2; [apply sample_text_ok; [lia|discriminate]|]). apply Forall_nil_2.
Defined.
