(* ===== verification/MemoryCache.v ===== *)
(** * MemoryCache

    The in-process cache of [cache/memory/MemoryCacheImpl.cpp]: two stores with
    least-recently-used eviction, one for string keys and one for numbers, and
    the named queues, all in a pool guarded by mutexes.

    A store is a linked list of entries and a hash map from keys to list
    iterators.  The model keeps the iterators: a node has an identity, the map
    holds identities, and following one whose node was erased is undefined.  The
    abstract specification is the list of the entries, the most recent first. *)

From S2P Require Import Prelude StdMap StdString StringUtil.

(** ** One store *)

Section lru.
Context {K : Type} `{!EqDecision K, !Countable K}.

(** [std::list<std::pair<K, std::string>>], its nodes named, and the
    [std::unordered_map] of iterators into it; [fresh] is the next name. *)
Record LruStore := mkLru {
  lrul : list (nat * (K * bytes));
  internalMap : gmap K nat;
  fresh : nat
}.

Definition LruStore_new : LruStore := mkLru [] ∅ 0.

(** [*it]. *)
Fixpoint deref (it : nat) (l : list (nat * (K * bytes))) : outcome (K * bytes) :=
  match l with
  | [] => Undefined
  | (i, kv) :: l' => if decide (i = it) then Ret kv else deref it l'
  end.
(** [list.erase(it)]. *)
Definition erase_node (it : nat) (l : list (nat * (K * bytes))) : outcome (list (nat * (K * bytes))) :=
  _ ← deref it l; Ret (filter (λ n, n.1 ≠ it) l).
(** [list.splice(list.begin(), list, it)]. *)
Definition splice_front (it : nat) (l : list (nat * (K * bytes))) : outcome (list (nat * (K * bytes))) :=
  kv ← deref it l; Ret ((it, kv) :: filter (λ n, n.1 ≠ it) l).
(** [push_front] of a pair and the insertion of [begin()] in the map. *)
Definition push_entry (k : K) (v : bytes) (s : LruStore) : LruStore :=
  mkLru ((fresh s, (k, v)) :: lrul s)
    (match internalMap s !! k with Some _ => internalMap s | None => <[k := fresh s]> (internalMap s) end)
    (S (fresh s)).

(** Taking an entry out: [lrul.erase(it->second); internalMap.erase(it)]. *)
Definition take_out (k : K) (s : LruStore) : outcome (bool * LruStore) :=
  match internalMap s !! k with
  | Some it => l ← erase_node it (lrul s); Ret (true, mkLru l (delete k (internalMap s)) (fresh s))
  | None => Ret (false, s)
  end.

(** [clean]: [end()--] of an empty list is undefined. *)
Fixpoint clean (fuel : nat) (size : Z) (s : LruStore) : outcome LruStore :=
  if size <? wraps 32 (Z.of_nat (base.size (internalMap s))) then
    match fuel with
    | O => Out_of_fuel
    | S fuel' =>
        match last (lrul s) with
        | None => Undefined
        | Some (_, (k, _)) =>
            clean fuel' size (mkLru (take (pred (length (lrul s))) (lrul s)) (delete k (internalMap s)) (fresh s))
        end
    end
  else Ret s.

(** [setInternal]: 1 sets, 2 adds, 3 replaces; the old entry goes first. *)
Definition setInternal (size : Z) (key : K) (value : bytes) (setOrAddOrRep : Z) (s : LruStore)
    : outcome (bool * LruStore) :=
  if (setOrAddOrRep <? 1) || (3 <? setOrAddOrRep) then Ret (false, s)
  else
    '(exists_, s) ← take_out key s;
    if (setOrAddOrRep =? 1) || ((setOrAddOrRep =? 2) && negb exists_) || ((setOrAddOrRep =? 3) && exists_) then
      let s := push_entry key value s in
      s ← clean (S (length (lrul s))) size s;
      Ret (true, s)
    else Ret (false, s).

(** The body of [getValue] and of the loop of [mgetRaw]. *)
Definition lookup_entry (key : K) (s : LruStore) : outcome (option bytes * LruStore) :=
  match internalMap s !! key with
  | Some it =>
      l ← splice_front it (lrul s);
      kv ← deref it l;
      Ret (Some kv.2, mkLru l (internalMap s) (fresh s))
  | None => Ret (None, s)
  end.

Definition getValue (key : K) (s : LruStore) : outcome (bytes * LruStore) :=
  '(v, s) ← lookup_entry key s; Ret (default [] v, s).

(** [mgetRaw]: keys that are not there leave no trace in the result. *)
Fixpoint mgetRaw (keys : list K) (s : LruStore) : outcome (list bytes * LruStore) :=
  match keys with
  | [] => Ret ([], s)
  | key :: keys' =>
      '(v, s) ← lookup_entry key s;
      '(vs, s) ← mgetRaw keys' s;
      Ret (match v with Some v => v :: vs | None => vs end, s)
  end.

Definition remove (key : K) (s : LruStore) : outcome (bool * LruStore) :=
  '(_, s) ← take_out key s; Ret (true, s).

(** ** The specification *)

Definition without (k : K) (l : list (K * bytes)) : list (K * bytes) := filter (λ e, e.1 ≠ k) l.
Definition find_entry (k : K) (l : list (K * bytes)) : option bytes := (list_find (λ e, e.1 = k) l) ≫= λ p, Some p.2.2.

Inductive cache_op :=
| OpSet (mode : Z) (k : K) (v : bytes)
| OpGet (k : K)
| OpRemove (k : K).

Inductive cache_result :=
| Flag (b : bool)
| Value (v : bytes).

Definition run_op (size : Z) (op : cache_op) (s : LruStore) : outcome (cache_result * LruStore) :=
  match op with
  | OpSet mode k v => '(b, s) ← setInternal size k v mode s; Ret (Flag b, s)
  | OpGet k => '(v, s) ← getValue k s; Ret (Value v, s)
  | OpRemove k => '(b, s) ← remove k s; Ret (Flag b, s)
  end.

Fixpoint run_ops (size : Z) (ops : list cache_op) (s : LruStore) : outcome (list cache_result * LruStore) :=
  match ops with
  | [] => Ret ([], s)
  | op :: ops' =>
      '(r, s) ← run_op size op s;
      '(rs, s) ← run_ops size ops' s;
      Ret (r :: rs, s)
  end.

(** What a least-recently-used cache of [size] entries promises, and what this
    one does: a refused [add] takes the entry out. *)
Definition spec_op (size : Z) (op : cache_op) (l : list (K * bytes)) : cache_result * list (K * bytes) :=
  match op with
  | OpSet mode k v =>
      let here := bool_decide (is_Some (find_entry k l)) in
      if (mode <? 1) || (3 <? mode) then (Flag false, l)
      else if (mode =? 1) || ((mode =? 2) && negb here) || ((mode =? 3) && here) then
        (Flag true, take (Z.to_nat size) ((k, v) :: without k l))
      else (Flag false, without k l)
  | OpGet k =>
      match find_entry k l with
      | Some v => (Value v, (k, v) :: without k l)
      | None => (Value [], l)
      end
  | OpRemove k => (Flag true, without k l)
  end.

Fixpoint spec_ops (size : Z) (ops : list cache_op) (l : list (K * bytes)) : list cache_result * list (K * bytes) :=
  match ops with
  | [] => ([], l)
  | op :: ops' =>
      let '(r, l) := spec_op size op l in
      let '(rs, l) := spec_ops size ops' l in
      (r :: rs, l)
  end.

(** The entries of a store. *)
Definition entries (s : LruStore) : list (K * bytes) := (lrul s).*2.

(** Map and list describe the same entries. *)
Definition lru_ok (s : LruStore) : Prop :=
  NoDup (lrul s).*1 ∧ Forall (λ n, (n.1 < fresh s)%nat) (lrul s) ∧
  (∀ k it, internalMap s !! k = Some it ↔ ∃ v, (it, (k, v)) ∈ lrul s).

(** ** The store implements the specification *)

Lemma deref_elem it kv l : NoDup l.*1 → (it, kv) ∈ l → deref it l = Ret kv.
Proof.
  induction l as [|[i x] l IH]; [by rewrite elem_of_nil|]. cbn [fmap list_fmap deref fst].
  rewrite NoDup_cons, elem_of_cons. intros [Hi Hnd] [ [= -> ->]|Hin]; [by rewrite decide_True|].
  rewrite decide_False; [by apply IH|]. intros ->. apply Hi. apply (list_elem_of_fmap_2 fst _ _ Hin).
Qed.

(** A node and its key determine each other. *)
Lemma node_key s it k v n :
  lru_ok s → (it, (k, v)) ∈ lrul s → n ∈ lrul s → n.1 = it ↔ n.2.1 = k.
Proof.
  intros (Hnd & _ & Hmap) Hin Hn. destruct n as [i [k' v'] ]; cbn. split.
  - intros ->. pose proof (deref_elem _ _ _ Hnd Hin). pose proof (deref_elem _ _ _ Hnd Hn). congruence.
  - intros ->. assert (internalMap s !! k = Some it) by (apply Hmap; by exists v).
    assert (internalMap s !! k = Some i) by (apply Hmap; by exists v'). congruence.
Qed.

Lemma node_eq s it k v w i : lru_ok s → (it, (k, v)) ∈ lrul s → (i, (k, w)) ∈ lrul s → i = it ∧ w = v.
Proof.
  intros Hok Hin Hn. assert (i = it) as -> by (by apply (node_key s it k v _ Hok Hin Hn)). split; [done|].
  destruct Hok as (Hnd & _). pose proof (deref_elem _ _ _ Hnd Hin). pose proof (deref_elem _ _ _ Hnd Hn). congruence.
Qed.

Lemma filter_entries s it k v :
  lru_ok s → (it, (k, v)) ∈ lrul s → (filter (λ n, n.1 ≠ it) (lrul s)).*2 = without k (entries s).
Proof.
  intros Hok Hin. pose proof (λ n, node_key s it k v n Hok Hin) as Hk. unfold without, entries. clear Hok Hin.
  induction (lrul s) as [|n l IH]; [done|]. assert (n.1 = it ↔ n.2.1 = k) as Hn by (apply Hk; by left).
  specialize (IH ltac:(intros; apply Hk; by right)). rewrite fmap_cons, !filter_cons.
  destruct (decide (n.1 ≠ it)), (decide (n.2.1 ≠ k)); rewrite ?fmap_cons, ?IH; done || tauto.
Qed.

Lemma find_entry_elem s it k v :
  lru_ok s → (it, (k, v)) ∈ lrul s → find_entry k (entries s) = Some v.
Proof.
  intros Hok Hin. unfold find_entry.
  destruct (list_find_elem_of (λ e : K * bytes, e.1 = k) (entries s) (k, v)) as [ [i [k' w] ] E];
    [apply (list_elem_of_fmap_2 snd _ _ Hin)|done|].
  rewrite E. cbn. apply list_find_Some in E as (E & Hk & _). cbn in Hk. subst k'.
  apply list_elem_of_lookup_2, list_elem_of_fmap in E as ([j e] & He & Hj). cbn in He. subst e.
  by destruct (node_eq s it k v w j Hok Hin Hj) as [_ ->].
Qed.

Lemma find_entry_map s k :
  lru_ok s → find_entry k (entries s) = None ↔ internalMap s !! k = None.
Proof.
  intros Hok. destruct (internalMap s !! k) as [it|] eqn:E.
  - pose proof Hok as (_ & _ & Hmap). apply Hmap in E as [v Hv].
    by rewrite (find_entry_elem s it k v Hok Hv).
  - split; [done|]. intros _. unfold find_entry.
    destruct (list_find _ _) as [ [i [k' w] ]|] eqn:Ef; [|done]. exfalso.
    apply list_find_Some in Ef as (Ef & Hk & _). cbn in Hk. subst k'.
    apply list_elem_of_lookup_2, list_elem_of_fmap in Ef as ([j e] & He & Hj). cbn in He. subst e.
    destruct Hok as (_ & _ & Hmap). assert (internalMap s !! k = Some j) by (apply Hmap; by exists w). congruence.
Qed.

Lemma without_none k l : find_entry k l = None → without k l = l.
Proof.
  unfold find_entry, without. intros H. assert (list_find (λ e : K * bytes, e.1 = k) l = None) as Hn
    by (by destruct (list_find _ _)). apply list_find_None in Hn. clear H.
  induction Hn as [|e l He _ IH]; [done|]. by rewrite filter_cons_True, IH.
Qed.

Lemma lru_size s : lru_ok s → base.size (internalMap s) = length (lrul s).
Proof.
  intros Hok. pose proof Hok as (Hnd & _ & Hmap). set (f (n : nat * (K * bytes)) := (n.2.1, n.1)).
  assert (NoDup (f <$> lrul s).*1) as Hkeys.
  { rewrite <- list_fmap_compose. apply NoDup_fmap_2_strong; [|by eapply NoDup_fmap_1].
    intros [i [k v] ] [j [k' w] ] Hi Hj E. cbn in E. subst k'.
    by destruct (node_eq s i k v w j Hok Hi Hj) as [-> ->]. }
  assert (internalMap s = list_to_map (f <$> lrul s)) as ->.
  { apply map_eq. intros k. apply option_eq. intros it. rewrite Hmap, <- elem_of_list_to_map by done.
    rewrite list_elem_of_fmap. split.
    - intros [v Hv]. by exists (it, (k, v)).
    - intros ([i [k' v] ] & [= -> ->] & Hv). by exists v. }
  rewrite map_size_list_to_map, length_fmap by done. done.
Qed.

(** Removing a node and its key. *)
Lemma lru_ok_remove s it k v l' :
  lru_ok s → (it, (k, v)) ∈ lrul s → sublist l' (lrul s) →
  (∀ n, n ∈ l' ↔ n.1 ≠ it ∧ n ∈ lrul s) → lru_ok (mkLru l' (delete k (internalMap s)) (fresh s)).
Proof.
  intros Hok Hin Hsub Hl. pose proof Hok as (Hnd & Hfresh & Hmap). split; [|split]; cbn [lrul internalMap fresh].
  - eapply sublist_NoDup; [exact Hnd|]. by apply fmap_sublist.
  - apply Forall_forall. intros n Hn. apply Hl in Hn as [_ Hn]. by eapply Forall_forall in Hfresh.
  - intros k' it'. rewrite lookup_delete_Some, Hmap. setoid_rewrite Hl. cbn [fst]. split.
    + intros [Hne [w Hw] ]. exists w. split; [|done]. intros ->. apply Hne.
      symmetry. by apply (node_key s it k v _ Hok Hin Hw).
    + intros (w & Hne & Hw). split; [|by exists w]. intros ->. apply Hne. by apply (node_key s it k' v _ Hok Hin Hw).
Qed.

Lemma take_out_ok k s :
  lru_ok s → ∃ s', take_out k s = Ret (bool_decide (is_Some (find_entry k (entries s))), s') ∧
    lru_ok s' ∧ entries s' = without k (entries s) ∧ internalMap s' !! k = None.
Proof.
  intros Hok. unfold take_out. destruct (internalMap s !! k) as [it|] eqn:E.
  - pose proof Hok as (Hnd & _ & Hmap). pose proof E as E'. apply Hmap in E' as [v Hin].
    unfold erase_node. rewrite (deref_elem it (k, v)) by done. cbn [mbind outcome_bind].
    rewrite (find_entry_elem s it k v), bool_decide_eq_true_2 by (done || by eexists).
    eexists. split; [reflexivity|]. split; [|split].
    + apply (lru_ok_remove s it k v); [done|done|apply sublist_filter|]. intros n. by rewrite list_elem_of_filter.
    + by apply filter_entries with v.
    + apply lookup_delete_eq.
  - exists s. apply find_entry_map in E as En; [|done]. rewrite En.
    split; [done|]. split; [done|]. by rewrite without_none.
Qed.

Lemma push_entry_ok k v s :
  lru_ok s → internalMap s !! k = None →
  lru_ok (push_entry k v s) ∧ entries (push_entry k v s) = (k, v) :: entries s.
Proof.
  intros (Hnd & Hfresh & Hmap) Hk. split; [|done]. unfold push_entry, lru_ok. rewrite Hk. cbn [lrul internalMap fresh].
  rewrite Forall_forall in Hfresh. split; [|split].
  - rewrite fmap_cons, NoDup_cons. split; [|done]. cbn [fst]. intros (n & E & Hn)%list_elem_of_fmap.
    specialize (Hfresh n Hn). lia.
  - apply Forall_cons. cbn [fst]. split; [lia|]. apply Forall_forall. intros n Hn. specialize (Hfresh n Hn). lia.
  - intros k' it. setoid_rewrite elem_of_cons. destruct (decide (k = k')) as [<-|Hne].
    + rewrite lookup_insert_eq. split.
      * intros [= <-]. exists v. by left.
      * intros [w [ [= -> ->]|Hw] ]; [done|]. assert (internalMap s !! k = Some it) by (apply Hmap; by exists w). congruence.
    + rewrite lookup_insert_ne, Hmap by done. split.
      * intros [w Hw]. exists w. by right.
      * intros [w [ [= -> -> ->]|Hw] ]; [done|by exists w].
Qed.

Lemma lru_ok_drop_last s it k v l' :
  lru_ok s → lrul s = l' ++ [(it, (k, v))] → lru_ok (mkLru l' (delete k (internalMap s)) (fresh s)).
Proof.
  intros Hok El. pose proof Hok as (Hnd & _ & _). rewrite El, fmap_app, NoDup_app in Hnd. destruct Hnd as (_ & Hnin & _).
  apply (lru_ok_remove s it k v); rewrite ?El; [done|apply elem_of_app; right; by left|by apply sublist_inserts_r|].
  intros n. rewrite elem_of_app, list_elem_of_singleton. split.
  - intros Hn. split; [|by left]. intros <-. apply (Hnin n.1); [by apply list_elem_of_fmap_2|by left].
  - by intros [Hne [Hn| ->] ].
Qed.

Lemma clean_ok fuel size s :
  lru_ok s → 0 ≤ size → Z.of_nat (length (lrul s)) < 2 ^ 31 → (length (lrul s) < fuel)%nat →
  ∃ s', clean fuel size s = Ret s' ∧ lru_ok s' ∧ entries s' = take (Z.to_nat size) (entries s).
Proof.
  revert s. induction fuel as [|fuel IH]; intros s Hok Hsize Hlen Hfuel; [lia|]. cbn [clean].
  rewrite lru_size, wraps_small by (done || lia). destruct (Z.ltb_spec size (Z.of_nat (length (lrul s)))) as [Hlt|Hge].
  - destruct (last (lrul s)) as [ [it [k v] ]|] eqn:El; [|apply last_None in El; rewrite El in Hlt; cbn in Hlt; lia].
    apply last_Some in El as [l' El]. assert (take (pred (length (lrul s))) (lrul s) = l') as ->.
    { rewrite El, length_app, Nat.add_1_r. cbn [pred]. apply take_app_length. }
    pose proof (lru_ok_drop_last s it k v l' Hok El) as Hok1. rewrite El, length_app, Nat.add_1_r in *.
    destruct (IH (mkLru l' (delete k (internalMap s)) (fresh s)) Hok1) as (s' & -> & Hok' & He); cbn [lrul]; try lia.
    exists s'. split; [done|]. split; [done|]. rewrite He. unfold entries. cbn [lrul]. rewrite El, fmap_app.
    symmetry. apply take_app_le. rewrite length_fmap. lia.
  - exists s. split; [done|]. split; [done|]. symmetry. apply take_ge. unfold entries. rewrite length_fmap. lia.
Qed.

Lemma lookup_entry_ok k s :
  lru_ok s → ∃ s', lookup_entry k s = Ret (find_entry k (entries s), s') ∧ lru_ok s' ∧
    entries s' = match find_entry k (entries s) with
                 | Some v => (k, v) :: without k (entries s)
                 | None => entries s
                 end.
Proof.
  intros Hok. unfold lookup_entry. destruct (internalMap s !! k) as [it|] eqn:E.
  - pose proof Hok as (Hnd & Hfresh & Hmap). pose proof E as E'. apply Hmap in E' as [v Hin].
    rewrite (find_entry_elem s it k v) by done. unfold splice_front.
    rewrite (deref_elem it (k, v)) by done. cbn [mbind outcome_bind deref]. rewrite decide_True by done.
    cbn [mbind outcome_bind snd]. eexists. split; [reflexivity|]. split.
    + split; [|split]; cbn [lrul internalMap fresh].
      * rewrite fmap_cons, NoDup_cons. cbn [fst]. split.
        -- intros (n & E1 & Hn)%list_elem_of_fmap. apply list_elem_of_filter in Hn as [Hn _]. by apply Hn.
        -- eapply sublist_NoDup; [exact Hnd|]. apply fmap_sublist, sublist_filter.
      * apply Forall_cons. rewrite Forall_forall in Hfresh. split; [by apply (Hfresh _ Hin)|].
        apply Forall_forall. intros n [_ Hn]%list_elem_of_filter. by apply Hfresh.
      * intros k' it'. rewrite Hmap. setoid_rewrite elem_of_cons. setoid_rewrite list_elem_of_filter. cbn [fst].
        split; intros [w Hw]; exists w; [|by destruct Hw as [ [= -> -> ->]|[_ Hw] ] ].
        destruct (decide (it' = it)) as [->|]; [|by right; split]. left.
        pose proof (deref_elem _ _ _ Hnd Hw). pose proof (deref_elem _ _ _ Hnd Hin). congruence.
    + unfold entries at 1. cbn [lrul]. rewrite fmap_cons. cbn [snd]. f_equal. by apply (filter_entries s it k v).
  - exists s. apply find_entry_map in E as En; [|done]. by rewrite En.
Qed.

Lemma without_length k l : (length (without k l) ≤ length l)%nat.
Proof. apply length_filter. Qed.

Lemma without_shorter k v l : find_entry k l = Some v → (length (without k l) < length l)%nat.
Proof.
  unfold find_entry. destruct (list_find _ _) as [ [i [k' w] ]|] eqn:E; [|done]. intros _.
  apply list_find_Some in E as (E & Hk & _). cbn in Hk. subst k'.
  eapply length_filter_lt; [by eapply list_elem_of_lookup_2|]. cbn. tauto.
Qed.

(** Each operation of a store that is not larger than its limit. *)
Lemma run_op_ok size op s :
  0 ≤ size < 2 ^ 31 - 1 → lru_ok s → Z.of_nat (length (entries s)) ≤ size →
  ∃ s', run_op size op s = Ret ((spec_op size op (entries s)).1, s') ∧ lru_ok s' ∧
    entries s' = (spec_op size op (entries s)).2 ∧ Z.of_nat (length (entries s')) ≤ size.
Proof.
  intros Hsize Hok Hlen. destruct op as [mode k v|k|k]; cbn [run_op spec_op].
  - unfold setInternal. destruct (_ || _); [by exists s|].
    destruct (take_out_ok k s Hok) as (s1 & -> & Hok1 & He1 & Hk1). cbn [mbind outcome_bind].
    pose proof (without_length k (entries s)) as Hw.
    destruct (_ || _); [|exists s1; rewrite He1; split; [done|split; [done|split; [done|cbn [snd]; lia] ] ] ].
    destruct (push_entry_ok k v s1 Hok1 Hk1) as [Hok2 He2].
    assert (length (lrul (push_entry k v s1)) = S (length (without k (entries s)))) as Hl2.
    { transitivity (length (entries (push_entry k v s1))); [unfold entries; by rewrite length_fmap|].
      by rewrite He2, He1. }
    destruct (clean_ok (S (length (lrul (push_entry k v s1)))) size _ Hok2) as (s3 & -> & Hok3 & He3); [lia|lia|lia|].
    cbn [mbind outcome_bind]. exists s3. rewrite He2, He1 in He3. split; [done|]. split; [done|]. split; [done|].
    rewrite He3, length_take. cbn [length]. lia.
  - unfold getValue. destruct (lookup_entry_ok k s Hok) as (s1 & -> & Hok1 & He1). cbn [mbind outcome_bind].
    exists s1. rewrite He1. destruct (find_entry k (entries s)) as [v|] eqn:E; cbn [default fst snd]; [|done].
    repeat (split; [done|]). pose proof (without_shorter k v (entries s) E). cbn [length]. lia.
  - unfold remove. destruct (take_out_ok k s Hok) as (s1 & -> & Hok1 & He1 & _). cbn [mbind outcome_bind].
    exists s1. rewrite He1. pose proof (without_length k (entries s)). split; [done|split; [done|split; [done|cbn [snd]; lia] ] ].
Qed.

Lemma run_ops_ok size ops : ∀ s,
  0 ≤ size < 2 ^ 31 - 1 → lru_ok s → Z.of_nat (length (entries s)) ≤ size →
  ∃ s', run_ops size ops s = Ret ((spec_ops size ops (entries s)).1, s') ∧ lru_ok s' ∧
    entries s' = (spec_ops size ops (entries s)).2 ∧ Z.of_nat (length (entries s')) ≤ size.
Proof.
  induction ops as [|op ops IH]; intros s Hsize Hok Hlen; cbn [run_ops spec_ops]; [by exists s|].
  destruct (run_op_ok size op s Hsize Hok Hlen) as (s1 & -> & Hok1 & He1 & Hlen1). cbn [mbind outcome_bind].
  destruct (IH s1 Hsize Hok1 Hlen1) as (s2 & -> & Hok2 & He2 & Hlen2). cbn [mbind outcome_bind].
  rewrite He1 in *. destruct (spec_op size op (entries s)) as [r l]. cbn [fst snd] in *.
  destruct (spec_ops size ops l) as [rs l']. cbn [fst snd] in *. by exists s2.
Qed.

Lemma new_ok : lru_ok LruStore_new.
Proof.
  split; [apply NoDup_nil_2|]. split; [by apply Forall_nil|]. intros k it. cbn [LruStore_new internalMap lrul].
  rewrite lookup_empty. split; [done|]. by intros [v Hv%elem_of_nil].
Qed.


End lru.
Arguments LruStore K {_ _}.

(** ** Numbers as text *)

(** [long double] and [sscanf] belong to the platform: a value type, the reading
    of a number at the front of a text, and the conversions C++ makes. *)
Class LongDouble := {
  LD : Type;
  sscanf_Lf : bytes → option LD;
  ld_of_int : Z → LD;
  ld_plus : LD → LD → LD;
  ld_minus : LD → LD → LD;
  ld_to_ll : LD → outcome Z;
  ld_to_ull : LD → outcome Z
}.

(** What the code relies on: integers up to [2^64] are exact, and a conversion to
    [long long] that does not fit is undefined. *)
Definition fits_ll (x : Z) : bool := (- 2 ^ 63 <=? x) && (x <? 2 ^ 63).
Class LongDoubleExact `{LongDouble} := {
  sscanf_decimal a : 0 ≤ a < 2 ^ 64 → sscanf_Lf (fromNumber a) = Some (ld_of_int a);
  plus_exact a n : 0 ≤ a < 2 ^ 64 → - 2 ^ 31 ≤ n < 2 ^ 31 → a + n ≤ 2 ^ 64 →
    ld_to_ll (ld_plus (ld_of_int a) (ld_of_int n)) = if fits_ll (a + n) then Ret (a + n) else Undefined;
  minus_exact a n : 0 ≤ a < 2 ^ 64 → - 2 ^ 31 ≤ n < 2 ^ 31 → a - n ≤ 2 ^ 64 →
    ld_to_ll (ld_minus (ld_of_int a) (ld_of_int n)) = if fits_ll (a - n) then Ret (a - n) else Undefined
}.

(** [CastUtil::toLongdouble]. *)
Definition toLongdouble `{LongDouble} (vval : bytes) : outcome LD :=
  match sscanf_Lf vval with Some ld => Ret ld | None => Throw Runtime_error end.

(** ** The pool *)

Record MemoryCacheConnectionPool := mkPool {
  size : Z;                                     (* int *)
  strings : LruStore bytes;                     (* lrul, internalMap *)
  numbers : LruStore Z;                         (* lruln, internalMapN *)
  locked : bool;
  internalQMap : list (bytes * list bytes)
}.

(** The pool of a configuration whose ["size"] reads as [n], if it reads at all. *)
Definition MemoryCacheConnectionPool_new (n : option Z) : MemoryCacheConnectionPool :=
  mkPool (default 10000 n) LruStore_new LruStore_new false [].

Definition set_strings (s : LruStore bytes) (p : MemoryCacheConnectionPool) : MemoryCacheConnectionPool :=
  mkPool (size p) s (numbers p) (locked p) (internalQMap p).
Definition set_numbers (s : LruStore Z) (p : MemoryCacheConnectionPool) : MemoryCacheConnectionPool :=
  mkPool (size p) (strings p) s (locked p) (internalQMap p).
Definition set_locked (b : bool) (p : MemoryCacheConnectionPool) : MemoryCacheConnectionPool :=
  mkPool (size p) (strings p) (numbers p) b (internalQMap p).

(** An operation between [lock.lock()] and [lock.unlock()].  A lock that is held
    blocks the caller for ever; an exception leaves the lock held. *)
Definition locking {A} (body : MemoryCacheConnectionPool → outcome A * MemoryCacheConnectionPool)
    (p : MemoryCacheConnectionPool) : outcome A * MemoryCacheConnectionPool :=
  if locked p then (Out_of_fuel, p)
  else match body (set_locked true p) with
       | (Ret a, p) => (Ret a, set_locked false p)
       | r => r
       end.

Definition on_strings {A} (f : LruStore bytes → outcome (A * LruStore bytes)) (p : MemoryCacheConnectionPool)
    : outcome A * MemoryCacheConnectionPool :=
  match f (strings p) with
  | Ret (a, s) => (Ret a, set_strings s p)
  | Throw e => (Throw e, p)
  | Undefined => (Undefined, p)
  | Out_of_fuel => (Out_of_fuel, p)
  end.

Definition on_numbers {A} (f : LruStore Z → outcome (A * LruStore Z)) (p : MemoryCacheConnectionPool)
    : outcome A * MemoryCacheConnectionPool :=
  match f (numbers p) with
  | Ret (a, s) => (Ret a, set_numbers s p)
  | Throw e => (Throw e, p)
  | Undefined => (Undefined, p)
  | Out_of_fuel => (Out_of_fuel, p)
  end.

(** [std::string(const char* )]: up to the terminating zero. *)
Fixpoint c_str (s : bytes) : bytes :=
  match s with
  | [] => []
  | b :: s' => if b =? 0 then [] else b :: c_str s'
  end.

Definition store_string (key value : bytes) (mode : Z) (p : MemoryCacheConnectionPool)
    : outcome bool * MemoryCacheConnectionPool :=
  if (mode <? 1) || (3 <? mode) then (Ret false, p)
  else locking (λ p, on_strings (setInternal (size p) key value mode) p) p.
Definition store_number (key : Z) (value : bytes) (mode : Z) (p : MemoryCacheConnectionPool)
    : outcome bool * MemoryCacheConnectionPool :=
  if (mode <? 1) || (3 <? mode) then (Ret false, p)
  else locking (λ p, on_numbers (setInternal (size p) key value mode) p) p.

(** [set], [add] and [replace] of a [std::string]: [setRaw(key, value.c_str())]. *)
Definition setRaw (key value : bytes) := store_string key (c_str value) 1.
Definition addRaw (key value : bytes) := store_string key (c_str value) 2.
Definition replaceRaw (key value : bytes) := store_string key (c_str value) 3.
(** The overloads for numeric keys keep the bytes of the [string_view]. *)
Definition setRaw_num (key : Z) (value : bytes) := store_number key value 1.
Definition addRaw_num (key : Z) (value : bytes) := store_number key value 2.
Definition replaceRaw_num (key : Z) (value : bytes) := store_number key value 3.

Definition cache_getValue (key : bytes) := locking (on_strings (getValue key)).
Definition cache_getValue_num (key : Z) := locking (on_numbers (getValue key)).
Definition cache_getValues (keys : list bytes) := locking (on_strings (mgetRaw keys)).
Definition cache_getValues_num (keys : list Z) := locking (on_numbers (mgetRaw keys)).
Definition cache_remove (key : bytes) := locking (on_strings (remove key)).
Definition cache_remove_num (key : Z) := locking (on_numbers (remove key)).

Section numbers.
Context `{!LongDouble}.

(** The four counters: the entry is taken out before its text is converted;
    [conv] gives the result and the number that is written back. *)
Definition bump {R} (key : bytes) (conv : LD → outcome (R * Z)) (absent : R) (p : MemoryCacheConnectionPool)
    : outcome R * MemoryCacheConnectionPool :=
  match internalMap (strings p) !! key with
  | None => (Ret absent, p)
  | Some it =>
      match (l ← splice_front it (lrul (strings p));
             kv ← deref it l;
             l ← erase_node it l;
             Ret (kv.2, l)) with
      | Ret (rval, l) =>
          let s := mkLru l (delete key (internalMap (strings p))) (fresh (strings p)) in
          let p := set_strings s p in
          match toLongdouble rval ≫= conv with
          | Ret (val, out) =>
              on_strings (λ s,
                let s := push_entry key (fromNumber out) s in
                s ← clean (S (length (lrul s))) (size p) s;
                Ret (val, s)) p
          | Throw e => (Throw e, p)
          | Undefined => (Undefined, p)
          | Out_of_fuel => (Out_of_fuel, p)
          end
      | Throw e => (Throw e, p)
      | Undefined => (Undefined, p)
      | Out_of_fuel => (Out_of_fuel, p)
      end
  end.

Definition increment (key : bytes) (number : Z) :=
  locking (bump key (λ ld, val ← ld_to_ll (ld_plus ld (ld_of_int number)); Ret (val, wrapu 64 val)) (-1)).
Definition decrement (key : bytes) (number : Z) :=
  locking (bump key (λ ld, val ← ld_to_ll (ld_minus ld (ld_of_int number)); Ret (val, wrapu 64 val)) (-1)).
(** The float versions: the number is written without its fraction. *)
Definition incrementFloat (key : bytes) (number : LD) :=
  locking (bump key (λ ld, let val := ld_plus ld number in out ← ld_to_ull val; Ret (val, out)) (ld_of_int (-1))).
Definition decrementFloat (key : bytes) (number : LD) :=
  locking (bump key (λ ld, let val := ld_minus ld number in out ← ld_to_ull val; Ret (val, out)) (ld_of_int (-1))).

End numbers.

(** ** The queues *)

Definition queue (q : bytes) (p : MemoryCacheConnectionPool) : list bytes := default [] (mfind q (internalQMap p)).

Definition set_queue (q : bytes) (vs : list bytes) (p : MemoryCacheConnectionPool) : MemoryCacheConnectionPool :=
  mkPool (size p) (strings p) (numbers p) (locked p) (mset q vs (internalQMap p)).

(** [addToQ] always says false. *)
Definition addToQ (qname value : bytes) (p : MemoryCacheConnectionPool) : bool * MemoryCacheConnectionPool :=
  (false, set_queue qname (queue qname p ++ [value]) p).
Definition getFromQ (qname : bytes) (p : MemoryCacheConnectionPool) : bytes * MemoryCacheConnectionPool :=
  match queue qname p with
  | [] => ([], p)
  | v :: vs => (v, set_queue qname vs p)
  end.

(** ** Properties of a store *)

Section store_properties.
Context {K : Type} `{!EqDecision K, !Countable K}.

(** C4: Whatever sequence of operations runs on a new store with a limit below the largest int,
    no iterator is ever used after its node is gone, every result is that of the
    least-recently-used list, the store holds exactly that list, and it never holds more entries
    than its limit. *)
Theorem cache_refines_lru size (ops : list (@cache_op K)) :
  0 ≤ size < 2 ^ 31 - 1 →
  ∃ s, run_ops size ops LruStore_new = Ret ((spec_ops size ops []).1, s) ∧
    entries s = (spec_ops size ops []).2 ∧ Z.of_nat (length (entries s)) ≤ size.
Proof.
  intros Hsize. destruct (run_ops_ok size ops LruStore_new Hsize new_ok) as (s & Hrun & _ & He & Hl);
    [cbn; lia|]. by exists s.
Qed.

Lemma find_entry_without (k : K) l : find_entry k (without k l) = None.
Proof.
  unfold find_entry. destruct (list_find _ _) as [ [i [k' w] ]|] eqn:E; [|done].
  apply list_find_Some in E as (E & Hk & _). cbn in Hk. subst k'.
  apply list_elem_of_lookup_2, list_elem_of_filter in E as [E _]. by destruct E.
Qed.

(** An [add] that is refused because the key is there does not leave the entry
    alone: it takes it out of the cache. *)
Theorem refused_add_removes size (k : K) v old s :
  lru_ok s → find_entry k (entries s) = Some old →
  ∃ s', setInternal size k v 2 s = Ret (false, s') ∧ entries s' = without k (entries s) ∧
    getValue k s' = Ret ([], s').
Proof.
  intros Hok Hk. unfold setInternal. cbn [Z.ltb Z.compare Pos.compare Pos.compare_cont orb].
  destruct (take_out_ok k s Hok) as (s' & -> & Hok' & He & Hmap). cbn [mbind outcome_bind].
  rewrite Hk, bool_decide_eq_true_2 by (by eexists). exists s'. split; [done|]. split; [done|].
  unfold getValue, lookup_entry. by rewrite Hmap.
Qed.

Lemma clean_negative fuel size (s : LruStore K) :
  lru_ok s → - 2 ^ 31 ≤ size < 0 → Z.of_nat (length (lrul s)) < 2 ^ 31 → (length (lrul s) < fuel)%nat →
  clean fuel size s = Undefined.
Proof.
  revert s. induction fuel as [|fuel IH]; intros s Hok Hsize Hlen Hfuel; [lia|]. cbn [clean].
  rewrite lru_size, wraps_small by (done || lia). replace (size <? _) with true by lia.
  destruct (last (lrul s)) as [ [it [k v] ]|] eqn:El; [|done].
  apply last_Some in El as [l' El]. assert (take (pred (length (lrul s))) (lrul s) = l') as ->.
  { rewrite El, length_app, Nat.add_1_r. cbn [pred]. apply take_app_length. }
  rewrite El, length_app, Nat.add_1_r in Hlen, Hfuel.
  apply IH; cbn [lrul]; [|done|lia|lia]. by apply (lru_ok_drop_last s it k v).
Qed.

(** A negative limit is not refused: the first [set] cleans the store until it
    is empty and then steps back from the end of the empty list. *)
Theorem negative_size_undefined size (k : K) v s :
  lru_ok s → - 2 ^ 31 ≤ size < 0 → Z.of_nat (length (lrul s)) < 2 ^ 31 - 1 →
  setInternal size k v 1 s = Undefined.
Proof.
  intros Hok Hsize Hlen. unfold setInternal. cbn [Z.ltb Z.compare Pos.compare Pos.compare_cont orb].
  destruct (take_out_ok k s Hok) as (s1 & -> & Hok1 & He1 & Hk1). cbn [mbind outcome_bind Z.eqb Pos.eqb orb].
  destruct (push_entry_ok k v s1 Hok1 Hk1) as [Hok2 He2].
  rewrite clean_negative; [done|done|done| |lia].
  assert (length (lrul (push_entry k v s1)) = S (length (without k (entries s)))) as ->.
  { transitivity (length (entries (push_entry k v s1))); [unfold entries; by rewrite length_fmap|]. by rewrite He2, He1. }
  pose proof (without_length k (entries s)) as Hw. unfold entries at 2 in Hw. rewrite length_fmap in Hw. lia.
Qed.

End store_properties.

(** ** Properties of the pool *)

Lemma locking_ret {A} (body : MemoryCacheConnectionPool → outcome A * MemoryCacheConnectionPool) p a p' :
  locked p = false → body (set_locked true p) = (Ret a, p') → locking body p = (Ret a, set_locked false p').
Proof. unfold locking. by intros -> ->. Qed.

Section counters.
Context `{!LongDouble}.

(** What a counter does with an entry: the text is converted only after the entry
    was taken out. *)
Lemma bump_ok {R} key (conv : LD → outcome (R * Z)) absent p old :
  lru_ok (strings p) → find_entry key (entries (strings p)) = Some old →
  ∃ s, lru_ok s ∧ entries s = without key (entries (strings p)) ∧ internalMap s !! key = None ∧
    bump key conv absent p
    = match toLongdouble old ≫= conv with
      | Ret (val, out) =>
          on_strings (λ s,
            let s := push_entry key (fromNumber out) s in
            s ← clean (S (length (lrul s))) (size p) s; Ret (val, s)) (set_strings s p)
      | Throw e => (Throw e, set_strings s p)
      | Undefined => (Undefined, set_strings s p)
      | Out_of_fuel => (Out_of_fuel, set_strings s p)
      end.
Proof.
  intros Hok Hold. destruct (internalMap (strings p) !! key) as [it|] eqn:E;
    [|by apply find_entry_map in E; [|done]; rewrite E in Hold].
  pose proof Hok as (Hnd & _ & Hmap). pose proof E as E'. apply Hmap in E' as [v Hin].
  rewrite (find_entry_elem _ it key v) in Hold by done. injection Hold as ->.
  set (l := filter (λ n, n.1 ≠ it) (lrul (strings p))).
  exists (mkLru l (delete key (internalMap (strings p))) (fresh (strings p))). split; [|split; [|split] ].
  - apply (lru_ok_remove _ it key old); [done|done|apply sublist_filter|]. intros n. unfold l; by rewrite list_elem_of_filter.
  - by apply (filter_entries _ it key old).
  - apply lookup_delete_eq.
  - unfold bump. rewrite E. unfold splice_front. rewrite (deref_elem it (key, old)) by done.
    cbn [mbind outcome_bind deref erase_node]. rewrite decide_True by done. cbn [mbind outcome_bind snd].
    rewrite filter_cons_False by (cbn; tauto).
    assert (filter (λ n, n.1 ≠ it) (filter (λ n, n.1 ≠ it) (lrul (strings p))) = l) as ->; [|done].
    unfold l. rewrite list_filter_filter. apply list_filter_iff. intros. tauto.
Qed.

(** A counter over a text that is no number throws after it has taken the
    entry out and without unlocking: the entry is lost, and every later
    operation on the cache blocks. *)
Theorem failed_increment_blocks_cache key number p old :
  locked p = false → lru_ok (strings p) → find_entry key (entries (strings p)) = Some old →
  sscanf_Lf old = None →
  ∃ p', increment key number p = (Throw Runtime_error, p') ∧
    find_entry key (entries (strings p')) = None ∧
    ∀ k v, cache_getValue k p' = (Out_of_fuel, p') ∧ setRaw k v p' = (Out_of_fuel, p') ∧
      cache_remove k p' = (Out_of_fuel, p') ∧ increment k number p' = (Out_of_fuel, p').
Proof.
  intros Hl Hok Hold Hnone. unfold increment, locking. rewrite Hl.
  match goal with |- context [bump key ?c ?a ?q] =>
    destruct (bump_ok key c a q old Hok Hold) as (s & _ & He & _ & ->) end.
  unfold toLongdouble. rewrite Hnone. cbn [mbind outcome_bind].
  eexists. split; [reflexivity|]. cbn [set_strings strings]. rewrite He. split; [apply find_entry_without|].
  intros k v. done.
Qed.

Lemma clean_keeps_head (cap : Z) (s : LruStore bytes) (k v : bytes) (l : list (bytes * bytes)) :
  0 < cap → lru_ok s → Z.of_nat (length (lrul s)) < 2 ^ 31 → entries s = (k, v) :: l →
  ∃ s', clean (S (length (lrul s))) cap s = Ret s' ∧ lru_ok s' ∧ find_entry k (entries s') = Some v ∧
    Z.of_nat (length (entries s')) ≤ cap.
Proof.
  intros Hcap Hok Hlen He. destruct (clean_ok (S (length (lrul s))) cap s Hok) as (s' & Hc & Hok' & He');
    [lia|lia|lia|]. exists s'. split; [done|]. split; [done|]. rewrite He', He. split; [|rewrite length_take; lia].
  destruct (Z.to_nat cap) as [|n] eqn:E; [lia|]. cbn [take]. unfold find_entry. cbn [list_find fst].
  by rewrite decide_True.
Qed.

(** A pool whose string store is within its limit. *)
Definition pool_ok (p : MemoryCacheConnectionPool) : Prop :=
  locked p = false ∧ lru_ok (strings p) ∧ 0 < size p < 2 ^ 31 - 1 ∧
  Z.of_nat (length (entries (strings p))) ≤ size p.

Lemma bump_value {R} key (conv : LD → outcome (R * Z)) absent p old ld val out :
  pool_ok p → find_entry key (entries (strings p)) = Some old →
  sscanf_Lf old = Some ld → conv ld = Ret (val, out) →
  ∃ p', locking (bump key conv absent) p = (Ret val, p') ∧ pool_ok p' ∧
    find_entry key (entries (strings p')) = Some (fromNumber out).
Proof.
  intros (Hl & Hok & Hsize & Hlen) Hold Hld Hconv.
  destruct (bump_ok key conv absent (set_locked true p) old Hok Hold) as (s & Hok1 & He & Hmap & Hrun).
  destruct (push_entry_ok key (fromNumber out) s Hok1 Hmap) as [Hok2 He2].
  assert (length (lrul (push_entry key (fromNumber out) s)) ≤ S (length (entries (strings p))))%nat as Hl2.
  { transitivity (length (entries (push_entry key (fromNumber out) s))); [unfold entries; by rewrite length_fmap|].
    rewrite He2, He. cbn [length]. pose proof (without_length key (entries (strings p))).
    cbn [set_locked strings]. lia. }
  destruct (clean_keeps_head (size p) (push_entry key (fromNumber out) s) key (fromNumber out) (entries s))
    as (s' & Hc & Hok' & Hf' & Hl'); [lia|done|lia|done|].
  exists (set_locked false (set_strings s' (set_strings s (set_locked true p)))). split; [|split; [|exact Hf'] ].
  - apply (locking_ret (bump key conv absent)); [done|]. rewrite Hrun. unfold toLongdouble. rewrite Hld.
    cbn [mbind outcome_bind]. rewrite Hconv. unfold on_strings. cbv zeta. cbn [set_strings strings size set_locked].
    rewrite Hc. done.
  - split; [done|]. split; [exact Hok'|]. split; [exact Hsize|exact Hl'].
Qed.

Lemma getValue_found key v p :
  pool_ok p → find_entry key (entries (strings p)) = Some v →
  ∃ p', cache_getValue key p = (Ret v, p').
Proof.
  intros (Hl & Hok & _) Hv. destruct (lookup_entry_ok key (strings p) Hok) as (s' & Hs & _).
  eexists. unfold cache_getValue. apply locking_ret; [done|]. unfold on_strings, getValue.
  cbn [set_locked strings]. rewrite Hs, Hv. reflexivity.
Qed.

Lemma fromNumber_wrap n : fromNumber (wrapu 64 n) = fromNumber n.
Proof. unfold fromNumber. by rewrite wrapu_wrapu by lia. Qed.

(** A counter adds to the number an entry holds and writes the sum back as
    text, most recently used. *)
Theorem increment_counts `{!LongDoubleExact} key a n p :
  pool_ok p → 0 ≤ a < 2 ^ 63 → - 2 ^ 31 ≤ n < 2 ^ 31 → 0 ≤ a + n < 2 ^ 63 →
  find_entry key (entries (strings p)) = Some (fromNumber a) →
  ∃ p', increment key n p = (Ret (a + n), p') ∧ pool_ok p' ∧
    ∃ p'', cache_getValue key p' = (Ret (fromNumber (a + n)), p'').
Proof.
  intros Hp Ha Hn Hs Hold. edestruct (bump_value key
    (λ ld, val ← ld_to_ll (ld_plus ld (ld_of_int n)); Ret (val, wrapu 64 val)) (-1) p) as (p' & Hrun & Hp' & Hf);
    [done|exact Hold|apply sscanf_decimal; lia| |].
  { rewrite plus_exact by lia. unfold fits_ll. replace (_ && _) with true by lia. reflexivity. }
  rewrite fromNumber_wrap in Hf. exists p'. split; [exact Hrun|]. split; [done|]. by apply getValue_found.
Qed.

(** A counter must not go below zero: the negative result is written as the
    unsigned number it wraps to, which no longer fits [long long], so adding to
    the entry again is undefined. *)
Theorem decrement_below_zero_breaks `{!LongDoubleExact} key a n m p :
  pool_ok p → 0 ≤ a < n → n < 2 ^ 31 → 0 ≤ m ≤ n - a →
  find_entry key (entries (strings p)) = Some (fromNumber a) →
  ∃ p', decrement key n p = (Ret (a - n), p') ∧
    (∃ p'', cache_getValue key p' = (Ret (fromNumber (2 ^ 64 + (a - n))), p'')) ∧
    (increment key m p').1 = Undefined.
Proof.
  intros Hp Ha Hn Hm Hold. edestruct (bump_value key
    (λ ld, val ← ld_to_ll (ld_minus ld (ld_of_int n)); Ret (val, wrapu 64 val)) (-1) p) as (p' & Hrun & Hp' & Hf);
    [done|exact Hold|apply sscanf_decimal; lia| |].
  { rewrite minus_exact by lia. unfold fits_ll. replace (_ && _) with true by lia. reflexivity. }
  assert (wrapu 64 (a - n) = 2 ^ 64 + (a - n)) as Hw by (unfold wrapu; symmetry; apply Z.mod_unique with (-1); lia).
  rewrite Hw in Hf. exists p'. split; [exact Hrun|]. split; [by apply getValue_found|].
  unfold increment, locking. destruct Hp' as (-> & Hok' & _).
  match goal with |- context [bump key ?c ?d ?q] =>
    destruct (bump_ok key c d q _ Hok' Hf) as (s & _ & _ & _ & ->) end.
  unfold toLongdouble. rewrite sscanf_decimal by lia. cbn [mbind outcome_bind].
  rewrite plus_exact by lia. unfold fits_ll. by replace (_ && _) with false by lia.
Qed.

End counters.

(** ** Queues *)

(** Queues taken from until they are empty. *)
Fixpoint take_all (n : nat) (q : bytes) (p : MemoryCacheConnectionPool) : list bytes * MemoryCacheConnectionPool :=
  match n with
  | O => ([], p)
  | S n' => let '(v, p) := getFromQ q p in let '(vs, p) := take_all n' q p in (v :: vs, p)
  end.

Lemma queue_set_queue q q' vs p : queue q (set_queue q' vs p) = if decide (q = q') then vs else queue q p.
Proof. unfold queue, set_queue. cbn [internalQMap]. rewrite mfind_mset. by case_decide. Qed.

Lemma take_all_queue q p : (take_all (length (queue q p)) q p).1 = queue q p.
Proof.
  remember (queue q p) as vs eqn:E. revert p E. induction vs as [|v vs IH]; intros p E; cbn [length take_all]; [done|].
  unfold getFromQ. rewrite <- E. specialize (IH (set_queue q vs p)).
  destruct (take_all (length vs) q (set_queue q vs p)) as [ws p']. cbn [fst] in *.
  rewrite IH; [done|]. by rewrite queue_set_queue, decide_True.
Qed.

(** A queue hands its values out in the order they were added, behind those it
    held, and the other queues are left alone. *)
Theorem queue_is_fifo q vs p :
  let p' := foldl (λ p v, (addToQ q v p).2) p vs in
  queue q p' = queue q p ++ vs ∧ (take_all (length (queue q p')) q p').1 = queue q p ++ vs ∧
  ∀ q', q' ≠ q → queue q' p' = queue q' p.
Proof.
  intros p'. assert (queue q p' = queue q p ++ vs ∧ ∀ q', q' ≠ q → queue q' p' = queue q' p) as [Hq Ho].
  { unfold p'. clear p'. revert p. induction vs as [|v vs IH]; intros p; cbn [foldl]; [by rewrite app_nil_r|].
    destruct (IH (addToQ q v p).2) as [-> Hother]. cbn [addToQ snd]. split.
    - rewrite queue_set_queue, decide_True by done. by rewrite <- app_assoc.
    - intros q' Hne. rewrite Hother by done. cbn [addToQ snd]. by rewrite queue_set_queue, decide_False. }
  split; [done|]. split; [|done]. by rewrite take_all_queue.
Qed.

(** ** Concrete runs *)

(** A [long double] that holds integers only, read from decimal digits. *)
Definition is_digit (b : Z) : bool := (48 <=? b) && (b <=? 57).

#[local] Instance whole_numbers : LongDouble := {|
  LD := Z;
  sscanf_Lf s := if bool_decide (s ≠ []) && forallb is_digit s then Some (foldl add_digit 0 s) else None;
  ld_of_int n := n;
  ld_plus := Z.add;
  ld_minus := Z.sub;
  ld_to_ll v := if fits_ll v then Ret v else Undefined;
  ld_to_ull v := if (0 <=? v) && (v <? 2 ^ 64) then Ret v else Undefined
|}.

#[local] Instance whole_numbers_exact : LongDoubleExact.
Proof.
  split; cbn [sscanf_Lf ld_to_ll ld_plus ld_minus ld_of_int whole_numbers LD]; [|done..].
  intros a Ha. unfold fromNumber. rewrite wrapu_small by done.
  destruct (print_decimal a Ha) as (Hne & Hd & Hv).
  assert (forallb is_digit (print_number 10 a) = true) as Hd2.
  { apply forallb_forall. intros c Hc. rewrite Forall_forall in Hd. apply list_elem_of_In, Hd in Hc. unfold digit_ok in Hc. unfold is_digit. lia. }
  by rewrite bool_decide_eq_true_2, Hd2, Hv by done.
Defined.

Definition sample_pool (v : bytes) : MemoryCacheConnectionPool :=
  set_strings (push_entry (str "hits") v LruStore_new) (MemoryCacheConnectionPool_new (Some 2)).

Lemma sample_strings_ok v : lru_ok (strings (sample_pool v)).
Proof. apply (push_entry_ok (str "hits") v LruStore_new); [apply new_ok|reflexivity]. Qed.
Lemma sample_pool_ok v : pool_ok (sample_pool v).
Proof.
  split; [reflexivity|]. split; [apply sample_strings_ok|].
  split; [split; reflexivity|]. unfold sample_pool. cbn. lia.
Qed.

Example cache_refines_lru_witness :
  let ops := [OpSet 1 1 (str "a"); OpSet 1 2 (str "b"); OpGet 1; OpSet 1 3 (str "c"); OpGet 2] in
  (spec_ops 2 ops []).1 = [Flag true; Flag true; Value (str "a"); Flag true; Value []] ∧
  ∃ s, run_ops 2 ops LruStore_new = Ret ((spec_ops 2 ops []).1, s) ∧
    entries s = (spec_ops 2 ops []).2 ∧ Z.of_nat (length (entries s)) ≤ 2.
Proof. intros ops. split; [reflexivity|]. apply (cache_refines_lru 2 ops). lia. Defined.

Example refused_add_removes_witness :
  let s := push_entry (str "hits") (str "7") LruStore_new in
  ∃ s', setInternal 10 (str "hits") (str "8") 2 s = Ret (false, s') ∧ entries s' = [] ∧
    getValue (str "hits") s' = Ret ([], s').
Proof.
  intros s. apply (refused_add_removes 10 (str "hits") (str "8") (str "7") s); [apply (sample_strings_ok (str "7"))|reflexivity].
Defined.

Example negative_size_undefined_witness :
  setInternal (-1) (str "k") (str "v") 1 (LruStore_new : LruStore bytes) = Undefined.
Proof. apply (negative_size_undefined (-1) (str "k") (str "v") LruStore_new); [apply new_ok|lia|reflexivity]. Defined.

Example failed_increment_blocks_cache_witness :
  let p := sample_pool (str "seven") in
  ∃ p', increment (str "hits") 1 p = (Throw Runtime_error, p') ∧
    find_entry (str "hits") (entries (strings p')) = None ∧
    ∀ k v, cache_getValue k p' = (Out_of_fuel, p') ∧ setRaw k v p' = (Out_of_fuel, p') ∧
      cache_remove k p' = (Out_of_fuel, p') ∧ increment k 1 p' = (Out_of_fuel, p').
Proof.
  intros p. apply (failed_increment_blocks_cache (str "hits") 1 p (str "seven"));
    [reflexivity|apply sample_strings_ok|reflexivity|reflexivity].
Defined.

Example increment_counts_witness :
  ∃ p', increment (str "hits") 35 (sample_pool (str "7")) = (Ret 42, p') ∧ pool_ok p' ∧
    ∃ p'', cache_getValue (str "hits") p' = (Ret (str "42"), p'').
Proof.
  apply (increment_counts (str "hits") 7 35 (sample_pool (str "7"))); [apply sample_pool_ok|lia|lia|lia|reflexivity].
Defined.

Example decrement_below_zero_breaks_witness :
  ∃ p', decrement (str "hits") 1 (sample_pool (str "0")) = (Ret (-1), p') ∧
    (∃ p'', cache_getValue (str "hits") p' = (Ret (str "18446744073709551615"), p'')) ∧
    (increment (str "hits") 1 p').1 = Undefined.
Proof.
  apply (decrement_below_zero_breaks (str "hits") 0 1 1 (sample_pool (str "0"))); [apply sample_pool_ok|lia..|reflexivity].
Defined.
