(* ===== verification/RegexUtil.v ===== *)
(** * RegexUtil

    The wrappers around POSIX regular expressions ([common/RegexUtil.cpp]): the
    cache of compiled patterns, searching, and replacing until nothing changes.

    [regcomp] and [regexec] of the C library are outside: a class with what the
    source relies on, that a match lies within the text. *)

From S2P Require Import Prelude StdString StringUtil.

(** A pattern is compiled with or without [REG_NEWLINE]; a match is where it
    starts and ends in a C string. *)
Class Regex := {
  regcomp : bytes → bool;
  regexec : bytes → bool → bytes → option (nat * nat)
}.
Class RegexLaws `{Regex} := {
  regexec_within p nl t so eo : regexec p nl t = Some (so, eo) → (so ≤ eo ≤ length t)%nat
}.

(** ** The cache *)

(** [patterns] and [nlpatterns]. *)
Record cache := mkCache { patterns : gset bytes; nlpatterns : gset bytes }.
Definition cache_new : cache := mkCache ∅ ∅.

(** [getRegex] with [cacheRegexes]: whether the compiled pattern it finds has
    [REG_NEWLINE]. *)
Definition getRegex (pattern : bytes) (matchNewLine : bool) (c : cache) : bool * cache :=
  if negb matchNewLine && bool_decide (pattern ∈ patterns c) then (false, c)
  else if bool_decide (pattern ∈ nlpatterns c) then (true, c)
  else if matchNewLine then (true, mkCache (patterns c) ({[pattern]} ∪ nlpatterns c))
  else (false, mkCache ({[pattern]} ∪ patterns c) (nlpatterns c)).

(** Expressions that match nothing, for samples that have none. *)
Definition no_regex : Regex := {| regcomp := λ _, true; regexec := λ _ _ _, None |}.

Section regex.
Context `{re : !Regex}.
Implicit Types (c : cache) (text pattern : bytes).

(** One call of [regexec] on a string; a pattern that did not compile leaves the
    compiled form indeterminate. *)
Definition exec pattern (nl : bool) text : outcome (option (nat * nat)) :=
  if regcomp pattern then Ret (regexec pattern nl (c_string text)) else Undefined.

Definition matches text pattern (nl : bool) c : outcome (bool * cache) :=
  let '(nl, c) := getRegex pattern nl c in
  m ← exec pattern nl text; Ret (bool_decide (is_Some m), c).

(** The position of the first match, or -1. *)
Definition find text pattern (nl : bool) c : outcome (Z * cache) :=
  let '(nl, c) := getRegex pattern nl c in
  m ← exec pattern nl text; Ret (match m with Some (so, _) => Z.of_nat so | None => -1 end, c).

(** [substr(pos)]. *)
Definition substr_rest (s : bytes) (pos : Z) : outcome bytes :=
  if slen s <? pos then Throw Out_of_range else Ret (drop (Z.to_nat pos) s).

(** The loop of [search] and [replace]: what is in front of each match with the
    match, and what is left. *)
Fixpoint match_loop (fuel : nat) pattern (nl : bool) (ttext : bytes) : outcome (list (bytes * bytes) * bytes) :=
  match fuel with
  | O => Out_of_fuel
  | S fuel' =>
      m ← exec pattern nl ttext;
      match m with
      | None => Ret ([], ttext)
      | Some (so, eo) =>
          mt ← substr ttext (Z.of_nat so) (Z.of_nat (eo - so));
          tl ← substr_rest ttext (Z.of_nat eo);
          '(ms, left_) ← match_loop fuel' pattern nl tl;
          Ret ((take so ttext, mt) :: ms, left_)
      end
  end.

(** [search]. *)
Definition search text pattern (nl : bool) c : outcome (list bytes * cache) :=
  let '(nl, c) := getRegex pattern nl c in
  '(ms, _) ← match_loop (S (length text)) pattern nl text; Ret (map snd ms, c).

(** One pass of [replace]. *)
Definition replace_pass pattern (nl : bool) (with_ text : bytes) : outcome bytes :=
  '(ms, left_) ← match_loop (S (length text)) pattern nl text;
  Ret (flat_map (λ m, m.1 ++ with_) ms ++ left_).

(** The loop that calls [replace] again. *)
Fixpoint until_stable (n : nat) (rep : bytes → outcome (bool * bytes)) (t : bytes) : outcome (bool * bytes) :=
  match n with
  | O => Out_of_fuel
  | S n' => '(again, t) ← rep t; if (again : bool) then until_stable n' rep t else Ret (true, t)
  end.

(** [replace]: whether something changed, and the text; it calls itself until
    nothing changes. *)
Fixpoint replace (fuel : nat) pattern (nl : bool) (with_ text : bytes) : outcome (bool * bytes) :=
  match fuel with
  | O => Out_of_fuel
  | S fuel' =>
      t ← replace_pass pattern nl with_ text;
      if bool_decide (text = t) then Ret (false, text) else until_stable fuel' (replace fuel' pattern nl with_) t
  end.

(** ** The loop *)

Context `{laws : !RegexLaws} (pattern : bytes) (nl : bool).

(** The matches of a pattern that compiles and never matches nothing. *)
Definition progressing : Prop :=
  regcomp pattern = true ∧ ∀ t so eo, regexec pattern nl t = Some (so, eo) → (so < eo)%nat.

Lemma c_string_length s : (length (c_string s) ≤ length s)%nat.
Proof. induction s as [|c s IH]; [done|]. cbn. destruct (c =? 0); cbn; lia. Qed.

Lemma exec_within t so eo : exec pattern nl t = Ret (Some (so, eo)) → (so ≤ eo ≤ length t)%nat.
Proof.
  unfold exec. destruct (regcomp pattern); [|done]. intros [= H%regexec_within]. pose proof (c_string_length t). lia.
Qed.

Lemma exec_progress t so eo : progressing → exec pattern nl t = Ret (Some (so, eo)) → (so < eo ≤ length t)%nat.
Proof.
  intros [Hc Hp] E. pose proof (exec_within _ _ _ E). unfold exec in E. rewrite Hc in E. injection E as E. apply Hp in E. lia.
Qed.

Lemma exec_cases t : regcomp pattern = true → exec pattern nl t = Ret None ∨ ∃ so eo, exec pattern nl t = Ret (Some (so, eo)).
Proof. unfold exec. intros ->. destruct (regexec _ _ _) as [[so eo]|]; [right; by exists so, eo|by left]. Qed.

(** One round. *)
Lemma match_round fuel t so eo :
  exec pattern nl t = Ret (Some (so, eo)) →
  match_loop (S fuel) pattern nl t =
    ('(ms, left_) ← match_loop fuel pattern nl (drop eo t); Ret ((take so t, take (eo - so) (drop so t)) :: ms, left_)).
Proof.
  intros E. pose proof (exec_within _ _ _ E). cbn [match_loop]. rewrite E, bind_Ret_l.
  unfold substr, substr_rest, slen. replace (Z.of_nat (length t) <? Z.of_nat so) with false by lia.
  replace (Z.of_nat (length t) <? Z.of_nat eo) with false by lia. by rewrite Z.min_l, !Nat2Z.id, !bind_Ret_l by lia.
Qed.

(** The matches cut the text into pieces, and there is none in the last one. *)
Lemma match_loop_cuts fuel : ∀ t, progressing → (length t < fuel)%nat →
  ∃ ms left_, match_loop fuel pattern nl t = Ret (ms, left_) ∧ flat_map (λ m, m.1 ++ m.2) ms ++ left_ = t ∧
    exec pattern nl left_ = Ret None ∧ (exec pattern nl t ≠ Ret None → ms ≠ []).
Proof.
  induction fuel as [|fuel IH]; intros t Hp Hf; [lia|]. destruct (exec_cases t (proj1 Hp)) as [E|(so & eo & E)].
  - exists [], t. cbn [match_loop]. by rewrite E.
  - pose proof (exec_progress _ _ _ Hp E).
    destruct (IH (drop eo t)) as (ms & l & Hm & Hcut & Hl' & _); [done|rewrite length_drop; lia|].
    eexists _, l. rewrite (match_round fuel t so eo), Hm by done. split; [done|]. split_and!; [|done|done].
    cbn [flat_map fst snd]. rewrite <- app_assoc, Hcut, <- app_assoc.
    replace (take (eo - so) (drop so t) ++ drop eo t) with (drop so t); [apply take_drop|].
    rewrite <- (take_drop (eo - so) (drop so t)) at 1. by rewrite drop_drop, Nat.add_comm, Nat.sub_add by lia.
Qed.

(** A pass changes nothing when nothing matches. *)
Lemma replace_pass_unmatched w t : exec pattern nl t = Ret None → replace_pass pattern nl w t = Ret t.
Proof. intros E. unfold replace_pass. cbn [match_loop]. by rewrite E. Qed.
End regex.

(** ** The cache and the results *)

(** Compiled patterns get mixed up.  A search without newline matching of a
    pattern that was first used with it runs the form compiled with [REG_NEWLINE],
    and so does every later one. *)
Theorem regex_cache_mixes pattern c :
  pattern ∉ patterns c → pattern ∉ nlpatterns c →
  let c1 := (getRegex pattern true c).2 in
  getRegex pattern false c = (false, mkCache ({[pattern]} ∪ patterns c) (nlpatterns c)) ∧ getRegex pattern false c1 = (true, c1).
Proof.
  intros Hp Hn. unfold getRegex. cbn [negb andb]. rewrite !(bool_decide_eq_false_2 (_ ∈ patterns c)) by done.
  rewrite !(bool_decide_eq_false_2 (_ ∈ nlpatterns c)) by done. split; [done|]. cbn [snd patterns nlpatterns].
  rewrite (bool_decide_eq_false_2 (_ ∈ patterns c)) by done. by rewrite bool_decide_eq_true_2 by set_solver.
Qed.

(** Searching.  For a pattern that never matches the empty string, [search] comes
    back with matches that cut the text: the text is what is before each match, the
    match, and a last piece in which nothing matches. *)
Theorem search_partitions `{re : !Regex, laws : !RegexLaws} text pattern nl c :
  (∀ nl', progressing pattern nl') →
  ∃ befores ms left_ nl', search text pattern nl c = Ret (ms, (getRegex pattern nl c).2) ∧ length befores = length ms ∧
    flat_map (λ m, m.1 ++ m.2) (zip befores ms) ++ left_ = text ∧ exec pattern nl' left_ = Ret None.
Proof.
  intros Hp. unfold search. destruct (getRegex pattern nl c) as [nl' c'].
  destruct (match_loop_cuts pattern nl' (S (length text)) text (Hp nl') ltac:(lia)) as (ms & l & -> & Hcut & Hlast & _).
  exists (map fst ms), (map snd ms), l, nl'. rewrite bind_Ret_l. split_and!; [done|by rewrite !length_map| |done].
  rewrite <- Hcut. f_equal. clear. induction ms as [|[a b] ms IH]; [done|]. cbn. by rewrite IH.
Qed.

(** An empty match.  A pattern that matches every text, the empty one too, as
    [a*] does, is searched for ever. *)
Theorem search_empty_match_diverges `{re : !Regex, laws : !RegexLaws} pattern nl :
  regcomp pattern = true → (∀ t, regexec pattern nl t ≠ None) →
  ∀ fuel text, match_loop fuel pattern nl text = Out_of_fuel.
Proof.
  intros Hc Hm fuel. induction fuel as [|fuel IH]; intros text; [done|].
  destruct (exec_cases pattern nl text Hc) as [E|(so & eo & E)].
  - unfold exec in E. rewrite Hc in E. injection E as E. by apply Hm in E.
  - rewrite (match_round pattern nl fuel text so eo E). by rewrite IH.
Qed.

(** The matches are as long as the regular expression says. *)
Lemma match_loop_short `{re : !Regex, laws : !RegexLaws} pattern nl n fuel : ∀ t ms l,
  (∀ t so eo, regexec pattern nl t = Some (so, eo) → (eo - so < n)%nat) →
  match_loop fuel pattern nl t = Ret (ms, l) → Forall (λ m, length m.2 ≤ n)%nat ms.
Proof.
  induction fuel as [|fuel IH]; intros t ms l Hn H; [done|]. cbn [match_loop] in H.
  apply bind_Ret_inv in H as ([[so eo]|] & E & H); [|by injection H as <- <-].
  pose proof E as E0. unfold exec in E0. destruct (regcomp pattern); [|done]. injection E0 as E0%Hn.
  pose proof (exec_within _ _ _ _ _ E). unfold substr, substr_rest, slen in H.
  replace (Z.of_nat (length t) <? Z.of_nat so) with false in H by lia.
  replace (Z.of_nat (length t) <? Z.of_nat eo) with false in H by lia.
  rewrite !bind_Ret_l in H. apply bind_Ret_inv in H as ([ms' l'] & Hm & H). injection H as <- <-.
  constructor; [|by eapply IH]. cbn [snd]. rewrite length_take. lia.
Qed.

Lemma until_stable_result (P : bytes → Prop) n rep t b t' :
  (∀ x b x', rep x = Ret (b, x') → P x') → until_stable n rep t = Ret (b, t') → b = true ∧ P t'.
Proof.
  intros Hrep. revert t. induction n as [|n IH]; intros t; [done|]. cbn [until_stable]. intros H.
  apply bind_Ret_inv in H as ([again x] & Hx & H). destruct again; [by eapply IH|]. injection H as <- <-. by apply Hrep in Hx.
Qed.

(** Replacing.  What [replace] leaves is stable: another pass changes nothing; and
    when it reports no change, there is none. *)
Theorem replace_is_stable `{re : !Regex} fuel pattern nl w text b t :
  replace fuel pattern nl w text = Ret (b, t) → replace_pass pattern nl w t = Ret t ∧ (b = false → t = text).
Proof.
  revert text b t. induction fuel as [|fuel IH]; intros text b t; [done|]. cbn [replace]. intros H.
  apply bind_Ret_inv in H as (t1 & Hpass & H). case_bool_decide as E.
  - injection H as <- <-. by rewrite <- E in Hpass.
  - apply (until_stable_result (λ t, replace_pass pattern nl w t = Ret t)) in H as [-> ?]; [done|]. intros x b' x' Hx. by apply IH in Hx as [? _].
Qed.

(** No byte is zero. *)
Definition plain (t : bytes) : Prop := Forall (λ c, c ≠ 0) t.

Lemma pass_plain w ms l : plain w → plain (flat_map (λ m, m.1 ++ m.2) ms ++ l) → plain (flat_map (λ m : bytes * bytes, m.1 ++ w) ms ++ l).
Proof.
  unfold plain. intros Hw H. apply Forall_app in H as [Hm Hl]. apply Forall_app. split; [|done].
  induction ms as [|[a b] ms IH]; [done|]. cbn in *. rewrite !Forall_app in *. naive_solver.
Qed.

(** A pass puts the replacement in and makes the text longer. *)
Lemma grown_pass `{re : !Regex, laws : !RegexLaws} pattern nl w text :
  progressing pattern nl → (∀ t so eo, regexec pattern nl t = Some (so, eo) → (eo - so < length w)%nat) →
  exec pattern nl text ≠ Ret None → plain w → plain text →
  ∃ l r, replace_pass pattern nl w text = Ret (l ++ w ++ r) ∧ (length text < length (l ++ w ++ r))%nat ∧ plain l ∧ plain r.
Proof.
  intros Hp Hw Hm Hpw Hpt. destruct (exec_cases pattern nl text (proj1 Hp)) as [E|(so & eo & E)]; [done|].
  pose proof (exec_progress _ _ _ _ _ Hp E). unfold replace_pass. rewrite (match_round _ _ _ _ _ _ E).
  assert (∀ n t, (length t < n)%nat → plain t → ∃ ms l, match_loop n pattern nl t = Ret (ms, l) ∧
            (length t ≤ length (flat_map (λ m, m.1 ++ w) ms ++ l))%nat ∧ plain (flat_map (λ m, m.1 ++ w) ms ++ l)) as Hgrow.
  { intros n t Hn Ht. destruct (match_loop_cuts pattern nl n t Hp Hn) as (ms & l & Hms & Hcut & _). exists ms, l. split; [done|].
    split; [|by apply (pass_plain _ _ _ Hpw); rewrite Hcut]. rewrite <- Hcut, !length_app. apply Nat.add_le_mono_r.
    assert (Forall (λ m, length m.2 ≤ length w)%nat ms) as Hall by (by eapply match_loop_short).
    clear -Hall. induction Hall as [|m ms Hm _ IH]; [done|]. cbn [flat_map]. rewrite !length_app. lia. }
  destruct (Hgrow (length text) (drop eo text)) as (ms & l & -> & Hlen & Hpl); [rewrite length_drop; lia|by apply Forall_drop|].
  rewrite !bind_Ret_l. cbn [flat_map fst]. exists (take so text), (flat_map (λ m, m.1 ++ w) ms ++ l).
  rewrite <- !app_assoc. split; [done|]. split; [|split; [by apply Forall_take|done]]. rewrite length_drop in Hlen. rewrite length_app, length_app, length_take.
  assert (eo - so < length w)%nat; [|lia]. unfold exec in E. rewrite (proj1 Hp) in E. injection E as E. by eapply Hw.
Qed.

(** A replacement that matches again.  When the pattern matches wherever the
    replacement stands, and the replacement is longer than every match, [replace]
    does not come back from a text in which there is something to replace. *)
Theorem replace_growing_diverges `{re : !Regex, laws : !RegexLaws} pattern nl w :
  progressing pattern nl → (∀ t so eo, regexec pattern nl t = Some (so, eo) → (eo - so < length w)%nat) →
  plain w → (∀ l r, plain l → plain r → exec pattern nl (l ++ w ++ r) ≠ Ret None) →
  ∀ fuel text, plain text → exec pattern nl text ≠ Ret None → replace fuel pattern nl w text = Out_of_fuel.
Proof.
  intros Hp Hw Hpw Hex fuel. induction fuel as [|fuel IH]; intros text Hpt Hm; [done|]. cbn [replace].
  destruct (grown_pass pattern nl w text Hp Hw Hm Hpw Hpt) as (l & r & -> & Hlen & Hl & Hr). rewrite bind_Ret_l.
  rewrite bool_decide_eq_false_2 by (intros E; apply (f_equal length) in E; lia).
  destruct fuel as [|fuel]; [done|]. cbn [until_stable]. rewrite IH; [done| |by apply Hex]. unfold plain in *. rewrite !Forall_app. done.
Qed.

(** ** Witnesses *)

Fixpoint leading (c : Z) (t : bytes) : nat :=
  match t with x :: t => if x =? c then S (leading c t) else O | [] => O end.

(** A pattern stands for itself, or for any number of its first byte when a star
    follows. *)
Definition literal_exec (pattern : bytes) (nl : bool) (t : bytes) : option (nat * nat) :=
  if bool_decide (drop 1 pattern = [42]) then Some (0%nat, leading (hd 0 pattern) t)
  else i ← sfind pattern t; Some (i, i + length pattern)%nat.
#[local] Instance literal_regex : Regex := {| regcomp := λ _, true; regexec := literal_exec |}.
#[local] Instance literal_laws : RegexLaws.
Proof.
  constructor. intros p nl t so eo. cbn. unfold literal_exec.
  case_bool_decide.
  - intros [= <- <-]. split; [lia|]. generalize (hd 0 p). intros c. clear. induction t as [|x t IH]; [done|]. cbn. destruct (_ =? _); lia.
  - destruct (sfind p t) as [i|] eqn:E; [|done]. apply sfind_bound in E. intros [= <- <-]. lia.
Defined.

Lemma sample_progress nl : progressing (str "ab") nl.
Proof.
  split; [done|]. intros t so eo. cbn. unfold literal_exec. rewrite bool_decide_eq_false_2 by done.
  destruct (sfind _ _); [|done]. intros [= <- <-]. cbn. lia.
Defined.

Lemma sfind_inside p r : ∀ l, p ≠ [] → sfind p (l ++ p ++ r) ≠ None.
Proof.
  intros l Hp. induction l as [|c l IH]; [cbn [app]; by rewrite sfind_here|]. cbn [app sfind].
  destruct (prefixb _ _); [done|]. by destruct (sfind p (l ++ p ++ r)).
Defined.

Lemma regex_cache_mixes_witness :
  getRegex (str "ab") false cache_new = (false, mkCache ({[str "ab"]} ∪ ∅) ∅) ∧
  getRegex (str "ab") false (getRegex (str "ab") true cache_new).2 = (true, (getRegex (str "ab") true cache_new).2).
Proof. by apply (regex_cache_mixes (str "ab") cache_new). Defined.

Lemma search_partitions_witness : ∃ befores ms left_ nl',
  search (str "xabyabz") (str "ab") false cache_new = Ret (ms, (getRegex (str "ab") false cache_new).2) ∧ length befores = length ms ∧
  flat_map (λ m, m.1 ++ m.2) (zip befores ms) ++ left_ = str "xabyabz" ∧ exec (str "ab") nl' left_ = Ret None.
Proof. apply search_partitions, sample_progress. Defined.

Lemma search_empty_match_diverges_witness : search (str "b") (str "a*") false cache_new = Out_of_fuel.
Proof.
  change (search (str "b") (str "a*") false cache_new) with
    ('(ms, _) ← match_loop 2 (str "a*") false (str "b"); Ret (map snd ms : list bytes, (getRegex (str "a*") false cache_new).2)).
  rewrite (search_empty_match_diverges (str "a*") false); [done|done|]. intros t. cbn. unfold literal_exec. by rewrite bool_decide_eq_true_2.
Defined.

Lemma replace_is_stable_witness :
  replace 5 (str "ab") false (str "b") (str "xaab") = Ret (true, str "xb") ∧ replace_pass (str "ab") false (str "b") (str "xb") = Ret (str "xb").
Proof.
  assert (replace 5 (str "ab") false (str "b") (str "xaab") = Ret (true, str "xb")) as H by (by vm_compute).
  split; [exact H|]. exact (proj1 (replace_is_stable _ _ _ _ _ _ _ H)).
Defined.

Lemma replace_growing_diverges_witness : ∀ fuel, replace fuel (str "ab") false (str "xabx") (str "ab") = Out_of_fuel.
Proof.
  intros fuel. apply replace_growing_diverges; [apply sample_progress| |by repeat constructor| |by repeat constructor|by vm_compute].
  - intros t so eo. cbn. unfold literal_exec. rewrite bool_decide_eq_false_2 by done.
    destruct (sfind _ _); [|done]. intros [= <- <-]. cbn. lia.
  - intros l r Hl Hr. unfold exec. change (regcomp (str "ab")) with true. cbv iota. rewrite c_string_plain.
    + cbn. unfold literal_exec. rewrite bool_decide_eq_false_2 by done.
      pose proof (sfind_inside (str "ab") (str "x" ++ r) (l ++ str "x") ltac:(done)) as H. rewrite <- app_assoc in H.
      change (str "x" ++ str "ab" ++ str "x" ++ r) with (str "xabx" ++ r) in H. by destruct (sfind _ _).
    + apply Forall_app. split; [done|]. apply Forall_app. split; [by repeat constructor|done].
Defined.
