(* ===== verification/Routing.v ===== *)
(** * Routing

    How a request finds what handles it: the URL patterns of the configuration and the
    secured paths of [framework/ConfigurationData.cpp], the filters of
    [framework/FilterHandler.cpp], and the controllers and mappings of
    [framework/ControllerHandler.cpp].

    A map of the configuration is its bindings in the order of the keys. *)

From S2P Require Import Prelude StdMap StdString StringUtil TextCoding RegexUtil.

(** ** URL patterns *)

Definition last_at (s : bytes) : outcome Z := at_ s (slen s - 1).

(** The part of [urlMatchesPath] on stars: [*.ext], [prefix*.ext], [path.*], and stars at
    the ends. *)
Definition extension_step (pathurl url : bytes) : bool + bytes * bytes * bool :=
  match sfind (str "*.") pathurl with
  | Some indx =>
      let pathext := drop (S indx) pathurl in
      match sfind (str ".") url with
      | None => inl false
      | Some d =>
          let urlext := drop d url in
          if (indx =? 0)%nat then inl (bool_decide (pathext = urlext))
          else inr (take (S indx) pathurl, take d url, bool_decide (pathext = urlext))
      end
  | None =>
      if endsWith pathurl (str ".*") then
        match sfind (str ".") url with
        | None => inl false
        | Some d => inr (take (length pathurl - 2) pathurl, take d url, true)
        end
      else inr (pathurl, url, true)
  end.

Definition contains (p s : bytes) : bool := bool_decide (is_Some (sfind p s)).

Definition star_match (pathurl url : bytes) : outcome bool :=
  match extension_step pathurl url with
  | inl b => Ret b
  | inr (pathurl, url, urlextmtch) =>
      l ← last_at pathurl;
      let '(startval, pathurl) := if l =? 42 then (true, take (length pathurl - 1) pathurl) else (false, pathurl) in
      f ← at_ pathurl 0;
      let '(endval, pathurl) := if f =? 42 then (true, drop 1 pathurl) else (false, pathurl) in
      Ret (if urlextmtch && startval && endval && contains pathurl url then true
           else if urlextmtch && startval && prefixb pathurl url then true
           else if urlextmtch && endval && endsWith url pathurl then true
           else urlextmtch && negb startval && negb endval && bool_decide (pathurl = url))
  end.

Section routing.
Context `{re : !Regex}.

(** [urlMatchesPath], with the cache of compiled patterns. *)
Definition urlMatchesPath (pathurl url : bytes) (c : cache) : outcome (bool * cache) :=
  if bool_decide (pathurl = url) then Ret (true, c)
  else if startsWith pathurl (str "regex(") && endsWith pathurl (str ")") then
    regurl ← substr pathurl 6 (slen pathurl - 7);
    '(i, c) ← RegexUtil.find url regurl false c;
    Ret (negb (i =? -1), c)
  else if bool_decide (pathurl = str "*") then Ret (true, c)
  else if bool_decide (pathurl = str "*.*") && contains (str ".") url then Ret (true, c)
  else b ← star_match pathurl url; Ret (b, c).

(** The first binding of a map whose pattern matches. *)
Fixpoint first_match {V} (m : list (bytes * V)) (url : bytes) (c : cache) : outcome (option V * cache) :=
  match m with
  | [] => Ret (None, c)
  | (p, v) :: m => '(b, c) ← urlMatchesPath p url c; if (b : bool) then Ret (Some v, c) else first_match m url c
  end.

(** [getControllerForPath] and [getMappingForPath]. *)
Definition getControllerForPath (controllerMap : list (bytes * bytes)) := first_match controllerMap.
Definition getMappingForPath (mappingMap : list (bytes * bytes)) := first_match mappingMap.

(** [getFilterForPath]: the keys are patterns with the kind of the filter behind them.
    What is cut off is as long as the kind, whatever the key ends with. *)
Fixpoint getFilterForPath (filterMap : list (bytes * list bytes)) (type actUrl : bytes) (c : cache) : outcome (option (list bytes) * cache) :=
  match filterMap with
  | [] => Ret (None, c)
  | (k, v) :: m =>
      let n := size_t (slen k - slen type) in
      pathurl ← substr k 0 n;
      if endsWith k type then
        '(b, c) ← urlMatchesPath pathurl actUrl c;
        if (b : bool) then Ret (Some v, c) else getFilterForPath m type actUrl c
      else getFilterForPath m type actUrl c
  end.

(** ** Secured paths *)

Record SecureAspect := mkAspect { path : bytes; role : bytes }.
Definition SecureAspect_new : SecureAspect := mkAspect [] [].

Record Security := mkSecurity {
  secures : list (bytes * SecureAspect);
  loginProvider : bytes;
  loginUrl : bytes;
  welcomeFile : bytes;
  securityFieldNames : list (bytes * bytes);
  securityFieldFrom : list (bytes * bytes)
}.

Definition isLoginConfigured (s : Security) : bool := negb (bool_decide (loginProvider s = [])) && negb (bool_decide (loginUrl s = [])).
Definition isLoginPage (s : Security) (actUrl : bytes) : bool := bool_decide (actUrl = loginUrl s).

(** The test of [addAspect] on the paths there are. *)
Definition aspect_exists (startval endval : bool) (pathurl url : bytes) : bool :=
  (startval && prefixb pathurl url) || (endval && endsWith url pathurl) || (startval && endval && contains pathurl url).

(** [addAspect]: whether it was added. *)
Definition addAspect (fuel : nat) (a : SecureAspect) (s : Security) : outcome (bool * Security) :=
  '(_, pathurl) ← replace fuel (str "[/]+") false (str "/") (trim (path a));
  if bool_decide (is_Some (mfind (str "*") (secures s))) then Ret (false, s)
  else if bool_decide (is_Some (mfind pathurl (secures s))) then Ret (false, s)
  else
    l ← last_at pathurl;
    let '(startval, pathurl) := if l =? 42 then (true, take (length pathurl - 1) pathurl) else (false, pathurl) in
    f ← at_ pathurl 0;
    let '(endval, pathurl) := if f =? 42 then (true, drop 1 pathurl) else (false, pathurl) in
    if existsb (λ kv, aspect_exists startval endval pathurl kv.1) (secures s) then Ret (false, s)
    else Ret (true, mkSecurity (mset pathurl a (secures s)) (loginProvider s) (loginUrl s) (welcomeFile s)
                      (securityFieldNames s) (securityFieldFrom s)).

(** [matchesPath]: the last aspect that matches, or an empty one. *)
Fixpoint matches_path (m : list (bytes * SecureAspect)) (url : bytes) (a : SecureAspect) (c : cache) : outcome (SecureAspect * cache) :=
  match m with
  | [] => Ret (a, c)
  | (_, x) :: m => '(b, c) ← urlMatchesPath (path x) url c; matches_path m url (if (b : bool) then x else a) c
  end.
Definition matchesPath (s : Security) (url : bytes) : cache → outcome (SecureAspect * cache) :=
  matches_path (secures s) url SecureAspect_new.

(** [SecurityHandler::isLoginPage]: the provider whose login page it is, or nothing. *)
Fixpoint login_page (provs : list (bytes * Security)) (actUrl : bytes) : bytes :=
  match provs with [] => [] | (k, p) :: provs => if isLoginPage p actUrl then k else login_page provs actUrl end.

(** [validateSecurePath]. *)
Fixpoint validateSecurePath (provs : list (bytes * Security)) (actUrl username : bytes) (c : cache) : outcome (bytes * cache) :=
  match provs with
  | [] => Ret ([], c)
  | (k, p) :: provs =>
      '(a, c) ← matchesPath p actUrl c;
      if isLoginConfigured p && ((negb (bool_decide (path a = [])) && negb (bool_decide (role a = str "ROLE_ANONYMOUS"))) ||
                                 (isLoginPage p actUrl && negb (bool_decide (username = []))))
      then Ret (k, c) else validateSecurePath provs actUrl username c
  end.
End routing.

(** ** What the patterns mean *)

(** A text between the stars of a pattern. *)
Definition pattern_text (p : bytes) : Prop :=
  p ≠ [] ∧ (42 ∉ p) ∧ head p ≠ Some 46 ∧ last p ≠ Some 46 ∧ startsWith p (str "regex(") = false.
#[export] Instance pattern_text_dec p : Decision (pattern_text p).
Proof. unfold pattern_text. apply _. Defined.

Lemma endsWith_app a b : endsWith (a ++ b) b = true.
Proof.
  unfold endsWith. rewrite length_app. replace (length a + length b - length b)%nat with (length a) by lia.
  rewrite drop_app_length, bool_decide_true, andb_true_r by done. apply Nat.leb_le. lia.
Qed.
Lemma endsWith_spec s b : endsWith s b = true ↔ ∃ a, s = a ++ b.
Proof.
  split; [|intros [a ->]; apply endsWith_app]. unfold endsWith. intros [_ H%bool_decide_eq_true]%andb_prop.
  exists (take (length s - length b) s). rewrite <- H at 2. by rewrite take_drop.
Qed.
Lemma startsWith_prefixb s p : startsWith s p = prefixb p s.
Proof.
  apply Bool.eq_iff_eq_true. rewrite prefixb_spec. unfold startsWith. rewrite andb_true_iff, bool_decide_eq_true, Nat.leb_le. split.
  - intros [Hl E]. exists (drop (length p) s). rewrite <- E at 1. by rewrite take_drop.
  - intros [k ->]. rewrite length_app, take_app_length. split; [lia|done].
Qed.

(** No star is in front of a dot. *)
Lemma no_star_dot a p z : 42 ∉ p → head (p ++ z) ≠ Some 46 → a = [] ∨ a = [42] → z = [] ∨ z = [42] → sfind (str "*.") (a ++ p ++ z) = None.
Proof.
  intros Hp Hh Ha Hz. apply sfind_absent_None; [done|]. change (str "*.") with [42; 46].
  assert (∀ t, absent [42; 46] p t = true) as H by (intros t; apply absent_first, Forall_forall; intros x Hx ->; done).
  assert (absent [42; 46] (p ++ z) [] = true) as H2.
  { rewrite absent_app, H. destruct Hz as [->| ->]; done. }
  destruct Ha as [->| ->]; [done|]. cbn [app absent prefixb]. rewrite H2, app_nil_r.
  destruct (p ++ z) as [|c l]; [done|]. cbn in Hh. assert ((46 =? c) = false) as ->; [|done].
  apply Z.eqb_neq. intros <-. by apply Hh.
Qed.

Lemma endsWith_last s b c : last b = Some c → last s ≠ Some c → endsWith s b = false.
Proof.
  intros Hb Hs. apply not_true_iff_false. rewrite endsWith_spec. intros [a ->]. apply Hs.
  rewrite last_app. by rewrite Hb.
Qed.

Lemma at_last s c : last s = Some c → last_at s = Ret c.
Proof.
  intros [l ->]%last_Some. unfold last_at, at_. rewrite slen_app. change (slen [c]) with 1. pose proof (slen_nonneg l).
  replace ((0 <=? slen l + 1 - 1) && (slen l + 1 - 1 <? slen l + 1)) with true by lia. f_equal.
  replace (Z.to_nat (slen l + 1 - 1)) with (length l) by (unfold slen; lia). by rewrite nth_middle.
Qed.

Section meaning.
Context `{re : !Regex}.
Implicit Types p u : bytes.

(** A text between stars or not: what [star_match] makes of the four cases. *)
Lemma star_match_text (a z : bool) p u :
  pattern_text p →
  star_match ((if a then [42] else []) ++ p ++ (if z then [42] else [])) u =
  Ret (match a, z with
       | true, true => contains p u || prefixb p u || endsWith u p
       | false, true => prefixb p u
       | true, false => endsWith u p
       | false, false => bool_decide (p = u)
       end).
Proof.
  intros (Hne & Hs & Hh & Hl & _). unfold star_match.
  assert (extension_step ((if a then [42] else []) ++ p ++ (if z then [42] else [])) u =
    inr ((if a then [42] else []) ++ p ++ (if z then [42] else []), u, true)) as ->.
  { unfold extension_step. rewrite no_star_dot; [|done| |destruct a; auto|destruct z; auto].
    - destruct z.
      + replace (endsWith _ (str ".*")) with false; [done|]. symmetry. apply not_true_iff_false. rewrite endsWith_spec. intros [k E].
        change (str ".*") with ([46] ++ [42]) in E. rewrite !app_assoc in E. apply app_inj_2 in E as [E _]; [|done]. apply Hl.
        apply (f_equal last) in E. rewrite last_snoc, last_app in E. destruct (last p) eqn:Ep; [done|]. by apply last_None in Ep.
      + rewrite (endsWith_last _ _ 42); [done|done|]. rewrite app_nil_r, last_app. destruct (last p) as [c|] eqn:Ep; [|by apply last_None in Ep].
        intros [= ->]. apply Hs. apply last_Some in Ep as [l ->]. apply elem_of_app. right. by left.
    - destruct p; [done|]. exact Hh. }
  destruct (last p) as [c|] eqn:Ep; [|by apply last_None in Ep].
  assert (c ≠ 42) as Hc by (intros ->; apply Hs; apply last_Some in Ep as [l ->]; apply elem_of_app; right; by left).
  assert (∃ d q, p = d :: q ∧ d ≠ 42) as (d & q & Eq & Hd).
  { destruct p as [|d q]; [done|]. exists d, q. split; [done|]. intros ->. apply Hs. by left. }
  assert (last ((if a then [42] else []) ++ p ++ (if z then [42] else [])) = Some (if z then 42 else c)) as Hlast.
  { destruct z; [by rewrite app_assoc, last_snoc|]. rewrite app_nil_r, last_app. by rewrite Ep. }
  rewrite (at_last _ _ Hlast), bind_Ret_l.
  assert ((if (if z then 42 else c) =? 42 then (true, take (length ((if a then [42] else []) ++ p ++ (if z then [42] else [])) - 1) ((if a then [42] else []) ++ p ++ (if z then [42] else [])))
           else (false, (if a then [42] else []) ++ p ++ (if z then [42] else []))) = (z, (if a then [42] else []) ++ p)) as ->.
  { destruct z; [rewrite app_assoc, length_app, Nat.add_sub, take_app_length; done|]. rewrite app_nil_r. by replace (c =? 42) with false by lia. }
  cbv beta iota zeta.
  assert (at_ ((if a then [42] else []) ++ p) 0 = Ret (if a then 42 else d)) as -> by (rewrite Eq; destruct a; apply at_0).
  rewrite bind_Ret_l.
  assert ((if (if a then 42 else d) =? 42 then (true, drop 1 ((if a then [42] else []) ++ p)) else (false, (if a then [42] else []) ++ p)) = (a, p)) as ->.
  { destruct a; [done|]. by replace (d =? 42) with false by lia. }
  clear. destruct a, z, (contains p u), (prefixb p u), (endsWith u p), (bool_decide (p = u)); reflexivity.
Qed.

Lemma contains_spec p u : p ≠ [] → contains p u = true ↔ ∃ a b, u = a ++ p ++ b.
Proof.
  intros Hne. unfold contains. rewrite bool_decide_eq_true. split.
  - intros [i H%sfind_Some]. destruct H as [-> _]. by eexists _, _.
  - intros (a & b & ->). destruct (sfind p (a ++ p ++ b)) eqn:E; [by eexists|]. apply sfind_None in E as [E _].
    rewrite absent_app in E. apply andb_prop in E as [_ E]. rewrite absent_app in E. apply andb_prop in E as [E _].
    by rewrite absent_occurrence in E.
Qed.

(** The meaning of a text with or without stars at its ends. *)
Definition pattern_means (a z : bool) (p u : bytes) : Prop :=
  ∃ x y, u = x ++ p ++ y ∧ (a = false → x = []) ∧ (z = false → y = []).

Lemma star_match_means (a z : bool) p u : pattern_text p →
  ∃ b, star_match ((if a then [42] else []) ++ p ++ (if z then [42] else [])) u = Ret b ∧ (b = true ↔ pattern_means a z p u).
Proof.
  intros Hp. rewrite star_match_text by done. eexists. split; [reflexivity|]. unfold pattern_means. pose proof Hp as (Hne & _).
  destruct a, z.
  - rewrite !orb_true_iff, contains_spec, prefixb_spec, endsWith_spec by done. split.
    + intros [[(x & y & ->)|[k ->]]|[x ->]]; [by exists x, y|by exists [], k|exists x, []; by rewrite app_nil_r].
    + intros (x & y & -> & _). left. left. by exists x, y.
  - rewrite endsWith_spec. split; [intros [x ->]; exists x, []; by rewrite app_nil_r|].
    intros (x & y & -> & _ & Hy). exists x. by rewrite Hy, app_nil_r.
  - rewrite prefixb_spec. split; [intros [k ->]; by exists [], k|]. intros (x & y & -> & Hx & _). exists y. by rewrite Hx.
  - rewrite bool_decide_eq_true. split; [intros <-; exists [], []; by rewrite app_nil_r|].
    intros (x & y & -> & Hx & Hy). by rewrite Hx, Hy, app_nil_r.
Qed.

Lemma not_a_special (a z : bool) p :
  pattern_text p → let pat := (if a then [42] else []) ++ p ++ (if z then [42] else []) in
  startsWith pat (str "regex(") && endsWith pat (str ")") = false ∧ pat ≠ str "*" ∧ pat ≠ str "*.*".
Proof.
  intros (Hne & Hs & Hh & Hl & Hr) pat. assert (∃ d q, p = d :: q) as (d & q & Ep) by (destruct p; [done|by eexists _, _]).
  assert (d ∈ pat) as Hd by (unfold pat; rewrite !elem_of_app; right; left; rewrite Ep; by left). assert (d ≠ 42 ∧ d ≠ 46) as [H1 H2].
  { subst p. split; [intros ->; apply Hs; by left|intros ->; by apply Hh]. }
  split_and!.
  - destruct z; [rewrite (endsWith_last pat _ 41), andb_false_r; [done|done|unfold pat; by rewrite app_assoc, last_snoc]|].
    unfold pat. rewrite app_nil_r. destruct a; [by rewrite startsWith_prefixb|]. cbn [app]. by rewrite Hr.
  - intros E. rewrite E in Hd. change (str "*") with [42] in Hd. rewrite elem_of_cons, elem_of_nil in Hd. naive_solver.
  - intros E. rewrite E in Hd. change (str "*.*") with [42; 46; 42] in Hd. rewrite !elem_of_cons, elem_of_nil in Hd. naive_solver.
Qed.

(** URL patterns.  A text without stars (that does not begin or end with a dot) matches
    itself; with a star behind it, what begins with it; with a star in front, what ends with
    it; with both, what contains it.  [*.ext] matches what has that text from its first dot
    on, and [*] everything.  The compiled expressions are not touched. *)
Theorem url_patterns (a z : bool) p e u c :
  pattern_text p → 42 ∉ e →
  (∃ b, urlMatchesPath ((if a then [42] else []) ++ p ++ (if z then [42] else [])) u c = Ret (b, c) ∧ (b = true ↔ pattern_means a z p u)) ∧
  (∃ b, urlMatchesPath ([42; 46] ++ e) u c = Ret (b, c) ∧
        (b = true ↔ u = [42; 46] ++ e ∨ ∃ x, u = x ++ [46] ++ e ∧ 46 ∉ x)) ∧
  urlMatchesPath (str "*") u c = Ret (true, c).
Proof.
  intros Hp He. split_and!.
  - destruct (not_a_special a z p Hp) as (H1 & H2 & H3). unfold urlMatchesPath. case_bool_decide as E.
    + exists true. split; [done|]. split; [|done]. intros _. subst u. by eexists (if a then [42] else []), (if z then [42] else []); destruct a, z.
    + rewrite H1, !bool_decide_false by done. cbn [andb]. destruct (star_match_means a z p u Hp) as (b & -> & Hb). by exists b.
  - unfold urlMatchesPath. case_bool_decide as E; [exists true; split; [done|]; split; [by left|done]|].
    rewrite startsWith_prefixb. change (prefixb (str "regex(") ([42; 46] ++ e)) with false. cbn [andb].
    rewrite !bool_decide_false; [|intros H; apply (f_equal (drop 2)) in H; change (e = [42]) in H; rewrite H in He; apply He; by left|done]. cbn [andb].
    unfold star_match, extension_step. change (sfind (str "*.") ([42; 46] ++ e)) with (Some 0%nat).
    change (drop 1 ([42; 46] ++ e)) with ([46] ++ e). change (str ".") with [46].
    destruct (sfind [46] u) as [i|] eqn:Ei.
    + eexists. split; [reflexivity|]. rewrite bool_decide_eq_true. pose proof (sfind_Some _ _ _ Ei) as [Eu Ha].
      assert (46 ∉ take i u) as Hni.
      { intros [x [y Exy]]%list_elem_of_split. rewrite Exy, absent_app in Ha. apply andb_prop in Ha as [_ Ha]. cbn in Ha. done. }
      split.
      * intros Ee. change ([46] ++ e = drop i u) in Ee. right. exists (take i u). split; [|done]. by rewrite Ee, take_drop.
      * intros [->|(x & -> & Hx)]; [done|].
        assert (sfind [46] (x ++ [46] ++ e) = Some (length x)) as Es by (apply sfind_first, absent_first, Forall_forall; by intros w Hw ->).
        rewrite Es in Ei. injection Ei as <-. change ([46] ++ e = drop (length x) (x ++ [46] ++ e)). by rewrite drop_app_length.
    + exists false. split; [done|]. split; [done|]. intros [->|(x & -> & Hx)]; [done|].
      rewrite sfind_first in Ei; [done|]. apply absent_first, Forall_forall. by intros w Hw ->.
  - unfold urlMatchesPath. by case_bool_decide.
Qed.
End meaning.

Lemma url_patterns_witness :
  (let _ := no_regex in urlMatchesPath (str "/admin/*") (str "/admin/users") cache_new) = Ret (true, cache_new) ∧
  (let _ := no_regex in urlMatchesPath (str "/admin/*") (str "/public") cache_new) = Ret (false, cache_new) ∧
  (let _ := no_regex in urlMatchesPath (str "*.html") (str "/a/b.html") cache_new) = Ret (true, cache_new).
Proof.
  pose proof (@url_patterns no_regex false true (str "/admin/") (str "html")) as H.
  assert (pattern_text (str "/admin/")) as Hp by (by apply (bool_decide_unpack _); vm_compute).
  assert (42 ∉ str "html") as He by (by apply (bool_decide_unpack _); vm_compute).
  destruct (H (str "/admin/users") cache_new Hp He) as ((b & E & Hb) & _ & _).
  destruct (H (str "/public") cache_new Hp He) as ((b' & E' & Hb') & _ & _).
  destruct (H (str "/a/b.html") cache_new Hp He) as (_ & (b'' & E'' & Hb'') & _).
  split_and!.
  - assert (b = true) as -> by (apply Hb; exists [], (str "users"); done). exact E.
  - destruct b'; [|exact E']. destruct (proj1 Hb' eq_refl) as (x & y & Ex & Hx & _). specialize (Hx eq_refl) as ->. done.
  - assert (b'' = true) as -> by (apply Hb''; right; exists (str "/a/b"); split; [done|by apply (bool_decide_unpack _); vm_compute]). exact E''.
Defined.

(** ** The cache while paths are matched *)

(** Expressions are only added, and only as they are first asked for here. *)
Definition grows (c c' : cache) : Prop :=
  nlpatterns c' = nlpatterns c ∧ patterns c ⊆ patterns c' ∧ ∀ p, p ∈ patterns c' → p ∉ patterns c → p ∉ nlpatterns c.
#[export] Instance grows_preorder : PreOrder grows.
Proof.
  split; [intros c; unfold grows; set_solver|]. intros c1 c2 c3 (N1 & S1 & H1) (N2 & S2 & H2). split_and!; [congruence|set_solver|].
  intros p H3 Hn. destruct (decide (p ∈ patterns c2)); [by apply H1|]. rewrite <- N1. by apply H2.
Qed.

Lemma getRegex_grows p c : grows c (getRegex p false c).2.
Proof.
  unfold getRegex, grows. cbn [negb andb]. repeat case_bool_decide; cbn; set_solver.
Qed.
Lemma getRegex_stable p c c' : grows (getRegex p false c).2 c' → getRegex p false c' = ((getRegex p false c).1, c').
Proof.
  unfold getRegex, grows. cbn [negb andb]. intros (N & S & H). repeat case_bool_decide; cbn in *; try done; set_solver.
Qed.

Section stable.
Context `{re : !Regex}.

(** A result stays the same while the cache grows. *)
Definition stable {A} (f : cache → outcome (A * cache)) : Prop :=
  ∀ c a c1, f c = Ret (a, c1) → grows c c1 ∧ ∀ c2, grows c1 c2 → f c2 = Ret (a, c2).

Lemma stable_ret {A} (o : outcome A) : stable (λ c, a ← o; Ret (a, c)).
Proof. intros c a c1 H. apply bind_Ret_inv in H as (x & -> & [= <- <-]). done. Qed.
Lemma stable_bind {A B} (f : cache → outcome (A * cache)) (g : A → cache → outcome (B * cache)) :
  stable f → (∀ a, stable (g a)) → stable (λ c, '(a, c) ← f c; g a c).
Proof.
  intros Hf Hg c b c2 H. apply bind_Ret_inv in H as ([a c1] & H1 & H2).
  destruct (Hf _ _ _ H1) as [G1 S1]. destruct (Hg _ _ _ _ H2) as [G2 S2]. split; [by etrans|].
  intros c3 G3. rewrite (S1 c3), bind_Ret_l by (by etrans). by apply S2.
Qed.

Lemma find_stable text p : stable (RegexUtil.find text p false).
Proof.
  unfold stable, RegexUtil.find. intros c a c1. destruct (getRegex p false c) as [nl c0] eqn:E. intros H.
  apply bind_Ret_inv in H as (m & Hm & [= <- <-]). pose proof (getRegex_grows p c) as G. rewrite E in G. split; [exact G|].
  intros c2 G2. pose proof (getRegex_stable p c c2) as E2. rewrite E in E2. rewrite (E2 G2). cbn [fst]. by rewrite Hm.
Qed.

Lemma urlMatchesPath_stable p u : stable (urlMatchesPath p u).
Proof.
  unfold urlMatchesPath. case_bool_decide; [apply (stable_ret (Ret true))|].
  destruct (startsWith p _ && _).
  { intros c a c1 E. apply bind_Ret_inv in E as (r & Hr & E). rewrite Hr. setoid_rewrite bind_Ret_l.
    revert c a c1 E. apply (stable_bind _ (λ i c, Ret (negb (i =? -1), c))); [apply find_stable|]. intros i. apply (stable_ret (Ret _)). }
  case_bool_decide; [apply (stable_ret (Ret true))|].
  destruct (bool_decide (p = _) && _); [apply (stable_ret (Ret true))|apply stable_ret].
Qed.

Lemma matches_path_stable m u a : stable (matches_path m u a).
Proof.
  revert a. induction m as [|[k x] m IH]; intros a; cbn [matches_path]; [apply (stable_ret (Ret a))|].
  apply (stable_bind _ (λ b, matches_path m u (if b : bool then x else a))); [apply urlMatchesPath_stable|]. intros b. apply IH.
Qed.
Lemma matchesPath_stable s u : stable (matchesPath s u).
Proof. apply matches_path_stable. Qed.

(** What [validateSecurePath] answers: nothing, or a provider that wants a login for the
    path, with the cache that knows the answer. *)
Lemma validateSecurePath_spec provs u n c k c' :
  validateSecurePath provs u n c = Ret (k, c') → k = [] ∨ ∃ s a,
    (k, s) ∈ provs ∧ matchesPath s u c' = Ret (a, c') ∧ isLoginConfigured s = true ∧
    ((path a ≠ [] ∧ role a ≠ str "ROLE_ANONYMOUS") ∨ (isLoginPage s u = true ∧ n ≠ [])).
Proof.
  revert c. induction provs as [|[k0 p] provs IH]; intros c H; cbn [validateSecurePath] in H; [injection H as <- <-; by left|].
  apply bind_Ret_inv in H as ([a c1] & H1 & H2).
  destruct (isLoginConfigured p) eqn:El; cbn [andb] in H2; [|apply IH in H2 as [->|(s & x & ? & ?)]; [by left|right; exists s, x; split; [by right|done]]].
  destruct (_ || _) eqn:E; [|apply IH in H2 as [->|(s & x & ? & ?)]; [by left|right; exists s, x; split; [by right|done]]].
  injection H2 as <- <-. right. exists p, a. split_and!; [by left| |done|].
  - destruct (matchesPath_stable _ _ _ _ _ H1) as [_ S]. by apply S.
  - apply orb_prop in E as [[E1%negb_true_iff E2%negb_true_iff]%andb_prop|[E1 E2%negb_true_iff]%andb_prop].
    + left. by rewrite !bool_decide_eq_false in E1, E2.
    + right. by rewrite bool_decide_eq_false in E2.
Qed.
End stable.
