(* ===== verification/Sockets.v ===== *)
(** * Sockets

    The output side of a connection and its read buffer: the plain text path of
    [BaseSocket] and [SocketInterface] ([server-util/SocketInterface.cpp]) and
    the output queue of [Http11Socket] ([server-util/RequestHandler2.cpp]), on an
    edge triggered epoll build without TLS and io_uring.

    The kernel is outside: a socket carries the answers the kernel will give to
    the calls to come, one list for [send] and one for [recv]. *)

From S2P Require Import Prelude.

(** ** The kernel's answers *)

(** What a [send] meets: room for some bytes, [EAGAIN], or any other error. *)
Inductive send_answer := Room (n : nat) | Send_again | Send_error.

(** What a [recv] finds: bytes (no bytes is the end of the stream), nothing yet
    ([EAGAIN] or [EWOULDBLOCK]), [EINTR], or any other error. *)
Inductive recv_answer := Chunk (l : bytes) | Recv_again | Recv_intr | Recv_error.

Record BaseSocket := mkSocket {
  closed : bool;
  buffer : bytes;
  wire : bytes;                   (* the bytes the kernel took, in order *)
  closings : nat;                 (* calls of sockCloseFunc *)
  writeRegistered : bool;         (* the event handler waits for EPOLLOUT *)
  sends : list send_answer;
  recvs : list recv_answer
}.

Definition BaseSocket_new (ks : list send_answer) (rs : list recv_answer) : BaseSocket :=
  mkSocket false [] [] 0 false ks rs.

Definition set_sends (ks : list send_answer) (s : BaseSocket) : BaseSocket :=
  mkSocket (closed s) (buffer s) (wire s) (closings s) (writeRegistered s) ks (recvs s).
Definition set_recvs (rs : list recv_answer) (s : BaseSocket) : BaseSocket :=
  mkSocket (closed s) (buffer s) (wire s) (closings s) (writeRegistered s) (sends s) rs.
Definition set_buffer (b : bytes) (s : BaseSocket) : BaseSocket :=
  mkSocket (closed s) b (wire s) (closings s) (writeRegistered s) (sends s) (recvs s).
Definition put_wire (b : bytes) (s : BaseSocket) : BaseSocket :=
  mkSocket (closed s) (buffer s) (wire s ++ b) (closings s) (writeRegistered s) (sends s) (recvs s).
Definition set_registered (w : bool) (s : BaseSocket) : BaseSocket :=
  mkSocket (closed s) (buffer s) (wire s) (closings s) w (sends s) (recvs s).

(** [closeSocket] calls the close callback once. *)
Definition closeSocket (s : BaseSocket) : BaseSocket :=
  if closed s then s
  else mkSocket true (buffer s) (wire s) (S (closings s)) (writeRegistered s) (sends s) (recvs s).

(** [epoll_ctl] fails on a descriptor that was closed. *)
Definition registerWrite (s : BaseSocket) : bool * BaseSocket :=
  if closed s then (false, s) else (true, set_registered true s).
Definition unRegisterWrite (s : BaseSocket) : bool * BaseSocket :=
  if closed s then (false, s) else (true, set_registered false s).

(** ** Writing *)

Record ResponseData := mkRD { rd_b : bytes; rd_oft : Z }.
Definition ResponseData_new : ResponseData := mkRD [] 0.

(** The loop of [writeTo] on an open descriptor.  The recursion is on the
    answers: a list that ends before the loop does is [Out_of_fuel]. *)
Fixpoint writeTo_loop (ks : list send_answer) (d : ResponseData) (s : BaseSocket)
    : outcome (Z * ResponseData * BaseSocket) :=
  match ks with
  | [] => Out_of_fuel
  | Send_again :: ks => Ret (-1, d, set_sends ks s)
  | Send_error :: ks => Ret (0, d, closeSocket (set_sends ks s))
  | Room n :: ks =>
      let er := Z.min (Z.of_nat n) (slen (rd_b d) - rd_oft d) in
      if er =? 0 then Ret (0, d, closeSocket (set_sends ks s))
      else
        oft ← checked_int (rd_oft d + er);
        let s := put_wire (take (Z.to_nat er) (drop (Z.to_nat (rd_oft d)) (rd_b d))) (set_sends ks s) in
        let d := mkRD (rd_b d) oft in
        if oft =? wraps 32 (slen (rd_b d)) then Ret (1, d, s) else writeTo_loop ks d s
  end.

(** [writeTo]: [send] on a closed descriptor fails with [EBADF]. *)
Definition writeTo (d : ResponseData) (s : BaseSocket) : outcome (Z * ResponseData * BaseSocket) :=
  if (rd_oft d <? 0) || (slen (rd_b d) <? rd_oft d) then Undefined
  else if closed s then Ret (0, d, s)
  else writeTo_loop (sends s) d s.

(** ** Reading *)

(** The loop of [readFrom] (and of [readSync], the same code). *)
Fixpoint readFrom_loop (rs : list recv_answer) (s : BaseSocket) : outcome (Z * BaseSocket) :=
  match rs with
  | [] => Out_of_fuel
  | Recv_again :: rs => Ret (-1, set_recvs rs s)
  | Recv_intr :: rs => readFrom_loop rs s
  | Recv_error :: rs => Ret (-1, closeSocket (set_recvs rs s))
  | Chunk l :: rs =>
      let er := slen l in
      if er =? 0 then Ret (0, closeSocket (set_recvs rs s))
      else
        let s := set_buffer (buffer s ++ l) s in
        if er <? 8192 then Ret (1, set_recvs rs s) else readFrom_loop rs s
  end.
Definition readFrom (s : BaseSocket) : outcome (Z * BaseSocket) :=
  if closed s then Ret (-1, s) else readFrom_loop (recvs s) s.

(** ** Responses by request position: [SocketInterface] *)

Record SocketInterface := mkConn {
  base : BaseSocket;
  wtl : gmap Z ResponseData;
  reqPos : Z;
  current : Z
}.
Definition SocketInterface_new (s : BaseSocket) : SocketInterface := mkConn s ∅ 0 0.

Definition with_base (s : BaseSocket) (c : SocketInterface) : SocketInterface :=
  mkConn s (wtl c) (reqPos c) (current c).
Definition set_slot (p : Z) (d : ResponseData) (c : SocketInterface) : SocketInterface :=
  mkConn (base c) (<[p := d]> (wtl c)) (reqPos c) (current c).

(** [wtl[p]] inserts what is not there. *)
Definition slot (p : Z) (c : SocketInterface) : ResponseData := default ResponseData_new (wtl c !! p).

Definition startRequest (c : SocketInterface) : Z * SocketInterface :=
  let rp := wraps 32 (reqPos c + 1) in
  (rp, mkConn (base c) (<[rp := ResponseData_new]> (wtl c)) rp (current c)).

Definition endRequest (p : Z) (c : SocketInterface) : Z * SocketInterface :=
  let n := wraps 32 (current c + 1) in
  (n, mkConn (base c) (delete (if p =? -1 then n else p) (wtl c)) (reqPos c) n).

Definition allRequestsDone (c : SocketInterface) : bool := current c =? reqPos c.
Definition isCurrentRequest (p : Z) (c : SocketInterface) : outcome bool :=
  n ← checked_int (current c + 1); Ret (p =? n).

Definition writeToBuf (d : bytes) (p : Z) (c : SocketInterface) : SocketInterface :=
  set_slot p (mkRD (rd_b (slot p c) ++ d) (rd_oft (slot p c))) c.

(** The loop of [completeWrite], which writes the slot of one position [p] until
    all requests are done; a round that does not end it uses up an answer. *)
Fixpoint completeWrite_loop (fuel : nat) (p done : Z) (c : SocketInterface)
    : outcome (bool * Z * SocketInterface) :=
  if allRequestsDone c then Ret (true, done, c)
  else
    match fuel with
    | O => Out_of_fuel
    | S fuel' =>
        '(done, rd, s) ← writeTo (slot p c) (base c);
        let c := set_slot p rd (with_base s c) in
        if (done =? 0) || (done =? 1) then
          let '(_, c) := endRequest p c in
          if done =? 0 then Ret (false, done, c) else completeWrite_loop fuel' p done c
        else Ret (false, done, c)
    end.

Definition completeWrite (c : SocketInterface) : outcome (Z * SocketInterface) :=
  p ← checked_int (current c + 1);
  '(all, done, c) ← completeWrite_loop (S (length (sends (base c)))) p 1 c;
  if (all : bool) then
    let '(ok, s) := unRegisterWrite (base c) in
    if (ok : bool) then Ret (done, with_base s c) else Ret (0, with_base s c)
  else Ret (done, c).

(** [pushResponse]; [write] is the virtual [writeResponse] on the slot's bytes. *)
Definition pushResponse (write : bytes → outcome bytes) (p : Z) (c : SocketInterface)
    : outcome (Z * SocketInterface) :=
  b ← write (rd_b (slot p c));
  '(done, rd, s) ← writeTo (mkRD b (rd_oft (slot p c))) (base c);
  let c := set_slot p rd (with_base s c) in
  if 0 <=? done then Ret (1, (endRequest p c).2)
  else if done =? -1 then Ret (1, with_base (registerWrite (base c)).2 c)
  else Ret (1, c).

(** The [WRITE_READY] event of [RequestReaderHandler], with the write task. *)
Definition write_ready (c : SocketInterface) : outcome SocketInterface :=
  if closed (base c) then Ret c
  else r ← completeWrite (with_base (unRegisterWrite (base c)).2 c); Ret r.2.

(** ** The output queue of [Http11Socket] *)

(** The loop over [outbuf]: a response goes when [writeTo] is through with it,
    and the first one that would block waits for the next write event. *)
Fixpoint flush_outbuf (outbuf : list ResponseData) (s : BaseSocket)
    : outcome (list ResponseData * BaseSocket) :=
  match outbuf with
  | [] => Ret ([], s)
  | d :: outbuf =>
      '(done, d, s) ← writeTo d s;
      if done =? -1 then Ret (d :: outbuf, (registerWrite s).2)
      else flush_outbuf outbuf s
  end.

(** The end of [Http11Socket::handle]: the responses of this read are queued and
    the queue is written if there is one. *)
Definition queue_responses (rs : list bytes) (outbuf : list ResponseData) (s : BaseSocket)
    : outcome (list ResponseData * BaseSocket) :=
  let outbuf := outbuf ++ map (λ r, mkRD r 0) rs in
  if bool_decide (rs = []) then Ret (outbuf, s) else flush_outbuf outbuf s.

(** The [WRITE_READY] event of [RequestHandler2]. *)
Definition outbuf_write_ready (outbuf : list ResponseData) (s : BaseSocket)
    : outcome (list ResponseData * BaseSocket) :=
  flush_outbuf outbuf (unRegisterWrite s).2.

(** ** What a write does *)

Definition rd_ok (d : ResponseData) : Prop := 0 ≤ rd_oft d ≤ slen (rd_b d) ∧ slen (rd_b d) < 2 ^ 31.
(** The bytes of a response that are still to be written. *)
Definition rest (d : ResponseData) : bytes := drop (Z.to_nat (rd_oft d)) (rd_b d).

Lemma rest_slen d : rd_ok d → slen (rest d) = slen (rd_b d) - rd_oft d.
Proof. intros [? _]. unfold rest, slen in *. rewrite length_drop. lia. Qed.

Lemma closeSocket_wire s : wire (closeSocket s) = wire s.
Proof. unfold closeSocket. by destruct (closed s). Qed.
Lemma closeSocket_closed s : closed (closeSocket s) = true.
Proof. unfold closeSocket. by destruct (closed s) eqn:E. Qed.

(** The outcome of a write: bytes move from the response to the wire, in order;
    [1] says the response is written, [-1] that it waits, [0] that the socket is
    closed. *)
Definition write_spec (d d' : ResponseData) (s s' : BaseSocket) (r : Z) : Prop :=
  rd_b d' = rd_b d ∧ rd_ok d' ∧ rd_oft d ≤ rd_oft d' ∧ wire s' ++ rest d' = wire s ++ rest d ∧
  writeRegistered s' = writeRegistered s ∧
  (r = 1 ∧ rest d' = [] ∧ closed s' = closed s ∧ (length (sends s') < length (sends s))%nat
   ∨ r = -1 ∧ closed s' = closed s
   ∨ r = 0 ∧ closed s' = true).

Lemma write_spec_close d s ks : rd_ok d → closed s = false → write_spec d d s (closeSocket (set_sends ks s)) 0.
Proof.
  intros Hd Hs. unfold closeSocket. cbn. rewrite Hs. unfold write_spec.
  split_and!; try done; try lia. by right; right.
Qed.

Lemma writeTo_loop_spec ks d s r d' s' :
  rd_ok d → closed s = false → (length ks ≤ length (sends s))%nat →
  writeTo_loop ks d s = Ret (r, d', s') → write_spec d d' s s' r.
Proof.
  revert d s. induction ks as [|k ks IH]; intros d s Hd Hs Hl; [done|].
  cbn [writeTo_loop length] in *.
  destruct k as [n| |].
  - destruct (Z.min (Z.of_nat n) (slen (rd_b d) - rd_oft d) =? 0) eqn:E0.
    + intros [= <- <- <-]. by apply write_spec_close.
    + set (er := Z.min _ _) in *. destruct Hd as [Ho Hb].
      assert (0 < er ≤ slen (rd_b d) - rd_oft d) as Her by lia.
      rewrite checked_int_Ret, bind_Ret_l by lia.
      cbv zeta. cbn [rd_b rd_oft]. rewrite wraps_small by lia.
      set (s1 := put_wire _ _). set (d1 := mkRD _ _).
      assert (rd_ok d1) as Hd1 by (unfold rd_ok; cbn; lia).
      assert (wire s1 ++ rest d1 = wire s ++ rest d) as Hw.
      { cbn. unfold rest. cbn. rewrite <- app_assoc. f_equal.
        replace (Z.to_nat (rd_oft d + er)) with (Z.to_nat (rd_oft d) + Z.to_nat er)%nat by lia.
        rewrite <- drop_drop. apply take_drop. }
      destruct (rd_oft d + er =? slen (rd_b d)) eqn:E1.
      * intros [= <- <- <-]. unfold write_spec. split_and!; try done; [cbn; lia|]. left.
        split_and!; try done; try (cbn; lia). unfold rest. cbn.
        apply drop_ge. unfold slen in *. lia.
      * intros H. apply IH in H; [|done|done|cbn; lia]. unfold write_spec in *. cbn [rd_b rd_oft d1] in H.
        destruct H as (? & ? & ? & Hw2 & Hr & H). split; [done|]. split; [done|]. split; [lia|].
        split; [by rewrite Hw2|]. split; [done|]. cbn [sends s1 put_wire set_sends] in H.
        destruct H as [(?&?&?&?)|[(?&?)|(?&?)]]; [left|by right; left|by right; right].
        repeat split; try done. lia.
  - intros [= <- <- <-]. unfold write_spec. split_and!; try done; try lia. by right; left.
  - intros [= <- <- <-]. by apply write_spec_close.
Qed.

Lemma writeTo_spec d s r d' s' : rd_ok d → writeTo d s = Ret (r, d', s') → write_spec d d' s s' r.
Proof.
  intros Hd. unfold writeTo. destruct (_ || _); [done|]. destruct (closed s) eqn:E.
  - intros [= <- <- <-]. unfold write_spec. split_and!; try done; try lia. by right; right.
  - by apply writeTo_loop_spec.
Qed.

Lemma writeTo_closed d s : rd_ok d → closed s = true → writeTo d s = Ret (0, d, s).
Proof.
  intros [Hd _] Hs. unfold writeTo. replace (_ || _) with false by lia. by rewrite Hs.
Qed.

(** ** The output queue is a queue *)

Definition pending (outbuf : list ResponseData) : bytes := concat (map rest outbuf).

Lemma pending_new rs : pending (map (λ r, mkRD r 0) rs) = concat rs.
Proof. unfold pending. rewrite map_map. induction rs as [|r rs IH]; [done|]. cbn. by rewrite IH. Qed.

Lemma prefix_app_same (a b c : bytes) : a `prefix_of` b → a `prefix_of` b ++ c.
Proof. intros [k ->]. rewrite <- app_assoc. by eexists. Qed.

(** What a flush keeps: nothing is reordered, and while the socket is open
    nothing is lost and what is left has a write event to wait for. *)
Definition flush_spec (ob ob' : list ResponseData) (s s' : BaseSocket) : Prop :=
  Forall rd_ok ob' ∧ wire s' `prefix_of` wire s ++ pending ob ∧
  (closed s' = false → wire s' ++ pending ob' = wire s ++ pending ob ∧ (ob' ≠ [] → writeRegistered s' = true)) ∧
  (closed s = true → s' = s).

Lemma flush_outbuf_spec ob s ob' s' :
  Forall rd_ok ob → flush_outbuf ob s = Ret (ob', s') → flush_spec ob ob' s s'.
Proof.
  intros Hob. revert s. induction Hob as [|d ob Hd Hob IH]; intros s; cbn [flush_outbuf].
  - intros [= <- <-]. split_and!; [done|by eexists|done|done].
  - intros H. apply bind_Ret_inv in H as ([[r d1] s1] & Hw & H). cbn in H.
    pose proof (writeTo_spec _ _ _ _ _ Hd Hw) as (_ & Hd1 & _ & Hwire & _ & Hr).
    assert (wire s1 `prefix_of` wire s ++ pending (d :: ob)) as Hp.
    { exists (rest d1 ++ pending ob). unfold pending. cbn. by rewrite !app_assoc, <- Hwire. }
    assert (closed s = true → s1 = s ∧ r = 0) as Hcl
      by (intros Hc; rewrite writeTo_closed in Hw by done; by injection Hw as <- <- <-).
    destruct (r =? -1) eqn:Er.
    + injection H as <- <-. unfold registerWrite.
      assert (closed s1 = closed s) as Hc1 by (destruct Hr as [(->&_)|[(_&?)|(->&_)]]; done).
      destruct (closed s1) eqn:E1; cbn.
      * split_and!; [by constructor|done|by rewrite E1|by intros; apply Hcl].
      * split_and!; [by constructor|done| |by rewrite <- Hc1].
        intros _. split; [|done]. unfold pending. cbn. by rewrite !app_assoc, <- Hwire.
    + apply IH in H as (Hok & Hp2 & Ho & Hcs). 
      destruct Hr as [(->&Hnil&Hc1&_)|[(->&_)|(->&Hc1)]]; [|done|].
      * assert (wire s1 ++ pending ob = wire s ++ pending (d :: ob)) as Heq
          by (unfold pending; cbn; rewrite app_assoc, <- Hwire, Hnil; by rewrite app_nil_r).
        rewrite Heq in *. split_and!; try done. intros Hc. rewrite (Hcs ltac:(congruence)). by apply Hcl.
      * specialize (Hcs Hc1) as ->. split_and!; [done|done|by rewrite Hc1|intros Hc; by apply Hcl].
Qed.

(** What happens to the output of one connection: a read answers some requests,
    or the socket takes more. *)
Inductive output_event := Responses (rs : list bytes) | Write_ready.
Definition output_step (e : output_event) (ob : list ResponseData) (s : BaseSocket)
    : outcome (list ResponseData * BaseSocket) :=
  match e with
  | Responses rs => queue_responses rs ob s
  | Write_ready => outbuf_write_ready ob s
  end.
Fixpoint output_run (es : list output_event) (ob : list ResponseData) (s : BaseSocket)
    : outcome (list ResponseData * BaseSocket) :=
  match es with
  | [] => Ret (ob, s)
  | e :: es => '(ob, s) ← output_step e ob s; output_run es ob s
  end.
Definition event_responses (e : output_event) : list bytes := match e with Responses rs => rs | Write_ready => [] end.

(** The abstract output of a connection: the responses so far, one after the
    other. *)
Definition output_inv (all : bytes) (ob : list ResponseData) (s : BaseSocket) : Prop :=
  Forall rd_ok ob ∧ wire s `prefix_of` all ∧
  (closed s = false → wire s ++ pending ob = all ∧ (ob ≠ [] → writeRegistered s = true)).

Lemma unRegisterWrite_fields s :
  wire (unRegisterWrite s).2 = wire s ∧ closed (unRegisterWrite s).2 = closed s ∧ sends (unRegisterWrite s).2 = sends s.
Proof. unfold unRegisterWrite. by destruct (closed s) eqn:E. Qed.

Lemma flush_inv all ob s ob' s' :
  Forall rd_ok ob → wire s `prefix_of` all → (closed s = false → wire s ++ pending ob = all) →
  flush_outbuf ob s = Ret (ob', s') → output_inv all ob' s'.
Proof.
  intros Hok Hp Ho H. apply flush_outbuf_spec in H as (Hok' & Hp' & Ho' & Hc'); [|done].
  destruct (closed s) eqn:Hc.
  - rewrite (Hc' eq_refl) in *. split_and!; [done|done|by rewrite Hc].
  - rewrite (Ho eq_refl) in *. by split_and!.
Qed.

Lemma output_step_inv all e ob s ob' s' :
  Forall (λ r, slen r < 2 ^ 31) (event_responses e) → output_inv all ob s →
  output_step e ob s = Ret (ob', s') → output_inv (all ++ concat (event_responses e)) ob' s'.
Proof.
  intros Hr (Hok & Hp & Ho). destruct e as [rs|]; cbn [output_step event_responses] in *.
  - unfold queue_responses.
    assert (Forall rd_ok (ob ++ map (λ r, mkRD r 0) rs)) as Hok2.
    { apply Forall_app; split; [done|]. apply Forall_fmap. eapply Forall_impl; [exact Hr|].
      intros r Hlt. cbn in Hlt. unfold compose, rd_ok. cbn [rd_b rd_oft]. pose proof (slen_nonneg r). lia. }
    case_bool_decide as E.
    + subst rs. cbn [map concat]. rewrite !app_nil_r. by intros [= <- <-].
    + apply flush_inv; [done|by apply prefix_app_same|]. intros Hc. destruct (Ho Hc) as [<- _].
      unfold pending. rewrite map_app, concat_app, <- app_assoc. do 2 f_equal. apply pending_new.
  - cbn [concat]. rewrite app_nil_r. unfold outbuf_write_ready.
    destruct (unRegisterWrite_fields s) as (Ew & Ec & _).
    apply flush_inv; [done|by rewrite Ew|]. rewrite Ec, Ew. intros Hc. apply (Ho Hc).
Qed.

Lemma output_run_inv es all ob s ob' s' :
  Forall (Forall (λ r, slen r < 2 ^ 31)) (map event_responses es) → output_inv all ob s →
  output_run es ob s = Ret (ob', s') → output_inv (all ++ concat (concat (map event_responses es))) ob' s'.
Proof.
  revert all ob s. induction es as [|e es IH]; intros all ob s Hr Hi; cbn [map concat output_run].
  - rewrite app_nil_r. by intros [= <- <-].
  - cbn in Hr. apply Forall_cons in Hr as [He Hes]. intros H.
    apply bind_Ret_inv in H as ([ob1 s1] & H1 & H). rewrite concat_app, app_assoc.
    eapply IH; [done| |exact H]. by eapply output_step_inv.
Qed.

(** The output of the multi-request server is a queue.  Whatever the kernel
    answers and however requests are pipelined, the bytes on the wire are a prefix
    of the responses in the order of their requests; while the socket is open the
    queue holds exactly the missing rest, and if it is not empty the connection is
    registered for the write event that continues it. *)
Theorem outbuf_is_fifo es s ob' s' :
  Forall (Forall (λ r, slen r < 2 ^ 31)) (map event_responses es) →
  wire s = [] → output_run es [] s = Ret (ob', s') →
  let all := concat (concat (map event_responses es)) in
  wire s' `prefix_of` all ∧
  (closed s' = false → wire s' ++ pending ob' = all ∧ (ob' ≠ [] → writeRegistered s' = true)).
Proof.
  intros Hr Hw H. apply (output_run_inv _ []) in H; [by destruct H as (_ & ? & ?)|done|].
  unfold output_inv. rewrite Hw. split_and!; [by constructor|done|done].
Qed.

(** ** A kernel that takes bytes *)

Definition live (k : send_answer) : Prop := ∃ n, k = Room (S n).

Lemma writeTo_loop_live ks d s :
  rd_ok d → rest d ≠ [] → Forall live ks → (length (rest d) ≤ length ks)%nat →
  ∃ d' s', writeTo_loop ks d s = Ret (1, d', s') ∧ closed s' = closed s ∧
    Forall live (sends s') ∧ (length ks - length (rest d) ≤ length (sends s'))%nat.
Proof.
  intros Hd Hne Hks. revert d s Hd Hne. induction Hks as [|k ks [n ->] Hks IH]; intros d s [Ho Hb] Hne Hl.
  - destruct (rest d); [done|cbn in Hl; lia].
  - assert (slen (rest d) = slen (rd_b d) - rd_oft d) as Hsl by (by apply rest_slen).
    assert (0 < slen (rest d)) as Hpos by (destruct (rest d); [done|unfold slen; cbn; lia]).
    cbn [writeTo_loop length] in *. rewrite <- Hsl. set (er := Z.min _ _).
    assert (0 < er ≤ slen (rest d)) as Her by lia.
    replace (er =? 0) with false by lia. 
    rewrite checked_int_Ret, bind_Ret_l by lia. cbv zeta. cbn [rd_b rd_oft].
    rewrite wraps_small by lia. set (d1 := mkRD _ _). set (s1 := put_wire _ _).
    assert (rd_ok d1) as Hd1 by (unfold rd_ok; cbn; lia).
    assert (length (rest d1) = length (rest d) - Z.to_nat er)%nat as Hl1.
    { pose proof (rest_slen d1 Hd1) as H1. cbn in H1. unfold slen in *. lia. }
    destruct (_ =? _) eqn:E.
    + exists d1, s1. split_and!; [done|done|done|]. cbn. unfold slen in *. lia.
    + destruct (IH d1 s1 Hd1) as (d' & s' & Hr & Hc & Hf & Hlen).
      * intros E1. pose proof (rest_slen d1 Hd1) as H1. rewrite E1, slen_nil in H1. cbn in H1. lia.
      * unfold slen in *. lia.
      * exists d', s'. split_and!; [done|done|done|]. unfold slen in *. lia.
Qed.

Lemma writeTo_live d s :
  rd_ok d → rest d ≠ [] → closed s = false → Forall live (sends s) → (length (rest d) ≤ length (sends s))%nat →
  ∃ d' s', writeTo d s = Ret (1, d', s') ∧ closed s' = false ∧ wire s' = wire s ++ rest d ∧
    Forall live (sends s') ∧ (length (sends s) - length (rest d) ≤ length (sends s'))%nat.
Proof.
  intros Hd Hne Hc Hk Hl.
  destruct (writeTo_loop_live (sends s) d s Hd Hne Hk Hl) as (d' & s' & Hw & Hc' & Hf & Hlen).
  assert (writeTo d s = Ret (1, d', s')) as Hw2.
  { unfold writeTo. destruct Hd. replace (_ || _) with false by lia. by rewrite Hc. }
  exists d', s'. apply writeTo_spec in Hw2 as Hs; [|done].
  destruct Hs as (_ & _ & _ & Hwire & _ & [(_&Hnil&_)|[(?&_)|(?&_)]]); [|done|done].
  rewrite Hnil, app_nil_r in Hwire. rewrite Hc in Hc'. done.
Qed.

Lemma flush_live ob s :
  Forall (λ d, rd_ok d ∧ rest d ≠ []) ob → closed s = false →
  Forall live (sends s) → (length (pending ob) ≤ length (sends s))%nat →
  ∃ s', flush_outbuf ob s = Ret ([], s') ∧ wire s' = wire s ++ pending ob ∧ closed s' = false ∧
    Forall live (sends s') ∧ (length (sends s) - length (pending ob) ≤ length (sends s'))%nat.
Proof.
  intros Hob. revert s. induction Hob as [|d ob [Hd Hne] Hob IH]; intros s Hc Hk Hl; cbn [flush_outbuf].
  - exists s. rewrite app_nil_r. split_and!; try done. lia.
  - unfold pending in *. cbn in Hl |- *. rewrite length_app in Hl |- *.
    destruct (writeTo_live d s Hd Hne Hc Hk ltac:(lia)) as (d' & s1 & -> & Hc1 & Hw1 & Hk1 & Hl1).
    cbn. destruct (IH s1 Hc1 Hk1 ltac:(lia)) as (s' & -> & Hw & Hc' & Hk' & Hl').
    exists s'. split_and!; [done|by rewrite Hw, Hw1, app_assoc|done|done|lia].
Qed.

(** Nothing stays in the queue of a connection whose peer reads: if the kernel
    takes at least one byte per call, one pass writes the whole queue, in as many
    calls as there are bytes at the most. *)
Theorem outbuf_drains ob s :
  Forall (λ d, rd_ok d ∧ rest d ≠ []) ob → closed s = false →
  Forall live (sends s) → (length (pending ob) ≤ length (sends s))%nat →
  ∃ s', flush_outbuf ob s = Ret ([], s') ∧ wire s' = wire s ++ pending ob ∧ closed s' = false.
Proof.
  intros Hob Hc Hk Hl. destruct (flush_live ob s Hob Hc Hk Hl) as (s' & ? & ? & ? & _). by exists s'.
Qed.

Definition two_events : list output_event :=
  [Responses [str "HTTP/1.1 200 OK"; str "HTTP/1.1 404 Not Found"]; Write_ready; Responses [str "HTTP/1.1 204 No Content"]].

Example outbuf_is_fifo_witness :
  let s := BaseSocket_new [Room 4; Send_again; Room 100; Room 5; Send_again; Room 100; Room 100] [] in
  let r := output_run two_events [] s in
  ∃ ob' s', r = Ret (ob', s') ∧ wire s' = str "HTTP/1.1 200 OKHTTP/1.1 404 Not FoundHTTP/1.1 204 No Content" ∧
  let all := concat (concat (map event_responses two_events)) in
  wire s' `prefix_of` all ∧
  (closed s' = false → wire s' ++ pending ob' = all ∧ (ob' ≠ [] → writeRegistered s' = true)).
Proof.
  eexists _, _. split; [vm_compute; reflexivity|]. split; [vm_compute; reflexivity|].
  eapply (outbuf_is_fifo two_events (BaseSocket_new [Room 4; Send_again; Room 100; Room 5; Send_again; Room 100; Room 100] [])).
  - repeat constructor.
  - reflexivity.
  - vm_compute. reflexivity.
Defined.

Example outbuf_drains_witness :
  let ob := [mkRD (str "abc") 1; mkRD (str "de") 0] in
  let s := BaseSocket_new (replicate 4 (Room 1)) [] in
  ∃ s', flush_outbuf ob s = Ret ([], s') ∧ wire s' = wire s ++ pending ob ∧ closed s' = false.
Proof.
  apply outbuf_drains.
  - repeat constructor; cbn; try lia; done.
  - reflexivity.
  - repeat constructor; by eexists.
  - vm_compute. lia.
Defined.

(** ** Responses by position, one request at a time *)

(** The connections reached when a request is only read once the responses of the
    earlier ones are written: [serves sent c], where [sent] are the responses so
    far, one after the other. *)
Inductive serves : bytes → SocketInterface → Prop :=
| serves_new s : closed s = false → wire s = [] → serves [] (SocketInterface_new s)
| serves_request sent data c r c' :
    serves sent c → allRequestsDone c = true → slen data < 2 ^ 31 → reqPos c < 2 ^ 31 - 2 →
    pushResponse (λ b, Ret (b ++ data)) (startRequest c).1 (startRequest c).2 = Ret (r, c') →
    serves (sent ++ data) c'
| serves_event sent c c' : serves sent c → write_ready c = Ret c' → serves sent c'.

(** Either all requests are done, or the one in flight is the next position, and
    its slot holds what is missing. *)
Definition serves_inv (sent : bytes) (c : SocketInterface) : Prop :=
  0 ≤ current c ∧ reqPos c < 2 ^ 31 - 1 ∧ wire (base c) `prefix_of` sent ∧
  (closed (base c) = false →
   (current c = reqPos c ∧ wire (base c) = sent) ∨
   (current c + 1 = reqPos c ∧ rd_ok (slot (reqPos c) c) ∧ wire (base c) ++ rest (slot (reqPos c) c) = sent)) ∧
  (current c = reqPos c ∨ current c + 1 = reqPos c).

Lemma slot_set_slot p d c : slot p (set_slot p d c) = d.
Proof. unfold slot. cbn. by rewrite lookup_insert_eq. Qed.

Lemma registerWrite_fields s :
  wire (registerWrite s).2 = wire s ∧ closed (registerWrite s).2 = closed s.
Proof. unfold registerWrite. by destruct (closed s) eqn:E. Qed.

Lemma pushResponse_inv sent data c r c' :
  serves_inv sent c → current c = reqPos c → slen data < 2 ^ 31 → reqPos c < 2 ^ 31 - 2 →
  pushResponse (λ b, Ret (b ++ data)) (startRequest c).1 (startRequest c).2 = Ret (r, c') →
  serves_inv (sent ++ data) c'.
Proof.
  intros (Hc0 & Hp & Hw & Ho & _) Hcur Hd Hpos. unfold pushResponse, startRequest.
  rewrite wraps_small by lia. cbn [fst snd]. unfold slot at 1 2. cbn [wtl]. rewrite lookup_insert_eq. cbn [default rd_b rd_oft ResponseData_new].
  intros H. rewrite bind_Ret_l in H. cbn [app] in H. apply bind_Ret_inv in H as ([[q rd] s'] & Hwr & H).
  cbn [base] in Hwr. pose proof (slen_nonneg data).
  assert (rd_ok (mkRD data 0)) as Hrd by (unfold rd_ok; cbn; lia).
  pose proof (writeTo_spec _ _ _ _ _ Hrd Hwr) as (_ & Hrd' & _ & Hwire & _ & Hr).
  unfold rest at 2 in Hwire. cbn [rd_b rd_oft] in Hwire. rewrite drop_0 in Hwire.
  assert (wire s' `prefix_of` sent ++ data) as Hpre.
  { destruct (closed (base c)) eqn:Ec.
    - rewrite writeTo_closed in Hwr by done. injection Hwr as _ _ <-. by apply prefix_app_same.
    - exists (rest rd). rewrite Hwire. f_equal. destruct (Ho eq_refl) as [[_ ?]|[? _]]; [done|lia]. }
  assert (closed (base c) = false → wire s' ++ rest rd = sent ++ data) as Heq.
  { intros Ec. rewrite Hwire. f_equal. destruct (Ho Ec) as [[_ ?]|[? _]]; [done|lia]. }
  destruct Hr as [(->&Hnil&Ec&_)|[(->&Ec)|(->&Ec)]]; cbn in H; injection H as <- <-; unfold serves_inv; cbn.
  - rewrite wraps_small by lia. split_and!; [lia|lia|done| |by left; lia].
    intros Hc. left. split; [lia|]. rewrite <- Heq by congruence. by rewrite Hnil, app_nil_r.
  - destruct (registerWrite_fields s') as [E1 E2]. rewrite E1, E2.
    split_and!; [lia|lia|done| |by right; lia].
    intros Hc. right. split; [lia|]. unfold slot. cbn. rewrite lookup_insert_eq. cbn. split; [done|].
    apply Heq. congruence.
  - rewrite wraps_small by lia. split_and!; [lia|lia|done| |by left; lia]. by rewrite Ec.
Qed.

Lemma completeWrite_loop_S fuel p q c :
  completeWrite_loop (S fuel) p q c
  = if allRequestsDone c then Ret (true, q, c)
    else
      '(q, rd, s) ← writeTo (slot p c) (base c);
      let c := set_slot p rd (with_base s c) in
      if (q =? 0) || (q =? 1) then
        let '(_, c) := endRequest p c in
        if q =? 0 then Ret (false, q, c) else completeWrite_loop fuel p q c
      else Ret (false, q, c).
Proof. reflexivity. Qed.

Lemma completeWrite_loop_done fuel p done c :
  allRequestsDone c = true → completeWrite_loop fuel p done c = Ret (true, done, c).
Proof. intros H. destruct fuel; cbn [completeWrite_loop]; by rewrite H. Qed.

Lemma unregister_inv sent c r c' :
  serves_inv sent c → (let '(ok, s) := unRegisterWrite (base c) in
    if (ok : bool) then Ret (r, with_base s c) else Ret (0, with_base s c)) = Ret c' → serves_inv sent c'.2.
Proof.
  intros Hi. destruct (unRegisterWrite_fields (base c)) as (E1 & E2 & _).
  destruct (unRegisterWrite (base c)) as [ok s]. cbn in E1, E2. destruct Hi as (?&?&?&?&?).
  destruct ok; intros [= <-]; unfold serves_inv; cbn; rewrite E1, E2; by split_and!.
Qed.

Lemma completeWrite_inv sent c r c' :
  closed (base c) = false → serves_inv sent c → completeWrite c = Ret (r, c') → serves_inv sent c'.
Proof.
  intros Hcl Hi. pose proof Hi as (Hc0 & Hp & Hw & Ho & Hcase).
  unfold completeWrite. rewrite checked_int_Ret, bind_Ret_l by lia.
  destruct Hcase as [E|E].
  - rewrite completeWrite_loop_done by (unfold allRequestsDone; lia). rewrite bind_Ret_l.
    intros H. by apply (unregister_inv _ _ _ _ Hi) in H.
  - cbn [completeWrite_loop]. unfold allRequestsDone at 1. replace (_ =? reqPos c) with false by lia.
    rewrite E. intros H.
    apply bind_Ret_inv in H as ([[all done] c1] & H & Hend).
    apply bind_Ret_inv in H as ([[q rd] s1] & Hwr & H).
    destruct (Ho Hcl) as [[? _]|(_ & Hrd & Hrest)]; [lia|].
    pose proof (writeTo_spec _ _ _ _ _ Hrd Hwr) as (_ & Hrd' & _ & Hwire & _ & Hr).
    rewrite Hrest in Hwire. assert (wire s1 `prefix_of` sent) as Hpre by (by eexists).
    destruct Hr as [(->&Hnil&Ec&_)|[(->&Ec)|(->&Ec)]]; cbn -[completeWrite_loop] in H.
    + rewrite completeWrite_loop_done in H
        by (unfold allRequestsDone; cbn; rewrite wraps_small by lia; lia).
      injection H as <- <- <-. apply (unregister_inv sent) in Hend; [exact Hend|].
      unfold serves_inv. cbn. rewrite wraps_small by lia. split_and!; [lia|lia|done| |by left].
      intros _. left. split; [lia|]. by rewrite <- Hwire, Hnil, app_nil_r.
    + injection H as <- <- <-. injection Hend as <- <-. unfold serves_inv. cbn.
      split_and!; [lia|lia|done| |by right]. intros _. right. split; [lia|].
      unfold slot. cbn. by rewrite lookup_insert_eq.
    + injection H as <- <- <-. injection Hend as <- <-. unfold serves_inv. cbn.
      rewrite wraps_small by lia. split_and!; [lia|lia|done| |by left]. by rewrite Ec.
Qed.

Lemma serves_serves_inv sent c : serves sent c → serves_inv sent c.
Proof.
  induction 1 as [s Hs Hw|sent data c r c' _ IH Hdone Hd Hp H|sent c c' _ IH H].
  - unfold serves_inv. cbn. split_and!; [lia|lia|by rewrite Hw| |by left]. intros _. by left.
  - apply (pushResponse_inv sent data c r c' IH); [|done|done|done]. unfold allRequestsDone in Hdone. lia.
  - unfold write_ready in H. destruct (closed (base c)) eqn:Ec; [by injection H as <-|].
    apply bind_Ret_inv in H as ([r c1] & H & [= <-]).
    eapply completeWrite_inv; [|  |exact H].
    + cbn. by rewrite (proj1 (proj2 (unRegisterWrite_fields _))).
    + destruct IH as (?&?&?&?&?). destruct (unRegisterWrite_fields (base c)) as (E1 & E2 & _).
      unfold serves_inv. cbn. rewrite E1, E2. by split_and!.
Qed.

(** One request at a time, responses by position work.  On every connection
    where a request is read only after the earlier responses are written, the wire
    holds a prefix of the responses in order, whatever the kernel answers; when all
    requests are done on an open connection it holds all of them, and otherwise the
    slot of the next position holds exactly the missing rest. *)
Theorem sequential_responses sent c :
  serves sent c →
  wire (base c) `prefix_of` sent ∧
  (closed (base c) = false →
   if allRequestsDone c then wire (base c) = sent
   else reqPos c = current c + 1 ∧ wire (base c) ++ rest (slot (reqPos c) c) = sent).
Proof.
  intros (Hc0 & Hp & Hw & Ho & _)%serves_serves_inv. split; [done|]. intros Hc.
  unfold allRequestsDone. destruct (Ho Hc) as [[E ?]|(E & _ & ?)].
  - by replace (current c =? reqPos c) with true by lia.
  - by replace (current c =? reqPos c) with false by lia.
Qed.

Definition idle_connection : SocketInterface :=
  SocketInterface_new (BaseSocket_new [Room 4; Send_again; Room 100; Room 100] []).
Definition half_written_connection : SocketInterface :=
  mkConn (mkSocket false [] (str "HTTP") 0 true [Room 100; Room 100] []) {[ 1 := mkRD (str "HTTP/1.1 200 OK") 4 ]} 1 0.
Definition written_connection : SocketInterface :=
  mkConn (mkSocket false [] (str "HTTP/1.1 200 OK") 0 false [Room 100] []) ∅ 1 1.

Example sequential_responses_witness :
  let r := str "HTTP/1.1 200 OK" in
  serves r half_written_connection ∧ write_ready half_written_connection = Ret written_connection ∧
  wire (base written_connection) `prefix_of` r ∧
  (closed (base written_connection) = false →
     if allRequestsDone written_connection then wire (base written_connection) = r
     else reqPos written_connection = current written_connection + 1 ∧
          wire (base written_connection) ++ rest (slot (reqPos written_connection) written_connection) = r).
Proof.
  assert (serves (str "HTTP/1.1 200 OK") half_written_connection) as H1.
  { apply (serves_request [] (str "HTTP/1.1 200 OK") idle_connection 1 half_written_connection); try reflexivity.
    by apply serves_new. }
  assert (write_ready half_written_connection = Ret written_connection) as H2 by (vm_compute; reflexivity).
  split; [exact H1|]. split; [exact H2|].
  apply (sequential_responses (str "HTTP/1.1 200 OK") written_connection).
  exact (serves_event _ _ _ H1 H2).
Defined.

(** ** Where responses by position fail *)

Lemma closeSocket_registered s : writeRegistered (closeSocket s) = writeRegistered s.
Proof. unfold closeSocket. by destruct (closed s). Qed.

Lemma writeTo_loop_registered ks d s r d' s' :
  writeTo_loop ks d s = Ret (r, d', s') → writeRegistered s' = writeRegistered s.
Proof.
  revert d s. induction ks as [|k ks IH]; intros d s; cbn [writeTo_loop]; [done|].
  destruct k as [n| |].
  - destruct (_ =? 0); [intros [= <- <- <-]; by rewrite closeSocket_registered|].
    unfold checked_int. destruct (fits_int _); [|done]. rewrite bind_Ret_l. cbv zeta.
    destruct (_ =? _); [by intros [= <- <- <-]|]. intros H. by rewrite (IH _ _ H).
  - by intros [= <- <- <-].
  - intros [= <- <- <-]. by rewrite closeSocket_registered.
Qed.
Lemma writeTo_registered d s r d' s' :
  writeTo d s = Ret (r, d', s') → writeRegistered s' = writeRegistered s.
Proof.
  unfold writeTo. destruct (_ || _); [done|].
  destruct (closed s); [by intros [= <- <- <-]|]. apply writeTo_loop_registered.
Qed.

Lemma completeWrite_loop_registered fuel p q0 c all done' c' :
  completeWrite_loop fuel p q0 c = Ret (all, done', c') → writeRegistered (base c') = writeRegistered (base c).
Proof.
  revert q0 c. induction fuel as [|fuel IH]; intros q0 c; cbn [completeWrite_loop];
    (destruct (allRequestsDone c); [by intros [= <- <- <-]|]); [done|].
  intros H. apply bind_Ret_inv in H as ([[q rd] s] & Hw & H). apply writeTo_registered in Hw.
  destruct ((q =? 0) || (q =? 1)); [|by injection H as <- <- <-]. cbn in H.
  destruct (q =? 0); [by injection H as <- <- <-|]. by rewrite (IH _ _ H).
Qed.

(** A write event is one chance.  The event is unregistered before the write
    task runs, and the task does not register it again when the socket would block:
    a response that is not finished by its first write event is waited for by
    nobody. *)
Theorem write_event_not_renewed c c' :
  closed (base c) = false → write_ready c = Ret c' → closed (base c') = false →
  writeRegistered (base c') = false.
Proof.
  intros Hc. unfold write_ready. rewrite Hc. unfold unRegisterWrite at 1. rewrite Hc. cbn [snd].
  intros H _. apply bind_Ret_inv in H as ([r c1] & H & [= <-]). cbn [snd].
  unfold completeWrite in H. apply bind_Ret_inv in H as (p & _ & H).
  apply bind_Ret_inv in H as ([[all done] c2] & Hl & H).
  apply completeWrite_loop_registered in Hl. cbn in Hl.
  destruct all; [|by injection H as _ <-].
  unfold unRegisterWrite in H. destruct (closed (base c2)); by injection H as _ <-.
Qed.

Definition blocked_connection : SocketInterface :=
  mkConn (mkSocket false [] (str "HTTP") 0 true [Room 3; Send_again] []) {[ 1 := mkRD (str "HTTP/1.1 200 OK") 4 ]} 1 0.

Example write_event_not_renewed_witness :
  ∃ c', write_ready blocked_connection = Ret c' ∧ allRequestsDone c' = false ∧
    wire (base c') = str "HTTP/1." ∧ writeRegistered (base c') = false.
Proof.
  eexists. split; [vm_compute; reflexivity|]. split; [reflexivity|]. split; [reflexivity|].
  apply (write_event_not_renewed blocked_connection); reflexivity.
Defined.

Lemma writeTo_room n ks d s :
  rd_ok d → closed s = false → rest d ≠ [] → slen (rest d) ≤ Z.of_nat n → sends s = Room n :: ks →
  writeTo d s = Ret (1, mkRD (rd_b d) (slen (rd_b d)), put_wire (rest d) (set_sends ks s)).
Proof.
  intros [Ho Hb] Hc Hne Hn Hk. pose proof (rest_slen d ltac:(done)) as Hsl.
  assert (0 < slen (rest d)) as Hpos by (destruct (rest d); [done|unfold slen; cbn; lia]).
  unfold writeTo. replace (_ || _) with false by lia. rewrite Hc, Hk. cbn [writeTo_loop].
  rewrite <- Hsl, Z.min_r by done. replace (_ =? 0) with false by lia.
  rewrite checked_int_Ret, bind_Ret_l by lia. cbv zeta. cbn [rd_b rd_oft].
  replace (rd_oft d + slen (rest d)) with (slen (rd_b d)) by lia. rewrite wraps_small, Z.eqb_refl by lia.
  do 3 f_equal. change (drop (Z.to_nat (rd_oft d)) (rd_b d)) with (rest d).
  unfold slen. rewrite Nat2Z.id, firstn_all. done.
Qed.

Lemma writeTo_empty n ks s :
  closed s = false → sends s = Room n :: ks →
  writeTo ResponseData_new s = Ret (0, ResponseData_new, closeSocket (set_sends ks s)).
Proof.
  intros Hc Hk. unfold writeTo. cbn -[Z.min]. rewrite Hc, Hk. cbn -[Z.min]. unfold slen. cbn -[Z.min].
  by rewrite Z.min_r by lia.
Qed.

(** Two responses that wait lose the second.  [completeWrite] keeps writing the
    slot it started with: with a kernel that takes everything, the first response
    is finished, then its slot, erased and created again empty, is written, which
    closes the connection; the second response stays in its slot. *)
Theorem second_waiting_response_lost c d1 d2 n1 n2 ks :
  closed (base c) = false → 0 ≤ current c → reqPos c = current c + 2 → reqPos c < 2 ^ 31 - 1 →
  wtl c !! (current c + 1) = Some d1 → rd_ok d1 → rest d1 ≠ [] → slen (rest d1) ≤ Z.of_nat n1 →
  wtl c !! (current c + 2) = Some d2 → sends (base c) = Room n1 :: Room n2 :: ks →
  ∃ c', completeWrite c = Ret (0, c') ∧ wire (base c') = wire (base c) ++ rest d1 ∧
    closed (base c') = true ∧ allRequestsDone c' = true ∧ wtl c' !! reqPos c = Some d2.
Proof.
  intros Hc Hc0 Hpos Hmax Hs1 Hd1 Hne Hn1 Hs2 Hk.
  unfold completeWrite. rewrite checked_int_Ret, bind_Ret_l by lia.
  rewrite Hk. cbn [length]. rewrite completeWrite_loop_S. unfold allRequestsDone at 1.
  replace (current c =? reqPos c) with false by lia.
  unfold slot at 1. rewrite Hs1. cbn [default]. rewrite (writeTo_room n1 (Room n2 :: ks)) by done.
  rewrite bind_Ret_l. cbn [Z.eqb Pos.eqb orb endRequest]. cbv zeta. rewrite completeWrite_loop_S.
  cbn -[completeWrite_loop closeSocket wraps slot]. rewrite wraps_small by lia.
  unfold allRequestsDone at 1. cbn [current reqPos]. replace (current c + 1 =? reqPos c) with false by lia.
  replace (current c + 1 =? -1) with false by lia.
  unfold slot at 1. cbn [wtl]. rewrite lookup_delete_eq. cbn [default base].
  rewrite (writeTo_empty n2 ks) by done. rewrite bind_Ret_l.
  cbn -[closeSocket completeWrite_loop wraps]. rewrite wraps_small by lia.
  eexists. split; [done|]. cbn -[closeSocket]. rewrite closeSocket_wire, closeSocket_closed. cbn.
  split_and!; [done|done|unfold allRequestsDone; cbn; lia|].
  rewrite Hpos. replace (current c + 1 =? -1) with false by lia.
  rewrite lookup_delete_ne, lookup_insert_ne, lookup_delete_ne, lookup_insert_ne by lia. done.
Qed.

Lemma completeWrite_empty_slot c n ks :
  closed (base c) = false → -2 ^ 31 ≤ current c < 2 ^ 31 - 1 → current c ≠ reqPos c → current c ≠ -2 →
  wtl c !! (current c + 1) = None → sends (base c) = Room n :: ks →
  completeWrite c = Ret (0, mkConn (closeSocket (set_sends ks (base c))) (delete (current c + 1) (wtl c)) (reqPos c) (current c + 1)).
Proof.
  intros Hc Hc0 Hne Hm2 Hs Hk. unfold completeWrite.
  rewrite checked_int_Ret, bind_Ret_l, Hk by lia. cbn [length]. rewrite completeWrite_loop_S.
  unfold allRequestsDone at 1. replace (current c =? reqPos c) with false by lia.
  unfold slot at 1. rewrite Hs. cbn [default]. rewrite (writeTo_empty n ks) by done. rewrite bind_Ret_l.
  cbn -[closeSocket completeWrite_loop wraps]. rewrite wraps_small by lia.
  replace (current c + 1 =? -1) with false by lia. by rewrite delete_insert_eq.
Qed.

(** A response can overtake an earlier one.  [pushResponse] writes whatever its
    position: while the response before it is half written, the next one goes into
    the middle of it, and the write event then closes the connection with the rest
    of the first still in its slot. *)
Theorem later_response_overtakes c d1 data n1 n2 ks :
  closed (base c) = false → 0 ≤ current c → reqPos c = current c + 2 → reqPos c < 2 ^ 31 - 1 →
  wtl c !! (current c + 1) = Some d1 → rest d1 ≠ [] → wtl c !! (current c + 2) = Some ResponseData_new →
  0 < slen data < 2 ^ 31 → slen data ≤ Z.of_nat n1 → sends (base c) = Room n1 :: Room n2 :: ks →
  ∃ c1 c', pushResponse (λ b, Ret (b ++ data)) (reqPos c) c = Ret (1, c1) ∧
    wire (base c1) = wire (base c) ++ data ∧ closed (base c1) = false ∧
    completeWrite c1 = Ret (0, c') ∧ wire (base c') = wire (base c1) ∧ closed (base c') = true ∧
    wtl c' !! (current c + 1) = Some d1.
Proof.
  intros Hc Hc0 Hpos Hmax Hs1 Hne Hs2 Hd Hn Hk. unfold pushResponse, slot at 1 2. rewrite Hpos, Hs2.
  rewrite bind_Ret_l. cbn [default id rd_b rd_oft ResponseData_new app].
  assert (rest (mkRD data 0) = data) as Hrest by (unfold rest; cbn; apply drop_0).
  assert (data ≠ []) as Hdne by (intros ->; rewrite slen_nil in Hd; lia).
  rewrite (writeTo_room n1 (Room n2 :: ks)); try done; try (rewrite Hrest; done); [|unfold rd_ok; cbn; lia].
  rewrite bind_Ret_l, Hrest. cbn -[completeWrite slot wraps]. rewrite wraps_small by lia.
  replace (current c + 2 =? -1) with false by lia.
  eexists _, _. split; [done|]. cbn -[completeWrite slot wraps]. split; [done|]. split; [done|].
  split.
  - apply (completeWrite_empty_slot _ n2 ks); cbn; try done; try lia.
    replace (current c + 1 + 1) with (current c + 2) by lia. by rewrite lookup_delete_eq.
  - cbn -[closeSocket]. rewrite closeSocket_wire, closeSocket_closed. cbn. split_and!; [done|done|].
    rewrite lookup_delete_ne, lookup_delete_ne, lookup_insert_ne by lia. done.
Qed.

Definition two_waiting_connection (d2 : ResponseData) : SocketInterface :=
  mkConn (mkSocket false [] (str "HTTP") 0 true [Room 100; Room 100] [])
    {[ 1 := mkRD (str "HTTP/1.1 200 OK") 4; 2 := d2 ]} 2 0.

Example second_waiting_response_lost_witness :
  let c := two_waiting_connection (mkRD (str "HTTP/1.1 404 Not Found") 0) in
  ∃ c', completeWrite c = Ret (0, c') ∧ wire (base c') = wire (base c) ++ str "/1.1 200 OK" ∧
    closed (base c') = true ∧ allRequestsDone c' = true ∧ wtl c' !! reqPos c = Some (mkRD (str "HTTP/1.1 404 Not Found") 0).
Proof.
  apply (second_waiting_response_lost (two_waiting_connection (mkRD (str "HTTP/1.1 404 Not Found") 0))
           (mkRD (str "HTTP/1.1 200 OK") 4) _ 100 100 []); try done; split; done.
Defined.

Example later_response_overtakes_witness :
  let c := two_waiting_connection ResponseData_new in
  ∃ c1 c', pushResponse (λ b, Ret (b ++ str "HTTP/1.1 404 Not Found")) 2 c = Ret (1, c1) ∧
    wire (base c1) = str "HTTP" ++ str "HTTP/1.1 404 Not Found" ∧ closed (base c1) = false ∧
    completeWrite c1 = Ret (0, c') ∧ wire (base c') = wire (base c1) ∧ closed (base c') = true ∧
    wtl c' !! 1 = Some (mkRD (str "HTTP/1.1 200 OK") 4).
Proof.
  apply (later_response_overtakes (two_waiting_connection ResponseData_new) (mkRD (str "HTTP/1.1 200 OK") 4)
           (str "HTTP/1.1 404 Not Found") 100 100 []); done.
Defined.
