(* ===== verification/CacheMap.v ===== *)
(** * CacheMap

    The store of the distributed cache ([distocache/CacheMap.cpp]): named containers of
    strings of six kinds, each with a mutex, and a map of single values.

    An operation ends in a value or in the text of a [std::runtime_error], and in both cases
    in a state; that a container's mutex is held when it ends is part of that state.  Waiting
    for a mutex nobody will release is [Out_of_fuel]. *)

From S2P Require Import Prelude StdMap.

(** ** Data *)

Definition MAP : bytes := str "map".
Definition SET : bytes := str "set".
Definition LIST : bytes := str "list".
Definition VECTOR : bytes := str "vector".
Definition QUEUE : bytes := str "queue".
Definition DEQUE : bytes := str "deque".

Definition ERR_NOELEMENTS : bytes := str "No Elements in container".
Definition ERR_NOKEYCACHEMAP : bytes := str "Unable to find value for Key specified".
Definition ERR_INVCONTAINER : bytes := str "Invalid container specified".
Definition ERR_OPNOTSUPP : bytes := str "Operation not supported on container".
Definition ERR_INDGRTCONTSIZ : bytes := str "Index greater than container size".
Definition ERR_NOTAMAPCONT : bytes := str "Not a map container".
Definition ERR_NOVALUEFOUND : bytes := str "No value found for key".
Definition ERR_ALLOCENTEXISTS : bytes := str "Entry already exists".
Definition ERR_NOVALUESPEC : bytes := str "No value specified".
Definition ERR_NEGATIVEPOS : bytes := str "Position value is less than 0".
Definition ERR_POSNOTNUM : bytes := str "Position value is not a number".
Definition ERR_NEGATIVEREP : bytes := str "Repetition value is less than 0".
Definition ERR_REPNOTNUM : bytes := str "Repetition value is not a number".
Definition SUCCESS : bytes := str "SUCCESS".

(** What a [void*] of the cache points to. *)
Inductive container :=
| CMap (m : list (bytes * bytes))
| CSet (s : list (bytes * unit))
| CVector (l : list bytes)
| CList (l : list bytes)
| CQueue (l : list bytes)
| CDeque (l : list bytes).

(** [CacheMap]: a mutex of [valueLocks] is whether it is held.  The two mutexes of the cache
    itself are held within single steps only. *)
Record CacheMap := mkCache {
  cacheMap : list (bytes * container);
  valueTypes : list (bytes * bytes);
  valueLocks : list (bytes * bool);
  objCacheMap : list (bytes * bytes)
}.
Definition init : CacheMap := mkCache [] [] [] [].

(** ** Actions *)

Definition action (A : Type) : Type := CacheMap → outcome ((bytes + A) * CacheMap).
Definition done_ {A} (a : A) : action A := λ s, Ret (inr a, s).
Definition throw {A} (e : bytes) : action A := λ s, Ret (inl e, s).
Definition andThen {A B} (m : action A) (f : A → action B) : action B := λ s,
  '(r, s) ← m s; match r with inl e => Ret (inl e, s) | inr a => f a s end.

(** The casts of the pointers, to the type the entry is said to have. *)
Record cast (A : Type) := mkCast { open : container → option A; close : A → container }.
Arguments mkCast {A}.
Arguments open {A}.
Arguments close {A}.
Definition as_map : cast (list (bytes * bytes)) := mkCast (λ c, match c with CMap m => Some m | _ => None end) CMap.
Definition as_set : cast (list (bytes * unit)) := mkCast (λ c, match c with CSet s => Some s | _ => None end) CSet.
Definition as_vector : cast (list bytes) := mkCast (λ c, match c with CVector l => Some l | _ => None end) CVector.
Definition as_list : cast (list bytes) := mkCast (λ c, match c with CList l => Some l | _ => None end) CList.
Definition as_queue : cast (list bytes) := mkCast (λ c, match c with CQueue l => Some l | _ => None end) CQueue.
Definition as_deque : cast (list bytes) := mkCast (λ c, match c with CDeque l => Some l | _ => None end) CDeque.

(** [valueLocks[cacheKey]->lock(); ...; valueLocks[cacheKey]->unlock();] around work on the
    container, which can throw: then the mutex stays as it is, held.  A missing pointer and a
    wrong cast are undefined. *)
Definition guarded {A R} (K : cast A) (cacheKey : bytes) (work : A → A * (bytes + R)) : action R := λ s,
  match mfind cacheKey (cacheMap s), mfind cacheKey (valueLocks s) with
  | Some c, Some held =>
      if held then Out_of_fuel
      else match open K c with
           | None => Undefined
           | Some a =>
               let '(a, r) := work a in
               Ret (r, mkCache (mset cacheKey (close K a) (cacheMap s)) (valueTypes s)
                         (match r with inl _ => mset cacheKey true (valueLocks s) | inr _ => valueLocks s end) (objCacheMap s))
           end
  | _, _ => Undefined
  end.
(** Work that does not throw. *)
Definition locked {A R} (K : cast A) (cacheKey : bytes) (work : A → A * R) : action R :=
  guarded K cacheKey (λ a, let '(a, r) := work a in (a, inr r)).

(** [if(error) throw std::runtime_error(...)], behind the unlock. *)
Definition or_throw {A} (e : bytes) (m : action (option A)) : action A :=
  andThen m (λ r, match r with Some a => done_ a | None => throw e end).

Definition is_type (t type : bytes) : bool := bool_decide (t = type).

Definition checkExistance (cacheKey type : bytes) (s : CacheMap) : bool :=
  mmem cacheKey (cacheMap s) &&
  (bool_decide (type = []) || bool_decide (mfind cacheKey (valueTypes s) = Some type)).
(** [valueTypes[cacheKey]] adds an empty type where there is none. *)
Definition checkExistanceAndGetType (cacheKey : bytes) : action bytes := λ s,
  if mmem cacheKey (cacheMap s) then
    match mfind cacheKey (valueTypes s) with
    | Some t => Ret (inr t, s)
    | None => Ret (inr [], mkCache (cacheMap s) (mset cacheKey [] (valueTypes s)) (valueLocks s) (objCacheMap s))
    end
  else Ret (inr [], s).
(** The frame of most operations: the type of the entry, then the case for it. *)
Definition with_type {A} (cacheKey : bytes) (cases : bytes → action A) : action A :=
  andThen (checkExistanceAndGetType cacheKey) (λ type,
    if is_type type [] then throw ERR_NOKEYCACHEMAP else cases type).

(** ** Entries *)

(** [allocate], in the two steps another thread can come between. *)
Definition allocate_check (cacheKey : bytes) : action unit := λ s,
  if checkExistance cacheKey [] s then throw ERR_ALLOCENTEXISTS s else done_ tt s.
Definition allocate_store (cacheKey type : bytes) : action unit := λ s,
  let put c := Ret (inr tt, mkCache (mset cacheKey c (cacheMap s)) (mset cacheKey type (valueTypes s))
                              (mset cacheKey false (valueLocks s)) (objCacheMap s)) in
  if is_type type MAP then put (CMap [])
  else if is_type type SET then put (CSet [])
  else if is_type type LIST then put (CList [])
  else if is_type type VECTOR then put (CVector [])
  else if is_type type QUEUE then put (CQueue [])
  else if is_type type DEQUE then put (CDeque [])
  else throw ERR_INVCONTAINER s.
Definition allocate (cacheKey type : bytes) : action unit :=
  andThen (allocate_check cacheKey) (λ _, allocate_store cacheKey type).

(** Destroying a mutex that is held is undefined. *)
Definition deallocate (cacheKey : bytes) : action unit := λ s,
  if checkExistance cacheKey [] s then
    match mfind cacheKey (valueLocks s) with
    | Some true => Undefined
    | _ => Ret (inr tt, mkCache (merase cacheKey (cacheMap s)) (merase cacheKey (valueTypes s))
                          (merase cacheKey (valueLocks s)) (objCacheMap s))
    end
  else throw ERR_NOKEYCACHEMAP s.

Definition set_obj (m : list (bytes * bytes)) (s : CacheMap) : CacheMap :=
  mkCache (cacheMap s) (valueTypes s) (valueLocks s) m.
Definition addObjectEntry (key value : bytes) : action unit := λ s, Ret (inr tt, set_obj (mset key value (objCacheMap s)) s).
Definition removeObjectEntry (key : bytes) : action unit := λ s, Ret (inr tt, set_obj (merase key (objCacheMap s)) s).
Definition getObjectEntryValue (key : bytes) : action bytes := λ s,
  match mfind key (objCacheMap s) with Some v => Ret (inr v, s) | None => Ret (inl ERR_NOVALUEFOUND, s) end.
Definition checkObjectExistance (key : bytes) (s : CacheMap) : bool := mmem key (objCacheMap s).

(** ** Maps *)

Definition addMapEntry (cacheKey key value : bytes) : action unit := λ s,
  if checkExistance cacheKey MAP s then locked as_map cacheKey (λ m, (minsert key value m, tt)) s
  else throw ERR_NOTAMAPCONT s.
Definition removeMapEntry (cacheKey key : bytes) : action unit := λ s,
  if checkExistance cacheKey MAP s then locked as_map cacheKey (λ m, (merase key m, tt)) s
  else throw ERR_NOTAMAPCONT s.
Definition getMapEntryValue (cacheKey key : bytes) : action bytes := λ s,
  if checkExistance cacheKey MAP s then
    guarded as_map cacheKey (λ m, (m, match mfind key m with Some v => inr v | None => inl ERR_NOVALUEFOUND end)) s
  else throw ERR_NOKEYCACHEMAP s.
(** Positions and repetitions are natural numbers: the one caller refuses negative ones. *)
Definition getMapEntryValueByPosition (cacheKey : bytes) (position : nat) : action bytes := λ s,
  if checkExistance cacheKey MAP s then
    guarded as_map cacheKey (λ m, (m, match m !! position with Some kv => inr kv.2 | None => inl ERR_INDGRTCONTSIZ end)) s
  else throw ERR_NOKEYCACHEMAP s.
Definition setMapEntryValueByPosition (cacheKey : bytes) (position : nat) (value : bytes) : action unit := λ s,
  if checkExistance cacheKey MAP s then
    guarded as_map cacheKey (λ m,
      match m !! position with
      | Some kv => (<[position := (kv.1, value)]> m, inr tt)
      | None => (m, inl ERR_INDGRTCONTSIZ)
      end) s
  else throw ERR_NOKEYCACHEMAP s.

(** ** Collections *)

Definition keys {V} (m : list (bytes * V)) : list bytes := map fst m.

Definition addCollectionEntry (cacheKey value : bytes) : action unit :=
  with_type cacheKey (λ type,
    if is_type type VECTOR then locked as_vector cacheKey (λ l, (l ++ [value], tt))
    else if is_type type LIST then locked as_list cacheKey (λ l, (l ++ [value], tt))
    else if is_type type SET then locked as_set cacheKey (λ l, (minsert value tt l, tt))
    else if is_type type QUEUE then locked as_queue cacheKey (λ l, (l ++ [value], tt))
    else if is_type type DEQUE then locked as_deque cacheKey (λ l, (l ++ [value], tt))
    else throw ERR_INVCONTAINER).

(** The work of the positional operations: nothing when the position is not there. *)
Definition set_at (position : nat) (value : bytes) (l : list bytes) : list bytes * option unit :=
  if (position <? length l)%nat then (<[position := value]> l, Some tt) else (l, None).
Definition get_at (position : nat) (l : list bytes) : list bytes * option bytes := (l, l !! position).
Definition remove_at {V} (position : nat) (l : list V) : list V * option unit :=
  if (position <? length l)%nat then (delete position l, Some tt) else (l, None).
Definition insert_at (position repeat : nat) (value : bytes) (l : list bytes) : list bytes * option unit :=
  if (position <? length l)%nat then (take position l ++ replicate repeat value ++ drop position l, Some tt) else (l, None).

Definition setCollectionEntryAt (cacheKey : bytes) (position : nat) (value : bytes) : action unit :=
  or_throw ERR_INDGRTCONTSIZ (with_type cacheKey (λ type,
    if is_type type VECTOR then locked as_vector cacheKey (set_at position value)
    else if is_type type LIST then locked as_list cacheKey (set_at position value)
    else if is_type type DEQUE then locked as_deque cacheKey (set_at position value)
    else if is_type type QUEUE then throw ERR_OPNOTSUPP
    else throw ERR_INVCONTAINER)).
Definition getCollectionEntryAt (cacheKey : bytes) (position : nat) : action bytes :=
  or_throw ERR_INDGRTCONTSIZ (with_type cacheKey (λ type,
    if is_type type VECTOR then locked as_vector cacheKey (get_at position)
    else if is_type type LIST then locked as_list cacheKey (get_at position)
    else if is_type type SET then locked as_set cacheKey (λ s, (s, keys s !! position))
    else if is_type type DEQUE then locked as_deque cacheKey (get_at position)
    else if is_type type QUEUE then throw ERR_OPNOTSUPP
    else throw ERR_INVCONTAINER)).

Definition count {V} (l : list V) : list V * Z := (l, Z.of_nat (length l)).
Definition size (cacheKey : bytes) : action Z :=
  with_type cacheKey (λ type,
    if is_type type VECTOR then locked as_vector cacheKey count
    else if is_type type LIST then locked as_list cacheKey count
    else if is_type type SET then locked as_set cacheKey count
    else if is_type type QUEUE then locked as_queue cacheKey count
    else if is_type type DEQUE then locked as_deque cacheKey count
    else if is_type type MAP then locked as_map cacheKey count
    else throw ERR_INVCONTAINER).
Definition empty_ {V} (l : list V) : list V * bool := (l, match l with [] => true | _ => false end).
Definition isEmpty (cacheKey : bytes) : action bool :=
  with_type cacheKey (λ type,
    if is_type type VECTOR then locked as_vector cacheKey empty_
    else if is_type type LIST then locked as_list cacheKey empty_
    else if is_type type SET then locked as_set cacheKey empty_
    else if is_type type QUEUE then locked as_queue cacheKey empty_
    else if is_type type DEQUE then locked as_deque cacheKey empty_
    else if is_type type MAP then locked as_map cacheKey empty_
    else throw ERR_INVCONTAINER).
Definition removeCollectionEntryAt (cacheKey : bytes) (position : nat) : action unit :=
  or_throw ERR_INDGRTCONTSIZ (with_type cacheKey (λ type,
    if is_type type VECTOR then locked as_vector cacheKey (remove_at position)
    else if is_type type LIST then locked as_list cacheKey (remove_at position)
    else if is_type type SET then locked as_set cacheKey (remove_at position)
    else if is_type type DEQUE then locked as_deque cacheKey (remove_at position)
    else if is_type type QUEUE then throw ERR_OPNOTSUPP
    else throw ERR_INVCONTAINER)).
Definition clear_ {V} (l : list V) : list V * unit := ([], tt).
Definition clear (cacheKey : bytes) : action unit :=
  with_type cacheKey (λ type,
    if is_type type VECTOR then locked as_vector cacheKey clear_
    else if is_type type LIST then locked as_list cacheKey clear_
    else if is_type type SET then locked as_set cacheKey clear_
    else if is_type type DEQUE then locked as_deque cacheKey clear_
    else if is_type type MAP then locked as_map cacheKey clear_
    else throw ERR_INVCONTAINER).
(** [insert]: the position in a set is a hint, and has to be there all the same. *)
Definition insert (cacheKey value : bytes) (position : nat) : action unit :=
  or_throw ERR_INDGRTCONTSIZ (with_type cacheKey (λ type,
    if is_type type VECTOR then locked as_vector cacheKey (insert_at position 1 value)
    else if is_type type LIST then locked as_list cacheKey (insert_at position 1 value)
    else if is_type type SET then
      locked as_set cacheKey (λ s, if (position <? length s)%nat then (minsert value tt s, Some tt) else (s, None))
    else if is_type type DEQUE then locked as_deque cacheKey (insert_at position 1 value)
    else if is_type type QUEUE then throw ERR_OPNOTSUPP
    else throw ERR_INVCONTAINER)).
Definition insert_repeat (cacheKey value : bytes) (position repeat : nat) : action unit :=
  or_throw ERR_INDGRTCONTSIZ (with_type cacheKey (λ type,
    if is_type type VECTOR then locked as_vector cacheKey (insert_at position repeat value)
    else if is_type type LIST then locked as_list cacheKey (insert_at position repeat value)
    else if is_type type DEQUE then locked as_deque cacheKey (insert_at position repeat value)
    else if is_type type QUEUE then throw ERR_OPNOTSUPP
    else throw ERR_INVCONTAINER)).

(** ** Queues and ends *)

(** The work at the ends: nothing when there are no elements. *)
Definition take_front (l : list bytes) : list bytes * option bytes :=
  match l with v :: l' => (l', Some v) | [] => ([], None) end.
Definition take_back (l : list bytes) : list bytes * option bytes :=
  match last l with Some v => (removelast l, Some v) | None => (l, None) end.
Definition drop_front (l : list bytes) : list bytes * option unit := let '(l, r) := take_front l in (l, r ≫= λ _, Some tt).
Definition drop_back (l : list bytes) : list bytes * option unit := let '(l, r) := take_back l in (l, r ≫= λ _, Some tt).
Definition front (l : list bytes) : list bytes * option bytes := (l, head l).
Definition back (l : list bytes) : list bytes * option bytes := (l, last l).

Definition popValueQueue (cacheKey : bytes) : action unit :=
  with_type cacheKey (λ type,
    if is_type type QUEUE then or_throw ERR_NOELEMENTS (locked as_queue cacheKey drop_front)
    else if is_type type LIST || is_type type VECTOR || is_type type SET || is_type type DEQUE then throw ERR_OPNOTSUPP
    else throw ERR_INVCONTAINER).
Definition popGetValueQueue (cacheKey : bytes) : action bytes :=
  with_type cacheKey (λ type,
    if is_type type QUEUE then or_throw ERR_NOELEMENTS (locked as_queue cacheKey take_front)
    else if is_type type LIST || is_type type VECTOR || is_type type SET || is_type type DEQUE then throw ERR_OPNOTSUPP
    else throw ERR_INVCONTAINER).

Definition pushBackValue (cacheKey value : bytes) : action unit :=
  with_type cacheKey (λ type,
    if is_type type LIST then locked as_list cacheKey (λ l, (l ++ [value], tt))
    else if is_type type DEQUE then locked as_deque cacheKey (λ l, (l ++ [value], tt))
    else if is_type type QUEUE || is_type type VECTOR || is_type type SET then throw ERR_OPNOTSUPP
    else throw ERR_INVCONTAINER).
Definition pushFrontValue (cacheKey value : bytes) : action unit :=
  with_type cacheKey (λ type,
    if is_type type LIST then locked as_list cacheKey (λ l, (value :: l, tt))
    else if is_type type DEQUE then locked as_deque cacheKey (λ l, (value :: l, tt))
    else if is_type type QUEUE || is_type type VECTOR || is_type type SET then throw ERR_OPNOTSUPP
    else throw ERR_INVCONTAINER).
Definition popFrontValue (cacheKey : bytes) : action unit :=
  or_throw ERR_NOELEMENTS (with_type cacheKey (λ type,
    if is_type type LIST then locked as_list cacheKey drop_front
    else if is_type type DEQUE then locked as_deque cacheKey drop_front
    else if is_type type QUEUE || is_type type VECTOR || is_type type SET then throw ERR_OPNOTSUPP
    else throw ERR_INVCONTAINER)).
Definition popBackValue (cacheKey : bytes) : action unit :=
  or_throw ERR_NOELEMENTS (with_type cacheKey (λ type,
    if is_type type LIST then locked as_list cacheKey drop_back
    else if is_type type DEQUE then locked as_deque cacheKey drop_back
    else if is_type type QUEUE || is_type type VECTOR || is_type type SET then throw ERR_OPNOTSUPP
    else throw ERR_INVCONTAINER)).
Definition popGetFrontValue (cacheKey : bytes) : action bytes :=
  or_throw ERR_NOELEMENTS (with_type cacheKey (λ type,
    if is_type type LIST then locked as_list cacheKey take_front
    else if is_type type DEQUE then locked as_deque cacheKey take_front
    else if is_type type QUEUE || is_type type VECTOR || is_type type SET then throw ERR_OPNOTSUPP
    else throw ERR_INVCONTAINER)).
Definition popGetBackValue (cacheKey : bytes) : action bytes :=
  or_throw ERR_NOELEMENTS (with_type cacheKey (λ type,
    if is_type type LIST then locked as_list cacheKey take_back
    else if is_type type DEQUE then locked as_deque cacheKey take_back
    else if is_type type QUEUE || is_type type VECTOR || is_type type SET then throw ERR_OPNOTSUPP
    else throw ERR_INVCONTAINER)).
Definition getFrontValue (cacheKey : bytes) : action bytes :=
  or_throw ERR_NOELEMENTS (with_type cacheKey (λ type,
    if is_type type VECTOR then locked as_vector cacheKey front
    else if is_type type LIST then locked as_list cacheKey front
    else if is_type type QUEUE then locked as_queue cacheKey front
    else if is_type type DEQUE then locked as_deque cacheKey front
    else if is_type type SET then throw ERR_OPNOTSUPP
    else throw ERR_INVCONTAINER)).
Definition getBackValue (cacheKey : bytes) : action bytes :=
  or_throw ERR_NOELEMENTS (with_type cacheKey (λ type,
    if is_type type VECTOR then locked as_vector cacheKey back
    else if is_type type LIST then locked as_list cacheKey back
    else if is_type type QUEUE then locked as_queue cacheKey back
    else if is_type type DEQUE then locked as_deque cacheKey back
    else if is_type type SET then throw ERR_OPNOTSUPP
    else throw ERR_INVCONTAINER)).

(** ** The abstract cache

    One finite map from names to containers and whether they are locked up, and one of
    single values; an operation on a container is a table of what each kind supports. *)

Inductive result := Nothing | Text (v : bytes) | Count (n : Z) | Flag (b : bool).

Inductive op :=
| AddMap (key value : bytes) | RemoveMap (key : bytes) | GetMap (key : bytes)
| GetMapAt (position : nat) | SetMapAt (position : nat) (value : bytes)
| Add (value : bytes) | SetAt (position : nat) (value : bytes) | GetAt (position : nat) | RemoveAt (position : nat)
| Insert (value : bytes) (position : nat) | InsertRepeat (value : bytes) (position repeat : nat)
| Size | IsEmpty | Clear | Pop | PopGet | PushBack (value : bytes) | PushFront (value : bytes)
| PopFront | PopBack | PopGetFront | PopGetBack | GetFront | GetBack.

Inductive command :=
| Allocate (cacheKey type : bytes) | Deallocate (cacheKey : bytes)
| AddObject (key value : bytes) | RemoveObject (key : bytes) | GetObject (key : bytes)
| On (cacheKey : bytes) (o : op).

Definition nothing (m : action unit) : action result := andThen m (λ _, done_ Nothing).
Definition text (m : action bytes) : action result := andThen m (λ v, done_ (Text v)).

Definition perform (cacheKey : bytes) (o : op) : action result :=
  match o with
  | AddMap key value => nothing (addMapEntry cacheKey key value)
  | RemoveMap key => nothing (removeMapEntry cacheKey key)
  | GetMap key => text (getMapEntryValue cacheKey key)
  | GetMapAt position => text (getMapEntryValueByPosition cacheKey position)
  | SetMapAt position value => nothing (setMapEntryValueByPosition cacheKey position value)
  | Add value => nothing (addCollectionEntry cacheKey value)
  | SetAt position value => nothing (setCollectionEntryAt cacheKey position value)
  | GetAt position => text (getCollectionEntryAt cacheKey position)
  | RemoveAt position => nothing (removeCollectionEntryAt cacheKey position)
  | Insert value position => nothing (insert cacheKey value position)
  | InsertRepeat value position repeat => nothing (insert_repeat cacheKey value position repeat)
  | Size => andThen (size cacheKey) (λ n, done_ (Count n))
  | IsEmpty => andThen (isEmpty cacheKey) (λ b, done_ (Flag b))
  | Clear => nothing (clear cacheKey)
  | Pop => nothing (popValueQueue cacheKey)
  | PopGet => text (popGetValueQueue cacheKey)
  | PushBack value => nothing (pushBackValue cacheKey value)
  | PushFront value => nothing (pushFrontValue cacheKey value)
  | PopFront => nothing (popFrontValue cacheKey)
  | PopBack => nothing (popBackValue cacheKey)
  | PopGetFront => text (popGetFrontValue cacheKey)
  | PopGetBack => text (popGetBackValue cacheKey)
  | GetFront => text (getFrontValue cacheKey)
  | GetBack => text (getBackValue cacheKey)
  end.
Definition exec (c : command) : action result :=
  match c with
  | Allocate cacheKey type => nothing (allocate cacheKey type)
  | Deallocate cacheKey => nothing (deallocate cacheKey)
  | AddObject key value => nothing (addObjectEntry key value)
  | RemoveObject key => nothing (removeObjectEntry key)
  | GetObject key => text (getObjectEntryValue key)
  | On cacheKey o => perform cacheKey o
  end.
(** A sequence of commands: the answers, and the cache in the end. *)
Fixpoint exec_all (cs : list command) (s : CacheMap) : outcome (list (bytes + result) * CacheMap) :=
  match cs with
  | [] => Ret ([], s)
  | c :: cs => '(r, s) ← exec c s; '(rs, s) ← exec_all cs s; Ret (r :: rs, s)
  end.

(** What an operation does to a container.  [Denied] leaves the container alone and does not
    wait for its mutex; [Fails] throws behind the unlock; [Stuck] throws with the mutex held. *)
Inductive verdict := Ok (c : container) (r : result) | Denied (e : bytes) | Fails (e : bytes) | Stuck (e : bytes).

(** The elements of a sequence, and the sequence of the same kind with others. *)
Definition elements (c : container) : option (list bytes) :=
  match c with CVector l | CList l | CQueue l | CDeque l => Some l | _ => None end.
Definition refill (c : container) (l : list bytes) : container :=
  match c with
  | CVector _ => CVector l | CList _ => CList l | CQueue _ => CQueue l | CDeque _ => CDeque l
  | _ => c
  end.
Definition is_queue (c : container) : bool := match c with CQueue _ => true | _ => false end.
Definition two_ended (c : container) : bool := match c with CList _ | CDeque _ => true | _ => false end.
Definition is_map (c : container) : bool := match c with CMap _ => true | _ => false end.

(** Sequences with positions: vectors, lists and deques. *)
Definition on_positions (c : container) (position : nat) (f : list bytes → verdict) : verdict :=
  match c with
  | CVector l | CList l | CDeque l => if (position <? length l)%nat then f l else Fails ERR_INDGRTCONTSIZ
  | CQueue _ => Denied ERR_OPNOTSUPP
  | _ => Denied ERR_INVCONTAINER
  end.
(** Sequences of which an end can be used: those of [allowed]. *)
Definition on_end (allowed : container → bool) (c : container) (f : list bytes → verdict) : verdict :=
  if is_map c then Denied ERR_INVCONTAINER
  else if allowed c then match elements c with Some l => f l | None => Denied ERR_OPNOTSUPP end
  else Denied ERR_OPNOTSUPP.
Definition on_front (allowed : container → bool) (c : container) (f : bytes → list bytes → verdict) : verdict :=
  on_end allowed c (λ l, match l with v :: l => f v l | [] => Fails ERR_NOELEMENTS end).
Definition on_back (allowed : container → bool) (c : container) (f : bytes → list bytes → verdict) : verdict :=
  on_end allowed c (λ l, match reverse l with v :: l => f v (reverse l) | [] => Fails ERR_NOELEMENTS end).

Definition spec (o : op) (c : container) : verdict :=
  match o with
  | AddMap key value =>
      match c with CMap m => Ok (CMap (if mmem key m then m else mset key value m)) Nothing | _ => Denied ERR_NOTAMAPCONT end
  | RemoveMap key => match c with CMap m => Ok (CMap (merase key m)) Nothing | _ => Denied ERR_NOTAMAPCONT end
  | GetMap key =>
      match c with
      | CMap m => match mfind key m with Some v => Ok c (Text v) | None => Stuck ERR_NOVALUEFOUND end
      | _ => Denied ERR_NOKEYCACHEMAP
      end
  | GetMapAt position =>
      match c with
      | CMap m => match m !! position with Some (_, v) => Ok c (Text v) | None => Stuck ERR_INDGRTCONTSIZ end
      | _ => Denied ERR_NOKEYCACHEMAP
      end
  | SetMapAt position value =>
      match c with
      | CMap m => match m !! position with Some (key, _) => Ok (CMap (<[position := (key, value)]> m)) Nothing | None => Stuck ERR_INDGRTCONTSIZ end
      | _ => Denied ERR_NOKEYCACHEMAP
      end
  | Add value =>
      match c with
      | CMap _ => Denied ERR_INVCONTAINER
      | CSet s => Ok (CSet (minsert value tt s)) Nothing
      | CVector l | CList l | CQueue l | CDeque l => Ok (refill c (l ++ [value])) Nothing
      end
  | SetAt position value => on_positions c position (λ l, Ok (refill c (<[position := value]> l)) Nothing)
  | GetAt position =>
      match c with
      | CSet s => match keys s !! position with Some v => Ok c (Text v) | None => Fails ERR_INDGRTCONTSIZ end
      | _ => on_positions c position (λ l, Ok c (Text (nth position l [])))
      end
  | RemoveAt position =>
      match c with
      | CSet s => if (position <? length s)%nat then Ok (CSet (delete position s)) Nothing else Fails ERR_INDGRTCONTSIZ
      | _ => on_positions c position (λ l, Ok (refill c (delete position l)) Nothing)
      end
  | Insert value position =>
      match c with
      | CSet s => if (position <? length s)%nat then Ok (CSet (minsert value tt s)) Nothing else Fails ERR_INDGRTCONTSIZ
      | _ => on_positions c position (λ l, Ok (refill c (take position l ++ value :: drop position l)) Nothing)
      end
  | InsertRepeat value position repeat =>
      on_positions c position (λ l, Ok (refill c (take position l ++ replicate repeat value ++ drop position l)) Nothing)
  | Size =>
      Ok c (Count (Z.of_nat match c with CMap m => length m | CSet s => length s | CVector l | CList l | CQueue l | CDeque l => length l end))
  | IsEmpty => Ok c (Flag match c with CMap [] | CSet [] | CVector [] | CList [] | CQueue [] | CDeque [] => true | _ => false end)
  | Clear =>
      match c with
      | CQueue _ => Denied ERR_INVCONTAINER
      | CMap _ => Ok (CMap []) Nothing
      | CSet _ => Ok (CSet []) Nothing
      | _ => Ok (refill c []) Nothing
      end
  | Pop => on_front is_queue c (λ _ l, Ok (refill c l) Nothing)
  | PopGet => on_front is_queue c (λ v l, Ok (refill c l) (Text v))
  | PushBack value => on_end two_ended c (λ l, Ok (refill c (l ++ [value])) Nothing)
  | PushFront value => on_end two_ended c (λ l, Ok (refill c (value :: l)) Nothing)
  | PopFront => on_front two_ended c (λ _ l, Ok (refill c l) Nothing)
  | PopBack => on_back two_ended c (λ _ l, Ok (refill c l) Nothing)
  | PopGetFront => on_front two_ended c (λ v l, Ok (refill c l) (Text v))
  | PopGetBack => on_back two_ended c (λ v l, Ok (refill c l) (Text v))
  | GetFront => on_front (λ _, true) c (λ v _, Ok c (Text v))
  | GetBack => on_back (λ _, true) c (λ v _, Ok c (Text v))
  end.

Record Abstract := mkAbstract { entries : gmap bytes (container * bool); objects : gmap bytes bytes }.

(** What a missing entry is answered. *)
Definition missing (o : op) : bytes :=
  match o with AddMap _ _ | RemoveMap _ => ERR_NOTAMAPCONT | _ => ERR_NOKEYCACHEMAP end.
Definition fresh_container (type : bytes) : option container :=
  if is_type type MAP then Some (CMap []) else if is_type type SET then Some (CSet [])
  else if is_type type LIST then Some (CList []) else if is_type type VECTOR then Some (CVector [])
  else if is_type type QUEUE then Some (CQueue []) else if is_type type DEQUE then Some (CDeque []) else None.

Definition abs_exec (c : command) (a : Abstract) : outcome ((bytes + result) * Abstract) :=
  match c with
  | Allocate cacheKey type =>
      match entries a !! cacheKey, fresh_container type with
      | Some _, _ => Ret (inl ERR_ALLOCENTEXISTS, a)
      | None, None => Ret (inl ERR_INVCONTAINER, a)
      | None, Some c => Ret (inr Nothing, mkAbstract (<[cacheKey := (c, false)]> (entries a)) (objects a))
      end
  | Deallocate cacheKey =>
      match entries a !! cacheKey with
      | None => Ret (inl ERR_NOKEYCACHEMAP, a)
      | Some (_, true) => Undefined
      | Some (_, false) => Ret (inr Nothing, mkAbstract (delete cacheKey (entries a)) (objects a))
      end
  | AddObject key value => Ret (inr Nothing, mkAbstract (entries a) (<[key := value]> (objects a)))
  | RemoveObject key => Ret (inr Nothing, mkAbstract (entries a) (delete key (objects a)))
  | GetObject key => Ret (match objects a !! key with Some v => inr (Text v) | None => inl ERR_NOVALUEFOUND end, a)
  | On cacheKey o =>
      match entries a !! cacheKey with
      | None => Ret (inl (missing o), a)
      | Some (c, held) =>
          let put c held := mkAbstract (<[cacheKey := (c, held)]> (entries a)) (objects a) in
          match spec o c with
          | Denied e => Ret (inl e, a)
          | v => if (held : bool) then Out_of_fuel
                 else match v with
                      | Ok c r => Ret (inr r, put c false)
                      | Stuck e => Ret (inl e, put c true)
                      | Fails e | Denied e => Ret (inl e, a)
                      end
          end
      end
  end.
Fixpoint abs_exec_all (cs : list command) (a : Abstract) : outcome (list (bytes + result) * Abstract) :=
  match cs with
  | [] => Ret ([], a)
  | c :: cs => '(r, a) ← abs_exec c a; '(rs, a) ← abs_exec_all cs a; Ret (r :: rs, a)
  end.

Example cache_1 :
  fst <$> (match exec_all [Allocate (str "q") QUEUE; On (str "q") (Add (str "a")); On (str "q") (Add (str "b"));
    On (str "q") PopGet; On (str "q") Size; On (str "q") PopFront; On (str "z") Size] init with Ret r => Some r | _ => None end) =
  Some [inr Nothing; inr Nothing; inr Nothing; inr (Text (str "a")); inr (Count 1); inl ERR_OPNOTSUPP; inl ERR_NOKEYCACHEMAP].
Proof. vm_compute. reflexivity. Qed.

(** ** The three maps are one *)

Definition type_of (c : container) : bytes :=
  match c with CMap _ => MAP | CSet _ => SET | CVector _ => VECTOR | CList _ => LIST | CQueue _ => QUEUE | CDeque _ => DEQUE end.

(** The cache stands for an abstract one: every entry has its container, the type of the
    container and a mutex, and the maps are in order. *)
Record stands_for (s : CacheMap) (a : Abstract) : Prop := {
  sf_cache k : mfind k (cacheMap s) = fst <$> entries a !! k;
  sf_types k : mfind k (valueTypes s) = (λ e, type_of e.1) <$> entries a !! k;
  sf_locks k : mfind k (valueLocks s) = snd <$> entries a !! k;
  sf_objects k : mfind k (objCacheMap s) = objects a !! k;
  sf_sorted : sorted (cacheMap s) ∧ sorted (valueTypes s) ∧ sorted (valueLocks s) ∧ sorted (objCacheMap s)
}.

Definition simulates {R} (m : outcome (R * CacheMap)) (m' : outcome (R * Abstract)) : Prop :=
  match m' with
  | Ret (r, a) => ∃ s, m = Ret (r, s) ∧ stands_for s a
  | Throw e => m = Throw e
  | Undefined => m = Undefined
  | Out_of_fuel => m = Out_of_fuel
  end.

Lemma simulates_Ret {R} (r : R) s a : stands_for s a → simulates (Ret (r, s)) (Ret (r, a)).
Proof. intros H. by exists s. Qed.

Lemma stands_for_init : stands_for init (mkAbstract ∅ ∅).
Proof. constructor; try done; intros k; cbn; by rewrite lookup_empty. Qed.

(** What the entry of a name says to the checks. *)
Lemma mmem_Some {V} k (m : list (bytes * V)) v : mfind k m = Some v → mmem k m = true.
Proof. intros H. unfold mmem. by rewrite H, bool_decide_true by eauto. Qed.
Lemma mmem_None {V} k (m : list (bytes * V)) : mfind k m = None → mmem k m = false.
Proof. intros H. unfold mmem. rewrite H, bool_decide_false; [done|]. by intros [? ?]. Qed.

Section checks.
Context (s : CacheMap) (a : Abstract) (H : stands_for s a) (k : bytes).

Lemma find_entry c held : entries a !! k = Some (c, held) →
  mfind k (cacheMap s) = Some c ∧ mfind k (valueTypes s) = Some (type_of c) ∧ mfind k (valueLocks s) = Some held.
Proof. intros E. by rewrite (sf_cache _ _ H), (sf_types _ _ H), (sf_locks _ _ H), E. Qed.
Lemma find_missing : entries a !! k = None → mfind k (cacheMap s) = None.
Proof. intros E. by rewrite (sf_cache _ _ H), E. Qed.

Lemma type_Some c held : entries a !! k = Some (c, held) → checkExistanceAndGetType k s = Ret (inr (type_of c), s).
Proof. intros (H1 & H2 & H3)%find_entry. unfold checkExistanceAndGetType. by rewrite (mmem_Some _ _ _ H1), H2. Qed.
Lemma type_None : entries a !! k = None → checkExistanceAndGetType k s = Ret (inr [], s).
Proof. intros E%find_missing. unfold checkExistanceAndGetType. by rewrite mmem_None. Qed.
Lemma exists_Some c held : entries a !! k = Some (c, held) → checkExistance k [] s = true.
Proof. intros (H1 & H2 & H3)%find_entry. unfold checkExistance. by rewrite (mmem_Some _ _ _ H1). Qed.
Lemma exists_None t : entries a !! k = None → checkExistance k t s = false.
Proof. intros E%find_missing. unfold checkExistance. by rewrite mmem_None. Qed.
Lemma map_Some c held : entries a !! k = Some (c, held) → checkExistance k MAP s = is_map c.
Proof.
  intros (H1 & H2 & H3)%find_entry. unfold checkExistance. rewrite (mmem_Some _ _ _ H1), H2.
  by destruct c; vm_compute.
Qed.

(** The cache after work on an entry. *)
Definition after (c : container) (h : bool) : CacheMap :=
  mkCache (mset k c (cacheMap s)) (valueTypes s) (if h then mset k true (valueLocks s) else valueLocks s) (objCacheMap s).

Lemma guarded_entry {A R} (K : cast A) (work : A → A * (bytes + R)) (c : container) (held : bool) :
  entries a !! k = Some (c, held) →
  guarded K k work s =
  if held then Out_of_fuel
  else match open K c with
       | None => Undefined
       | Some x => let xr := work x in Ret (xr.2, after (close K xr.1) (match xr.2 with inl _ => true | inr _ => false end))
       end.
Proof.
  intros (H1 & H2 & H3)%find_entry. unfold guarded. rewrite H1, H3. destruct held; [done|].
  destruct (open K c) as [x|]; [|done]. by destruct (work x) as [x' [e|r]].
Qed.

Lemma stands_for_after c c' h :
  entries a !! k = Some (c, false) → type_of c' = type_of c →
  stands_for (after c' h) (mkAbstract (<[k := (c', h)]> (entries a)) (objects a)).
Proof.
  intros E Ht. pose proof (find_entry _ _ E) as (H1 & H2 & H3). destruct H as [Hc Hty Hl Ho (S1 & S2 & S3 & S4)].
  constructor; cbn [after cacheMap valueTypes valueLocks objCacheMap entries objects]; try intros k'.
  - rewrite mfind_mset. case_decide; subst; [by rewrite lookup_insert_eq|by rewrite lookup_insert_ne].
  - destruct (decide (k' = k)) as [->|]; [rewrite lookup_insert_eq, H2; cbn; by rewrite Ht|by rewrite lookup_insert_ne].
  - destruct (decide (k' = k)) as [->|]; [rewrite lookup_insert_eq|rewrite lookup_insert_ne by done]; destruct h; try done;
      rewrite ?mfind_mset_eq; [done|]. by rewrite mfind_mset_ne.
  - done.
  - destruct h; auto with ffead.
Qed.
Lemma stands_for_same c : entries a !! k = Some (c, false) → stands_for (after c false) a.
Proof.
  intros E. pose proof (stands_for_after _ c false E eq_refl) as HA. rewrite insert_id in HA by done. by destruct a.
Qed.
End checks.

(** Comparing the types of entries. *)
Ltac types :=
  cbn [type_of];
  repeat match goal with
  | |- context [is_type ?x ?y] => let v := eval vm_compute in (is_type x y) in change (is_type x y) with v
  end.
Ltac ops :=
  cbv beta delta [perform nothing text andThen or_throw with_type locked throw done_ addMapEntry removeMapEntry getMapEntryValue
    getMapEntryValueByPosition setMapEntryValueByPosition addCollectionEntry setCollectionEntryAt getCollectionEntryAt size isEmpty
    removeCollectionEntryAt clear insert insert_repeat popValueQueue popGetValueQueue pushBackValue pushFrontValue popFrontValue
    popBackValue popGetFrontValue popGetBackValue getFrontValue getBackValue] iota.

Lemma perform_missing s a k o :
  stands_for s a → entries a !! k = None → perform k o s = Ret (inl (missing o), s).
Proof.
  intros H E. destruct o; ops; rewrite ?(type_None _ _ H _ E), ?(exists_None _ _ H _ _ E); try done.
Qed.

Ltac entry_cbn :=
  cbn -[mset merase mfind minsert mmem guarded last removelast reverse simulates str Nat.ltb take drop lookup list_insert delete keys].
Ltac entry H E :=
  rewrite ?(type_Some _ _ H _ _ _ E), ?(map_Some _ _ H _ _ _ E); entry_cbn; types; entry_cbn;
  rewrite ?(guarded_entry _ _ H _ _ _ _ _ E); entry_cbn.

Lemma lookup_nth (position : nat) (l : list bytes) :
  l !! position = if (position <? length l)%nat then Some (nth position l []) else None.
Proof.
  destruct (Nat.ltb_spec position (length l)) as [Hl|Hl]; [|by apply lookup_ge_None_2].
  destruct (lookup_lt_is_Some_2 l position Hl) as [v Hv]. rewrite Hv. by rewrite (nth_lookup_Some _ _ _ _ Hv).
Qed.
Lemma snoc_cases {A} (l : list A) : l = [] ∨ ∃ l' x, l = l' ++ [x].
Proof. destruct l as [|x l _] using rev_ind; eauto. Qed.

(** Work on a list, and what it comes to. *)
Lemma take_back_snoc (l : list bytes) x : take_back (l ++ [x]) = (l, Some x).
Proof. unfold take_back. by rewrite last_snoc, removelast_last. Qed.
Lemma drop_back_snoc (l : list bytes) x : drop_back (l ++ [x]) = (l, Some tt).
Proof. unfold drop_back. by rewrite take_back_snoc. Qed.
Lemma back_snoc (l : list bytes) x : back (l ++ [x]) = (l ++ [x], Some x).
Proof. unfold back. by rewrite last_snoc. Qed.
Create Rewrite HintDb ends.
#[local] Hint Rewrite take_back_snoc drop_back_snoc back_snoc @reverse_snoc @reverse_involutive @last_snoc : ends.

Lemma perform_simulates s a k o : stands_for s a → simulates (perform k o s) (abs_exec (On k o) a).
Proof.
  intros H. unfold abs_exec. destruct (entries a !! k) as [[c held]|] eqn:E; [|rewrite (perform_missing _ _ _ _ H E); by apply simulates_Ret].
  destruct o; ops; destruct c; entry H E; try (by apply simulates_Ret).
  all: unfold set_at, get_at, remove_at, insert_at, spec, on_positions, on_front, on_back, on_end; rewrite ?lookup_nth; entry_cbn.
  all: try match goal with
       | |- context [reverse ?l] => destruct (snoc_cases l) as [->|(? & ? & ->)]; autorewrite with ends
       | |- context [take_front ?l] => destruct l
       | |- context [drop_front ?l] => destruct l
       | |- context [match ?l with [] => Fails _ | _ :: _ => _ end] => destruct l
       | |- context [(?p <? ?n)%nat] => destruct (p <? n)%nat
       | |- context [minsert ?key ?value ?m] => try change (minsert key value m) with (if mmem key m then m else mset key value m) at 1
       | |- context [mfind ?key ?m] => destruct (mfind key m)
       | |- context [?m !! ?p] => destruct (m !! p) as [[? ?]|]
       end; entry_cbn.
  all: destruct held; entry_cbn; try done.
  all: try (by apply simulates_Ret, (stands_for_after s a H k _ _ _ E)).
  all: try (by apply simulates_Ret, (stands_for_same s a H k _ E)).
Qed.

Lemma fresh_store k type s :
  allocate_store k type s =
  match fresh_container type with
  | Some c => Ret (inr tt, mkCache (mset k c (cacheMap s)) (mset k type (valueTypes s)) (mset k false (valueLocks s)) (objCacheMap s))
  | None => Ret (inl ERR_INVCONTAINER, s)
  end.
Proof. unfold allocate_store, fresh_container. by repeat case_match. Qed.
Lemma fresh_type type c : fresh_container type = Some c → type_of c = type.
Proof.
  unfold fresh_container, is_type. intros E. repeat case_bool_decide; by simplify_eq.
Qed.

Lemma stands_for_store s a k type c :
  stands_for s a → fresh_container type = Some c →
  stands_for (mkCache (mset k c (cacheMap s)) (mset k type (valueTypes s)) (mset k false (valueLocks s)) (objCacheMap s))
    (mkAbstract (<[k := (c, false)]> (entries a)) (objects a)).
Proof.
  intros [Hc Hty Hl Ho (S1 & S2 & S3 & S4)] Ht%fresh_type.
  constructor; cbn [cacheMap valueTypes valueLocks objCacheMap entries objects]; try intros k';
    rewrite ?mfind_mset; try case_decide; subst; rewrite ?lookup_insert_eq, ?lookup_insert_ne by done; auto with ffead.
Qed.
Lemma stands_for_erase s a k :
  stands_for s a →
  stands_for (mkCache (merase k (cacheMap s)) (merase k (valueTypes s)) (merase k (valueLocks s)) (objCacheMap s))
    (mkAbstract (delete k (entries a)) (objects a)).
Proof.
  intros [Hc Hty Hl Ho (S1 & S2 & S3 & S4)].
  constructor; cbn [cacheMap valueTypes valueLocks objCacheMap entries objects]; try intros k';
    rewrite ?mfind_merase by done; try case_decide; subst; rewrite ?lookup_delete_eq, ?lookup_delete_ne by done; auto with ffead.
Qed.
Lemma stands_for_objects s a m o :
  stands_for s a → sorted m → (∀ k, mfind k m = o !! k) → stands_for (set_obj m s) (mkAbstract (entries a) o).
Proof. intros [Hc Hty Hl Ho (S1 & S2 & S3 & S4)] Hm HO. by constructor. Qed.

Lemma exec_simulates s a c : stands_for s a → simulates (exec c s) (abs_exec c a).
Proof.
  intros H. destruct c as [k type|k|key value|key|key|k o]; [..|by apply perform_simulates]; cbn [exec abs_exec]; unfold nothing, text, andThen.
  - unfold allocate, andThen, allocate_check. destruct (entries a !! k) as [[c held]|] eqn:E.
    + rewrite (exists_Some _ _ H _ _ _ E). by apply simulates_Ret.
    + rewrite (exists_None _ _ H _ _ E). cbn. rewrite fresh_store. destruct (fresh_container type) eqn:Ef; [|by apply simulates_Ret].
      by apply simulates_Ret, stands_for_store.
  - unfold deallocate. destruct (entries a !! k) as [[c held]|] eqn:E.
    + rewrite (exists_Some _ _ H _ _ _ E). pose proof (find_entry _ _ H _ _ _ E) as (_ & _ & ->).
      destruct held; [done|]. by apply simulates_Ret, stands_for_erase.
    + rewrite (exists_None _ _ H _ _ E). by apply simulates_Ret.
  - pose proof (sf_sorted _ _ H) as (_ & _ & _ & Hs). apply simulates_Ret, stands_for_objects; [done|auto with ffead|].
    intros k. rewrite mfind_mset. case_decide; subst; [by rewrite lookup_insert_eq|]. rewrite lookup_insert_ne by done. apply H.
  - pose proof (sf_sorted _ _ H) as (_ & _ & _ & Hs). apply simulates_Ret, stands_for_objects; [done|auto with ffead|].
    intros k. rewrite mfind_merase by done. case_decide; subst; [by rewrite lookup_delete_eq|]. rewrite lookup_delete_ne by done. apply H.
  - unfold getObjectEntryValue. rewrite (sf_objects _ _ H). destruct (objects a !! key); by apply simulates_Ret.
Qed.

Lemma exec_all_simulates cs s a : stands_for s a → simulates (exec_all cs s) (abs_exec_all cs a).
Proof.
  revert s a. induction cs as [|c cs IH]; intros s a H; cbn [exec_all abs_exec_all]; [by apply simulates_Ret|].
  pose proof (exec_simulates s a c H) as Hc. destruct (abs_exec c a) as [[r a']| | |]; cbn [simulates] in Hc; [|by rewrite Hc..].
  destruct Hc as (s' & -> & H'). rewrite !bind_Ret_l. specialize (IH s' a' H').
  destruct (abs_exec_all cs a') as [[rs a'']| | |]; cbn [simulates] in IH; [|by rewrite IH..].
  destruct IH as (s'' & -> & H''). by apply simulates_Ret.
Qed.

(** ** What the cache does *)

(** C6: The cache with its three maps, its casts and its mutexes does what the abstract one does.
    Whatever commands come, in whatever order, the answers are those of one map from names to
    containers and of the table of what each kind of container supports. *)
Theorem cachemap_refines cs : simulates (exec_all cs init) (abs_exec_all cs (mkAbstract ∅ ∅)).
Proof. apply exec_all_simulates, stands_for_init. Qed.

Lemma on_safe k o a : abs_exec (On k o) a ≠ Undefined.
Proof.
  cbn [abs_exec]. destruct (entries a !! k) as [[c [|]]|]; [| |done]; by destruct (spec o c).
Qed.

(** Nothing undefined.  Sequences of commands without [deallocate] never cast a pointer to the
    wrong type, follow a null pointer or use a mutex that is not there. *)
Theorem cachemap_safe cs : Forall (λ c, ∀ k, c ≠ Deallocate k) cs → exec_all cs init ≠ Undefined.
Proof.
  intros Hcs. pose proof (exec_all_simulates cs _ _ stands_for_init) as H.
  assert (∀ a, abs_exec_all cs a ≠ Undefined) as Hs.
  { clear H. induction Hcs as [|c cs Hc Hcs IH]; intros a; [done|]. cbn [abs_exec_all].
    destruct (abs_exec c a) as [[r a']| | |] eqn:E; [|done| |done].
    - rewrite bind_Ret_l. specialize (IH a'). by destruct (abs_exec_all cs a') as [[]| | |].
    - destruct c; cbn [abs_exec] in E; try done; [by repeat case_match|by destruct (Hc cacheKey)|by apply on_safe in E]. }
  specialize (Hs (mkAbstract ∅ ∅)). destruct (abs_exec_all cs _) as [[rs a]| | |]; cbn [simulates] in H;
    [destruct H as (s & -> & _)|rewrite H..]; done.
Qed.
Lemma cachemap_safe_witness : exec_all [Allocate (str "m") MAP; On (str "m") (GetMap (str "a")); On (str "m") Size] init ≠ Undefined.
Proof. apply cachemap_safe. repeat constructor; done. Defined.

(** A mutex that is never released.  Asking a map for a key that is not in it throws between
    the lock and the unlock: from then on every operation on that map fails or waits for
    ever, and removing it destroys a mutex that is held. *)
Theorem cachemap_lock_leaks s a k m key :
  stands_for s a → entries a !! k = Some (CMap m, false) → mfind key m = None →
  ∃ s', exec (On k (GetMap key)) s = Ret (inl ERR_NOVALUEFOUND, s') ∧
    (∀ o, exec (On k o) s' = Out_of_fuel ∨ ∃ e, exec (On k o) s' = Ret (inl e, s')) ∧
    (∀ v, exec (On k (AddMap key v)) s' = Out_of_fuel) ∧ exec (On k Size) s' = Out_of_fuel ∧
    exec (Deallocate k) s' = Undefined.
Proof.
  intros H E Hk. cbn [exec]. unfold perform at 1, text, andThen, getMapEntryValue.
  rewrite (map_Some _ _ H _ _ _ E). cbn [is_map]. rewrite (guarded_entry _ _ H _ _ _ _ _ E). cbn [open as_map]. rewrite Hk.
  pose proof (stands_for_after _ _ H _ _ (CMap m) true E eq_refl) as H'. set (s' := after s k (CMap m) true) in *.
  set (a' := mkAbstract _ _) in H'. assert (entries a' !! k = Some (CMap m, true)) as E' by apply lookup_insert_eq.
  exists s'. split; [done|].
  assert (∀ o, exec (On k o) s' = Out_of_fuel ∨ ∃ e, spec o (CMap m) = Denied e ∧ exec (On k o) s' = Ret (inl e, s')) as Ho.
  { intros o. cbn [exec]. destruct o; ops; entry H' E'; by eauto. }
  split_and!; [intros o; destruct (Ho o) as [|(e & _ & ?)]; eauto| | |].
  - intros v. by destruct (Ho (AddMap key v)) as [|(e & ? & _)].
  - by destruct (Ho Size) as [|(e & ? & _)].
  - pose proof (exec_simulates s' a' (Deallocate k) H') as Hd. cbn [abs_exec] in Hd. by rewrite E' in Hd.
Qed.

Definition one_map : CacheMap := mkCache [(str "m", CMap [])] [(str "m", MAP)] [(str "m", false)] [].
Lemma one_map_stands : stands_for one_map (mkAbstract {[str "m" := (CMap [], false)]} ∅).
Proof.
  pose proof (exec_simulates init _ (Allocate (str "m") MAP) stands_for_init) as H. cbn [abs_exec entries] in H.
  rewrite lookup_empty in H. destruct H as (s & E & H). assert (s = one_map) as -> by (vm_compute in E; by injection E as <-). done.
Qed.
Lemma cachemap_lock_leaks_witness :
  ∃ s', exec (On (str "m") (GetMap (str "a"))) one_map = Ret (inl ERR_NOVALUEFOUND, s') ∧
    (∀ o, exec (On (str "m") o) s' = Out_of_fuel ∨ ∃ e, exec (On (str "m") o) s' = Ret (inl e, s')) ∧
    (∀ v, exec (On (str "m") (AddMap (str "a") v)) s' = Out_of_fuel) ∧ exec (On (str "m") Size) s' = Out_of_fuel ∧
    exec (Deallocate (str "m")) s' = Undefined.
Proof. refine (cachemap_lock_leaks one_map _ (str "m") [] (str "a") one_map_stands _ _); [apply lookup_singleton_eq|done]. Defined.

(** The answers to commands from the empty cache. *)
Definition answers (cs : list command) : outcome (list (bytes + result)) := '(rs, _) ← exec_all cs init; Ret rs.

Lemma answers_abs cs rs a : abs_exec_all cs (mkAbstract ∅ ∅) = Ret (rs, a) → answers cs = Ret rs.
Proof.
  intros E. pose proof (exec_all_simulates cs _ _ stands_for_init) as H. rewrite E in H. cbn [simulates] in H.
  destruct H as (s & H & _). unfold answers. by rewrite H.
Qed.

Lemma abs_exec_all_app cs1 cs2 a rs1 a1 rs2 a2 :
  abs_exec_all cs1 a = Ret (rs1, a1) → abs_exec_all cs2 a1 = Ret (rs2, a2) → abs_exec_all (cs1 ++ cs2) a = Ret (rs1 ++ rs2, a2).
Proof.
  revert a rs1. induction cs1 as [|c cs1 IH]; intros a rs1; cbn [abs_exec_all Datatypes.app]; [by intros [= <- <-]|].
  intros H1 H2. destruct (abs_exec c a) as [[r a']| | |]; try done. rewrite !bind_Ret_l in *.
  destruct (abs_exec_all cs1 a') as [[rs a'']| | |] eqn:E; try done. rewrite bind_Ret_l in H1. injection H1 as <- <-.
  by rewrite (IH a' rs E H2).
Qed.

(** One entry of the abstract cache, replaced by every command of a sequence. *)
Definition with_entry (k : bytes) (c : container) (a : Abstract) : Abstract := mkAbstract (<[k := (c, false)]> (entries a)) (objects a).
Lemma abs_exec_on k o c a c' r : spec o c = Ok c' r → abs_exec (On k o) (with_entry k c a) = Ret (inr r, with_entry k c' a).
Proof.
  intros Hs. cbn [abs_exec with_entry entries objects]. rewrite lookup_insert_eq, Hs. unfold with_entry. cbn [entries objects].
  by rewrite insert_insert_eq.
Qed.
Lemma abs_exec_allocate k type c a :
  entries a !! k = None → fresh_container type = Some c → abs_exec (Allocate k type) a = Ret (inr Nothing, with_entry k c a).
Proof. intros E Ef. cbn [abs_exec]. by rewrite E, Ef. Qed.

(** Adding values one by one, and taking as many out at an end. *)
Lemma abs_fill k (o : bytes → op) vs a c l :
  (∀ v l, spec (o v) (refill c l) = Ok (refill c (l ++ [v])) Nothing) →
  abs_exec_all (map (λ v, On k (o v)) vs) (with_entry k (refill c l) a) =
  Ret (map (λ _, inr Nothing) vs, with_entry k (refill c (l ++ vs)) a).
Proof.
  intros Ho. revert l. induction vs as [|v vs IH]; intros l; cbn [map abs_exec_all]; [by rewrite app_nil_r|].
  rewrite (abs_exec_on _ _ _ _ _ _ (Ho v l)), bind_Ret_l, IH, <- app_assoc. done.
Qed.
Lemma abs_drain_front k o vs a c l :
  (∀ v l, spec o (refill c (v :: l)) = Ok (refill c l) (Text v)) →
  abs_exec_all (map (λ _, On k o) vs) (with_entry k (refill c (vs ++ l)) a) =
  Ret (map (λ v, inr (Text v)) vs, with_entry k (refill c l) a).
Proof.
  intros Ho. induction vs as [|v vs IH]; cbn [map abs_exec_all Datatypes.app]; [done|].
  by rewrite (abs_exec_on _ _ _ _ _ _ (Ho v _)), bind_Ret_l, IH.
Qed.
Lemma abs_drain_back k o vs a c l :
  (∀ v l, spec o (refill c (l ++ [v])) = Ok (refill c l) (Text v)) →
  abs_exec_all (map (λ _, On k o) vs) (with_entry k (refill c (l ++ vs)) a) =
  Ret (map (λ v, inr (Text v)) (reverse vs), with_entry k (refill c l) a).
Proof.
  intros Ho. induction vs as [|v vs IH] using rev_ind; [by rewrite app_nil_r|].
  rewrite reverse_snoc, app_assoc, map_app. cbn [map].
  replace (map (λ _ : bytes, On k o) vs ++ [On k o]) with (On k o :: map (λ _ : bytes, On k o) vs)
    by (clear; induction vs as [|v vs IH]; [done|]; cbn [map Datatypes.app]; by rewrite <- IH).
  cbn [abs_exec_all]. by rewrite (abs_exec_on _ _ _ _ _ _ (Ho v _)), bind_Ret_l, IH.
Qed.

(** Queues and stacks.  A queue gives back the values in the order they were put in; a list
    or a deque does so from its front, and in the opposite order from its back. *)
Theorem cachemap_queues k vs :
  answers (Allocate k QUEUE :: map (λ v, On k (Add v)) vs ++ map (λ _, On k PopGet) vs) =
    Ret (inr Nothing :: map (λ _, inr Nothing) vs ++ map (λ v, inr (Text v)) vs) ∧
  answers (Allocate k DEQUE :: map (λ v, On k (PushBack v)) vs ++ map (λ _, On k PopGetFront) vs) =
    Ret (inr Nothing :: map (λ _, inr Nothing) vs ++ map (λ v, inr (Text v)) vs) ∧
  answers (Allocate k LIST :: map (λ v, On k (PushBack v)) vs ++ map (λ _, On k PopGetBack) vs) =
    Ret (inr Nothing :: map (λ _, inr Nothing) vs ++ map (λ v, inr (Text v)) (reverse vs)).
Proof.
  set (a := mkAbstract ∅ ∅).
  assert (∀ type c cs rs a', fresh_container type = Some c → abs_exec_all cs (with_entry k c a) = Ret (rs, a') →
    answers (Allocate k type :: cs) = Ret (inr Nothing :: rs)) as H.
  { intros type c cs rs a' Hf Hcs. eapply answers_abs. cbn [abs_exec_all]. fold a. by rewrite (abs_exec_allocate _ _ _ a (lookup_empty k) Hf), bind_Ret_l, Hcs. }
  split_and!.
  - eapply (H _ (CQueue [])); [done|]. eapply abs_exec_all_app; [by apply (abs_fill k Add vs a (CQueue []) [])|].
    rewrite <- (app_nil_r ([] ++ vs)). by apply (abs_drain_front k PopGet vs a (CQueue []) []).
  - eapply (H _ (CDeque [])); [done|]. eapply abs_exec_all_app; [by apply (abs_fill k PushBack vs a (CDeque []) [])|].
    rewrite <- (app_nil_r ([] ++ vs)). by apply (abs_drain_front k PopGetFront vs a (CDeque []) []).
  - eapply (H _ (CList [])); [done|]. eapply abs_exec_all_app; [by apply (abs_fill k PushBack vs a (CList []) [])|].
    apply (abs_drain_back k PopGetBack vs a (CList []) []). intros v l. cbn. unfold on_back, on_end. cbn [is_map two_ended elements refill].
    rewrite reverse_snoc. by rewrite reverse_involutive.
Qed.

(** The first value a key was given. *)
Fixpoint first_binding (key : bytes) (kvs : list (bytes * bytes)) : option bytes :=
  match kvs with
  | [] => None
  | (k, v) :: kvs => if decide (key = k) then Some v else first_binding key kvs
  end.

(** Maps keep the first value.  Adding an entry whose key is there succeeds and changes
    nothing: reading a key gives the first value it was added with, for every sequence of
    additions. *)
Theorem cachemap_first_value k kvs key v :
  first_binding key kvs = Some v →
  answers (Allocate k MAP :: map (λ kv, On k (AddMap kv.1 kv.2)) kvs ++ [On k (GetMap key)]) =
  Ret (inr Nothing :: map (λ _, inr Nothing) kvs ++ [inr (Text v)]).
Proof.
  intros Hv. set (a := mkAbstract ∅ ∅).
  assert (∀ kvs m, abs_exec_all (map (λ kv, On k (AddMap kv.1 kv.2)) kvs) (with_entry k (CMap m) a) =
    Ret (map (λ _, inr Nothing) kvs, with_entry k (CMap (minsert_all kvs m)) a)) as Hf.
  { clear. unfold minsert_all. induction kvs as [|[k' v'] kvs IH]; intros m; cbn [map abs_exec_all foldl]; [done|].
    by rewrite (abs_exec_on _ _ _ _ (CMap (minsert k' v' m)) Nothing), bind_Ret_l, IH. }
  assert (∀ kvs m, mfind key (minsert_all kvs m) = match mfind key m with Some w => Some w | None => first_binding key kvs end) as Hm.
  { clear. unfold minsert_all. induction kvs as [|[k' v'] kvs IH]; intros m; cbn [foldl first_binding]; [by case_match|].
    rewrite IH, mfind_minsert. destruct (mfind key m); [done|]. by case_decide. }
  eapply answers_abs. fold a. cbn [abs_exec_all]. rewrite (abs_exec_allocate _ _ (CMap []) a (lookup_empty k)), bind_Ret_l by done.
  erewrite (abs_exec_all_app _ _ _ _ _ _ (with_entry k (CMap (minsert_all kvs [])) a) (Hf kvs [])); [done|].
  cbn [abs_exec_all]. rewrite (abs_exec_on _ _ _ _ (CMap (minsert_all kvs [])) (Text v)); [done|]. cbn [spec]. by rewrite Hm, Hv.
Qed.
Lemma cachemap_first_value_witness :
  answers (Allocate (str "m") MAP :: map (λ kv, On (str "m") (AddMap kv.1 kv.2)) [(str "a", str "1"); (str "a", str "2")] ++ [On (str "m") (GetMap (str "a"))]) =
  Ret (inr Nothing :: map (λ _, inr Nothing) [(str "a", str "1"); (str "a", str "2")] ++ [inr (Text (str "1"))]).
Proof. apply cachemap_first_value. by vm_compute. Defined.

(** Two clients allocate the same name at once.  The check and the store are separate steps:
    when both checks come first both clients are told that the entry is theirs, and the one
    that stores later replaces the container of the other with whatever was put in it. *)
Theorem allocate_race s a k t1 t2 c1 c2 o c1' r :
  stands_for s a → entries a !! k = None → fresh_container t1 = Some c1 → fresh_container t2 = Some c2 →
  spec o c1 = Ok c1' r →
  ∃ s', andThen (allocate_check k) (λ _, andThen (allocate_check k) (λ _, andThen (allocate_store k t1) (λ _,
    andThen (perform k o) (λ _, allocate_store k t2)))) s = Ret (inr tt, s') ∧
  stands_for s' (with_entry k c2 a).
Proof.
  intros H E H1 H2 Ho. unfold andThen, allocate_check. rewrite (exists_None _ _ H _ _ E). cbv beta delta [done_ mbind outcome_bind] iota.
  rewrite (exists_None _ _ H _ _ E), fresh_store, H1. cbv beta iota.
  pose proof (stands_for_store _ _ k _ _ H H1) as HA. set (s1 := mkCache _ _ _ _) in *.
  pose proof (perform_simulates s1 _ k o HA) as HB. change (mkAbstract _ _) with (with_entry k c1 a) in HB.
  rewrite (abs_exec_on _ _ _ _ _ _ Ho) in HB. destruct HB as (s2 & -> & HC).
  rewrite fresh_store, H2. eexists; split; [done|]. pose proof (stands_for_store _ _ k _ _ HC H2) as HD.
  unfold with_entry in *. cbn [entries objects] in HD. by rewrite insert_insert_eq in HD.
Qed.
Lemma allocate_race_witness :
  ∃ s', andThen (allocate_check (str "q")) (λ _, andThen (allocate_check (str "q")) (λ _, andThen (allocate_store (str "q") QUEUE) (λ _,
    andThen (perform (str "q") (Add (str "a"))) (λ _, allocate_store (str "q") LIST)))) init = Ret (inr tt, s') ∧
  stands_for s' (with_entry (str "q") (CList []) (mkAbstract ∅ ∅)).
Proof.
  refine (allocate_race init _ (str "q") QUEUE LIST (CQueue []) (CList []) (Add (str "a")) (CQueue [str "a"]) Nothing stands_for_init _ _ _ _);
    [apply lookup_empty|by vm_compute..].
Defined.
