(* ===== verification/DistoCache.v ===== *)
(** * DistoCache

    The server of the distributed cache ([distocache/DistoCacheServiceHandler.cpp]): a
    connection's loop, which reads a message, does what its text commands with the store of
    [CacheMap], and writes the reply.  Messages and replies are AMEF objects.  The connection
    is a plain one; the one over TLS is not modelled. *)

From S2P Require Import Prelude StdMap ByteCodec StdString StringUtil CastUtil Amef CacheMap Sockets.

(** ** Messages *)

Definition MAXBUFLENM : Z := 32768.

(** [getLength]: big endian in an [int].  [ClientInterface::getLengthCl] is the loop alone. *)
Definition getLengthCl (header : bytes) (size : Z) : outcome Z :=
  totsize ← index_ header (size - 1);
  foldl (λ t i, t ← t; c ← index_ header (Z.of_nat i); Ret (wraps 32 (Z.lor t (Z.shiftl c ((size - 1 - Z.of_nat i) * 8)))))
    (Ret totsize) (seq 0 (Z.to_nat (size - 1))).
Definition getLength (header : bytes) (size : Z) : outcome Z :=
  if (size <=? 0) || (slen header <? size) then Ret (-1) else getLengthCl header size.

(** [validQuery]; an empty command stands for any. *)
Definition same (s t : bytes) : bool := bool_decide (s = t).
Definition validQuery (parts : list bytes) (size : nat) (cmd1 cmd2 : bytes) : bool :=
  (length parts =? size)%nat &&
  forallb (λ '(i, p), negb (same p [] || ((i =? 0)%nat && negb (same cmd1 []) && negb (same p cmd1))
                            || ((i =? 1)%nat && negb (same cmd2 []) && negb (same p cmd2))))
    (imap pair parts).

(** ** Commands *)

Definition MAP_ENTRY : bytes := str "mapentry".
Definition COLL_ENTRY : bytes := str "collentry".
Definition OBJ_ENTRY : bytes := str "objentry".

(** [responseMsg] and [responseValue]. *)
Definition reply : Type := (bytes * bytes)%type.
Definition say (msg : bytes) : action reply := done_ (msg, []).
Definition ok {A} (_ : A) : action reply := done_ (SUCCESS, []).
Definition give (v : bytes) : action reply := done_ (SUCCESS, v).

(** [catch(const std::exception&)]. *)
Definition catch {A} (m : action A) (handler : action A) : action A := λ s,
  '(r, s) ← m s; match r with inl _ => handler s | inr a => Ret (inr a, s) end.
(** [CastUtil::toInt]; the text of its exception is never seen. *)
Definition number (v : bytes) : action Z := λ s,
  match toInt v with
  | Ret n => Ret (inr n, s)
  | Throw e => if is_std e then Ret (inl [], s) else Throw e
  | Undefined => Undefined
  | Out_of_fuel => Out_of_fuel
  end.

(** The commands with a position: the position, the size, the checks. *)
Definition with_position (cacheKey position : bytes) (body : nat → action reply) : action reply :=
  catch
    (andThen (number position) (λ position, andThen (CacheMap.size cacheKey) (λ size,
       let size := wraps 32 size in
       if (0 <=? position) && (position <? size) then body (Z.to_nat position)
       else if size <=? position then say ERR_INDGRTCONTSIZ
       else say ERR_NEGATIVEPOS)))
    (say ERR_POSNOTNUM).
(** The commands with a value, which is the second packet of two. *)
Definition with_value (value : option bytes) (body : bytes → action reply) : action reply :=
  match value with Some v => body v | None => say ERR_NOVALUESPEC end.
(** The insertion of several copies. *)
Definition insert_command (cacheKey position repeats : bytes) (value : option bytes) : action reply :=
  catch
    (andThen (number position) (λ position,
       catch
         (andThen (number repeats) (λ repeats, andThen (CacheMap.size cacheKey) (λ size,
            let size := wraps 32 size in
            if (0 <=? position) && (0 <=? repeats) && (position <? size) then
              with_value value (λ v, andThen (insert_repeat cacheKey v (Z.to_nat position) (Z.to_nat repeats)) ok)
            else if size <=? position then say ERR_INDGRTCONTSIZ
            else if position <? 0 then say ERR_NEGATIVEPOS
            else say ERR_NEGATIVEREP)))
         (if position =? -1 then say ERR_POSNOTNUM else say ERR_REPNOTNUM)))
    (say ERR_POSNOTNUM).

(** The commands of [run], in its order: those that remove and ask for sizes, in front of them those that
    read, and in front of them those that store. *)
Definition execute_remove (parts : list bytes) : action reply :=
  let part n := nth n parts [] in
  if validQuery parts 3 (str "remove") OBJ_ENTRY then andThen (removeObjectEntry (part 2%nat)) ok
  else if validQuery parts 4 (str "remove") MAP_ENTRY then andThen (removeMapEntry (part 2%nat) (part 3%nat)) ok
  else if validQuery parts 4 (str "remove") COLL_ENTRY then
    with_position (part 2%nat) (part 3%nat) (λ p, andThen (removeCollectionEntryAt (part 2%nat) p) ok)
  else if validQuery parts 3 (str "pop") COLL_ENTRY then andThen (popValueQueue (part 2%nat)) ok
  else if validQuery parts 3 (str "popfront") COLL_ENTRY then andThen (popFrontValue (part 2%nat)) ok
  else if validQuery parts 3 (str "popback") COLL_ENTRY then andThen (popBackValue (part 2%nat)) ok
  else if validQuery parts 2 (str "size") [] then andThen (CacheMap.size (part 1%nat)) (λ n, give (fromNumber n))
  else if validQuery parts 2 (str "clear") [] then andThen (CacheMap.clear (part 1%nat)) ok
  else if validQuery parts 2 (str "isempty") [] then
    andThen (CacheMap.isEmpty (part 1%nat)) (λ b : bool, give (fromNumber (if b then 1 else 0)))
  else say (str "Invalid command specified").
Definition execute_read (parts : list bytes) : action reply :=
  let part n := nth n parts [] in
  if validQuery parts 3 (str "get") OBJ_ENTRY then andThen (getObjectEntryValue (part 2%nat)) give
  else if validQuery parts 4 (str "get") MAP_ENTRY then andThen (getMapEntryValue (part 2%nat) (part 3%nat)) give
  else if validQuery parts 4 (str "getbypos") MAP_ENTRY then
    with_position (part 2%nat) (part 3%nat) (λ p, andThen (getMapEntryValueByPosition (part 2%nat) p) give)
  else if validQuery parts 4 (str "get") COLL_ENTRY then
    with_position (part 2%nat) (part 3%nat) (λ p, andThen (getCollectionEntryAt (part 2%nat) p) give)
  else if validQuery parts 3 (str "getfront") COLL_ENTRY then andThen (getFrontValue (part 2%nat)) give
  else if validQuery parts 3 (str "getback") COLL_ENTRY then andThen (getBackValue (part 2%nat)) give
  else if validQuery parts 3 (str "popget") COLL_ENTRY then andThen (popGetValueQueue (part 2%nat)) give
  else if validQuery parts 3 (str "popfrontget") COLL_ENTRY then andThen (popGetFrontValue (part 2%nat)) give
  else if validQuery parts 3 (str "popbackget") COLL_ENTRY then andThen (popGetBackValue (part 2%nat)) give
  else execute_remove parts.
Definition execute (parts : list bytes) (value : option bytes) : action reply :=
  let part n := nth n parts [] in
  if validQuery parts 3 (str "allocate") [] then andThen (allocate (part 2%nat) (part 1%nat)) ok
  else if validQuery parts 2 (str "deallocate") [] then andThen (deallocate (part 1%nat)) ok
  else if validQuery parts 3 (str "add") OBJ_ENTRY then
    with_value value (λ v, andThen (addObjectEntry (part 2%nat) v) ok)
  else if validQuery parts 4 (str "add") MAP_ENTRY then
    with_value value (λ v, andThen (addMapEntry (part 2%nat) (part 3%nat) v) ok)
  else if validQuery parts 3 (str "add") COLL_ENTRY then
    with_value value (λ v, andThen (addCollectionEntry (part 2%nat) v) ok)
  else if validQuery parts 3 (str "pushfront") COLL_ENTRY then
    with_value value (λ v, andThen (pushFrontValue (part 2%nat) v) ok)
  else if validQuery parts 3 (str "pushback") COLL_ENTRY then
    with_value value (λ v, andThen (pushBackValue (part 2%nat) v) ok)
  else if validQuery parts 4 (str "insert") COLL_ENTRY then
    with_position (part 2%nat) (part 3%nat) (λ p, with_value value (λ v, andThen (CacheMap.insert (part 2%nat) v p) ok))
  else if validQuery parts 5 (str "insert") COLL_ENTRY then
    insert_command (part 2%nat) (part 3%nat) (part 4%nat) value
  else if validQuery parts 4 (str "set") MAP_ENTRY then
    with_position (part 2%nat) (part 3%nat) (λ p, with_value value (λ v, andThen (setMapEntryValueByPosition (part 2%nat) p v) ok))
  else if validQuery parts 4 (str "set") COLL_ENTRY then
    with_position (part 2%nat) (part 3%nat) (λ p, with_value value (λ v, andThen (setCollectionEntryAt (part 2%nat) p v) ok))
  else execute_read parts.

Section server.
(** [what()] of the exceptions of the standard library, and the steps of the decoder. *)
Context (what : exn → bytes) (fuel : nat).

(** The words of the command, and the value when there are two packets. *)
Definition query_words (query : bytes) : list bytes := splitAndReturn (trim query) [32] false.
Definition query_value (packets : list AMEFObject) : option bytes :=
  match packets with [_; v] => Some (value v) | _ => None end.

(** From the bytes of a message to the message and value of the reply. *)
Definition answer_query (alldat : bytes) (s : CacheMap) : outcome (reply * CacheMap) :=
  match decodeB fuel alldat true with
  | Ret query =>
      match (query ≫= λ q, head (packets q)), query with
      | Some first, Some q =>
          '(r, s) ← execute (query_words (value first)) (query_value (packets q)) s;
          Ret (match r with inl e => (e, []) | inr a => a end, s)
      | _, _ => Ret ((str "Invalid query specified", []), s)
      end
  | Throw e => if is_std e then Ret ((what e, []), s) else Throw e
  | Undefined => Undefined
  | Out_of_fuel => Out_of_fuel
  end.
Definition encode_reply (r : reply) : bytes :=
  encodeB (let o := addString r.1 [] AMEFObject_new in if bool_decide (r.2 = []) then o else addString r.2 [] o).
Definition respond (alldat : bytes) (s : CacheMap) : outcome (bytes * CacheMap) :=
  '(r, s) ← answer_query alldat s; Ret (encode_reply r, s).

(** ** The connection *)

(** A blocking socket: what [recv] and [send] will meet, and what was sent.  Where the list of
    what comes is empty, the call waits. *)
Record connection := mkConn { incoming : list recv_answer; room : list send_answer; sent : bytes }.
Inductive ending := Goes_on | Closes | Waits.

(** [recv(fd, buf, 4, MSG_WAITALL)]: the bytes, [None] for an error before the first; fewer than
    asked for at the end of the stream or before an error. *)
Fixpoint recv_all (n : nat) (rs : list recv_answer) (got : bytes) : option (option bytes * list recv_answer) :=
  match rs with
  | [] => None
  | Chunk [] :: _ => Some (Some got, rs)
  | Chunk l :: rs' =>
      if (n <? length l)%nat then Some (Some (got ++ take n l), Chunk (drop n l) :: rs')
      else if (length l =? n)%nat then Some (Some (got ++ l), rs')
      else recv_all (n - length l) rs' (got ++ l)
  | _ :: rs' => Some (if bool_decide (got = []) then None else Some got, rs')
  end.
(** The loop that reads the body.  The buffer holds [MAXBUFLENM] bytes, whatever is asked for. *)
Fixpoint recv_body (rs : list recv_answer) (lengthm : Z) (alldat : bytes) : outcome (ending * bytes * list recv_answer) :=
  if lengthm <=? 0 then Ret (Goes_on, alldat, rs)
  else
    match rs with
    | [] => Ret (Waits, alldat, rs)
    | Chunk [] :: _ => Ret (Closes, alldat, rs)
    | Chunk l :: rs' =>
        if MAXBUFLENM <? Z.min (slen l) lengthm then Undefined
        else if lengthm <? slen l then
          Ret (Goes_on, alldat ++ take (Z.to_nat lengthm) l, Chunk (drop (Z.to_nat lengthm) l) :: rs')
        else recv_body rs' (lengthm - slen l) (alldat ++ l)
    | _ :: rs' => recv_body rs' lengthm alldat
    end.
(** The loop that sends the response: after an error [substr] is asked for the rest from -1. *)
Fixpoint send_all (ks : list send_answer) (response out : bytes) : outcome (ending * list send_answer * bytes) :=
  if bool_decide (response = []) then Ret (Goes_on, ks, out)
  else
    match ks with
    | [] => Ret (Waits, ks, out)
    | Room 0 :: ks' => Ret (Closes, ks', out)
    | Room n :: ks' => send_all ks' (drop n response) (out ++ take n response)
    | _ :: _ => Throw Out_of_range
    end.

(** The rest of a message behind its length. *)
Definition serve_body (alldat : bytes) (lengthm : Z) (c : connection) (s : CacheMap) : outcome (ending * connection * CacheMap) :=
  '(e, alldat, rs) ← recv_body (incoming c) lengthm alldat;
  match e with
  | Goes_on =>
      '(response, s) ← respond alldat s;
      '(e, ks, out) ← send_all (room c) response (sent c);
      Ret (e, mkConn rs ks out, s)
  | _ => Ret (e, mkConn rs (room c) (sent c), s)
  end.
(** One turn of the loop of [run]. *)
Definition serve_one (c : connection) (s : CacheMap) : outcome (ending * connection * CacheMap) :=
  match recv_all 4 (incoming c) [] with
  | None => Ret (Waits, c, s)
  | Some (Some [], rs) => Ret (Closes, mkConn rs (room c) (sent c), s)
  | Some (er, rs) =>
      let alldat := default [] er in
      let c := mkConn rs (room c) (sent c) in
      lengthm ← getLength alldat 4;
      if 10000000 <? lengthm then Ret (Closes, c, s) else serve_body alldat lengthm c s
  end.
(** [run], for a number of turns. *)
Fixpoint run (turns : nat) (c : connection) (s : CacheMap) : outcome (ending * connection * CacheMap) :=
  match turns with
  | O => Ret (Goes_on, c, s)
  | S turns =>
      '(e, c, s) ← serve_one c s;
      match e with Goes_on => run turns c s | _ => Ret (e, c, s) end
  end.
End server.

(** ** Lengths *)

Lemma lor_shiftl x b k : 0 ≤ k → 0 ≤ x < 2 ^ k → Z.lor x (Z.shiftl b k) = x + b * 2 ^ k.
Proof.
  intros Hk Hx. assert (Z.land x (Z.shiftl b k) = 0) as HL.
  { apply Z.bits_inj'. intros n Hn. rewrite Z.land_spec, Z.bits_0, Z.shiftl_spec by done.
    destruct (Z.lt_ge_cases n k) as [Hl|Hl]; [by rewrite (Z.testbit_neg_r b), andb_false_r by lia|].
    assert (Z.testbit x n = false) as ->; [|done]. destruct (Z.eq_dec x 0) as [->|Hx0]; [apply Z.bits_0|].
    apply Z.bits_above_log2; [lia|]. apply Z.log2_lt_pow2; [lia|]. eapply Z.lt_le_trans; [apply Hx|]. apply Z.pow_le_mono_r; lia. }
  rewrite <- Z.lxor_lor, <- Z.add_nocarry_lxor by done. rewrite Z.shiftl_mul_pow2 by done. done.
Qed.
Lemma lor_between x a b k j :
  0 ≤ k → 0 ≤ j → 0 ≤ x < 2 ^ k → 0 ≤ b < 2 ^ j →
  Z.lor (x + a * 2 ^ (k + j)) (Z.shiftl b k) = x + b * 2 ^ k + a * 2 ^ (k + j).
Proof.
  intros Hk Hj Hx Hb. assert (2 ^ (k + j) = 2 ^ k * 2 ^ j) as Hp by (apply Z.pow_add_r; lia).
  rewrite <- (lor_shiftl x a (k + j)) by nia. rewrite <- Z.lor_assoc, (Z.lor_comm (Z.shiftl a _)), Z.lor_assoc.
  rewrite (lor_shiftl x b k) by done. rewrite lor_shiftl by nia. done.
Qed.

Lemma getLengthCl_value a b c d rest :
  bytes_ok [a; b; c; d] → be_value [a; b; c; d] < 2 ^ 31 → getLengthCl (a :: b :: c :: d :: rest) 4 = Ret (be_value [a; b; c; d]).
Proof.
  intros Hok Hv. unfold bytes_ok in Hok. rewrite !Forall_cons in Hok. destruct Hok as (Ha & Hb & Hc & Hd & _). unfold byte_ok in *.
  unfold be_value in *. cbn [foldl] in *. unfold getLengthCl. change (Z.to_nat (4 - 1)) with 3%nat. cbn [seq foldl].
  assert (∀ (x : Z) i, (0 ≤ i < 4)%nat → index_ (a :: b :: c :: d :: rest) (Z.of_nat i) = Ret (nth i [a; b; c; d] 0)) as HI.
  { intros _ i Hi. unfold index_. pose proof (slen_nonneg rest).
    assert (Z.of_nat i ≤ slen (a :: b :: c :: d :: rest)) as Hi' by (autorewrite with slen; lia).
    replace ((0 <=? Z.of_nat i) && (Z.of_nat i <=? slen (a :: b :: c :: d :: rest))) with true by lia. rewrite Nat2Z.id.
    by destruct i as [|[|[|[|]]]]; [..|lia]. }
  pose proof (HI 0 3%nat ltac:(lia)) as H3. change (Z.of_nat 3) with (4 - 1) in H3. rewrite H3, bind_Ret_l. cbn [nth].
  rewrite (HI 0 0%nat), (HI 0 1%nat), (HI 0 2%nat) by lia. rewrite !bind_Ret_l. cbn [nth].
  change ((4 - 1 - Z.of_nat 0) * 8) with 24. change ((4 - 1 - Z.of_nat 1) * 8) with 16. change ((4 - 1 - Z.of_nat 2) * 8) with 8.
  rewrite (lor_shiftl d a 24), (wraps_small 32 (d + a * 2 ^ 24)) by lia.
  change (2 ^ 24) with (2 ^ (16 + 8)). rewrite (lor_between d a b 16 8), (wraps_small 32 (d + b * 2 ^ 16 + a * 2 ^ (16 + 8))) by lia.
  replace (d + b * 2 ^ 16 + a * 2 ^ (16 + 8)) with (d + (b + a * 256) * 2 ^ (8 + 8)) by lia.
  rewrite (lor_between d (b + a * 256) c 8 8), wraps_small by lia. f_equal. lia.
Qed.
Lemma getLengthCl_be n rest : 0 ≤ n < 2 ^ 31 → getLengthCl (be_bytes 4 n ++ rest) 4 = Ret n.
Proof.
  intros Hn. pose proof (be_bytes_ok 4 n) as Hok. pose proof (be_value_be_bytes 4 n) as Hv. rewrite Z.mod_small in Hv by lia.
  pose proof (be_bytes_length 4 n) as Hl. destruct (be_bytes 4 n) as [|a [|b [|c [|d [|]]]]]; try done.
  cbn [Datatypes.app]. rewrite getLengthCl_value; [by rewrite Hv|done|lia].
Qed.
Lemma getLength_be n rest : 0 ≤ n < 2 ^ 31 → getLength (be_bytes 4 n ++ rest) 4 = Ret n.
Proof.
  intros Hn. unfold getLength. pose proof (slen_nonneg rest).
  assert (4 ≤ slen (be_bytes 4 n ++ rest)) by (autorewrite with slen; lia).
  replace ((4 <=? 0) || (slen (be_bytes 4 n ++ rest) <? 4)) with false by lia. by apply getLengthCl_be.
Qed.

(** ** Reading what arrives in pieces *)

(** A piece the buffer has room for. *)
Definition piece (l : bytes) : Prop := l ≠ [] ∧ slen l ≤ MAXBUFLENM.

Lemma piece_drop n l : piece l → (n < length l)%nat → piece (drop n l).
Proof.
  intros [_ H] Hn. unfold piece, slen in *. rewrite length_drop. split; [|lia].
  intros E. apply (f_equal length) in E. rewrite length_drop in E. cbn [length] in E. lia.
Qed.

Lemma recv_all_pieces n pieces rest got :
  Forall piece pieces → (0 < n ≤ length (concat pieces))%nat →
  ∃ pieces', recv_all n (map Chunk pieces ++ rest) got = Some (Some (got ++ take n (concat pieces)), map Chunk pieces' ++ rest) ∧
    concat pieces' = drop n (concat pieces) ∧ Forall piece pieces'.
Proof.
  intros Hp. revert n got. induction Hp as [|l pieces Hl Hp IH]; intros n got Hn; cbn [concat length map Datatypes.app] in *; [lia|].
  rewrite length_app in Hn. destruct l as [|x l]; [by destruct Hl|]. cbn [recv_all]. set (l' := x :: l) in *.
  destruct (Nat.ltb_spec n (length l')) as [H1|H1].
  - exists (drop n l' :: pieces). rewrite take_app_le, drop_app_le by lia. split_and!; [done|done|].
    constructor; [by apply piece_drop|done].
  - destruct (Nat.eqb_spec (length l') n) as [H2|H2].
    + exists pieces. rewrite <- H2, take_app_length, drop_app_length. done.
    + destruct (IH (n - length l')%nat (got ++ l') ltac:(lia)) as (pieces' & E & Hc & HF). exists pieces'.
      rewrite E, Hc, (take_app_ge l'), (drop_app_ge l') by lia. rewrite <- app_assoc. done.
Qed.
Lemma recv_body_pieces pieces rest lengthm alldat :
  Forall piece pieces → 0 ≤ lengthm ≤ slen (concat pieces) →
  ∃ pieces', recv_body (map Chunk pieces ++ rest) lengthm alldat =
      Ret (Goes_on, alldat ++ take (Z.to_nat lengthm) (concat pieces), map Chunk pieces' ++ rest) ∧
    concat pieces' = drop (Z.to_nat lengthm) (concat pieces) ∧ Forall piece pieces'.
Proof.
  intros Hp. revert lengthm alldat. induction Hp as [|l pieces Hl Hp IH]; intros lengthm alldat Hn.
  - cbn [concat] in Hn. rewrite slen_nil in Hn. replace lengthm with 0 by lia. exists []. cbn. rewrite app_nil_r. by destruct rest.
  - cbn [concat map Datatypes.app] in *. rewrite slen_app in Hn. pose proof (slen_nonneg (concat pieces)).
    destruct (Z.leb_spec lengthm 0) as [H0|H0].
    + replace lengthm with 0 by lia. exists (l :: pieces). cbn. rewrite app_nil_r. split_and!; [done|done|by constructor].
    + cbn [recv_body]. replace (lengthm <=? 0) with false by lia. destruct l as [|x l]; [by destruct Hl|]. set (l' := x :: l) in *.
      destruct Hl as [Hne Hl]. replace (MAXBUFLENM <? Z.min (slen l') lengthm) with false by lia.
      destruct (Z.ltb_spec lengthm (slen l')) as [H1|H1].
      * exists (drop (Z.to_nat lengthm) l' :: pieces). unfold slen in H1. rewrite take_app_le, drop_app_le by lia. split_and!; [done|done|].
        constructor; [|done]. apply piece_drop; [by split|lia].
      * destruct (IH (lengthm - slen l') (alldat ++ l') ltac:(lia)) as (pieces' & E & Hc & HF). exists pieces'. rewrite E, Hc.
        unfold slen in *. rewrite (take_app_ge l'), (drop_app_ge l') by lia. rewrite <- app_assoc.
        replace (Z.to_nat lengthm - length l')%nat with (Z.to_nat (lengthm - Z.of_nat (length l'))) by lia. done.
Qed.

(** A socket that takes at least a byte each time. *)
Definition takes (k : send_answer) : Prop := ∃ n, k = Room (S n).
Lemma send_all_takes ks response out :
  Forall takes ks → (length response ≤ length ks)%nat →
  ∃ ks', send_all ks response out = Ret (Goes_on, ks', out ++ response) ∧ Forall takes ks' ∧ (length ks ≤ length ks' + length response)%nat.
Proof.
  intros Hk. revert response out. induction Hk as [|k ks [n ->] Hk IH]; intros response out Hl.
  - destruct response; cbn [length] in Hl; [|lia]. exists []. cbn. by rewrite app_nil_r.
  - destruct response as [|x response]; [exists (Room (S n) :: ks); cbn; rewrite app_nil_r; split_and!; [done|by repeat (econstructor; eauto)|lia]|].
    cbn [send_all]. rewrite bool_decide_false by done. set (r := x :: response) in *. assert (length r = S (length response)) as Hr by done.
    destruct (IH (drop (S n) r) (out ++ take (S n) r)) as (ks' & E & HF & Hn); [rewrite length_drop; cbn [length] in *; lia|].
    exists ks'. rewrite E, <- app_assoc, take_drop. split_and!; [done|done|]. rewrite length_drop in Hn. cbn [length] in *. lia.
Qed.

(** ** Messages *)

Lemma encodeWL_nonempty o : encodeWL o ≠ [].
Proof.
  unfold encodeWL. destruct o as [t n v ps]. cbn [encodeSinglePacketBNew]. unfold encode_one. cbn [type name value Datatypes.app].
  case_match; [|done]. unfold Amef.insert_at. by cbn [take Datatypes.app].
Qed.
Lemma encodeB_length o : slen (encodeWL o) < 2 ^ 31 → encodeB o = be_bytes 4 (slen (encodeWL o)) ++ encodeWL o.
Proof. intros H. unfold encodeB. pose proof (slen_nonneg (encodeWL o)). by rewrite ntb_be_bytes, wraps_small by lia. Qed.

Section serving.
Context (what : exn → bytes) (fuel : nat).

(** A message at the head of what arrives, however it is cut, is read and answered. *)
Lemma serve_one_reads o pieces tail ks out s :
  Forall piece pieces → concat pieces = encodeB o ++ tail → slen (encodeWL o) ≤ 10000000 →
  ∃ pieces', serve_one what fuel (mkConn (map Chunk pieces) ks out) s =
      ('(response, s) ← respond what fuel (encodeB o) s;
       '(e, ks, out) ← send_all ks response out;
       Ret (e, mkConn (map Chunk pieces') ks out, s)) ∧
    concat pieces' = tail ∧ Forall piece pieces'.
Proof.
  intros Hp Hc Hl. pose proof (slen_nonneg (encodeWL o)). rewrite encodeB_length in Hc by lia.
  assert (4 ≤ length (concat pieces))%nat as H4 by (rewrite Hc, !length_app, be_bytes_length; lia).
  destruct (recv_all_pieces 4 pieces [] [] Hp ltac:(lia)) as (pieces1 & E1 & Hc1 & Hp1). rewrite !app_nil_r in E1.
  assert (take 4 (concat pieces) = be_bytes 4 (slen (encodeWL o))) as HT by (rewrite Hc, <- app_assoc; apply (take_app_length' _ _ 4); by rewrite be_bytes_length).
  assert (concat pieces1 = encodeWL o ++ tail) as HD by (rewrite Hc1, Hc, <- app_assoc; apply (drop_app_length' _ _ 4); by rewrite be_bytes_length).
  rewrite HT in E1. unfold serve_one. cbn [incoming room sent]. rewrite E1. cbn [Datatypes.app default].
  assert (getLength (be_bytes 4 (slen (encodeWL o))) 4 = Ret (slen (encodeWL o))) as HG.
  { rewrite <- (app_nil_r (be_bytes _ _)). apply getLength_be. lia. }
  assert (be_bytes 4 (slen (encodeWL o)) ≠ []) as Hne by (intros E; apply (f_equal length) in E; rewrite be_bytes_length in E; done).
  destruct (be_bytes 4 (slen (encodeWL o))) as [|x bs] eqn:EB; [done|]. cbv zeta. unfold id. rewrite HG, bind_Ret_l.
  replace (10000000 <? slen (encodeWL o)) with false by lia. unfold serve_body. cbn [incoming room sent].
  destruct (recv_body_pieces pieces1 [] (slen (encodeWL o)) (x :: bs) Hp1) as (pieces2 & E2 & Hc2 & Hp2).
  { rewrite HD, slen_app. pose proof (slen_nonneg tail). lia. }
  rewrite !app_nil_r in E2. rewrite ?(app_nil_r (map Chunk pieces1)), E2, bind_Ret_l. unfold slen at 1.
  rewrite Nat2Z.id, HD, take_app_length, <- EB, <- encodeB_length by lia.
  exists pieces2. split_and!; try done. rewrite Hc2, HD. unfold slen. by rewrite Nat2Z.id, drop_app_length.
Qed.
Lemma serve_one_message o pieces tail ks out s response s' :
  Forall piece pieces → concat pieces = encodeB o ++ tail → slen (encodeWL o) ≤ 10000000 →
  respond what fuel (encodeB o) s = Ret (response, s') → Forall takes ks → (length response ≤ length ks)%nat →
  ∃ pieces' ks', serve_one what fuel (mkConn (map Chunk pieces) ks out) s = Ret (Goes_on, mkConn (map Chunk pieces') ks' (out ++ response), s') ∧
    concat pieces' = tail ∧ Forall piece pieces' ∧ Forall takes ks' ∧ (length ks ≤ length ks' + length response)%nat.
Proof.
  intros Hp Hc Hl Hr Hk Hlen. destruct (serve_one_reads o pieces tail ks out s Hp Hc Hl) as (pieces' & E & Hc' & Hp').
  destruct (send_all_takes ks response out Hk Hlen) as (ks' & E3 & Hk' & Hn). exists pieces', ks'.
  by rewrite E, Hr, bind_Ret_l, E3.
Qed.

(** The responses to messages, one after the other. *)
Fixpoint respond_all (os : list AMEFObject) (s : CacheMap) : outcome (list bytes * CacheMap) :=
  match os with
  | [] => Ret ([], s)
  | o :: os => '(r, s) ← respond what fuel (encodeB o) s; '(rs, s) ← respond_all os s; Ret (r :: rs, s)
  end.

(** C29: Requests are answered in order.  However the bytes of the requests on a connection are
    cut on their way, in pieces the buffer has room for and with several requests in one
    piece or one request in many, the server answers each with the response the requests in
    front of it lead to, and has then read everything. *)
Theorem server_answers os pieces ks s rs s' :
  Forall piece pieces → concat pieces = concat (map encodeB os) → Forall (λ o, slen (encodeWL o) ≤ 10000000) os →
  respond_all os s = Ret (rs, s') → Forall takes ks → (length (concat rs) ≤ length ks)%nat →
  ∃ ks', run what fuel (length os) (mkConn (map Chunk pieces) ks []) s = Ret (Goes_on, mkConn [] ks' (concat rs), s').
Proof.
  intros Hp Hc Ho. assert (∀ out, respond_all os s = Ret (rs, s') → Forall takes ks → (length (concat rs) ≤ length ks)%nat →
    ∃ ks', run what fuel (length os) (mkConn (map Chunk pieces) ks out) s = Ret (Goes_on, mkConn [] ks' (out ++ concat rs), s')) as H;
    [|by apply (H [])].
  revert pieces ks s rs Hp Hc. induction Ho as [|o os Hol Ho IH]; intros pieces ks s rs Hp Hc out Hr Hk Hl.
  - injection Hr as <- <-. destruct pieces as [|l pieces]; [|apply Forall_cons in Hp as [[Hne _] _]; cbn [map concat] in Hc; by destruct l].
    exists ks. cbn. by rewrite app_nil_r.
  - cbn [respond_all] in Hr. destruct (respond what fuel (encodeB o) s) as [[r s1]| | |] eqn:E1; try done. rewrite bind_Ret_l in Hr.
    destruct (respond_all os s1) as [[rs1 s2]| | |] eqn:E2; try done. rewrite bind_Ret_l in Hr. injection Hr as <- <-.
    cbn [map concat] in Hc, Hl. rewrite length_app in Hl.
    destruct (serve_one_message o pieces _ ks out s r s1 Hp Hc Hol E1 Hk ltac:(lia)) as (pieces1 & ks1 & E & Hc1 & Hp1 & Hk1 & Hn).
    destruct (IH pieces1 ks1 s1 rs1 Hp1 Hc1 (out ++ r) E2 Hk1 ltac:(lia)) as (ks2 & E3).
    exists ks2. cbn [length run]. rewrite E, bind_Ret_l, E3. cbn [concat]. by rewrite app_assoc.
Qed.
End serving.

Definition sample_request (q : string) (v : list bytes) : AMEFObject := foldl (λ o v, addString v [] o) (addString (str q) [] AMEFObject_new) v.
Definition sample_requests : list AMEFObject :=
  [sample_request "allocate map m" []; sample_request "add mapentry m a" [str "1"]; sample_request "get mapentry m a" []].
Lemma server_answers_witness :
  ∃ ks', run (λ _, []) 100 3 (mkConn (map Chunk [take 50 (concat (map encodeB sample_requests)); drop 50 (concat (map encodeB sample_requests))])
      (replicate 200 (Room 9)) []) init =
    Ret (Goes_on, mkConn [] ks' (concat [encode_reply (SUCCESS, []); encode_reply (SUCCESS, []); encode_reply (SUCCESS, str "1")]),
      mkCache [(str "m", CMap [(str "a", str "1")])] [(str "m", MAP)] [(str "m", false)] []).
Proof.
  apply (server_answers (λ _, []) 100 sample_requests).
  - repeat constructor; by apply (bool_decide_unpack _); vm_compute.
  - by vm_compute.
  - repeat constructor; by vm_compute.
  - by vm_compute.
  - apply Forall_replicate. by exists 8%nat.
  - apply Nat.leb_le. by vm_compute.
Defined.

(** Messages that overflow the buffer.  [recv] is asked for the whole body, up to ten million
    bytes, in a buffer of 32768: a larger body that has arrived in one piece is written
    behind its end. *)
Theorem large_message_overflows what fuel o ks out s :
  MAXBUFLENM < slen (encodeWL o) ≤ 10000000 → serve_one what fuel (mkConn [Chunk (encodeB o)] ks out) s = Undefined.
Proof.
  intros Hl. rewrite encodeB_length by lia. unfold MAXBUFLENM in Hl. unfold serve_one. cbn [incoming room sent].
  pose proof (be_bytes_length 4 (slen (encodeWL o))) as H4. pose proof (getLength_be (slen (encodeWL o)) [] ltac:(lia)) as HG. rewrite app_nil_r in HG.
  pose proof (encodeWL_nonempty o) as Hne. destruct (be_bytes 4 (slen (encodeWL o))) as [|a [|b [|c [|d [|]]]]]; try done.
  destruct (encodeWL o) as [|x body] eqn:E; [done|]. cbn [Datatypes.app recv_all]. cbn -[getLength slen serve_body].
  rewrite HG, bind_Ret_l. replace (10000000 <? slen (x :: body)) with false by lia. unfold serve_body. cbn [incoming recv_body].
  replace (slen (x :: body) <=? 0) with false by lia. unfold MAXBUFLENM. by replace (32768 <? Z.min (slen (x :: body)) (slen (x :: body))) with true by lia.
Qed.
Lemma large_message_overflows_witness :
  serve_one (λ _, []) 100 (mkConn [Chunk (encodeB (addString (replicate (Z.to_nat 40000) 65) [] AMEFObject_new))] [] []) init = Undefined.
Proof. apply large_message_overflows. by apply (bool_decide_unpack _); vm_compute. Defined.

(** A client that closes the connection after one, two or three bytes: the decoder reads
    behind the end of what was received. *)
Theorem short_message_undefined what fuel l ks out s :
  (0 < length l < 4)%nat → serve_one what fuel (mkConn [Chunk l; Chunk []] ks out) s = Undefined.
Proof.
  intros Hl. destruct l as [|a [|b [|c [|]]]]; cbn [length] in Hl; try lia; done.
Qed.
Lemma short_message_undefined_witness : serve_one (λ _, []) 100 (mkConn [Chunk (str "GE"); Chunk []] [] []) init = Undefined.
Proof. apply short_message_undefined. by vm_compute; lia. Defined.
