(* ===== verification/DistoClient.v ===== *)
(** * DistoClient

    The client of the distributed cache ([distocache/DistoCacheClientUtils.cpp]) and the part
    of [client-util/Client.cpp] it works over: a call sends a text command and reads the reply.

    The client's theorems are about any way of exchanging a message for a reply that gives the
    server's reply; sockets on which messages arrive whole are one. *)

From S2P Require Import Prelude StdMap ByteCodec StdString StringUtil CastUtil Amef CacheMap Sockets DistoCache.

(** ** The socket *)

(** [Client::sendData]: the answers that are left and what was sent.  After an error the rest
    is taken from -1. *)
Fixpoint sendData (ks : list send_answer) (data out : bytes) : outcome (list send_answer * bytes) :=
  if bool_decide (data = []) then Ret (ks, out)
  else
    match ks with
    | [] => Out_of_fuel
    | Room n :: ks => sendData ks (drop n data) (out ++ take n data)
    | _ :: _ => Throw Out_of_range
    end.

(** One [recv] into a buffer of zeros: the buffer, and what is still to come. *)
Definition recv_once (len : nat) (rs : list recv_answer) : outcome (bytes * list recv_answer) :=
  let padded d := d ++ replicate (len - length d) 0 in
  match len, rs with
  | O, _ => Ret ([], rs)
  | _, [] => Out_of_fuel
  | _, Chunk [] :: _ => Ret (padded [], rs)
  | _, Chunk l :: rs' => Ret (padded (take len l), if (len <? length l)%nat then Chunk (drop len l) :: rs' else rs')
  | _, _ :: rs' => Ret (padded [], rs')
  end.
(** [Client::getBinaryData]: an array of negative length is undefined. *)
Definition getBinaryData (len : nat) (isLengthIncluded : bool) (rs : list recv_answer) : outcome (bytes * list recv_answer) :=
  '(alldat, rs) ← recv_once len rs;
  leng ← getLengthCl alldat (Z.of_nat len);
  leng ← (if isLengthIncluded then checked_int (leng - Z.of_nat len) else Ret leng);
  if leng <? 0 then Undefined
  else '(buf, rs) ← recv_once (Z.to_nat leng) rs; Ret (alldat ++ buf, rs).

(** ** Calls *)

(** [sendData] and [getBinaryData] under the client's lock: a message for a reply. *)
Class Exchange := exchange : bytes → CacheMap → outcome (bytes * CacheMap).

(** [readValueOrThrowExp]: the text that is thrown, or the value. *)
Definition readValueOrThrowExp (object : option AMEFObject) (ignoreErrors : list bytes) : outcome (bytes + bytes) :=
  '(exp, resp) ←
    match object with
    | None => Ret ([], [])
    | Some o =>
        match packets o with
        | [] => Throw Out_of_range
        | [m] => Ret (if same (value m) SUCCESS then ([], []) else (value m, []))
        | m :: v :: _ => Ret (if same (value m) SUCCESS then ([], value v) else (value m, []))
        end
    end;
  Ret (if same exp [] then inr resp
       else if existsb (same exp) ignoreErrors then inr []
       else inl exp).

(** [lexical_cast<size_t>]. *)
Definition zero_text (v : bytes) : bool :=
  same v [48] || (prefixb [48] v && forallb (Z.eqb 48) v) ||
  ((prefixb [43; 48] v || prefixb [45; 48] v) && forallb (Z.eqb 48) (drop 1 v)).
Definition lexical_cast_size (v : bytes) : outcome Z :=
  if zero_text v then Ret 0
  else let i := wrapu 64 (strtol 10 v) in if i =? 0 then Throw Runtime_error else Ret i.

Section client.
Context `{!Exchange} (fuel : nat).

(** A call: the command, and the value if there is one. *)
Definition request (command : bytes) (value : option bytes) : AMEFObject :=
  let o := addString command [] AMEFObject_new in
  match value with Some v => addString v [] o | None => o end.
Definition call (command : bytes) (value : option bytes) : action bytes := λ s,
  '(resp, s) ← exchange (encodeB (request command value)) s;
  object ← decodeB fuel resp true;
  r ← readValueOrThrowExp object [];
  Ret (r, s).
Definition ignore (m : action bytes) : action unit := andThen m (λ _, done_ tt).

Definition sp : bytes := [32].

Definition allocate (cacheKey type : bytes) : action unit := ignore (call (str "allocate " ++ type ++ sp ++ cacheKey) None).
Definition deallocate (cacheKey : bytes) : action unit := ignore (call (str "deallocate " ++ cacheKey) None).
Definition addObjectEntry (key value : bytes) : action unit := ignore (call (str "add objentry " ++ key) (Some value)).
Definition removeObjectEntry (key : bytes) : action unit := ignore (call (str "remove objentry " ++ key) None).
Definition getObjectEntryValue (key : bytes) : action bytes := call (str "get objentry " ++ key) None.
Definition addMapEntry (cacheKey key value : bytes) : action unit :=
  ignore (call (str "add mapentry " ++ cacheKey ++ sp ++ key) (Some value)).
Definition removeMapEntry (cacheKey key : bytes) : action unit := ignore (call (str "remove mapentry " ++ cacheKey ++ sp ++ key) None).
Definition getMapEntryValue (cacheKey key : bytes) : action bytes := call (str "get mapentry " ++ cacheKey ++ sp ++ key) None.
Definition getMapEntryValueByPosition (cacheKey : bytes) (position : Z) : action bytes :=
  call (str "getbypos mapentry " ++ cacheKey ++ sp ++ fromNumber position) None.
Definition setMapEntryValueByPosition (cacheKey : bytes) (position : Z) (value : bytes) : action unit :=
  ignore (call (str "set mapentry " ++ cacheKey ++ sp ++ fromNumber position) (Some value)).
Definition setCollectionEntryAt (cacheKey : bytes) (position : Z) (value : bytes) : action unit :=
  ignore (call (str "set collentry " ++ cacheKey ++ sp ++ fromNumber position) (Some value)).
Definition addCollectionEntry (cacheKey value : bytes) : action unit := ignore (call (str "add collentry " ++ cacheKey) (Some value)).
Definition removeCollectionEntryAt (cacheKey : bytes) (position : Z) : action unit :=
  ignore (call (str "remove collentry " ++ cacheKey ++ sp ++ fromNumber position) None).
Definition getCollectionEntryAt (cacheKey : bytes) (position : Z) : action bytes :=
  call (str "get collentry " ++ cacheKey ++ sp ++ fromNumber position) None.
Definition size (cacheKey : bytes) : action Z :=
  andThen (call (str "size " ++ cacheKey) None) (λ resp s,
    if same resp [] then Ret (inr (wrapu 64 (-1)), s)
    else match lexical_cast_size resp with
         | Ret n => Ret (inr n, s)
         | Throw e => if is_std e then Ret (inr (wrapu 64 (-1)), s) else Throw e
         | Undefined => Undefined
         | Out_of_fuel => Out_of_fuel
         end).
(** [isEmpty] reads the value again from the object, which [readValueOrThrowExp] has deleted. *)
Definition isEmpty (cacheKey : bytes) : action bool :=
  andThen (call (str "isempty " ++ cacheKey) None) (λ resp s, if same resp [] then Ret (inr false, s) else Undefined).
Definition clear (cacheKey : bytes) : action unit := ignore (call (str "clear " ++ cacheKey) None).
Definition insert (cacheKey value : bytes) (position : Z) : action unit :=
  ignore (call (str "insert collentry " ++ cacheKey ++ sp ++ fromNumber position) (Some value)).
Definition insert_repeat (cacheKey value : bytes) (position repetition : Z) : action unit :=
  ignore (call (str "insert collentry " ++ cacheKey ++ sp ++ fromNumber position ++ sp ++ fromNumber repetition) (Some value)).
Definition popValueQueue (cacheKey : bytes) : action unit := ignore (call (str "pop collentry " ++ cacheKey) None).
Definition popGetValueQueue (cacheKey : bytes) : action bytes := call (str "popget collentry " ++ cacheKey) None.
(** The commands of these two are each other's. *)
Definition pushBackValue (cacheKey value : bytes) : action unit := ignore (call (str "pushfront collentry " ++ cacheKey) (Some value)).
Definition pushFrontValue (cacheKey value : bytes) : action unit := ignore (call (str "pushback collentry " ++ cacheKey) (Some value)).
Definition popFrontValue (cacheKey : bytes) : action unit := ignore (call (str "popfront collentry " ++ cacheKey) None).
Definition popBackValue (cacheKey : bytes) : action unit := ignore (call (str "popback collentry " ++ cacheKey) None).
Definition popGetFrontValue (cacheKey : bytes) : action bytes := call (str "popfrontget collentry " ++ cacheKey) None.
Definition popGetBackValue (cacheKey : bytes) : action bytes := call (str "popbackget collentry " ++ cacheKey) None.
Definition getFrontValue (cacheKey : bytes) : action bytes := call (str "getfront collentry " ++ cacheKey) None.
Definition getBackValue (cacheKey : bytes) : action bytes := call (str "getback collentry " ++ cacheKey) None.
End client.

(** ** Commands as text *)



(** ** The command at the server *)

















(** ** What can be answered *)

Definition errors : list bytes :=
  [ERR_NOELEMENTS; ERR_NOKEYCACHEMAP; ERR_INVCONTAINER; ERR_OPNOTSUPP; ERR_INDGRTCONTSIZ; ERR_NOTAMAPCONT; ERR_NOVALUEFOUND;
   ERR_ALLOCENTEXISTS; ERR_POSNOTNUM; ERR_REPNOTNUM].
(** An action that fails with one of the known texts only. *)
Definition known {A} (m : action A) : Prop := ∀ s e s', m s = Ret (inl e, s') → e ∈ errors.


Lemma known_pos {A} b (m1 m2 : action A) : known m1 → known m2 → known (if b : bool then m1 else m2).
Proof. by destruct b. Qed.





(** ** A call *)



Section calls.
Context (what : exn → bytes) (fuel : nat) (Hfuel : (3 ≤ fuel)%nat).

End calls.

(** ** The cache at a distance *)


(** The client's function for a command. *)
Definition remote `{!Exchange} (fuel : nat) (c : command) : action result :=
  let n := Z.of_nat in
  match c with
  | Allocate k type => nothing (allocate fuel k type)
  | Deallocate k => nothing (deallocate fuel k)
  | AddObject key v => nothing (addObjectEntry fuel key v)
  | RemoveObject key => nothing (removeObjectEntry fuel key)
  | GetObject key => text (getObjectEntryValue fuel key)
  | On k o =>
      match o with
      | AddMap key v => nothing (addMapEntry fuel k key v)
      | RemoveMap key => nothing (removeMapEntry fuel k key)
      | GetMap key => text (getMapEntryValue fuel k key)
      | GetMapAt p => text (getMapEntryValueByPosition fuel k (n p))
      | SetMapAt p v => nothing (setMapEntryValueByPosition fuel k (n p) v)
      | Add v => nothing (addCollectionEntry fuel k v)
      | SetAt p v => nothing (setCollectionEntryAt fuel k (n p) v)
      | GetAt p => text (getCollectionEntryAt fuel k (n p))
      | RemoveAt p => nothing (removeCollectionEntryAt fuel k (n p))
      | Insert v p => nothing (insert fuel k v (n p))
      | InsertRepeat v p repeat => nothing (insert_repeat fuel k v (n p) (n repeat))
      | Size => andThen (size fuel k) (λ n, done_ (Count n))
      | IsEmpty => andThen (isEmpty fuel k) (λ b, done_ (Flag b))
      | Clear => nothing (clear fuel k)
      | Pop => nothing (popValueQueue fuel k)
      | PopGet => text (popGetValueQueue fuel k)
      | PushBack v => nothing (pushBackValue fuel k v)
      | PushFront v => nothing (pushFrontValue fuel k v)
      | PopFront => nothing (popFrontValue fuel k)
      | PopBack => nothing (popBackValue fuel k)
      | PopGetFront => text (popGetFrontValue fuel k)
      | PopGetBack => text (popGetBackValue fuel k)
      | GetFront => text (getFrontValue fuel k)
      | GetBack => text (getBackValue fuel k)
      end
  end.





Section remote.
Context (what : exn → bytes) (fuel : nat) (limit : Z) `{!Exchange, !CacheService what fuel limit}.
Context (Hfuel : (3 ≤ fuel)%nat) (Hlimit : 200 ≤ limit < 2 ^ 24 - 200).




End remote.

(** ** Sockets *)

(** The exchange over a connection: the request reaches the server in the pieces [cut] makes
    of it, [ks] is what the server's socket takes of the reply, and the reply arrives whole. *)
Section sockets.
Context (what : exn → bytes) (fuel : nat) (limit : Z) (cut : bytes → list bytes) (ks : list send_answer).

Definition over_sockets : Exchange := λ data s,
  '(_, request) ← sendData [Room (length data)] data [];
  '(_, c, s) ← serve_one what fuel (mkConn (map Chunk (cut request)) ks []) s;
  '(resp, _) ← getBinaryData 4 false [Chunk (sent c)];
  Ret (resp, s).


Context (Hlimit : limit ≤ 10000000) (Hcut : ∀ d, concat (cut d) = d ∧ Forall piece (cut d)).
Context (Hks : Forall takes ks) (Hroom : limit ≤ Z.of_nat (length ks)).


End sockets.

(** The functions of the client over sockets, one after the other. *)
Fixpoint remote_all `{!Exchange} (fuel : nat) (cs : list command) (s : CacheMap) : outcome (list (bytes + result) * CacheMap) :=
  match cs with
  | [] => Ret ([], s)
  | c :: cs => '(r, s) ← remote fuel c s; '(rs, s) ← remote_all fuel cs s; Ret (r :: rs, s)
  end.

(** A deque filled from the back and emptied from the front is a queue; over the client it is
    a stack. *)
Example client_1 :
  (let H := over_sockets (λ _, []) 100 (λ d, [take 7 d; drop 7 d]) (replicate 100 (Room 3)) in
   '(rs, _) ← remote_all 100 [Allocate (str "d") DEQUE; On (str "d") (PushBack (str "a")); On (str "d") (PushBack (str "b"));
     On (str "d") PopGetFront; On (str "d") Size] init; Ret rs) =
  Ret [inr Nothing; inr Nothing; inr Nothing; inr (Text (str "b")); inr (Count 1)].
Proof. vm_compute. reflexivity. Qed.

