(* ===== verification/Http1Parser.v ===== *)
(** * Http1Parser

    The HTTP/1 head parser of [common/picohttpparser_fcp.cpp]: request and
    response lines, header fields with the content length the server adds to
    them, and the test for a complete head.  The portable code paths are
    modelled; the SSE ones search for the same characters.

    A position in the buffer is the list of bytes from it to the end; the byte at
    the end is the terminator of the [std::string] the callers pass. *)

From S2P Require Import Prelude StdString.

(** ** Results: the error code in [*ret], or a value *)

Abbreviation parsed A := (Z + A)%type.
Definition pbind {A B} (r : parsed A) (k : A → parsed B) : parsed B :=
  match r with inl e => inl e | inr a => k a end.
Notation "x '<-!' e ; k" := (pbind e (λ x, k)) (at level 20, e at level 100, k at level 200).
Notation "' p '<-!' e ; k" := (pbind e (λ p, k)) (at level 20, p pattern, e at level 100, k at level 200).

Definition peek (b : bytes) : Z := match b with [] => 0 | c :: _ => c end.

(** [CHECK_EOF] and [EXPECT_CHAR]. *)
Definition CHECK_EOF (b : bytes) : parsed unit := match b with [] => inl (-2) | _ => inr () end.
Definition EXPECT_CHAR_NO_CHECK (ch : Z) (b : bytes) : parsed bytes :=
  if peek b =? ch then inr (drop 1 b) else inl (-1).
Definition EXPECT_CHAR (ch : Z) (b : bytes) : parsed bytes := _ <-! CHECK_EOF b; EXPECT_CHAR_NO_CHECK ch b.

Definition IS_PRINTABLE_ASCII (c : Z) : bool := (32 <=? c) && (c <? 127).

(** [ADVANCE_TOKEN]: the bytes up to the next space, and the space on. *)
Fixpoint ADVANCE_TOKEN (b : bytes) : parsed (bytes * bytes) :=
  match b with
  | [] => inl (-2)
  | c :: b' =>
      if c =? 32 then inr ([], b)
      else if negb (IS_PRINTABLE_ASCII c) && ((c <? 32) || (c =? 127)) then inl (-1)
      else '(t, r) <-! ADVANCE_TOKEN b'; inr (c :: t, r)
  end.

(** The loops that step over the spaces behind a token. *)
Fixpoint skip_spaces (b : bytes) : bytes :=
  match b with c :: b' => if c =? 32 then skip_spaces b' else b | [] => [] end.
Definition next_word (b : bytes) : bytes := skip_spaces (drop 1 b).

(** [token_char_map]. *)
Definition token_char (c : Z) : bool :=
  (c =? 33) || ((35 <=? c) && (c <=? 39)) || (c =? 42) || (c =? 43) || (c =? 45) || (c =? 46)
  || ((48 <=? c) && (c <=? 57)) || ((65 <=? c) && (c <=? 90)) || ((94 <=? c) && (c <=? 122))
  || (c =? 124) || (c =? 126).

Definition is_ctl (c : Z) : bool := ((c <? 32) && negb (c =? 9)) || (c =? 127).

(** [get_token_to_eol]: the bytes of the line and the position after its end. *)
Fixpoint get_token_to_eol (b : bytes) : parsed (bytes * bytes) :=
  match b with
  | [] => inl (-2)
  | c :: b' =>
      if is_ctl c then
        if c =? 13 then r <-! EXPECT_CHAR 10 b'; inr ([], r)
        else if c =? 10 then inr ([], b')
        else inl (-1)
      else '(t, r) <-! get_token_to_eol b'; inr (c :: t, r)
  end.

(** The end of an empty line, if the position is at one. *)
Definition line_end (b : bytes) : parsed (option bytes) :=
  if peek b =? 13 then r <-! EXPECT_CHAR 10 (drop 1 b); inr (Some r)
  else if peek b =? 10 then inr (Some (drop 1 b))
  else inr None.

(** [is_complete]; every round reads a byte. *)
Fixpoint is_complete_loop (fuel : nat) (ret_cnt : Z) (b : bytes) : outcome (parsed bytes) :=
  match fuel with
  | O => Out_of_fuel
  | S fuel' =>
      match (_ <-! CHECK_EOF b; line_end b) with
      | inl e => Ret (inl e)
      | inr (Some b) => if ret_cnt + 1 =? 2 then Ret (inr b) else is_complete_loop fuel' (ret_cnt + 1) b
      | inr None => is_complete_loop fuel' 0 (drop 1 b)
      end
  end.
Definition is_complete (b : bytes) (last_len : Z) : outcome (parsed bytes) :=
  let b := if last_len <? 3 then b else drop (Z.to_nat (last_len - 3)) b in
  is_complete_loop (S (length b)) 0 b.

(** [PARSE_INT] and [parse_http_version]. *)
Definition PARSE_INT (mul : Z) (b : bytes) : parsed (Z * bytes) :=
  if (peek b <? 48) || (57 <? peek b) then inl (-1) else inr (mul * (peek b - 48), drop 1 b).

Definition parse_http_version (b : bytes) : parsed (Z * bytes) :=
  if slen b <? 9 then inl (-2)
  else
    b <-! EXPECT_CHAR_NO_CHECK 72 b;
    b <-! EXPECT_CHAR_NO_CHECK 84 b;
    b <-! EXPECT_CHAR_NO_CHECK 84 b;
    b <-! EXPECT_CHAR_NO_CHECK 80 b;
    b <-! EXPECT_CHAR_NO_CHECK 47 b;
    b <-! EXPECT_CHAR_NO_CHECK 49 b;
    b <-! EXPECT_CHAR_NO_CHECK 46 b;
    PARSE_INT 1 b.

(** ** Header fields *)

(** [phr_header_fcp]; no name is a continuation line. *)
Record phr_header := mkPhr { name : option bytes; value : bytes }.

(** The bytes of a name up to the colon. *)
Fixpoint header_name (b : bytes) : parsed (bytes * bytes) :=
  match b with
  | [] => inl (-2)
  | c :: b' =>
      if c =? 58 then inr ([], b)
      else if negb (token_char c) then inl (-1)
      else '(t, r) <-! header_name b'; inr (c :: t, r)
  end.

Definition is_blank (c : Z) : bool := (c =? 32) || (c =? 9).

(** The loop over blanks before a value. *)
Fixpoint skip_blanks (b : bytes) : parsed bytes :=
  match b with
  | [] => inl (-2)
  | c :: b' => if is_blank c then skip_blanks b' else inr b
  end.

(** The value without trailing blanks. *)
Fixpoint strip_blanks (v : bytes) : bytes :=
  match v with
  | [] => []
  | c :: v' => match strip_blanks v' with [] => if is_blank c then [] else [c] | t => c :: t end
  end.

(** The digits a content length starts with, accumulated in an [int]. *)
Fixpoint content_digits (v : bytes) (n : Z) : outcome Z :=
  match v with
  | [] => Ret n
  | c :: v' =>
      if (48 <=? c) && (c <=? 57) then
        m ← checked_int (n * 10);
        m ← checked_int (m + (c - 48));
        content_digits v' m
      else Ret n
  end.

Definition header_content_length (h : phr_header) (content_length : Z) : outcome Z :=
  match name h with
  | Some n => if (slen n =? 14) && strncaseeq 14 n (str "content-length") then content_digits (value h) 0 else Ret content_length
  | None => Ret content_length
  end.

(** One field: its name, unless the line continues the field before it, and its
    value. *)
Definition parse_header (first : bool) (b : bytes) : parsed (phr_header * bytes) :=
  '(n, b) <-!
    (if negb (negb first && is_blank (peek b)) then
       '(n, b) <-! header_name b;
       if slen n =? 0 then inl (-1)
       else b <-! skip_blanks (drop 1 b); inr (Some n, b)
     else inr (None, b));
  '(v, b) <-! get_token_to_eol b;
  inr (mkPhr n (strip_blanks v), b).

(** [parse_headers_fcp]: the fields so far and the content length go in, every
    round reads a line. *)
Fixpoint parse_headers_loop (fuel : nat) (max_headers : Z) (hs : list phr_header) (content_length : Z) (b : bytes)
    : outcome (list phr_header * Z * parsed bytes) :=
  match fuel with
  | O => Out_of_fuel
  | S fuel' =>
      match (_ <-! CHECK_EOF b; line_end b) with
      | inl e => Ret (hs, content_length, inl e)
      | inr (Some b) => Ret (hs, content_length, inr b)
      | inr None =>
          if Z.of_nat (length hs) =? max_headers then Ret (hs, content_length, inl (-1))
          else
            match parse_header (bool_decide (hs = [])) b with
            | inl e => Ret (hs, content_length, inl e)
            | inr (h, b) =>
                content_length ← header_content_length h content_length;
                parse_headers_loop fuel' max_headers (hs ++ [h]) content_length b
            end
      end
  end.
Definition parse_headers_fcp (b : bytes) (hs : list phr_header) (max_headers content_length : Z)
    : outcome (list phr_header * Z * parsed bytes) :=
  parse_headers_loop (S (length b)) max_headers hs content_length b.

(** ** Requests and responses *)

(** What a request line says. *)
Record request_line := mkLine { rl_method : bytes; rl_path : bytes; rl_minor_version : Z }.

(** The request line. *)
Definition parse_request_line (b : bytes) : parsed (bytes * bytes * Z * bytes) :=
  _ <-! CHECK_EOF b;
  b <-! (o <-! line_end b; inr (match o with Some b => b | None => b end));
  '(method, b) <-! ADVANCE_TOKEN b;
  let b := next_word b in
  '(path, b) <-! ADVANCE_TOKEN b;
  let b := next_word b in
  if (slen method =? 0) || (slen path =? 0) then inl (-1)
  else
    '(minor, b) <-! parse_http_version b;
    o <-! line_end b;
    match o with Some b => inr (method, path, minor, b) | None => inl (-1) end.

(** [phr_parse_request_fcp] with [last_len] zero: the number of bytes read or the
    error code, and the result parameters, those of the line after a success. *)
Definition phr_parse_request_fcp (buf : bytes) (max_headers content_length : Z) (isLazyHeaderParsing : bool)
    : outcome (Z * option request_line * list phr_header * Z) :=
  match parse_request_line buf with
  | inl e => Ret (e, None, [], content_length)
  | inr (method, path, minor, b) =>
      if isLazyHeaderParsing then
        Ret (slen buf - slen b, Some (mkLine method path minor), [], content_length)
      else
        '(hs, content_length, r) ← parse_headers_fcp b [] max_headers content_length;
        match r with
        | inl e => Ret (e, None, hs, content_length)
        | inr b => Ret (slen buf - slen b, Some (mkLine method path minor), hs, content_length)
        end
  end.

(** [phr_parse_headers_fcp] with [last_len] zero. *)
Definition phr_parse_headers_fcp (buf : bytes) (max_headers content_length : Z)
    : outcome (Z * list phr_header * Z) :=
  '(hs, content_length, r) ← parse_headers_fcp buf [] max_headers content_length;
  match r with
  | inl e => Ret (e, hs, content_length)
  | inr b => Ret (slen buf - slen b, hs, content_length)
  end.

(** [parse_response]. *)
Definition parse_response_line (b : bytes) : parsed (Z * Z * bytes * bytes) :=
  '(minor, b) <-! parse_http_version b;
  if negb (peek b =? 32) then inl (-1)
  else
    let b := next_word b in
    if slen b <? 4 then inl (-2)
    else
      '(h, b) <-! PARSE_INT 100 b;
      '(t, b) <-! PARSE_INT 10 b;
      '(u, b) <-! PARSE_INT 1 b;
      '(msg, b) <-! get_token_to_eol b;
      if slen msg =? 0 then inr (minor, h + t + u, msg, b)
      else if peek msg =? 32 then inr (minor, h + t + u, skip_spaces msg, b)
      else inl (-1).

Definition phr_parse_response_fcp (buf : bytes) (max_headers content_length : Z)
    : outcome (Z * option (Z * Z * bytes * list phr_header) * Z) :=
  match parse_response_line buf with
  | inl e => Ret (e, None, content_length)
  | inr (minor, status, msg, b) =>
      '(hs, content_length, r) ← parse_headers_fcp b [] max_headers content_length;
      match r with
      | inl e => Ret (e, None, content_length)
      | inr b => Ret (slen buf - slen b, Some (minor, status, msg, hs), content_length)
      end
  end.

(** ** Rendering and parsing a head *)

Definition crlf : bytes := [13; 10].

Definition word_char (c : Z) : bool := (33 <=? c) && negb (c =? 127).
Definition word_ok (t : bytes) : Prop := t ≠ [] ∧ Forall (λ c, word_char c = true) t.

(** A field as a client writes it. *)
Definition field_ok (nv : bytes * bytes) : Prop :=
  nv.1 ≠ [] ∧ Forall (λ c, token_char c = true) nv.1 ∧ Forall (λ c, is_ctl c = false) nv.2 ∧
  (∀ c, head nv.2 = Some c → is_blank c = false) ∧ (∀ c, last nv.2 = Some c → is_blank c = false).

Definition render_field (nv : bytes * bytes) : bytes := nv.1 ++ [58; 32] ++ nv.2 ++ crlf.
Definition render_head (method path : bytes) (minor : Z) (fields : list (bytes * bytes)) : bytes :=
  method ++ [32] ++ path ++ [32] ++ str "HTTP/1." ++ [48 + minor] ++ crlf ++ flat_map render_field fields ++ crlf.

Definition phr_of (nv : bytes * bytes) : phr_header := mkPhr (Some nv.1) nv.2.
Fixpoint fields_content_length (fields : list (bytes * bytes)) (n : Z) : outcome Z :=
  match fields with
  | [] => Ret n
  | nv :: fields => n ← header_content_length (phr_of nv) n; fields_content_length fields n
  end.

Lemma ADVANCE_TOKEN_word t r : Forall (λ c, word_char c = true) t → ADVANCE_TOKEN (t ++ 32 :: r) = inr (t, 32 :: r).
Proof.
  induction 1 as [|c t Hc Ht IH]; [done|]. cbn [app ADVANCE_TOKEN]. unfold word_char in Hc.
  replace (c =? 32) with false by lia.
  replace (negb (IS_PRINTABLE_ASCII c) && ((c <? 32) || (c =? 127))) with false by lia.
  by rewrite IH.
Qed.

Lemma header_name_token n r : Forall (λ c, token_char c = true) n → header_name (n ++ 58 :: r) = inr (n, 58 :: r).
Proof.
  induction 1 as [|c n Hc Hn IH]; [done|]. cbn [app header_name]. rewrite Hc.
  assert (c ≠ 58) by (intros ->; discriminate Hc). replace (c =? 58) with false by lia.
  cbn [negb]. by rewrite IH.
Qed.

Lemma get_token_to_eol_line v r : Forall (λ c, is_ctl c = false) v → get_token_to_eol (v ++ crlf ++ r) = inr (v, r).
Proof.
  induction 1 as [|c v Hc Hv IH]; [done|]. cbn [app get_token_to_eol]. rewrite Hc. by rewrite IH.
Qed.

Lemma strip_blanks_ok v : (∀ c, last v = Some c → is_blank c = false) → strip_blanks v = v.
Proof.
  intros H. destruct v as [|c v _] using rev_ind; [done|]. specialize (H c). rewrite last_snoc in H.
  specialize (H eq_refl). induction v as [|d v IH]; cbn [app strip_blanks]; [by rewrite H|].
  rewrite IH. by destruct v.
Qed.

Lemma skip_blanks_nonblank c r : is_blank c = false → skip_blanks (c :: r) = inr (c :: r).
Proof. intros H. cbn. by rewrite H. Qed.

Lemma token_head n r : n ≠ [] → Forall (λ c, token_char c = true) n →
  ∃ c t, n ++ r = c :: t ∧ token_char c = true.
Proof. intros Hn H. destruct H as [|c n Hc _]; [done|]. by eexists _, _. Qed.

Lemma token_char_not c : token_char c = true → c ≠ 13 ∧ c ≠ 10 ∧ is_blank c = false.
Proof. unfold token_char, is_blank. lia. Qed.

Lemma parse_header_render first nv r : field_ok nv → parse_header first (render_field nv ++ r) = inr (phr_of nv, r).
Proof.
  intros (Hne & Hn & Hv & Hh & Hl). destruct nv as [n v]. cbn [fst snd] in *. unfold parse_header, render_field. cbn [fst snd].
  replace ((n ++ [58; 32] ++ v ++ crlf) ++ r) with (n ++ 58 :: 32 :: v ++ crlf ++ r)
    by (by rewrite <- !app_assoc).
  destruct (token_head n (58 :: 32 :: v ++ crlf ++ r) Hne Hn) as (c & t & E & Hc).
  replace (negb (negb first && is_blank (peek (n ++ 58 :: 32 :: v ++ crlf ++ r)))) with true
    by (rewrite E; cbn [peek]; destruct (token_char_not c Hc) as (_ & _ & ->); by rewrite andb_false_r).
  rewrite header_name_token by done. cbn [pbind].
  replace (slen n =? 0) with false by (pose proof (slen_pos n Hne); lia).
  cbn [drop]. replace (skip_blanks (32 :: v ++ crlf ++ r)) with (skip_blanks (v ++ crlf ++ r)) by done.
  assert (skip_blanks (v ++ crlf ++ r) = inr (v ++ crlf ++ r)) as ->.
  { destruct v as [|d v]; [done|]. apply skip_blanks_nonblank. by apply Hh. }
  cbn [pbind]. rewrite get_token_to_eol_line by done. cbn [pbind]. by rewrite strip_blanks_ok.
Qed.

Lemma line_end_crlf r : line_end (crlf ++ r) = inr (Some r).
Proof. done. Qed.

Lemma parse_headers_render fuel max hs n fields m r :
  Forall field_ok fields → (length fields < fuel)%nat → Z.of_nat (length hs + length fields) ≤ max →
  fields_content_length fields n = Ret m →
  parse_headers_loop fuel max hs n (flat_map render_field fields ++ crlf ++ r)
  = Ret (hs ++ map phr_of fields, m, inr r).
Proof.
  intros Hf. revert fuel hs n. induction Hf as [|nv fields Hnv Hf IH]; intros fuel hs n Hl Hm Hc.
  - destruct fuel as [|fuel]; [cbn in Hl; lia|]. cbn [fields_content_length] in Hc. injection Hc as <-.
    cbn [flat_map app parse_headers_loop]. cbn [map]. by rewrite app_nil_r.
  - destruct fuel as [|fuel]; [cbn in Hl; lia|]. cbn [length] in Hl, Hm.
    cbn [fields_content_length] in Hc. apply bind_Ret_inv in Hc as (k & Hk & Hc).
    cbn [flat_map]. rewrite <- app_assoc. set (t := flat_map render_field fields ++ crlf ++ r) in *.
    cbn [parse_headers_loop].
    destruct Hnv as (Hne & Hn & Hrest).
    destruct (token_head nv.1 ([58; 32] ++ nv.2 ++ crlf ++ t) Hne Hn) as (c & u & E & Hch).
    assert (render_field nv ++ t = c :: u) as E2 by (unfold render_field; rewrite <- E, <- !app_assoc; done).
    assert ((_ <-! CHECK_EOF (render_field nv ++ t); line_end (render_field nv ++ t)) = inr None) as ->.
    { rewrite E2. cbn. unfold line_end. cbn [peek]. apply token_char_not in Hch as (? & ? & _).
      replace (c =? 13) with false by lia. by replace (c =? 10) with false by lia. }
    replace (Z.of_nat (length hs) =? max) with false by lia.
    rewrite parse_header_render by done. rewrite Hk, bind_Ret_l.
    unfold t. rewrite IH; [|lia|rewrite length_app; cbn; lia|done].
    by rewrite <- app_assoc.
Qed.

Lemma flat_map_render_length fields : (length fields ≤ length (flat_map render_field fields))%nat.
Proof.
  induction fields as [|nv fields IH]; [done|]. cbn [flat_map length]. rewrite length_app.
  unfold render_field at 1. rewrite !length_app. cbn. lia.
Qed.

Lemma parse_http_version_ok minor r :
  0 ≤ minor ≤ 9 → r ≠ [] → parse_http_version (str "HTTP/1." ++ [48 + minor] ++ r) = inr (minor, r).
Proof.
  intros Hm Hr. unfold parse_http_version. rewrite !slen_app. change (slen (str "HTTP/1.")) with 7.
  change (slen [48 + minor]) with 1. replace (_ <? 9) with false by (pose proof (slen_pos r Hr); lia).
  change (str "HTTP/1.") with [72; 84; 84; 80; 47; 49; 46].
  cbn -[Z.add Z.mul PARSE_INT]. unfold PARSE_INT. cbn [peek drop].
  replace ((48 + minor <? 48) || (57 <? 48 + minor)) with false by lia.
  do 2 f_equal. lia.
Qed.

Lemma next_word_word t r : word_ok t → next_word (32 :: t ++ r) = t ++ r.
Proof.
  intros [Hne H]. destruct H as [|c t Hc _]; [done|]. cbn. unfold word_char in Hc.
  by replace (c =? 32) with false by lia.
Qed.

Lemma line_parses method path minor fields rest :
  word_ok method → word_ok path → 0 ≤ minor ≤ 9 →
  parse_request_line (render_head method path minor fields ++ rest)
  = inr (method, path, minor, flat_map render_field fields ++ crlf ++ rest).
Proof.
  intros Hmet Hpath Hmin. set (t := flat_map render_field fields ++ crlf ++ rest).
  assert (render_head method path minor fields ++ rest = method ++ 32 :: path ++ 32 :: str "HTTP/1." ++ [48 + minor] ++ crlf ++ t) as ->.
  { unfold render_head, t. by rewrite <- !app_assoc. }
  unfold parse_request_line.
  assert (∃ c u, method ++ 32 :: path ++ 32 :: str "HTTP/1." ++ [48 + minor] ++ crlf ++ t = c :: u ∧ word_char c = true)
    as (c & u & Ec & Hch) by (destruct Hmet as [Hne H]; destruct H as [|c method' Hch _]; [done|by eexists _, _]).
  rewrite Ec. cbn [CHECK_EOF pbind]. unfold line_end at 1. cbn [peek]. unfold word_char in Hch.
  replace (c =? 13) with false by lia. replace (c =? 10) with false by lia. cbn [pbind]. rewrite <- Ec.
  rewrite ADVANCE_TOKEN_word by apply Hmet. cbn [pbind]. rewrite next_word_word by done.
  rewrite ADVANCE_TOKEN_word by apply Hpath. cbn [pbind].
  replace (next_word (32 :: str "HTTP/1." ++ [48 + minor] ++ crlf ++ t)) with (str "HTTP/1." ++ [48 + minor] ++ crlf ++ t) by done.
  replace (slen method =? 0) with false by (pose proof (slen_pos method (proj1 Hmet)); lia).
  replace (slen path =? 0) with false by (pose proof (slen_pos path (proj1 Hpath)); lia).
  cbn [orb]. rewrite parse_http_version_ok by done. done.
Qed.

Lemma head_parses method path minor fields max n m rest :
  word_ok method → word_ok path → 0 ≤ minor ≤ 9 → Forall field_ok fields → Z.of_nat (length fields) ≤ max →
  fields_content_length fields n = Ret m →
  let head := render_head method path minor fields in
  phr_parse_request_fcp (head ++ rest) max n false
  = Ret (slen head, Some (mkLine method path minor), map phr_of fields, m).
Proof.
  intros Hmet Hpath Hmin Hf Hmax Hc head. unfold phr_parse_request_fcp, head. rewrite line_parses by done.
  unfold parse_headers_fcp. rewrite (parse_headers_render _ max [] n fields m rest); try done.
  - rewrite bind_Ret_l. cbn [app]. do 4 f_equal. rewrite slen_app. lia.
  - rewrite length_app. pose proof (flat_map_render_length fields). cbn. lia.
Qed.

(** The first byte of a head does not end a line. *)
Lemma head_first method path minor fields :
  word_ok method → ∃ c k, render_head method path minor fields = c :: k ∧ c ≠ 13 ∧ c ≠ 10.
Proof.
  intros [Hne H]. destruct H as [|c m Hc _]; [done|]. unfold word_char in Hc. eexists _, _. split; [done|lia].
Qed.

(** C13: Reading the head of a request.  For a head as clients write it, the parser
    returns its length, the method, the path, the minor version, every field with
    its name and value in order, and the content length of the last field that has
    one; what follows the head is not looked at. *)
Theorem request_head_roundtrip method path minor fields max n m rest :
  word_ok method → word_ok path → 0 ≤ minor ≤ 9 → Forall field_ok fields → Z.of_nat (length fields) ≤ max →
  fields_content_length fields n = Ret m →
  let head := render_head method path minor fields in
  phr_parse_request_fcp (head ++ rest) max n false
  = Ret (slen head, Some (mkLine method path minor), map phr_of fields, m).
Proof. apply head_parses. Qed.

Definition sample_fields : list (bytes * bytes) :=
  [(str "Host", str "example.org"); (str "Content-Length", str "11"); (str "X-Empty", [])].

Example request_head_roundtrip_witness :
  let head := render_head (str "POST") (str "/a/b?c=d") 1 sample_fields in
  phr_parse_request_fcp (head ++ str "hello world") 100 0 false
  = Ret (slen head, Some (mkLine (str "POST") (str "/a/b?c=d") 1), map phr_of sample_fields, 11).
Proof.
  apply request_head_roundtrip.
  - split; [done|]. repeat constructor.
  - split; [done|]. repeat constructor.
  - lia.
  - repeat constructor; try done; intros c [= <-]; done.
  - vm_compute. congruence.
  - vm_compute. reflexivity.
Defined.

(** The head of a response, with a status of three digits. *)
Definition render_status (st : Z) : bytes := [48 + st / 100; 48 + st / 10 mod 10; 48 + st mod 10].
Definition render_response (minor st : Z) (msg : bytes) (fields : list (bytes * bytes)) : bytes :=
  str "HTTP/1." ++ [48 + minor; 32] ++ render_status st ++ [32] ++ msg ++ crlf ++ flat_map render_field fields ++ crlf.
Definition reason_ok (msg : bytes) : Prop := Forall (λ c, is_ctl c = false) msg ∧ head msg ≠ Some 32.

Lemma PARSE_INT_digit mul d r : 0 ≤ d ≤ 9 → PARSE_INT mul ((48 + d) :: r) = inr (mul * d, r).
Proof.
  intros H. unfold PARSE_INT. cbn [peek drop]. replace ((48 + d <? 48) || (57 <? 48 + d)) with false by lia. do 2 f_equal. lia.
Qed.

Lemma response_line_parses minor st msg r :
  0 ≤ minor ≤ 9 → 0 ≤ st ≤ 999 → reason_ok msg →
  parse_response_line (str "HTTP/1." ++ [48 + minor; 32] ++ render_status st ++ [32] ++ msg ++ crlf ++ r) = inr (minor, st, msg, r).
Proof.
  intros Hmin Hst [Hmsg Hh]. unfold parse_response_line.
  change ([48 + minor; 32] ++ ?x) with ([48 + minor] ++ 32 :: x). rewrite parse_http_version_ok by done. cbn [pbind].
  set (t := 32 :: msg ++ crlf ++ r).
  assert (next_word (32 :: render_status st ++ [32] ++ msg ++ crlf ++ r) = (48 + st / 100) :: (48 + st / 10 mod 10) :: (48 + st mod 10) :: t) as ->.
  { unfold next_word, render_status. cbn [drop app]. cbn [skip_spaces]. by replace (48 + st / 100 =? 32) with false by (Z.div_mod_to_equations; lia). }
  cbn [peek]. change (negb (32 =? 32)) with false. cbv iota.
  assert (4 ≤ slen ((48 + st / 100) :: (48 + st / 10 mod 10) :: (48 + st mod 10) :: t)) as Hl.
  { unfold t. rewrite !slen_cons. pose proof (slen_nonneg (msg ++ crlf ++ r)). lia. }
  replace (_ <? 4) with false by lia.
  rewrite !PARSE_INT_digit by (Z.div_mod_to_equations; lia). cbn [pbind]. rewrite PARSE_INT_digit by (Z.div_mod_to_equations; lia). cbn [pbind].
  rewrite PARSE_INT_digit by (Z.div_mod_to_equations; lia). cbn [pbind].
  assert (get_token_to_eol t = inr (32 :: msg, r)) as ->.
  { change t with ((32 :: msg) ++ crlf ++ r). apply get_token_to_eol_line. by constructor. }
  cbn [pbind]. replace (slen (32 :: msg) =? 0) with false by (rewrite slen_cons; pose proof (slen_nonneg msg); lia).
  change (peek (32 :: msg) =? 32) with true. cbv iota.
  assert (skip_spaces (32 :: msg) = msg) as ->.
  { cbn [skip_spaces]. change (32 =? 32) with true. cbv iota. destruct msg as [|c m]; [done|]. cbn [skip_spaces].
    replace (c =? 32) with false; [done|]. symmetry. apply Z.eqb_neq. by intros ->. }
  do 4 f_equal. Z.div_mod_to_equations. lia.
Qed.

Lemma response_parses minor st msg fields max n m rest :
  0 ≤ minor ≤ 9 → 0 ≤ st ≤ 999 → reason_ok msg → Forall field_ok fields → Z.of_nat (length fields) ≤ max →
  fields_content_length fields n = Ret m →
  let head := render_response minor st msg fields in
  phr_parse_response_fcp (head ++ rest) max n = Ret (slen head, Some (minor, st, msg, map phr_of fields), m).
Proof.
  intros Hmin Hst Hmsg Hf Hmax Hc head. unfold phr_parse_response_fcp.
  assert (head ++ rest = str "HTTP/1." ++ [48 + minor; 32] ++ render_status st ++ [32] ++ msg ++ crlf ++ (flat_map render_field fields ++ crlf ++ rest)) as E
    by (unfold head, render_response; by rewrite <- !app_assoc).
  rewrite E, response_line_parses by done.
  unfold parse_headers_fcp. rewrite (parse_headers_render _ max [] n fields m rest); try done.
  - rewrite bind_Ret_l, <- E, slen_app. cbn [app]. do 4 f_equal. lia.
  - rewrite length_app. pose proof (flat_map_render_length fields). cbn. lia.
Qed.

(** Reading the head of a response.  The client's parser returns the length of a
    well-formed head, its minor version, status, reason and fields in order, and the
    content length. *)
Theorem response_head_roundtrip minor st msg fields max n m rest :
  0 ≤ minor ≤ 9 → 0 ≤ st ≤ 999 → reason_ok msg → Forall field_ok fields → Z.of_nat (length fields) ≤ max →
  fields_content_length fields n = Ret m →
  let head := render_response minor st msg fields in
  phr_parse_response_fcp (head ++ rest) max n = Ret (slen head, Some (minor, st, msg, map phr_of fields), m).
Proof. apply response_parses. Qed.

Example response_head_roundtrip_witness :
  let head := render_response 1 404 (str "Not Found") [(str "Content-Length", str "11")] in
  phr_parse_response_fcp (head ++ str "hello") 100 (-1)
  = Ret (slen head, Some (1, 404, str "Not Found", [mkPhr (Some (str "Content-Length")) (str "11")]), 11).
Proof.
  apply (response_head_roundtrip 1 404 (str "Not Found") [(str "Content-Length", str "11")]); try done.
  - split; [repeat constructor|done].
  - repeat constructor; try done; intros c [= <-]; done.
Defined.

(** ** Content lengths *)

Definition digit (c : Z) : bool := (48 <=? c) && (c <=? 57).
Definition digits_value (ds : bytes) (n : Z) : Z := foldl (λ n c, n * 10 + (c - 48)) n ds.

Lemma digits_value_le ds n : Forall (λ c, digit c = true) ds → 0 ≤ n → n ≤ digits_value ds n.
Proof.
  intros H. revert n. induction H as [|c ds Hc Hds IH]; intros n Hn; cbn [digits_value foldl]; [lia|].
  unfold digit in Hc. specialize (IH (n * 10 + (c - 48)) ltac:(lia)). unfold digits_value in IH. lia.
Qed.

Lemma content_digits_value ds w n :
  Forall (λ c, digit c = true) ds → (∀ c, head w = Some c → digit c = false) → 0 ≤ n < 2 ^ 31 →
  content_digits (ds ++ w) n = if digits_value ds n <? 2 ^ 31 then Ret (digits_value ds n) else Undefined.
Proof.
  intros H Hw. revert n. induction H as [|c ds Hc Hds IH]; intros n Hn; cbn [digits_value foldl app].
  - replace (n <? 2 ^ 31) with true by lia. destruct w as [|c w]; [done|].
    cbn [content_digits]. specialize (Hw c eq_refl). unfold digit in Hw. by rewrite Hw.
  - cbn [content_digits]. unfold digit in Hc. rewrite Hc.
    change (foldl _ _ ds) with (digits_value ds (n * 10 + (c - 48))).
    pose proof (digits_value_le ds (n * 10 + (c - 48)) Hds ltac:(lia)).
    destruct (decide (n * 10 < 2 ^ 31)).
    + rewrite (checked_int_Ret (n * 10)), bind_Ret_l by lia.
      destruct (decide (n * 10 + (c - 48) < 2 ^ 31)).
      * rewrite checked_int_Ret, bind_Ret_l by lia. apply IH. lia.
      * rewrite checked_int_Undefined by lia. cbn [mbind outcome_bind]. by replace (_ <? 2 ^ 31) with false by lia.
    + rewrite checked_int_Undefined by lia. cbn [mbind outcome_bind]. by replace (_ <? 2 ^ 31) with false by lia.
Qed.

(** Content lengths are bounded by nothing but the type.  A content length
    field counts as the number its value starts with, whatever follows; from two
    to the 31 on the computation overflows its [int], which is undefined. *)
Theorem content_length_bounds nm ds w n :
  slen nm = 14 → strncaseeq 14 nm (str "content-length") = true →
  Forall (λ c, digit c = true) ds → (∀ c, head w = Some c → digit c = false) →
  header_content_length (phr_of (nm, ds ++ w)) n
  = if digits_value ds 0 <? 2 ^ 31 then Ret (digits_value ds 0) else Undefined.
Proof.
  intros Hl Hc Hds Hw. unfold header_content_length. cbn [phr_of name value fst snd].
  rewrite Hl, Hc. by apply content_digits_value.
Qed.

Example content_length_bounds_witness :
  header_content_length (phr_of (str "CONTENT-length", str "4294967297")) 0 = Undefined ∧
  header_content_length (phr_of (str "Content-Length", str "12, 13")) 0 = Ret 12.
Proof.
  split.
  - rewrite <- (app_nil_r (str "4294967297")).
    apply (content_length_bounds (str "CONTENT-length") (str "4294967297") []); [done|done|repeat constructor|done].
  - apply (content_length_bounds (str "Content-Length") (str "12") (str ", 13") 0); [done|done|repeat constructor|].
    by intros c [= <-].
Defined.

(** ** Termination *)

(** Every round of the loops reads a byte. *)
Lemma get_token_to_eol_shorter b v r : get_token_to_eol b = inr (v, r) → (length r < length b)%nat.
Proof.
  revert v. induction b as [|c b IH]; intros v; cbn [get_token_to_eol]; [done|].
  destruct (is_ctl c).
  - destruct (c =? 13); [|destruct (c =? 10); [|done]].
    + destruct b as [|d b]; [done|]. unfold EXPECT_CHAR, EXPECT_CHAR_NO_CHECK. cbn.
      destruct (d =? 10); [|done]. intros [= _ <-].
      rewrite ?drop_0. cbn. lia.
    + intros [= <- <-]. cbn. lia.
  - destruct (get_token_to_eol b) as [|[t r']]; [done|]. intros [= <- <-]. specialize (IH _ eq_refl). cbn. lia.
Qed.

Lemma header_name_shorter b v r : header_name b = inr (v, r) → (length r ≤ length b)%nat.
Proof.
  revert v. induction b as [|c b IH]; intros v; cbn [header_name]; [done|].
  destruct (c =? 58); [by intros [= <- <-]|]. destruct (negb _); [done|].
  destruct (header_name b) as [|[t r']]; [done|]. intros [= <- <-]. specialize (IH _ eq_refl). cbn. lia.
Qed.

Lemma skip_blanks_shorter b r : skip_blanks b = inr r → (length r ≤ length b)%nat.
Proof.
  induction b as [|c b IH]; cbn [skip_blanks]; [done|].
  destruct (is_blank c); [intros H; specialize (IH H); cbn; lia|by intros [= <-]].
Qed.

Lemma parse_header_shorter first b h r : parse_header first b = inr (h, r) → (length r < length b)%nat.
Proof.
  unfold parse_header. destruct (negb _).
  - destruct (header_name b) as [|[n b1]] eqn:E1; [done|]. apply header_name_shorter in E1.
    cbn [pbind]. destruct (slen n =? 0); [done|].
    destruct (skip_blanks (drop 1 b1)) as [|b2] eqn:E2; [done|]. apply skip_blanks_shorter in E2.
    cbn [pbind]. destruct (get_token_to_eol b2) as [|[v b3]] eqn:E3; [done|]. apply get_token_to_eol_shorter in E3.
    intros [= <- <-]. rewrite length_drop in E2. lia.
  - cbn [pbind]. destruct (get_token_to_eol b) as [|[v b3]] eqn:E3; [done|]. apply get_token_to_eol_shorter in E3.
    by intros [= <- <-].
Qed.

Lemma terminates_content_digits v n : terminates (content_digits v n).
Proof.
  revert n. induction v as [|c v IH]; intros n; cbn [content_digits]; [done|].
  destruct (_ && _); [|done]. unfold checked_int.
  destruct (fits_int (n * 10)); [|done]. rewrite bind_Ret_l. destruct (fits_int _); [apply IH|done].
Qed.

Lemma parse_headers_terminates fuel max hs n b :
  (length b < fuel)%nat → terminates (parse_headers_loop fuel max hs n b).
Proof.
  revert hs n b. induction fuel as [|fuel IH]; intros hs n b Hl; [lia|]. cbn [parse_headers_loop].
  destruct (_ <-! CHECK_EOF b; line_end b) as [e|[o|]]; [done|done|].
  destruct (_ =? max); [done|].
  destruct (parse_header _ b) as [|[h r]] eqn:E; [done|]. apply parse_header_shorter in E.
  apply terminates_bind.
  - unfold header_content_length. destruct (name h); [|done]. destruct (_ && _); [|done]. apply terminates_content_digits.
  - intros m _. apply IH. lia.
Qed.

(** The parser stops on every input: the rounds of the header loop are at most
    as many as there are bytes, whatever the bytes are. *)
Theorem request_parser_terminates buf max n lazy : terminates (phr_parse_request_fcp buf max n lazy).
Proof.
  unfold phr_parse_request_fcp. destruct (parse_request_line buf) as [e|[[[method path] minor] b]]; [done|].
  destruct lazy; [done|]. apply terminates_bind.
  - unfold parse_headers_fcp. apply parse_headers_terminates. lia.
  - intros [[hs m] [e|r]] _; done.
Qed.
