(* ===== verification/Multipart.v ===== *)
(** * Multipart

    One part of a multipart body ([http/MultipartContent.cpp]): its headers, name,
    file name and content, and the constructor that reads the header lines. *)

From S2P Require Import Prelude StdMap StdString StringUtil TextCoding.

Record MultipartContent := mkPart {
  p_headers : list (bytes * bytes);
  p_content : bytes;
  p_name : bytes;
  p_fileName : bytes;
  p_tempFileName : bytes
}.
Definition MultipartContent_new (content : bytes) : MultipartContent := mkPart [] content [] [] [].

Definition p_addHeader (header v : bytes) (p : MultipartContent) : MultipartContent :=
  mkPart (match mfind header (p_headers p) with
          | Some w => mset header (w ++ [44] ++ v) (p_headers p)
          | None => mset header v (p_headers p)
          end) (p_content p) (p_name p) (p_fileName p) (p_tempFileName p).
Definition p_setContent (c : bytes) (p : MultipartContent) : MultipartContent :=
  mkPart (p_headers p) c (p_name p) (p_fileName p) (p_tempFileName p).
Definition p_setName (n : bytes) (p : MultipartContent) : MultipartContent :=
  mkPart (p_headers p) (p_content p) n (p_fileName p) (p_tempFileName p).
Definition p_setFileName (f : bytes) (p : MultipartContent) : MultipartContent :=
  mkPart (p_headers p) (p_content p) (p_name p) f (p_tempFileName p).
Definition p_setTempFileName (f : bytes) (p : MultipartContent) : MultipartContent :=
  mkPart (p_headers p) (p_content p) (p_name p) (p_fileName p) f.

Definition isAFile (p : MultipartContent) : bool :=
  negb (bool_decide (p_tempFileName p = []) && bool_decide (p_fileName p = [])).
Definition isValid (p : MultipartContent) : bool :=
  negb (bool_decide (p_headers p = [])) || negb (bool_decide (p_content p = [])) ||
  negb (bool_decide (p_tempFileName p = [])) || negb (bool_decide (p_name p = [])).

(** A value without its quotes: a value without anything else has no first
    position, and [substr] throws. *)
Definition unquote (v : bytes) : outcome bytes :=
  match find_first_not_of [34] v, find_last_not_of [34] v with
  | Some i, Some j => Ret (take (j - i + 1) (drop i v))
  | _, _ => Throw Out_of_range
  end.

(** One parameter of [Content-Disposition]. *)
Definition disposition_param (s : bytes) (p : MultipartContent) : outcome MultipartContent :=
  if memb 61 s then
    let stpd := default 0%nat (find_first_not_of [32] s) in
    let enpd := default 0%nat (find_last_not_of [32] s) in
    match splitAndReturn (take (enpd - stpd + 1) (drop stpd s)) [61] false with
    | [a; v] =>
        if bool_decide (v = [34; 34]) then Ret p
        else if bool_decide (a = str "name") then k ← unquote v; k ← urlDecode k; Ret (p_setName k p)
        else if bool_decide (a = str "filename") then k ← unquote v; k ← urlDecode k; Ret (p_setFileName k p)
        else Ret p
    | _ => Ret p
    end
  else Ret p.
Fixpoint disposition_params (l : list bytes) (p : MultipartContent) : outcome MultipartContent :=
  match l with [] => Ret p | s :: l => p ← disposition_param s p; disposition_params l p end.

(** One header line. *)
Definition header_line (h : bytes) (p : MultipartContent) : outcome MultipartContent :=
  match sfind (str ": ") h with
  | None => Ret p
  | Some i =>
      let n := take i h in
      let v := replaceFirst (drop (i + 2) h) [13] [] in
      p ← (match sfind (str "Content-Disposition") n with
           | Some _ => disposition_params (splitAndReturn v [59] false) p
           | None => Ret p
           end);
      Ret (p_addHeader n v p)
  end.
Fixpoint read_header_lines (hs : list bytes) (p : MultipartContent) : outcome MultipartContent :=
  match hs with [] => Ret p | h :: hs => p ← header_line h p; read_header_lines hs p end.

(** The constructor from header lines. *)
Definition MultipartContent_parse (headers : list bytes) (content : bytes) : outcome MultipartContent :=
  let p := MultipartContent_new content in
  match headers with
  | [] => Ret p
  | _ =>
      p ← read_header_lines headers p;
      match mfind (str "Content-Type") (p_headers p) with
      | None => Ret (p_addHeader (str "Content-Type") (str "text/plain; charset=UTF-8") p)
      | Some _ => Ret p
      end
  end.
