(* ===== verification/HttpRequest.v ===== *)
(** * HttpRequest

    The request object of HTTP/1 connections ([http/HttpRequest.cpp]): how
    [reset] fills it from a head, the header lookups, the tests on header values,
    and the ranges of a [Range] header.

    Views into the head are the bytes they show.  A view that a failed [reset]
    leaves behind points into storage that is gone; reading it is undefined. *)

From S2P Require Import Prelude StdMap StdString StringUtil Http1Parser.

Inductive view := View (b : bytes) | Stale.
Definition read_view (v : view) : outcome bytes := match v with View b => Ret b | Stale => Undefined end.

Record HttpRequest := mkReq {
  headers_data : bytes;
  headers_list : list phr_header;        (* num_headers of them *)
  headers : list (bytes * bytes);        (* RMap *)
  methodv : view;
  pathv : view;
  queryv : view;
  parser_pos : Z;
  httpVers : Z;                          (* in tenths *)
  httpVersion : bytes;
  cntxt_name : view;
  ext : bytes;
  file : bytes;
  status : option Z;                     (* the status code, or the null pointer *)
  corsRequest : bool;
  content : bytes
}.

Definition HttpRequest_new : HttpRequest :=
  mkReq [] [] [] (View []) (View []) (View []) (-1) 0 [] (View []) [] [] None false [].

(** [isLazyHeaderParsing] and the size of [headers_list]. *)
Definition max_headers : Z := 100.

(** The context name a path starts with. *)
Definition context_name (path : bytes) : bytes :=
  match find_first_not_of [47] path with
  | None => []
  | Some ids =>
      match sfind_from [47] path ids with
      | Some ide => take (ide - ids) (drop ids path)
      | None => match sfind [46] path with None => drop ids path | Some _ => [] end
      end
  end.

(** The extension and the file name, if the path has a dot. *)
Definition path_ext_file (path : bytes) : option (bytes * bytes) :=
  i ← sfind [46] path;
  Some (drop i path, drop (match find_last_of [47] path with Some j => S j | None => 0 end) path).

(** The views a [reset] does not set again keep pointing into the old head. *)
Definition stale (v : view) : view := match v with View [] => View [] | _ => Stale end.

(** [reset]: the request, and the content length through the pointer.  The
    comparison binds tighter than the assignment to [parser_pos]. *)
Definition reset (isLazyHeaderParsing : bool) (data : bytes) (content_length : Z) (r : HttpRequest)
    : outcome (HttpRequest * Z) :=
  if slen data =? 0 then
    Ret (mkReq data [] [] (stale (methodv r)) (stale (pathv r)) (View []) (parser_pos r) 0 (httpVersion r)
           (stale (cntxt_name r)) [] [] None false [], content_length)
  else
    '(res, line, hs, content_length) ← phr_parse_request_fcp data max_headers content_length isLazyHeaderParsing;
    match line with
    | None =>
        Ret (mkReq data hs [] (stale (methodv r)) (stale (pathv r)) (View []) 1 0 (httpVersion r)
               (stale (cntxt_name r)) [] [] (Some 400) false [], content_length)
    | Some l =>
        let '(path, query) :=
          match sfind [63] (rl_path l) with
          | Some q => (take q (rl_path l), drop (S q) (rl_path l))
          | None => (rl_path l, [])
          end in
        let '(e, f) := default ([], []) (path_ext_file path) in
        Ret (mkReq data hs [] (View (rl_method l)) (View path) (View query) 0
               (10 + rl_minor_version l) (if rl_minor_version l =? 1 then str "HTTP/1.1" else str "HTTP/1.0")
               (View (context_name path)) e f None false [], content_length)
    end.

Definition setContent (data : bytes) (r : HttpRequest) : HttpRequest :=
  mkReq (headers_data r) (headers_list r) (headers r) (methodv r) (pathv r) (queryv r)
    (parser_pos r) (httpVers r) (httpVersion r) (cntxt_name r) (ext r) (file r) (status r) (corsRequest r) data.
Definition set_corsRequest (b : bool) (r : HttpRequest) : HttpRequest :=
  mkReq (headers_data r) (headers_list r) (headers r) (methodv r) (pathv r) (queryv r)
    (parser_pos r) (httpVers r) (httpVersion r) (cntxt_name r) (ext r) (file r) (status r) b (content r).

(** [parseHeaders], the lazy variant: it starts where [parser_pos] says. *)
Definition parseHeaders (content_length : Z) (r : HttpRequest) : outcome (bool * list phr_header * Z) :=
  if (0 <? slen (headers_data r)) && (0 <? httpVers r) then
    let n := Z.of_nat (length (headers_list r)) in
    '(hs, content_length, res) ← parse_headers_fcp (drop (Z.to_nat (parser_pos r)) (headers_data r)) (headers_list r) n content_length;
    Ret (match res with inl _ => false | inr _ => true end, hs, content_length)
  else Ret (false, headers_list r, content_length).

(** ** Headers *)

(** The test of the lookups on one parsed field. *)
Definition field_named (key : bytes) (h : phr_header) : bool :=
  let n := default [] (name h) in (slen n =? slen key) && strncaseeq (length n) n key.

(** The value of the first field with a name: the parsed fields hide the map. *)
Definition find_field (key : bytes) (r : HttpRequest) : option bytes :=
  match headers_list r with
  | [] => mfind key (headers r)
  | hs => value <$> List.find (field_named key) hs
  end.
Definition getHeader (key : bytes) (r : HttpRequest) : bytes := default [] (find_field key r).
Definition hasHeader (key : bytes) (r : HttpRequest) : bool := bool_decide (is_Some (find_field key r)).

Definition isHeaderValue (header v : bytes) (ignoreCase : bool) (r : HttpRequest) : bool :=
  match headers_list r with
  | [] =>
      match mfind header (headers r) with
      | Some w => bool_decide (w = v) || (ignoreCase && strcaseeq w v)
      | None => false
      end
  | hs =>
      match List.find (field_named header) hs with
      | Some h => strncaseeq (length (value h)) (value h) v
      | None => false
      end
  end.

Definition hasHeaderValuePart (header valuePart : bytes) (ignoreCase : bool) (r : HttpRequest) : bool :=
  let hvalue := default [] (value <$> List.find (field_named header) (headers_list r)) in
  let hvalue := default hvalue (mfind header (headers r)) in
  if bool_decide (hvalue = valuePart) || (ignoreCase && bool_decide (toLower hvalue = toLower valuePart)) then true
  else if ignoreCase then
    existsb (λ t, bool_decide (trim (toLower t) = toLower valuePart)) (splitAndReturn (toLower hvalue) [44] false)
  else existsb (λ t, bool_decide (trim t = valuePart)) (splitAndReturn hvalue [44] false).

(** [isClose], [isKeepAlive] and [isUpgrade] are this test with their words. *)
Definition connection_is (word : bytes) (r : HttpRequest) : bool :=
  match headers_list r with
  | [] => hasHeaderValuePart (str "Connection") word true r
  | hs =>
      match List.find (field_named (str "Connection")) hs with
      | Some h => strncaseeq (length (value h)) (value h) word
      | None => false
      end
  end.
Definition isClose := connection_is (str "close").
Definition isKeepAlive := connection_is (str "keep-alive").
Definition isUpgrade := connection_is (str "upgrade").

(** [addHeader]; [headers] is ordered by key. *)
Definition add_to_headers (header v : bytes) (m : list (bytes * bytes)) : list (bytes * bytes) :=
  match mfind header m with
  | Some w => mset header (w ++ [44] ++ v) m
  | None => mset header v m
  end.

(** [isValidHttpMethod(method)]: [strcasecmp] is zero for equal strings. *)
Definition isValidHttpMethod (method : bytes) : bool :=
  existsb (λ m, negb (strcaseeq method m))
    [str "get"; str "post"; str "options"; str "delete"; str "head"; str "put"; str "trace"].

(** ** Ranges *)

(** One range: two numbers, one of them may be missing; a number that does not
    parse drops the range. *)
Definition range_values (range : bytes) : outcome (list (Z * Z)) :=
  let v := splitAndReturn (trim range) [45] false in
  if (2 <? length v)%nat then Ret []
  else
    match v with
    | [] => Throw Out_of_range
    | a :: rest =>
        if bool_decide (a ≠ []) then
          match rest with
          | [] => Throw Out_of_range
          | b :: _ =>
              if bool_decide (b ≠ []) then
                match toInt a, toInt b with
                | Ret s, Ret e =>
                    if (s <? 0) || (e <? s) then Ret [] else Ret [(s, e - s)]
                | _, _ => Ret []
                end
              else
                match toInt a with
                | Ret s => if s <? 0 then Ret [] else Ret [(s, -1)]
                | _ => Ret []
                end
          end
        else
          match rest with
          | [] => Throw Out_of_range
          | b :: _ =>
              if bool_decide (b ≠ []) then
                match toInt b with
                | Ret e => if e <? 0 then Ret [] else Ret [(-1, e)]
                | _ => Ret []
                end
              else Ret []
          end
    end.

Fixpoint ranges_values (l : list bytes) : outcome (list (Z * Z)) :=
  match l with
  | [] => Ret []
  | s :: l => v ← range_values s; vs ← ranges_values l; Ret (v ++ vs)
  end.

(** [getRanges]: the texts of the ranges and their values. *)
Definition getRanges (r : HttpRequest) : outcome (list bytes * list (Z * Z)) :=
  let ranges := getHeader (str "Range") r in
  if bool_decide (sfind (str "bytes=") ranges = Some 0%nat) then
    let rangesVec := splitAndReturn (replaceFirst ranges (str "bytes=") []) [44] false in
    vs ← ranges_values rangesVec; Ret (rangesVec, vs)
  else Ret ([], []).

(** ** Lookups *)

Lemma strncaseeq_lower n key :
  length n = length key → Forall (λ c, c ≠ 0) n →
  strncaseeq (length n) n key = bool_decide (toLower n = toLower key).
Proof.
  intros Hl Hn. revert key Hl. induction Hn as [|c n Hc Hn IH]; intros [|k key] Hl; try done.
  cbn [length strncaseeq hd tl toLower map] in *. replace (c =? 0) with false by lia. cbn [orb].
  rewrite IH by lia. destruct (lower c =? lower k) eqn:E; cbn [andb].
  - apply bool_decide_ext. apply Z.eqb_eq in E as ->. unfold toLower. split; [by intros ->|intros H; by injection H].
  - symmetry. apply bool_decide_eq_false. intros H. injection H as H _. lia.
Qed.

Definition same_name (key : bytes) (nv : bytes * bytes) : bool := bool_decide (toLower nv.1 = toLower key).

Lemma field_named_same key nv :
  Forall (λ c, token_char c = true) nv.1 → field_named key (phr_of nv) = same_name key nv.
Proof.
  intros Hn. unfold field_named, same_name. change (default [] (name (phr_of nv))) with nv.1.
  destruct (slen nv.1 =? slen key) eqn:E; cbn [andb].
  - apply strncaseeq_lower; [unfold slen in E; lia|]. eapply Forall_impl; [exact Hn|]. cbn. by intros c Hc ->.
  - symmetry. apply bool_decide_eq_false. intros H. apply (f_equal length) in H.
    unfold toLower in H. rewrite !length_map in H. unfold slen in E. lia.
Qed.

Lemma find_phr key fields :
  Forall field_ok fields →
  value <$> List.find (field_named key) (map phr_of fields) = snd <$> List.find (same_name key) fields.
Proof.
  induction 1 as [|nv fields (_ & Hn & _) Hf IH]; [done|]. cbn [map List.find].
  rewrite field_named_same by done. by destruct (same_name key nv).
Qed.

(** Looking up a header.  After a well-formed head with at least one field, a
    lookup gives the value of the first field whose name is the key up to case,
    and the method, the path and the query string are those of the request line. *)
Theorem reset_then_lookup method path minor fields n m r :
  word_ok method → word_ok path → 0 ≤ minor ≤ 9 → Forall field_ok fields → fields ≠ [] →
  Z.of_nat (length fields) ≤ max_headers → fields_content_length fields n = Ret m →
  ∃ r', reset false (render_head method path minor fields) n r = Ret (r', m) ∧ status r' = None ∧
    methodv r' = View method ∧
    (∀ a b, path = a ++ 63 :: b → Forall (λ c, c ≠ 63) a → pathv r' = View a ∧ queryv r' = View b) ∧
    (∀ key, getHeader key r' = default [] (snd <$> List.find (same_name key) fields) ∧
            hasHeader key r' = existsb (same_name key) fields).
Proof.
  intros Hm Hp Hmin Hf Hne Hmax Hc. unfold reset.
  pose proof (head_parses method path minor fields max_headers n m [] Hm Hp Hmin Hf Hmax Hc) as Hparse.
  cbv zeta in Hparse. rewrite app_nil_r in Hparse.
  destruct (head_first method path minor fields Hm) as (c & k & Ek & _).
  replace (slen _ =? 0) with false by (rewrite Ek, slen_cons; pose proof (slen_nonneg k); lia).
  rewrite Hparse, bind_Ret_l. cbn [rl_path rl_method rl_minor_version].
  assert (∀ key (x : HttpRequest), headers_list x = map phr_of fields →
    getHeader key x = default [] (snd <$> List.find (same_name key) fields) ∧
    hasHeader key x = existsb (same_name key) fields) as Hlook.
  { intros key x Hx. unfold getHeader, hasHeader, find_field. rewrite Hx.
    destruct fields as [|nv fs] eqn:Efs; [done|]. rewrite <- Efs in *. cbn [map].
    assert (map phr_of fields = phr_of nv :: map phr_of fs) as Em by (by rewrite Efs). rewrite Em, <- Em, find_phr by done.
    split; [done|]. clear. induction fields as [|x l IH]; [done|]. cbn.
    destruct (same_name key x); [done|]. apply IH. }
  destruct (sfind [63] path) as [q|] eqn:Eq.
  - destruct (default _ _) as [e f]. eexists. split; [done|]. cbn [status methodv pathv queryv]. split_and!; [done|done| |auto].
    intros a b -> Ha. change (63 :: b) with ([63] ++ b) in Eq. rewrite sfind_first in Eq by (by apply absent_first).
    injection Eq as <-. rewrite take_app_length. split; [done|]. f_equal.
    replace (S (length a)) with (length (a ++ [63])) by (rewrite length_app; cbn; lia).
    change (63 :: b) with ([63] ++ b). by rewrite app_assoc, drop_app_length.
  - destruct (default _ _) as [e f]. eexists. split; [done|]. cbn [status methodv pathv queryv]. split_and!; [done|done| |auto].
    intros a b -> Ha. change (63 :: b) with ([63] ++ b) in Eq. by rewrite sfind_first in Eq by (by apply absent_first).
Qed.

Example reset_then_lookup_witness :
  let fields := [(str "Host", str "example.org"); (str "Content-Length", str "11")] in
  ∃ r', reset false (render_head (str "POST") (str "/a?b=c") 1 fields) 0 HttpRequest_new = Ret (r', 11) ∧ status r' = None ∧
    methodv r' = View (str "POST") ∧
    (∀ a b, str "/a?b=c" = a ++ 63 :: b → Forall (λ c, c ≠ 63) a → pathv r' = View a ∧ queryv r' = View b) ∧
    (∀ key, getHeader key r' = default [] (snd <$> List.find (same_name key) fields) ∧
            hasHeader key r' = existsb (same_name key) fields).
Proof.
  apply (reset_then_lookup (str "POST") (str "/a?b=c") 1 [(str "Host", str "example.org"); (str "Content-Length", str "11")]).
  - split; [done|repeat constructor].
  - split; [done|repeat constructor].
  - done.
  - repeat constructor; try done; intros c [= <-]; done.
  - done.
  - vm_compute. congruence.
  - vm_compute. reflexivity.
Defined.

Lemma strncaseeq_prefix v w : map lower v = map lower (take (length v) w) → strncaseeq (length v) v w = true.
Proof.
  revert w. induction v as [|c v IH]; intros [|k w] H; try done. cbn in H. injection H as Hc H.
  cbn [length strncaseeq hd tl]. rewrite Hc, Z.eqb_refl. cbn [andb]. rewrite IH by done. by rewrite orb_true_r.
Qed.

(** The connection tests accept too much.  They compare as many bytes as the
    value has, so every beginning of a word counts as the word; a [Connection]
    header with an empty value closes, keeps alive and upgrades at once. *)
Theorem connection_prefix_accepted r h word v w :
  headers_list r ≠ [] → List.find (field_named (str "Connection")) (headers_list r) = Some h →
  word = v ++ w → map lower (value h) = map lower v → connection_is word r = true.
Proof.
  intros Hne Hf -> Hv. unfold connection_is. destruct (headers_list r) as [|x l] eqn:E; [done|]. rewrite Hf.
  apply strncaseeq_prefix. rewrite Hv. f_equal. apply (f_equal length) in Hv. rewrite !length_map in Hv.
  by rewrite Hv, take_app_length.
Qed.

Example connection_prefix_accepted_witness :
  let r := match reset false (render_head (str "GET") (str "/") 1 [(str "Connection", [])]) 0 HttpRequest_new with
           | Ret (r, _) => r | _ => HttpRequest_new end in
  isClose r = true ∧ isKeepAlive r = true ∧ isUpgrade r = true.
Proof.
  intros r. split_and!.
  - by apply (connection_prefix_accepted r (mkPhr (Some (str "Connection")) []) (str "close") [] (str "close")).
  - by apply (connection_prefix_accepted r (mkPhr (Some (str "Connection")) []) (str "keep-alive") [] (str "keep-alive")).
  - by apply (connection_prefix_accepted r (mkPhr (Some (str "Connection")) []) (str "upgrade") [] (str "upgrade")).
Defined.

(** Every method is a valid method: no string equals all of the names. *)
Theorem every_method_is_valid m : isValidHttpMethod m = true.
Proof.
  unfold isValidHttpMethod. cbn [existsb]. destruct (strcaseeq m (str "get")) eqn:E1; [|done].
  destruct (strcaseeq m (str "post")) eqn:E2; [|done].
  unfold strcaseeq in *. apply bool_decide_eq_true in E1, E2. rewrite E1 in E2. discriminate E2.
Qed.

(** ** Ranges *)

Inductive byte_range := Between (start last : Z) | From (start : Z) | Last (n : Z).

Definition render_range (x : byte_range) : bytes :=
  match x with
  | Between s e => print_number 10 s ++ 45 :: print_number 10 e
  | From s => print_number 10 s ++ [45]
  | Last n => 45 :: print_number 10 n
  end.
(** The start, and the number of bytes after the first. *)
Definition range_value (x : byte_range) : Z * Z :=
  match x with Between s e => (s, e - s) | From s => (s, -1) | Last n => (-1, n) end.
Definition range_ok (x : byte_range) : Prop :=
  match x with Between s e => 0 ≤ s ≤ e ∧ e < 2 ^ 31 | From s | Last s => 0 ≤ s < 2 ^ 31 end.

Lemma decimal_plain n c : 0 ≤ n < 2 ^ 31 → c < 48 ∨ 57 < c → c ∉ print_number 10 n.
Proof.
  intros Hn Hc H. destruct (print_decimal n) as (_ & Hd & _); [lia|]. rewrite Forall_forall in Hd. apply Hd in H. unfold digit_ok in H. lia.
Qed.

Lemma range_chars x : range_ok x → Forall (λ c, 48 ≤ c ≤ 57 ∨ c = 45) (render_range x) ∧ render_range x ≠ [].
Proof.
  assert (∀ n, 0 ≤ n < 2 ^ 31 → Forall (λ c, 48 ≤ c ≤ 57 ∨ c = 45) (print_number 10 n)) as H.
  { intros n Hn. eapply Forall_impl; [by apply print_decimal; lia|]. unfold digit_ok. cbn. lia. }
  destruct x as [s e|s|n]; cbn; intros Hx; (split; [|by first [done|intros [_ ?]%app_eq_nil]]).
  - apply Forall_app. split; [apply H; lia|]. constructor; [lia|apply H; lia].
  - apply Forall_app. split; [by apply H|]. constructor; [lia|done].
  - constructor; [lia|by apply H].
Qed.

Lemma not_ws_range c : 48 ≤ c ≤ 57 ∨ c = 45 → ¬ ws c.
Proof. intros Hc H. apply memb_spec in H. unfold memb in H. cbn in H. lia. Qed.

Lemma trim_range x : range_ok x → trim (render_range x) = render_range x.
Proof.
  intros H. destruct (range_chars x H) as [Hc Hne]. destruct (render_range x) as [|c t] eqn:E; [done|].
  destruct (last (c :: t)) as [d|] eqn:El; [|by apply last_None in El].
  rewrite Forall_forall in Hc. apply (trim_id c _ d); [done|done|apply not_ws_range, Hc|apply not_ws_range, Hc].
  - by left.
  - apply last_Some in El as [m ->]. apply elem_of_app. right. by left.
Qed.

Lemma range_values_render x : range_ok x → range_values (render_range x) = Ret [range_value x].
Proof.
  intros H. unfold range_values. rewrite trim_range by done. destruct x as [s e|s|n]; cbn [render_range range_ok] in *.
  - rewrite split_two by (apply decimal_plain; lia). cbn [length Nat.ltb Nat.leb].
    destruct (print_decimal s) as [Hs _]; [lia|]. destruct (print_decimal e) as [He _]; [lia|].
    rewrite !bool_decide_eq_true_2 by done. rewrite !toInt_print by lia.
    by replace ((s <? 0) || (e <? s)) with false by lia.
  - rewrite split_two by (try apply decimal_plain; try lia; apply not_elem_of_nil). cbn [length Nat.ltb Nat.leb].
    destruct (print_decimal s) as [Hs _]; [lia|]. rewrite bool_decide_eq_true_2 by done.
    rewrite toInt_print by lia. by replace (s <? 0) with false by lia.
  - change (45 :: print_number 10 n) with ([] ++ 45 :: print_number 10 n).
    rewrite split_two by (try apply decimal_plain; try lia; apply not_elem_of_nil). cbn [length Nat.ltb Nat.leb].
    destruct (print_decimal n) as [Hn _]; [lia|]. rewrite bool_decide_eq_false_2 by (by intros []).
    rewrite bool_decide_eq_true_2 by done. rewrite toInt_print by lia. by replace (n <? 0) with false by lia.
Qed.

(** A [Range] header of these texts gives them to the loop. *)
Lemma getRanges_texts r texts :
  getHeader (str "Range") r = str "bytes=" ++ join [44] texts → texts ≠ [] → Forall (λ t, 44 ∉ t) texts →
  getRanges r = vs ← ranges_values texts; Ret (texts, vs).
Proof.
  intros Hr Hne Ht. unfold getRanges. rewrite Hr, sfind_here, bool_decide_eq_true_2 by done.
  unfold replaceFirst. rewrite sfind_here. unfold sreplace. rewrite take_0, Nat.add_0_l, drop_app_length.
  cbn [app]. by rewrite split_of_join.
Qed.

(** Byte ranges.  A [Range] header written with one or more well-formed
    ranges, each "a-b", "a-" or "-n" with numbers that fit an [int], is read as
    exactly those ranges, in order. *)
Theorem ranges_roundtrip r ranges :
  ranges ≠ [] → Forall range_ok ranges →
  getHeader (str "Range") r = str "bytes=" ++ join [44] (map render_range ranges) →
  getRanges r = Ret (map render_range ranges, map range_value ranges).
Proof.
  intros Hne Hok Hr.
  assert (Forall (λ t, 44 ∉ t) (map render_range ranges)) as Ht.
  { apply Forall_map. eapply Forall_impl; [exact Hok|]. cbn. intros x Hx Hin.
    destruct (range_chars x Hx) as [Hc _]. rewrite Forall_forall in Hc. apply Hc in Hin. lia. }
  rewrite (getRanges_texts r (map render_range ranges)) by (done || by destruct ranges).
  enough (ranges_values (map render_range ranges) = Ret (map range_value ranges)) as -> by done.
  clear Hne Hr Ht. induction Hok as [|x l Hx Hl IH]; [done|]. cbn [map ranges_values].
  by rewrite range_values_render, bind_Ret_l, IH, bind_Ret_l.
Qed.

Definition range_request (v : string) : HttpRequest :=
  match reset false (render_head (str "GET") (str "/") 1 [(str "Range", str v)]) 0 HttpRequest_new with
  | Ret (r, _) => r | _ => HttpRequest_new
  end.

Example ranges_roundtrip_witness :
  getRanges (range_request "bytes=0-499,1000-,-5")
  = Ret (map render_range [Between 0 499; From 1000; Last 5], [(0, 499); (1000, -1); (-1, 5)]).
Proof.
  apply (ranges_roundtrip _ [Between 0 499; From 1000; Last 5]); [done|repeat constructor; lia|vm_compute; reflexivity].
Defined.

(** A range without a hyphen.  The code asks for the second part of every
    range, so one range without a hyphen makes the whole call throw. *)
Theorem range_without_hyphen r before t after :
  getHeader (str "Range") r = str "bytes=" ++ join [44] (before ++ t :: after) →
  Forall (λ t, 44 ∉ t) (before ++ t :: after) → 45 ∉ trim t → getRanges r = Throw Out_of_range.
Proof.
  intros Hr Ht Hd. rewrite (getRanges_texts r (before ++ t :: after)) by (done || by destruct before).
  enough (ranges_values (before ++ t :: after) = Throw Out_of_range) as -> by done.
  clear Hr Ht. induction before as [|s l IH]; cbn [app ranges_values].
  - unfold range_values. pose proof (split_of_join 45 [trim t]) as E. cbn [join] in E.
    rewrite E by (by repeat constructor).
    cbn [length Nat.ltb Nat.leb]. by case_bool_decide.
  - rewrite IH. unfold range_values. repeat case_match; done.
Qed.

Example range_without_hyphen_witness : getRanges (range_request "bytes=0-4,77") = Throw Out_of_range.
Proof.
  apply (range_without_hyphen _ [str "0-4"] (str "77") []); [vm_compute; reflexivity| |].
  - by repeat (constructor; [apply (bool_decide_eq_true_1 (44 ∉ _)); vm_compute|]).
  - by apply (bool_decide_eq_true_1 (45 ∉ _)); vm_compute.
Defined.
