(* ===== verification/HttpResponse.v ===== *)
(** * HttpResponse

    The response object of HTTP/1 connections ([http/HttpResponse.cpp],
    [http/HTTPResponseStatus.cpp]): its headers, the content it takes from a file,
    the heads it writes, content in chunks, and the writer of a connection
    ([Http11Handler::writeResponse], the same code in [Http11Socket::handle]).

    Outside are the file system, which is a map from names to contents, what it
    says about times, the clock, the table of MIME types, and the compressors. *)

From S2P Require Import Prelude StdMap StdString StringUtil Http1Parser HttpRequest Multipart.

(** ** Status *)

Record HTTPResponseStatus := mkStatus { code : Z; msg : bytes }.

(** [statuses] after [init]; 401 is set twice. *)
Definition statuses : list (Z * bytes) :=
  [(100, str "Continue"); (101, str "Switching protocols"); (200, str "OK"); (201, str "Created"); (202, str "Accepted");
   (203, str "Non-authoritative information"); (204, str "No content"); (205, str "Reset content");
   (206, str "Partial content"); (302, str "Object moved"); (303, str "Moved Permanently"); (304, str "Not modified");
   (307, str "Temporary redirect"); (400, str "Bad request");
   (401, str "Unauthorized" ++ crlf ++ str "WWW-Authenticate: Invalid authentication details");
   (403, str "Forbidden"); (404, str "Not Found");
   (405, str "HTTP verb used to access this page is not allowed (method not allowed)");
   (406, str "Client browser does not accept the MIME type of the requested page"); (407, str "Proxy authentication required");
   (412, str "Precondition failed"); (413, str "Request entity too large"); (414, str "Request-URL too long");
   (415, str "Unsupported media type"); (416, str "Requested range not satisfiable"); (417, str "Execution failed");
   (423, str "Locked error"); (500, str "Internal server error");
   (501, str "Header values specify a configuration that is not implemented"); (502, str "Bad Gateway");
   (503, str "Service unavailable"); (504, str "Gateway timeout"); (505, str "HTTP version not supported")].

Definition status_by_code (c : Z) : HTTPResponseStatus := mkStatus c (default [] (mfind c statuses)).
Abbreviation Ok := (status_by_code 200).
Abbreviation PartialContent := (status_by_code 206).
Abbreviation NotModified := (status_by_code 304).
Abbreviation NotFound := (status_by_code 404).
Abbreviation InvalidReqRange := (status_by_code 416).

(** [getResponseLine]: by the code; a code without a line gives nothing. *)
Definition getResponseLine (s : HTTPResponseStatus) (version : Z) : bytes :=
  match mfind (code s) statuses with
  | Some m => (if version <? 11 then str "HTTP/1.0 " else str "HTTP/1.1 ") ++ fromNumber (code s) ++ [32] ++ m ++ crlf
  | None => []
  end.

(** ** The environment *)

Class Environment := {
  dateStr : bytes;                              (* CommonUtils::getDateStr, header lines *)
  current_time : Z;                             (* Timer::getCurrentTime *)
  getMimeType : bytes → bytes;
  last_modified : bytes → bytes;                (* of a file, as a header value *)
  not_modified_since : bytes → bytes → option bool; (* file and header; none if the header does not parse *)
  compress : bool → bytes → bytes               (* gzip or deflate *)
}.

Abbreviation files := (gmap bytes bytes).
Definition fopen (fs : files) (name : bytes) : option bytes := fs !! c_string name.

(** ** The object *)


Record HttpResponse := mkRes {
  done_ : bool;
  httpVers : Z;                    (* in tenths *)
  conn_clos : bool;
  httpVersion : bytes;
  res_status : HTTPResponseStatus;
  res_content : bytes;
  cookies : list bytes;
  res_headers : list (bytes * bytes);
  contentList : list MultipartContent;
  techunkSiz : Z;
  teparts : Z;
  tecurrpart : Z;
  hasContent : bool;
  intCntLen : Z                    (* uint32_t *)
}.

Definition HttpResponse_new : HttpResponse :=
  mkRes false 11 false (str "HTTP/1.1") NotFound [] [] [] [] 0 0 0 false (2 ^ 32 - 1).

(** [reset] leaves [conn_clos]. *)
Definition res_reset (r : HttpResponse) : HttpResponse :=
  mkRes false 11 (conn_clos r) (str "HTTP/1.1") NotFound [] [] [] [] 0 0 0 false (2 ^ 32 - 1).

Definition set_status (s : HTTPResponseStatus) (r : HttpResponse) : HttpResponse :=
  mkRes (done_ r) (httpVers r) (conn_clos r) (httpVersion r) s (res_content r) (cookies r) (res_headers r) (contentList r)
    (techunkSiz r) (teparts r) (tecurrpart r) (hasContent r) (intCntLen r).
Definition set_res_content (c : bytes) (r : HttpResponse) : HttpResponse :=
  mkRes (done_ r) (httpVers r) (conn_clos r) (httpVersion r) (res_status r) c (cookies r) (res_headers r) (contentList r)
    (techunkSiz r) (teparts r) (tecurrpart r) (hasContent r) (intCntLen r).
Definition set_headers (m : list (bytes * bytes)) (r : HttpResponse) : HttpResponse :=
  mkRes (done_ r) (httpVers r) (conn_clos r) (httpVersion r) (res_status r) (res_content r) (cookies r) m (contentList r)
    (techunkSiz r) (teparts r) (tecurrpart r) (hasContent r) (intCntLen r).
Definition set_parts (size parts curr : Z) (r : HttpResponse) : HttpResponse :=
  mkRes (done_ r) (httpVers r) (conn_clos r) (httpVersion r) (res_status r) (res_content r) (cookies r) (res_headers r) (contentList r)
    size parts curr (hasContent r) (intCntLen r).
Definition set_hasContent (b : bool) (r : HttpResponse) : HttpResponse :=
  mkRes (done_ r) (httpVers r) (conn_clos r) (httpVersion r) (res_status r) (res_content r) (cookies r) (res_headers r) (contentList r)
    (techunkSiz r) (teparts r) (tecurrpart r) b (intCntLen r).
Definition set_version (n : Z) (v : bytes) (r : HttpResponse) : HttpResponse :=
  mkRes (done_ r) n (conn_clos r) v (res_status r) (res_content r) (cookies r) (res_headers r) (contentList r)
    (techunkSiz r) (teparts r) (tecurrpart r) (hasContent r) (intCntLen r).

Definition set_size (n : Z) (r : HttpResponse) : HttpResponse :=
  mkRes (done_ r) (httpVers r) (conn_clos r) (httpVersion r) (res_status r) (res_content r) (cookies r) (res_headers r) (contentList r)
    (techunkSiz r) (teparts r) (tecurrpart r) (hasContent r) n.

(** [setContent]. *)
Definition res_setContent (c : bytes) (r : HttpResponse) : HttpResponse :=
  let r := set_res_content c r in if 0 <? slen c then set_hasContent true r else r.
Definition setDone (b : bool) (r : HttpResponse) : HttpResponse :=
  mkRes b (httpVers r) (conn_clos r) (httpVersion r) (res_status r) (res_content r) (cookies r) (res_headers r) (contentList r)
    (techunkSiz r) (teparts r) (tecurrpart r) (hasContent r) (intCntLen r).
Definition addContent (p : MultipartContent) (r : HttpResponse) : HttpResponse :=
  mkRes (done_ r) (httpVers r) (conn_clos r) (httpVersion r) (res_status r) (res_content r) (cookies r) (res_headers r)
    (contentList r ++ [p]) (techunkSiz r) (teparts r) (tecurrpart r) (hasContent r) (intCntLen r).

(** [update]. *)
Definition update (req : HttpRequest) (r : HttpResponse) : HttpResponse :=
  mkRes (done_ r) (HttpRequest.httpVers req) (isClose req) (HttpRequest.httpVersion req) (res_status r) (res_content r) (cookies r)
    (res_headers r) (contentList r) (techunkSiz r) (teparts r) (tecurrpart r) (hasContent r) (intCntLen r).

(** ** Headers *)

(** [addHeader], the code of [HttpRequest::addHeader]. *)
Definition addHeader (header v : bytes) (r : HttpResponse) : HttpResponse :=
  set_headers (add_to_headers header v (res_headers r)) r.
Definition setContentType (v : bytes) (r : HttpResponse) : HttpResponse :=
  set_headers (mset (str "Content-Type") v (res_headers r)) r.
Definition hasHeader (header : bytes) (r : HttpResponse) : bool :=
  match mfind header (res_headers r) with Some v => 0 <? slen v | None => false end.
Definition isHeaderValue (header v : bytes) (r : HttpResponse) : bool :=
  match mfind header (res_headers r) with
  | Some w => bool_decide (c_string w = c_string v) || strcaseeq w v
  | None => false
  end.
Definition getHeader (header : bytes) (r : HttpResponse) : bytes :=
  if 0 <? slen header then default [] (mfind header (res_headers r)) else [].

(** ** Reading files *)

Definition getContentSize (fs : files) (fileName : bytes) (r : HttpResponse) : Z * HttpResponse :=
  if negb (wraps 32 (intCntLen r) =? -1) then (intCntLen r, r)
  else
    let siz := wrapu 32 (slen (default [] (fopen fs fileName))) in
    (siz, set_size siz r).

(** [getContent] of a file: all of it, or a string of [end_] bytes with what the
    file has from [start] on; a negative size is a [length_error]. *)
Definition getContent (fs : files) (fileName : bytes) (start end_ : Z) : outcome bytes :=
  match fopen fs fileName with
  | None => Ret []
  | Some data =>
      if (start =? -1) && (end_ =? -1) then Ret data
      else if end_ <? 0 then Throw Runtime_error
      else
        let got := if start <? 0 then [] else take (Z.to_nat end_) (drop (Z.to_nat start) data) in
        Ret (got ++ replicate (Z.to_nat end_ - length got) 0)
  end.

(** ** The number of chunks, a [float] *)

(** Division to the nearest, ties to even. *)
Definition rne (a b : Z) : Z :=
  let '(q, r) := (a / b, a mod b) in
  if 2 * r <? b then q else if b <? 2 * r then q + 1 else if Z.even q then q else q + 1.
(** A whole number as a [float], which has 24 significant bits. *)
Definition float_of (n : Z) : Z :=
  if n <? 2 ^ 24 then n else let e := Z.log2 n - 23 in rne n (2 ^ e) * 2 ^ e.
(** The quotient of two positive whole [float]s, rounded up: the quotient is
    [m * 2^e] with 24 bits in [m]. *)
Definition float_div_ceil (a b : Z) : Z :=
  if a =? 0 then 0
  else
    let e := Z.log2 a - Z.log2 b - 23 in
    let e := if (if 0 <=? e then a <? b * 2 ^ (e + 23) else a * 2 ^ (- e) <? b * 2 ^ 23) then e - 1 else e in
    if 0 <=? e then rne a (b * 2 ^ e) * 2 ^ e
    else let m := rne (a * 2 ^ (- e)) b in (m + 2 ^ (- e) - 1) / 2 ^ (- e).
Definition chunk_parts (totlen techunkSiz : Z) : Z := float_div_ceil (float_of totlen) (float_of techunkSiz).

(** ** Filling the content *)

Section content.
Context `{env : !Environment}.

(** The parts of a range response. *)
Definition range_part (fs : files) (fname type text : bytes) (v : Z * Z) (totlen : Z) (r : HttpResponse) : outcome HttpResponse :=
  let '(start, end_) := v in
  if negb (end_ =? -1) && (wraps 32 totlen <=? end_) && negb (start =? -1) && (start <? wraps 32 totlen) then Ret r
  else
    let start := if start =? -1 then 0 else start in
    end_ ← (if end_ =? -1 then Ret (wraps 32 (totlen - 1)) else checked_int (end_ + 1));
    cont ← getContent fs fname start end_;
    let hs := mset (str "Content-Range") (str "bytes " ++ text ++ [47] ++ fromNumber totlen)
                (mset (str "Content-Type") type []) in
    Ret (addContent (mkPart hs cont [] [] []) r).

(** The texts and values go together by position. *)
Fixpoint range_parts (fs : files) (fname type : bytes) (texts : list bytes) (vs : list (Z * Z)) (totlen : Z) (r : HttpResponse)
    : outcome HttpResponse :=
  match vs with
  | [] => Ret r
  | v :: vs =>
      match texts with
      | [] => Throw Out_of_range
      | t :: texts => r ← range_part fs fname type t v totlen r; range_parts fs fname type texts vs totlen r
      end
  end.

(** A response of a file: the not-modified test, compression into a file beside it,
    and ranges.  [inl] is an early return. *)
Definition file_response (fs : files) (req : HttpRequest) (fname root : bytes) (texts : list bytes) (vs : list (Z * Z))
    (gz df : bool) (r : HttpResponse) : outcome ((files * bytes * HttpResponse) + (files * bytes * HttpResponse)) :=
  match fopen fs fname with
  | None => Ret (inl (fs, fname, set_status NotFound r))
  | Some _ =>
      let hdr := HttpRequest.getHeader (str "If-Modified-Since") req in
      let since := if bool_decide (hdr = []) then None else not_modified_since fname hdr in
      if bool_decide (since = Some true) then
        Ret (inl (fs, fname, set_status NotModified (addHeader (str "Last-Modified") hdr r)))
      else
        let forceLoadFile := bool_decide (since = Some false) in
        let r := addHeader (str "Last-Modified") (last_modified fname) r in
        let '(fs, fname) :=
          if gz || df then
            let ofname := root ++ str "/temp/" ++ file req ++ str (if gz then ".gz" else ".z") in
            let fs :=
              if negb forceLoadFile && bool_decide (is_Some (fopen fs ofname)) then fs
              else <[c_string ofname := compress gz (default [] (fopen fs fname))]> fs in
            (fs, ofname)
          else (fs, fname) in
        if (HttpRequest.httpVers req <? 11) && bool_decide (vs ≠ []) then Ret (inl (fs, fname, set_status InvalidReqRange r))
        else if bool_decide (vs ≠ []) then
          let r := addHeader (str "Content-Type") (str "multipart/byteranges") (set_status PartialContent r) in
          let '(totlen, r) := getContentSize fs fname r in
          let r := addHeader (str "Content-Length") (fromNumber totlen) r in
          r ← range_parts fs fname (getMimeType (ext req)) texts vs totlen r;
          Ret (inr (fs, fname, r))
        else Ret (inr (fs, fname, r))
  end.

(** The end of [updateContent]: chunks, or all of the file as the content. *)
Definition finish_content (fs : files) (req : HttpRequest) (fname : bytes) (chunkSize : Z) (r : HttpResponse) : outcome HttpResponse :=
  let '(totlen, r) := getContentSize fs fname r in
  r ← (if (0 <? chunkSize) && (chunkSize <? totlen) then
         let r := set_res_content [] (set_parts (wraps 32 chunkSize) (chunk_parts totlen chunkSize) (tecurrpart r) r) in
         Ret (if (11 <=? httpVers r) && (httpVers r <? 12) then addHeader (str "Transfer-Encoding") (str "chunked") r
              else addHeader (str "Content-Length") (fromNumber totlen) r)
       else
         data ← getContent fs fname (-1) (-1);
         Ret (addHeader (str "Content-Length") (fromNumber (wraps 32 (slen data))) (set_res_content data r)));
  Ret (set_hasContent true (addHeader (str "Content-Type") (getMimeType (ext req)) (set_status Ok r))).

(** [updateContent]; [url] and [root] are the request's [getUrl] and
    [getCntxt_root].  The files and the url can change. *)
Definition updateContent (fs : files) (req : HttpRequest) (url root : bytes) (chunkSize : Z) (r : HttpResponse)
    : outcome (files * bytes * HttpResponse) :=
  let r := set_version (HttpRequest.httpVers req) (HttpRequest.httpVersion req) (set_hasContent false r) in
  '(texts, vs) ← getRanges req;
  if bool_decide (url = [47]) then Ret (fs, url, set_status NotFound r)
  else
    m ← read_view (methodv req);
    m ← (match m with c :: _ => Ret c | [] => Undefined end);
    if m =? 72 then
      let '(n, r) := getContentSize fs url r in
      Ret (fs, url, addHeader (str "Content-Type") (getMimeType (ext req))
                      (set_status Ok (addHeader (str "Accept-Ranges") (str "bytes") (addHeader (str "Content-Length") (fromNumber n) r))))
    else if (m =? 79) || (m =? 84) then Ret (fs, url, set_status Ok r)
    else
      let gz := isHeaderValue (str "Content-Encoding") (str "gzip") r in
      let df := isHeaderValue (str "Content-Encoding") (str "deflate") r in
      x ← (if bool_decide (contentList r = []) then
             if bool_decide (res_content r = []) then file_response fs req url root texts vs gz df r
             else
               let c := res_content r in
               let c := if gz then compress true c else c in
               let c := if df then compress false c else c in
               Ret (inr (fs, url, set_res_content c r))
           else Ret (inr (fs, url, r)));
      match x with
      | inl y => Ret y
      | inr (fs, fname, r) => r ← finish_content fs req fname chunkSize r; Ret (fs, fname, r)
      end.

(** ** Content in chunks *)

Definition isContentRemains (r : HttpResponse) : bool := (0 <? teparts r) && (tecurrpart r <? teparts r).

(** [getRemainingContent]: whether there was more, and the output. *)
Definition getRemainingContent (fs : files) (fname : bytes) (isFirst : bool) (rem : bytes) (r : HttpResponse)
    : outcome (bool * bytes * HttpResponse) :=
  if isContentRemains r && (11 <=? httpVers r) then
    let '(totlen, r) := getContentSize fs fname r in
    from ← checked_int (techunkSiz r * tecurrpart r);
    let len := wrapu 32 (totlen - from) in
    let len := if techunkSiz r <? wraps 32 len then wrapu 32 (techunkSiz r) else len in
    c ← getContent fs fname from (wraps 32 len);
    next ← checked_int (tecurrpart r + 1);
    let rem :=
      if httpVers r <? 20 then
        rem ++ toHEX 32 len ++ crlf ++ c ++ crlf ++ (if next =? teparts r then str "0" ++ crlf ++ crlf else [])
      else c in
    Ret (true, rem, set_parts (techunkSiz r) (teparts r) next r)
  else if isFirst || ((10 <=? httpVers r) && (httpVers r <? 11)) then Ret (true, res_content r, r)
  else Ret (false, rem, r).

(** ** Heads *)

Definition header_lines (m : list (bytes * bytes)) : bytes := flat_map (λ kv, kv.1 ++ str ": " ++ kv.2 ++ crlf) m.
Definition cookie_lines (l : list bytes) : bytes := flat_map (λ c, str "Set-Cookie: " ++ c ++ crlf) l.

(** The multipart body of the parts, and its boundary. *)
Definition boundary : bytes := str "FFEAD_SERVER_" ++ fromNumber current_time.
Definition multipart_body (parts : list MultipartContent) : bytes :=
  flat_map (λ p, str "--" ++ boundary ++ crlf ++ header_lines (p_headers p) ++ crlf ++ p_content p ++ crlf) parts
  ++ str "--" ++ boundary ++ str "--" ++ crlf.

(** The multipart step of [generateHeadResponse]. *)
Definition with_multipart (r : HttpResponse) : HttpResponse :=
  if bool_decide (contentList r = []) then r
  else
    let r := set_res_content (multipart_body (contentList r)) r in
    let r := if hasHeader (str "Content-Type") r then r else addHeader (str "Content-Type") (str "multipart/mixed") r in
    match mfind (str "Content-Type") (res_headers r) with
    | Some v => if 0 <? slen v then set_headers (mset (str "Content-Type") (v ++ str "; boundary=" ++ [34] ++ boundary ++ [34]) (res_headers r)) r else r
    | None => r
    end.

(** [generateHeadResponse(resp)]: what is appended, and the response. *)
Definition generateHeadResponse (r : HttpResponse) : bytes * HttpResponse :=
  let isTE := isHeaderValue (str "Transfer-Encoding") (str "chunked") r in
  let r := with_multipart r in
  (getResponseLine (res_status r) (httpVers r) ++ dateStr
   ++ (if negb isTE && negb (hasHeader (str "Content-Length") r)
       then str "Content-Length: " ++ fromNumber (wraps 32 (slen (res_content r))) ++ crlf else [])
   ++ header_lines (res_headers r) ++ cookie_lines (cookies r) ++ crlf, r).

(** [generateHeadResponseMinimal]. *)
Definition generateHeadResponseMinimal (contentType : bytes) (content_length : Z) (conn_clos : bool) (r : HttpResponse) : bytes :=
  let n := if content_length =? -1 then wraps 32 (slen (res_content r)) else content_length in
  getResponseLine Ok 11 ++ str "Content-Type: " ++ contentType ++ crlf
  ++ (if conn_clos then str "Connection: close" ++ crlf else str "Connection: keep-alive" ++ crlf) ++ dateStr
  ++ (if 0 <? n then str "Content-Length: " ++ fromNumber n else []) ++ crlf ++ crlf.

(** The status line of [getStatusLine], and the heads of OPTIONS and TRACE. *)
Definition getStatusLine (r : HttpResponse) : bytes := httpVersion r ++ [32] ++ fromNumber (code (res_status r)) ++ [32] ++ msg (res_status r).
Definition generateOptionsResponse (r : HttpResponse) : bytes :=
  getStatusLine r ++ crlf ++ str "Server: FFEAD 2.0" ++ crlf ++ dateStr ++ header_lines (res_headers r) ++ cookie_lines (cookies r)
  ++ str "Allow: OPTIONS, GET, HEAD, POST, PUT, DELETE, TRACE" ++ crlf ++ crlf.
Definition generateTraceResponse (req : HttpRequest) (actUrl : bytes) (r : HttpResponse) : bytes :=
  getStatusLine r ++ crlf ++ str "Server: FFEAD 2.0" ++ crlf ++ dateStr ++ header_lines (res_headers r) ++ cookie_lines (cookies r) ++ crlf
  ++ str "TRACE " ++ actUrl ++ [32] ++ HttpRequest.httpVersion req ++ crlf ++ header_lines (res_headers r).

(** [generateResponse(req, data, appendHeaders)]: [at(0)] of an empty method throws. *)
Definition generateResponse (req : HttpRequest) (actUrl : bytes) (appendHeaders : bool) (r : HttpResponse) : outcome (bytes * HttpResponse) :=
  m ← read_view (methodv req);
  c ← at_ m 0;
  if (c =? 111) || (c =? 79) then Ret (generateOptionsResponse r, r)
  else if (c =? 116) || (c =? 84) then Ret (generateTraceResponse req actUrl r, r)
  else
    let '(h, r) := generateHeadResponse r in
    Ret (if appendHeaders then h ++ res_content r else h, r).

(** ** Writing a response *)

(** The loop over the chunks. *)
Fixpoint remaining_loop (fuel : nat) (fs : files) (url : bytes) (isFirst : bool) (data : bytes) (r : HttpResponse) : outcome (bytes * HttpResponse) :=
  match fuel with
  | O => Out_of_fuel
  | S fuel' =>
      if hasContent r then
        '(more, data, r) ← getRemainingContent fs url isFirst data r;
        if (more : bool) then remaining_loop fuel' fs url false data r else Ret (data, r)
      else Ret (data, r)
  end.

Definition set_connection (req : HttpRequest) (r : HttpResponse) : HttpResponse :=
  if isClose req then addHeader (str "Connection") (str "close") r
  else if 11 <=? HttpRequest.httpVers req then addHeader (str "Connection") (str "keep-alive") r
  else r.

(** [writeResponse] into the empty buffer of a response.  On HTTP/1.1 the loop
    makes a round for every chunk and one more. *)
Definition writeResponse (fs : files) (req : HttpRequest) (url actUrl root : bytes) (chunkSize : Z) (r : HttpResponse)
    : outcome (bytes * files * HttpResponse) :=
  let r := set_connection req r in
  if done_ r then '(d, r) ← generateResponse req actUrl true r; Ret (d, fs, r)
  else
    '(fs, url, r) ← updateContent fs req url root chunkSize r;
    if isContentRemains r then
      '(d, r) ← generateResponse req actUrl false r;
      '(d, r) ← remaining_loop (S (S (Z.to_nat (teparts r)))) fs url true d r;
      Ret (d, fs, r)
    else '(d, r) ← generateResponse req actUrl true r; Ret (d, fs, r).
End content.

(** ** The number of chunks *)

Lemma rne_le a b n : 0 < b → a ≤ n * b → rne a b ≤ n.
Proof.
  intros Hb H. unfold rne. pose proof (Z.div_mod a b ltac:(lia)). pose proof (Z.mod_pos_bound a b Hb).
  repeat case_match; nia.
Qed.
Lemma rne_ge a b n : 0 < b → (2 * n + 1) * b < 2 * a → n + 1 ≤ rne a b.
Proof.
  intros Hb H. unfold rne. pose proof (Z.div_mod a b ltac:(lia)). pose proof (Z.mod_pos_bound a b Hb).
  repeat case_match; nia.
Qed.

Lemma ceil_unique x b q : 0 < b → (q - 1) * b < x ≤ q * b → (x + b - 1) / b = q.
Proof. intros Hb H. symmetry. apply Z.div_unique with (r := x + b - 1 - q * b); lia. Qed.

Lemma float_div_ceil_exact a b : 0 < b < a → a < 2 ^ 24 → float_div_ceil a b = (a + b - 1) / b.
Proof.
  intros Hb Ha. unfold float_div_ceil. replace (a =? 0) with false by lia.
  pose proof (Z.log2_spec a ltac:(lia)) as [La1 La2]. pose proof (Z.log2_spec b ltac:(lia)) as [Lb1 Lb2].
  pose proof (Z.log2_le_mono b a ltac:(lia)). pose proof (Z.log2_nonneg b).
  assert (Z.log2 a < 24) as La by (apply Z.log2_lt_pow2; lia).
  set (la := Z.log2 a) in *. set (lb := Z.log2 b) in *. set (e0 := la - lb - 23).
  assert (∃ k, 0 < k ∧ b * 2 ^ 23 ≤ a * 2 ^ k ∧
            ((if 0 <=? e0 then a <? b * 2 ^ (e0 + 23) else a * 2 ^ (- e0) <? b * 2 ^ 23) = true ∧ k = - (e0 - 1) ∨
             (if 0 <=? e0 then a <? b * 2 ^ (e0 + 23) else a * 2 ^ (- e0) <? b * 2 ^ 23) = false ∧ k = - e0) ∨
          b = 1 ∧ e0 = 0 ∧ (a <? b * 2 ^ (e0 + 23)) = false) as Hk.
  { destruct (0 <=? e0) eqn:E0.
    - assert (la = 23 ∧ lb = 0) as [E1 E2] by lia. exists 0. right. unfold e0. rewrite E1, E2 in *.
      change (2 ^ Z.succ 0) with 2 in Lb2. change (2 ^ (23 - 0 - 23 + 23)) with (2 ^ 23). split; [lia|]. split; [lia|].
      apply Z.ltb_ge. lia.
    - assert (b * 2 ^ 23 ≤ 2 * (a * 2 ^ (- e0))) as Hn.
      { assert (2 ^ la * 2 ^ (- e0) = 2 ^ 23 * 2 ^ lb) as Hp by (rewrite <- !Z.pow_add_r by lia; f_equal; lia).
        rewrite Z.pow_succ_r in Lb2 by lia. pose proof (Z.pow_pos_nonneg 2 (- e0) ltac:(lia) ltac:(lia)). nia. }
      destruct (a * 2 ^ (- e0) <? b * 2 ^ 23) eqn:E1.
      + exists (- (e0 - 1)). left. split; [lia|]. split; [|by left].
        replace (- (e0 - 1)) with (Z.succ (- e0)) by lia. rewrite Z.pow_succ_r by lia. lia.
      + exists (- e0). left. split; [lia|]. split; [lia|by right]. }
  destruct Hk as [k [(Hk & Hn & Hc)|(-> & E0 & Hc)]].
  - assert ((if 0 <=? - k then rne a (b * 2 ^ (- k)) * 2 ^ (- k)
             else (rne (a * 2 ^ (- (- k))) b + 2 ^ (- (- k)) - 1) / 2 ^ (- (- k))) = (a + b - 1) / b) as <-.
    2:{ destruct Hc as [[-> ->]|[-> ->]]; [by replace (- (- (e0 - 1))) with (e0 - 1) by lia|by replace (- (- e0)) with e0 by lia]. }
    replace (0 <=? - k) with false by lia. replace (- (- k)) with k by lia.
    set (q := (a + b - 1) / b). assert ((q - 1) * b < a ≤ q * b) as Hq.
    { pose proof (Z.div_mod (a + b - 1) b ltac:(lia)). pose proof (Z.mod_pos_bound (a + b - 1) b ltac:(lia)). fold q in H1. nia. }
    pose proof (Z.pow_pos_nonneg 2 k ltac:(lia) ltac:(lia)) as Hp. apply ceil_unique; [lia|]. split.
    + apply Z.lt_le_trans with ((q - 1) * 2 ^ k + 1); [lia|]. apply rne_ge; [lia|]. nia.
    + apply rne_le; [lia|]. nia.
  - rewrite E0 in *. change (0 <=? 0) with true. cbv iota. rewrite Hc. change (0 <=? 0) with true. cbv iota.
    change (1 * 2 ^ 0) with 1. change (2 ^ 0) with 1. unfold rne. rewrite !Z.div_1_r, Z.mod_1_r. change (2 * 0 <? 1) with true. cbv iota. lia.
Qed.

Lemma chunk_parts_exact totlen c : 0 < c < totlen → totlen < 2 ^ 24 → chunk_parts totlen c = (totlen + c - 1) / c.
Proof.
  intros Hc Ht. unfold chunk_parts, float_of. replace (totlen <? 2 ^ 24) with true by lia.
  replace (c <? 2 ^ 24) with true by lia. by apply float_div_ceil_exact.
Qed.

(** The number of chunks.  It is computed in [float]; below 2^24 bytes it is the
    exact number, and for a file of 2^24+1 bytes it is one less. *)
Theorem chunk_parts_float totlen c :
  (0 < c < totlen → totlen < 2 ^ 24 → (chunk_parts totlen c - 1) * c < totlen ≤ chunk_parts totlen c * c) ∧
  chunk_parts (2 ^ 24 + 1) 1024 * 1024 = 2 ^ 24.
Proof.
  split; [|by vm_compute]. intros Hc Ht. rewrite chunk_parts_exact by done.
  pose proof (Z.div_mod (totlen + c - 1) c ltac:(lia)). pose proof (Z.mod_pos_bound (totlen + c - 1) c ltac:(lia)). nia.
Qed.

(** ** Chunks *)

Definition chunk_text (p : bytes) : bytes := toHEX 32 (slen p) ++ crlf ++ p ++ crlf.
Fixpoint pieces (n c : nat) (data : bytes) : list bytes :=
  match n with O => [] | S n => take c data :: pieces n c (drop c data) end.

Lemma pieces_concat n c data : concat (pieces n c data) = take (n * c) data.
Proof.
  revert data. induction n as [|n IH]; intros data; [done|]. cbn [pieces concat]. rewrite IH.
  change (S n * c)%nat with (c + n * c)%nat. by rewrite take_plus_app || rewrite <- (take_drop c (take (c + n * c) data)), take_take, Nat.min_l, skipn_firstn_comm, Nat.add_comm, Nat.add_sub by lia.
Qed.

(** There is something in every piece when the last one starts inside the data. *)
Definition reaches (n c : nat) (data : bytes) : Prop := match n with O => True | S n => (n * c < length data)%nat end.

Lemma reaches_drop n c data : reaches (S n) c data → reaches n c (drop c data).
Proof. destruct n as [|n]; [done|]. cbn. rewrite length_drop. lia. Qed.

Lemma pieces_lengths n c data : reaches n c data → (0 < c)%nat → Forall (λ p, 0 < slen p ≤ Z.of_nat c) (pieces n c data).
Proof.
  revert data. induction n as [|n IH]; intros data Hl Hc; constructor.
  - unfold slen. rewrite length_take. cbn in Hl. nia.
  - apply IH; [|done]. by apply reaches_drop.
Qed.

Section responses.
Context `{env : !Environment}.
Implicit Types (r : HttpResponse) (fs : files).

(** The part of the state the chunk loop reads. *)
Definition chunking (version c parts curr total : Z) r : Prop :=
  httpVers r = version ∧ techunkSiz r = c ∧ teparts r = parts ∧ tecurrpart r = curr ∧ hasContent r = true ∧ intCntLen r = total.

Lemma getContentSize_cached fs fname r : 0 ≤ intCntLen r < 2 ^ 31 → getContentSize fs fname r = (intCntLen r, r).
Proof.
  intros H. unfold getContentSize. rewrite wraps_small by lia. by replace (intCntLen r =? -1) with false by lia.
Qed.

Lemma getContent_slice fs fname data from len :
  fopen fs fname = Some data → 0 ≤ from → 0 ≤ len → from + len ≤ slen data →
  getContent fs fname from len = Ret (take (Z.to_nat len) (drop (Z.to_nat from) data)).
Proof.
  intros Hf H1 H2 H3. unfold getContent. rewrite Hf. replace ((from =? -1) && (len =? -1)) with false by lia.
  replace (len <? 0) with false by lia. replace (from <? 0) with false by lia.
  assert (length (take (Z.to_nat len) (drop (Z.to_nat from) data)) = Z.to_nat len) as ->
    by (rewrite length_take, length_drop; unfold slen in H3; lia).
  by rewrite Nat.sub_diag, app_nil_r.
Qed.

Definition last_chunk : bytes := str "0" ++ crlf ++ crlf.

(** One round of the loop on HTTP/1.1. *)
Lemma one_chunk fs url data b rem c parts curr r :
  chunking 11 (Z.of_nat c) parts curr (slen data) r → fopen fs url = Some data → slen data < 2 ^ 31 → (0 < c)%nat →
  0 ≤ curr < parts → Z.of_nat c * curr < slen data → parts < 2 ^ 31 → Z.of_nat c < 2 ^ 31 →
  getRemainingContent fs url b rem r =
    Ret (true, rem ++ chunk_text (take c (drop (Z.to_nat (Z.of_nat c * curr)) data)) ++ (if curr + 1 =? parts then last_chunk else []),
         set_parts (Z.of_nat c) parts (curr + 1) r).
Proof.
  intros (Hv & Hc & Hp & Hcur & _ & Hn) Hf Hl Hc0 Hcurr Hin Hp31 Hc31. unfold getRemainingContent, isContentRemains.
  rewrite Hp, Hcur, Hv. replace ((0 <? parts) && (curr <? parts) && (11 <=? 11)) with true by lia.
  rewrite getContentSize_cached by (rewrite Hn; pose proof (slen_nonneg data); lia).
  rewrite Hc, Hcur, Hn. rewrite (checked_int_Ret (Z.of_nat c * curr)) by nia. rewrite bind_Ret_l.
  rewrite (wrapu_small 32 (slen data - _)) by lia. rewrite wraps_small by lia. rewrite (wrapu_small 32 (Z.of_nat c)) by lia.
  set (len := if Z.of_nat c <? slen data - Z.of_nat c * curr then Z.of_nat c else slen data - Z.of_nat c * curr).
  assert (0 ≤ len ∧ len ≤ Z.of_nat c ∧ Z.of_nat c * curr + len ≤ slen data ∧
          (len = Z.of_nat c ∨ Z.of_nat c * curr + len = slen data)) as (Hl1 & Hl2 & Hl3 & Hl4)
    by (unfold len; destruct (_ <? _) eqn:E; lia).
  rewrite wraps_small by lia. rewrite (getContent_slice fs url data) by (done || lia). rewrite bind_Ret_l.
  rewrite checked_int_Ret by lia. rewrite bind_Ret_l, Hv, Hp. change (11 <? 20) with true. cbv iota.
  assert (take (Z.to_nat len) (drop (Z.to_nat (Z.of_nat c * curr)) data) = take c (drop (Z.to_nat (Z.of_nat c * curr)) data)) as Ht.
  { destruct Hl4 as [->|E]; [by rewrite Nat2Z.id|]. rewrite !firstn_all2; [done|..]; rewrite length_drop; unfold slen in *; lia. }
  assert (slen (take c (drop (Z.to_nat (Z.of_nat c * curr)) data)) = len) as Hlen.
  { rewrite <- Ht. unfold slen. rewrite length_take, length_drop. unfold slen in *. lia. }
  rewrite Ht. unfold chunk_text. rewrite Hlen, <- !app_assoc. done.
Qed.

Lemma chunking_next v c parts curr curr' total r : chunking v c parts curr total r → chunking v c parts curr' total (set_parts c parts curr' r).
Proof. unfold chunking. cbn. naive_solver. Qed.

(** The whole loop. *)
Lemma chunk_loop fs url data c n : ∀ fuel b rem curr r parts,
  chunking 11 (Z.of_nat c) parts curr (slen data) r → fopen fs url = Some data → slen data < 2 ^ 31 → (0 < c)%nat →
  parts = curr + Z.of_nat n → 0 ≤ curr → parts < 2 ^ 31 → Z.of_nat c < 2 ^ 31 → (b = true → n ≠ 0%nat) →
  reaches n c (drop (Z.to_nat (Z.of_nat c * curr)) data) → (n < fuel)%nat →
  remaining_loop fuel fs url b rem r =
    Ret (rem ++ concat (map chunk_text (pieces n c (drop (Z.to_nat (Z.of_nat c * curr)) data))) ++ (if bool_decide (n = 0%nat) then [] else last_chunk),
         set_parts (Z.of_nat c) parts parts r).
Proof.
  induction n as [|n IH]; intros fuel b rem curr r parts Hr Hf Hl Hc Hp Hcur Hp31 Hc31 Hb Hre Hfu;
    (destruct fuel as [|fuel]; [lia|]); cbn [remaining_loop]; pose proof Hr as (Hv & Hcz & Hpz & Hcuz & Hhc & Hn); rewrite Hhc.
  - unfold getRemainingContent, isContentRemains. rewrite Hpz, Hcuz, Hv. replace (curr <? parts) with false by lia.
    rewrite andb_false_r. cbn [andb]. destruct b; [by destruct Hb|]. change ((10 <=? 11) && (11 <? 11)) with false. cbn [orb].
    rewrite bind_Ret_l. cbn [pieces map concat app]. rewrite bool_decide_eq_true_2, app_nil_r by done. do 2 f_equal.
    symmetry. rewrite <- Hcz. transitivity (set_parts (techunkSiz r) (teparts r) (tecurrpart r) r); [f_equal; lia|by destruct r].
  - cbn [reaches] in Hre. rewrite length_drop in Hre.
    rewrite (one_chunk fs url data b rem c parts curr r) by (done || unfold slen; lia). rewrite bind_Ret_l.
    rewrite (IH fuel false _ (curr + 1) _ parts).
    + replace (Z.to_nat (Z.of_nat c * (curr + 1))) with (Z.to_nat (Z.of_nat c * curr) + c)%nat by nia.
      rewrite <- drop_drop. cbn [pieces map concat]. rewrite (bool_decide_eq_false_2 (S n = 0%nat)) by done.
      rewrite <- !app_assoc. destruct n as [|n].
      * replace (curr + 1 =? parts) with true by lia. cbn [pieces map concat]. rewrite bool_decide_eq_true_2 by done. by rewrite app_nil_r.
      * replace (curr + 1 =? parts) with false by lia. by rewrite bool_decide_eq_false_2.
    + by apply chunking_next with (curr := curr).
    + done.
    + done.
    + done.
    + lia.
    + lia.
    + done.
    + done.
    + done.
    + replace (Z.to_nat (Z.of_nat c * (curr + 1))) with (Z.to_nat (Z.of_nat c * curr) + c)%nat by nia.
      rewrite <- drop_drop. apply reaches_drop. cbn [reaches]. by rewrite length_drop.
    + lia.
Qed.

(** ** Responses of files *)

(** A GET request without ranges and conditions. *)
Definition plain_get (version : Z) (req : HttpRequest) : Prop :=
  (∃ c m, methodv req = View (c :: m) ∧ c ∉ [72; 79; 84; 111; 116]) ∧ HttpRequest.httpVers req = version ∧
  HttpRequest.getHeader (str "Range") req = [] ∧ HttpRequest.getHeader (str "If-Modified-Since") req = [].

(** A response no handler has touched. *)
Definition untouched (req : HttpRequest) r : HttpResponse := update req (res_reset r).

Definition connection_value (req : HttpRequest) : bytes := if isClose req then str "close" else str "keep-alive".
Definition connection_headers (version : Z) (req : HttpRequest) : list (bytes * bytes) :=
  if isClose req then [(str "Connection", str "close")]
  else if 11 <=? version then [(str "Connection", str "keep-alive")] else [].

Lemma set_connection_headers req r :
  res_headers r = [] → set_connection req r = set_headers (connection_headers (HttpRequest.httpVers req) req) r.
Proof.
  intros Hr. unfold set_connection, connection_headers. destruct (isClose req); [unfold addHeader; by rewrite Hr|].
  destruct (11 <=? _); [unfold addHeader; by rewrite Hr|]. destruct r; cbn in *; by subst.
Qed.

Lemma no_ranges req : HttpRequest.getHeader (str "Range") req = [] → getRanges req = Ret ([], []).
Proof. intros H. unfold getRanges. rewrite H. reflexivity. Qed.

Lemma updateContent_file fs req url root chunk data version r :
  plain_get version req → url ≠ [47] → fopen fs url = Some data → contentList r = [] → res_content r = [] →
  mfind (str "Content-Encoding") (res_headers r) = None →
  updateContent fs req url root chunk r =
    r' ← finish_content fs req url chunk
           (addHeader (str "Last-Modified") (last_modified url) (set_version version (HttpRequest.httpVersion req) (set_hasContent false r)));
    Ret (fs, url, r').
Proof.
  intros ((c & m & Hm & Hc) & Hv & Hr & Hi) Hu Hf Hcl Hco Hce. unfold updateContent. rewrite no_ranges by done. rewrite bind_Ret_l.
  rewrite bool_decide_eq_false_2 by done. rewrite Hm. cbn [read_view]. rewrite !bind_Ret_l.
  rewrite !not_elem_of_cons in Hc. replace (c =? 72) with false by lia. replace ((c =? 79) || (c =? 84)) with false by lia.
  unfold isHeaderValue. cbn [set_version set_hasContent contentList res_content res_headers]. rewrite Hcl, Hco, Hce.
  rewrite !bool_decide_eq_true_2 by done. unfold file_response. rewrite Hf, Hi. rewrite (bool_decide_eq_true_2 ([] = [])) by done.
  cbn [orb]. rewrite !(bool_decide_eq_false_2 (None = _)) by done. rewrite (bool_decide_eq_false_2 ([] ≠ [])) by (by intros []).
  rewrite andb_false_r, bind_Ret_l. by rewrite Hv.
Qed.

Lemma status_ok : getResponseLine (status_by_code 200) 11 = str "HTTP/1.1 200 OK" ++ crlf.
Proof. by vm_compute. Qed.

Lemma at_0_head (c : Z) m : at_ (c :: m) 0 = Ret c.
Proof. apply at_0. Qed.

(** A request that is not OPTIONS or TRACE gets a head and, if asked for, the content. *)
Lemma generateResponse_get version req act ap r :
  plain_get version req →
  generateResponse req act ap r =
    Ret (if ap then (generateHeadResponse r).1 ++ res_content (generateHeadResponse r).2 else (generateHeadResponse r).1, (generateHeadResponse r).2).
Proof.
  intros ((c & m & Hm & Hc) & _). unfold generateResponse. rewrite Hm. cbn [read_view]. rewrite bind_Ret_l, at_0, bind_Ret_l.
  rewrite !not_elem_of_cons in Hc. replace ((c =? 111) || (c =? 79)) with false by lia. replace ((c =? 116) || (c =? 84)) with false by lia.
  by destruct (generateHeadResponse r).
Qed.

(** The head of a 200 response without parts. *)
Lemma head_ok r :
  contentList r = [] → res_status r = status_by_code 200 → httpVers r = 11 →
  (isHeaderValue (str "Transfer-Encoding") (str "chunked") r = true ∨ hasHeader (str "Content-Length") r = true) →
  generateHeadResponse r = (str "HTTP/1.1 200 OK" ++ crlf ++ dateStr ++ header_lines (res_headers r) ++ cookie_lines (cookies r) ++ crlf, r).
Proof.
  intros Hc Hs Hv Hh. unfold generateHeadResponse, with_multipart. rewrite Hc, bool_decide_eq_true_2 by done. rewrite Hs, Hv, status_ok.
  replace (negb _ && negb _) with false by (destruct Hh as [-> | ->]; by rewrite ?andb_false_r). by rewrite <- !app_assoc.
Qed.

Lemma content_size_fresh fs fname data r :
  intCntLen r = 2 ^ 32 - 1 → fopen fs fname = Some data → slen data < 2 ^ 31 →
  getContentSize fs fname r = (slen data, set_size (slen data) r).
Proof.
  intros Hi Hf Hl. unfold getContentSize. rewrite Hi. change (wraps 32 (2 ^ 32 - 1)) with (-1). cbn [negb Z.eqb]. rewrite Hf.
  pose proof (slen_nonneg data). cbn [default]. unfold id. by rewrite wrapu_small by lia.
Qed.

Lemma finish_chunked fs req url chunk data version r :
  intCntLen r = 2 ^ 32 - 1 → httpVers r = version → fopen fs url = Some data → 0 < chunk < slen data → slen data < 2 ^ 31 →
  finish_content fs req url chunk r =
    Ret (set_hasContent true (addHeader (str "Content-Type") (getMimeType (ext req)) (set_status (status_by_code 200)
      ((if (11 <=? version) && (version <? 12) then addHeader (str "Transfer-Encoding") (str "chunked")
        else addHeader (str "Content-Length") (fromNumber (slen data)))
         (set_res_content [] (set_parts chunk (chunk_parts (slen data) chunk) (tecurrpart r) (set_size (slen data) r))))))).
Proof.
  intros Hi Hv Hf Hc Hl. unfold finish_content. rewrite (content_size_fresh fs url data) by done.
  replace ((0 <? chunk) && (chunk <? slen data)) with true by lia. rewrite bind_Ret_l. cbn [set_res_content set_parts set_size httpVers tecurrpart].
  rewrite Hv, wraps_small by lia. by destruct ((11 <=? version) && (version <? 12)).
Qed.

Lemma finish_whole fs req url chunk data r :
  intCntLen r = 2 ^ 32 - 1 → fopen fs url = Some data → chunk ≤ 0 ∨ slen data ≤ chunk → slen data < 2 ^ 31 →
  finish_content fs req url chunk r =
    Ret (set_hasContent true (addHeader (str "Content-Type") (getMimeType (ext req)) (set_status (status_by_code 200)
      (addHeader (str "Content-Length") (fromNumber (slen data)) (set_res_content data (set_size (slen data) r)))))).
Proof.
  intros Hi Hf Hc Hl. unfold finish_content. rewrite (content_size_fresh fs url data) by done.
  replace ((0 <? chunk) && (chunk <? slen data)) with false by lia. unfold getContent. rewrite Hf.
  change ((-1 =? -1) && (-1 =? -1)) with true. cbv iota. rewrite !bind_Ret_l. pose proof (slen_nonneg data). by rewrite wraps_small by lia.
Qed.

(** The headers of a file, in the order of their names. *)
Lemma file_headers_chunked a b c :
  add_to_headers (str "Content-Type") b (add_to_headers (str "Transfer-Encoding") (str "chunked")
    (add_to_headers (str "Last-Modified") c [(str "Connection", a)])) =
  [(str "Connection", a); (str "Content-Type", b); (str "Last-Modified", c); (str "Transfer-Encoding", str "chunked")].
Proof. by vm_compute. Qed.

Lemma file_headers_whole a b c d :
  add_to_headers (str "Content-Type") b (add_to_headers (str "Content-Length") d
    (add_to_headers (str "Last-Modified") c [(str "Connection", a)])) =
  [(str "Connection", a); (str "Content-Length", d); (str "Content-Type", b); (str "Last-Modified", c)].
Proof. by vm_compute. Qed.

Definition file_head (req : HttpRequest) (url : bytes) : bytes :=
  str "HTTP/1.1 200 OK" ++ crlf ++ dateStr
  ++ header_lines [(str "Connection", connection_value req); (str "Content-Type", getMimeType (ext req));
                   (str "Last-Modified", last_modified url); (str "Transfer-Encoding", str "chunked")] ++ crlf.

Lemma chunked_response fs req url act root chunk data r :
  plain_get 11 req → url ≠ [47] → fopen fs url = Some data → 0 < chunk < slen data → slen data < 2 ^ 31 →
  let parts := chunk_parts (slen data) chunk in
  0 < parts < 2 ^ 31 → reaches (Z.to_nat parts) (Z.to_nat chunk) data →
  ∃ r', writeResponse fs req url act root chunk (untouched req r) =
    Ret (file_head req url ++ concat (map chunk_text (pieces (Z.to_nat parts) (Z.to_nat chunk) data)) ++ last_chunk, fs, r').
Proof.
  intros Hg Hu Hf Hch Hl parts Hp Hre. assert (HttpRequest.httpVers req = 11) as Hv by apply Hg.
  unfold writeResponse. rewrite set_connection_headers by done. rewrite Hv.
  assert (connection_headers 11 req = [(str "Connection", connection_value req)]) as ->
    by (unfold connection_headers, connection_value; by destruct (isClose req)).
  cbn [done_ set_headers untouched update res_reset].
  rewrite (updateContent_file fs req url root chunk data 11) by done.
  rewrite (finish_chunked fs req url chunk data 11) by (done || lia). change ((11 <=? 11) && (11 <? 12)) with true. cbv iota.
  rewrite !bind_Ret_l. fold parts. set (r1 := set_hasContent _ _).
  assert (chunking 11 (Z.of_nat (Z.to_nat chunk)) parts 0 (slen data) r1) as Hr1 by (rewrite Z2Nat.id by lia; by repeat split).
  assert (isContentRemains r1 = true) as -> by (unfold isContentRemains; destruct Hr1 as (_ & _ & -> & -> & _); lia).
  rewrite (generateResponse_get 11) by done.
  assert (res_headers r1 = [(str "Connection", connection_value req); (str "Content-Type", getMimeType (ext req));
                          (str "Last-Modified", last_modified url); (str "Transfer-Encoding", str "chunked")]) as Hh1
    by (unfold r1, untouched; cbn -[add_to_headers]; by rewrite file_headers_chunked).
  rewrite head_ok; [|done|done|done|left; unfold isHeaderValue; by rewrite Hh1].
  rewrite Hh1, bind_Ret_l. change (cookie_lines (cookies r1)) with (@nil Z). cbn [fst snd].
  replace (teparts r1) with parts by done.
  rewrite (chunk_loop fs url data (Z.to_nat chunk) (Z.to_nat parts) _ true _ 0 r1 parts) by
    (done || lia || (rewrite ?Z.mul_0_r, ?drop_0; done)).
  rewrite bind_Ret_l. rewrite bool_decide_eq_false_2 by lia. eexists. do 3 f_equal. rewrite Z.mul_0_r. cbn [Z.to_nat]. rewrite drop_0. done.
Qed.

(** C21: A large file over HTTP/1.1.  A plain GET of a file larger than the chunk size
    and smaller than 2^24 bytes is answered with status 200 and the chunked encoding
    of the file: non-empty chunks of at most the chunk size that together are the
    file, then the last chunk. *)
Theorem large_file_chunked fs req url act root chunk data r :
  plain_get 11 req → url ≠ [47] → fopen fs url = Some data → 0 < chunk < slen data → slen data < 2 ^ 24 →
  ∃ ps r', writeResponse fs req url act root chunk (untouched req r) =
    Ret (file_head req url ++ concat (map chunk_text ps) ++ last_chunk, fs, r') ∧
    concat ps = data ∧ Forall (λ p, 0 < slen p ≤ chunk) ps.
Proof.
  intros Hg Hu Hf Hch Hl. set (parts := chunk_parts (slen data) chunk) in *.
  assert ((parts - 1) * chunk < slen data ≤ parts * chunk) as Hp.
  { unfold parts. rewrite chunk_parts_exact by lia. pose proof (Z.div_mod (slen data + chunk - 1) chunk ltac:(lia)).
    pose proof (Z.mod_pos_bound (slen data + chunk - 1) chunk ltac:(lia)). nia. }
  assert (reaches (Z.to_nat parts) (Z.to_nat chunk) data) as Hre.
  { unfold reaches, slen in *. destruct (Z.to_nat parts) as [|n] eqn:E; [done|]. nia. }
  destruct (chunked_response fs req url act root chunk data r) as [r' Hw]; try done; [lia|fold parts; nia|].
  exists (pieces (Z.to_nat parts) (Z.to_nat chunk) data), r'. split; [exact Hw|]. split.
  - rewrite pieces_concat, firstn_all2; [done|]. unfold slen in *. nia.
  - eapply Forall_impl; [apply pieces_lengths; [done|lia]|]. cbn. lia.
Qed.

(** A larger file.  A file of 2^24+1 bytes in chunks of 1024 is answered without
    its last byte, and the last chunk says that it is complete. *)
Theorem larger_file_truncated fs req url act root data r :
  plain_get 11 req → url ≠ [47] → fopen fs url = Some data → slen data = 2 ^ 24 + 1 →
  ∃ ps r', writeResponse fs req url act root 1024 (untouched req r) =
    Ret (file_head req url ++ concat (map chunk_text ps) ++ last_chunk, fs, r') ∧
    concat ps = take (length data - 1) data.
Proof.
  intros Hg Hu Hf Hl. assert (chunk_parts (slen data) 1024 = 16384) as Hp by (rewrite Hl; by vm_compute).
  destruct (chunked_response fs req url act root 1024 data r) as [r' Hw]; try done; [lia|lia|rewrite Hp; lia| |].
  { rewrite Hp. unfold reaches, slen in *. destruct (Z.to_nat 16384) as [|n] eqn:E; [done|]. nia. }
  exists (pieces (Z.to_nat 16384) (Z.to_nat 1024) data), r'. rewrite Hp in Hw. split; [exact Hw|].
  rewrite pieces_concat. f_equal. unfold slen in *. lia.
Qed.

(** ** HTTP/1.0 *)

Lemma old_version_loops fuel fs url : ∀ b rem r,
  hasContent r = true → httpVers r = 10 → remaining_loop fuel fs url b rem r = Out_of_fuel.
Proof.
  induction fuel as [|fuel IH]; intros b rem r Hh Hv; [done|]. cbn [remaining_loop]. rewrite Hh.
  unfold getRemainingContent. rewrite Hv. change (11 <=? 10) with false. change ((10 <=? 10) && (10 <? 11)) with true.
  rewrite andb_false_r, orb_true_r, bind_Ret_l. auto.
Qed.

(** A large file over HTTP/1.0.  The loop over the chunks does not end: no number
    of rounds is enough, and every round throws away what was to be sent.  One such
    request blocks the thread. *)
Theorem http10_large_file_diverges fs req url act root chunk data r :
  plain_get 10 req → url ≠ [47] → fopen fs url = Some data → 0 < chunk < slen data → slen data < 2 ^ 24 →
  writeResponse fs req url act root chunk (untouched req r) = Out_of_fuel ∧
  (∀ fuel b rem r', hasContent r' = true → httpVers r' = 10 → remaining_loop fuel fs url b rem r' = Out_of_fuel).
Proof.
  intros Hg Hu Hf Hch Hl. assert (HttpRequest.httpVers req = 10) as Hv by apply Hg.
  split; [|intros; by apply old_version_loops].
  unfold writeResponse. rewrite set_connection_headers by done. rewrite Hv.
  cbn [done_ set_headers untouched update res_reset].
  assert (mfind (str "Content-Encoding") (connection_headers 10 req) = None) by (unfold connection_headers; by destruct (isClose req)).
  rewrite (updateContent_file fs req url root chunk data 10) by done.
  rewrite (finish_chunked fs req url chunk data 10) by (done || lia). change ((11 <=? 10) && (10 <? 12)) with false. cbv iota.
  rewrite !bind_Ret_l. set (r1 := set_hasContent _ _).
  assert (isContentRemains r1 = true) as ->.
  { unfold isContentRemains, r1. cbn [teparts tecurrpart set_hasContent addHeader set_headers set_status set_res_content set_parts set_size
      set_version untouched update res_reset]. rewrite chunk_parts_exact by lia.
    pose proof (Z.div_mod (slen data + chunk - 1) chunk ltac:(lia)). pose proof (Z.mod_pos_bound (slen data + chunk - 1) chunk ltac:(lia)). nia. }
  rewrite (generateResponse_get 10) by done. rewrite bind_Ret_l. set (r2 := (generateHeadResponse r1).2).
  assert (r2 = r1) as ->.
  { unfold r2, generateHeadResponse, with_multipart. by rewrite bool_decide_eq_true_2. }
  by rewrite old_version_loops.
Qed.

(** ** Small files *)

(** The response to a GET of a file that is sent whole. *)
Definition whole_text (req : HttpRequest) (url data : bytes) : bytes :=
  (str "HTTP/1.1 200 OK" ++ crlf ++ dateStr
   ++ header_lines [(str "Connection", connection_value req); (str "Content-Length", fromNumber (slen data));
                    (str "Content-Type", getMimeType (ext req)); (str "Last-Modified", last_modified url)] ++ crlf) ++ data.

Lemma whole_response fs req url act root chunk data r :
  plain_get 11 req → url ≠ [47] → fopen fs url = Some data → chunk ≤ 0 ∨ slen data ≤ chunk → slen data < 2 ^ 31 →
  ∃ r', writeResponse fs req url act root chunk (untouched req r) = Ret (whole_text req url data, fs, r').
Proof.
  intros Hg Hu Hf Hch Hl. assert (HttpRequest.httpVers req = 11) as Hv by apply Hg.
  unfold writeResponse. rewrite set_connection_headers by done. rewrite Hv.
  assert (connection_headers 11 req = [(str "Connection", connection_value req)]) as ->
    by (unfold connection_headers, connection_value; by destruct (isClose req)).
  cbn [done_ set_headers untouched update res_reset].
  rewrite (updateContent_file fs req url root chunk data 11) by done.
  rewrite (finish_whole fs req url chunk data) by (done || lia). rewrite !bind_Ret_l. set (r1 := set_hasContent _ _).
  change (isContentRemains r1) with false. cbv iota.
  rewrite (generateResponse_get 11) by done.
  assert (res_headers r1 = [(str "Connection", connection_value req); (str "Content-Length", fromNumber (slen data));
                           (str "Content-Type", getMimeType (ext req)); (str "Last-Modified", last_modified url)]) as Hh1
    by (unfold r1, untouched; cbn -[add_to_headers fromNumber]; by rewrite file_headers_whole).
  assert (fromNumber (slen data) ≠ []) as Hne.
  { pose proof (slen_nonneg data). unfold fromNumber. rewrite wrapu_small by lia. apply print_decimal. lia. }
  rewrite head_ok; [|done|done|done|right; unfold hasHeader; rewrite Hh1; pose proof (slen_pos _ Hne);
    change (mfind _ _) with (Some (fromNumber (slen data))); cbv iota; lia].
  rewrite Hh1, bind_Ret_l. change (cookie_lines (cookies r1)) with (@nil Z). eexists. do 3 f_equal.
Qed.

(** A value a field can have. *)
Definition value_ok (v : bytes) : Prop :=
  Forall (λ c, is_ctl c = false) v ∧ (∀ c, head v = Some c → is_blank c = false) ∧ (∀ c, last v = Some c → is_blank c = false).

Lemma field_of_value nm v : nm ≠ [] → Forall (λ c, token_char c = true) nm → value_ok v → field_ok (nm, v).
Proof. intros ? ? (? & ? & ?). by split_and!. Qed.

Lemma digits_value_ok ds : Forall digit_ok ds → value_ok ds.
Proof.
  intros Hd. unfold value_ok, digit_ok, is_ctl, is_blank in *. rewrite Forall_forall in Hd. split_and!.
  - apply Forall_forall. intros c Hc. apply Hd in Hc. lia.
  - intros c Hc. destruct ds as [|d ds]; [done|]. injection Hc as <-. specialize (Hd d ltac:(by left)). lia.
  - intros c Hc. apply last_Some in Hc as [m ->]. specialize (Hd c). rewrite elem_of_app in Hd.
    specialize (Hd ltac:(right; by left)). lia.
Qed.

Lemma connection_value_ok req : value_ok (connection_value req).
Proof.
  unfold connection_value. destruct (isClose req); (split_and!; [by repeat constructor|by intros c [= <-]|by intros c [= <-]]).
Qed.

Lemma content_length_field n m : 0 ≤ m < 2 ^ 31 → header_content_length (phr_of (str "Content-Length", fromNumber m)) n = Ret m.
Proof.
  intros Hm. unfold header_content_length. cbn [phr_of name value fst snd].
  change ((slen (str "Content-Length") =? 14) && strncaseeq 14 (str "Content-Length") (str "content-length")) with true. cbv iota.
  unfold fromNumber. rewrite wrapu_small by lia. destruct (print_decimal m ltac:(lia)) as (_ & Hd & Hv).
  rewrite <- (app_nil_r (print_number 10 m)), content_digits_value; [|eapply Forall_impl; [exact Hd|]; unfold digit, digit_ok; cbn; lia|done|lia].
  unfold digits_value. unfold add_digit in Hv. rewrite Hv. by replace (m <? 2 ^ 31) with true by lia.
Qed.

(** C22: A file reaches the client.  What a plain GET of a file is answered with, when
    it is not sent in chunks, is read by the client's parser as status 200 with the
    fields of the server and a content length, and the bytes behind the head are the
    file. *)
Theorem small_file_reaches_client fs req url act root chunk data r date_fields n :
  plain_get 11 req → url ≠ [47] → fopen fs url = Some data → chunk ≤ 0 ∨ slen data ≤ chunk → slen data < 2 ^ 31 →
  dateStr = flat_map render_field date_fields → Forall field_ok date_fields → (length date_fields ≤ 90)%nat →
  fields_content_length date_fields n = Ret n → value_ok (getMimeType (ext req)) → value_ok (last_modified url) →
  ∃ out hlen r', writeResponse fs req url act root chunk (untouched req r) = Ret (out, fs, r') ∧
    phr_parse_response_fcp out 100 n =
      Ret (Z.of_nat hlen, Some (1, 200, str "OK",
            map phr_of (date_fields ++ [(str "Connection", connection_value req); (str "Content-Length", fromNumber (slen data));
                           (str "Content-Type", getMimeType (ext req)); (str "Last-Modified", last_modified url)])), slen data) ∧
    drop hlen out = data.
Proof.
  intros Hg Hu Hf Hch Hl Hdate Hdf Hdl Hcl Hmime Hlm. pose proof (slen_nonneg data).
  destruct (whole_response fs req url act root chunk data r) as [r' Hw]; try done.
  unfold whole_text in Hw. match type of Hw with _ = Ret (?h ++ _, _, _) => set (hd := h) in * end.
  exists (hd ++ data), (length hd), r'. split; [exact Hw|]. split; [|apply drop_app_length].
  set (hs := [_; _; _; _]). set (fields := date_fields ++ hs).
  assert (hd = render_response 1 200 (str "OK") fields) as Hhd.
  { unfold hd, render_response, fields. rewrite Hdate, flat_map_app. change (header_lines ?l) with (flat_map render_field l).
    change (str "HTTP/1.1 200 OK") with (str "HTTP/1." ++ [48 + 1; 32] ++ render_status 200 ++ [32] ++ str "OK"). by rewrite <- !app_assoc. }
  rewrite Hhd. change (Z.of_nat (length ?l)) with (slen l). apply response_parses; [lia|lia|split; [by repeat constructor|done]| | |].
  - apply Forall_app. split; [done|]. repeat constructor; cbn [fst snd];
      try done; try apply Hmime; try apply Hlm; try apply connection_value_ok;
      (unfold fromNumber; rewrite wrapu_small by lia; apply digits_value_ok, print_decimal; lia).
  - unfold fields, hs. rewrite length_app. cbn [length]. lia.
  - unfold fields, hs. clear -Hcl Hl H. revert Hcl. generalize n at 1 3. intros k Hk.
    assert (∀ l k, fields_content_length (date_fields ++ l) k = n ← fields_content_length date_fields k; fields_content_length l n) as ->.
    { clear. induction date_fields as [|x l' IH]; intros l k; [done|]. cbn [app fields_content_length].
      rewrite bind_assoc. destruct (header_content_length _ _); try done. rewrite !bind_Ret_l. apply IH. }
    rewrite Hk, bind_Ret_l. cbn [fields_content_length].
    change (header_content_length (phr_of (str "Connection", connection_value req)) n) with (Ret n). rewrite bind_Ret_l.
    rewrite content_length_field by lia. rewrite bind_Ret_l.
    change (header_content_length (phr_of (str "Content-Type", getMimeType (ext req))) (slen data)) with (Ret (slen data)). rewrite bind_Ret_l.
    by change (header_content_length (phr_of (str "Last-Modified", last_modified url)) (slen data)) with (Ret (slen data)).
Qed.
End responses.

(** ** Witnesses *)

Definition sample_date : list (bytes * bytes) := [(str "Date", str "Thu, 01 Jan 1970 00:00:00 GMT")].
#[local] Instance sample_environment : Environment := {|
  dateStr := flat_map render_field sample_date;
  current_time := 0;
  getMimeType := λ _, str "text/plain";
  last_modified := λ _, str "Thu, 01 Jan 1970 00:00:00 GMT";
  not_modified_since := λ _ _, None;
  compress := λ _ b, b
|}.

Definition sample_url : bytes := str "/w/a.txt".
Definition sample_request (version : bytes) : HttpRequest :=
  match reset false (str "GET /a.txt " ++ version ++ crlf ++ crlf) 0 HttpRequest_new with Ret (r, _) => r | _ => HttpRequest_new end.
Definition sample_files (data : bytes) : files := {[ sample_url := data ]}.

Lemma sample_plain : plain_get 11 (sample_request (str "HTTP/1.1")) ∧ plain_get 10 (sample_request (str "HTTP/1.0")).
Proof.
  assert (71 ∉ [72; 79; 84; 111; 116]) as H by (rewrite !elem_of_cons, elem_of_nil; lia).
  split; (split; [exists 71, [69; 84]; split; [by vm_compute|exact H]|]); split_and!; by vm_compute.
Defined.

Lemma sample_fopen data : fopen (sample_files data) sample_url = Some data.
Proof. unfold fopen, sample_files. change (c_string sample_url) with sample_url. apply lookup_singleton_eq. Defined.

(** 10 bytes in chunks of 4, a file of 2^24+1 bytes, and 3 bytes in one piece. *)
Lemma chunk_parts_float_witness : chunk_parts 10 4 = 3 ∧ (3 - 1) * 4 < 10 ≤ 3 * 4.
Proof. pose proof (proj1 (chunk_parts_float 10 4) ltac:(lia) ltac:(lia)) as H. by vm_compute in H |- *. Defined.

Lemma large_file_chunked_witness : ∃ ps r', 
  writeResponse (sample_files (str "0123456789")) (sample_request (str "HTTP/1.1")) sample_url (str "/a.txt") (str "/w") 4
    (untouched (sample_request (str "HTTP/1.1")) HttpResponse_new) =
  Ret (file_head (sample_request (str "HTTP/1.1")) sample_url ++ concat (map chunk_text ps) ++ last_chunk, sample_files (str "0123456789"), r') ∧
  concat ps = str "0123456789" ∧ Forall (λ p, 0 < slen p ≤ 4) ps.
Proof. apply large_file_chunked; [apply sample_plain|done|apply sample_fopen|done|done]. Defined.

Definition long_file : bytes := replicate (Z.to_nat (2 ^ 24 + 1)) 97.
Lemma larger_file_truncated_witness : ∃ ps r',
  writeResponse (sample_files long_file) (sample_request (str "HTTP/1.1")) sample_url (str "/a.txt") (str "/w") 1024
    (untouched (sample_request (str "HTTP/1.1")) HttpResponse_new) =
  Ret (file_head (sample_request (str "HTTP/1.1")) sample_url ++ concat (map chunk_text ps) ++ last_chunk, sample_files long_file, r') ∧
  concat ps = take (length long_file - 1) long_file.
Proof.
  apply larger_file_truncated; [apply sample_plain|done|apply sample_fopen|].
  unfold slen, long_file. rewrite length_replicate. apply Z2Nat.id. lia.
Defined.

Lemma http10_large_file_diverges_witness :
  writeResponse (sample_files (str "0123456789")) (sample_request (str "HTTP/1.0")) sample_url (str "/a.txt") (str "/w") 4
    (untouched (sample_request (str "HTTP/1.0")) HttpResponse_new) = Out_of_fuel.
Proof.
  refine (proj1 (http10_large_file_diverges _ (sample_request (str "HTTP/1.0")) _ _ _ _ (str "0123456789") _ _ _ _ _ _));
    [apply sample_plain|done|apply sample_fopen|done|done].
Defined.

Lemma small_file_reaches_client_witness : ∃ out hlen r',
  writeResponse (sample_files (str "abc")) (sample_request (str "HTTP/1.1")) sample_url (str "/a.txt") (str "/w") 4
    (untouched (sample_request (str "HTTP/1.1")) HttpResponse_new) = Ret (out, sample_files (str "abc"), r') ∧
  phr_parse_response_fcp out 100 (-1) =
    Ret (Z.of_nat hlen, Some (1, 200, str "OK",
          map phr_of (sample_date ++ [(str "Connection", connection_value (sample_request (str "HTTP/1.1")));
             (str "Content-Length", fromNumber (slen (str "abc"))); (str "Content-Type", getMimeType (ext (sample_request (str "HTTP/1.1"))));
             (str "Last-Modified", last_modified sample_url)])), slen (str "abc")) ∧
  drop hlen out = str "abc".
Proof.
  apply small_file_reaches_client;
    [apply sample_plain|done|apply sample_fopen|by right|done|done|by repeat constructor; try (by intros c [= <-])|cbn; lia|done|..];
    (split_and!; [by repeat constructor|by intros c [= <-]|by intros c [= <-]]).
Defined.
