(* ===== verification/WebRequest.v ===== *)
(** * WebRequest

    What the service task fills in of a request ([http/HttpRequest.cpp]): the URL it
    maps the path to, the query parameters ([yuarel_parse_query] of
    [common/yuarel.cpp]), and the parameters of form and multipart bodies.

    The files a multipart body uploads are the pairs of name and data the code writes;
    the nanosecond clock that names them is an argument. *)

From S2P Require Import Prelude StdMap StdString StringUtil TextCoding HttpRequest Multipart.

(** ** Query strings *)

(** A parameter as [yuarel_parse_query] leaves it: two pointers, which are what the
    buffer holds from there, and two lengths.  The length of a value that was not found
    is what the array held before. *)
Record yuarel_param := mkParam { key : bytes; key_len : Z; val : option bytes; val_len : option Z }.

(** [memchr] in the buffer: its terminator may be read, what is behind it may not. *)
Definition memchr (c : Z) (rest : bytes) (n : Z) : outcome (option nat) :=
  match find_first (Z.eqb c) (take (Z.to_nat n) rest) with
  | Some i => Ret (Some i)
  | None => if n <=? slen rest + 1 then Ret None else Undefined
  end.

(** A key and, behind the equals sign, a value. *)
Definition split_param (rest : bytes) (len : Z) (stale : option Z) : outcome yuarel_param :=
  m ← memchr 61 rest len;
  Ret (match m with
       | Some j => mkParam rest (Z.of_nat j) (Some (drop (S j) rest)) (Some (len - (Z.of_nat j + 1)))
       | None => mkParam rest len None stale
       end).

(** The loop: [n] entries are left of the array, [stale] are their old lengths.  The entry
    after the loop is written in any case. *)
Fixpoint parse_query_loop (n : nat) (rest : bytes) (query_len : Z) (stale : list (option Z)) : outcome (list yuarel_param) :=
  match n with
  | O => Undefined
  | S n' =>
      m ← memchr 38 rest query_len;
      match m with
      | Some i =>
          p ← split_param rest (Z.of_nat i) (default None (head stale));
          match val_len p with
          | None => Undefined
          | Some vl =>
              ps ← parse_query_loop n' (drop (S i) rest) (size_t (query_len - vl - key_len p - 2)) (tail stale);
              Ret (p :: ps)
          end
      | None => p ← split_param rest query_len (default None (head stale)); Ret [p]
      end
  end.

Definition max_params : nat := 100.

(** [yuarel_parse_query]; nothing is parsed if the buffer starts with its terminator. *)
Definition yuarel_parse_query (query : bytes) (query_len : Z) (stale : list (option Z)) : outcome (list yuarel_param) :=
  match query with
  | [] => Ret []
  | c :: _ => if c =? 0 then Ret [] else parse_query_loop max_params query query_len stale
  end.

(** [std::string(pointer, length)]. *)
Definition make_string (p : option bytes) (len : Z) : outcome bytes :=
  if 2 ^ 63 - 1 <? len then Throw Runtime_error
  else
    match p with
    | None => if len =? 0 then Ret [] else Throw Runtime_error
    | Some s => if len <=? slen s + 1 then Ret (take (Z.to_nat len) (s ++ [0])) else Undefined
    end.

Fixpoint store_params (ps : list yuarel_param) (m : list (bytes * bytes)) : outcome (list (bytes * bytes)) :=
  match ps with
  | [] => Ret m
  | p :: ps =>
      match val_len p with
      | None => Undefined
      | Some vl =>
          v ← make_string (val p) vl;
          k ← make_string (Some (key p)) (key_len p);
          store_params ps (mset k v m)
      end
  end.

(** The array after a parse. *)
Definition leave_lens (ps : list yuarel_param) (stale : list (option Z)) : list (option Z) :=
  map val_len ps ++ drop (length ps) stale.

(** ** The request *)

Record Urls := mkUrls { cntxt_root : bytes; url : bytes; curl : bytes; actUrl : bytes; actUrlParts : list bytes }.
Record Params := mkParams {
  val_lens : list (option Z);
  queryParams : list (bytes * bytes);
  requestParams : list (bytes * bytes);
  requestParamsF : list (bytes * MultipartContent);
  contentList : list MultipartContent;
  reqorderinf : list bytes;               (* a map from 1, 2, ... *)
  preamble : bytes;
  epilogue : bytes
}.
Record Auth := mkAuth {
  userName : bytes;
  password : bytes;
  authMethod : bytes;
  cookie : bool;
  cookieattrs : list (bytes * bytes);
  sessionAttributes : list (bytes * bytes);
  dirty : bool
}.
Record Extra := mkExtra {
  authinfo : list (bytes * bytes);
  authorderinf : list bytes;              (* a map from 1, 2, ... *)
  localeInfo : list bytes;
  authority : bytes;
  scheme : bytes
}.
Record WebRequest := mkWeb {
  base : HttpRequest; urls : Urls; params : Params; auth : Auth; content_boundary : bytes; extra : Extra
}.

Definition set_base (f : HttpRequest → HttpRequest) (w : WebRequest) : WebRequest :=
  mkWeb (f (base w)) (urls w) (params w) (auth w) (content_boundary w) (extra w).
Definition set_urls (f : Urls → Urls) (w : WebRequest) : WebRequest :=
  mkWeb (base w) (f (urls w)) (params w) (auth w) (content_boundary w) (extra w).
Definition set_params (f : Params → Params) (w : WebRequest) : WebRequest :=
  mkWeb (base w) (urls w) (f (params w)) (auth w) (content_boundary w) (extra w).
Definition set_auth (f : Auth → Auth) (w : WebRequest) : WebRequest :=
  mkWeb (base w) (urls w) (params w) (f (auth w)) (content_boundary w) (extra w).
Definition set_extra (f : Extra → Extra) (w : WebRequest) : WebRequest :=
  mkWeb (base w) (urls w) (params w) (auth w) (content_boundary w) (f (extra w)).
Definition set_ext_file (e f : bytes) (r : HttpRequest) : HttpRequest :=
  mkReq (headers_data r) (headers_list r) (headers r) (methodv r) (pathv r) (queryv r)
    (parser_pos r) (httpVers r) (httpVersion r) (cntxt_name r) e f (status r) (corsRequest r) (content r).
Definition setCntxt_name (n : bytes) (r : HttpRequest) : HttpRequest :=
  mkReq (headers_data r) (headers_list r) (headers r) (methodv r) (pathv r) (queryv r)
    (parser_pos r) (httpVers r) (httpVersion r) (View n) (ext r) (file r) (status r) (corsRequest r) (content r).
Definition setCntxt_root (root : bytes) : WebRequest → WebRequest :=
  set_urls (λ u, mkUrls root (url u) (curl u) (actUrl u) (actUrlParts u)).

(** The defaults, and what [reset] makes of them with a new head. *)
Definition WebRequest_new (r : HttpRequest) (stale : list (option Z)) : WebRequest :=
  mkWeb r (mkUrls [] [] [] [] []) (mkParams stale [] [] [] [] [] [] []) (mkAuth [] [] [] false [] [] false) [] (mkExtra [] [] [] [] []).

(** ** The URL *)

Definition getFileExtension (file : bytes) : bytes :=
  match find_last_of [46] file with Some i => drop i file | None => file end.

Definition setUrl (u : bytes) (w : WebRequest) : WebRequest :=
  let u := replaceFirst u (str "//") (str "/") in
  set_base (λ r, set_ext_file (getFileExtension u) (file r) r)
    (set_urls (λ x, mkUrls (cntxt_root x) u (curl x) (actUrl x) (actUrlParts x)) w).

(** What is in front of the last slash, and with it. *)
Definition upto_last_slash (u : bytes) : bytes := match find_last_of [47] u with Some i => take i u | None => u end.

Definition setFile (f : bytes) (w : WebRequest) : WebRequest :=
  let u := url (urls w) in
  let old := file (base w) in
  let u :=
    match find_last_of [47] u with
    | Some i => if bool_decide (old ≠ []) && bool_decide (is_Some (sfind old u)) then take (S i) u ++ f else u ++ [47] ++ f
    | None => u ++ [47] ++ f
    end in
  set_base (set_ext_file (getFileExtension f) f)
    (set_urls (λ x, mkUrls (cntxt_root x) u (curl x) (actUrl x) (actUrlParts x)) w).

(** [setActUrl]: the parts are appended to those there are. *)
Definition setActUrl (a : bytes) (w : WebRequest) : outcome WebRequest :=
  c ← at_ a 0;
  let au := if c =? 47 then drop 1 a else a in
  let parts := if bool_decide (au = []) then actUrlParts (urls w) else actUrlParts (urls w) ++ splitAndReturn au [47] false in
  let hasdot s := memb 46 s in
  let base' (r : HttpRequest) :=
    if bool_decide (au = []) then r
    else
      let r := match parts with
               | [p] => if hasdot p then r else setCntxt_name p r
               | p :: _ => setCntxt_name p r
               | [] => r
               end in
      match last parts with Some f => if hasdot f then set_ext_file (ext r) f r else r | None => r end in
  Ret (set_base base' (set_urls (λ x, mkUrls (cntxt_root x) (url x) (curl x) (if c =? 47 then a else 47 :: a) parts) w)).

(** The part of [normalizeUrl] on the path. *)
Definition normalize_path (path cntxt_name : bytes) (u : Urls) : outcome Urls :=
  c ← at_ path 0;
  let '(act, parts) :=
    if c =? 47 then
      let act := actUrl u ++ path in (act, actUrlParts u ++ splitAndReturn (drop 1 act) [47] false)
    else
      let act := actUrl u ++ drop 1 path in (47 :: act, actUrlParts u ++ splitAndReturn act [47] false) in
  if bool_decide (cntxt_name ≠ []) && match parts with p :: _ => bool_decide (p ≠ cntxt_name) | [] => false end then
    Ret (mkUrls (cntxt_root u) (cntxt_root u ++ act) ([47] ++ cntxt_name ++ act) act (cntxt_name :: parts))
  else
    match last (cntxt_root u) with
    | None => Throw Out_of_range
    | Some l =>
        let root := if l =? 47 then take (length (cntxt_root u) - 1) (cntxt_root u) else cntxt_root u in
        Ret (mkUrls (cntxt_root u) (upto_last_slash root ++ act) act act parts)
    end.

(** [normalizeUrl]. *)
Definition normalizeUrl (w : WebRequest) : outcome WebRequest :=
  path ← read_view (pathv (base w));
  cn ← read_view (cntxt_name (base w));
  u ← normalize_path path cn (urls w);
  query ← read_view (queryv (base w));
  let w := set_urls (λ _, u) w in
  if bool_decide (query = []) then Ret w
  else
    qd ← urlDecode query;
    ps ← yuarel_parse_query qd (slen qd) (val_lens (params w));
    qp ← store_params ps (queryParams (params w));
    Ret (set_params (λ x, mkParams (leave_lens ps (val_lens x)) qp (requestParams x) (requestParamsF x) (contentList x)
           (reqorderinf x) (preamble x) (epilogue x)) w).

(** ** Query strings: what is parsed *)

Definition query_item (kv : bytes * bytes) : bytes := kv.1 ++ [61] ++ kv.2.
Definition render_query (kvs : list (bytes * bytes)) : bytes := join [38] (map query_item kvs).
Definition query_kv_ok (kv : bytes * bytes) : Prop := (38 ∉ kv.1) ∧ (61 ∉ kv.1) ∧ (38 ∉ kv.2).

Definition param_of (kv : bytes * bytes) (p : yuarel_param) : Prop :=
  key_len p = slen kv.1 ∧ val_len p = Some (slen kv.2) ∧
  (∃ t, key p = kv.1 ++ t) ∧ (∃ t, val p = Some (kv.2 ++ t)).

Lemma find_first_eq_app c a t : c ∉ a → find_first (Z.eqb c) (a ++ c :: t) = Some (length a).
Proof.
  intros Ha. rewrite find_first_app with (a := a) (c := c) (t := t); [done| |apply Z.eqb_refl].
  apply Forall_forall. intros x Hx. apply Z.eqb_neq. intros ->. done.
Qed.
Lemma find_first_eq_None c a : c ∉ a → find_first (Z.eqb c) a = None.
Proof. intros Ha. apply find_first_None, Forall_forall. intros x Hx. apply Z.eqb_neq. by intros ->. Qed.

Lemma memchr_here c a t n : c ∉ a → slen a < n → memchr c (a ++ c :: t) n = Ret (Some (length a)).
Proof.
  intros Ha Hn. unfold memchr. unfold slen in Hn. rewrite take_app_ge by lia.
  replace (Z.to_nat n - length a)%nat with (S (Z.to_nat n - length a - 1)) by lia. cbn [take].
  by rewrite find_first_eq_app.
Qed.
Lemma memchr_none c s t : c ∉ s → memchr c (s ++ t) (slen s) = Ret None.
Proof.
  intros Hs. unfold memchr, slen. rewrite Nat2Z.id, take_app_length, find_first_eq_None by done.
  fold (slen s) (slen (s ++ t)). rewrite slen_app. pose proof (slen_nonneg t). by replace (slen s <=? _) with true by lia.
Qed.

Lemma drop_behind (a : bytes) c t : drop (S (length a)) (a ++ c :: t) = t.
Proof.
  replace (S (length a)) with (length (a ++ [c])) by (rewrite length_app; cbn; lia).
  replace (a ++ c :: t) with ((a ++ [c]) ++ t) by (by rewrite <- app_assoc). apply drop_app_length.
Qed.

Lemma split_param_item kv t stale :
  query_kv_ok kv → ∃ p, split_param (query_item kv ++ t) (slen (query_item kv)) stale = Ret p ∧ param_of kv p.
Proof.
  intros (_ & Hk & _). unfold split_param, query_item. rewrite <- !app_assoc. cbn [app].
  rewrite memchr_here by (done || solve_slen).
  rewrite bind_Ret_l. eexists. split; [reflexivity|]. unfold param_of. cbn [key_len val_len key val].
  rewrite !slen_app, slen_cons. split_and!; [done|f_equal; unfold slen; lia|by eexists|].
  exists t. f_equal. apply drop_behind.
Qed.

Lemma query_item_amp kv : query_kv_ok kv → 38 ∉ query_item kv.
Proof.
  intros (H1 & _ & H3). unfold query_item. rewrite !elem_of_app, elem_of_cons, elem_of_nil. intros [?|[[?|?]|?]]; (done || lia).
Qed.

(** One round: an item with another one behind it. *)
Lemma parse_query_round n kv rest stale :
  query_kv_ok kv → slen (query_item kv ++ 38 :: rest) < 2 ^ 63 →
  ∃ p, param_of kv p ∧
    parse_query_loop (S n) (query_item kv ++ 38 :: rest) (slen (query_item kv ++ 38 :: rest)) stale =
    (ps ← parse_query_loop n rest (slen rest) (tail stale); Ret (p :: ps)).
Proof.
  intros Hkv Hlen. cbn [parse_query_loop]. pose proof (query_item_amp kv Hkv) as Hno.
  rewrite memchr_here by (done || solve_slen). rewrite bind_Ret_l. fold (slen (query_item kv)).
  destruct (split_param_item kv (38 :: rest) (default None (head stale)) Hkv) as (p & -> & Hpo).
  exists p. split; [done|]. destruct Hpo as (Hkl & Hvl & Hk & Hv). rewrite bind_Ret_l, Hvl, Hkl, drop_behind.
  replace (size_t _) with (slen rest); [done|]. unfold size_t. unfold query_item in *. rewrite wrapu_small; solve_slen.
Qed.

Lemma parse_query_items kvs n stale :
  kvs ≠ [] → Forall query_kv_ok kvs → (length kvs ≤ n)%nat → slen (render_query kvs) < 2 ^ 63 →
  ∃ ps, parse_query_loop n (render_query kvs) (slen (render_query kvs)) stale = Ret ps ∧ Forall2 param_of kvs ps.
Proof.
  unfold render_query. revert n stale. induction kvs as [|kv kvs IH]; intros n stale Hne Hok Hn Hlen; [done|].
  destruct n as [|n]; [cbn in Hn; lia|]. apply Forall_cons in Hok as [Hkv Hok]. cbn [map] in *.
  destruct kvs as [|kv' kvs].
  - cbn [map join parse_query_loop]. pose proof (split_param_item kv [] (default None (head stale)) Hkv) as (p & Hp & Hpo).
    pose proof (memchr_none 38 _ [] (query_item_amp kv Hkv)) as Hm. rewrite app_nil_r in *. rewrite Hm, bind_Ret_l, Hp.
    eexists. split; [reflexivity|by constructor].
  - rewrite (join_cons [38]) in * by done. destruct (parse_query_round n kv (join [38] (map query_item (kv' :: kvs))) stale Hkv Hlen) as (p & Hpo & E).
    cbn [app] in *. rewrite E. destruct (IH n (tail stale)) as (ps & -> & Hps); [done|done|cbn in *; lia|rewrite slen_app, slen_cons in Hlen; pose proof (slen_nonneg (query_item kv)); lia|].
    eexists. split; [reflexivity|by constructor].
Qed.

Lemma parse_query_overflow kvs n stale :
  Forall query_kv_ok kvs → (n < length kvs)%nat → slen (render_query kvs) < 2 ^ 63 →
  parse_query_loop n (render_query kvs) (slen (render_query kvs)) stale = Undefined.
Proof.
  unfold render_query. revert n stale. induction kvs as [|kv kvs IH]; intros n stale Hok Hn Hlen; [cbn in Hn; lia|].
  destruct n as [|n]; [done|]. apply Forall_cons in Hok as [Hkv Hok]. cbn [map] in *.
  destruct kvs as [|kv' kvs]; [cbn in Hn; lia|]. rewrite (join_cons [38]) in * by done.
  destruct (parse_query_round n kv (join [38] (map query_item (kv' :: kvs))) stale Hkv Hlen) as (p & _ & E).
  cbn [app] in *. rewrite E. rewrite IH; [done|done|cbn in *; lia|rewrite slen_app, slen_cons in Hlen; pose proof (slen_nonneg (query_item kv)); lia].
Qed.

Lemma make_string_prefix s t : slen s < 2 ^ 63 → make_string (Some (s ++ t)) (slen s) = Ret s.
Proof.
  intros Hs. unfold make_string. replace (_ <? slen s) with false by lia. rewrite slen_app. pose proof (slen_nonneg t).
  replace (slen s <=? _) with true by lia. unfold slen. by rewrite Nat2Z.id, <- app_assoc, take_app_length.
Qed.

Lemma store_params_of kvs ps m :
  Forall2 param_of kvs ps → Forall (λ kv, slen kv.1 < 2 ^ 63 ∧ slen kv.2 < 2 ^ 63) kvs →
  store_params ps m = Ret (foldl (λ m kv, mset kv.1 kv.2 m) m kvs).
Proof.
  intros H. revert m. induction H as [|kv p kvs ps (Hkl & Hvl & [t Hk] & [t' Hv]) Hps IH]; intros m Hl; [done|].
  apply Forall_cons in Hl as [[Hl1 Hl2] Hl]. cbn [store_params foldl]. rewrite Hvl, Hkl, Hk, Hv.
  rewrite !make_string_prefix, !bind_Ret_l by done. by apply IH.
Qed.

Lemma render_query_length kv kvs :
  slen (query_item kv) ≤ slen (render_query (kv :: kvs)) ∧ slen (render_query kvs) ≤ slen (render_query (kv :: kvs)).
Proof.
  unfold render_query. cbn [map]. pose proof (slen_nonneg (query_item kv)).
  destruct kvs as [|kv' kvs]; [cbn; done|]. rewrite (join_cons [38]), !slen_app by done.
  pose proof (slen_nonneg (join [38] (map query_item (kv' :: kvs)))). change (slen [38]) with 1. lia.
Qed.

(** What [normalizeUrl] does with a query. *)
Definition query_parameters (qd : bytes) (stale : list (option Z)) (m : list (bytes * bytes)) : outcome (list (bytes * bytes)) :=
  ps ← yuarel_parse_query qd (slen qd) stale; store_params ps m.

Lemma yuarel_starts kvs stale :
  kvs ≠ [] → Forall query_kv_ok kvs → Forall (λ kv, head (kv.1 ++ [61]) ≠ Some 0) kvs →
  yuarel_parse_query (render_query kvs) (slen (render_query kvs)) stale =
  parse_query_loop max_params (render_query kvs) (slen (render_query kvs)) stale.
Proof.
  intros Hne Hok H0. destruct kvs as [|[k v] kvs]; [done|]. apply Forall_cons in H0 as [H0 _].
  unfold yuarel_parse_query. assert (∃ c t, render_query ((k, v) :: kvs) = c :: t ∧ c ≠ 0) as (c & t & -> & Hc).
  { unfold render_query. cbn [map]. destruct kvs as [|kv kvs]; [|rewrite (join_cons [38]) by done];
      (destruct k as [|c k]; [by eexists _, _|]); eexists _, _; (split; [reflexivity|]); cbn in H0; congruence. }
  by replace (c =? 0) with false by lia.
Qed.

(** Query strings.  Up to 100 parameters, each with an equals sign, are stored with their
    names and values, the last one of a name winning, whatever earlier requests left in the
    array; one more parameter is written behind the array. *)
Theorem query_string_parses kvs stale m :
  kvs ≠ [] → Forall query_kv_ok kvs → Forall (λ kv, head (kv.1 ++ [61]) ≠ Some 0) kvs → slen (render_query kvs) < 2 ^ 63 →
  query_parameters (render_query kvs) stale m =
    if (length kvs <=? max_params)%nat then Ret (foldl (λ m kv, mset kv.1 kv.2 m) m kvs) else Undefined.
Proof.
  intros Hne Hok H0 Hlen. unfold query_parameters. rewrite yuarel_starts by done.
  destruct (Nat.leb_spec (length kvs) max_params) as [Hn|Hn]; [|by rewrite parse_query_overflow].
  destruct (parse_query_items kvs max_params stale) as (ps & -> & Hps); [done..|].
  apply store_params_of; [done|]. clear -Hlen. induction kvs as [|kv kvs IH]; [done|].
  pose proof (render_query_length kv kvs) as [H1 H2]. constructor; [|apply IH; lia].
  unfold query_item in H1. rewrite !slen_app in H1. pose proof (slen_nonneg kv.1). pose proof (slen_nonneg kv.2). change (slen [61]) with 1 in H1. lia.
Qed.

Lemma query_string_parses_witness :
  query_parameters (str "a=1&b=two&a=3") [] [] = Ret [(str "a", str "3"); (str "b", str "two")].
Proof.
  change (str "a=1&b=two&a=3") with (render_query [(str "a", str "1"); (str "b", str "two"); (str "a", str "3")]).
  rewrite (query_string_parses [(str "a", str "1"); (str "b", str "two"); (str "a", str "3")] [] []); [done|done| | |].
  - by apply (bool_decide_unpack _); vm_compute.
  - by apply (bool_decide_unpack _); vm_compute.
  - by vm_compute.
Defined.

(** A parameter without an equals sign.  Its value length is the one an earlier request
    left: unless that is zero, building the value throws and the request fails; where it is
    zero, the length of what follows is counted one short, and the last byte of the query
    is cut off. *)
Theorem query_flag_cuts f k v c n stale m :
  f ≠ [] → 38 ∉ f → 61 ∉ f → head f ≠ Some 0 → query_kv_ok (k, v ++ [c]) → 0 ≤ n → slen (f ++ [38] ++ k ++ [61] ++ v ++ [c]) < 2 ^ 63 →
  query_parameters f (Some n :: stale) m = (if n =? 0 then Ret (mset f [] m) else Throw Runtime_error) ∧
  query_parameters (f ++ [38] ++ k ++ [61] ++ v ++ [c]) (Some 0 :: stale) m = Ret (mset k v (mset f [] m)).
Proof.
  intros Hne Hamp Heq H0 (Hk1 & Hk2 & Hv) Hn Hlen. cbn [fst snd] in *.
  assert (query_kv_ok (k, v)) as Hkv by (split_and!; [done|done|]; cbn [snd]; rewrite elem_of_app in Hv; tauto).
  assert (∀ t l l', yuarel_parse_query (f ++ t) l l' = parse_query_loop max_params (f ++ t) l l') as Hy.
  { intros t l l'. destruct f as [|a f]; [done|]. unfold yuarel_parse_query. cbn [app]. replace (a =? 0) with false; [done|].
    symmetry. apply Z.eqb_neq. intros ->. by apply H0. }
  pose proof (make_string_prefix f []) as Hmf. rewrite app_nil_r in Hmf.
  pose proof (slen_nonneg f). pose proof (slen_nonneg k). pose proof (slen_nonneg v).
  rewrite !slen_app in Hlen. change (slen [38]) with 1 in Hlen. change (slen [61]) with 1 in Hlen. change (slen [c]) with 1 in Hlen. split.
  - unfold query_parameters. pose proof (Hy [] (slen f) (Some n :: stale)) as E. rewrite app_nil_r in E. rewrite E.
    change max_params with (S 99). generalize 99%nat as q. intros q. cbn [parse_query_loop]. unfold split_param.
    pose proof (memchr_none 38 f [] Hamp) as E1. pose proof (memchr_none 61 f [] Heq) as E2. rewrite app_nil_r in E1, E2.
    rewrite E1, bind_Ret_l, E2, !bind_Ret_l. cbn [head default id store_params val_len val key key_len].
    assert (make_string None n = if n =? 0 then Ret [] else Throw Runtime_error) as ->
      by (unfold make_string; destruct (Z.ltb_spec (2 ^ 63 - 1) n); [by replace (n =? 0) with false by lia|done]).
    destruct (n =? 0); [|done]. by rewrite bind_Ret_l, Hmf, bind_Ret_l by lia.
  - unfold query_parameters. rewrite Hy. change max_params with (S (S 98)). generalize 98%nat as q. intros q. cbn [parse_query_loop].
    change (f ++ [38] ++ k ++ [61] ++ v ++ [c]) with (f ++ 38 :: k ++ [61] ++ v ++ [c]).
    rewrite memchr_here by (done || (rewrite !slen_app, slen_cons, !slen_app; change (slen [61]) with 1; change (slen [c]) with 1; lia)).
    rewrite bind_Ret_l. fold (slen f).
    assert (∀ t st, split_param (f ++ t) (slen f) st = Ret (mkParam (f ++ t) (slen f) None st)) as ->
      by (intros; unfold split_param; by rewrite memchr_none).
    cbn [head default id mbind outcome_bind val_len key_len tail]. rewrite drop_behind.
    replace (size_t _) with (slen (query_item (k, v))).
    2:{ unfold query_item, size_t. cbn [fst snd]. rewrite !slen_app, (slen_cons 38), !slen_app. change (slen [61]) with 1. change (slen [c]) with 1. rewrite wrapu_small; lia. }
    replace (k ++ [61] ++ v ++ [c]) with (query_item (k, v) ++ [c]) by (unfold query_item; cbn [fst snd]; by rewrite <- !app_assoc).
    rewrite memchr_none by (by apply query_item_amp). cbn [mbind outcome_bind].
    destruct (split_param_item (k, v) [c] (default None (head stale)) Hkv) as (p & -> & Hp). cbn [mbind outcome_bind].
    cbn [store_params val_len val key_len key]. change (make_string None 0) with (@Ret bytes []). cbn [mbind outcome_bind].
    rewrite make_string_prefix, bind_Ret_l by lia.
    apply (store_params_of [(k, v)] [p]); [by constructor|]. constructor; [cbn; lia|done].
Qed.

Lemma query_flag_cuts_witness :
  query_parameters (str "on") [Some 4] [] = Throw Runtime_error ∧
  query_parameters (str "on&name=anna") [Some 0] [] = Ret [(str "name", str "ann"); (str "on", [])].
Proof.
  destruct (query_flag_cuts (str "on") (str "name") (str "ann") 97 4 [] []) as [H1 H2].
  1: done. 1-3: by apply (bool_decide_unpack _); vm_compute. 1: by apply (bool_decide_unpack _); vm_compute. 1: done. 1: by vm_compute.
  split; [exact H1|exact H2].
Defined.
