(* ===== verification/Forms.v ===== *)
(** * Forms

    The parameters of a request body ([updateContent], [updateFromContentStr] and
    [updateFromContentFile] of [http/HttpRequest.cpp]): url-encoded forms, and multipart
    bodies with their fields and files. *)

From S2P Require Import Prelude StdMap StdString StringUtil TextCoding HttpRequest Multipart WebRequest.

(** [indices[name]]: zero at first, one more each time. *)
Definition next_index (n : bytes) (indices : list (bytes * Z)) : Z * list (bytes * Z) :=
  let i := match mfind n indices with None => 0 | Some i => i + 1 end in (i, mset n i indices).

(** A name with brackets stands for an array element. *)
Definition is_array_name (n : bytes) : bool := memb 91 n && memb 93 n.
Definition upto_bracket (n : bytes) : bytes := match sfind [91] n with Some i => take (S i) n | None => n end.

(** ** Url-encoded forms *)

Definition param_name (s : bytes) : bytes :=
  replaceFirst (replaceFirst (replaceFirst s [13] []) [9] []) [32] [].

(** One parameter: the request parameters, their order, the indices. *)
Definition form_param (s : bytes) (st : list (bytes * bytes) * list bytes * list (bytes * Z))
    : outcome (list (bytes * bytes) * list bytes * list (bytes * Z)) :=
  let '(rp, order, indices) := st in
  match splitAndReturn s [61] false with
  | [n; v] =>
      let attN := param_name n in
      v ← urlDecode v;
      if is_array_name attN then
        let '(i, indices) := next_index attN indices in
        Ret (mset (upto_bracket attN ++ fromNumber i ++ [93]) v rp, order ++ [attN], indices)
      else Ret (mset attN v rp, order ++ [attN], indices)
  | _ => Ret st
  end.
Fixpoint form_params (l : list bytes) (st : list (bytes * bytes) * list bytes * list (bytes * Z))
    : outcome (list (bytes * bytes) * list bytes * list (bytes * Z)) :=
  match l with [] => Ret st | s :: l => st ← form_param s st; form_params l st end.

Definition set_form (rp : list (bytes * bytes)) (order : list bytes) (x : Params) : Params :=
  mkParams (val_lens x) (queryParams x) rp (requestParamsF x) (contentList x) order (preamble x) (epilogue x).

(** The branch for url-encoded forms. *)
Definition update_form (w : WebRequest) : outcome WebRequest :=
  valu ← urlDecode (content (base w));
  '(rp, order, _) ← form_params (splitAndReturn valu [38] false) (requestParams (params w), reqorderinf (params w), []);
  Ret (set_params (set_form rp order) w).

(** ** Multipart bodies *)

(** The variables of the loop.  An open file is its name, what was written to it, and
    whether it still takes anything: opening it again fails and makes it refuse. *)
Record mp_state := mkMp {
  bcontstarts : bool;
  bhdrstarts : bool;
  bcontends : bool;
  filen : bytes;
  ofile : option (bytes * bytes * bool);
  cont : bytes;
  hdrs : list bytes;
  indices : list (bytes * Z);
  mp_params : Params;
  opened : nat;                              (* how often the clock was read *)
  temp_files : list (bytes * bytes)
}.

(** [addMultipartFormContent] and [addContent]. *)
Definition addMultipartFormContent (n : bytes) (p : MultipartContent) (x : Params) : Params :=
  mkParams (val_lens x) (queryParams x) (requestParams x) (mset n p (requestParamsF x)) (contentList x) (reqorderinf x) (preamble x) (epilogue x).
Definition eraseMultipartFormContent (n : bytes) (x : Params) : Params :=
  mkParams (val_lens x) (queryParams x) (requestParams x) (merase n (requestParamsF x)) (contentList x) (reqorderinf x) (preamble x) (epilogue x).
Definition addContent (p : MultipartContent) (x : Params) : Params :=
  mkParams (val_lens x) (queryParams x) (requestParams x) (requestParamsF x) (contentList x ++ [p]) (reqorderinf x) (preamble x) (epilogue x).
Definition addOrder (n : bytes) (x : Params) : Params :=
  mkParams (val_lens x) (queryParams x) (requestParams x) (requestParamsF x) (contentList x) (reqorderinf x ++ [n]) (preamble x) (epilogue x).
Definition addPreamble (l : bytes) (x : Params) : Params :=
  mkParams (val_lens x) (queryParams x) (requestParams x) (requestParamsF x) (contentList x) (reqorderinf x) (preamble x ++ l ++ [10]) (epilogue x).
Definition addEpilogue (l : bytes) (x : Params) : Params :=
  mkParams (val_lens x) (queryParams x) (requestParams x) (requestParamsF x) (contentList x) (reqorderinf x) (preamble x) (epilogue x ++ l ++ [10]).

Definition indexed (n : bytes) (i : Z) : bytes := n ++ [91] ++ fromNumber i ++ [93].

(** The part goes under its name; a name that comes again makes an array. *)
Definition store_part (p : MultipartContent) (indices : list (bytes * Z)) (x : Params) : outcome (list (bytes * Z) * Params) :=
  if bool_decide (p_name p = []) then Ret (indices, addContent p x)
  else
    attN ← urlDecode (p_name p);
    let '(indices, x) :=
      if is_array_name attN then
        let '(i, indices) := next_index attN indices in
        (indices, addMultipartFormContent (upto_bracket attN ++ fromNumber i ++ [93]) p x)
      else if bool_decide (is_Some (mfind attN indices)) || bool_decide (is_Some (mfind attN (requestParamsF x))) then
        let '(indices, x) :=
          match mfind attN (requestParamsF x) with
          | Some q => let '(i, indices) := next_index attN indices in
                      (indices, addMultipartFormContent (indexed attN i) q (eraseMultipartFormContent attN x))
          | None => (indices, x)
          end in
        let '(i, indices) := next_index attN indices in
        (indices, addMultipartFormContent (indexed attN i) p x)
      else (indices, addMultipartFormContent attN p x) in
    Ret (indices, addOrder attN x).

(** Files are opened to append. *)
Fixpoint append_file (n d : bytes) (fs : list (bytes * bytes)) : list (bytes * bytes) :=
  match fs with
  | [] => [(n, d)]
  | (m, e) :: fs => if bool_decide (m = n) then (m, e ++ d) :: fs else (m, e) :: append_file n d fs
  end.

Section multipart.
Context (boundary_ root : bytes) (now : nat → Z).

(** A boundary line after the headers of a part ends the part. *)
Definition end_part (s : mp_state) : outcome mp_state :=
  p ← MultipartContent_parse (hdrs s) [];
  let '(p, files) :=
    match ofile s with
    | Some (n, d, _) => (p_setTempFileName (filen s) p, append_file n d (temp_files s))
    | None => (p_setContent (cont s) p, temp_files s)
    end in
  '(ind, x) ← store_part p (indices s) (mp_params s);
  Ret (mkMp false true (bcontends s) (filen s) None [] [] ind x (opened s) files).

(** A header line; the one that names a file opens it. *)
Definition header_of_part (temp : bytes) (s : mp_state) : outcome mp_state :=
  let hs := hdrs s ++ [temp] in
  let low := toLower temp in
  if bool_decide (is_Some (sfind (str "content-disposition: ") low)) && bool_decide (is_Some (sfind (str "filename") low)) then
    f ← replaceAll boundary_ [45] [];
    let f := root ++ str "/temp/" ++ f ++ fromNumber (now (opened s)) in
    Ret (mkMp (bcontstarts s) (bhdrstarts s) (bcontends s) f
           (match ofile s with None => Some (f, [], true) | Some (n, d, _) => Some (n, d, false) end)
           (cont s) hs (indices s) (mp_params s) (S (opened s)) (temp_files s))
  else Ret (mkMp (bcontstarts s) (bhdrstarts s) (bcontends s) (filen s) (ofile s) (cont s) hs (indices s) (mp_params s) (opened s) (temp_files s)).

Definition mp_line (temp : bytes) (s : mp_state) : outcome mp_state :=
  let with_flags c h e := mkMp c h e (filen s) (ofile s) (cont s) (hdrs s) (indices s) (mp_params s) (opened s) (temp_files s) in
  let with_params x := mkMp (bcontstarts s) (bhdrstarts s) (bcontends s) (filen s) (ofile s) (cont s) (hdrs s) (indices s) x (opened s) (temp_files s) in
  if bcontends s then Ret (with_params (addEpilogue temp (mp_params s)))
  else if bool_decide (hdrs s ≠ []) && prefixb boundary_ temp then end_part s
  else if prefixb (boundary_ ++ str "--") temp then Ret (with_flags (bcontstarts s) (bhdrstarts s) true)
  else if bhdrstarts s then
    if bool_decide (temp = [13]) || bool_decide (temp = []) then Ret (with_flags true false (bcontends s))
    else header_of_part temp s
  else if bool_decide (hdrs s = []) && prefixb boundary_ temp then Ret (with_flags (bcontstarts s) true (bcontends s))
  else if bcontstarts s then
    let l := temp ++ [10] in
    match ofile s with
    | Some (n, d, good) =>
        Ret (mkMp (bcontstarts s) (bhdrstarts s) (bcontends s) (filen s) (Some (n, if good : bool then d ++ l else d, good)) (cont s)
               (hdrs s) (indices s) (mp_params s) (opened s) (temp_files s))
    | None =>
        Ret (mkMp (bcontstarts s) (bhdrstarts s) (bcontends s) (filen s) None (cont s ++ l)
               (hdrs s) (indices s) (mp_params s) (opened s) (temp_files s))
    end
  else Ret (with_params (addPreamble temp (mp_params s))).

Fixpoint mp_lines (l : list bytes) (s : mp_state) : outcome mp_state :=
  match l with [] => Ret s | t :: l => s ← mp_line t s; mp_lines l s end.

Definition mp_start (x : Params) : mp_state := mkMp false false false [] None [] [] [] x 0 [].

(** The files when the stream goes out of scope. *)
Definition mp_files (s : mp_state) : list (bytes * bytes) :=
  match ofile s with Some (n, d, _) => append_file n d (temp_files s) | None => temp_files s end.
End multipart.

(** The lines of a text: nothing is behind a last line feed. *)
Definition lines_of (s : bytes) : list bytes :=
  let l := splitAndReturn s [10] false in
  match last l with Some [] => take (length l - 1) l | _ => l end.

(** ** The body *)

Definition set_content (c : bytes) : WebRequest → WebRequest := set_base (setContent c).

(** [updateFromContentStr]: the request and the files. *)
Definition updateFromContentStr (now : nat → Z) (w : WebRequest) : outcome (WebRequest * list (bytes * bytes)) :=
  if prefixb (str "application/x-www-form-urlencoded") (getHeader (str "Content-Type") (base w)) then
    w ← update_form w; Ret (w, [])
  else if bool_decide (content (base w) ≠ []) && bool_decide (content_boundary w ≠ []) then
    s ← mp_lines (content_boundary w) (cntxt_root (urls w)) now (lines_of (content (base w))) (mp_start (params w));
    Ret (set_content [] (set_params (λ _, mp_params s) w), mp_files s)
  else Ret (w, []).

(** [updateFromContentFile], for the text of the file; without a boundary the lines are
    put together without what was between them. *)
Definition updateFromContentFile (now : nat → Z) (tfile : bytes) (w : WebRequest) : outcome (WebRequest * list (bytes * bytes)) :=
  if bool_decide (content_boundary w ≠ []) then
    s ← mp_lines (content_boundary w) (cntxt_root (urls w)) now (lines_of tfile) (mp_start (params w));
    Ret (set_params (λ _, mp_params s) w, mp_files s)
  else Ret (set_content (content (base w) ++ concat (lines_of tfile)) w, []).

(** [updateContent]; [tfile] is the content of the file with the body, if there is one. *)
Definition updateContent (now : nat → Z) (tfile : option bytes) (w : WebRequest) : outcome (WebRequest * list (bytes * bytes)) :=
  let w := set_base (λ r, set_corsRequest (hasHeader (str "Origin") r) r) w in
  m ← read_view (methodv (base w));
  if bool_decide (m = str "GET") || bool_decide (m = str "get") then Ret (w, [])
  else if bool_decide (content (base w) ≠ []) then updateFromContentStr now w
  else match tfile with Some t => updateFromContentFile now t w | None => Ret (w, []) end.

(** ** Url-encoded forms: what is stored *)

Definition form_text (s : bytes) : Prop := (37 ∉ s) ∧ (38 ∉ s) ∧ (61 ∉ s).
Definition form_name (s : bytes) : Prop := form_text s ∧ Forall (λ c, c ∉ [13; 9; 32; 91]) s.

Lemma replaceFirst_absent s c w : c ∉ s → replaceFirst s [c] w = s.
Proof.
  intros H. unfold replaceFirst. rewrite sfind_absent_None; [done|done|]. apply absent_first, Forall_forall. by intros x Hx ->.
Qed.

Lemma form_name_plain n : form_name n → param_name n = n ∧ is_array_name n = false.
Proof.
  intros [_ H]. rewrite Forall_forall in H.
  assert (∀ c, c ∈ [13; 9; 32; 91] → c ∉ n) as Hn by (intros c Hc Hin; by apply (H c Hin)).
  unfold param_name, is_array_name. do 3 (rewrite (replaceFirst_absent n) by (apply Hn; by apply (bool_decide_unpack _))).
  split; [done|]. apply andb_false_iff. left. apply not_true_iff_false. rewrite memb_spec. apply Hn. by apply (bool_decide_unpack _).
Qed.

Lemma split_query_item kv : 61 ∉ kv.1 → 61 ∉ kv.2 → splitAndReturn (query_item kv) [61] false = [kv.1; kv.2].
Proof. intros H1 H2. apply (split_of_join 61 [kv.1; kv.2]); [done|by repeat constructor]. Qed.

Lemma form_params_items kvs rp order ind :
  Forall (λ kv, form_name kv.1 ∧ form_text kv.2) kvs →
  form_params (map query_item kvs) (rp, order, ind) = Ret (foldl (λ m kv, mset kv.1 kv.2 m) rp kvs, order ++ map fst kvs, ind).
Proof.
  intros H. revert rp order. induction H as [|kv kvs [Hn (H1 & H2 & H3)] Hkvs IH]; intros rp order; [by rewrite app_nil_r|].
  cbn [map form_params]. unfold form_param. destruct Hn as [Hn' Hn'']. pose proof (form_name_plain kv.1 (conj Hn' Hn'')) as [E1 E2].
  rewrite split_query_item by (done || apply Hn'). cbv zeta. rewrite urlDecode_plain, E1, E2 by done. rewrite bind_Ret_l.
  rewrite bind_Ret_l, IH. cbn [foldl]. by rewrite <- app_assoc.
Qed.

Lemma urlDecode_form k v :
  form_name k → slen v < 2 ^ 31 → holds_no_code url_table v → urlDecode (k ++ [61] ++ urlEncode v) = Ret (k ++ [61] ++ v).
Proof.
  intros [Hk _] Hl Hv. unfold form_text in Hk. rewrite !app_assoc. apply urlDecode_prepend.
  - rewrite elem_of_app, elem_of_cons, elem_of_nil. intros [?|[?|?]]; (tauto || lia).
  - by apply urlDecode_urlEncode.
Qed.

(** Url-encoded forms.  The body is decoded before it is taken apart, and each value is
    decoded once more.  Fields whose texts need no encoding are stored with their names, in
    their order; of a single field with any encoded value, what counts is the decoded text:
    a value with an ampersand and an equals sign in it becomes further parameters, and a
    value with an equals sign is dropped with its field. *)
Theorem form_fields_stored w kvs k v :
  Forall (λ kv, form_name kv.1 ∧ form_text kv.2) kvs → form_name k → slen v < 2 ^ 31 → holds_no_code url_table v →
  (kvs ≠ [] → content (base w) = render_query kvs →
   update_form w = Ret (set_params (set_form (foldl (λ m kv, mset kv.1 kv.2 m) (requestParams (params w)) kvs)
                                      (reqorderinf (params w) ++ map fst kvs)) w)) ∧
  (content (base w) = k ++ [61] ++ urlEncode v →
   (∀ x kv, v = x ++ [38] ++ query_item kv → form_text x → form_name kv.1 → form_text kv.2 →
    update_form w = Ret (set_params (set_form (mset kv.1 kv.2 (mset k x (requestParams (params w))))
                                       (reqorderinf (params w) ++ [k; kv.1])) w)) ∧
   (∀ x y, v = x ++ [61] ++ y → form_text x → form_text y →
    update_form w = Ret (set_params (set_form (requestParams (params w)) (reqorderinf (params w))) w))).
Proof.
  intros Hkvs Hk Hl Hv. split; [intros Hne Hc|intros Hc; split].
  - unfold update_form. rewrite Hc, urlDecode_plain, bind_Ret_l.
    + unfold render_query. rewrite split_of_join; [|by destruct kvs|].
      * by rewrite form_params_items, bind_Ret_l.
      * apply Forall_fmap. eapply Forall_impl; [exact Hkvs|]. intros kv [[H1 _] H2]. unfold compose.
        apply query_item_amp. unfold query_kv_ok, form_text in *. tauto.
    + clear -Hkvs. unfold render_query. induction Hkvs as [|kv kvs [[H1 _] H2] Hkvs IH]; [apply not_elem_of_nil|].
      assert (37 ∉ query_item kv) as Hq by (unfold query_item, form_text in *; rewrite !elem_of_app, elem_of_cons, elem_of_nil; intros [?|[[?|?]|?]]; (tauto || lia)).
      cbn [map]. destruct kvs as [|kv' kvs]; [done|]. rewrite (join_cons [38]) by done.
      rewrite !elem_of_app, elem_of_cons, elem_of_nil. intros [?|[[?|?]|?]]; (tauto || lia).
  - intros x kv -> Hx Hn Ht.
    pose proof (form_params_items [(k, x); kv] (requestParams (params w)) (reqorderinf (params w)) []) as E.
    assert (splitAndReturn (k ++ [61] ++ x ++ [38] ++ query_item kv) [38] false = [query_item (k, x); query_item kv]) as Es.
    { replace (k ++ [61] ++ x ++ [38] ++ query_item kv) with (join [38] [query_item (k, x); query_item kv])
        by (cbn [join]; unfold query_item at 1; cbn [fst snd]; by rewrite <- !app_assoc).
      apply split_of_join; [done|]. repeat constructor; apply query_item_amp; unfold query_kv_ok, form_name, form_text in *; cbn; tauto. }
    unfold update_form. rewrite Hc, (urlDecode_form k (x ++ [38] ++ query_item kv)), bind_Ret_l, Es by done. cbn [map] in E. by rewrite E by (repeat (apply Forall_cons; split; [done|]); by apply Forall_nil).
  - intros x y -> Hx Hy. unfold update_form. rewrite Hc, (urlDecode_form k (x ++ [61] ++ y)), bind_Ret_l by done.
    assert (splitAndReturn (k ++ [61] ++ x ++ [61] ++ y) [38] false = [k ++ [61] ++ x ++ [61] ++ y]) as ->.
    { apply (split_of_join 38 [_]); [done|]. repeat constructor. unfold form_name, form_text in *.
      rewrite !elem_of_app, !elem_of_cons, elem_of_nil. intros [?|[[?|?]|[?|[[?|?]|?]]]]; (tauto || lia). }
    cbn [form_params]. unfold form_param.
    assert (splitAndReturn (k ++ [61] ++ x ++ [61] ++ y) [61] false = [k; x; y]) as ->.
    { apply (split_of_join 61 [k; x; y]); [done|]. unfold form_name, form_text in *. repeat constructor; tauto. }
    done.
Qed.

Lemma form_fields_stored_witness :
  let w := WebRequest_new (setContent (str "note=" ++ urlEncode (str "x&admin=yes")) HttpRequest_new) [] in
  update_form w = Ret (set_params (set_form [(str "admin", str "yes"); (str "note", str "x")] [str "note"; str "admin"]) w).
Proof.
  intros w. destruct (form_fields_stored w [] (str "note") (str "x&admin=yes")) as [_ H].
  - constructor.
  - by apply (bool_decide_unpack _); vm_compute.
  - by vm_compute.
  - by apply (bool_decide_unpack _); vm_compute.
  - apply (proj1 (H ltac:(done)) (str "x") (str "admin", str "yes")); [done|by apply (bool_decide_unpack _); vm_compute..].
Defined.

(** ** Multipart bodies: what is stored *)

Lemma lines_of_lines ls : Forall (λ l, 10 ∉ l) ls → lines_of (flat_map (λ l, l ++ [10]) ls) = ls.
Proof.
  intros H. unfold lines_of. assert (flat_map (λ l, l ++ [10]) ls = join [10] (ls ++ [[]])) as ->.
  { clear. induction ls as [|l ls IH]; [done|]. cbn [flat_map app]. rewrite join_cons, IH, <- app_assoc by (by destruct ls). done. }
  rewrite split_of_join; [|by destruct ls|apply Forall_app; split; [done|]; constructor; [apply not_elem_of_nil|done]].
  rewrite last_snoc, length_app, Nat.add_sub. apply take_app_length.
Qed.

Definition disposition (n : bytes) : bytes := str "Content-Disposition: form-data; name=" ++ [34] ++ n ++ [34].
(** The lines of a text field, without their line feeds. *)
Definition field_lines (boundary_ : bytes) (nv : bytes * bytes) : list bytes :=
  [boundary_ ++ [13]; disposition nv.1 ++ [13]; [13]; nv.2 ++ [13]].
Definition multipart_lines (boundary_ : bytes) (fields : list (bytes * bytes)) : list bytes :=
  flat_map (field_lines boundary_) fields ++ [boundary_ ++ str "--" ++ [13]].
Definition render_multipart (boundary_ : bytes) (fields : list (bytes * bytes)) : bytes :=
  flat_map (λ l, l ++ [10]) (multipart_lines boundary_ fields).

(** The part a field becomes: the line end in front of the boundary is in its content. *)
Definition field_part (nv : bytes * bytes) : MultipartContent :=
  mkPart [(str "Content-Disposition", drop 21 (disposition nv.1)); (str "Content-Type", str "text/plain; charset=UTF-8")]
    (nv.2 ++ [13; 10]) nv.1 [] [].

Definition part_name (n : bytes) : Prop :=
  n ≠ [] ∧ Forall (λ c, c ∉ [37; 61; 59; 34; 32; 13; 10; 91; 93]) n ∧ sfind (str "filename") (toLower n) = None ∧
  sfind (str ": ") n = None.
Definition field_ok (boundary_ : bytes) (nv : bytes * bytes) : Prop :=
  part_name nv.1 ∧ (10 ∉ nv.2) ∧ prefixb boundary_ (nv.2 ++ [13]) = false.

Lemma part_name_chars n c : part_name n → c ∈ [37; 61; 59; 34; 32; 13; 10; 91; 93] → c ∉ n.
Proof. intros (_ & H & _) Hc Hin. rewrite Forall_forall in H. by apply (H c Hin). Qed.
Lemma part_name_between n c pre post :
  part_name n → c ∈ [37; 61; 59; 34; 32; 13; 10; 91; 93] → c ∉ pre → c ∉ post → c ∉ pre ++ n ++ post.
Proof. intros Hn Hc H1 H2. rewrite !elem_of_app. intros [?|[?|?]]; try done. by apply (part_name_chars n c Hn). Qed.
Ltac between := apply part_name_between; [assumption|by apply (bool_decide_unpack _); vm_compute..].

Lemma replaceFirst_last s : 13 ∉ s → replaceFirst (s ++ [13]) [13] [] = s.
Proof.
  intros Hs. unfold replaceFirst. change (s ++ [13]) with (s ++ [13] ++ []).
  rewrite sfind_first by (apply absent_first, Forall_forall; by intros x Hx ->). by rewrite sreplace_app, !app_nil_r.
Qed.

Lemma unquote_quoted n : n ≠ [] → 34 ∉ n → unquote ([34] ++ n ++ [34]) = Ret n.
Proof.
  intros Hne Hq. unfold unquote.
  assert (Forall (λ c, negb (memb c [34]) = true) n) as Hn.
  { apply Forall_forall. intros c Hc. rewrite memb_single. destruct (Z.eqb_spec c 34) as [->|]; done. }
  assert (find_first_not_of [34] ([34] ++ n ++ [34]) = Some 1%nat) as ->.
  { unfold find_first_not_of. destruct n as [|c n]; [done|]. apply Forall_cons in Hn as [Hc _]. cbn [app find_first].
    by rewrite Hc, memb_single. }
  destruct n as [|c n _] using rev_ind; [done|]. apply Forall_app in Hn as [Hn Hc]. apply Forall_cons in Hc as [Hc _].
  assert (find_last_not_of [34] ([34] ++ (n ++ [c]) ++ [34]) = Some (S (length n))) as ->.
  { unfold find_last_not_of. replace ([34] ++ (n ++ [c]) ++ [34]) with ((34 :: n) ++ c :: [34]) by (cbn; by rewrite <- app_assoc).
    rewrite (find_last_app _ (34 :: n) c [34]); [done|by constructor|done]. }
  f_equal. cbn [app drop]. replace (S (length n) - 1 + 1)%nat with (length (n ++ [c])) by (rewrite length_app; cbn; lia). apply take_app_length.
Qed.

Lemma disposition_name n p : part_name n → disposition_param (str " name=" ++ [34] ++ n ++ [34]) p = Ret (p_setName n p).
Proof.
  intros Hn. unfold disposition_param.
  replace (memb 61 _) with true by (symmetry; apply memb_spec; rewrite elem_of_app; left; by apply (bool_decide_unpack _)).
  change (find_first_not_of [32] (str " name=" ++ [34] ++ n ++ [34])) with (Some 1%nat).
  assert (find_last_not_of [32] (str " name=" ++ [34] ++ n ++ [34]) = Some (length (str " name=" ++ [34] ++ n))) as ->.
  { unfold find_last_not_of. rewrite !app_assoc. by apply find_last_app. }
  cbn [default id]. replace (length (str " name=" ++ [34%Z] ++ n) - 1 + 1)%nat with (length (str "name=" ++ [34] ++ n ++ [34]))
    by (rewrite !length_app; change (length (str " name=")) with 6%nat; change (length (str "name=")) with 5%nat; cbn; lia).
  change (drop 1 (str " name=" ++ [34] ++ n ++ [34])) with (str "name=" ++ [34] ++ n ++ [34]). rewrite firstn_all.
  assert (splitAndReturn (str "name=" ++ [34] ++ n ++ [34]) [61] false = [str "name"; [34] ++ n ++ [34]]) as ->.
  { apply (split_of_join 61 [str "name"; [34] ++ n ++ [34]]); [done|].
    apply Forall_cons; split; [by apply (bool_decide_unpack _); vm_compute|]. apply Forall_cons; split; [between|done]. }
  pose proof Hn as (Hne & _). rewrite bool_decide_false by (intros [= E]; by destruct n as [|? [|]]).
  rewrite bool_decide_true by done. rewrite unquote_quoted, bind_Ret_l by (done || (apply (part_name_chars n _ Hn); by apply (bool_decide_unpack _))).
  rewrite urlDecode_plain; [done|]. apply (part_name_chars n _ Hn). by apply (bool_decide_unpack _).
Qed.

Lemma disposition_parses n : part_name n → MultipartContent_parse [disposition n ++ [13]] [] = Ret (p_setContent [] (field_part (n, []))).
Proof.
  intros Hn. unfold MultipartContent_parse. cbn [read_header_lines]. unfold header_line.
  set (v := str "form-data; name=" ++ [34] ++ n ++ [34]).
  assert (disposition n ++ [13] = str "Content-Disposition" ++ str ": " ++ v ++ [13]) as ->.
  { unfold disposition, v. by rewrite <- !app_assoc. }
  rewrite sfind_first by (by vm_compute). rewrite take_app_length.
  assert (drop (length (str "Content-Disposition") + 2) (str "Content-Disposition" ++ str ": " ++ v ++ [13]) = v ++ [13]) as -> by done.
  rewrite replaceFirst_last by (unfold v; rewrite app_assoc; between).
  change (sfind (str "Content-Disposition") (str "Content-Disposition")) with (Some 0%nat). cbv iota.
  assert (splitAndReturn v [59] false = [str "form-data"; str " name=" ++ [34] ++ n ++ [34]]) as ->.
  { apply (split_of_join 59 [str "form-data"; str " name=" ++ [34] ++ n ++ [34]]); [done|].
    apply Forall_cons; split; [by apply (bool_decide_unpack _); vm_compute|].
    apply Forall_cons; split; [rewrite app_assoc; between|done]. }
  cbn [disposition_params]. change (disposition_param (str "form-data") (MultipartContent_new [])) with (Ret (MultipartContent_new [])).
  rewrite bind_Ret_l, disposition_name, !bind_Ret_l by done. reflexivity.
Qed.

Lemma prefixb_stop p l c t : c ∉ p → prefixb p (l ++ c :: t) = true → prefixb p l = true.
Proof.
  revert l. induction p as [|a p IH]; intros l Hc H; [done|]. rewrite elem_of_cons in Hc.
  destruct l as [|b l]; cbn in H |- *; apply andb_prop in H as [E H]; [apply Z.eqb_eq in E; naive_solver|].
  rewrite E. apply IH; [tauto|done].
Qed.
Lemma absent_tail p a c t : c ∉ p → absent p a [] = true → absent p a (c :: t) = true.
Proof.
  intros Hc. induction a as [|x a IH]; [done|]. cbn [absent]. rewrite app_nil_r. intros [H1 H2]%andb_prop.
  rewrite IH, andb_true_r by done. apply negb_true_iff, not_true_iff_false. intros H.
  apply (prefixb_stop p (x :: a)) in H; [|done]. by rewrite H in H1.
Qed.

(** A name without the word does not make a file of the field. *)
Lemma filename_absent n : part_name n → sfind (str "filename") (toLower (disposition n ++ [13])) = None.
Proof.
  intros (_ & _ & Hf & _). apply sfind_None in Hf as [Hf _]. apply sfind_absent_None; [done|]. unfold disposition, toLower.
  rewrite !map_app. fold (toLower n). rewrite <- !app_assoc, absent_app. apply andb_true_intro. split; [reflexivity|].
  rewrite absent_app. apply andb_true_intro. split; [reflexivity|]. rewrite absent_app. apply andb_true_intro. split; [|by vm_compute].
  apply absent_tail; [by apply (bool_decide_unpack _); vm_compute|done].
Qed.

Section fields.
Context (root : bytes) (now : nat → Z) (b : bytes).
Let boundary_ : bytes := 45 :: b.

(** The state behind a boundary line. *)
Definition after_boundary (x : Params) : mp_state := mkMp false true false [] None [] [] [] x 0 [].
Definition store_field (x : Params) (nv : bytes * bytes) : Params :=
  addOrder nv.1 (addMultipartFormContent nv.1 (field_part nv) x).

Lemma field_step nv x t :
  field_ok boundary_ nv → mfind nv.1 (requestParamsF x) = None →
  mp_lines boundary_ root now [disposition nv.1 ++ [13]; [13]; nv.2 ++ [13]; boundary_ ++ t] (after_boundary x) =
  Ret (after_boundary (store_field x nv)).
Proof.
  intros (Hn & Hv & Hp) Hx. destruct nv as [n v]. cbn [fst snd] in *. pose proof Hn as (Hne & _ & Hfile & _).
  assert (prefixb (boundary_ ++ str "--") (v ++ [13]) = false) as Hp'.
  { apply not_true_iff_false. intros E. apply prefixb_spec in E as (k & E). rewrite E, <- app_assoc in Hp. by rewrite prefixb_app in Hp. }
  assert (mp_line boundary_ root now (disposition n ++ [13]) (after_boundary x) =
          Ret (mkMp false true false [] None [] [disposition n ++ [13]] [] x 0 [])) as E1.
  { unfold mp_line, after_boundary. cbn [bcontends hdrs bhdrstarts]. rewrite bool_decide_false by (intros H; by apply H).
    change (prefixb (boundary_ ++ str "--") (disposition n ++ [13])) with false. cbv iota.
    rewrite !bool_decide_false by done. cbn [orb]. unfold header_of_part. cbn [hdrs].
    rewrite (bool_decide_false (is_Some (sfind (str "filename") _))), andb_false_r; [done|].
    rewrite (filename_absent n Hn). by intros [? ?]. }
  assert (mp_line boundary_ root now [13] (mkMp false true false [] None [] [disposition n ++ [13]] [] x 0 []) =
          Ret (mkMp true false false [] None [] [disposition n ++ [13]] [] x 0 [])) as E2 by done.
  assert (mp_line boundary_ root now (v ++ [13]) (mkMp true false false [] None [] [disposition n ++ [13]] [] x 0 []) =
          Ret (mkMp true false false [] None (v ++ [13; 10]) [disposition n ++ [13]] [] x 0 [])) as E3.
  { unfold mp_line. cbn [bcontends hdrs bhdrstarts bcontstarts ofile]. rewrite Hp, Hp', andb_false_r.
    cbn [filen cont indices mp_params opened temp_files app]. rewrite (bool_decide_false (_ = [])) by done. cbn [andb].
    by rewrite <- app_assoc. }
  cbn [mp_lines]. rewrite E1, bind_Ret_l, E2, bind_Ret_l, E3, bind_Ret_l.
  unfold mp_line. cbn [bcontends hdrs]. rewrite bool_decide_true, prefixb_app by done. cbn [andb]. unfold end_part.
  cbn [hdrs ofile cont temp_files bcontends filen indices mp_params opened]. rewrite disposition_parses, bind_Ret_l by done.
  unfold store_part. cbn [p_name p_setContent field_part fst snd]. rewrite (bool_decide_false (n = [])) by done.
  rewrite urlDecode_plain, bind_Ret_l by (apply (part_name_chars n _ Hn); by apply (bool_decide_unpack _)).
  assert (is_array_name n = false) as ->.
  { unfold is_array_name. apply andb_false_iff. left. apply not_true_iff_false. rewrite memb_spec.
    apply (part_name_chars n _ Hn). by apply (bool_decide_unpack _). }
  rewrite Hx. done.
Qed.

Lemma multipart_head fields : ∃ t ls, multipart_lines boundary_ fields = (boundary_ ++ t) :: ls.
Proof. unfold multipart_lines. destruct fields as [|nv fields]; cbn [flat_map field_lines app]; by eexists _, _. Qed.

Lemma mp_lines_app l1 l2 s : mp_lines boundary_ root now (l1 ++ l2) s = (s ← mp_lines boundary_ root now l1 s; mp_lines boundary_ root now l2 s).
Proof.
  revert s. induction l1 as [|l l1 IH]; intros s; [done|]. cbn [app mp_lines]. rewrite bind_assoc.
  destruct (mp_line _ _ _ _ _); [apply IH|done..].
Qed.

Lemma fields_loop fields x :
  Forall (field_ok boundary_) fields → NoDup (map fst fields) → Forall (λ nv, mfind nv.1 (requestParamsF x) = None) fields →
  mp_lines boundary_ root now (drop 1 (multipart_lines boundary_ fields)) (after_boundary x) =
  Ret (after_boundary (foldl store_field x fields)).
Proof.
  intros H. revert x. induction H as [|nv fields Hnv Hf IH]; intros x Hnd Hx; [done|].
  apply NoDup_cons in Hnd as [Hni Hnd]. apply Forall_cons in Hx as [Hx Hxs].
  destruct (multipart_head fields) as (t & ls & E).
  assert (drop 1 (multipart_lines boundary_ (nv :: fields)) =
    [disposition nv.1 ++ [13]; [13]; nv.2 ++ [13]; boundary_ ++ t] ++ drop 1 (multipart_lines boundary_ fields)) as ->.
  { rewrite E. change (multipart_lines boundary_ (nv :: fields)) with (field_lines boundary_ nv ++ multipart_lines boundary_ fields). by rewrite E. }
  rewrite mp_lines_app, field_step, bind_Ret_l by done. apply IH; [done|].
  rewrite Forall_forall in Hxs |- *. intros nv' Hin. unfold store_field. cbn [requestParamsF addOrder addMultipartFormContent].
  rewrite mfind_mset_ne; [by apply Hxs|]. intros E'. apply Hni. rewrite <- E'. apply list_elem_of_fmap. by exists nv'.
Qed.
End fields.

(** C39: Multipart bodies. A body of text fields between boundary lines, into a request without
    fields, is stored field by field, with its names in order and no file; the content of every
    field ends with the line end that belongs to the boundary behind it, and the body itself is
    dropped. The names are distinct, not empty, and without brackets (which store an element of
    an array), equals and percent signs, semicolons, quotes, spaces, line ends, a colon with a
    space or the word [filename] (for which the code opens a file); the values are single lines
    that do not start with the boundary; the boundary starts with a dash. *)
Theorem multipart_fields_stored now b fields w :
  prefixb (str "application/x-www-form-urlencoded") (getHeader (str "Content-Type") (base w)) = false →
  content_boundary w = 45 :: b → 10 ∉ b → Forall (field_ok (45 :: b)) fields → NoDup (map fst fields) → fields ≠ [] →
  requestParamsF (params w) = [] → content (base w) = render_multipart (45 :: b) fields →
  updateFromContentStr now w =
    Ret (set_content [] (set_params (λ x, foldl (λ x nv, addOrder nv.1 (addMultipartFormContent nv.1 (field_part nv) x)) x fields) w), []).
Proof.
  intros Hform Hb Hnl Hf Hnd Hne Hp Hc. unfold updateFromContentStr. rewrite Hform, Hc, Hb. unfold render_multipart.
  assert (Forall (λ l, 10 ∉ l) (multipart_lines (45 :: b) fields)) as Hlines.
  { unfold multipart_lines. assert (10 ∉ 45 :: b) as Hnl' by (rewrite elem_of_cons; intros [?|?]; (lia || done)).
    apply Forall_app. split.
    - clear -Hnl' Hf. induction Hf as [|nv fields (Hn & Hv & _) Hf IH]; [constructor|]. cbn [flat_map]. apply Forall_app. split; [|done].
      unfold field_lines, disposition. repeat (apply Forall_cons; split); [| | | |done].
      + rewrite elem_of_app. intros [?|?]; [done|]. set_solver.
      + rewrite <- !app_assoc. rewrite app_assoc. between.
      + set_solver.
      + rewrite elem_of_app. intros [?|?]; [done|]. set_solver.
    - apply Forall_cons. split; [|done]. rewrite elem_of_app. intros [?|Hx]; [done|]. revert Hx. by apply (bool_decide_unpack _). }
  rewrite lines_of_lines by done. rewrite !bool_decide_true; [|done|].
  2:{ unfold multipart_lines. destruct fields; [done|]. cbn. done. }
  cbn [andb]. destruct (multipart_head b fields) as (t & ls & E). rewrite E.
  assert (mp_line (45 :: b) (cntxt_root (urls w)) now ((45 :: b) ++ t) (mp_start (params w)) = Ret (after_boundary (params w))) as E1.
  { destruct fields as [|nv fields]; [done|]. cbn in E. injection E as E _. apply app_inv_head in E as <-.
    unfold mp_line, mp_start. cbn [bcontends hdrs bhdrstarts]. rewrite bool_decide_false by (intros H; by apply H). cbn [andb].
    assert (prefixb ((45 :: b) ++ str "--") ((45 :: b) ++ [13]) = false) as ->.
    { apply not_true_iff_false. intros Ep. apply prefixb_spec in Ep as (k & Ep). rewrite <- app_assoc in Ep. by apply app_inv_head in Ep. }
    rewrite bool_decide_true, prefixb_app by done. done. }
  cbn [mp_lines]. rewrite E1, bind_Ret_l. replace ls with (drop 1 (multipart_lines (45 :: b) fields)) by (by rewrite E).
  rewrite fields_loop; [done|done|done|]. apply Forall_forall. intros nv _. by rewrite Hp.
Qed.

Lemma multipart_fields_stored_witness :
  let fields := [(str "name", str "Ada"); (str "age", str "36")] in
  let w := mkWeb (setContent (render_multipart (str "--XyZ") fields) HttpRequest_new) (mkUrls [] [] [] [] [])
             (mkParams [] [] [] [] [] [] [] []) (mkAuth [] [] [] false [] [] false) (str "--XyZ") (mkExtra [] [] [] [] []) in
  ∃ w', updateFromContentStr (λ _, 0) w = Ret (w', []) ∧
    map (λ nv, (nv.1, p_content nv.2)) (requestParamsF (params w')) = [(str "age", str "36" ++ [13; 10]); (str "name", str "Ada" ++ [13; 10])].
Proof.
  intros fields w. eexists. split.
  - apply (multipart_fields_stored (λ _, 0) (str "-XyZ") fields w); try done.
    + by apply (bool_decide_unpack _); vm_compute.
    + repeat (apply Forall_cons; split); [| |done]; (split; [split_and!|split]); try done; by apply (bool_decide_unpack _); vm_compute.
    + by apply (bool_decide_unpack _); vm_compute.
  - by vm_compute.
Defined.
