(* ===== verification/RequestBuilder.v ===== *)
(** * RequestBuilder

    Requests made of named values ([HttpRequest::buildRequest], [getAuthParams] and
    [setHttp2Headers] of [http/HttpRequest.cpp]): how the header fields of an HTTP/2 request
    get into a request. *)

From S2P Require Import Prelude StdMap StdString StringUtil CastUtil TextCoding RegexUtil HttpRequest Multipart WebRequest Forms.

(** ** The codes of the names *)

Definition VALID_REQUEST_HEADERS : bytes :=
  str ",accept,accept-charset,accept-encoding,accept-language,accept-datetime,access-control-request-headers,access-control-request-method,authorization,cache-control,connection,cookie,content-length,content-md5,content-type,date,expect,from,host,if-match,if-modified-since,if-none-match,if-range,if-unmodified-since,max-forwards,origin,pragma,proxy-authorization,range,referer,te,upgrade,user-agent,via,warning,transfer-encoding,sec-websocket-key,sec-websocket-version,sec-websocket-accept,sec-websocket-protocol,sec-websocket-extensions,alt-used,http2-settings,".

(** [init]: the position of a name, and the names that are no header fields.  The comma at the
    end gives the empty name the code of [content]. *)
Fixpoint number_names (i : Z) (names : list bytes) : list (bytes * Z) :=
  match names with [] => [] | n :: names => (n, i) :: number_names (i + 1) names end.
Definition HDRS_SW_CODES : list (bytes * Z) :=
  [(str "content", 42); (str "method", 43); (str "httpversion", 44); (str "getarguments", 45); (str "url", 46); (str "httpline", 47)] ++
  number_names 0 (splitAndReturn (drop 1 VALID_REQUEST_HEADERS) [44] false).
Definition header_code (key : bytes) : Z :=
  match List.find (λ x, bool_decide (x.1 = key)) HDRS_SW_CODES with Some x => x.2 | None => -1 end.

Example code_cookie : header_code (str "cookie") = 10. Proof. reflexivity. Qed.
Example code_type : header_code (str "content-type") = 13. Proof. reflexivity. Qed.
Example code_empty : header_code [] = 42. Proof. reflexivity. Qed.

(** ** Setters *)

Definition set_req_headers (m : list (bytes * bytes)) (r : HttpRequest) : HttpRequest :=
  mkReq (headers_data r) (headers_list r) m (methodv r) (pathv r) (queryv r)
    (parser_pos r) (httpVers r) (httpVersion r) (cntxt_name r) (ext r) (file r) (status r) (corsRequest r) (content r).
Definition set_req_status (s : option Z) (r : HttpRequest) : HttpRequest :=
  mkReq (headers_data r) (headers_list r) (headers r) (methodv r) (pathv r) (queryv r)
    (parser_pos r) (httpVers r) (httpVersion r) (cntxt_name r) (ext r) (file r) s (corsRequest r) (content r).
Definition set_req_version (n : Z) (v : bytes) (r : HttpRequest) : HttpRequest :=
  mkReq (headers_data r) (headers_list r) (headers r) (methodv r) (pathv r) (queryv r)
    (parser_pos r) n v (cntxt_name r) (ext r) (file r) (status r) (corsRequest r) (content r).
Definition set_methodv (m : view) (r : HttpRequest) : HttpRequest :=
  mkReq (headers_data r) (headers_list r) (headers r) m (pathv r) (queryv r)
    (parser_pos r) (httpVers r) (httpVersion r) (cntxt_name r) (ext r) (file r) (status r) (corsRequest r) (content r).
Definition set_credentials (m u p : bytes) (a : Auth) : Auth := mkAuth u p m (cookie a) (cookieattrs a) (sessionAttributes a) (dirty a).
Definition set_cookies (m : list (bytes * bytes)) (a : Auth) : Auth :=
  mkAuth (userName a) (password a) (authMethod a) true m (sessionAttributes a) (dirty a).
Definition set_authinfo (m : list (bytes * bytes)) (o : list bytes) (x : Extra) : Extra := mkExtra m o (localeInfo x) (authority x) (scheme x).
Definition add_locales (l : list bytes) (x : Extra) : Extra := mkExtra (authinfo x) (authorderinf x) (localeInfo x ++ l) (authority x) (scheme x).
Definition set_authority (a s : bytes) (x : Extra) : Extra := mkExtra (authinfo x) (authorderinf x) (localeInfo x) a s.
Definition set_boundary (b : bytes) (w : WebRequest) : WebRequest := mkWeb (base w) (urls w) (params w) (auth w) b (extra w).
Definition set_query (q : list (bytes * bytes)) (order : list bytes) (x : Params) : Params :=
  mkParams (val_lens x) q (requestParams x) (requestParamsF x) (contentList x) order (preamble x) (epilogue x).

Definition addHeader (k v : bytes) : WebRequest → WebRequest := set_base (λ r, set_req_headers (add_to_headers k v (headers r)) r).

(** ** [Accept-Language] *)

Definition locale_of (t : bytes) : outcome bytes :=
  match find_first_not_of [32] t with
  | None => Throw Out_of_range
  | Some s =>
      Ret (match sfind [59] t with
           | None => let e := match find_last_not_of [32] t with Some i => S i | None => 0%nat end in take (e - s) (drop s t)
           | Some e =>
               let t := take (e - s) (drop s t) in
               take (match find_last_not_of [32] t with Some i => S i | None => 0%nat end) t
           end)
  end.
Fixpoint locales (l : list bytes) : outcome (list bytes) :=
  match l with
  | [] => Ret []
  | t :: l => if bool_decide (t = []) then locales l else x ← locale_of t; r ← locales l; Ret (x :: r)
  end.

(** ** [Authorization] *)

(** What is in front of the first [c], and behind it; without one both are everything. *)
Definition before (c : Z) (s : bytes) : bytes := match sfind [c] s with Some i => take i s | None => s end.
Definition behind (c : Z) (s : bytes) : bytes := match sfind [c] s with Some i => drop (S i) s | None => s end.

Definition is_quote (c : option Z) : bool := bool_decide (c = Some 34) || bool_decide (c = Some 39).
Definition unquoted (t : bytes) : bytes :=
  let t := trim t in if (1 <? length t)%nat && is_quote (head t) && is_quote (last t) then take (length t - 2) (drop 1 t) else t.

Fixpoint auth_params (l : list bytes) (m : list (bytes * bytes)) (order : list bytes) : outcome (list (bytes * bytes) * list bytes) :=
  match l with
  | [] => Ret (m, order)
  | t :: l =>
      match splitAndReturn t [61] false with
      | n :: v :: _ => auth_params l (mset n (unquoted v) m) (order ++ [n])
      | _ => Throw Out_of_range
      end
  end.

Definition getAuthParams (s : bytes) (w : WebRequest) : outcome WebRequest :=
  let m := before 32 s in
  let s := behind 32 s in
  if strcaseeq m (str "basic") then
    temp ← base64decodeStr s;
    Ret (set_auth (set_credentials m (before 58 temp) (behind 58 temp)) w)
  else
    '(i, o) ← auth_params (splitAndReturn s [44] false) (authinfo (extra w)) (authorderinf (extra w));
    Ret (set_extra (set_authinfo i o) (set_auth (λ a, set_credentials m (userName a) (password a) a) w)).

(** ** [Cookie] *)

Definition add_cookie (m : list (bytes * bytes)) (s : bytes) : list (bytes * bytes) :=
  match splitAndReturn s [61] false with
  | [k; v] => mset k v m
  | k :: _ => mset k (str "true") m
  | [] => m
  end.
(** The text is cut at every semicolon and at every space. *)
Definition read_cookies (v : bytes) (a : Auth) : Auth :=
  set_cookies (foldl add_cookie (cookieattrs a) (splitAndReturn (trim v) [59; 32] false)) a.

(** ** The query of a request line *)

(** One argument; a value is decoded once more only for an array element. *)
Definition query_arg (s : bytes) (st : list (bytes * bytes) * list bytes * list (bytes * Z))
    : outcome (list (bytes * bytes) * list bytes * list (bytes * Z)) :=
  let '(q, order, indices) := st in
  match splitAndReturn s [61] false with
  | [n; v] =>
      let attN := param_name n in
      if is_array_name attN then
        let '(i, indices) := next_index attN indices in
        v ← urlDecode v;
        Ret (mset (upto_bracket attN ++ fromNumber i ++ [93]) v q, order ++ [attN], indices)
      else Ret (mset attN v q, order ++ [attN], indices)
  | _ => Ret st
  end.
Fixpoint query_args (l : list bytes) (st : list (bytes * bytes) * list bytes * list (bytes * Z))
    : outcome (list (bytes * bytes) * list bytes * list (bytes * Z)) :=
  match l with [] => Ret st | s :: l => st ← query_arg s st; query_args l st end.
Definition read_query (v : bytes) (w : WebRequest) : outcome WebRequest :=
  v ← urlDecode v;
  '(q, order, _) ← query_args (splitAndReturn v [38] false) (queryParams (params w), reqorderinf (params w), []);
  Ret (set_params (set_query q order) w).

(** ** [Content-Type] *)

Definition read_content_type (key v : bytes) (w : WebRequest) : WebRequest :=
  let t := trim v in
  match sfind (str "boundary") t with
  | Some s =>
      let w := addHeader key (take s t) w in
      match splitAndReturn (drop s t) [61] false with
      | [_; b] => set_boundary (str "--" ++ b) w
      | _ => w
      end
  | None => addHeader key t w
  end.

Section builder.
Context `{re : !Regex}.

(** The [strtof] of the C library, in tenths as the version is. *)
Variable strtof : bytes → Z.

(** The conversion of a protocol version. *)
Definition version_of (v : bytes) : outcome Z := toFloat strtof (trim (replaceFirst (toLower v) (str "http/") [])).

Definition fails_with (c : Z) (w : WebRequest) : WebRequest := set_base (set_req_status (Some c)) w.

(** The request line.  The version is never both less than 1.0 and more than 1.1; every
    word is a method. *)
Definition read_line (value : bytes) (w : WebRequest) : outcome WebRequest :=
  match splitAndReturn value [32] false with
  | m :: target :: version :: _ =>
      if negb (isValidHttpMethod m) then Ret (fails_with 405 w)
      else
        match version_of version with
        | Throw _ => Ret (fails_with 505 w)    (* a std exception *)
        | Undefined => Undefined
        | Out_of_fuel => Out_of_fuel
        | Ret n =>
            let w := set_base (λ r, set_req_version n (httpVersion r) r) w in
            if (n <? 10) && (11 <? n) then Ret (fails_with 505 w)
            else if (n <? 11) && bool_decide (toLower m = str "options") then Ret (fails_with 405 w)
            else
              let w := set_base (set_req_version n (replaceFirst version [13] [])) w in
              let target := replaceFirst target [32] [] in
              '(target, w) ← match sfind [63] target with
                             | Some q => w ← read_query (drop (S q) target) w; Ret (take q target, w)
                             | None => Ret (target, w)
                             end;
              setActUrl target w
        end
  | _ => Ret (fails_with 400 w)
  end.

(** [addHeaderValue] for a name that is not in the map. *)
Definition addHeaderValue (header value : bytes) (w : WebRequest) (c : cache) : outcome (WebRequest * cache) :=
  '(b, c) ← RegexUtil.matches header (str "^[a-zA-Z]+[-|a-zA-Z0-9]*") false c;
  Ret (if (b : bool) then addHeader header value w else w, c).

(** [buildRequest]. *)
Definition buildRequest (key value : bytes) (w : WebRequest) (c : cache) : outcome (WebRequest * cache) :=
  let code := header_code key in
  let plain o := w ← o; Ret (w, c) in
  if code =? 3 then
    l ← locales (splitAndReturn (trim value) [44] false);
    Ret (addHeader key (trim value) (set_extra (add_locales l) w), c)
  else if code =? 7 then
    w ← getAuthParams (trim value) w; Ret (addHeader key (trim value) w, c)
  else if code =? 10 then Ret (set_auth (read_cookies value) w, c)
  else if code =? 13 then Ret (read_content_type key value w, c)
  else if code =? 42 then Ret (set_content (content (base w) ++ value) w, c)
  else if code =? 43 then Ret (w, c)
  else if code =? 44 then
    let v := match version_of value with Ret n => Some n | _ => None end in
    Ret (set_base (λ r, set_req_version (default (httpVers r) v) value r) w, c)
  else if code =? 45 then plain (read_query value w)
  else if code =? 46 then plain (setActUrl value w)
  else if code =? 47 then plain (read_line value w)
  else if code =? -1 then addHeaderValue key value w c
  else Ret (addHeader key value w, c).

Fixpoint build_all (m : list (bytes * bytes)) (w : WebRequest) (c : cache) : outcome (WebRequest * cache) :=
  match m with [] => Ret (w, c) | (k, v) :: m => '(w, c) ← buildRequest k v w c; build_all m w c end.

(** [setHttp2Headers].  The braces around the method make the text that begins at its end:
    [methodv] is a view of nothing. *)
Definition setHttp2Headers (m : list (bytes * bytes)) (w : WebRequest) (c : cache) : outcome (WebRequest * cache) :=
  let field k := default [] (mfind k m) in
  let w := set_base (λ r, set_req_version 20 (str "http/2") (set_methodv (View []) r)) w in
  let w := set_extra (set_authority (field (str ":authority")) (field (str ":scheme"))) w in
  '(w, c) ← buildRequest (str "url") (field (str ":path")) w c;
  build_all (merase (str ":scheme") (merase (str ":authority") (merase (str ":path") (minsert (str ":method") [] m)))) w c.
End builder.

(** ** What an HTTP/2 request lacks *)

(** A request without a method and a path that was not refused. *)
Definition bare (w : WebRequest) : Prop :=
  methodv (base w) = View [] ∧ pathv (base w) = View [] ∧ status (base w) = None ∧ ∃ cn, cntxt_name (base w) = View cn.

Lemma bare_setActUrl a w : bare w → ensures bare (setActUrl a w).
Proof.
  intros (Hm & Hp & Hs & cn & Hc) w' E. unfold setActUrl in E. apply bind_Ret_inv in E as (c & _ & [= <-]).
  unfold bare. cbn [set_base set_urls base].
  repeat case_match; cbn [set_ext_file setCntxt_name methodv pathv status cntxt_name]; split_and!; try done; by eexists.
Qed.

Lemma header_code_line key : key ≠ str "httpline" → header_code key ≠ 47.
Proof.
  intros Hk. unfold header_code. destruct (List.find _ _) as [x|] eqn:E; [|done]. apply List.find_some in E as [Hin Hx%bool_decide_eq_true].
  intros H. apply Hk. assert (Forall (λ x, x.2 = 47 → x.1 = str "httpline") HDRS_SW_CODES) as Hall by (by apply (bool_decide_unpack _); vm_compute).
  rewrite Forall_forall in Hall. rewrite <- Hx. by apply Hall; [apply list_elem_of_In|].
Qed.

Section bare.
Context `{re : !Regex}.

Lemma bare_same w w' : base w' = base w → bare w → bare w'.
Proof. unfold bare. by intros ->. Qed.
Lemma bare_addHeader k v w : bare w → bare (addHeader k v w).
Proof. done. Qed.
Lemma bare_plain (o : outcome WebRequest) (c : cache) : ensures bare o → ensures (λ r, bare r.1) (w ← o; Ret (w, c)).
Proof. intros H r E. apply bind_Ret_inv in E as (w & Hw & [= <-]). by apply H. Qed.

Lemma bare_getAuthParams s w : bare w → ensures bare (getAuthParams s w).
Proof.
  intros Hw w' E. unfold getAuthParams in E. case_match.
  - apply bind_Ret_inv in E as (t & _ & [= <-]). by apply (bare_same w).
  - apply bind_Ret_inv in E as ([i o] & _ & [= <-]). by apply (bare_same w).
Qed.
Lemma bare_content_type k v w : bare w → bare (read_content_type k v w).
Proof. intros Hw. unfold read_content_type. repeat case_match; by apply bare_addHeader || done. Qed.
Lemma bare_query v w : bare w → ensures bare (read_query v w).
Proof.
  intros Hw w' E. unfold read_query in E. apply bind_Ret_inv in E as (u & _ & E). apply bind_Ret_inv in E as ([[q o] i] & _ & [= <-]).
  by apply (bare_same w).
Qed.

Lemma bare_buildRequest strtof key value w c :
  key ≠ str "httpline" → bare w → ensures (λ r, bare r.1) (buildRequest strtof key value w c).
Proof.
  intros Hk%header_code_line Hw. unfold buildRequest. generalize dependent (header_code key). intros code Hk. cbv zeta.
  destruct (code =? 3).
  { intros r E. apply bind_Ret_inv in E as (l & _ & [= <-]). by apply (bare_same (addHeader key (trim value) w)). }
  destruct (code =? 7).
  { intros r E. apply bind_Ret_inv in E as (w1 & H1 & [= <-]). apply bare_addHeader. by apply (bare_getAuthParams (trim value) w Hw). }
  destruct (code =? 10); [by intros r [= <-]; apply (bare_same w)|].
  destruct (code =? 13); [by intros r [= <-]; apply bare_content_type|].
  destruct (code =? 42); [by intros r [= <-]|]. destruct (code =? 43); [by intros r [= <-]|]. destruct (code =? 44); [by intros r [= <-]|].
  destruct (code =? 45); [by apply bare_plain, bare_query|]. destruct (code =? 46); [by apply bare_plain, bare_setActUrl|].
  destruct (Z.eqb_spec code 47); [done|]. destruct (code =? -1).
  - intros r E. apply bind_Ret_inv in E as ([b c'] & _ & [= <-]). cbn [fst]. destruct b; [by apply bare_addHeader|done].
  - by intros r [= <-].
Qed.

Lemma bare_build_all strtof m w c :
  Forall (λ kv, kv.1 ≠ str "httpline") m → bare w → ensures (λ r, bare r.1) (build_all strtof m w c).
Proof.
  intros H. revert w c. induction H as [|[k v] m Hk Hm IH]; intros w c Hw; [by intros r [= <-]|]. cbn [build_all].
  intros r E. apply bind_Ret_inv in E as ([w1 c1] & H1 & E). apply (IH w1 c1); [|done]. by apply (bare_buildRequest _ _ _ _ _ Hk Hw) in H1.
Qed.

(** Whatever fields an HTTP/2 request has (but one: a field with the name of the request line
    is read as one), it gets neither a method nor a path. *)
Lemma http2_bare strtof m w c :
  Forall (λ kv, kv.1 ≠ str "httpline") m → bare w → ensures (λ r, bare r.1) (setHttp2Headers strtof m w c).
Proof.
  intros Hm Hw r E. unfold setHttp2Headers in E. apply bind_Ret_inv in E as ([w1 c1] & H1 & E).
  apply bare_buildRequest in H1; [|done|]; [|by destruct Hw as (_ & ? & ? & ?)].
  apply (bare_build_all _ _ _ _) in E; [done| |done].
  by repeat first [apply Forall_merase | apply Forall_minsert].
Qed.
End bare.
