(* ===== verification/Rest.v ===== *)
(** * Rest

    REST controllers ([ControllerHandler::handle] of [framework/ControllerHandler.cpp]):
    the look-up of a function by method and path template, the values of its parameters,
    and what becomes of the response.

    The controllers are compiled code of the application: their methods are arguments.
    Values of types other than text, whole numbers and booleans are made by the serializers,
    which are generated: an argument too. *)

From S2P Require Import Prelude StdMap StdString StringUtil CastUtil HttpRequest Multipart HttpResponse WebRequest.

(** ** The functions of the controllers *)

Record RestFunctionParams := mkRFP { rp_name : bytes; rp_type : bytes; rp_serOpt : Z; rp_from : bytes; rp_defValue : bytes }.
Record RestFunction := mkRF {
  rf_name : bytes;
  rf_clas : bytes;
  rf_meth : bytes;
  statusCode : bytes;
  icontentType : bytes;
  ocontentType : bytes;
  unmapped : bool;
  rf_serOpt : Z;
  rtype : bytes;
  rf_params : list RestFunctionParams
}.

(** [rstCntMap] of a context: method and path, and the functions. *)
Abbreviation resFuncMap := (list (bytes * list RestFunction)).

(** ** Templates *)

(** Whether a segment of a template is a parameter. *)
Definition is_param (seg : bytes) : bool := memb 123 seg && memb 125 seg && (2 <? length seg)%nat.

(** The name of the parameter and its value in a segment of the path.  The text in front of
    it is cut off wherever it is found, or as if it were at the start. *)
Definition segment_param (seg act : bytes) : outcome (bytes * bytes) :=
  let st := S (default 0%nat (sfind [123] seg)) in
  let close := default 0%nat (sfind [125] seg) in
  let pref := take (st - 1) seg in
  let suff := drop (S close) seg in
  let name := if (close <? st)%nat then drop st seg else take (close - st) (drop st seg) in
  if (1 <? st)%nat then
    let stpre := match sfind pref act with Some i => Z.of_nat i + slen pref | None => slen pref - 1 end in
    let len := slen act - slen pref - slen suff in
    v ← substr act stpre (if len <? 0 then npos else len);
    Ret (name, v)
  else Ret (name, act).

(** The segments of a template against those of the path; the values of parameters are kept
    also when a later segment differs. *)
Fixpoint match_segments (segs acts : list bytes) (m : list (bytes * bytes)) : outcome (bool * list (bytes * bytes)) :=
  match segs, acts with
  | [], _ => Ret (true, m)
  | seg :: segs, act :: acts =>
      if is_param seg then
        '(n, v) ← segment_param seg act; match_segments segs acts (mset n v m)
      else if bool_decide (act = seg) then match_segments segs acts m
      else Ret (false, m)
  | _, [] => Throw Out_of_range
  end.

Definition match_template (baseUrl : bytes) (acts : list bytes) (m : list (bytes * bytes)) : outcome (bool * list (bytes * bytes)) :=
  let parts := splitAndReturn baseUrl [47] false in
  if (length acts =? length parts - 1)%nat then match_segments (tail parts) acts m else Ret (false, m).

(** What the look-up found, or the exception it ends with. *)
Inductive lookup := Selected (f : RestFunction) | Mismatch | Missing | Escaped (e : exn).

Definition InvalidMethod := status_by_code 405.

(** The functions of one template, then all templates in the order of their keys. *)
Fixpoint scan_functions (baseUrl : bytes) (fts : list RestFunction) (method : bytes) (acts : list bytes)
    (m : list (bytes * bytes)) (res : HttpResponse) : outcome (lookup * list (bytes * bytes) * HttpResponse) :=
  match fts with
  | [] => Ret (Missing, m, res)
  | f :: fts =>
      if unmapped f then scan_functions baseUrl fts method acts m res
      else
        match match_template baseUrl acts m with
        | Ret (true, m) =>
            if bool_decide (toUpper (rf_meth f) = method) then Ret (Selected f, m, res)
            else Ret (Mismatch, m, setDone true (set_status InvalidMethod res))
        | Ret (false, m) => scan_functions baseUrl fts method acts m (set_status NotFound res)
        | Throw e => Ret (Escaped e, m, res)
        | Undefined => Undefined
        | Out_of_fuel => Out_of_fuel
        end
  end.
Fixpoint scan_templates (rst : resFuncMap) (method : bytes) (acts : list bytes)
    (m : list (bytes * bytes)) (res : HttpResponse) : outcome (lookup * list (bytes * bytes) * HttpResponse) :=
  match rst with
  | [] => Ret (Missing, m, res)
  | (baseUrl, fts) :: rst =>
      '(l, m, res) ← scan_functions baseUrl fts method acts m res;
      match l with
      | Selected _ | Escaped _ => Ret (l, m, res)
      | _ => if done_ res then Ret (l, m, res) else scan_templates rst method acts m res
      end
  end.

(** The look-up: the exact path first. *)
Definition find_function (rst : resFuncMap) (method curl : bytes) (acts : list bytes) (res : HttpResponse)
    : outcome (lookup * list (bytes * bytes) * HttpResponse) :=
  match mfind (method ++ curl) rst with
  | Some (f :: _) => Ret (Selected f, [], res)
  | Some [] => Undefined
  | None => scan_templates rst method acts [] res
  end.

(** ** Parameters *)

Inductive argument {Obj : Type} :=
| ArgString (s : bytes)
| ArgNumber (serOpt : Z) (n : Z)
| ArgBool (b : bool)
| ArgObject (o : Obj)
| ArgFile (name : option bytes)           (* an open stream, or the null pointer *)
| ArgFiles (names : list bytes).
Arguments argument Obj : clear implicits.

(** [getQueryParam] and the like. *)
Definition getQueryParam (k : bytes) (w : WebRequest) : bytes := default [] (mfind k (queryParams (params w))).
Definition getRequestParam (k : bytes) (w : WebRequest) : bytes :=
  match mfind k (requestParams (params w)) with
  | Some v => v
  | None => match mfind k (requestParamsF (params w)) with Some p => p_content p | None => [] end
  end.
Definition getMultipartContent (k : bytes) (w : WebRequest) : MultipartContent :=
  default (MultipartContent_new []) (mfind k (requestParamsF (params w))).
(** [getHeaders], the map: fields of a parsed head are not in it. *)
Definition header_in_map (k : bytes) (w : WebRequest) : option bytes := mfind k (HttpRequest.headers (base w)).

(** Where the text of a parameter comes from: [inr] is the text, if there is one, [inl] a
    status that ends the request. *)
Definition param_source (p : RestFunctionParams) (prsiz : nat) (m : list (bytes * bytes)) (w : WebRequest) : Z + option bytes :=
  if bool_decide (rp_from p = str "path") then inr (Some (default [] (mfind (rp_name p) m)))
  else if bool_decide (rp_from p = str "reqparam") then
    inr (Some (match mfind (rp_name p) (queryParams (params w)) with Some _ => getQueryParam (rp_name p) w | None => rp_defValue p end))
  else if bool_decide (rp_from p = str "postparam") then
    inr (Some (match mfind (rp_name p) (requestParams (params w)) with Some _ => getRequestParam (rp_name p) w | None => rp_defValue p end))
  else if bool_decide (rp_from p = str "header") then
    inr (Some (match header_in_map (rp_name p) w with Some _ => HttpRequest.getHeader (rp_name p) (base w) | None => rp_defValue p end))
  else if bool_decide (rp_from p = str "multipart-content") then
    let c := getMultipartContent (rp_name p) w in
    if isValid c then
      if isAFile c then
        if bool_decide (rp_type p = str "filestream") then inr (Some (rp_name p))
        else if bool_decide (rp_type p = str "vector-of-filestream") then inr None else inl 500
      else inr (Some (p_content c))
    else if bool_decide (rp_type p = str "vector-of-filestream") then inr None else inl 500
  else if (1 <? prsiz)%nat then inl 400
  else inr (Some (content (base w))).

(** [getMultiPartFileList], and the files of the valid ones. *)
Definition getMultiPartFileList (n : bytes) (w : WebRequest) : list MultipartContent :=
  if bool_decide (n ≠ []) then
    filter (λ p, p_tempFileName p ≠ [] ∧ (p_name p = n ∨ prefixb (n ++ [91]) (p_name p) = true)) (map snd (requestParamsF (params w)))
  else WebRequest.contentList (params w).
Definition file_list (n : bytes) (w : WebRequest) : list bytes :=
  map p_tempFileName (filter (λ p, isValid p && isAFile p = true) (getMultiPartFileList n w)).

Section dispatch.
Context {Obj : Type}.

(** The serializers: an object, or the null pointer. *)
Variable unserialize : RestFunction → RestFunctionParams → bytes → outcome (option Obj).
(** Floating point numbers and dates. *)
Variable read_value : RestFunctionParams → bytes → outcome Obj.

(** The conversion by [serOpt]: [inl] is a status that ends the request.  A kind that is not
    listed adds no argument. *)
Definition convert (f : RestFunction) (p : RestFunctionParams) (v : bytes) (w : WebRequest) : outcome (Z + list (argument Obj)) :=
  let o := rp_serOpt p in
  let num c := n ← c; Ret (inr [ArgNumber o n]) in
  let object := x ← unserialize f p v; Ret (match x with Some x => inr [ArgObject x] | None => inl 400 end) in
  if o =? 0 then object
  else if o =? 1 then Ret (inr [ArgString v])
  else if o =? 2 then num (c ← index_ v 0; Ret (schar c))
  else if o =? 3 then num (index_ v 0)
  else if o =? 4 then num (toInt v)
  else if o =? 5 then num (to_unsigned 32 v)
  else if o =? 6 then num (to_signed 16 v)
  else if o =? 7 then num (to_unsigned 16 v)
  else if (o =? 8) || (o =? 10) then num (toLonglong v)
  else if o =? 9 then num (to_unsigned 64 v)
  else if o =? 11 then num (toULonglong v)
  else if o =? 15 then b ← toBool v; Ret (inr [ArgBool b])
  else if (o =? 12) || (o =? 13) || (o =? 14) || (o =? 16) then
    x ← read_value p v; Ret (inr [ArgObject x])
  else if o =? 19 then
    let c := getMultipartContent v w in
    Ret (inr [ArgFile (if isValid c && isAFile c then Some (p_tempFileName c) else None)])
  else if (100 <=? o) && (o <=? 116) then object
  else if o =? 119 then Ret (inr [ArgFiles (file_list (rp_name p) w)])
  else Ret (inr []).

(** The loop over the parameters.  [BLANK] is the static string through which every value
    goes; an exception of a conversion is a bad request. *)
Fixpoint bind_params (f : RestFunction) (prsiz : nat) (ps : list RestFunctionParams) (m : list (bytes * bytes)) (w : WebRequest)
    (BLANK : bytes) : outcome ((Z + list (argument Obj)) * bytes) :=
  match ps with
  | [] => Ret (inr [], BLANK)
  | p :: ps =>
      match param_source p prsiz m w with
      | inl s => Ret (inl s, BLANK)
      | inr src =>
          let BLANK := default BLANK src in
          match convert f p BLANK w with
          | Ret (inl s) => Ret (inl s, BLANK)
          | Ret (inr a) =>
              '(r, BLANK) ← bind_params f prsiz ps m w BLANK;
              Ret (match r with inl s => inl s | inr l => inr (a ++ l) end, BLANK)
          | Throw e => if is_std e then Ret (inl 400, BLANK) else Throw e
          | Undefined => Undefined
          | Out_of_fuel => Out_of_fuel
          end
      end
  end.

(** ** Requests at the same time

    [BLANK] belongs to the class: workers that serve different requests store their values into
    the same string, and read it back.  A worker has the parameters still to be bound; [wk_stored]:
    the value of the first one has been stored; [wk_status]: the request has ended with a status. *)
Record worker := mkWorker {
  wk_function : RestFunction;
  wk_todo : list RestFunctionParams;
  wk_values : list (bytes * bytes);
  wk_request : WebRequest;
  wk_stored : bool;
  wk_args : list (argument Obj);
  wk_status : option Z
}.
Definition wk_start (f : RestFunction) (m : list (bytes * bytes)) (w : WebRequest) : worker := mkWorker f (rf_params f) m w false [] None.
Definition wk_set (stored : bool) (todo : list RestFunctionParams) (args : list (argument Obj)) (st : option Z) (k : worker) : worker :=
  mkWorker (wk_function k) todo (wk_values k) (wk_request k) stored args st.

(** One step of a worker: the store, or the conversion of what the string then holds. *)
Definition worker_step (k : worker) (BLANK : bytes) : option (worker * bytes) :=
  match wk_status k, wk_todo k with
  | None, p :: ps =>
      if wk_stored k then
        match convert (wk_function k) p BLANK (wk_request k) with
        | Ret (inr a) => Some (wk_set false ps (wk_args k ++ a) None k, BLANK)
        | Ret (inl s) => Some (wk_set true (p :: ps) (wk_args k) (Some s) k, BLANK)
        | Throw e => if is_std e then Some (wk_set true (p :: ps) (wk_args k) (Some 400) k, BLANK) else None
        | Undefined | Out_of_fuel => None
        end
      else
        match param_source p (length (rf_params (wk_function k))) (wk_values k) (wk_request k) with
        | inr src => Some (wk_set true (p :: ps) (wk_args k) None k, default BLANK src)
        | inl s => Some (wk_set false (p :: ps) (wk_args k) (Some s) k, BLANK)
        end
  | _, _ => None
  end.

(** Any worker may take the next step. *)
Inductive workers_step : list worker * bytes → list worker * bytes → Prop :=
| workers_step_at ks i k k' B B' : ks !! i = Some k → worker_step k B = Some (k', B') → workers_step (ks, B) (<[i := k']> ks, B').

(** ** The call *)

(** The controllers: whether there is an instance, whether the class has the method for the
    arguments, and the call.  [None] as arguments is the call with request and response.  A
    call leaves by an exception or with a result; either way it may have changed both. *)
Variable has_bean : RestFunction → bool.
Variable has_method : RestFunction → option (list (argument Obj)) → bool.
Variable invoke : RestFunction → option (list (argument Obj)) → WebRequest → HttpResponse → outcome ((exn + option Obj) * WebRequest * HttpResponse).
(** What the serializers append for a result. *)
Inductive format := AsXml | AsJson | AsText.
Variable serialize : format → RestFunction → Obj → bytes.
Variable string_of : Obj → bytes.

Definition status_by_scode (c : bytes) : HTTPResponseStatus :=
  match List.find (λ x, bool_decide (fromNumber x.1 = c)) statuses with Some x => status_by_code x.1 | None => Ok end.
Definition text_plain : bytes := str "text/plain; charset=UTF-8".
Definition application_json : bytes := str "application/json".
Definition application_xml : bytes := str "application/xml".

(** What is made of the result of a call. *)
Definition write_result (f : RestFunction) (out : option Obj) (res : HttpResponse) : outcome HttpResponse :=
  let app fmt ct o res := addHeader (str "Content-Type") ct (set_res_content (res_content res ++ serialize fmt f o) res) in
  let o := rf_serOpt f in
  res ← (if 2000 <=? o then Ret (match out with Some x => app AsXml application_xml x res | None => res end)
         else if 1000 <=? o then Ret (match out with Some x => app AsJson application_json x res | None => res end)
         else if o =? -1 then
           if bool_decide (statusCode f = []) && bool_decide (res_content res = []) then Ret (set_status (status_by_code 204) res)
           else n ← toInt (statusCode f); Ret (set_status (if bool_decide (is_Some (mfind n statuses)) then status_by_code n else Ok) res)
         else if o =? 1 then
           Ret (match out with Some x => addHeader (str "Content-Type") text_plain (res_setContent (string_of x) res) | None => res end)
         else if (17 <? o) || (o =? 0) then
           Ret (match out with
                | Some x => if bool_decide (ocontentType f = text_plain) then app AsText text_plain x res else app AsJson application_json x res
                | None => res
                end)
         else Ret (match out with Some x => app AsText text_plain x res | None => res end));
  Ret (set_status (status_by_scode (statusCode f)) res).

Definition fails (s : Z) (w : WebRequest) (res : HttpResponse) (BLANK : bytes) :=
  (true, w, setDone true (set_status (status_by_code s) res), BLANK).

(** The media type test. *)
Definition media_refused (f : RestFunction) (w : WebRequest) : bool :=
  negb (bool_decide (icontentType f = [])) && negb (prefixb (icontentType f) (HttpRequest.getHeader (str "Content-Type") (base w))).

Definition addRequestHeader (k v : bytes) : WebRequest → WebRequest :=
  set_base (λ r, mkReq (headers_data r) (headers_list r) (add_to_headers k v (headers r)) (methodv r) (pathv r) (queryv r)
    (parser_pos r) (HttpRequest.httpVers r) (HttpRequest.httpVersion r) (cntxt_name r) (ext r) (file r) (status r) (corsRequest r) (content r)).

(** A selected function: its arguments, the call, and the result. *)
Definition call_function (f : RestFunction) (m : list (bytes * bytes)) (w : WebRequest) (res : HttpResponse) (BLANK : bytes)
    : outcome (bool * WebRequest * HttpResponse * bytes) :=
  if negb (has_bean f) then Ret (fails 500 w res BLANK)
  else if media_refused f w then Ret (fails 415 w res BLANK)
  else
    let w := addRequestHeader (str "Content-Type") (icontentType f) w in
    '(r, BLANK) ← (if unmapped f then Ret (inr None, BLANK)
                   else '(r, BLANK) ← bind_params f (length (rf_params f)) (rf_params f) m w BLANK;
                        Ret (match r with inl s => inl s | inr l => inr (Some l) end, BLANK));
    match r with
    | inl s => Ret (fails s w res BLANK)
    | inr args =>
        if has_method f args then
          '(out, w, res) ← invoke f args w res;
          match out with
          | inl e => if is_std e then Ret (fails 500 w res BLANK) else Throw e
          | inr out =>
              match (if unmapped f then Ret (set_status (status_by_scode (statusCode f)) (addHeader (str "Content-Type") (ocontentType f) res))
                     else write_result f out res) with
              | Ret res => Ret (true, w, if code (res_status res) =? 404 then res else setDone true res, BLANK)
              | Throw e => if is_std e then Ret (fails 500 w res BLANK) else Throw e
              | Undefined => Undefined
              | Out_of_fuel => Out_of_fuel
              end
          end
        else Ret (true, w, set_status NotFound res, BLANK)
    end.

(** [handle]: [rst] is the map of the context, if there is one. *)
Definition handle (enableContRst : bool) (rst : option resFuncMap) (w : WebRequest) (res : HttpResponse) (BLANK : bytes)
    : outcome ((exn + bool) * WebRequest * HttpResponse * bytes) :=
  match enableContRst, rst with
  | true, Some rst =>
      method ← read_view (methodv (base w));
      '(l, m, res) ← find_function rst method (curl (urls w)) (actUrlParts (urls w)) res;
      match l with
      | Selected f => '(b, w, res, BLANK) ← call_function f m w res BLANK; Ret (inr b, w, res, BLANK)
      | Escaped e => Ret (inl e, w, res, BLANK)
      | _ => Ret (inr false, w, res, BLANK)
      end
  | _, _ => Ret (inr false, w, res, BLANK)
  end.
End dispatch.

(** ** Values of parameters *)

(** The only kind of parameter whose value is what the string held before. *)
Definition always_stores (p : RestFunctionParams) (prsiz : nat) (m : list (bytes * bytes)) (w : WebRequest) : Prop :=
  param_source p prsiz m w ≠ inr None.

Section values.
Context {Obj : Type} (unserialize : RestFunction → RestFunctionParams → bytes → outcome (option Obj)).
Context (read_value : RestFunctionParams → bytes → outcome Obj).

Abbreviation bind := (bind_params unserialize read_value).
Abbreviation wstep := (worker_step unserialize read_value).
Abbreviation wsteps := (workers_step unserialize read_value).

(** A worker that is not disturbed has the arguments of the loop. *)
Lemma worker_alone f w m ps args B l B' :
  bind f (length (rf_params f)) ps m w B = Ret (inr l, B') →
  rtc wsteps ([mkWorker f ps m w false args None], B) ([mkWorker f [] m w false (args ++ l) None], B').
Proof.
  revert args B l. induction ps as [|p ps IH]; intros args B l H; cbn [bind_params] in H.
  { injection H as <- <-. rewrite app_nil_r. reflexivity. }
  destruct (param_source p _ m w) as [s|src] eqn:Es; [done|].
  destruct (convert unserialize read_value f p (default B src) w) as [[s|a]|e| |] eqn:Ec; try done; [|by destruct (is_std e)].
  apply bind_Ret_inv in H as ([[s|l'] B1] & H1 & [= <- <-]).
  eapply rtc_l; [eapply (workers_step_at _ _ _ 0); [reflexivity|]; cbn; rewrite Es; reflexivity|].
  eapply rtc_l; [eapply (workers_step_at _ _ _ 0); [reflexivity|]; cbn; rewrite Ec; reflexivity|].
  rewrite app_assoc. by apply IH.
Qed.

(** The arguments do not depend on what the string held, if every parameter stores its value. *)
Lemma bind_params_fresh f prsiz ps m w B1 B2 :
  Forall (λ p, always_stores p prsiz m w) ps →
  (x ← bind f prsiz ps m w B1; Ret x.1) = (x ← bind f prsiz ps m w B2; Ret x.1).
Proof.
  intros H. revert B1 B2. induction H as [|p ps Hp Hps IH]; intros B1 B2; [done|].
  cbn [bind_params]. unfold always_stores in Hp. destruct (param_source p prsiz m w) as [s|[v|]]; [done| |done]. cbn [default].
  destruct (convert unserialize read_value f p v w) as [[s|a]| | |]; try done.
Qed.

(** A text parameter taken from the path. *)
Definition text_of_path (p : RestFunctionParams) : Prop := rp_from p = str "path" ∧ rp_serOpt p = 1.
Lemma text_converts f p v w : rp_serOpt p = 1 → convert unserialize read_value f p v w = Ret (inr [ArgString v]).
Proof. intros H. unfold convert. by rewrite H. Qed.
Lemma path_source p n m w v : text_of_path p → mfind (rp_name p) m = Some v → param_source p n m w = inr (Some v).
Proof. intros [H _] Hv. unfold param_source. by rewrite H, bool_decide_true, Hv. Qed.
End values.


(** The next step is one of worker [i], whose first parameter has the source [S]. *)
#[local] Ltac worker_moves i S :=
  eapply rtc_l;
  [ eapply (workers_step_at _ _ _ i); [reflexivity|];
    cbn [worker_step wk_status wk_todo wk_stored wk_set wk_args wk_function wk_values wk_request app];
    rewrite ?S; first [reflexivity | rewrite text_converts by done; reflexivity]
  | cbn [list_insert insert] ].

(** The string of the class is shared by requests that are served at the same time.  A
    function with one text parameter taken from the path gets, when its worker runs alone, the
    value of its own request, whatever the string held before.  With a second worker on
    such a function there is an interleaving in which both calls get the value of the second
    request. *)
Theorem rest_value_race {Obj : Type} (unserialize : RestFunction → RestFunctionParams → bytes → outcome (option Obj))
    (read_value : RestFunctionParams → bytes → outcome Obj) f1 p1 m1 w1 f2 p2 m2 w2 v1 v2 B :
  rf_params f1 = [p1] → rf_params f2 = [p2] → text_of_path p1 → text_of_path p2 →
  mfind (rp_name p1) m1 = Some v1 → mfind (rp_name p2) m2 = Some v2 →
  bind_params unserialize read_value f1 1 (rf_params f1) m1 w1 B = Ret (inr [ArgString v1], v1) ∧
  ∃ k1 k2 B',
    rtc (workers_step unserialize read_value) ([wk_start f1 m1 w1; wk_start f2 m2 w2], B) ([k1; k2], B') ∧
    wk_todo k1 = [] ∧ wk_args k1 = [ArgString v2] ∧ wk_status k1 = None ∧
    wk_todo k2 = [] ∧ wk_args k2 = [ArgString v2] ∧ wk_status k2 = None.
Proof.
  intros H1 H2 F1 F2 V1 V2. pose proof F1 as [_ O1]. pose proof F2 as [_ O2].
  pose proof (λ n w, path_source p1 n m1 w v1 F1 V1) as S1. pose proof (λ n w, path_source p2 n m2 w v2 F2 V2) as S2.
  unfold wk_start. rewrite H1, H2. split.
  { cbn [bind_params]. by rewrite S1, text_converts. }
  eexists _, _, _. split; [|shelve].
  worker_moves 0%nat S1. worker_moves 1%nat S2. worker_moves 0%nat S1. worker_moves 1%nat S2.
  reflexivity. Unshelve. done.
Qed.

Lemma rest_value_race_witness :
  let p := mkRFP (str "id") (str "string") 1 (str "path") [] in
  let f := mkRF (str "read") (str "Items") (str "GET") (str "200") [] [] false 1 (str "string") [p] in
  let w := WebRequest_new HttpRequest_new [] in
  ∃ k1 k2 B',
    rtc (workers_step (λ _ _ _, Ret (None : option unit)) (λ _ _, Undefined))
      ([wk_start f [(str "id", str "7")] w; wk_start f [(str "id", str "8")] w], []) ([k1; k2], B') ∧
    wk_args k1 = [ArgString (str "8")] ∧ wk_args k2 = [ArgString (str "8")].
Proof.
  intros p f w.
  destruct (rest_value_race (λ _ _ _, Ret (None : option unit)) (λ _ _, Undefined) f p [(str "id", str "7")] w
              f p [(str "id", str "8")] w (str "7") (str "8") []) as (_ & k1 & k2 & B' & H & _ & H1 & _ & _ & H2 & _);
    try (done || by split).
  exists k1, k2, B'. done.
Defined.

(** ** The look-up *)

(** A template: its segments are literal texts, or parameters with a text in front of them and
    one behind. *)
Inductive segment := Literal (s : bytes) | Placeholder (pre n suf : bytes).
#[export] Instance segment_eq_dec : EqDecision segment.
Proof. solve_decision. Defined.
Definition segment_text (g : segment) : bytes := match g with Literal s => s | Placeholder pre n suf => pre ++ [123] ++ n ++ [125] ++ suf end.
Definition segment_ok (g : segment) : Prop :=
  match g with
  | Literal s => (123 ∉ s) ∧ (47 ∉ s)
  | Placeholder pre n suf => n ≠ [] ∧ Forall (λ c, c ∉ pre ++ n ++ suf) [123; 125; 47] ∧ (pre = [] → suf = [])
  end.
#[export] Instance segment_ok_dec g : Decision (segment_ok g).
Proof. destruct g; cbn; apply _. Defined.
Definition template_text (method : bytes) (gs : list segment) : bytes := join [47] (method :: map segment_text gs).

(** When a path matches a template. *)
Definition segment_matches (g : segment) (act : bytes) : Prop := match g with Literal s => act = s | Placeholder _ _ _ => True end.
#[export] Instance segment_matches_dec g act : Decision (segment_matches g act).
Proof. destruct g; cbn; apply _. Defined.
Definition template_matches (gs : list segment) (acts : list bytes) : Prop := Forall2 segment_matches gs acts.
#[export] Instance template_matches_dec gs acts : Decision (template_matches gs acts).
Proof. unfold template_matches. apply _. Defined.
(** What a segment of the path has between the texts of a parameter, and whether it has them. *)
Definition segment_value (pre suf act : bytes) : bytes := take (length act - length pre - length suf) (drop (length pre) act).
Definition segment_fits (g : segment) (act : bytes) : Prop :=
  match g with Literal _ => True | Placeholder pre _ suf => act = pre ++ segment_value pre suf act ++ suf end.
#[export] Instance segment_fits_dec g act : Decision (segment_fits g act).
Proof. destruct g; cbn; apply _. Defined.
(** A path can be read by a template of its length when it has the texts around the parameters. *)
Definition readable (acts : list bytes) (gs : list segment) : Prop := length gs = length acts → Forall2 segment_fits gs acts.
#[export] Instance readable_dec acts gs : Decision (readable acts gs).
Proof. unfold readable. apply _. Defined.
(** The values it gives to parameters, the last one of a name winning. *)
Definition bind_segment (m : list (bytes * bytes)) (ga : segment * bytes) : list (bytes * bytes) :=
  match ga.1 with Placeholder pre n suf => mset n (segment_value pre suf ga.2) m | Literal _ => m end.
Definition template_values (gs : list segment) (acts : list bytes) (m : list (bytes * bytes)) : list (bytes * bytes) :=
  foldl bind_segment m (zip gs acts).

Lemma sfind_single c a t : c ∉ a → sfind [c] (a ++ [c] ++ t) = Some (length a).
Proof. apply sfind_char_app. Qed.

Lemma placeholder_chars pre n suf c : segment_ok (Placeholder pre n suf) → c ∈ [123; 125; 47] → (c ∉ pre) ∧ (c ∉ n) ∧ c ∉ suf.
Proof. intros (_ & H & _) Hc. rewrite Forall_forall in H. specialize (H c Hc). rewrite !not_elem_of_app in H. tauto. Qed.

Lemma is_param_segment g : segment_ok g → is_param (segment_text g) = match g with Literal _ => false | Placeholder _ _ _ => true end.
Proof.
  destruct g as [s|pre n suf]; cbn [segment_text]; intros H; unfold is_param.
  - destruct H as [H _]. assert (memb 123 s = false) as -> by (apply not_true_iff_false; by rewrite memb_spec). done.
  - destruct H as (Hn & _). rewrite (proj2 (memb_spec 123 _)), (proj2 (memb_spec 125 _)) by (rewrite !elem_of_app; set_solver). cbn [andb].
    apply Nat.ltb_lt. rewrite !length_app. destruct n; [done|]. cbn. lia.
Qed.

(** Where the braces are, and what they cut the segment into. *)
Lemma braces pre n suf : segment_ok (Placeholder pre n suf) → let seg := pre ++ [123] ++ n ++ [125] ++ suf in
  sfind [123] seg = Some (length pre) ∧ sfind [125] seg = Some (length pre + S (length n))%nat ∧
  take (length pre) seg = pre ∧ take (length n) (drop (S (length pre)) seg) = n ∧ drop (S (length pre + S (length n))) seg = suf.
Proof.
  intros Hok seg. destruct (placeholder_chars pre n suf 123 Hok) as (H1 & _); [set_solver|].
  destruct (placeholder_chars pre n suf 125 Hok) as (H2 & H3 & _); [set_solver|]. subst seg. split_and!.
  - by apply sfind_single.
  - rewrite (app_assoc [123] n), (app_assoc pre), sfind_single.
    + rewrite !length_app. cbn [length]. done.
    + rewrite elem_of_app, elem_of_app, list_elem_of_singleton. intros [?|[?|?]]; done.
  - apply take_app_length.
  - rewrite drop_app_ge by lia. replace (S (length pre) - length pre)%nat with 1%nat by lia. cbn. apply take_app_length.
  - rewrite drop_app_ge by lia. replace (S (length pre + S (length n)) - length pre)%nat with (S (S (length n))) by lia. cbn.
    rewrite drop_app_ge by lia. by replace (S (length n) - length n)%nat with 1%nat by lia.
Qed.

Lemma segment_param_value pre n suf act : segment_ok (Placeholder pre n suf) → segment_fits (Placeholder pre n suf) act →
  segment_param (segment_text (Placeholder pre n suf)) act = Ret (n, segment_value pre suf act).
Proof.
  intros Hok Hf. destruct (braces pre n suf Hok) as (E1 & E2 & E3 & E4 & E5). cbn [segment_text] in *. unfold segment_param.
  set (seg := pre ++ _) in *. rewrite E1, E2. cbn [default id]. rewrite Nat.sub_succ, Nat.sub_0_r, E3, E5.
  destruct (Nat.ltb_spec (length pre + S (length n)) (S (length pre))); [lia|].
  replace (length pre + S (length n) - S (length pre))%nat with (length n) by lia. rewrite E4.
  destruct (Nat.ltb_spec 1 (S (length pre))) as [Hp|Hp].
  - cbn [segment_fits] in Hf. set (v := segment_value pre suf act) in *. clearbody v. subst act.
    rewrite sfind_here. rewrite !slen_app.
    replace (slen pre + (slen v + slen suf) - slen pre - slen suf) with (slen v) by lia.
    pose proof (slen_nonneg v). replace (slen v <? 0) with false by lia. by rewrite (substr_app_mid pre v suf) by lia.
  - destruct pre; [|cbn in Hp; lia]. destruct Hok as (_ & _ & ->); [|done]. unfold segment_value. cbn [length drop].
    by rewrite !Nat.sub_0_r, firstn_all.
Qed.

Lemma match_segments_spec gs acts m :
  Forall segment_ok gs → Forall2 segment_fits gs acts →
  ∃ b m', match_segments (map segment_text gs) acts m = Ret (b, m') ∧ (b = true ↔ template_matches gs acts) ∧
    (b = true → m' = template_values gs acts m).
Proof.
  intros H Hl. revert H m. induction Hl as [|g act gs acts Ha Hl IH]; intros H m.
  { exists true, m. split_and!; [done| |done]. split; [constructor|done]. }
  apply Forall_cons in H as [Hg Hgs]. specialize (IH Hgs).
  cbn [map match_segments]. rewrite is_param_segment by done. unfold template_matches, template_values in *. cbn [zip zip_with foldl].
  destruct g as [s|pre n suf].
  - cbn [segment_text]. case_bool_decide as E.
    + subst. destruct (IH m) as (b & m' & -> & Hb & Hm). exists b, m'. split_and!; [done| |done].
      rewrite Hb, Forall2_cons. cbn. tauto.
    + exists false, m. split_and!; [done| |done]. rewrite Forall2_cons. cbn. naive_solver.
  - rewrite segment_param_value, bind_Ret_l by done. destruct (IH (mset n (segment_value pre suf act) m)) as (b & m' & -> & Hb & Hm).
    exists b, m'. split_and!; [done| |done]. rewrite Hb, Forall2_cons. cbn. tauto.
Qed.

Lemma match_template_spec method gs acts m :
  47 ∉ method → Forall segment_ok gs → readable acts gs →
  ∃ b m', match_template (template_text method gs) acts m = Ret (b, m') ∧ (b = true ↔ template_matches gs acts) ∧
    (b = true → m' = template_values gs acts m).
Proof.
  intros Hm Hgs Hr. unfold match_template, template_text. rewrite split_of_join; [|done|].
  2:{ apply Forall_cons. split; [done|]. apply Forall_fmap. eapply Forall_impl; [exact Hgs|]. unfold compose.
      intros [s|pre n suf] Hg; [apply Hg|]. destruct (placeholder_chars pre n suf 47 Hg) as (H1 & H2 & H3); [set_solver|].
      cbn [segment_text]. rewrite !elem_of_app, !list_elem_of_singleton. intros [?|[?|[?|[?|?]]]]; done. }
  cbn [length tail]. rewrite length_map, Nat.sub_succ, Nat.sub_0_r. destruct (Nat.eqb_spec (length acts) (length gs)) as [E|E].
  - by apply match_segments_spec; [|apply Hr].
  - exists false, m. split_and!; [done| |done]. split; [done|]. intros H. by apply Forall2_length in H.
Qed.

(** A route: the method and template of a key, and its functions. *)
Definition route : Type := bytes * list segment * list RestFunction.
Definition route_ok (r : route) : Prop := (47 ∉ r.1.1) ∧ Forall segment_ok r.1.2.
#[export] Instance route_ok_dec r : Decision (route_ok r).
Proof. unfold route_ok. apply _. Defined.
Definition route_map (rs : list route) : resFuncMap := map (λ r, (template_text r.1.1 r.1.2, r.2)) rs.
(** The functions that the look-up tries, in its order. *)
Definition mapped_functions (r : route) : list (list segment * RestFunction) :=
  map (pair r.1.2) (filter (λ f, unmapped f = false) r.2).
Definition candidates (rs : list route) : list (list segment * RestFunction) := flat_map mapped_functions rs.
Definition first_matching (acts : list bytes) (cs : list (list segment * RestFunction)) : option (list segment * RestFunction) :=
  List.find (λ c, bool_decide (template_matches c.1 acts)) cs.

(** What the look-up gives for the first function whose template matches. *)
Definition lookup_result (first : option (list segment * RestFunction)) (method : bytes) (acts : list bytes)
    (o : outcome (lookup * list (bytes * bytes) * HttpResponse)) : Prop :=
  ∃ l m res, o = Ret (l, m, res) ∧
    match first with
    | None => l = Missing ∧ done_ res = false
    | Some (gs, f) =>
        if bool_decide (toUpper (rf_meth f) = method)
        then l = Selected f ∧ done_ res = false ∧ ∃ m0, m = template_values gs acts m0
        else l = Mismatch ∧ done_ res = true ∧ res_status res = InvalidMethod
    end.

Lemma scan_functions_spec mth gs fts method acts m res :
  47 ∉ mth → Forall segment_ok gs → readable acts gs → done_ res = false →
  lookup_result (first_matching acts (mapped_functions (mth, gs, fts))) method acts
    (scan_functions (template_text mth gs) fts method acts m res).
Proof.
  intros Hm Hgs Hr. unfold mapped_functions. cbn [fst snd]. revert m res. induction fts as [|f fts IH]; intros m res Hd.
  { exists Missing, m, res. done. }
  cbn [scan_functions]. rewrite filter_cons. destruct (unmapped f) eqn:Eu.
  { rewrite decide_False by done. by apply IH. }
  rewrite decide_True by done. unfold first_matching. cbn [map List.find fst].
  destruct (match_template_spec mth gs acts m Hm Hgs Hr) as (b & m' & -> & Hb & Hv). destruct b.
  - rewrite bool_decide_true by (by apply Hb). unfold lookup_result. case_bool_decide; eexists _, _, _; (split; [reflexivity|]); [|done].
    split_and!; [done|done|]. exists m. by apply Hv.
  - rewrite bool_decide_false by (by rewrite <- Hb). by apply IH.
Qed.

Lemma find_app {A} (f : A → bool) l1 l2 : List.find f (l1 ++ l2) = match List.find f l1 with Some x => Some x | None => List.find f l2 end.
Proof. induction l1 as [|x l1 IH]; [done|]. cbn. by destruct (f x). Qed.

Lemma scan_templates_spec rs method acts m res :
  Forall route_ok rs → Forall (λ r, readable acts r.1.2) rs → done_ res = false →
  lookup_result (first_matching acts (candidates rs)) method acts (scan_templates (route_map rs) method acts m res).
Proof.
  intros H. revert m res. induction H as [|[[mth gs] fts] rs [Hm Hgs] Hrs IH]; intros m res Hf Hd.
  { by exists Missing, m, res. }
  apply Forall_cons in Hf as [Hr Hf]. cbn [route_map map scan_templates candidates flat_map fst snd] in *. unfold first_matching. rewrite find_app.
  pose proof (scan_functions_spec mth gs fts method acts m res Hm Hgs Hr Hd) as (l & m' & res' & -> & Hl).
  rewrite bind_Ret_l. unfold first_matching in Hl. destruct (List.find _ (mapped_functions _)) as [[gs' f]|].
  - case_bool_decide as E.
    + destruct Hl as (-> & Hd' & Hm'). eexists _, _, _. split; [reflexivity|]. by rewrite bool_decide_true.
    + destruct Hl as (-> & Hd' & Hs). rewrite Hd'. eexists _, _, _. split; [reflexivity|]. by rewrite bool_decide_false.
  - destruct Hl as [-> Hd']. rewrite Hd'. by apply IH.
Qed.

Lemma segment_value_app pre v suf : segment_value pre suf (pre ++ v ++ suf) = v.
Proof.
  unfold segment_value. rewrite drop_app_length, !length_app.
  replace (length pre + (length v + length suf) - length pre - length suf)%nat with (length v) by lia. apply take_app_length.
Qed.

(** The placeholders of a template with distinct names have their parts of the path. *)
Definition placeholder_names (gs : list segment) : list bytes :=
  omap (λ g, match g with Placeholder _ n _ => Some n | Literal _ => None end) gs.
Lemma template_values_lookup gs acts m pre n suf a :
  NoDup (placeholder_names gs) →
  (Placeholder pre n suf, a) ∈ zip gs acts → mfind n (template_values gs acts m) = Some (segment_value pre suf a).
Proof.
  unfold template_values, placeholder_names. revert acts m. induction gs as [|g gs IH]; intros acts m Hnd Hin; [by apply elem_of_nil in Hin|].
  destruct acts as [|act acts]; [by apply elem_of_nil in Hin|]. cbn [zip zip_with foldl] in *.
  apply elem_of_cons in Hin as [[= <- <-]|Hin].
  - cbn [omap list_omap] in Hnd. apply NoDup_cons in Hnd as [Hn Hnd].
    assert (∀ acts m, mfind n m = Some (segment_value pre suf a) → mfind n (foldl bind_segment m (zip gs acts)) = Some (segment_value pre suf a)) as Hkeep.
    { clear IH Hnd. induction gs as [|g gs IHg]; intros acts' m' Hm'; [done|]. destruct acts' as [|act acts']; [done|].
      cbn [zip zip_with foldl]. apply IHg.
      - intros H. apply Hn. cbn [omap list_omap]. destruct g; [done|]. by right.
      - unfold bind_segment. cbn. destruct g as [s|pre' n' suf']; [done|]. rewrite mfind_mset_ne; [done|]. intros ->. apply Hn. by left. }
    apply Hkeep. cbn. apply mfind_mset_eq.
  - apply IH; [|done]. cbn [omap list_omap] in Hnd. destruct g; [done|]. by apply NoDup_cons in Hnd as [_ ?].
Qed.

(** C34: Looking up a REST function, for templates whose segments are literal texts without
    braces or placeholders with texts in front of and behind the name (none behind if none in
    front), and a path that has these texts wherever a template of its length has a placeholder.
    A path that is no key itself is tried against the templates in the order of the keys, [GET]
    before [POST] before [PUT]; the first function whose template matches decides. If its method
    is that of the request it is selected, and each of its placeholders, when their names are
    distinct, has what the segment of the path has between the texts; if not, the answer is 405
    and the look-up ends, whatever functions come behind it; if no template matches, there is no
    function. *)
Theorem rest_lookup rs method curl acts res :
  Forall route_ok rs → Forall (λ r, readable acts r.1.2) rs → done_ res = false → mfind (method ++ curl) (route_map rs) = None →
  ∃ l m res', find_function (route_map rs) method curl acts res = Ret (l, m, res') ∧
    match first_matching acts (candidates rs) with
    | None => l = Missing ∧ done_ res' = false
    | Some (gs, f) =>
        template_matches gs acts ∧
        if bool_decide (toUpper (rf_meth f) = method) then
          l = Selected f ∧ done_ res' = false ∧
          (NoDup (placeholder_names gs) →
           ∀ pre n suf v, (Placeholder pre n suf, pre ++ v ++ suf) ∈ zip gs acts → mfind n m = Some v)
        else l = Mismatch ∧ done_ res' = true ∧ res_status res' = InvalidMethod
    end.
Proof.
  intros Hrs Hf Hd Hk. unfold find_function. rewrite Hk.
  destruct (scan_templates_spec rs method acts [] res Hrs Hf Hd) as (l & m & res' & -> & Hl). exists l, m, res'. split; [done|].
  destruct (first_matching acts (candidates rs)) as [[gs f]|] eqn:E; [|done]. split.
  - apply List.find_some in E as [_ E]. by apply bool_decide_eq_true in E.
  - case_bool_decide; [|done]. destruct Hl as (-> & Hd' & m0 & ->). split_and!; [done|done|].
    intros Hnd pre n suf v Hin. by rewrite (template_values_lookup gs acts m0 pre n suf _ Hnd Hin), segment_value_app.
Qed.

(** A service with the same path under two methods, of which the second cannot be reached in
    the order in which they stand, and one with texts in front of its parameters. *)
Definition sample_function (name meth : bytes) : RestFunction := mkRF name (str "Items") meth (str "200") [] [] false 1 (str "string") [].
Definition item_template : list segment := [Literal []; Literal (str "app"); Literal (str "item"); Placeholder [] (str "id") []].
Definition power_template : list segment :=
  [Literal []; Literal (str "app"); Placeholder (str "base") (str "1") []; Literal (str "power"); Placeholder (str "exp") (str "2") []].
Definition sample_routes : list route :=
  [(str "GET", item_template, [sample_function (str "read") (str "GET")]);
   (str "GET", power_template, [sample_function (str "power") (str "GET")]);
   (str "POST", item_template, [sample_function (str "store") (str "POST")])].

Lemma rest_lookup_witness :
  let acts := [[]; str "app"; str "item"; str "7"] in
  let power := [[]; str "app"; str "base2"; str "power"; str "exp8"] in
  (∃ m res', find_function (route_map sample_routes) (str "GET") (str "/app/item/7") acts HttpResponse_new =
     Ret (Selected (sample_function (str "read") (str "GET")), m, res') ∧ mfind (str "id") m = Some (str "7")) ∧
  (∃ m res', find_function (route_map sample_routes) (str "GET") (str "/app/base2/power/exp8") power HttpResponse_new =
     Ret (Selected (sample_function (str "power") (str "GET")), m, res') ∧ mfind (str "1") m = Some (str "2") ∧ mfind (str "2") m = Some (str "8")) ∧
  (∃ m res', find_function (route_map sample_routes) (str "POST") (str "/app/item/7") acts HttpResponse_new = Ret (Mismatch, m, res') ∧
     res_status res' = InvalidMethod).
Proof.
  intros acts power. assert (Forall route_ok sample_routes) as Hr by (by apply (bool_decide_unpack _); vm_compute).
  assert (Forall (λ r, readable acts r.1.2) sample_routes) as Ha by (by apply (bool_decide_unpack _); vm_compute).
  assert (Forall (λ r, readable power r.1.2) sample_routes) as Hp by (by apply (bool_decide_unpack _); vm_compute). split_and!.
  - destruct (rest_lookup sample_routes (str "GET") (str "/app/item/7") acts HttpResponse_new Hr Ha) as (l & m & res' & E & H); [done|by vm_compute|].
    vm_compute in H. destruct H as (_ & -> & _ & Hv). exists m, res'. split; [exact E|].
    apply (Hv ltac:(by apply (bool_decide_unpack _); vm_compute) [] _ [] (str "7")). by do 3 right; left.
  - destruct (rest_lookup sample_routes (str "GET") (str "/app/base2/power/exp8") power HttpResponse_new Hr Hp) as (l & m & res' & E & H); [done|by vm_compute|].
    vm_compute in H. destruct H as (_ & -> & _ & Hv). specialize (Hv ltac:(by apply (bool_decide_unpack _); vm_compute)).
    exists m, res'. split; [exact E|]. split.
    + apply (Hv (str "base") _ [] (str "2")). by do 2 right; left.
    + apply (Hv (str "exp") _ [] (str "8")). by do 4 right; left.
  - destruct (rest_lookup sample_routes (str "POST") (str "/app/item/7") acts HttpResponse_new Hr Ha) as (l & m & res' & E & H); [done|by vm_compute|].
    vm_compute in H. destruct H as (_ & -> & _ & Hs). exists m, res'. split; [exact E|exact Hs].
Defined.

(** A segment without the text in front of its parameter still matches: it is cut as if that
    text were there and a character shorter, and one that is too short throws. *)
Example texts_not_looked_at :
  segment_param (str "base{1}") (str "cube27") = Ret (str "1", str "e2") ∧ segment_param (str "base{1}") (str "ab") = Throw Out_of_range.
Proof. split; reflexivity. Qed.
