(* ===== verification/Security.v ===== *)
(** * Security

    Logins, secured paths, sessions and filters: [framework/SecurityHandler.cpp],
    [framework/FileAuthController.cpp], [framework/FilterHandler.cpp], [http/HttpSession.cpp]
    and [storeSessionAttributes] of [framework/ServiceTask.cpp].

    The classes of an application (providers of logins, filters) are arguments. *)

From S2P Require Import Prelude StdMap StdString StringUtil TextCoding RegexUtil Routing HttpRequest Multipart HttpResponse.
From S2P Require Import WebRequest Forms RequestBuilder Rest.

(** ** Users in a file *)

(** [FileAuthController]: lines of a name, a password and a role. *)
Record FileAuthController := mkFileAuth { filename : bytes; delimiter : bytes }.

Definition isInitialized (fs : files) (a : FileAuthController) : bool := bool_decide (is_Some (fopen fs (filename a))).

Definition authenticate (fs : files) (a : FileAuthController) (username password : bytes) : bool :=
  match fopen fs (filename a) with
  | Some t => existsb (contains (username ++ delimiter a ++ password)) (lines_of t)
  | None => false
  end.

(** A field of the first line of a user that has it. *)
Definition has_field (a : FileAuthController) (username : bytes) (pos : nat) (l : bytes) : option bytes :=
  match splitAndReturn l (delimiter a) false with
  | u :: rest => if bool_decide (u = username) then (u :: rest) !! pos else None
  | [] => None
  end.
Fixpoint first_some {A B} (f : A → option B) (l : list A) : option B :=
  match l with [] => None | x :: l => match f x with Some y => Some y | None => first_some f l end end.
Definition user_field (fs : files) (a : FileAuthController) (username : bytes) (pos : nat) : option bytes :=
  match fopen fs (filename a) with
  | Some t => if bool_decide (username = []) then None else first_some (has_field a username pos) (lines_of t)
  | None => None
  end.
Definition getPassword (fs : files) (a : FileAuthController) (username passwd : bytes) : bool * bytes :=
  match user_field fs a username 1 with Some p => (true, p) | None => (false, passwd) end.
Definition getUserRole (fs : files) (a : FileAuthController) (username : bytes) : bytes := default [] (user_field fs a username 2).
(** [get]: every line has a field at a negative position, and reading it throws. *)
Definition get (fs : files) (a : FileAuthController) (username : bytes) (pos : Z) : outcome bytes :=
  if pos <? 0 then match user_field fs a username 0 with Some _ => Throw Out_of_range | None => Ret [] end
  else Ret (default [] (user_field fs a username (Z.to_nat pos))).

(** ** Sessions *)

Definition getAttribute (k : bytes) (w : WebRequest) : bytes := default [] (mfind k (sessionAttributes (auth w))).
Definition set_session (m : list (bytes * bytes)) (d : bool) (a : Auth) : Auth :=
  mkAuth (userName a) (password a) (authMethod a) (cookie a) (cookieattrs a) m d.
Definition setAttribute (k v : bytes) : WebRequest → WebRequest := set_auth (λ a, set_session (mset k v (sessionAttributes a)) true a).
Definition setSessionAttributes (m : list (bytes * bytes)) : WebRequest → WebRequest :=
  set_auth (λ a, set_session (foldl (λ acc kv, mset kv.1 kv.2 acc) (sessionAttributes a) m) (dirty a) a).

Definition hasCookie (w : WebRequest) : bool :=
  cookie (auth w) && negb (bool_decide (trim (default [] (mfind (str "FFEADID") (cookieattrs (auth w)))) = [])).

(** The session of a request that comes with cookies is made of all of them. *)
Definition take_session (w : WebRequest) : WebRequest := if hasCookie w then setSessionAttributes (cookieattrs (auth w)) w else w.

(** The attributes as cookies. *)
Definition escape_cookie (s : bytes) : outcome bytes :=
  s ← replaceAll s (str "; ") (str "%3B%20"); replaceAll s (str "=") (str "%3D").
Definition addCookie (c : bytes) (r : HttpResponse) : HttpResponse :=
  mkRes (done_ r) (HttpResponse.httpVers r) (conn_clos r) (HttpResponse.httpVersion r) (res_status r) (res_content r) (cookies r ++ [c])
    (res_headers r) (HttpResponse.contentList r) (techunkSiz r) (teparts r) (tecurrpart r) (hasContent r) (intCntLen r).
Fixpoint add_cookies (expires : bytes) (m : list (bytes * bytes)) (r : HttpResponse) : outcome HttpResponse :=
  match m with
  | [] => Ret r
  | (k, v) :: m =>
      k ← escape_cookie k; v ← escape_cookie v;
      add_cookies expires m (addCookie (k ++ [61] ++ v ++ str "; expires=" ++ expires ++ str " GMT; path=/; HttpOnly") r)
  end.
(** [storeSessionAttributes]; [expires] is the formatted date.  With attributes at the
    server what would be saved is only put together. *)
Definition storeSessionAttributes (expires : bytes) (sessatserv : bool) (w : WebRequest) (r : HttpResponse) : outcome HttpResponse :=
  if (negb (hasCookie w) || dirty (auth w)) && negb sessatserv then add_cookies expires (sessionAttributes (auth w)) r else Ret r.

(** ** Logins *)

(** A class with the three methods of a provider: whether there is an instance that is
    initialized, the test of a password, and the role. *)
Record AuthClass := mkAuthClass { ac_inited : bool; ac_authenticate : bytes → bytes → bool; ac_getUserRole : bytes → bytes }.

Definition role_attribute : bytes := str "_FFEAD_USER_ACCESS_ROLE".
Definition redirect (w : WebRequest) (cn page : bytes) (res : HttpResponse) : HttpResponse :=
  setDone true (HttpResponse.addHeader (str "Location") ([47] ++ cn ++ [47] ++ page) (set_status (status_by_code 307) res)).

Section security.
Context `{re : !Regex}.
Variable fs : files.
(** [None]: one of the methods is missing. *)
Variable auth_class : bytes → option AuthClass.

(** Where a field of the login form comes from. *)
Definition login_field (s : Security) (which fallback : bytes) (basic : bytes) (w : WebRequest) : bytes :=
  let fld := default [] (mfind which (securityFieldNames s)) in
  let from := default [] (mfind which (securityFieldFrom s)) in
  if bool_decide (authMethod (auth w) = str "basic") then basic
  else if bool_decide (from = str "reqparam") then getQueryParam fld w
  else if bool_decide (from = str "postparam") then getRequestParam fld w
  else if bool_decide (from = str "header") then HttpRequest.getHeader fld (base w)
  else getRequestParam fallback w.

(** [populateAuthDetails], for the providers of the context if it has some. *)
Definition populateAuthDetails (provs : list (bytes * Security)) (w : WebRequest) : WebRequest :=
  match login_page provs (curl (urls w)) with
  | [] => w
  | k =>
      match mfind k provs with
      | None => w
      | Some s =>
          let u := login_field s (str "username") (str "_ffead_security_cntxt_username") (userName (auth w)) w in
          let p := login_field s (str "password") (str "_ffead_security_cntxt_password") (password (auth w)) w in
          set_auth (λ a, mkAuth u p (authMethod a) (cookie a) (cookieattrs a) (sessionAttributes a) (dirty a)) w
      end
  end.

(** The provider of a login: whether the user is valid, whether the answer is 401 at once,
    and the role; [None] when the class lacks a method.  The role a class gives is kept in a
    variable of its own. *)
Definition check_login (cntxt_root claz username password userRole : bytes) : option (bool * bool * bytes) :=
  let behind_colon := drop (match sfind [58] claz with Some i => S i | None => 0%nat end) claz in
  if contains (str "file:") claz then
    let a := mkFileAuth (cntxt_root ++ [47] ++ behind_colon) [58] in
    if isInitialized fs a then
      if authenticate fs a username password then Some (true, false, getUserRole fs a username) else Some (false, true, userRole)
    else Some (false, false, userRole)
  else if contains (str "class:") claz then
    c ← auth_class behind_colon;
    if ac_inited c then if ac_authenticate c username password then Some (true, false, userRole) else Some (false, true, userRole)
    else Some (false, false, userRole)
  else Some (false, false, userRole).

(** [SecurityHandler::handle]: whether the request is settled. *)
Definition handle (provs : list (bytes * Security)) (w : WebRequest) (res : HttpResponse) (c : cache)
    : outcome (bool * WebRequest * HttpResponse * cache) :=
  cn ← read_view (cntxt_name (base w));
  let url := curl (urls w) in
  let userRole := getAttribute role_attribute w in
  let userRole := if bool_decide (userRole = []) then str "ROLE_ANONYMOUS" else userRole in
  let username := userName (auth w) in
  '(provKey, c) ← validateSecurePath provs url username c;
  if bool_decide (provKey = []) then Ret (false, w, res, c)
  else
    match mfind provKey provs with
    | None => Undefined (* it is one of them *)
    | Some s =>
        '(aspect, c) ← matchesPath s url c;
        if negb (isLoginPage s url) then
          if negb (bool_decide (path aspect = [])) then Ret (false, w, res, c)
          else if negb (bool_decide (role aspect = userRole)) then Ret (true, w, redirect w cn (loginUrl s) res, c)
          else Ret (false, w, res, c)
        else if negb (bool_decide (username = [])) then
          match check_login (cntxt_root (urls w)) (loginProvider s) username (password (auth w)) userRole with
          | None => Ret (false, w, res, c)
          | Some (true, _, userRole) =>
              Ret (true, setAttribute role_attribute userRole w, redirect w cn (welcomeFile s) res, c)
          | Some (false, _, _) =>
              Ret (true, setAttribute role_attribute (str "ROLE_ANONYMOUS") w, setDone true (set_status (status_by_code 401) res), c)
          end
        else Ret (false, w, res, c)
    end.
End security.

(** ** Filters *)

Section filters.
Context `{re : !Regex}.

(** The methods of the filter classes, where a class has them.  A call leaves by an exception
    or normally; either way it may have changed what it was given. *)
Variable doInputFilter : bytes → option (WebRequest → outcome (option exn * WebRequest)).
Variable doHandle : bytes → option (WebRequest → HttpResponse → outcome ((exn + bool) * WebRequest * HttpResponse)).
Variable doOutputFilter : bytes → option (HttpResponse → outcome (option exn * HttpResponse)).

Fixpoint input_filters (l : list bytes) (w : WebRequest) : outcome (option exn * WebRequest) :=
  match l with
  | [] => Ret (None, w)
  | k :: l =>
      match doInputFilter k with
      | None => input_filters l w
      | Some f => '(x, w) ← f w; match x with Some e => Ret (Some e, w) | None => input_filters l w end
      end
  end.
(** The result of the last filter decides whether the request goes on. *)
Fixpoint handle_filters (l : list bytes) (b : bool) (w : WebRequest) (res : HttpResponse) : outcome ((exn + bool) * WebRequest * HttpResponse) :=
  match l with
  | [] => Ret (inr b, w, res)
  | k :: l =>
      match doHandle k with
      | None => handle_filters l b w res
      | Some f => '(x, w, res) ← f w res; match x with inl e => Ret (inl e, w, res) | inr b => handle_filters l b w res end
      end
  end.
Fixpoint output_filters (l : list bytes) (res : HttpResponse) : outcome (option exn * HttpResponse) :=
  match l with
  | [] => Ret (None, res)
  | k :: l =>
      match doOutputFilter k with
      | None => output_filters l res
      | Some f => '(x, res) ← f res; match x with Some e => Ret (Some e, res) | None => output_filters l res end
      end
  end.

Abbreviation filterMap := (list (bytes * list bytes)).
Definition handleIn (m : filterMap) (w : WebRequest) (c : cache) : outcome (option exn * WebRequest * cache) :=
  '(l, c) ← getFilterForPath m (str "in") (curl (urls w)) c;
  '(x, w) ← input_filters (default [] l) w; Ret (x, w, c).
Definition filter_handle (m : filterMap) (w : WebRequest) (res : HttpResponse) (c : cache)
    : outcome ((exn + bool) * WebRequest * HttpResponse * cache) :=
  '(l, c) ← getFilterForPath m (str "handle") (curl (urls w)) c;
  '(x, w, res) ← handle_filters (default [] l) true w res; Ret (x, w, res, c).
Definition handleOut (m : filterMap) (w : WebRequest) (res : HttpResponse) (c : cache) : outcome (option exn * HttpResponse * cache) :=
  '(l, c) ← getFilterForPath m (str "out") (curl (urls w)) c;
  '(x, res) ← output_filters (default [] l) res; Ret (x, res, c).
End filters.

(** ** Secured paths *)

Lemma mfind_of_in {V} (k : bytes) (v : V) m : NoDup (map fst m) → (k, v) ∈ m → mfind k m = Some v.
Proof.
  induction m as [|[k' v'] m IH]; [by intros _ ?%elem_of_nil|]. cbn [map fst mfind]. intros [Hn Hnd]%NoDup_cons.
  intros [[= <- <-]|H]%elem_of_cons; [by rewrite decide_True|]. rewrite decide_False; [by apply IH|].
  intros <-. apply Hn. apply list_elem_of_fmap. by exists (k, v).
Qed.

Section secured.
Context `{re : !Regex}.

Lemma secured_open fs auth_class provs w res c cn k c' :
  cntxt_name (base w) = View cn → NoDup (map fst provs) → Forall (λ kv, loginUrl kv.2 ≠ curl (urls w)) provs →
  validateSecurePath provs (curl (urls w)) (userName (auth w)) c = Ret (k, c') →
  handle fs auth_class provs w res c = Ret (false, w, res, c').
Proof.
  intros Hcn Hnd Hl Hv. unfold handle. rewrite Hcn. cbn [read_view]. rewrite bind_Ret_l, Hv, bind_Ret_l.
  case_bool_decide; [done|]. destruct (validateSecurePath_spec _ _ _ _ _ _ Hv) as [|(s & a & Hin & Hm & _ & Ha)]; [done|].
  rewrite (mfind_of_in _ _ _ Hnd Hin), Hm, bind_Ret_l.
  rewrite Forall_forall in Hl. specialize (Hl _ Hin). cbn in Hl.
  assert (isLoginPage s (curl (urls w)) = false) as Hp by (apply bool_decide_eq_false; congruence).
  rewrite Hp in *. cbn [negb]. destruct Ha as [[Ha _]|[? _]]; [|done]. by rewrite bool_decide_false.
Qed.

(** C37: A secured path is not secured.  The handler looks for a provider that wants a login
    for the path; when it finds one whose path asks for a role, it writes a line to the log.
    So for every path that is no login page the request goes on as it came, whoever sends it,
    whatever role the path asks for, and the session is not consulted. *)
Theorem secured_paths_stay_open fs auth_class provs w res c cn k c' :
  cntxt_name (base w) = View cn → NoDup (map fst provs) → Forall (λ kv, loginUrl kv.2 ≠ curl (urls w)) provs →
  validateSecurePath provs (curl (urls w)) (userName (auth w)) c = Ret (k, c') →
  handle fs auth_class provs w res c = Ret (false, w, res, c').
Proof. apply secured_open. Qed.
End secured.

Definition admin_only : Security :=
  mkSecurity [(str "/admin/*", mkAspect (str "/admin/*") (str "ROLE_ADMIN"))] (str "file:users.txt") (str "login.html") (str "index.html") [] [].
Definition at_path (p : string) : WebRequest :=
  set_urls (λ u, mkUrls (cntxt_root u) (url u) (str p) (actUrl u) (actUrlParts u))
    (set_base (setCntxt_name (str "app")) (WebRequest_new HttpRequest_new [])).

Lemma secured_paths_stay_open_witness :
  (let _ := no_regex in validateSecurePath [(str "p", admin_only)] (str "/admin/users") [] cache_new) = Ret (str "p", cache_new) ∧
  (let _ := no_regex in handle ∅ (λ _, None) [(str "p", admin_only)] (at_path "/admin/users") HttpResponse_new cache_new) =
    Ret (false, at_path "/admin/users", HttpResponse_new, cache_new).
Proof.
  assert ((let _ := no_regex in validateSecurePath [(str "p", admin_only)] (str "/admin/users") [] cache_new) = Ret (str "p", cache_new)) as H
    by reflexivity.
  split; [exact H|]. eapply (@secured_paths_stay_open no_regex ∅ (λ _, None) [(str "p", admin_only)] (at_path "/admin/users") HttpResponse_new
    cache_new (str "app") (str "p") cache_new); [reflexivity| | |exact H].
  - by apply (bool_decide_unpack _); vm_compute.
  - by apply (bool_decide_unpack _); vm_compute.
Defined.

(** ** Users in a file *)

(** The lines of the file in which a name, the delimiter and a password stand one after
    the other, anywhere in the line. *)
Definition line_with (u d p l : bytes) : Prop := ∃ x y, l = x ++ (u ++ d ++ p) ++ y.

Lemma authenticate_spec fs a u p : delimiter a ≠ [] →
  authenticate fs a u p = true ↔ ∃ t l, fopen fs (filename a) = Some t ∧ l ∈ lines_of t ∧ line_with u (delimiter a) p l.
Proof.
  intros Hd. unfold authenticate. destruct (fopen fs (filename a)) as [t|]; [|split; [done|by intros (? & ? & ? & _)]].
  rewrite existsb_exists. split.
  - intros (l & Hl & Hc). apply contains_spec in Hc as (x & y & ->); [|by destruct u, (delimiter a)].
    exists t, (x ++ (u ++ delimiter a ++ p) ++ y). split_and!; [done|by apply list_elem_of_In|by exists x, y].
  - intros (t' & l & [= <-] & Hl & x & y & ->). eexists. split; [by apply list_elem_of_In in Hl|].
    apply contains_spec; [by destruct u, (delimiter a)|]. by exists x, y.
Qed.

(** Passwords in a file.  A user is let in when the name, the delimiter and the password stand
    somewhere in a line.  So every beginning of a password is as good as the password, the
    empty one included, and a name is as good without its first letters; nobody else is let
    in, and nobody if there is no file. *)
Theorem file_passwords fs a u p :
  delimiter a ≠ [] →
  (authenticate fs a u p = true ↔ ∃ t l, fopen fs (filename a) = Some t ∧ l ∈ lines_of t ∧ line_with u (delimiter a) p l) ∧
  (authenticate fs a u p = true → ∀ n m, authenticate fs a (drop m u) (take n p) = true).
Proof.
  intros Hd. split; [by apply authenticate_spec|]. rewrite authenticate_spec by done. intros (t & l & Ht & Hl & x & y & ->) n m.
  apply authenticate_spec; [done|]. eexists t, _. split_and!; [done|exact Hl|]. exists (x ++ take m u), (drop n p ++ y).
  rewrite <- (take_drop m u) at 1. rewrite <- (take_drop n p) at 1. by rewrite <- !app_assoc.
Qed.

Definition user_list : files := {[ str "/srv/users.txt" := str "alice:wonderland:ROLE_ADMIN" ++ [10] ++ str "bob:builder:ROLE_USER" ]}.
Lemma file_passwords_witness :
  let a := mkFileAuth (str "/srv/users.txt") (str ":") in
  authenticate user_list a (str "alice") (str "wonderland") = true ∧ authenticate user_list a (str "alice") [] = true ∧
  authenticate user_list a (str "e") (str "won") = true.
Proof.
  intros a. destruct (file_passwords user_list a (str "alice") (str "wonderland")) as [H1 H2]; [done|].
  assert (authenticate user_list a (str "alice") (str "wonderland") = true) as H.
  { apply H1. eexists _, (str "alice:wonderland:ROLE_ADMIN"). split_and!; [reflexivity|by left|]. exists [], (str ":ROLE_ADMIN"). reflexivity. }
  split_and!; [done|exact (H2 H 0%nat 0%nat)|exact (H2 H 3%nat 4%nat)].
Defined.

(** ** Sessions in cookies *)

(** The equals sign is written as an escape, and read back as it was written. *)
Definition cookie_text (s : bytes) : bytes := flat_map (λ x, if x =? 61 then str "%3D" else [x]) s.
Definition cookie_char (c : Z) : Prop := c ≠ 59 ∧ ¬ ws c.
#[export] Instance cookie_char_dec c : Decision (cookie_char c).
Proof. unfold cookie_char, ws. apply _. Defined.
Definition attribute_ok (kv : bytes * bytes) : Prop := kv.1 ≠ [] ∧ Forall cookie_char kv.1 ∧ Forall cookie_char kv.2.
#[export] Instance attribute_ok_dec kv : Decision (attribute_ok kv).
Proof. unfold attribute_ok. apply _. Defined.

Lemma cookie_text_ok s : Forall cookie_char s → Forall cookie_char (cookie_text s) ∧ 61 ∉ cookie_text s.
Proof.
  intros H. unfold cookie_text. induction H as [|c s Hc Hs [IH1 IH2]]; [split; [done|apply not_elem_of_nil]|]. cbn [flat_map].
  rewrite Forall_app, not_elem_of_app. destruct (Z.eqb_spec c 61) as [->|Hne].
  - split; [|split; [|done]]; [split; [|done]|]; by apply (bool_decide_unpack _); vm_compute.
  - split; [split; [by constructor|done]|]. split; [|done]. rewrite elem_of_cons, elem_of_nil. naive_solver.
Qed.
Lemma cookie_text_nil s : s ≠ [] → cookie_text s ≠ [].
Proof. destruct s as [|c s]; [done|]. cbn. by destruct (c =? 61). Qed.

Lemma escape_cookie_ok s : Forall cookie_char s → escape_cookie s = Ret (cookie_text s).
Proof.
  intros H. unfold escape_cookie. rewrite (replaceAll_det s (str "; ") _ s); [|done|].
  - rewrite bind_Ret_l. apply replaceAll_det; [done|]. apply replaced_char.
  - constructor. apply sfind_absent_None; [done|]. apply absent_first. eapply Forall_impl; [exact H|]. by intros c [Hc _].
Qed.

(** A cookie as it is sent back, and the header field with all of them. *)
Definition pair_text (kv : bytes * bytes) : bytes := cookie_text kv.1 ++ [61] ++ cookie_text kv.2.
Definition sent_back (cs : list bytes) : bytes := join (str "; ") (map (before 59) cs).

Lemma before_first c a t : c ∉ a → before c (a ++ [c] ++ t) = a.
Proof. intros H. unfold before. rewrite sfind_single by done. apply take_app_length. Qed.

Lemma add_cookies_ok expires m r :
  Forall attribute_ok m → ∃ cs, add_cookies expires m r = Ret (foldl (λ r c, addCookie c r) r cs) ∧ map (before 59) cs = map pair_text m.
Proof.
  intros H. revert r. induction H as [|[k v] m (_ & Hk & Hv) Hm IH]; intros r; [by exists []|]. cbn [add_cookies fst snd] in *.
  rewrite !escape_cookie_ok by done. rewrite !bind_Ret_l. set (c := _ ++ [61] ++ _). destruct (IH (addCookie c r)) as (cs & -> & Hcs).
  exists (c :: cs). split; [done|]. cbn [map]. f_equal; [|done].
  assert (c = pair_text (k, v) ++ [59] ++ str " expires=" ++ expires ++ str " GMT; path=/; HttpOnly") as ->
    by (unfold c, pair_text; cbn [fst snd]; by rewrite <- !app_assoc).
  apply before_first. unfold pair_text. cbn [fst snd]. rewrite !elem_of_app.
  destruct (cookie_text_ok k Hk) as [H1 _], (cookie_text_ok v Hv) as [H2 _]. rewrite Forall_forall in H1, H2.
  intros [E|[E|E]]; [by apply H1 in E as [? _]| |by apply H2 in E as [? _]]. apply elem_of_cons in E as [?|E]; [done|by apply elem_of_nil in E].
Qed.

(** The pieces of the header field: nothing stands between semicolon and space. *)
Fixpoint pieces (l : list bytes) : list bytes := match l with [] => [] | [t] => [t] | t :: l => t :: [] :: pieces l end.
Lemma split_cookies l : l ≠ [] → Forall (Forall (λ c, memb c [59; 32] = false)) l → splitAndReturn (join (str "; ") l) [59; 32] false = pieces l.
Proof.
  intros Hl H. unfold splitAndReturn. induction H as [|t l Ht H IH]; [done|]. destruct l as [|u l]; [by apply split_loop_token|].
  cbn [join pieces]. change (str "; ") with [59; 32]. cbn [app]. rewrite split_loop_app by done. f_equal. cbn [split_loop].
  change (memb 32 [59; 32]) with true. cbn [andb app]. rewrite andb_false_r. cbn [app]. f_equal. by apply IH.
Qed.

Lemma add_cookie_pair m kv : attribute_ok kv → add_cookie m (pair_text kv) = mset (cookie_text kv.1) (cookie_text kv.2) m.
Proof.
  intros (_ & Hk & Hv). unfold add_cookie, pair_text. destruct (cookie_text_ok _ Hk) as [_ H1], (cookie_text_ok _ Hv) as [_ H2].
  rewrite <- (app_nil_r (cookie_text kv.1 ++ _)). rewrite app_nil_r. change (cookie_text kv.1 ++ [61] ++ cookie_text kv.2) with (join [61] [cookie_text kv.1; cookie_text kv.2]).
  by rewrite split_of_join by (done || by repeat constructor).
Qed.

Lemma fold_cookies l acc :
  Forall attribute_ok l → NoDup (map (λ kv, cookie_text kv.1) l) →
  (∀ kv, kv ∈ l → mfind (cookie_text kv.1) (foldl add_cookie acc (pieces (map pair_text l))) = Some (cookie_text kv.2)) ∧
  (∀ k, k ≠ [] → k ∉ map (λ kv, cookie_text kv.1) l → mfind k (foldl add_cookie acc (pieces (map pair_text l))) = mfind k acc).
Proof.
  intros H. revert acc. induction H as [|kv l Hkv Hl IH]; intros acc Hnd; [split; [by intros ? ?%elem_of_nil|done]|].
  cbn [map] in *. apply NoDup_cons in Hnd as [Hn Hnd]. pose proof (cookie_text_nil _ (proj1 Hkv)) as Hne.
  assert (∃ acc', foldl add_cookie acc (pieces (pair_text kv :: map pair_text l)) = foldl add_cookie acc' (pieces (map pair_text l)) ∧
            ∀ k, k ≠ [] → mfind k acc' = mfind k (mset (cookie_text kv.1) (cookie_text kv.2) acc)) as (acc' & -> & Hacc).
  { destruct l as [|x l].
    - exists (mset (cookie_text kv.1) (cookie_text kv.2) acc). split; [|done]. cbn [map pieces foldl]. by rewrite add_cookie_pair.
    - exists (mset [] (str "true") (mset (cookie_text kv.1) (cookie_text kv.2) acc)). split.
      + cbn [map pieces foldl]. rewrite add_cookie_pair by done. done.
      + intros k Hk. by apply mfind_mset_ne. }
  destruct (IH acc' Hnd) as [IH1 IH2]. split.
  - intros x [->|Hx]%elem_of_cons; [|by apply IH1]. rewrite IH2, Hacc by done. apply mfind_mset_eq.
  - intros k Hk. rewrite not_elem_of_cons. intros [Hk1 Hk2]. rewrite IH2, Hacc by done. by apply mfind_mset_ne.
Qed.

Lemma pair_text_ok kv : attribute_ok kv → Forall (λ c, memb c [59; 32] = false) (pair_text kv) ∧
  (∃ c t, pair_text kv = c :: t ∧ ¬ ws c) ∧ (∃ d, last (pair_text kv) = Some d ∧ ¬ ws d).
Proof.
  intros (Hne & Hk & Hv). destruct (cookie_text_ok _ Hk) as [H1 _], (cookie_text_ok _ Hv) as [H2 _].
  assert (Forall cookie_char (pair_text kv)) as H.
  { apply Forall_app. split; [done|]. apply Forall_app. split; [|done]. by apply (bool_decide_unpack _); vm_compute. }
  split_and!.
  - eapply Forall_impl; [exact H|]. intros c [Hc Hw]. apply not_true_iff_false. rewrite memb_spec. intros [->|[->|[]%elem_of_nil]%elem_of_cons]%elem_of_cons;
      [done|]. by apply Hw; apply (bool_decide_unpack _); vm_compute.
  - unfold pair_text in *. destruct (cookie_text kv.1) as [|c t] eqn:E; [by apply cookie_text_nil in Hne|].
    exists c, (t ++ [61] ++ cookie_text kv.2). split; [done|]. by apply Forall_inv in H as [_ ?].
  - destruct (last (pair_text kv)) as [d|] eqn:E.
    + exists d. split; [done|]. rewrite Forall_forall in H. apply H. apply last_Some in E as [l ->]. rewrite elem_of_app. right. by left.
    + apply last_None in E. unfold pair_text in E. by destruct (cookie_text kv.1).
Qed.

Lemma join_ends l : l ≠ [] → Forall (λ t, (∃ c s, t = c :: s ∧ ¬ ws c) ∧ ∃ d, last t = Some d ∧ ¬ ws d) l →
  ∃ c d s, join (str "; ") l = c :: s ∧ ¬ ws c ∧ last (c :: s) = Some d ∧ ¬ ws d.
Proof.
  intros Hl H. induction H as [|t l ((c & s & -> & Hc) & d & Hd & Hnd) H IH]; [done|]. destruct l as [|u l].
  { exists c, d, s. done. }
  destruct IH as (c2 & d2 & s2 & E & _ & Hd2 & Hn2); [done|]. exists c, d2, (s ++ str "; " ++ c2 :: s2). rewrite join_cons by done.
  rewrite E. split_and!; [done|done| |done]. change (c :: s ++ str "; " ++ c2 :: s2) with ((c :: s) ++ str "; " ++ c2 :: s2).
  rewrite app_assoc, last_app. by rewrite Hd2.
Qed.

Lemma add_cookies_sorted l m : sorted m → sorted (foldl add_cookie m l).
Proof.
  revert m. induction l as [|s l IH]; intros m Hm; [done|]. apply IH. unfold add_cookie. repeat case_match; by try apply sorted_mset.
Qed.
Lemma merged_sorted (m : list (bytes * bytes)) : sorted m → foldl (λ acc kv, mset kv.1 kv.2 acc) [] m = m.
Proof.
  intros H. rewrite <- (foldl_mset_sorted m H) at 2. generalize (@nil (bytes * bytes)). induction m as [|[k v] m IH]; intros acc; [done|].
  cbn [foldl fst snd]. apply IH. by destruct H.
Qed.
Lemma trim_cookie v : Forall cookie_char v → trim (cookie_text v) = [] ↔ v = [].
Proof.
  intros H. split; [|by intros ->]. intros Ht. destruct v as [|c v]; [done|]. exfalso.
  destruct (cookie_text_ok _ H) as [Hok _]. destruct (cookie_text (c :: v)) as [|x t] eqn:E; [by apply cookie_text_nil in E|].
  destruct (last (x :: t)) as [d|] eqn:El; [|by apply last_None in El]. rewrite (trim_id x (x :: t) d) in Ht; [done|done|done| |].
  - by apply Forall_inv in Hok as [_ ?].
  - rewrite Forall_forall in Hok. apply last_Some in El as [l El]. rewrite El in Hok. apply (Hok d). rewrite elem_of_app. right. by left.
Qed.
Lemma cookie_text_id k : cookie_text k = str "FFEADID" → k = str "FFEADID".
Proof.
  intros E. assert (61 ∉ k) as Hk.
  { intros Hin. assert (37 ∈ cookie_text k) as H; [|rewrite E in H; revert H; by apply (bool_decide_unpack _); vm_compute].
    unfold cookie_text. apply list_elem_of_In, in_flat_map. exists 61. split; [by apply list_elem_of_In|by left]. }
  rewrite <- E. unfold cookie_text. clear E. induction k as [|c k IH]; [done|]. rewrite elem_of_cons in Hk. cbn [flat_map].
  destruct (Z.eqb_spec c 61) as [->|]; [tauto|]. cbn. f_equal. apply IH. tauto.
Qed.
(** The cookies of a new request that sends back those of a session. *)
Lemma sent_back_cookies w m cs : m ≠ [] → Forall attribute_ok m → map (before 59) cs = map pair_text m → cookieattrs (auth w) = [] →
  auth (set_auth (read_cookies (sent_back cs)) w) = set_cookies (foldl add_cookie [] (pieces (map pair_text m))) (auth w).
Proof.
  intros Hne Hok Hcs Hw. unfold sent_back. rewrite Hcs. assert (map pair_text m ≠ []) as Hp by (by destruct m).
  assert (Forall (λ t, Forall (λ c, memb c [59; 32] = false) t ∧ (∃ c s, t = c :: s ∧ ¬ ws c) ∧ ∃ d, last t = Some d ∧ ¬ ws d) (map pair_text m)) as Hall.
  { apply Forall_fmap. eapply Forall_impl; [exact Hok|]. intros kv H. by apply pair_text_ok. }
  destruct (join_ends (map pair_text m) Hp) as (c & d & s & E & Hc & Hl & Hd'); [eapply Forall_impl; [exact Hall|]; by intros t [_ ?]|].
  cbn [set_auth auth]. unfold read_cookies. rewrite Hw, (trim_id c _ d); [|by rewrite E|by rewrite E|done|done].
  rewrite split_cookies; [done|done|eapply Forall_impl; [exact Hall|]; by intros t [? _]].
Qed.

(** C38: Sessions travel in cookies. When a session has changed and is not kept at the server,
    its attributes, whose names are not empty and stay distinct when escaped, with names and
    values without semicolons and white space, are sent as cookies, one for each. A new request
    that sends them back has them as cookies again, an equals sign as the escape it was sent as.
    It has them as session attributes only if the session has an attribute [FFEADID] that is not
    empty, which nothing in the framework sets: then every attribute has its value again;
    without it [hasCookie] is false and the session of the new request is empty. *)
Theorem session_roundtrip expires w r :
  dirty (auth w) = true → sessionAttributes (auth w) ≠ [] → Forall attribute_ok (sessionAttributes (auth w)) →
  NoDup (map (λ kv, cookie_text kv.1) (sessionAttributes (auth w))) →
  ∃ cs, storeSessionAttributes expires false w r = Ret (foldl (λ r c, addCookie c r) r cs) ∧ length cs = length (sessionAttributes (auth w)) ∧
    ∀ new, cookieattrs (auth new) = [] → sessionAttributes (auth new) = [] →
      let back := set_auth (read_cookies (sent_back cs)) new in
      (∀ k v, (k, v) ∈ sessionAttributes (auth w) → mfind (cookie_text k) (cookieattrs (auth back)) = Some (cookie_text v)) ∧
      if decide (getAttribute (str "FFEADID") w = []) then hasCookie back = false ∧ take_session back = back
      else hasCookie back = true ∧ ∀ k v, (k, v) ∈ sessionAttributes (auth w) → getAttribute (cookie_text k) (take_session back) = cookie_text v.
Proof.
  intros Hd Hne Hok Hnd. unfold storeSessionAttributes. rewrite Hd, orb_true_r. cbn [negb andb].
  destruct (add_cookies_ok expires _ r Hok) as (cs & -> & Hcs). exists cs. split; [done|].
  split; [by rewrite <- (length_map (before 59)), Hcs, length_map|]. intros new Hn Hs. cbv zeta.
  pose proof (sent_back_cookies new _ cs Hne Hok Hcs Hn) as Hb. set (back := set_auth _ new) in *.
  set (m := sessionAttributes (auth w)) in *.
  assert (NoDup (map fst m)) as Hnd0 by (apply (NoDup_fmap_1 cookie_text); by rewrite <- list_fmap_compose). set (jar := foldl add_cookie [] (pieces (map pair_text m))) in *.
  destruct (fold_cookies m [] Hok Hnd) as [Hin Hout]. fold jar in Hin, Hout.
  assert (∀ k v, (k, v) ∈ m → mfind (cookie_text k) (cookieattrs (auth back)) = Some (cookie_text v)) as Hfind
    by (intros k v Hkv; rewrite Hb; by apply (Hin (k, v))). split; [exact Hfind|].
  assert (hasCookie back = negb (bool_decide (trim (default [] (mfind (str "FFEADID") jar)) = []))) as Hc by (unfold hasCookie; by rewrite Hb).
  assert (hasCookie back = negb (bool_decide (getAttribute (str "FFEADID") w = []))) as Hhas.
  { rewrite Hc. f_equal. apply bool_decide_ext. unfold getAttribute. fold m. destruct (decide (str "FFEADID" ∈ map fst m)) as [Hm|Hm].
    - apply list_elem_of_In, in_map_iff in Hm as ([k v] & Hk & Hkv). cbn in Hk. subst k. apply list_elem_of_In in Hkv.
      rewrite (mfind_NoDup _ v m) by done. pose proof (Hin (str "FFEADID", v) Hkv) as Hj.
      change (cookie_text (str "FFEADID", v).1) with (str "FFEADID") in Hj. rewrite Hj. apply trim_cookie. rewrite Forall_forall in Hok. by apply Hok in Hkv as (_ & _ & ?).
    - rewrite Hout; [| done|].
      + rewrite (mfind_notin _ m) by done. done.
      + intros Hx. apply Hm. apply list_elem_of_In, in_map_iff in Hx as (kv & Hk & Hkv). apply cookie_text_id in Hk.
        apply list_elem_of_In, in_map_iff. by exists kv. }
  unfold take_session. rewrite Hhas. case_decide as Hid; [by rewrite bool_decide_true|]. rewrite bool_decide_false by done. split; [done|].
  intros k v Hkv. cbn [negb]. unfold getAttribute, setSessionAttributes. cbn [set_auth auth set_session sessionAttributes].
  assert (sessionAttributes (auth back) = []) as -> by (by rewrite Hb). rewrite merged_sorted; [by rewrite (Hfind k v)|].
  rewrite Hb. by apply add_cookies_sorted.
Qed.

Lemma session_roundtrip_witness :
  let w := setAttribute (str "user") (str "a=b") (setAttribute (str "FFEADID") (str "7") (WebRequest_new HttpRequest_new [])) in
  ∃ cs, storeSessionAttributes (str "Thu, 01 Jan 1970 00:00:00") false w HttpResponse_new = Ret (foldl (λ r c, addCookie c r) HttpResponse_new cs) ∧
    let back := set_auth (read_cookies (sent_back cs)) (WebRequest_new HttpRequest_new []) in
    hasCookie back = true ∧ getAttribute (str "FFEADID") (take_session back) = str "7" ∧ getAttribute (str "user") (take_session back) = str "a%3Db".
Proof.
  intros w. destruct (session_roundtrip (str "Thu, 01 Jan 1970 00:00:00") w HttpResponse_new) as (cs & H & _ & Hb);
    [done|done|by apply (bool_decide_unpack _); vm_compute..|].
  exists cs. split; [exact H|]. destruct (Hb (WebRequest_new HttpRequest_new []) eq_refl eq_refl) as [_ Hm].
  rewrite decide_False in Hm by (by vm_compute). destruct Hm as [Hc Hm]. split; [exact Hc|].
  split; [exact (Hm (str "FFEADID") (str "7") ltac:(by left))|exact (Hm (str "user") (str "a=b") ltac:(by right; left))].
Defined.
