(* ===== verification/Cors.v ===== *)
(** * Cors

    Cross-origin requests: the configuration and its tests, and the handler for
    preflight and actual requests ([http/CORSHandler.cpp], with
    [getCORSRequestType] and [parseHeaderValue] of [http/HttpRequest.cpp]).

    The handler throws a status; nothing is added to the response before it
    does. *)

From S2P Require Import Prelude StdMap StdString StringUtil RegexUtil Http1Parser HttpRequest HttpResponse.

(** ** The configuration *)

Record CorsConfig := mkCors {
  allwdOrigins : bytes;
  allwdOriginsv : list bytes;
  allwdMethods : bytes;
  allwdMethodsv : list bytes;
  allwdHeaders : bytes;
  allwdHeadersv : list bytes;
  exposedHeaders : bytes;
  exposedHeadersv : list bytes;
  allwdCredentials : bool;
  maxAge : Z
}.
Definition CorsConfig_default : CorsConfig := mkCors [] [] [] [] [] [] [] [] false (-1).

(** The items of a list, as [init] stores them. *)
Definition items (s : bytes) : list bytes := map (λ x, toLower (trim x)) (splitAndReturn (trim s) [44] false).

(** The constructor, which calls [init]. *)
Definition CorsConfig_new (origins methods hdrs exposed : bytes) (credentials : bool) (age : Z) : CorsConfig :=
  mkCors (trim origins) (items origins) (trim methods) (items methods) (trim hdrs) (items hdrs) (trim exposed) (items exposed)
    credentials age.

Definition isOriginAllowed (reqOrg : bytes) (c : CorsConfig) : bool :=
  bool_decide (allwdOrigins c = [42]) || bool_decide (toLower reqOrg ∈ allwdOriginsv c).

(** The two overloads of [isMethodAllowed].  The one for views compares up to the
    length of the allowed method with what stands at the view, and takes a
    difference for a match. *)
Definition isMethodAllowed (method : bytes) (c : CorsConfig) : bool :=
  if bool_decide (method = []) then false else bool_decide (toLower method ∈ allwdMethodsv c).
Definition isMethodAllowed_view (method memory : bytes) (c : CorsConfig) : bool :=
  if bool_decide (method = []) then false else existsb (λ m, negb (strncaseeq (length m) m memory)) (allwdMethodsv c).

(** [isHeaderAllowed]: the result and [erheadr]. *)
Definition isHeaderAllowed (reqHdrLst : list bytes) (c : CorsConfig) : bool * bytes :=
  if bool_decide (allwdHeaders c = [42]) then (true, [])
  else
    match reqHdrLst with
    | [] => (false, [])
    | h :: _ => if bool_decide (toLower h ∈ allwdHeadersv c) then (true, []) else (false, toUpper h)
    end.

(** ** The request *)

Inductive cors_type := PREFLIGHT | CORS | OTHER.

(** The line of [updateContent] that marks a request. *)
Definition mark_cors (r : HttpRequest) : HttpRequest := set_corsRequest (HttpRequest.hasHeader (str "Origin") r) r.

Definition getCORSRequestType (r : HttpRequest) : outcome cors_type :=
  if corsRequest r then
    m ← read_view (methodv r);
    Ret (if (slen m =? 7) && strncaseeq 7 (str "options") m && HttpRequest.hasHeader (str "Access-Control-Request-Method") r
         then PREFLIGHT else CORS)
  else Ret OTHER.

(** What the memory holds from the method on: the head. *)
Definition method_memory (method : bytes) (r : HttpRequest) : bytes :=
  match sfind method (headers_data r) with Some i => drop i (headers_data r) | None => method end.

Section handler.
Context `{re : !Regex}.

Definition parseHeaderValue (fuel : nat) (v : bytes) : outcome (list bytes) :=
  '(_, v) ← replace fuel (str "\s*,\s*|\s+") false (str ",") v;
  Ret (splitAndReturn v [44] false).

(** [handle]: [inl] is a thrown status, [inr] the result and the response. *)
Definition handle (fuel : nat) (c : CorsConfig) (req : HttpRequest) (res : HttpResponse)
    : outcome (HTTPResponseStatus + bool * HttpResponse) :=
  if negb (corsRequest req) then Ret (inr (false, res))
  else
    let origin := HttpRequest.getHeader (str "Origin") req in
    let denied := Ret (inl (mkStatus 403 (str "CORS origin denied"))) in
    ty ← getCORSRequestType req;
    match ty with
    | PREFLIGHT =>
        if isOriginAllowed origin c then
          let methods := HttpRequest.getHeader (str "Access-Control-Allow-Methods") req in
          if bool_decide (methods = [])
          then Ret (inl (mkStatus 400 (str "Invalid preflight CORS request: Missing Access-Control-Request-Method header")))
          else if negb (isValidHttpMethod methods)
          then Ret (inl (mkStatus 405 (str "Unsupported HTTP method: " ++ methods)))
          else
            hdrs ← parseHeaderValue fuel (HttpRequest.getHeader (str "Access-Control-Allow-Headers") req);
            if negb (isMethodAllowed methods c) then Ret (inl (mkStatus 405 (str "Unsupported HTTP method: " ++ methods)))
            else
              let '(ok, erheadr) := isHeaderAllowed hdrs c in
              if negb ok then Ret (inl (mkStatus 403 (str "Unsupported HTTP request header: " ++ erheadr)))
              else
                let res := if allwdCredentials c then addHeader (str "Access-Control-Allow-Credentials") (str "true") res else res in
                let res := addHeader (str "Access-Control-Allow-Origin")
                             (if bool_decide (allwdOrigins c = [42]) then [42] else origin) res in
                let res := if 0 <? maxAge c then addHeader (str "Access-Control-Allow-Methods") (fromNumber (maxAge c)) res else res in
                let res := addHeader (str "Access-Control-Allow-Methods") (allwdMethods c) res in
                let res := addHeader (str "Access-Control-Max-Age") (allwdHeaders c) res in
                Ret (inr (true, res))
        else denied
    | CORS =>
        if isOriginAllowed origin c then
          m ← read_view (methodv req);
          if negb (isMethodAllowed_view m (method_memory m req) c)
          then Ret (inl (mkStatus 405 (str "HTTP verb used to access this page is not allowed (method not allowed)")))
          else
            let res := if allwdCredentials c then addHeader (str "Access-Control-Allow-Credentials") (str "true") res else res in
            let res := addHeader (str "Access-Control-Allow-Origin") origin res in
            let res := addHeader (str "Access-Control-Allow-Headers") (exposedHeaders c) res in
            Ret (inr (false, res))
        else denied
    | OTHER => Ret (inr (false, res))
    end.
End handler.

(** ** What is granted *)

Section cors.
Context `{re : !Regex}.
Implicit Types (c : CorsConfig) (req : HttpRequest) (res : HttpResponse).

Abbreviation origin_of req := (HttpRequest.getHeader (str "Origin") req).

Lemma add_to_headers_new k v m : mfind k m = None → mfind k (add_to_headers k v m) = Some v.
Proof. intros H. unfold add_to_headers. rewrite H. apply mfind_mset_eq. Qed.
Lemma add_to_headers_other k k' v m : k ≠ k' → mfind k (add_to_headers k' v m) = mfind k m.
Proof. intros H. unfold add_to_headers. destruct (mfind k' m); by apply mfind_mset_ne. Qed.

Lemma isOriginAllowed_spec o c : isOriginAllowed o c = true ↔ allwdOrigins c = [42] ∨ toLower o ∈ allwdOriginsv c.
Proof. unfold isOriginAllowed. by rewrite orb_true_iff, !bool_decide_eq_true. Qed.

(** The names of the headers. *)
Abbreviation ACAO := (str "Access-Control-Allow-Origin").
Abbreviation ACAC := (str "Access-Control-Allow-Credentials").
Abbreviation ACAM := (str "Access-Control-Allow-Methods").

(** What a preflight adds to the headers. *)
Definition preflight_headers c req (m : list (bytes * bytes)) : list (bytes * bytes) :=
  let m := if allwdCredentials c then add_to_headers ACAC (str "true") m else m in
  let m := add_to_headers ACAO (if bool_decide (allwdOrigins c = [42]) then [42] else origin_of req) m in
  let m := if 0 <? maxAge c then add_to_headers ACAM (fromNumber (maxAge c)) m else m in
  add_to_headers (str "Access-Control-Max-Age") (allwdHeaders c) (add_to_headers ACAM (allwdMethods c) m).
Definition actual_headers c req (m : list (bytes * bytes)) : list (bytes * bytes) :=
  let m := if allwdCredentials c then add_to_headers ACAC (str "true") m else m in
  add_to_headers (str "Access-Control-Allow-Headers") (exposedHeaders c) (add_to_headers ACAO (origin_of req) m).

(** A request that is let through: its kind, and what is added. *)
Lemma handle_through fuel c req res b res' :
  corsRequest req = true → handle fuel c req res = Ret (inr (b, res')) →
  isOriginAllowed (origin_of req) c = true ∧
  (b = true ∧ getCORSRequestType req = Ret PREFLIGHT ∧ res_headers res' = preflight_headers c req (res_headers res) ∨
   b = false ∧ getCORSRequestType req = Ret CORS ∧ res_headers res' = actual_headers c req (res_headers res)).
Proof.
  intros Hc. unfold handle. rewrite Hc. cbn [negb]. intros H. apply bind_Ret_inv in H as (ty & Hty & H). rewrite Hty.
  destruct ty; [| |unfold getCORSRequestType in Hty; rewrite Hc in Hty; apply bind_Ret_inv in Hty as (? & _ & Hty); by destruct (_ && _)];
    (destruct (isOriginAllowed _ c) eqn:Eo; [|done]); (split; [done|]).
  - left. case_bool_decide; [done|]. destruct (isValidHttpMethod _); [|done]. cbn [negb] in H.
    apply bind_Ret_inv in H as (hdrs & _ & H). destruct (isMethodAllowed _ c); [|done]. cbn [negb] in H.
    destruct (isHeaderAllowed hdrs c) as [ok er]. destruct ok; [|done]. cbn [negb] in H. injection H as <- <-.
    unfold preflight_headers. by destruct (allwdCredentials c), (0 <? maxAge c).
  - right. apply bind_Ret_inv in H as (m & _ & H). destruct (isMethodAllowed_view _ _ c); [|done]. cbn [negb] in H.
    injection H as <- <-. unfold actual_headers. by destruct (allwdCredentials c).
Qed.

Lemma preflight_headers_find c req m :
  mfind ACAO m = None → mfind ACAO (preflight_headers c req m) = Some (if bool_decide (allwdOrigins c = [42]) then [42] else origin_of req) ∧
  (allwdCredentials c = false → mfind ACAC (preflight_headers c req m) = mfind ACAC m).
Proof.
  intros Hn. unfold preflight_headers. split.
  - rewrite !add_to_headers_other by done. destruct (0 <? maxAge c); rewrite ?add_to_headers_other by done;
      (apply add_to_headers_new; destruct (allwdCredentials c); [|done]; by rewrite add_to_headers_other).
  - intros ->. rewrite !add_to_headers_other by done. destruct (0 <? maxAge c); by rewrite !add_to_headers_other.
Qed.
Lemma actual_headers_find c req m :
  mfind ACAO m = None → mfind ACAO (actual_headers c req m) = Some (origin_of req) ∧
  (allwdCredentials c = false → mfind ACAC (actual_headers c req m) = mfind ACAC m).
Proof.
  intros Hn. unfold actual_headers. split.
  - rewrite add_to_headers_other by done. apply add_to_headers_new. destruct (allwdCredentials c); [|done]. by rewrite add_to_headers_other.
  - intros ->. by rewrite !add_to_headers_other.
Qed.

(** C23: origins are checked.  A cross-origin request gets through, preflight or not,
    only if every origin is allowed or its origin is in the configured list; then the
    response allows exactly that origin, or all of them when all are configured, and
    credentials only if they are configured. *)
Theorem cors_grants_only_listed fuel c req res b res' :
  corsRequest req = true → mfind ACAO (res_headers res) = None → handle fuel c req res = Ret (inr (b, res')) →
  (allwdOrigins c = [42] ∨ toLower (origin_of req) ∈ allwdOriginsv c) ∧
  (∃ o, mfind ACAO (res_headers res') = Some o ∧ (o = origin_of req ∨ o = [42] ∧ allwdOrigins c = [42])) ∧
  (allwdCredentials c = false → mfind ACAC (res_headers res') = mfind ACAC (res_headers res)).
Proof.
  intros Hc Hn H. apply handle_through in H as [Ho%isOriginAllowed_spec H]; [|done]. split; [done|].
  destruct H as [(_ & _ & ->)|(_ & _ & ->)].
  - destruct (preflight_headers_find c req _ Hn) as [-> Hcr]. split; [|done]. eexists. split; [done|].
    case_bool_decide; [by right|by left].
  - destruct (actual_headers_find c req _ Hn) as [-> Hcr]. split; [|done]. eexists. split; [done|by left].
Qed.

(** ** Methods *)

(** Comparing with the memory at a method that a space ends. *)
Lemma strncaseeq_memory m : ∀ method rest,
  Forall (λ x, x ≠ 0 ∧ x ≠ 32) m →
  strncaseeq (length m) m (method ++ 32 :: rest) = bool_decide (toLower m `prefix_of` toLower method).
Proof.
  induction m as [|x m IH]; intros method rest Hm; [symmetry; apply bool_decide_eq_true; apply prefix_nil|].
  apply Forall_cons in Hm as [[H0 H32] Hm]. cbn [length strncaseeq hd tl]. replace (x =? 0) with false by lia. cbn [orb].
  destruct method as [|y method]; cbn [app hd tl].
  - replace (lower x =? lower 32) with false; [symmetry; apply bool_decide_eq_false; cbn; by intros [? ?]|].
    unfold lower. change (65 <=? 32) with false. cbn [andb]. destruct ((65 <=? x) && (x <=? 90)) eqn:E; lia.
  - rewrite IH by done. destruct (lower x =? lower y) eqn:E; cbn [andb toLower map].
    + apply Z.eqb_eq in E as ->. apply bool_decide_ext. split; [apply prefix_cons|apply prefix_cons_inv_2].
    + symmetry. apply bool_decide_eq_false. intros Hp%prefix_cons_inv_1. lia.
Qed.

Lemma method_memory_head method rest r :
  headers_data r = method ++ 32 :: rest → method_memory method r = method ++ 32 :: rest.
Proof. intros E. unfold method_memory. by rewrite E, sfind_here. Qed.

(** The method test of actual requests is inverted.  With one allowed method, a
    cross-origin request with this method is refused, and one with any other method,
    unless it begins with the allowed one, gets through. *)
Theorem cors_single_method_inverted fuel c req res m method rest :
  corsRequest req = true → getCORSRequestType req = Ret CORS → isOriginAllowed (origin_of req) c = true →
  methodv req = View method → method ≠ [] → headers_data req = method ++ 32 :: rest →
  allwdMethodsv c = [m] → Forall (λ x, x ≠ 0 ∧ x ≠ 32) m →
  (toLower m = toLower method →
     handle fuel c req res = Ret (inl (mkStatus 405 (str "HTTP verb used to access this page is not allowed (method not allowed)")))) ∧
  (¬ toLower m `prefix_of` toLower method →
     ∃ res', handle fuel c req res = Ret (inr (false, res')) ∧ res_headers res' = actual_headers c req (res_headers res)).
Proof.
  intros Hc Hty Ho Hm Hne Hh Hms Hmc. unfold handle. rewrite Hc, Hty, bind_Ret_l, Ho, Hm. cbn [negb read_view]. rewrite bind_Ret_l.
  unfold isMethodAllowed_view. rewrite bool_decide_eq_false_2, Hms by done. cbn [existsb].
  rewrite (method_memory_head method rest) by done. rewrite strncaseeq_memory by done. rewrite orb_false_r, negb_involutive. split.
  - intros E. by rewrite bool_decide_eq_true_2 by (by rewrite E).
  - intros E. rewrite bool_decide_eq_false_2 by done. eexists. split; [done|]. unfold actual_headers. by destruct (allwdCredentials c).
Qed.

(** ** Preflight *)

(** Preflight as browsers send it.  The handler looks for the requested method in
    the response header [Access-Control-Allow-Methods]: a preflight that names it in
    [Access-Control-Request-Method] only, from an allowed origin, is refused. *)
Theorem cors_standard_preflight_refused fuel c req res :
  getCORSRequestType req = Ret PREFLIGHT → HttpRequest.getHeader ACAM req = [] → isOriginAllowed (origin_of req) c = true →
  HttpRequest.hasHeader (str "Access-Control-Request-Method") req = true ∧
  handle fuel c req res =
    Ret (inl (mkStatus 400 (str "Invalid preflight CORS request: Missing Access-Control-Request-Method header"))).
Proof.
  intros Hty Hm Ho. assert (corsRequest req = true) as Hc by (unfold getCORSRequestType in Hty; by destruct (corsRequest req)).
  split.
  - unfold getCORSRequestType in Hty. rewrite Hc in Hty. apply bind_Ret_inv in Hty as (? & _ & Hty).
    destruct (HttpRequest.hasHeader _ req); [done|]. by rewrite andb_false_r in Hty.
  - unfold handle. by rewrite Hc, Hty, bind_Ret_l, Ho, Hm.
Qed.

(** What an accepted preflight is told.  The maximum age stands in front of the
    methods in [Access-Control-Allow-Methods], and [Access-Control-Max-Age] holds the
    allowed headers. *)
Theorem cors_preflight_headers_swapped fuel c req res res' :
  corsRequest req = true → handle fuel c req res = Ret (inr (true, res')) → 0 < maxAge c →
  mfind ACAM (res_headers res) = None → mfind (str "Access-Control-Max-Age") (res_headers res) = None →
  mfind ACAM (res_headers res') = Some (fromNumber (maxAge c) ++ [44] ++ allwdMethods c) ∧
  mfind (str "Access-Control-Max-Age") (res_headers res') = Some (allwdHeaders c).
Proof.
  intros Hc H Ha Hm Hx. apply handle_through in H as [_ [(_ & _ & ->)|(? & _)]]; [|done|done].
  unfold preflight_headers. replace (0 <? maxAge c) with true by lia.
  set (m1 := add_to_headers ACAO _ _).
  assert (mfind ACAM m1 = None ∧ mfind (str "Access-Control-Max-Age") m1 = None) as [Hm1 Hx1].
  { unfold m1. rewrite !add_to_headers_other by done. destruct (allwdCredentials c); [by rewrite !add_to_headers_other|done]. }
  split.
  - rewrite add_to_headers_other by done. unfold add_to_headers at 1. rewrite add_to_headers_new by done. apply mfind_mset_eq.
  - apply add_to_headers_new. by rewrite !add_to_headers_other.
Qed.
End cors.

(** ** Witnesses *)

#[local] Existing Instance literal_regex.

Definition cors_head (method : string) (fields : list (bytes * bytes)) : HttpRequest :=
  match reset false (render_head (str method) (str "/shop") 1 ((str "Origin", str "https://Shop.example") :: fields)) 0 HttpRequest_new with
  | Ret (r, _) => mark_cors r
  | _ => HttpRequest_new
  end.
Definition get_only : CorsConfig :=
  CorsConfig_new (str "https://shop.example, https://pay.example") (str "GET") (str "*") (str "X-Total") false 600.

Lemma cors_grants_only_listed_witness :
  ∃ res', handle 5 get_only (cors_head "PUT" []) HttpResponse_new = Ret (inr (false, res')) ∧
  toLower (HttpRequest.getHeader (str "Origin") (cors_head "PUT" [])) ∈ allwdOriginsv get_only ∧
  mfind (str "Access-Control-Allow-Credentials") (res_headers res') = None.
Proof.
  eexists. split; [vm_compute; reflexivity|].
  match goal with |- _ ∧ mfind _ (res_headers ?r) = _ =>
    destruct (cors_grants_only_listed 5 get_only (cors_head "PUT" []) HttpResponse_new false r) as ([?|?] & _ & H) end;
    [by vm_compute|by vm_compute|by vm_compute|done|].
  split; [done|]. by rewrite H.
Defined.

Lemma cors_single_method_inverted_witness :
  handle 5 get_only (cors_head "GET" []) HttpResponse_new =
    Ret (inl (mkStatus 405 (str "HTTP verb used to access this page is not allowed (method not allowed)"))) ∧
  ∃ res', handle 5 get_only (cors_head "DELETE" []) HttpResponse_new = Ret (inr (false, res')).
Proof.
  assert (Forall (λ x, x ≠ 0 ∧ x ≠ 32) (str "get")) as Hm by (repeat constructor; done).
  split.
  - eapply (cors_single_method_inverted 5 get_only (cors_head "GET" []) HttpResponse_new (str "get") (str "GET"));
      try (vm_compute; reflexivity); done.
  - destruct (cors_single_method_inverted 5 get_only (cors_head "DELETE" []) HttpResponse_new (str "get") (str "DELETE")
      (drop 7 (headers_data (cors_head "DELETE" [])))) as [_ H]; try (vm_compute; reflexivity); try done.
    destruct H as (res' & H & _); [|by exists res']. apply (bool_decide_unpack _). by vm_compute.
Defined.

Lemma cors_standard_preflight_refused_witness :
  handle 5 get_only (cors_head "OPTIONS" [(str "Access-Control-Request-Method", str "GET")]) HttpResponse_new =
    Ret (inl (mkStatus 400 (str "Invalid preflight CORS request: Missing Access-Control-Request-Method header"))).
Proof. apply cors_standard_preflight_refused; by vm_compute. Defined.

Lemma cors_preflight_headers_swapped_witness :
  ∃ res', handle 5 get_only (cors_head "OPTIONS" [(str "Access-Control-Request-Method", str "GET"); (str "Access-Control-Allow-Methods", str "GET")])
            HttpResponse_new = Ret (inr (true, res')) ∧
  mfind (str "Access-Control-Allow-Methods") (res_headers res') = Some (str "600,GET") ∧
  mfind (str "Access-Control-Max-Age") (res_headers res') = Some (str "*").
Proof.
  eexists. split; [vm_compute; reflexivity|].
  match goal with |- mfind _ (res_headers ?r) = _ ∧ _ =>
    exact (cors_preflight_headers_swapped 5 get_only
      (cors_head "OPTIONS" [(str "Access-Control-Request-Method", str "GET"); (str "Access-Control-Allow-Methods", str "GET")])
      HttpResponse_new r ltac:(by vm_compute) ltac:(by vm_compute) ltac:(by vm_compute) ltac:(by vm_compute) ltac:(by vm_compute)) end.
Defined.
