(* ===== verification/Service.v ===== *)
(** * Service

    The way of a request through the server ([ServiceTask::handle] of
    [framework/ServiceTask.cpp]) and the controllers and mappings of
    [ControllerExtensionHandler::handle] ([framework/ControllerHandler.cpp]).

    Arguments are the classes of an application and its routers, and [ExtHandler::handle],
    which calls the generated views and templates.  The server is the one without SOAP services
    and scripts, which are compiled in only on demand. *)

From S2P Require Import Prelude StdMap StdString StringUtil TextCoding RegexUtil Routing HttpRequest Multipart HttpResponse.
From S2P Require Import WebRequest Forms RequestBuilder Rest Security Cors.

(** ** The configuration *)

Record Config := mkConfig {
  enableStaticResponses : bool;
  staticResponsesMap : list (bytes * (bytes * bytes));                  (* the content and its type *)
  servingContextRouters : list (bytes * nat);
  servingContexts : list (bytes * bool);
  appAliases : list (bytes * bytes);
  servingContextAppRoots : list (bytes * bytes);
  enableSecurity : bool;
  securityObjectMap : list (bytes * list (bytes * Security));
  sessatserv : bool;
  enableCors : bool;
  corsConfig : CorsConfig;
  enableFilters : bool;
  filterObjectMap : list (bytes * list (bytes * list bytes));
  enableControllers : bool;
  enableContRst : bool;
  rstCntMap : list (bytes * resFuncMap);
  enableExtControllers : bool;
  enableContMpg : bool;
  controllerObjectMap : list (bytes * list (bytes * bytes));
  enableContPath : bool;
  mappingObjectMap : list (bytes * list (bytes * bytes));
  enableContExt : bool;
  mappingextObjectMap : list (bytes * list (bytes * bytes));
  enableExtra : bool
}.

Definition DEFAULT_CTX : bytes := str "default".
Definition isServingContext (cf : Config) (cn : bytes) : bool := default false (mfind cn (servingContexts cf)).

(** [hasSecurity] and [hasFilters]. *)
Definition hasSecurity (cf : Config) (cn : bytes) : bool := match mfind cn (securityObjectMap cf) with Some (_ :: _) => true | _ => false end.
Definition hasFilters (cf : Config) (cn : bytes) : bool := match mfind cn (filterObjectMap cf) with Some (_ :: _) => true | _ => false end.

(** ** The state of a request *)

(** The request, the response, the compiled expressions, the string of the controllers, and
    the files that were uploaded. *)
Record Task := mkTask { req : WebRequest; res : HttpResponse; memo : cache; blank : bytes; uploads : list (bytes * bytes) }.
Definition set_all (w : WebRequest) (r : HttpResponse) (c : cache) (t : Task) : Task := mkTask w r c (blank t) (uploads t).
Definition set_req (w : WebRequest) (t : Task) : Task := set_all w (res t) (memo t) t.
Definition set_res (r : HttpResponse) (t : Task) : Task := set_all (req t) r (memo t) t.

(** How a request ends: normally; with a status that points to an object that is gone; or
    with an exception that is swallowed, where the response is what it was by then. *)
Inductive served := Served (t : Task) | Dangling (t : Task) | Swallowed (r : HttpResponse).

(** The exceptions of the standard library are swallowed, others leave. *)
Definition swallow (e : exn) (r : HttpResponse) : outcome served := if is_std e then Ret (Swallowed r) else Throw e.

(** A step: an exception or a result, with the state.  A [Throw] of what the step computes
    leaves the state as it was. *)
Definition step (A : Type) : Type := Task → outcome ((exn + A) * Task).
Definition lift {A} (f : Task → outcome (A * Task)) : step A := λ t,
  match f t with
  | Ret (a, t) => Ret (inr a, t)
  | Throw e => Ret (inl e, t)
  | Undefined => Undefined
  | Out_of_fuel => Out_of_fuel
  end.
Definition andthen {A B} (m : step A) (f : A → step B) : step B := λ t,
  '(x, t) ← m t; match x with inl e => Ret (inl e, t) | inr a => f a t end.
Definition skip {A} (a : A) : step A := λ t, Ret (inr a, t).

(** ** The application

    What its classes do when they are called.  A call leaves by an exception or with a result;
    either way it may have changed what it was given. *)
Class Application (Obj : Type) := {
  run_router : nat → WebRequest → HttpResponse → outcome (option exn * WebRequest * HttpResponse);
  auth_class : bytes → option AuthClass;
  doInputFilter : bytes → option (WebRequest → outcome (option exn * WebRequest));
  doHandle : bytes → option (WebRequest → HttpResponse → outcome ((exn + bool) * WebRequest * HttpResponse));
  doOutputFilter : bytes → option (HttpResponse → outcome (option exn * HttpResponse));
  unserialize : RestFunction → RestFunctionParams → bytes → outcome (option Obj);
  read_value : RestFunctionParams → bytes → outcome Obj;
  has_bean : RestFunction → bool;
  has_method : RestFunction → option (list (argument Obj)) → bool;
  invoke : RestFunction → option (list (argument Obj)) → WebRequest → HttpResponse → outcome ((exn + option Obj) * WebRequest * HttpResponse);
  serialize : format → RestFunction → Obj → bytes;
  string_of : Obj → bytes;
  service : bytes → option (WebRequest → HttpResponse → outcome ((exn + bool) * WebRequest * HttpResponse));
  ext_handle : WebRequest → HttpResponse → outcome ((exn + bool) * WebRequest * HttpResponse)
}.

Section service.
Context `{re : !Regex} {Obj : Type} `{app : !Application Obj}.
Variable cf : Config.
Variable fs : files.
(** The clock of the names of uploaded files, the file with the body if there is one, and
    the date of cookies. *)
Variable now : nat → Z.
Variable tfile : option bytes.
Variable expires : bytes.

(** ** Controllers and mappings *)

(** A new URL for the request. *)
Definition map_path (to : bytes) (w : WebRequest) : outcome WebRequest :=
  w ← (if negb (endsWith (curl (urls w)) ([47] ++ file (base w))) then
         setActUrl (to ++ [47] ++ file (base w)) (setUrl to w)
       else setActUrl to (setUrl (upto_last_slash to) w));
  Ret (setFile to w).
Definition map_extension (m : list (bytes * bytes)) (extwodot : bytes) (w : WebRequest) : WebRequest :=
  let f := file (base w) in
  let stem := match find_last_of [46] f with Some i => take (S i) f | None => [] end in
  setFile (stem ++ default [] (mfind extwodot m)) w.

Definition settle (b : bool) (t : Task) : outcome ((exn + bool) * Task) :=
  Ret (inr b, if b && negb (code (res_status (res t)) =? 404) then set_res (setDone true (res t)) t else t).

(** [ControllerExtensionHandler::handle].  The maps have an entry for the context. *)
Definition ext_controllers (ext_ : bytes) : step bool := λ t,
  cn ← read_view (cntxt_name (base (req t)));
  let url := curl (urls (req t)) in
  let first (on : bool) (m : list (bytes * list (bytes * bytes))) (t : Task) :=
    if on then match mfind cn m with Some m => '(x, c) ← first_match m url (memo t); Ret (x, set_all (req t) (res t) c t) | None => Undefined end
    else Ret (None, t) in
  andthen (lift (first (enableContMpg cf) (controllerObjectMap cf))) (λ controller,
    match controller with
    | Some k => λ t,
        match service k with
        | Some f =>
            '(x, w, r) ← f (req t) (res t);
            let t := set_res r (set_req w t) in
            match x with inl e => Ret (inl e, t) | inr isDone => settle isDone t end
        | None => settle true (set_res (set_status (status_by_code 500) (res t)) t)
        end
    | None =>
        andthen (lift (first (enableContPath cf) (mappingObjectMap cf))) (λ to,
          match to with
          | Some to => lift (λ t, w ← map_path to (req t); Ret (false, set_req w t))
          | None => λ t,
              let extwodot := drop 1 ext_ in
              match mfind cn (mappingextObjectMap cf) with
              | Some m =>
                  if enableContExt cf && mmem extwodot m then Ret (inr false, set_req (map_extension m extwodot (req t)) t)
                  else Ret (inr false, t)
              | None => Ret (inr false, t)
              end
          end)
    end) t.

(** ** The file of a request that nothing handles *)

Definition public_url (root url : bytes) : outcome bytes :=
  let pub := root ++ str "/public/" in
  if prefixb pub url then Ret url
  else
    post ← (if bool_decide (url = root) then Ret [] else substr url (slen root + 1) npos);
    Ret (pub ++ (if bool_decide (post = []) || bool_decide (post = [47]) then str "index.html" else post)).
Definition static_file : step unit :=
  lift (λ t,
    let w := req t in
    u ← public_url (cntxt_root (urls w)) (url (urls w));
    let w := if prefixb (cntxt_root (urls w) ++ str "/public/") (url (urls w)) then w else setUrl u w in
    Ret (tt, set_all w (setDone false (res t)) (memo t) t)).

(** ** The context *)

Definition with_context (cn : bytes) (w : WebRequest) : outcome WebRequest :=
  match mfind cn (servingContextAppRoots cf) with
  | Some root => Ret (setCntxt_root root (set_base (setCntxt_name cn) w))
  | None => Undefined
  end.

(** The context that serves a request: itself, its alias, or the default; and whether there
    is one. *)
Definition or_default (cn : bytes) : bytes * bool :=
  if isServingContext cf cn then (cn, true) else (DEFAULT_CTX, isServingContext cf DEFAULT_CTX).
Definition serving_context (cn : bytes) : bytes * bool :=
  if isServingContext cf cn then (cn, true)
  else
    match mfind cn (appAliases cf) with
    | Some a => if mmem a (servingContexts cf) then or_default a else (a, false)
    | None => or_default cn
    end.

(** ** The handlers, in their order *)

Definition cors_step (fuel : nat) : Task → outcome ((exn + (HTTPResponseStatus + bool)) * Task) := λ t,
  if enableCors cf then
    lift (λ t, x ← Cors.handle fuel (corsConfig cf) (base (req t)) (res t);
               Ret (match x with
                    | inl s => (inl s, set_res (set_status s (res t)) t)
                    | inr (b, r) => (inr b, set_res r t)
                    end)) t
  else Ret (inr (inr false), t).

Definition security_step (cn : bytes) : step bool :=
  if enableSecurity cf && hasSecurity cf cn then
    lift (λ t, '(b, w, r, c) ← Security.handle fs auth_class (default [] (mfind cn (securityObjectMap cf))) (req t) (res t) (memo t);
               Ret (b, set_all w r c t))
  else skip false.

Definition filters_step (cn : bytes) : step bool :=
  if enableFilters cf && hasFilters cf cn then
    let m := default [] (mfind cn (filterObjectMap cf)) in
    andthen (λ t, match handleIn doInputFilter m (req t) (memo t) with
                  | Ret (x, w, c) => Ret (match x with Some e => inl e | None => inr tt end, set_all w (res t) c t)
                  | Throw e => Ret (inl e, t)
                  | Undefined => Undefined
                  | Out_of_fuel => Out_of_fuel
                  end)
      (λ _ t, match filter_handle doHandle m (req t) (res t) (memo t) with
              | Ret (x, w, r, c) => Ret (match x with inl e => inl e | inr b => inr (negb b) end, set_all w r c t)
              | Throw e => Ret (inl e, t)
              | Undefined => Undefined
              | Out_of_fuel => Out_of_fuel
              end)
  else skip false.

Definition rest_step (cn : bytes) : step bool :=
  if enableControllers cf then λ t,
    '(x, w, r, b) ← Rest.handle unserialize read_value has_bean has_method invoke serialize string_of (enableContRst cf) (mfind cn (rstCntMap cf)) (req t) (res t) (blank t);
    Ret (x, mkTask w r (memo t) b (uploads t))
  else skip false.

Definition ext_controllers_step (ext_ : bytes) : step bool :=
  if enableExtControllers cf then ext_controllers ext_ else skip false.

Definition extra_step : step bool :=
  if enableExtra cf then λ t, '(x, w, r) ← ext_handle (req t) (res t); Ret (x, set_res r (set_req w t)) else skip false.

(** A step that runs if nothing has settled the request. *)
Definition unless (b : bool) (m : step bool) : step bool := if b then skip true else m.

Definition out_step (cn : bytes) (on : bool) : step unit :=
  if enableFilters cf && on then λ t,
    match handleOut doOutputFilter (default [] (mfind cn (filterObjectMap cf))) (req t) (res t) (memo t) with
    | Ret (x, r, c) => Ret (match x with Some e => inl e | None => inr tt end, set_all (req t) r c t)
    | Throw e => Ret (inl e, t)
    | Undefined => Undefined
    | Out_of_fuel => Out_of_fuel
    end
  else skip tt.

Definition session_step (on : bool) : step unit :=
  if enableSecurity cf && on then lift (λ t, r ← storeSessionAttributes expires (sessatserv cf) (req t) (res t); Ret (tt, set_res r t))
  else skip tt.

(** The handlers from the security on; [ext_] is the extension that is read before them. *)
Definition handlers (cn ext_ : bytes) (settled : bool) : step unit :=
  let has_security := negb settled && enableSecurity cf && hasSecurity cf cn in
  andthen (unless settled (security_step cn)) (λ settled t,
    let ext_ := if has_security && settled then ext (base (req t)) else ext_ in
    let has_filters := negb settled && enableFilters cf && hasFilters cf cn in
    andthen (unless settled (filters_step cn)) (λ settled t,
      let ext_ := if has_filters then ext (base (req t)) else ext_ in
      andthen (unless settled (rest_step cn)) (λ settled,
      andthen (unless settled (ext_controllers_step ext_)) (λ settled,
      andthen (unless settled extra_step) (λ settled,
      andthen (λ t, if negb (done_ (res t)) && negb settled then static_file t else Ret (inr tt, t)) (λ _,
      andthen (out_step cn has_filters) (λ _,
      session_step has_security))))) t) t).

Definition end_of (o : outcome ((exn + unit) * Task)) : outcome served :=
  '(x, t) ← o; match x with inr _ => Ret (Served t) | inl e => swallow e (res t) end.

(** Once there is a context: the URL and the body are read, then the handlers run. *)
Definition prepared (t : Task) : outcome (unit * Task) :=
  w ← normalizeUrl (req t);
  '(w, up) ← Forms.updateContent now tfile w;
  cn ← read_view (cntxt_name (base w));
  let w := if enableSecurity cf then
             let w := populateAuthDetails (default [] (mfind cn (securityObjectMap cf))) w in
             take_session w
           else w in
  Ret (tt, mkTask w (res t) (memo t) (blank t) (uploads t ++ up)).
Definition handle_context (fuel : nat) (cn : bytes) (t : Task) : outcome served :=
  w ← with_context cn (req t);
  '(x, t) ← lift prepared (set_req w t);
  match x with
  | inl e => swallow e (res t)
  | inr _ =>
      let ext_ := ext (base (req t)) in
      '(x, t) ← cors_step fuel t;
      match x with
      | inl e => swallow e (res t)
      | inr (inl _) => Ret (Dangling t)
      | inr (inr settled) => end_of (handlers cn ext_ settled t)
      end
  end.

(** A router of the context, or of the default one, takes the whole request. *)
Definition routed (cn : bytes) : option (bytes * nat) :=
  match mfind cn (servingContextRouters cf) with
  | Some r => Some (cn, r)
  | None => pair DEFAULT_CTX <$> mfind DEFAULT_CTX (servingContextRouters cf)
  end.

(** [handle]. *)
Definition handle (fuel : nat) (t : Task) : outcome served :=
  let t := set_res (update (base (req t)) (set_status NotFound (res t))) t in
  path ← read_view (pathv (base (req t)));
  match (if enableStaticResponses cf then mfind path (staticResponsesMap cf) else None) with
  | Some (r, ty) =>
      Ret (Served (set_res (setDone true (set_status Ok (setContentType ty (res_setContent r (res t))))) t))
  | None =>
      cn ← read_view (cntxt_name (base (req t)));
      let cn := if bool_decide (cn = []) then DEFAULT_CTX else cn in
      let t := set_req (set_base (setCntxt_name cn) (req t)) t in
      match routed cn with
      | Some (cn, i) =>
          w ← with_context cn (req t);
          '(x, w, r) ← run_router i w (res t);
          match x with None => Ret (Served (set_res r (set_req w t))) | Some e => swallow e r end
      | None =>
          match HttpRequest.status (base (req t)) with
          | Some s => Ret (Served (set_res (set_status (status_by_code s) (res t)) t))
          | None =>
              m ← read_view (methodv (base (req t)));
              match m with
              | [] => Ret (Swallowed (res t))
              | c :: _ =>
                  if (c =? 116) || (c =? 84) then Undefined   (* the status is the null pointer *)
                  else
                    let '(cn, serving) := serving_context cn in
                    let t := set_req (set_base (setCntxt_name cn) (req t)) t in
                    if negb serving then Ret (Served t) else handle_context fuel cn t
              end
          end
      end
  end.
End service.

(** ** HTTP/2 requests *)

Section theorems.
Context `{re : !Regex} {Obj : Type} `{app : !Application Obj}.
Variables (cf : Config) (fs : files) (now : nat → Z) (tfile : option bytes) (expires : bytes).

(** C36: Requests that come over HTTP/2 are not served. When such a request can be built from
    its fields ([setHttp2Headers] returns: an empty path, for one, makes it throw), and none of
    them is named [httpline], a name the code reads as the request line of HTTP/1, then it has
    no method and no path, whatever else its fields say; so unless a router takes it or the
    empty path has a static response, reading the first letter of the method throws, the
    exception is swallowed, and the answer is 404, whatever the application has. *)
Theorem http2_requests_fail fuel strtof m c w' c' r memo blank up :
  Forall (λ kv, kv.1 ≠ str "httpline") m →
  setHttp2Headers strtof m (WebRequest_new HttpRequest_new []) c = Ret (w', c') →
  mfind [] (staticResponsesMap cf) = None → servingContextRouters cf = [] →
  handle cf fs now tfile expires fuel (mkTask w' r memo blank up) = Ret (Swallowed (update (base w') (set_status NotFound r))).
Proof.
  intros Hm H Hs Hr. apply http2_bare in H; [|done|by split_and!; try eexists]. destruct H as (H1 & H2 & H3 & cn & H4). cbn [fst] in *.
  unfold handle. cbn [req res set_res set_all]. rewrite H2. cbn [read_view]. rewrite bind_Ret_l.
  assert ((if enableStaticResponses cf then mfind [] (staticResponsesMap cf) else None) = None) as -> by (by destruct (enableStaticResponses cf)).
  rewrite H4. cbn [read_view]. rewrite bind_Ret_l. unfold routed. rewrite Hr. cbn [mfind fmap option_fmap option_map set_req set_all req set_base base setCntxt_name HttpRequest.status methodv].
  rewrite H3, H1. cbn [read_view]. by rewrite bind_Ret_l.
Qed.

(** ** The order of the handlers *)

(** A login settles the request.  When the security handler answers, no filter, controller,
    mapping, view or file comes after it, whatever the application has: only the cookies of
    the session are added to its answer. *)
Theorem login_settles cn e t w r c :
  enableSecurity cf = true → hasSecurity cf cn = true →
  Security.handle fs auth_class (default [] (mfind cn (securityObjectMap cf))) (req t) (res t) (memo t) = Ret (true, w, r, c) →
  handlers cf fs expires cn e false t = session_step cf expires true (set_all w r c t).
Proof.
  intros Hs Hc H. unfold handlers, unless. cbn [negb andb]. rewrite Hs, Hc. cbn [andb].
  unfold andthen at 1, security_step. rewrite Hs, Hc. cbn [andb]. unfold lift at 1. rewrite H, !bind_Ret_l. cbn [negb andb].
  unfold out_step. rewrite andb_false_r. unfold andthen, skip. rewrite !bind_Ret_l, andb_false_r, !bind_Ret_l. reflexivity.
Qed.

(** ** Files *)

(** A server that only has files: the context and its directory. *)
Definition only_files (cn root : bytes) : Prop :=
  enableStaticResponses cf = false ∧ servingContextRouters cf = [] ∧ isServingContext cf cn = true ∧
  mfind cn (servingContextAppRoots cf) = Some root ∧ enableSecurity cf = false ∧ enableCors cf = false ∧ enableFilters cf = false ∧
  enableControllers cf = false ∧ enableExtControllers cf = false ∧ enableExtra cf = false.

(** A GET request of a path in a context, as its head is parsed. *)
Definition get_path (cn s : bytes) (w : WebRequest) : Prop :=
  methodv (base w) = View (str "GET") ∧ pathv (base w) = View ([47] ++ cn ++ [47] ++ s) ∧ queryv (base w) = View [] ∧
  cntxt_name (base w) = View cn ∧ HttpRequest.status (base w) = None ∧ actUrl (urls w) = [] ∧ actUrlParts (urls w) = [].

Lemma normalize_in_context parent cn s w :
  get_path cn s w → cn ≠ [] → 47 ∉ cn → cntxt_root (urls w) = parent ++ [47] ++ cn →
  ∃ parts, normalizeUrl w = Ret (set_urls (λ _, mkUrls (cntxt_root (urls w)) (cntxt_root (urls w) ++ [47] ++ s) ([47] ++ cn ++ [47] ++ s) ([47] ++ cn ++ [47] ++ s) parts) w).
Proof.
  intros (_ & Hp & Hq & Hc & _ & Ha & Hparts) Hne Hn Hroot. unfold normalizeUrl. rewrite Hp, Hc, Hq. cbn [read_view]. rewrite !bind_Ret_l.
  unfold normalize_path. change ([47] ++ cn ++ [47] ++ s) with (47 :: cn ++ 47 :: s). rewrite at_0, bind_Ret_l, Ha, Hparts. change (47 =? 47) with true. cbn [Datatypes.app].
  change (drop 1 (47 :: cn ++ 47 :: s)) with (cn ++ 47 :: s).
  assert (splitAndReturn (cn ++ 47 :: s) [47] false = cn :: splitAndReturn s [47] false) as ->
    by (unfold splitAndReturn; rewrite split_loop_app by (apply memb_not_in || done; done); done).
  rewrite (bool_decide_false (cn ≠ cn)) by naive_solver. rewrite andb_false_r.
  destruct (last (cntxt_root (urls w))) as [l|] eqn:El.
  2:{ apply last_None in El. rewrite El in Hroot. by destruct parent. }
  assert ((l =? 47) = false) as ->.
  { apply Z.eqb_neq. intros ->. rewrite Hroot, app_assoc, last_app in El. destruct (last cn) as [d|] eqn:E; [|by apply last_None in E].
    injection El as ->. apply Hn. apply last_Some in E as [k ->]. rewrite elem_of_app. right. by left. }
  rewrite !bind_Ret_l. rewrite (bool_decide_true ([] = [])) by done. eexists. do 2 f_equal. unfold set_urls. f_equal.
  assert (upto_last_slash (cntxt_root (urls w)) = parent) as ->.
  { rewrite Hroot. unfold upto_last_slash, find_last_of. rewrite (find_last_app _ parent 47 cn); [|by apply memb_not_in|done].
    by rewrite take_app_length. }
  rewrite Hroot, <- !app_assoc. reflexivity.
Qed.
(** The body of a GET request is not read. *)
Lemma updateContent_get w : methodv (base w) = View (str "GET") →
  Forms.updateContent now tfile w = Ret (set_base (λ r, set_corsRequest (HttpRequest.hasHeader (str "Origin") r) r) w, []).
Proof. intros H. unfold Forms.updateContent. cbn [set_base base set_corsRequest methodv]. rewrite H. cbn [read_view]. by rewrite bind_Ret_l. Qed.

Lemma prepared_get parent cn s t :
  enableSecurity cf = false → get_path cn s (req t) → cn ≠ [] → 47 ∉ cn → cntxt_root (urls (req t)) = parent ++ [47] ++ cn →
  ∃ w, prepared cf now tfile t = Ret (tt, mkTask w (res t) (memo t) (blank t) (uploads t ++ [])) ∧
    cntxt_root (urls w) = parent ++ [47] ++ cn ∧ url (urls w) = (parent ++ [47] ++ cn) ++ [47] ++ s.
Proof.
  intros Hsec Hw Hne Hn Hroot. destruct (normalize_in_context parent cn s (req t) Hw Hne Hn Hroot) as (parts & Hnorm).
  destruct Hw as (Hm & _ & _ & Hcn & _). unfold prepared. rewrite Hnorm, bind_Ret_l, updateContent_get, bind_Ret_l by done.
  cbn [set_base set_urls base set_corsRequest cntxt_name]. rewrite Hcn. cbn [read_view]. rewrite bind_Ret_l, Hsec.
  eexists. split; [reflexivity|]. cbn [set_base set_urls urls cntxt_root url]. by rewrite Hroot.
Qed.

(** Nothing is switched on. *)
Lemma handlers_off cn e t root : only_files cn root → done_ (res t) = false → handlers cf fs expires cn e false t = static_file t.
Proof.
  intros (_ & _ & _ & _ & S5 & S6 & S7 & S8 & S9 & S10) Hd.
  unfold handlers, unless, security_step, filters_step, rest_step, ext_controllers_step, extra_step, out_step, session_step.
  rewrite S5, S7, S8, S9, S10. cbn [negb andb]. unfold andthen, skip. rewrite !bind_Ret_l, Hd. cbn [negb andb].
  destruct (static_file t) as [[[x|[]] t']| | |]; reflexivity.
Qed.

Lemma static_file_spec t root s :
  cntxt_root (urls (req t)) = root → url (urls (req t)) = root ++ [47] ++ s → s ≠ [] → s ≠ [47] → slen s ≤ npos →
  prefixb (str "public/") s = false → sfind (str "//") (root ++ str "/public/" ++ s) = None →
  ∃ w, static_file t = Ret (inr tt, set_all w (setDone false (res t)) (memo t) t) ∧ url (urls w) = root ++ str "/public/" ++ s.
Proof.
  intros Hroot Hurl Hs Hs' Hl Hp Hd. unfold static_file, lift, public_url. rewrite Hroot, Hurl.
  assert (prefixb (root ++ str "/public/") (root ++ [47] ++ s) = false) as ->.
  { apply not_true_iff_false. rewrite prefixb_spec. intros [k E]. rewrite <- app_assoc in E. apply app_inv_head in E.
    change (str "/public/") with ([47] ++ str "public/") in E. rewrite <- app_assoc in E. apply app_inv_head in E.
    rewrite E, prefixb_app in Hp. done. }
  rewrite (bool_decide_false (root ++ [47] ++ s = root)).
  2:{ intros E. apply (f_equal length) in E. rewrite !length_app in E. cbn in E. lia. }
  rewrite app_assoc, (substr_app_r (root ++ [47]) s) by (done || by rewrite slen_app). rewrite bind_Ret_l.
  rewrite !bool_decide_false by done. cbn [orb]. rewrite !bind_Ret_l. eexists. split; [reflexivity|].
  unfold setUrl. cbn [set_base set_urls urls url]. unfold replaceFirst. by rewrite <- !app_assoc, Hd.
Qed.

(** From the context on. *)
Lemma files_in_context fuel parent cn s t :
  only_files cn (parent ++ [47] ++ cn) → get_path cn s (req t) → cn ≠ [] → 47 ∉ cn → s ≠ [] → s ≠ [47] → prefixb (str "public/") s = false →
  sfind (str "//") ((parent ++ [47] ++ cn) ++ str "/public/" ++ s) = None → slen s ≤ npos → done_ (res t) = false →
  ∃ t', handle_context cf fs now tfile expires fuel cn t = Ret (Served t') ∧
    url (urls (req t')) = (parent ++ [47] ++ cn) ++ str "/public/" ++ s ∧ res t' = setDone false (res t).
Proof.
  intros S Hw Hne Hn Hs Hs' Hp Hd Hl Hdone. pose proof S as (_ & _ & _ & S4 & S5 & S6 & _).
  unfold handle_context, with_context. rewrite S4, bind_Ret_l. unfold lift.
  destruct (prepared_get parent cn s (set_req (setCntxt_root (parent ++ [47] ++ cn) (set_base (setCntxt_name cn) (req t))) t)) as (w & -> & Hr & Hu);
    [done|destruct Hw as (? & ? & ? & ? & ? & ? & ?); by split_and!|done|done|done|].
  rewrite bind_Ret_l. cbn [req base set_req set_all res memo blank uploads]. unfold cors_step. rewrite S6, bind_Ret_l.
  set (t1 := mkTask w _ _ _ _).
  rewrite (handlers_off cn _ t1 _ S) by done. destruct (static_file_spec t1 _ s Hr Hu) as (w' & -> & Hw'); [done..|].
  unfold end_of. rewrite bind_Ret_l. eexists. split; [reflexivity|]. by cbn [set_all req res].
Qed.

(** C35: What is asked for is looked for below the directory of the files, as it is written. On
    a server that only has files (no static responses, routers, security, CORS, filters,
    controllers or extensions for the context), a GET request without a query for a path in a
    context ends with no answer but the name of a file, which the writer of the response opens:
    the rest of the path appended to the public directory of the context, also when it climbs
    out of that directory with dots. The rest of the path is neither empty nor a slash, does not
    start with [public/], which is not added again, and makes no double slash, which is
    rewritten. *)
Theorem public_files fuel parent cn s w r c b up :
  only_files cn (parent ++ [47] ++ cn) → get_path cn s w → cn ≠ [] → 47 ∉ cn → s ≠ [] → s ≠ [47] → prefixb (str "public/") s = false →
  sfind (str "//") ((parent ++ [47] ++ cn) ++ str "/public/" ++ s) = None → slen s ≤ npos → done_ r = false →
  ∃ t', handle cf fs now tfile expires fuel (mkTask w r c b up) = Ret (Served t') ∧ url (urls (req t')) = (parent ++ [47] ++ cn) ++ str "/public/" ++ s ∧
    done_ (res t') = false ∧ res_status (res t') = NotFound.
Proof.
  intros S Hw Hne Hn Hs Hs' Hp Hd Hl Hdone. pose proof S as (S1 & S2 & S3 & _). pose proof Hw as (Hm & Hpath & Hq & Hcn & Hst & _).
  unfold handle. cbn [req res set_res set_all]. rewrite Hpath. cbn [read_view].
  rewrite bind_Ret_l, S1, Hcn. cbn [read_view]. rewrite bind_Ret_l. rewrite (bool_decide_false (cn = [])) by done. unfold routed. rewrite S2.
  cbn [mfind fmap option_fmap option_map set_req set_all req set_base base setCntxt_name HttpRequest.status methodv].
  rewrite Hst, Hm. cbn [read_view]. rewrite bind_Ret_l. change (str "GET") with [71; 69; 84].
  change ((71 =? 116) || (71 =? 84)) with false. cbn iota. unfold serving_context. rewrite S3. cbn [negb]. set (t1 := set_req _ _).
  destruct (files_in_context fuel parent cn s t1) as (t' & Ht & Hu & Hr); [done|by destruct Hw as (? & ? & ? & ? & ? & ? & ?); split_and!|done..|].
  exists t'. rewrite Hr. by split_and!.
Qed.
End theorems.

(** ** Samples *)

Definition no_app : Application unit := {|
  run_router := λ _ w r, Ret (None, w, r);
  auth_class := λ _, None;
  doInputFilter := λ _, None;
  doHandle := λ _, None;
  doOutputFilter := λ _, None;
  unserialize := λ _ _ _, Ret None;
  read_value := λ _ _, Throw Runtime_error;
  has_bean := λ _, false;
  has_method := λ _ _, false;
  invoke := λ _ _ w r, Ret (inr None, w, r);
  serialize := λ _ _ _, [];
  string_of := λ _, [];
  service := λ _, None;
  ext_handle := λ w r, Ret (inr false, w, r)
|}.

(** One context, and a login when [secured]. *)
Definition sample_config (secured : bool) : Config :=
  mkConfig false [] [] [(str "app", true)] [] [(str "app", str "/srv/app")]
    secured [(str "app", [(str "p", admin_only)])] false
    false CorsConfig_default false [] false false [] false false [] false [] false [] false.

Lemma http2_requests_fail_witness :
  let m := [(str ":authority", str "a.org"); (str ":method", str "GET"); (str ":path", str "/app/a.html"); (str ":scheme", str "https")] in
  ∃ w', (let _ := no_regex in setHttp2Headers (λ _, 0) m (WebRequest_new HttpRequest_new []) cache_new) =
          Ret (w', mkCache {[str "^[a-zA-Z]+[-|a-zA-Z0-9]*"]} ∅) ∧
    @handle no_regex unit no_app (sample_config false) ∅ (λ _, 0) None [] 1 (mkTask w' HttpResponse_new cache_new [] []) =
      Ret (Swallowed (update (base w') (set_status NotFound HttpResponse_new))).
Proof.
  intros m. eexists. split; [vm_compute; reflexivity|].
  eapply (@http2_requests_fail no_regex unit no_app (sample_config false) ∅ (λ _, 0) None [] 1 (λ _, 0) m cache_new); [|vm_compute; reflexivity|done|done].
  by apply (bool_decide_unpack _); vm_compute.
Defined.

Definition sample_get (path : bytes) : WebRequest :=
  let r := HttpRequest_new in
  WebRequest_new (mkReq (headers_data r) [] [] (View (str "GET")) (View path) (View []) (-1) 11 (str "HTTP/1.1") (View (str "app")) [] [] None false []) [].

(** A path that climbs out of the public directory. *)
Lemma public_files_witness :
  ∃ t', @handle no_regex unit no_app (sample_config false) ∅ (λ _, 0) None [] 1
          (mkTask (sample_get (str "/app/../../../etc/passwd")) HttpResponse_new cache_new [] []) = Ret (Served t') ∧
    url (urls (req t')) = str "/srv/app/public/../../../etc/passwd".
Proof.
  destruct (@public_files no_regex unit no_app (sample_config false) ∅ (λ _, 0) None [] 1 (str "/srv") (str "app") (str "../../../etc/passwd")
    (sample_get (str "/app/../../../etc/passwd")) HttpResponse_new cache_new [] []) as (t' & H & Hu & _);
    [by split_and!|by split_and!|done|by apply (bool_decide_unpack _); vm_compute|done|done|done|by vm_compute|done|done|].
  exists t'. split; [exact H|exact Hu].
Defined.

(** A login with the beginning of the password. *)
Definition sample_login : Task :=
  mkTask (set_urls (λ u, mkUrls (str "/srv/app") (url u) (str "login.html") (actUrl u) (actUrlParts u))
            (set_auth (λ a, mkAuth (str "alice") (str "won") [] (cookie a) [] [] false) (sample_get (str "/app/login.html"))))
    HttpResponse_new cache_new [] [].
Definition sample_users : files := {[ str "/srv/app/users.txt" := str "alice:wonderland:ROLE_ADMIN" ]}.
Lemma login_settles_witness :
  ∃ w r, (let _ := no_regex in Security.handle sample_users (λ _, None) [(str "p", admin_only)] (req sample_login) HttpResponse_new cache_new) =
           Ret (true, w, r, cache_new) ∧
    getAttribute role_attribute w = str "ROLE_ADMIN" ∧ code (res_status r) = 307 ∧
    @handlers no_regex unit no_app (sample_config true) sample_users [] (str "app") [] false sample_login =
      session_step (sample_config true) [] true (set_all w r cache_new sample_login).
Proof.
  eexists _, _. split; [vm_compute; reflexivity|]. split; [reflexivity|]. split; [reflexivity|].
  eapply (@login_settles no_regex unit no_app (sample_config true) sample_users [] (str "app") [] sample_login); [done|done|].
  vm_compute. reflexivity.
Defined.
