(* ===== verification/Http11.v ===== *)
(** * Http11

    Reading HTTP/1 requests off a connection: [Http11Handler::readRequest]
    ([http/http11/Http11Handler.cpp]), the same code in [Http11Socket::read]
    ([server-util/RequestHandler2.cpp]), and the read task's loop
    ([HttpReadTask::run] in [http/HttpServiceHandler.cpp]).

    The socket's buffer is part of the state; a switch to another protocol
    ([handler]) and the response object are outside. *)

From S2P Require Import Prelude StdString StringUtil Http1Parser HttpRequest.

Record Http11Handler := mkHandler {
  buffer : bytes;
  isHeadersDone : bool;
  bytesToRead : Z;
  isTeRequest : bool;
  request : HttpRequest
}.

Definition Http11Handler_new : Http11Handler := mkHandler [] false 0 false HttpRequest_new.
Definition with_buffer (b : bytes) (h : Http11Handler) : Http11Handler :=
  mkHandler b (isHeadersDone h) (bytesToRead h) (isTeRequest h) (request h).

Definition HDR_END : bytes := [13; 10].
Definition HDR_FIN : bytes := [13; 10; 13; 10].

(** The part of [readRequest] for a new head. *)
Definition read_head (lazy : bool) (h : Http11Handler) : outcome Http11Handler :=
  if isHeadersDone h then Ret h
  else
    match sfind HDR_FIN (buffer h) with
    | None => Ret h
    | Some ix =>
        '(req, n) ← reset lazy (take (ix + 4) (buffer h)) 0 (request h);
        Ret (mkHandler (drop (ix + 4) (buffer h)) true n (isTeRequest h) req)
    end.

(** The size line of a chunk. *)
Definition read_chunk_size (h : Http11Handler) : Http11Handler :=
  if isTeRequest h && (bytesToRead h =? 0) then
    match sfind HDR_END (buffer h) with
    | None => h
    | Some ix =>
        let bytesstr := take ix (buffer h) in
        let b := drop (ix + 2) (buffer h) in
        if bool_decide (bytesstr = []) then with_buffer b h
        else
          let n := wraps 32 (fromHEX bytesstr) in
          mkHandler b (isHeadersDone h) n (negb (n =? 0)) (request h)
    end
  else h.

(** The content, once all of it is there. *)
Definition read_content (h : Http11Handler) : Http11Handler :=
  if (0 <? bytesToRead h) && (bytesToRead h <=? wraps 32 (slen (buffer h))) then
    let n := Z.to_nat (bytesToRead h) in
    mkHandler (drop n (buffer h)) (isHeadersDone h) 0 (isTeRequest h) (setContent (take n (buffer h)) (request h))
  else h.

(** [readRequest]: whether a request is complete, and [pending]. *)
Definition readRequest (lazy : bool) (h : Http11Handler) : outcome (bool * Z * Http11Handler) :=
  h ← read_head lazy h;
  let '(fl, h) :=
    if isHeadersDone h then
      let h := read_content (read_chunk_size h) in
      if negb (isTeRequest h) && (bytesToRead h =? 0)
      then (true, mkHandler (buffer h) false (bytesToRead h) (isTeRequest h) (request h))
      else (false, h)
    else (false, h) in
  Ret (fl, wraps 32 (slen (buffer h)), h).

Definition hasPendingRead (h : Http11Handler) : bool := wraps 32 (slen (buffer h)) <? bytesToRead h.

(** The loop of the read task: the requests it serves.  A complete request takes
    at least a byte. *)
Fixpoint read_requests (fuel : nat) (lazy : bool) (pending : Z) (h : Http11Handler)
    : outcome (list HttpRequest * Http11Handler) :=
  match fuel with
  | O => Out_of_fuel
  | S fuel' =>
      if 0 <? pending then
        '(fl, pending, h) ← readRequest lazy h;
        if (fl : bool) then
          '(rs, h') ← read_requests fuel' lazy pending h;
          Ret (request h :: rs, h')
        else Ret ([], h)
      else Ret ([], h)
  end.

(** One read event with the bytes that came in. *)
Definition read_task (lazy : bool) (received : bytes) (h : Http11Handler) : outcome (list HttpRequest * Http11Handler) :=
  let h := with_buffer (buffer h ++ received) h in
  read_requests (S (S (length (buffer h)))) lazy 1 h.

Fixpoint receive (lazy : bool) (chunks : list bytes) (h : Http11Handler) : outcome (list HttpRequest * Http11Handler) :=
  match chunks with
  | [] => Ret ([], h)
  | c :: chunks =>
      '(rs, h) ← read_task lazy c h;
      '(rs', h) ← receive lazy chunks h;
      Ret (rs ++ rs', h)
  end.

(** ** Requests as a client writes them *)

Record request_text := mkText {
  rt_method : bytes;
  rt_path : bytes;
  rt_minor : Z;
  rt_fields : list (bytes * bytes);
  rt_body : bytes
}.

Definition text_head (t : request_text) : bytes := render_head (rt_method t) (rt_path t) (rt_minor t) (rt_fields t).
Definition render (t : request_text) : bytes := text_head t ++ rt_body t.

(** A well-formed request whose content length is that of its body. *)
Definition text_ok (t : request_text) : Prop :=
  word_ok (rt_method t) ∧ word_ok (rt_path t) ∧ 0 ≤ rt_minor t ≤ 9 ∧ Forall field_ok (rt_fields t) ∧
  Z.of_nat (length (rt_fields t)) ≤ max_headers ∧ fields_content_length (rt_fields t) 0 = Ret (slen (rt_body t)).

(** The request object a text stands for. *)
Definition request_of (t : request_text) : HttpRequest :=
  let '(path, query) :=
    match sfind [63] (rt_path t) with
    | Some q => (take q (rt_path t), drop (S q) (rt_path t))
    | None => (rt_path t, [])
    end in
  let '(e, f) := default ([], []) (path_ext_file path) in
  mkReq (text_head t) (map phr_of (rt_fields t)) [] (View (rt_method t)) (View path) (View query) 0
    (10 + rt_minor t) (if rt_minor t =? 1 then str "HTTP/1.1" else str "HTTP/1.0")
    (View (context_name path)) e f None false (rt_body t).

(** ** The end of a head *)

Definition line_ok (l : bytes) : Prop := l ≠ [] ∧ Forall (λ c, c ≠ 13) l.

Definition request_line_text (t : request_text) : bytes :=
  rt_method t ++ [32] ++ rt_path t ++ [32] ++ str "HTTP/1." ++ [48 + rt_minor t].
Definition field_text (nv : bytes * bytes) : bytes := nv.1 ++ [58; 32] ++ nv.2.

Lemma join_lines (l : bytes) (ls : list bytes) : join crlf (l :: ls) = l ++ flat_map (λ x, crlf ++ x) ls.
Proof.
  revert l. induction ls as [|m ls IH]; intros l; [by rewrite app_nil_r|].
  rewrite join_cons, IH by done. cbn [flat_map]. by rewrite <- !app_assoc.
Qed.

Lemma text_head_lines t :
  text_head t = join crlf (request_line_text t :: map field_text (rt_fields t)) ++ HDR_FIN.
Proof.
  rewrite join_lines. unfold text_head, render_head, request_line_text. rewrite <- !app_assoc.
  do 6 f_equal. induction (rt_fields t) as [|nv fs IH]; [done|]. cbn [map flat_map].
  rewrite <- !app_assoc, <- IH. unfold render_field, field_text. by rewrite <- !app_assoc.
Qed.

Lemma line_head l r : line_ok l → ∃ c k, l ++ r = c :: k ∧ c ≠ 13.
Proof. intros [Hne H]. destruct H as [|c l Hc _]; [done|]. by eexists _, _. Qed.

Lemma lines_absent l ls r :
  Forall line_ok (l :: ls) → absent HDR_FIN (join crlf (l :: ls)) (HDR_FIN ++ r) = true.
Proof.
  intros [Hl Hls]%Forall_cons. rewrite join_lines. revert l Hl. induction Hls as [|m ls Hm Hls IH]; intros l Hl.
  - cbn [flat_map]. rewrite app_nil_r. apply absent_first, Hl.
  - cbn [flat_map]. rewrite absent_app. apply andb_true_intro. split; [apply absent_first, Hl|].
    destruct (line_head m (flat_map (λ x, crlf ++ x) ls ++ HDR_FIN ++ r) Hm) as (c & k & E & Hc).
    set (u := flat_map _ ls) in *. change (absent HDR_FIN ((crlf ++ m) ++ u) (HDR_FIN ++ r))
      with (absent HDR_FIN (13 :: 10 :: (m ++ u)) (HDR_FIN ++ r)).
    cbn [absent]. rewrite (IH m Hm), andb_true_r. cbn [app]. rewrite <- !app_assoc, E.
    unfold HDR_FIN. cbn [prefixb]. by replace (13 =? c) with false by lia.
Qed.

Lemma text_lines_ok t : text_ok t → Forall line_ok (request_line_text t :: map field_text (rt_fields t)).
Proof.
  intros (Hm & Hp & Hmin & Hf & _). constructor.
  - split; [unfold request_line_text; by destruct (rt_method t)|].
    assert (∀ w, word_ok w → Forall (λ c, c ≠ 13) w) as Hw.
    { intros w [_ H]. eapply Forall_impl; [exact H|]. unfold word_char. cbn. lia. }
    unfold request_line_text. repeat (apply Forall_app; split); auto; repeat constructor; try done; lia.
  - apply Forall_fmap. eapply Forall_impl; [exact Hf|]. intros nv (Hne & Hn & Hv & _). split.
    + unfold compose, field_text. by destruct nv.1.
    + unfold compose, field_text. repeat (apply Forall_app; split).
      * eapply Forall_impl; [exact Hn|]. cbn. intros c Hc. by apply token_char_not in Hc as [? _].
      * repeat constructor; done.
      * eapply Forall_impl; [exact Hv|]. cbn. intros c Hc ->. discriminate Hc.
Qed.

Lemma head_fin t r : text_ok t → sfind HDR_FIN (text_head t ++ r) = Some (length (text_head t) - 4)%nat.
Proof.
  intros H. rewrite text_head_lines, <- app_assoc, sfind_first by (by apply lines_absent, text_lines_ok).
  rewrite length_app. f_equal. cbn. lia.
Qed.

Lemma head_length t : (4 ≤ length (text_head t))%nat.
Proof. rewrite text_head_lines, length_app. cbn. lia. Qed.

(** No part of a head is taken for a whole one. *)
Lemma head_prefix_fin t p q : text_ok t → text_head t = p ++ q → q ≠ [] → sfind HDR_FIN p = None.
Proof.
  intros H E Hq. destruct (sfind HDR_FIN p) as [i|] eqn:Ei; [|done].
  apply sfind_bound in Ei as Hb. apply (sfind_app_l _ _ q) in Ei. rewrite <- E in Ei.
  pose proof (head_fin t [] H) as Hf. rewrite app_nil_r, Ei in Hf. injection Hf as ->.
  pose proof (head_length t). apply (f_equal length) in E. rewrite length_app in E.
  assert (0 < length q)%nat by (destruct q; [done|cbn; lia]). cbn in Hb. lia.
Qed.

(** ** One request *)

Definition idle (h : Http11Handler) : Prop := isHeadersDone h = false ∧ bytesToRead h = 0 ∧ isTeRequest h = false.
(** The head of [t] is read, its body is not. *)
Definition waiting (t : request_text) (h : Http11Handler) : Prop :=
  isHeadersDone h = true ∧ bytesToRead h = slen (rt_body t) ∧ isTeRequest h = false ∧
  setContent (rt_body t) (request h) = request_of t ∧ (rt_body t = [] → request h = request_of t).

Lemma reset_text t r :
  text_ok t → ∃ r', reset false (text_head t) 0 r = Ret (r', slen (rt_body t)) ∧
    setContent (rt_body t) r' = request_of t ∧ (rt_body t = [] → r' = request_of t).
Proof.
  intros (Hm & Hp & Hmin & Hf & Hmax & Hc). unfold reset.
  pose proof (head_length t). replace (slen (text_head t) =? 0) with false by (unfold slen; lia).
  pose proof (head_parses (rt_method t) (rt_path t) (rt_minor t) (rt_fields t) max_headers 0 (slen (rt_body t)) []
    Hm Hp Hmin Hf Hmax Hc) as Hparse. cbv zeta in Hparse. rewrite app_nil_r in Hparse.
  fold (text_head t) in Hparse. rewrite Hparse.
  rewrite bind_Ret_l. cbn [rl_path rl_method rl_minor_version]. unfold request_of.
  destruct (sfind [63] (rt_path t)) as [q|];
    (destruct (default _ _) as [e f]; eexists; split; [done|]; split; [done|by intros ->]).
Qed.

Lemma read_content_full t h r :
  waiting t h → buffer h = rt_body t ++ r → slen (buffer h) < 2 ^ 31 →
  read_content (read_chunk_size h) = mkHandler r true 0 false (request_of t).
Proof.
  intros (Hd & Hn & Ht & Hr & Hr0) Hb Hl. unfold read_chunk_size. rewrite Ht. cbn [andb].
  unfold read_content. rewrite Hn, Hb in *. rewrite slen_app in Hl |- *.
  pose proof (slen_nonneg (rt_body t)). pose proof (slen_nonneg r).
  rewrite wraps_small by lia. destruct (0 <? slen (rt_body t)) eqn:E.
  - replace (slen (rt_body t) <=? slen (rt_body t) + slen r) with true by lia. cbn [andb].
    unfold slen. rewrite Nat2Z.id, drop_app_length, take_app_length. by rewrite Hd, Ht, Hr.
  - assert (rt_body t = []) as E0 by (destruct (rt_body t) eqn:Eb; [done|rewrite slen_cons in E; pose proof (slen_nonneg l); lia]).
    cbn [andb]. rewrite <- (Hr0 E0). rewrite E0 in *. cbn [app] in Hb. rewrite slen_nil in Hn. subst r.
    by destruct h; cbn in *; subst.
Qed.

Lemma read_content_part t h q :
  waiting t h → rt_body t = buffer h ++ q → q ≠ [] → slen (rt_body t) < 2 ^ 31 →
  read_content (read_chunk_size h) = h.
Proof.
  intros (Hd & Hn & Ht & _) Hb Hq Hl. unfold read_chunk_size. rewrite Ht. cbn [andb].
  unfold read_content. rewrite Hn. rewrite Hb in *. rewrite slen_app in *. pose proof (slen_pos q Hq).
  pose proof (slen_nonneg (buffer h)). rewrite wraps_small by lia.
  replace (slen (buffer h) + slen q <=? slen (buffer h)) with false by lia. by rewrite andb_false_r.
Qed.

(** ** The stream *)

(** A handler that waits: it has part of the next request, the rest is to come. *)
Inductive expects : Http11Handler → list request_text → bytes → Prop :=
| expects_head h ts y :
    idle h → buffer h ++ y = concat (map render ts) →
    match ts with [] => buffer h = [] | t :: _ => (length (buffer h) < length (text_head t))%nat end →
    expects h ts y
| expects_body h t ts y :
    waiting t h → buffer h ++ y = rt_body t ++ concat (map render ts) →
    (length (buffer h) < length (rt_body t))%nat → expects h (t :: ts) y.

(** A handler with bytes to look at. *)
Inductive ready : Http11Handler → list request_text → bytes → Prop :=
| ready_head h ts y : idle h → buffer h ++ y = concat (map render ts) → ready h ts y
| ready_body h t ts y : waiting t h → buffer h ++ y = rt_body t ++ concat (map render ts) → ready h (t :: ts) y.

Lemma app_split (a b c d : bytes) :
  a ++ b = c ++ d → (length c ≤ length a)%nat → ∃ k, a = c ++ k ∧ d = k ++ b.
Proof.
  intros E Hl. exists (drop (length c) a). 
  assert (take (length c) a = c) as Ht.
  { apply (f_equal (take (length c))) in E. rewrite take_app_le, take_app_length in E by done. done. }
  split; [rewrite <- Ht at 1; by rewrite take_drop|].
  apply (f_equal (drop (length c))) in E. rewrite drop_app_le, drop_app_length in E by done. done.
Qed.
Lemma app_split_lt (a b c d : bytes) :
  a ++ b = c ++ d → (length a < length c)%nat → ∃ q, c = a ++ q ∧ q ≠ [].
Proof.
  intros E Hl. symmetry in E. destruct (app_split c d a b E ltac:(lia)) as (q & -> & _). exists q. split; [done|].
  intros ->. rewrite app_nil_r in Hl. lia.
Qed.

(** One call: a complete request, or a wait. *)
Lemma readRequest_waiting t ts h y :
  waiting t h → buffer h ++ y = rt_body t ++ concat (map render ts) → slen (buffer h) < 2 ^ 31 →
  slen (rt_body t) < 2 ^ 31 →
  (∃ h', readRequest false h = Ret (true, slen (buffer h'), h') ∧ request h' = request_of t ∧ idle h' ∧
     buffer h' ++ y = concat (map render ts) ∧ (length (buffer h') + length (rt_body t) ≤ length (buffer h))%nat) ∨
  (∃ p, readRequest false h = Ret (false, p, h) ∧ expects h (t :: ts) y).
Proof.
  intros Hw E Hl Hlb. pose proof Hw as (Hd & Hn & Ht & _). unfold readRequest, read_head. rewrite Hd, bind_Ret_l, Hd.
  destruct (decide (length (rt_body t) ≤ length (buffer h))%nat) as [Hle|Hlt].
  - destruct (app_split _ _ _ _ E Hle) as (k & Ek & Ey).
    left. rewrite (read_content_full t h k) by done. cbn.
    exists (mkHandler k false 0 false (request_of t)). cbn. rewrite wraps_small.
    + split_and!; [done|done|done|done|by rewrite Ek, length_app; lia].
    + lia.
    + rewrite Ek, slen_app in Hl. pose proof (slen_nonneg k). pose proof (slen_nonneg (rt_body t)). lia.
  - destruct (app_split_lt _ _ _ _ E ltac:(lia)) as (q & Eq & Hq).
    right. rewrite (read_content_part t h q) by done. rewrite Ht, Hn. cbn [negb andb].
    assert (0 < slen (rt_body t)) as Hpos by (rewrite Eq, slen_app; pose proof (slen_pos q Hq); pose proof (slen_nonneg (buffer h)); lia).
    replace (slen (rt_body t) =? 0) with false by lia. eexists. split; [done|].
    constructor; [done|done|lia].
Qed.

Lemma head_complete t h r :
  text_ok t → idle h → buffer h = text_head t ++ r →
  ∃ h', read_head false h = Ret h' ∧ waiting t h' ∧ buffer h' = r.
Proof.
  intros Ht (Hd & Hn & Hte) Hb. unfold read_head. rewrite Hd, Hb, head_fin by done.
  pose proof (head_length t). replace (length (text_head t) - 4 + 4)%nat with (length (text_head t)) by lia.
  rewrite take_app_length, drop_app_length.
  destruct (reset_text t (request h) Ht) as (r' & -> & Hr & Hr0). rewrite bind_Ret_l.
  eexists. split; [done|]. unfold waiting. cbn. done.
Qed.

Lemma readRequest_after_head h h1 :
  read_head false h = Ret h1 → isHeadersDone h1 = true → readRequest false h = readRequest false h1.
Proof. intros E Hd. unfold readRequest. rewrite E. unfold read_head. by rewrite Hd. Qed.

Lemma readRequest_nothing h : idle h → sfind HDR_FIN (buffer h) = None → ∃ p, readRequest false h = Ret (false, p, h).
Proof.
  intros (Hd & _) E. unfold readRequest, read_head. rewrite Hd, E, bind_Ret_l, Hd. by eexists.
Qed.

Lemma readRequest_idle t ts h y :
  text_ok t → idle h → buffer h ++ y = concat (map render (t :: ts)) → slen (buffer h) < 2 ^ 31 →
  slen (rt_body t) < 2 ^ 31 →
  (∃ h', readRequest false h = Ret (true, slen (buffer h'), h') ∧ request h' = request_of t ∧ idle h' ∧
     buffer h' ++ y = concat (map render ts) ∧ (length (buffer h') < length (buffer h))%nat) ∨
  (∃ p h', readRequest false h = Ret (false, p, h') ∧ expects h' (t :: ts) y).
Proof.
  intros Ht Hi E Hl Hb. pose proof E as E2. cbn [map concat] in E. unfold render at 1 in E. rewrite <- app_assoc in E.
  destruct (decide (length (text_head t) ≤ length (buffer h))%nat) as [Hle|Hlt].
  - destruct (app_split _ _ _ _ E Hle) as (k & Ek & Ey).
    destruct (head_complete t h k Ht Hi Ek) as (h1 & Hr & Hw & Hk).
    rewrite (readRequest_after_head h h1 Hr) by apply Hw. pose proof (head_length t).
    rewrite Ek, slen_app in Hl. pose proof (slen_nonneg (text_head t)).
    destruct (readRequest_waiting t ts h1 y Hw) as [(h' & ? & ? & ? & ? & ?)|(p & ? & ?)]; [by rewrite Hk|rewrite Hk; lia|done| |].
    + left. exists h'. split_and!; try done. rewrite Ek, length_app. rewrite Hk in *. lia.
    + right. by exists p, h1.
  - destruct (app_split_lt _ _ _ _ E ltac:(lia)) as (q & Eq & Hq).
    destruct (readRequest_nothing h Hi) as [p Hp]; [by eapply head_prefix_fin|].
    right. exists p, h. split; [done|]. constructor; [done|done|lia].
Qed.

Definition body_bound (t : request_text) : Prop := slen (rt_body t) < 2 ^ 31.

(** A handler that has read a head has a body to wait for. *)
Definition body_awaited (h : Http11Handler) (ts : list request_text) : Prop :=
  match ts with t :: _ => isHeadersDone h = true → rt_body t ≠ [] | [] => True end.

Lemma idle_body_awaited h ts : idle h → body_awaited h ts.
Proof. intros Hi. destruct ts as [|t ts]; [done|]. intros Hd. by rewrite (proj1 Hi) in Hd. Qed.

Lemma readRequest_ready h t ts y :
  text_ok t → body_bound t → ready h (t :: ts) y → slen (buffer h) < 2 ^ 31 → body_awaited h (t :: ts) →
  (∃ h', readRequest false h = Ret (true, slen (buffer h'), h') ∧ request h' = request_of t ∧ idle h' ∧
     buffer h' ++ y = concat (map render ts) ∧ (length (buffer h') < length (buffer h))%nat) ∨
  (∃ p h', readRequest false h = Ret (false, p, h') ∧ expects h' (t :: ts) y).
Proof.
  intros Ht Hbt Hr Hl Hne. inversion Hr as [h0 ts0 y0 Hi E|h0 t0 ts0 y0 Hw E]; subst; [by apply readRequest_idle|].
  destruct (readRequest_waiting t ts h y Hw E Hl Hbt) as [(h' & ? & ? & ? & ? & ?)|(p & ? & ?)];
    [left; exists h'|right; by exists p, h].
  split_and!; try done. specialize (Hne (proj1 Hw)). destruct (rt_body t); [done|cbn in *; lia].
Qed.

(** With nothing to look at, a handler waits. *)
Lemma ready_empty h ts y : ready h ts y → buffer h = [] → body_awaited h ts → expects h ts y.
Proof.
  intros Hr Eb Hne. inversion Hr as [h0 ts0 y0 Hi E|h0 t0 ts0 y0 Hw E]; subst.
  - constructor; [done|done|]. rewrite Eb. destruct ts as [|t ts]; [done|]. pose proof (head_length t). cbn. lia.
  - constructor; [done|done|]. rewrite Eb. specialize (Hne (proj1 Hw)). destruct (rt_body t0); [done|cbn; lia].
Qed.

Lemma ready_nothing h y : ready h [] y → buffer h = [] ∧ y = [] ∧ expects h [] y.
Proof.
  intros Hr. inversion Hr as [h0 ts0 y0 Hi E|]; subst. cbn in E. apply app_eq_nil in E as [E ->].
  split_and!; [done|done|]. constructor; [done|by rewrite E|done].
Qed.

(** New bytes for a handler that waits. *)
Lemma expects_ready h ts c y :
  expects h ts (c ++ y) → ready (with_buffer (buffer h ++ c) h) ts y ∧ body_awaited (with_buffer (buffer h ++ c) h) ts.
Proof.
  intros Hx. inversion Hx as [h0 ts0 y0 Hi E _|h0 t0 ts0 y0 Hw E Hlt]; subst.
  - split; [constructor; [done|]; cbn; by rewrite <- app_assoc|by apply idle_body_awaited].
  - split; [constructor; [done|]; cbn; by rewrite <- app_assoc|].
    intros _ E0. rewrite E0 in Hlt. cbn in Hlt. lia.
Qed.

Lemma read_requests_ready fuel pending h ts y :
  Forall text_ok ts → Forall body_bound ts → ready h ts y →
  slen (buffer h) < 2 ^ 31 → (length (buffer h) < fuel)%nat → (pending = 1 ∨ pending = slen (buffer h)) → body_awaited h ts →
  ∃ ts1 ts2 h', ts = ts1 ++ ts2 ∧ read_requests fuel false pending h = Ret (map request_of ts1, h') ∧ expects h' ts2 y.
Proof.
  intros Hok. revert fuel pending h. induction Hok as [|t ts Ht Hok IH]; intros fuel pending h Hb Hr Hl Hf Hp Hne;
    (destruct fuel as [|fuel]; [lia|]); cbn [read_requests].
  - apply ready_nothing in Hr as (E & -> & Hx). exists [], [], h. split; [done|]. split; [|done].
    destruct (0 <? pending); [|done]. inversion Hx as [h0 ts0 y0 Hi _ _|]; subst.
    destruct (readRequest_nothing h Hi) as [p ->]; [by rewrite E|done].
  - apply Forall_cons in Hb as [Hbt Hb]. destruct (0 <? pending) eqn:Epend.
    + destruct (readRequest_ready h t ts y Ht Hbt Hr Hl Hne) as [(h' & -> & Hreq & Hi & E & Hlt)|(p & h' & -> & Hx)]; rewrite bind_Ret_l.
      * destruct (IH fuel (slen (buffer h')) h' Hb) as (ts1 & ts2 & h2 & -> & Hrd & Hx).
        { by constructor. } { unfold slen in *. lia. } { lia. } { by right. } { by apply idle_body_awaited. }
        exists (t :: ts1), ts2, h2. rewrite Hrd. cbn. rewrite Hreq. done.
      * by exists [], (t :: ts), h'.
    + exists [], (t :: ts), h. split; [done|]. split; [done|]. apply ready_empty; [done| |done].
      destruct Hp as [->| ->]; [done|]. destruct (buffer h) eqn:E; [done|]. rewrite slen_cons in Epend. pose proof (slen_nonneg l). lia.
Qed.

Lemma read_task_expects h ts c y :
  Forall text_ok ts → Forall body_bound ts → expects h ts (c ++ y) → slen (buffer h ++ c) < 2 ^ 31 →
  ∃ ts1 ts2 h', ts = ts1 ++ ts2 ∧ read_task false c h = Ret (map request_of ts1, h') ∧ expects h' ts2 y.
Proof.
  intros Hok Hb Hx Hl. destruct (expects_ready h ts c y Hx) as [Hr Hne].
  unfold read_task. apply (read_requests_ready _ 1 _ ts y Hok Hb Hr); [done|lia|by left|done].
Qed.

Lemma expects_buffer h ts y : expects h ts y → slen (buffer h) + slen y ≤ slen (concat (map render ts)).
Proof.
  intros Hx. inversion Hx as [h0 ts0 y0 Hi E _|h0 t0 ts0 y0 Hw E _]; subst; rewrite <- slen_app, E; [lia|].
  cbn [map concat]. unfold render at 2. rewrite !slen_app. pose proof (slen_nonneg (text_head t0)). lia.
Qed.

Lemma concat_render_app ts1 ts2 : slen (concat (map render ts2)) ≤ slen (concat (map render (ts1 ++ ts2))).
Proof. rewrite map_app, concat_app, slen_app. pose proof (slen_nonneg (concat (map render ts1))). lia. Qed.

Lemma receive_expects chunks h ts :
  Forall text_ok ts → Forall body_bound ts → expects h ts (concat chunks) → slen (concat (map render ts)) < 2 ^ 31 →
  ∃ h', receive false chunks h = Ret (map request_of ts, h') ∧ idle h' ∧ buffer h' = [].
Proof.
  revert h ts. induction chunks as [|c chunks IH]; intros h ts Hok Hb Hx Hl; cbn [receive concat] in *.
  - inversion Hx as [h0 ts0 y0 Hi E Hs|h0 t0 ts0 y0 Hw E Hs]; subst; rewrite app_nil_r in E.
    + destruct ts as [|t ts]; [by exists h|]. rewrite E in Hs. cbn [map concat] in Hs. unfold render in Hs.
      rewrite !length_app in Hs. lia.
    + rewrite E, length_app in Hs. lia.
  - assert (slen (buffer h ++ c) < 2 ^ 31) as Hl2.
    { apply expects_buffer in Hx. rewrite slen_app in *. pose proof (slen_nonneg (concat chunks)). lia. }
    destruct (read_task_expects h ts c (concat chunks) Hok Hb Hx Hl2) as (ts1 & ts2 & h1 & -> & -> & Hx1).
    apply Forall_app in Hok as [_ Hok2]. apply Forall_app in Hb as [_ Hb2].
    pose proof (concat_render_app ts1 ts2).
    destruct (IH h1 ts2 Hok2 Hb2 Hx1 ltac:(lia)) as (h2 & Hr & Hi & Hbuf). cbn. rewrite Hr. cbn.
    exists h2. by rewrite map_app.
Qed.

(** C12: An HTTP/1 connection is read the same however it is cut.  A sequence of
    well-formed requests, each with the content length of its body, is handed over
    one by one, in order, with head and body as they were sent, for every way the
    bytes can arrive; nothing is left in the buffer. *)
Theorem http1_requests_reassemble chunks ts :
  Forall text_ok ts → concat chunks = concat (map render ts) → slen (concat (map render ts)) < 2 ^ 31 →
  ∃ h', receive false chunks Http11Handler_new = Ret (map request_of ts, h') ∧ idle h' ∧ buffer h' = [].
Proof.
  intros Hok E Hl. apply receive_expects; [done| | |done].
  - apply Forall_forall. intros t Ht. unfold body_bound.
    apply list_elem_of_split in Ht as (l1 & l2 & ->). rewrite map_app, concat_app in Hl. cbn [map concat] in Hl.
    unfold render at 2 in Hl. rewrite !slen_app in Hl. pose proof (slen_nonneg (text_head t)).
    pose proof (slen_nonneg (concat (map render l1))). pose proof (slen_nonneg (concat (map render l2))). lia.
  - constructor; [done|by rewrite E|]. destruct ts as [|t ts]; [done|]. pose proof (head_length t). cbn. lia.
Qed.

Definition get_request : request_text := mkText (str "GET") (str "/shop/items?id=7") 1 [(str "Host", str "example.org")] [].
Definition post_request : request_text :=
  mkText (str "POST") (str "/shop/order.html") 1
    [(str "Host", str "example.org"); (str "content-length", str "11")] (str "hello world").

Lemma sample_requests_ok : Forall text_ok [post_request; get_request; post_request].
Proof.
  assert (text_ok get_request ∧ text_ok post_request) as [Hg Hp];
    [|apply Forall_cons; split; [done|]; apply Forall_cons; split; [done|]; by apply Forall_singleton].
  split; (split_and!; [split; [done|repeat constructor]|split; [done|repeat constructor]|done|done| | |vm_compute; reflexivity]);
    try (vm_compute; congruence); repeat constructor; try done; intros c [= <-]; done.
Defined.

Definition sample_stream : bytes := concat (map render [post_request; get_request; post_request]).

Example http1_requests_reassemble_witness :
  ∃ h', receive false [take 10 sample_stream; take 90 (drop 10 sample_stream); []; drop 100 sample_stream] Http11Handler_new
        = Ret (map request_of [post_request; get_request; post_request], h') ∧ idle h' ∧ buffer h' = [].
Proof.
  apply (http1_requests_reassemble _ [post_request; get_request; post_request]).
  - apply sample_requests_ok.
  - vm_compute. reflexivity.
  - vm_compute. reflexivity.
Defined.

(** ** What is read differently *)

(** Chunked bodies are not read.  Nothing sets [isTeRequest], so a request
    with a chunked body and no content length is served at once with no content,
    and the bytes of its body are read as the next request. *)
Theorem chunked_body_is_next_request t w h :
  text_ok t → rt_body t = [] → (str "Transfer-Encoding", str "chunked") ∈ rt_fields t →
  idle h → buffer h = text_head t ++ w → slen (buffer h) < 2 ^ 31 →
  ∃ h', readRequest false h = Ret (true, slen w, h') ∧ request h' = request_of t ∧ content (request h') = [] ∧
    buffer h' = w ∧ idle h'.
Proof.
  intros Ht Hbody _ Hi Hb Hl. destruct (head_complete t h w Ht Hi Hb) as (h1 & Hr & Hw & Hk).
  rewrite (readRequest_after_head h h1 Hr) by apply Hw. unfold readRequest, read_head.
  pose proof (proj1 Hw) as Hd. rewrite Hd, bind_Ret_l, Hd.
  assert (slen w < 2 ^ 31) by (rewrite Hb, slen_app in Hl; pose proof (slen_nonneg (text_head t)); lia).
  rewrite (read_content_full t h1 w) by (rewrite ?Hbody, ?Hk; done).
  eexists. split; [cbn; rewrite wraps_small by (pose proof (slen_nonneg w); lia); done|]. cbn.
  split_and!; [done| |done|done]. unfold request_of.
  destruct (sfind [63] (rt_path t)); (destruct (default _ _); cbn; by rewrite Hbody).
Qed.

Definition chunked_request : request_text :=
  mkText (str "POST") (str "/upload") 1 [(str "Transfer-Encoding", str "chunked")] [].

Example chunked_body_is_next_request_witness :
  let w := str "5" ++ crlf ++ str "hello" ++ crlf ++ str "0" ++ crlf ++ crlf in
  let h := with_buffer (text_head chunked_request ++ w) Http11Handler_new in
  ∃ h', readRequest false h = Ret (true, slen w, h') ∧ request h' = request_of chunked_request ∧
    content (request h') = [] ∧ buffer h' = w ∧ idle h'.
Proof.
  intros w h. apply (chunked_body_is_next_request chunked_request w h).
  - split_and!; [split; [done|repeat constructor]|split; [done|repeat constructor]|done|done| |vm_compute; congruence|vm_compute; reflexivity].
    repeat constructor; try done; intros c [= <-]; done.
  - done.
  - by left.
  - done.
  - done.
  - vm_compute. reflexivity.
Defined.

(** Lazy header parsing drops headers and bodies.  With it, a complete request
    is served without headers and without its content, the content stays in the
    buffer as the next request, and the later [parseHeaders] parses nothing. *)
Theorem lazy_headers_are_lost t h w :
  text_ok t → idle h → buffer h = text_head t ++ w → slen (buffer h) < 2 ^ 31 →
  ∃ h', readRequest true h = Ret (true, slen w, h') ∧ headers_list (request h') = [] ∧
    content (request h') = [] ∧ buffer h' = w ∧
    ∃ n, parseHeaders 0 (request h') = Ret (false, [], n).
Proof.
  intros Ht (Hd & Hn & Hte) Hb Hl. unfold readRequest, read_head. rewrite Hd, Hb, head_fin by done.
  pose proof (head_length t). replace (length (text_head t) - 4 + 4)%nat with (length (text_head t)) by lia.
  rewrite take_app_length, drop_app_length.
  assert (∃ r', reset true (text_head t) 0 (request h) = Ret (r', 0) ∧ headers_list r' = [] ∧ content r' = [] ∧
    headers_data r' = text_head t ∧ parser_pos r' = 0) as (r' & -> & Hh & Hc & Hdata & Hpos).
  { unfold reset. replace (slen (text_head t) =? 0) with false by (unfold slen; lia).
    destruct Ht as (Hm & Hp & Hmin & _). unfold phr_parse_request_fcp, text_head.
    pose proof (line_parses (rt_method t) (rt_path t) (rt_minor t) (rt_fields t) [] Hm Hp Hmin) as Hline.
    rewrite app_nil_r in Hline. rewrite Hline, bind_Ret_l. cbn [rl_path].
    destruct (sfind [63] (rt_path t)); (destruct (default _ _); eexists; done). }
  rewrite !bind_Ret_l. cbn [isHeadersDone]. rewrite Hte. unfold read_chunk_size. cbn [isTeRequest andb].
  unfold read_content. cbn.
  assert (slen w < 2 ^ 31) by (rewrite Hb, slen_app in Hl; pose proof (slen_nonneg (text_head t)); lia).
  eexists. split; [cbn; rewrite wraps_small by (pose proof (slen_nonneg w); lia); done|]. cbn.
  split_and!; [done|done|done|].
  unfold parseHeaders. rewrite Hh, Hdata, Hpos. destruct (_ && _); [|by eexists].
  cbn [Z.to_nat length drop]. unfold parse_headers_fcp, text_head.
  destruct (head_first (rt_method t) (rt_path t) (rt_minor t) (rt_fields t) (proj1 Ht)) as (c & k & -> & H13 & H10).
  change (drop (Z.to_nat 0) (c :: k)) with (c :: k).
  cbn [parse_headers_loop CHECK_EOF pbind]. unfold line_end. cbn [peek].
  replace (c =? 13) with false by lia. replace (c =? 10) with false by lia. by eexists.
Qed.

Example lazy_headers_are_lost_witness :
  let h := with_buffer (render post_request) Http11Handler_new in
  ∃ h', readRequest true h = Ret (true, 11, h') ∧ headers_list (request h') = [] ∧
    content (request h') = [] ∧ buffer h' = str "hello world" ∧
    ∃ n, parseHeaders 0 (request h') = Ret (false, [], n).
Proof.
  apply (lazy_headers_are_lost post_request _ (str "hello world")).
  - pose proof sample_requests_ok as H. by apply Forall_inv in H.
  - done.
  - done.
  - vm_compute. reflexivity.
Defined.
