(* ===== verification/Http11Server.v ===== *)
(** * Http11Server

    A connection of the multi-request server: [Http11Socket]
    ([server-util/RequestHandler2.cpp]), which reads requests off its buffer, has
    the service answer them, writes each response and queues it for output, with
    the read and write events of [RequestHandler2::loopEventCb].

    It composes the models of the parts: [Http11] reads, [HttpResponse] writes,
    [Sockets] moves the bytes.  The service callback [hsh] is outside: it sees the
    request, the response and the files, and says where the content comes from. *)

From S2P Require Import Prelude StdString StringUtil Http1Parser HttpRequest HttpResponse Sockets Http11.

(** What the callback leaves behind: its result, the request and the response,
    and the request's [getUrl], [getActUrl] and [getCntxt_root]. *)
Record served := mkServed {
  sv_answer : bool;
  sv_files : files;
  sv_req : HttpRequest;
  sv_url : bytes;
  sv_actUrl : bytes;
  sv_root : bytes;
  sv_res : HttpResponse
}.
Abbreviation service := (files → HttpRequest → HttpResponse → served).

Record Http11Socket := mkH11 {
  sock : BaseSocket;
  reader : Http11Handler;
  res : HttpResponse;
  outbuf : list ResponseData
}.

Definition Http11Socket_new (s : BaseSocket) : Http11Socket := mkH11 s Http11Handler_new HttpResponse_new [].

Definition with_request (r : HttpRequest) (h : Http11Handler) : Http11Handler :=
  mkHandler (buffer h) (isHeadersDone h) (bytesToRead h) (isTeRequest h) r.

(** [Http11Socket::read]: as [Http11Handler::readRequest], and the response is
    reset when there is a new head. *)
Definition socket_read (lazy : bool) (h : Http11Handler) (r : HttpResponse) : outcome (bool * Http11Handler * HttpResponse) :=
  let fresh := negb (isHeadersDone h) && bool_decide (is_Some (sfind HDR_FIN (buffer h))) in
  '(fl, _, h) ← readRequest lazy h;
  Ret (fl, h, if fresh then res_reset r else r).

Section server.
Context `{env : !Environment} (hsh : service) (lazy : bool) (chunkSize : Z).
Implicit Types (fs : files) (c : Http11Socket).

(** The loop of [handle]: the responses it adds to [outbuf].  A complete request
    takes at least a byte. *)
Fixpoint handle_loop (fuel : nat) fs (h : Http11Handler) (r : HttpResponse)
    : outcome (files * Http11Handler * HttpResponse * list bytes) :=
  match fuel with
  | O => Out_of_fuel
  | S fuel' =>
      if 0 <? slen (buffer h) then
        '(fl, h, r) ← socket_read lazy h r;
        if (fl : bool) then
          let v := hsh fs (request h) r in
          let h := with_request (sv_req v) h in
          if sv_answer v then
            '(d, fs, r) ← writeResponse (sv_files v) (sv_req v) (sv_url v) (sv_actUrl v) (sv_root v)
                            (if chunkSize <=? 0 then 0 else chunkSize) (sv_res v);
            '(fs, h, r, ds) ← handle_loop fuel' fs h r;
            Ret (fs, h, r, d :: ds)
          else handle_loop fuel' (sv_files v) h (sv_res v)
        else Ret (fs, h, r, [])
      else Ret (fs, h, r, [])
  end.

(** [handle]. *)
Definition handle fs c : outcome (bool * files * Http11Socket) :=
  '(n, s) ← readFrom (sock c);
  if n =? 0 then Ret (true, fs, mkH11 s (with_buffer (Sockets.buffer s) (reader c)) (res c) (outbuf c))
  else
    let h := with_buffer (Sockets.buffer s) (reader c) in
    '(fs, h, r, ds) ← handle_loop (S (length (buffer h))) fs h (res c);
    '(ob, s) ← queue_responses ds (outbuf c) (set_buffer (buffer h) s);
    Ret (closed s, fs, mkH11 s h r ob).

(** The events of [loopEventCb] on an open connection. *)
Inductive event := READ_READY | WRITE_READY.
Definition loopEventCb (e : event) fs c : outcome (files * Http11Socket) :=
  match e with
  | READ_READY => '(_, fs, c) ← handle fs c; Ret (fs, c)
  | WRITE_READY => '(ob, s) ← outbuf_write_ready (outbuf c) (sock c); Ret (fs, mkH11 s (reader c) (res c) ob)
  end.
Fixpoint loop (es : list event) fs c : outcome (files * Http11Socket) :=
  match es with
  | [] => Ret (fs, c)
  | e :: es => '(fs, c) ← loopEventCb e fs c; loop es fs c
  end.
End server.

(** ** Reading *)

(** What the kernel hands over without an error or an end of the stream. *)
Definition benign (k : recv_answer) : Prop :=
  match k with Chunk l => l ≠ [] | Recv_error => False | _ => True end.
Definition stream (ks : list recv_answer) : bytes :=
  flat_map (λ k, match k with Chunk l => l | _ => [] end) ks.

(** The output side of a socket. *)
Definition same_output (s s' : BaseSocket) : Prop :=
  wire s' = wire s ∧ closed s' = closed s ∧ writeRegistered s' = writeRegistered s ∧ sends s' = sends s.

Lemma same_output_refl s : same_output s s.
Proof. done. Qed.

Lemma readFrom_loop_benign ks s n s' :
  Forall benign ks → readFrom_loop ks s = Ret (n, s') →
  n ≠ 0 ∧ same_output s s' ∧ Forall benign (recvs s') ∧ Sockets.buffer s' ++ stream (recvs s') = Sockets.buffer s ++ stream ks.
Proof.
  intros Hk. revert s. induction Hk as [|k ks Hk Hks IH]; intros s; [done|]. cbn [readFrom_loop]. destruct k as [l| | |].
  - cbn [benign] in Hk. pose proof (slen_pos l Hk). replace (slen l =? 0) with false by lia. cbv zeta.
    change (stream (Chunk l :: ks)) with (l ++ stream ks). rewrite app_assoc. destruct (slen l <? 8192).
    + by intros [= <- <-].
    + intros (? & ? & ? & ?)%IH. done.
  - by intros [= <- <-].
  - by intros (? & ? & ? & ?)%IH.
  - done.
Qed.

Lemma readFrom_benign s n s' :
  Forall benign (recvs s) → readFrom s = Ret (n, s') →
  n ≠ 0 ∧ same_output s s' ∧ Forall benign (recvs s') ∧ Sockets.buffer s' ++ stream (recvs s') = Sockets.buffer s ++ stream (recvs s).
Proof.
  intros Hk. unfold readFrom. destruct (closed s); [by intros [= <- <-]|by apply readFrom_loop_benign].
Qed.

Lemma output_inv_same all ob s s' : same_output s s' → output_inv all ob s → output_inv all ob s'.
Proof. unfold output_inv. intros (-> & -> & -> & _). done. Qed.

(** Writing leaves the input side alone. *)
Lemma writeTo_loop_input ks d s r d' s' :
  writeTo_loop ks d s = Ret (r, d', s') → Sockets.buffer s' = Sockets.buffer s ∧ recvs s' = recvs s.
Proof.
  revert d s. induction ks as [|[n| |] ks IH]; intros d s; cbn [writeTo_loop]; [done| | |].
  - destruct (_ =? 0); [intros [= _ _ <-]; unfold closeSocket; by destruct (closed _)|].
    intros H. apply bind_Ret_inv in H as (o & _ & H). cbv zeta in H. destruct (_ =? _); [by injection H as _ _ <-|].
    by apply IH in H.
  - by intros [= _ _ <-].
  - intros [= _ _ <-]. unfold closeSocket. by destruct (closed _).
Qed.
Lemma writeTo_input d s r d' s' : writeTo d s = Ret (r, d', s') → Sockets.buffer s' = Sockets.buffer s ∧ recvs s' = recvs s.
Proof. unfold writeTo. destruct (_ || _); [done|]. destruct (closed s); [by intros [= _ _ <-]|apply writeTo_loop_input]. Qed.
Lemma flush_outbuf_input ob s ob' s' : flush_outbuf ob s = Ret (ob', s') → Sockets.buffer s' = Sockets.buffer s ∧ recvs s' = recvs s.
Proof.
  revert s. induction ob as [|d ob IH]; intros s; cbn [flush_outbuf]; [by intros [= _ <-]|].
  intros H. apply bind_Ret_inv in H as ([[r d1] s1] & Hw & H). apply writeTo_input in Hw as [<- <-]. cbn in H.
  destruct (r =? -1); [|by apply IH]. injection H as _ <-. unfold registerWrite. by destruct (closed s1).
Qed.
Lemma queue_responses_input rs ob s ob' s' : queue_responses rs ob s = Ret (ob', s') → Sockets.buffer s' = Sockets.buffer s ∧ recvs s' = recvs s.
Proof. unfold queue_responses. case_bool_decide; [by intros [= _ <-]|apply flush_outbuf_input]. Qed.
Lemma outbuf_write_ready_input ob s ob' s' : outbuf_write_ready ob s = Ret (ob', s') → Sockets.buffer s' = Sockets.buffer s ∧ recvs s' = recvs s.
Proof. intros [-> ->]%flush_outbuf_input. unfold unRegisterWrite. by destruct (closed s). Qed.

(** The response is as [reset] leaves it once a head is read. *)
Definition fresh_response (h : Http11Handler) (r : HttpResponse) : Prop := isHeadersDone h = true → ∃ r0, r = res_reset r0.

Lemma readRequest_no_head h fl p h' :
  readRequest false h = Ret (fl, p, h') → isHeadersDone h = false → sfind HDR_FIN (buffer h) = None → fl = false ∧ h' = h.
Proof. unfold readRequest, read_head. intros H Hd Hs. rewrite Hd, Hs, bind_Ret_l, Hd in H. by injection H as <- _ <-. Qed.

Lemma socket_read_fresh h r fl p h' :
  readRequest false h = Ret (fl, p, h') → fresh_response h r →
  ∃ r', socket_read false h r = Ret (fl, h', r') ∧ (isHeadersDone h' = true ∨ fl = true → ∃ r0, r' = res_reset r0).
Proof.
  intros H Hr. unfold socket_read. rewrite H, bind_Ret_l. eexists. split; [done|]. intros Hd.
  destruct (isHeadersDone h) eqn:Eh; cbn [negb andb].
  - by apply Hr.
  - case_bool_decide as Es; [by eexists|]. apply eq_None_not_Some in Es.
    destruct (readRequest_no_head h fl p h' H Eh Es) as [-> ->]. rewrite Eh in Hd. by destruct Hd.
Qed.

Section connection.
Context `{env : !Environment} (hsh : service) (chunkSize : Z) (fs : files) (answer : request_text → bytes).

(** The service answers a request [t], and what is written is [answer t]. *)
Definition serves (t : request_text) : Prop :=
  answer t ≠ [] ∧ slen (answer t) < 2 ^ 31 ∧
  ∀ r, let v := hsh fs (request_of t) (res_reset r) in
       sv_answer v = true ∧
       ∃ r', writeResponse (sv_files v) (sv_req v) (sv_url v) (sv_actUrl v) (sv_root v) (if chunkSize <=? 0 then 0 else chunkSize) (sv_res v)
             = Ret (answer t, fs, r').

Lemma handle_loop_ready fuel h r ts y :
  Forall text_ok ts → Forall body_bound ts → Forall serves ts → ready h ts y → slen (buffer h) < 2 ^ 31 →
  (length (buffer h) < fuel)%nat → body_awaited h ts → fresh_response h r →
  ∃ ts1 ts2 h' r', ts = ts1 ++ ts2 ∧ handle_loop hsh false chunkSize fuel fs h r = Ret (fs, h', r', map answer ts1) ∧
    expects h' ts2 y ∧ fresh_response h' r'.
Proof.
  intros Hok. revert fuel h r. induction Hok as [|t ts Ht Hok IH]; intros fuel h r Hb Hs Hr Hl Hf Hne Hfr;
    (destruct fuel as [|fuel]; [lia|]); cbn [handle_loop].
  - apply ready_nothing in Hr as (E & -> & Hx). rewrite E. by exists [], [], h, r.
  - apply Forall_cons in Hb as [Hbt Hb]. apply Forall_cons in Hs as [Hst Hs]. destruct (0 <? slen (buffer h)) eqn:Epos.
    + destruct (readRequest_ready h t ts y Ht Hbt Hr Hl Hne) as [(h' & Hrd & Hreq & Hi & E & Hlt)|(p & h' & Hrd & Hx)];
        destruct (socket_read_fresh h r _ _ _ Hrd Hfr) as (r1 & -> & Hr1); rewrite bind_Ret_l.
      * destruct Hr1 as [r0 ->]; [by right|]. destruct Hst as (_ & _ & Hst). specialize (Hst r0). cbv zeta in *. rewrite Hreq.
        set (v := hsh _ _ _) in *. destruct Hst as [-> [r' ->]]. rewrite bind_Ret_l.
        destruct (IH fuel (with_request (sv_req v) h') r' Hb Hs) as (ts1 & ts2 & h2 & r2 & -> & Hrun & Hx & Hfr2).
        { by constructor. } { cbn. unfold slen in *. lia. } { cbn. lia. } { by apply idle_body_awaited. }
        { intros Hd. by rewrite (proj1 Hi : isHeadersDone (with_request _ h') = false) in Hd. }
        rewrite Hrun. by exists (t :: ts1), ts2, h2, r2.
      * exists [], (t :: ts), h', r1. split_and!; [done|done|done|]. intros Hd. apply Hr1. by left.
    + exists [], (t :: ts), h, r. split_and!; [done|done| |done]. apply ready_empty; [done| |done].
      destruct (buffer h) eqn:E; [done|]. rewrite slen_cons in Epos. pose proof (slen_nonneg l). lia.
Qed.

(** ** The connection *)

Definition answers (ts : list request_text) : bytes := concat (map answer ts).

(** Some requests are answered, the others are to come: in the buffer or from
    the kernel. *)
Definition conn_inv (ts : list request_text) (c : Http11Socket) : Prop :=
  ∃ ts1 ts2, ts = ts1 ++ ts2 ∧ Sockets.buffer (sock c) = buffer (reader c) ∧ Forall benign (recvs (sock c)) ∧
    expects (reader c) ts2 (stream (recvs (sock c))) ∧ fresh_response (reader c) (res c) ∧
    output_inv (answers ts1) (outbuf c) (sock c).

Definition well_served (ts : list request_text) : Prop :=
  Forall text_ok ts ∧ Forall serves ts ∧ slen (concat (map render ts)) < 2 ^ 31.

Lemma well_served_bodies ts : well_served ts → Forall body_bound ts.
Proof.
  intros (_ & _ & Hl). apply Forall_forall. intros t Ht. unfold body_bound.
  apply list_elem_of_split in Ht as (l1 & l2 & ->). rewrite map_app, concat_app in Hl. cbn [map concat] in Hl.
  unfold render at 2 in Hl. rewrite !slen_app in Hl. pose proof (slen_nonneg (text_head t)).
  pose proof (slen_nonneg (concat (map render l1))). pose proof (slen_nonneg (concat (map render l2))). lia.
Qed.

Lemma well_served_app ts1 ts2 : well_served (ts1 ++ ts2) → well_served ts1 ∧ well_served ts2.
Proof.
  intros ((? & ?)%Forall_app & (? & ?)%Forall_app & Hl). rewrite map_app, concat_app, slen_app in Hl.
  pose proof (slen_nonneg (concat (map render ts1))). pose proof (slen_nonneg (concat (map render ts2))).
  split; (split_and!; [done|done|lia]).
Qed.

(** The reading half of [handle]. *)
Lemma handle_reads ts2 c n s :
  well_served ts2 → Sockets.buffer (sock c) = buffer (reader c) → Forall benign (recvs (sock c)) →
  expects (reader c) ts2 (stream (recvs (sock c))) → fresh_response (reader c) (res c) →
  readFrom (sock c) = Ret (n, s) →
  let h := with_buffer (Sockets.buffer s) (reader c) in
  n ≠ 0 ∧ same_output (sock c) s ∧ Forall benign (recvs s) ∧
  ∃ ts1 ts3 h' r', ts2 = ts1 ++ ts3 ∧
    handle_loop hsh false chunkSize (S (length (buffer h))) fs h (res c) = Ret (fs, h', r', map answer ts1) ∧
    expects h' ts3 (stream (recvs s)) ∧ fresh_response h' r'.
Proof.
  intros Hw Hbuf Hk Hx Hfr Hrd h. destruct (readFrom_benign _ _ _ Hk Hrd) as (Hn & Hs & Hk' & Hst).
  split_and!; [done|done|done|]. pose proof (well_served_bodies _ Hw). destruct Hw as (Hok & Hsv & Hl).
  pose proof (expects_buffer _ _ _ Hx) as Hlen. rewrite Hbuf in Hst.
  assert (∃ l, Sockets.buffer s = buffer (reader c) ++ l ∧ stream (recvs (sock c)) = l ++ stream (recvs s)) as (l & El & Es).
  { apply app_split in Hst as (l & El & Es); [by exists l|]. apply (f_equal length) in Hst. rewrite !length_app in Hst.
    assert (∀ ks a b n' , readFrom_loop ks a = Ret (n', b) → length (Sockets.buffer a) ≤ length (Sockets.buffer b))%nat as Hmono.
    { clear. induction ks as [|[l| | |] ks IH]; intros a b n'; cbn [readFrom_loop]; try done.
      - destruct (slen l =? 0); [intros [= _ <-]; unfold closeSocket; by destruct (closed _)|]. cbv zeta. destruct (_ <? _).
        + intros [= _ <-]. cbn. rewrite length_app. lia.
        + intros H%IH. cbn in H. rewrite length_app in H. lia.
      - by intros [= _ <-].
      - by intros ?%IH.
      - intros [= _ <-]. unfold closeSocket. by destruct (closed _). }
    rewrite <- Hbuf. unfold readFrom in Hrd. destruct (closed (sock c)); [by injection Hrd as _ <-|by eapply Hmono]. }
  rewrite Es in Hx. destruct (expects_ready _ _ _ _ Hx) as [Hr Hne].
  unfold h. rewrite El. apply handle_loop_ready; try done.
  - cbn. rewrite <- El. rewrite El, slen_app. rewrite Es, slen_app in Hlen. pose proof (slen_nonneg (stream (recvs s))). lia.
  - cbn. lia.
Qed.

Lemma serves_bounds ts : Forall serves ts → Forall (λ r, slen r < 2 ^ 31) (map answer ts).
Proof. intros H. apply Forall_fmap. eapply Forall_impl; [exact H|]. by intros t (_ & ? & _). Qed.

Lemma loopEventCb_inv ts e fs' c c' :
  well_served ts → conn_inv ts c → loopEventCb hsh false chunkSize e fs c = Ret (fs', c') → fs' = fs ∧ conn_inv ts c'.
Proof.
  intros Hw (ts1 & ts2 & -> & Hbuf & Hk & Hx & Hfr & Ho) H. pose proof (well_served_app _ _ Hw) as [Hw1 Hw2].
  destruct e; cbn [loopEventCb] in H.
  - unfold handle in H. rewrite bind_assoc in H. apply bind_Ret_inv in H as ([n s] & Hrd & H).
    destruct (handle_reads ts2 c n s) as (Hn & Hs & Hk' & ts3 & ts4 & h' & r' & -> & Hrun & Hx' & Hfr'); try done.
    replace (n =? 0) with false in H by lia. rewrite Hrun, bind_Ret_l, bind_assoc in H.
    apply bind_Ret_inv in H as ([ob s2] & Hq & H). rewrite bind_Ret_l in H. injection H as <- <-. split; [done|].
    apply well_served_app in Hw2 as [(_ & Hsv3 & _) _].
    assert (output_inv (answers ts1 ++ concat (map answer ts3)) ob s2) as Ho2.
    { apply (output_step_inv (answers ts1) (Responses (map answer ts3)) (outbuf c) (set_buffer (buffer h') s)); [by apply serves_bounds| |done].
      eapply (output_inv_same _ _ s); [done|]. by eapply output_inv_same. }
    exists (ts1 ++ ts3), ts4. unfold answers. rewrite map_app, concat_app, <- app_assoc.
    apply queue_responses_input in Hq as [E1 E2]. cbn [sock reader res outbuf]. rewrite E1, E2. cbn [recvs set_buffer]. done.
  - apply bind_Ret_inv in H as ([ob s] & Hq & H). injection H as <- <-. split; [done|].
    assert (output_inv (answers ts1 ++ concat []) ob s) as Ho2.
    { by apply (output_step_inv (answers ts1) Sockets.Write_ready (outbuf c) (sock c)). }
    cbn in Ho2. rewrite app_nil_r in Ho2. exists ts1, ts2. apply outbuf_write_ready_input in Hq as [E1 E2]. cbn [sock reader res outbuf]. rewrite E1, E2. done.
Qed.

Lemma loop_inv ts es fs' c c' :
  well_served ts → conn_inv ts c → loop hsh false chunkSize es fs c = Ret (fs', c') → fs' = fs ∧ conn_inv ts c'.
Proof.
  intros Hw. revert c. induction es as [|e es IH]; intros c Hc; cbn [loop].
  - by intros [= <- <-].
  - intros H. apply bind_Ret_inv in H as ([fs1 c1] & H1 & H). eapply loopEventCb_inv in H1 as [-> Hc1]; [|done|done]. by apply IH in H.
Qed.

Lemma conn_inv_new ts s :
  Forall text_ok ts → BaseSocket_new (sends s) (recvs s) = s → Forall benign (recvs s) → stream (recvs s) = concat (map render ts) →
  conn_inv ts (Http11Socket_new s).
Proof.
  intros Hok Hs Hk Hst. exists [], ts. rewrite <- Hs at 1 5. split_and!; try done.
  - cbn. constructor; [done|done|]. destruct ts as [|t ts]; [done|]. pose proof (head_length t). cbn. lia.
  - split_and!; [by constructor|by rewrite <- Hs|]. intros _. by rewrite <- Hs.
Qed.

(** When there is nothing to come, there is no request to wait for. *)
Lemma expects_nothing h ts : expects h ts [] → ts = [].
Proof.
  intros Hx. inversion Hx as [h0 ts0 y0 Hi E Hs|h0 t0 ts0 y0 Hi E Hs]; subst; rewrite app_nil_r in E.
  - destruct ts as [|t ts]; [done|]. rewrite E in Hs. cbn [map concat] in Hs. unfold render in Hs. rewrite !length_app in Hs. lia.
  - rewrite E, length_app in Hs. lia.
Qed.

(** C9: the connection of the multi-request server.  Well-formed requests come in,
    cut in any way; the service answers each of them; the kernel takes as many bytes
    as it likes when it likes.  Whatever events the loop gets, the bytes on the wire
    are a prefix of the answers in the order of the requests.  When everything has
    been read and the socket is open, the queue holds exactly the rest, and if it is
    not empty there is a write event to wait for. *)
Theorem connection_answers_in_order ts es ks rs fs' c :
  well_served ts → Forall benign rs → stream rs = concat (map render ts) →
  loop hsh false chunkSize es fs (Http11Socket_new (BaseSocket_new ks rs)) = Ret (fs', c) →
  wire (sock c) `prefix_of` answers ts ∧
  (recvs (sock c) = [] → closed (sock c) = false →
     wire (sock c) ++ pending (outbuf c) = answers ts ∧ (outbuf c ≠ [] → writeRegistered (sock c) = true)).
Proof.
  intros Hw Hk Hst H. pose proof Hw as (Hok & Hsv & _).
  apply (loop_inv ts) in H as [_ (ts1 & ts2 & -> & Hbuf & _ & Hx & _ & _ & Hp & Ho)];
    [|done|by apply conn_inv_new].
  split.
  - unfold answers. rewrite map_app, concat_app. by apply prefix_app_same.
  - intros Hr Hc. rewrite Hr in Hx. apply expects_nothing in Hx as ->. rewrite app_nil_r. by apply Ho.
Qed.

(** The state of a connection whose peer reads as fast as it is answered. *)
Definition drained (ts1 ts2 : list request_text) (chunks : list bytes) (c : Http11Socket) : Prop :=
  Sockets.buffer (sock c) = buffer (reader c) ∧ recvs (sock c) = map Chunk chunks ∧
  expects (reader c) ts2 (concat chunks) ∧ fresh_response (reader c) (res c) ∧ outbuf c = [] ∧
  closed (sock c) = false ∧ wire (sock c) = answers ts1 ∧ Forall live (sends (sock c)) ∧
  (length (answers ts2) ≤ length (sends (sock c)))%nat.

Lemma stream_chunks chunks : stream (map Chunk chunks) = concat chunks.
Proof. induction chunks as [|l chunks IH]; [done|]. cbn. by rewrite <- IH. Qed.

Lemma queue_responses_live ds s :
  Forall (λ d, d ≠ [] ∧ slen d < 2 ^ 31) ds → closed s = false → Forall live (sends s) → (length (concat ds) ≤ length (sends s))%nat →
  ∃ s', queue_responses ds [] s = Ret ([], s') ∧ wire s' = wire s ++ concat ds ∧ closed s' = false ∧
    Forall live (sends s') ∧ (length (sends s) - length (concat ds) ≤ length (sends s'))%nat.
Proof.
  intros Hd Hc Hk Hl. unfold queue_responses. case_bool_decide as E.
  - subst ds. exists s. cbn [map app concat]. rewrite app_nil_r. split_and!; try done. apply Nat.le_sub_l.
  - pose proof (flush_live (map (λ r, mkRD r 0) ds) s) as H. rewrite pending_new in H. apply H; try done.
    apply Forall_fmap. eapply Forall_impl; [exact Hd|]. intros d [Hne Hb]. unfold compose, rd_ok, rest. cbn [rd_b rd_oft].
    pose proof (slen_nonneg d). split; [lia|done].
Qed.

Lemma read_drained ts1 ts2 l chunks c :
  well_served ts2 → 0 < slen l < 8192 → Forall (λ l, 0 < slen l < 8192) chunks → drained ts1 ts2 (l :: chunks) c →
  ∃ ts3 ts4 c', ts2 = ts3 ++ ts4 ∧ loopEventCb hsh false chunkSize READ_READY fs c = Ret (fs, c') ∧ drained (ts1 ++ ts3) ts4 chunks c'.
Proof.
  intros Hw Hl Hls (Hbuf & Hrc & Hx & Hfr & Hob & Hc & Hwi & Hlive & Hlen).
  set (s := set_recvs (map Chunk chunks) (set_buffer (Sockets.buffer (sock c) ++ l) (sock c))).
  assert (readFrom (sock c) = Ret (1, s)) as Hrd.
  { unfold readFrom. rewrite Hc, Hrc. cbn [map readFrom_loop]. replace (slen l =? 0) with false by lia. cbv zeta.
    by replace (slen l <? 8192) with true by lia. }
  assert (Forall benign (recvs (sock c))) as Hben.
  { rewrite Hrc. change (map Chunk (l :: chunks)) with (Chunk <$> (l :: chunks)). apply Forall_fmap. 
    apply (Forall_impl (λ l, 0 < slen l < 8192)); [by constructor|]. intros x Hx0.
    unfold compose, benign. intros E. cbn in Hx0. rewrite E, slen_nil in Hx0. lia. }
  assert (stream (recvs (sock c)) = concat (l :: chunks)) as Hst by (by rewrite Hrc, stream_chunks).
  rewrite <- Hst in Hx.
  destruct (handle_reads ts2 c 1 s) as (_ & _ & _ & ts3 & ts4 & h' & r' & -> & Hrun & Hx' & Hfr'); try done.
  unfold loopEventCb, handle. rewrite Hrd, bind_Ret_l. change (1 =? 0) with false. cbv iota. rewrite Hrun, bind_Ret_l, Hob.
  apply well_served_app in Hw as [(_ & Hsv & _) _]. unfold answers in Hlen. rewrite map_app, concat_app, length_app in Hlen.
  destruct (queue_responses_live (map answer ts3) (set_buffer (buffer h') s)) as (s2 & Hq & Hw2 & Hc2 & Hl2 & Hn2); try done.
  { apply Forall_fmap. eapply Forall_impl; [exact Hsv|]. by intros t (? & ? & _). }
  { cbn. lia. }
  rewrite Hq, !bind_Ret_l. pose proof (queue_responses_input _ _ _ _ _ Hq) as [E1 E2].
  exists ts3, ts4. eexists. split; [done|]. split; [done|]. unfold drained. cbn [sock reader res outbuf].
  rewrite E1, E2, Hw2. cbn [Sockets.buffer recvs set_buffer wire s set_recvs]. rewrite Hwi.
  cbn [recvs set_recvs s] in Hx'. rewrite stream_chunks in Hx'. split_and!; try done.
  - unfold answers. by rewrite map_app, concat_app.
  - cbn [sends set_buffer set_recvs s] in Hn2. unfold answers. lia.
Qed.

Lemma loop_drained chunks : ∀ ts1 ts2 c,
  well_served ts2 → Forall (λ l, 0 < slen l < 8192) chunks → drained ts1 ts2 chunks c →
  ∃ c', loop hsh false chunkSize (replicate (length chunks) READ_READY) fs c = Ret (fs, c') ∧ drained (ts1 ++ ts2) [] [] c'.
Proof.
  induction chunks as [|l chunks IH]; intros ts1 ts2 c Hw Hls Hd.
  - exists c. split; [done|]. assert (ts2 = []) as -> by (by eapply expects_nothing; apply Hd). by rewrite app_nil_r.
  - apply Forall_cons in Hls as [Hl Hls].
    destruct (read_drained ts1 ts2 l chunks c) as (ts3 & ts4 & c1 & -> & H1 & Hd1); try done.
    apply well_served_app in Hw as [_ Hw]. destruct (IH (ts1 ++ ts3) ts4 c1 Hw Hls Hd1) as (c2 & H2 & Hd2).
    exists c2. cbn [length replicate loop]. rewrite H1, bind_Ret_l, H2. split; [done|]. by rewrite app_assoc.
Qed.

Lemma run_drained ts chunks ks :
  well_served ts → concat chunks = concat (map render ts) → Forall (λ l, 0 < slen l < 8192) chunks →
  Forall live ks → (length (answers ts) ≤ length ks)%nat →
  ∃ c, loop hsh false chunkSize (replicate (length chunks) READ_READY) fs (Http11Socket_new (BaseSocket_new ks (map Chunk chunks))) = Ret (fs, c) ∧
    drained ts [] [] c.
Proof.
  intros Hw E Hls Hk Hl.
  apply (loop_drained chunks [] ts (Http11Socket_new (BaseSocket_new ks (map Chunk chunks))) Hw Hls).
  unfold drained. cbn. split_and!; try done.
  constructor; [done|done|]. destruct ts as [|t ts']; [done|]. pose proof (head_length t). cbn. lia.
Qed.

(** C2: every request is answered.  The bytes of well-formed requests come in one
    piece per read event, the kernel takes at least a byte per call.  The loop comes
    back from every event, and then all the answers are on the wire, in the order of
    the requests, the queue is empty and the connection open. *)
Theorem connection_answers_everything ts chunks ks :
  well_served ts → concat chunks = concat (map render ts) → Forall (λ l, 0 < slen l < 8192) chunks →
  Forall live ks → (length (answers ts) ≤ length ks)%nat →
  ∃ c, loop hsh false chunkSize (replicate (length chunks) READ_READY) fs (Http11Socket_new (BaseSocket_new ks (map Chunk chunks))) = Ret (fs, c) ∧
    wire (sock c) = answers ts ∧ outbuf c = [] ∧ closed (sock c) = false.
Proof.
  intros Hw E Hls Hk Hl. destruct (run_drained ts chunks ks Hw E Hls Hk Hl) as (c & H & Hd).
  exists c. split; [done|]. destruct Hd as (_ & _ & _ & _ & ? & ? & ? & _). done.
Qed.
End connection.

(** ** Witnesses *)

#[local] Existing Instance sample_environment.

(** A service that answers everything with one file. *)
Definition sample_service : service := λ fs req r, mkServed true fs req sample_url (str "/a.txt") (str "/w") (update req r).
Definition sample_answer (t : request_text) : bytes := whole_text (request_of t) sample_url (str "0123456789").
Definition sample_requests : list request_text := [post_request; get_request; post_request].

Lemma sample_plain_get t : t = get_request ∨ t = post_request → plain_get 11 (request_of t).
Proof.
  intros [-> | ->]; (split; [eexists _, _; split; [reflexivity|]; apply (bool_decide_unpack _); by vm_compute|]); done.
Defined.

Lemma sample_served : well_served sample_service 0 (sample_files (str "0123456789")) sample_answer sample_requests.
Proof.
  split; [apply sample_requests_ok|]. split; [|by vm_compute].
  assert (∀ t, t = get_request ∨ t = post_request →
    serves sample_service 0 (sample_files (str "0123456789")) sample_answer t) as H.
  { intros t Ht. split; [done|]. split; [destruct Ht as [-> | ->]; by vm_compute|].
    intros r. split; [done|].
    apply whole_response; [by apply sample_plain_get|done|apply sample_fopen|by left|done]. }
  repeat (apply Forall_cons; split; [apply H; auto|]). by apply Forall_nil.
Defined.

Definition sample_chunks : list bytes := [take 10 sample_stream; take 90 (drop 10 sample_stream); drop 100 sample_stream].
Definition sample_kernel : list send_answer := replicate (length (answers sample_answer sample_requests)) (Room 1).

Lemma sample_chunks_ok :
  concat sample_chunks = concat (map render sample_requests) ∧ Forall (λ l, 0 < slen l < 8192) sample_chunks ∧ Forall live sample_kernel ∧
  (length (answers sample_answer sample_requests) ≤ length sample_kernel)%nat.
Proof.
  split_and!.
  - by vm_compute.
  - apply (bool_decide_unpack _). by vm_compute.
  - apply Forall_replicate. by exists 0%nat.
  - unfold sample_kernel. by rewrite length_replicate.
Defined.

Lemma connection_answers_everything_witness :
  ∃ c, loop sample_service false 0 (replicate 3 READ_READY) (sample_files (str "0123456789"))
         (Http11Socket_new (BaseSocket_new sample_kernel (map Chunk sample_chunks)))
       = Ret (sample_files (str "0123456789"), c) ∧
    wire (sock c) = answers sample_answer sample_requests ∧ outbuf c = [] ∧ closed (sock c) = false.
Proof.
  destruct sample_chunks_ok as (? & ? & ? & ?).
  by apply (connection_answers_everything sample_service 0 (sample_files (str "0123456789")) sample_answer sample_requests sample_chunks
    sample_kernel sample_served).
Defined.

Lemma connection_answers_in_order_witness :
  ∃ c, loop sample_service false 0 (replicate 3 READ_READY) (sample_files (str "0123456789"))
         (Http11Socket_new (BaseSocket_new sample_kernel (map Chunk sample_chunks)))
       = Ret (sample_files (str "0123456789"), c) ∧
    wire (sock c) `prefix_of` answers sample_answer sample_requests.
Proof.
  destruct sample_chunks_ok as (E & Hc & Hk & Hl).
  destruct (run_drained sample_service 0 (sample_files (str "0123456789")) sample_answer sample_requests sample_chunks
    sample_kernel sample_served E Hc Hk Hl) as (c & H & _).
  exists c. split; [exact H|]. refine (proj1 (connection_answers_in_order _ _ _ _ _ _ _ _ _ c sample_served _ _ H)).
  - repeat (apply Forall_cons; split; [by cbn|]). by apply Forall_nil.
  - rewrite stream_chunks. exact E.
Defined.
